(* ===== verification/_CoqProject ===== *)
-Q . S2P
Prelude.v
GoStrings.v
NumSet.v
Planner.v
Retry.v
Schema.v
StoreMailboxes.v
StoreMessages.v
StoreMutations.v
StoreRuns.v
StoreAccounts.v
StoreBrowse.v
StoreInvariant.v
StoreSteps.v
StoreProps.v
Upstream.v
Commands.v
Blob.v
Text.v
GoParse.v
NumText.v
GoFloat.v
Mailstore.v
SyncMeta.v
SyncPass.v
SyncPassProps.v
BodyPass.v
BodyPassProps.v
Producer.v
ImapText.v
ImapTextProps.v
ImapSearch.v
Crypto.v
Effects.v
ImapSession.v
ImapConn.v
ImapConnProps.v
ImapTheorems.v
ImapStore.v
ImapFaults.v
ImapReports.v
SyncRun.v
SyncRunProps.v
SyncRunNet.v
SyncRunTheorems.v
Replay.v
ReplayProps.v
ReplayTheorems.v
Config.v
ConfigProps.v
Network.v
ConfigLoad.v
ConfigLoadProps.v
ConfigText.v
ConfigTextProps.v
Display.v
Search.v
Web.v
WebHandlers.v
Visible.v
Twin.v
WebIsolation.v
WebExamples.v
WebTheorems.v
WebAuth.v
WebLogin.v
WebPages.v
WebStream.v
Cli.v
CliProps.v
Service.v
ServiceProps.v
Mirror.v
Download.v
ReplayServer.v
