(* ===== verification/Prelude.v ===== *)
(** Verification of imapped, a server that mirrors IMAP mailboxes into a PostgreSQL
    database and an object store, and serves the mirror to mail clients (IMAP) and to a
    browser (HTTP).

    * The program

    - A {b sync run} (internal/syncer) takes an account's lock, connects upstream
      (internal/upstream), lists the mailboxes, and for each runs a metadata pass (new
      messages, flags, deletions, checkpoints) beside a body pass (a producer that claims
      pending bodies and workers that download them in batches).
    - The {b store} (internal/store) is every statement on the database; internal/blob is
      the content-addressed object store; internal/mailstore parses a message and records
      its parts.
    - The {b IMAP server} (internal/imapsrv, over the vendored third_party/go-imap) answers
      clients from both and queues their flag changes, which internal/syncer/mutations.go
      replays upstream.
    - The {b web interface} (internal/web) signs users in, manages accounts, shows messages,
      searches (internal/search) and streams progress.
    - {b Around it}: configuration (internal/config), credentials (internal/crypto), the
      command line (internal/cli, internal/app), and the process with its listeners and
      loops (internal/cli/run.go, internal/httpsrv, internal/obs).

    * Conventions

    Go strings and byte slices are lists of bytes; fixed-width integers are [Z] with the
    wrap-around written out ([i64], [u32], below); errors are values of [Retry.err] with
    the text and the chain that errors.Is walks.  A method of the store is a state monad
    over [Schema.DB] ([sql]); a handler of a server is a program of [Effects.SE] over its
    state, which may stop with an error; code that others run beside is a function of the
    world and of an environment that decides, call by call, which store call or command
    fails and what others do to the database in between.  Goroutines that matter together
    are step relations ([BodyPass.pool_step], [Download.pass_step], [StoreRuns],
    [Service.group_step]).  Recursion that is not structural has fuel, and a theorem that
    enough of it is there.

    * Files and what they model

    Foundations: Prelude (integers, tactics, hints), GoStrings, GoParse, GoFloat (strings,
    strconv and float64 of Go), Text (UTF-8 and the cleaning of text), Effects and Twin (the
    monad of the handlers, its triples and its relational logic).

    - NumSet, NumText: number sets (go-imap's internal/imapnum), as ranges and as text.
    - Planner: grouping messages into commands (internal/syncer/planner.go).
    - Retry, Upstream, Commands, Network: errors and backoff, the self-healing session, one
      connection's commands, dialling and deadlines (internal/upstream).
    - Schema, StoreMailboxes, StoreMessages, StoreMutations, StoreRuns, StoreAccounts,
      StoreBrowse: the tables of internal/db/migrations and every method of
      internal/store, a file of the development per file of the package.
    - StoreInvariant, StoreSteps, StoreProps: the invariant [db_wf], the store as a
      transition system, and what each method does.
    - Blob: internal/blob, the interface as the class [BlobStore] with its laws, and both
      implementations.
    - Mailstore: internal/mailstore over the answer of the MIME parser.
    - SyncMeta, SyncPass(Props): claims, progress, order, conversion of rows, and the
      metadata pass (internal/syncer/engine.go, claims.go, mailbox.go).
    - BodyPass(Props), Producer: downloading bodies.
    - SyncRun, SyncRunProps, SyncRunNet, SyncRunTheorems: a whole run (engine.go).
    - Replay, ReplayProps, ReplayTheorems, ReplayServer: replaying changes upstream
      (mutations.go).
    - Mirror: claiming, downloading and serving composed; Download: a whole body pass, its
      rounds and bodies in any interleaving.
    - Crypto: password hashes and sealed credentials (internal/crypto).
    - ImapText(Props), ImapSearch, ImapSession, ImapConn, ImapConnProps, ImapTheorems,
      ImapStore, ImapFaults, ImapReports: what the IMAP server serves, its sessions and its
      connections (internal/imapsrv, third_party/go-imap/imapserver).
    - Config(Props), ConfigLoad(Props), ConfigText(Props): fields, validation, loading with
      provenance, durations and sizes as text (internal/config).
    - Search, Web, WebHandlers, Display: the query of internal/search; sign-in, routes,
      pages, events and the functions of the templates (internal/web).
    - Visible, WebIsolation, WebExamples, WebTheorems, WebAuth, WebLogin, WebPages,
      WebStream: what the interface promises.
    - Cli(Props), Service(Props): commands, and the process.

    Definitions have the names of the Go functions they translate, prefixed by the file
    where two collide; a loop, a literal or a condition of a longer function that is a
    definition of its own stands before the function.

    * What the theorems show

    - The mirror: every reachable database satisfies its invariant and local UIDs are never
      reused (StoreSteps); a checkpoint never covers a message that is not recorded, and an
      undisturbed metadata pass leaves exactly the server's messages (SyncPassProps); what
      is recorded as stored is in the object store, and a delivered body is stored, whatever
      fails (BodyPassProps); nothing that a round claims is lost before it is fetched
      (Producer), and a pass that nothing disturbs ends with every body stored (Download);
      what a client reads is what the server delivered (Mirror).
    - Concurrency and time: claims and account locks are exclusive (StoreProps, StoreRuns),
      when the body pass can stand still (BodyPassProps), a run leaves no connection and no
      lock behind and its outcome is recorded (SyncRunTheorems), replaying ends and settles
      every change due (ReplayTheorems), opening a connection always ends (Network), a round
      of syncs ends with every account synced once (ServiceProps).
    - Isolation: a mail client reaches its own user's mail and changes only flags
      (ImapTheorems, ImapStore); what a browser is shown depends on its user's rows alone
      (WebTheorems); every change needs a session and the token (WebAuth); a password only
      reaches its own server (Network); no secret is shown (ConfigLoadProps).
    - Function: what SELECT, FETCH, STORE, SEARCH and the pages answer, on success and on
      failure, including the commands that never return (ImapFaults); what validation
      accepts and what follows from it (ConfigProps).
    - Round trips and refinements: number sets, sections, addresses, passwords, credentials,
      durations and sizes survive being written and read; both object stores refine one
      interface; optimised loops compute their specification (NumSet, ImapText, ImapSearch).
    - Ending: the flaws found are theorems too (a FETCH that hangs, a UID set whose
      expansion never ends, a page number that overflows, a size that is not checked).

    * Bounds and fuel

    [NumSet.Range_append_loop] needs one step per number and one to stop, and has a theorem
    that no fuel is enough at 2^32-1.  [Upstream.Do_loop] is given one more than the
    attempts allowed; [Replay.ReplayMutations] one more batch than there are changes due,
    which suffices while the delays outlast the pass and otherwise may not; the components
    of a duration one per byte ([ConfigText.components]); the unit of a size seven
    divisions ([Display.find_unit]), enough for 64 bits.

    * Parameters

    What is not source of the program is an argument: the IMAP client library's and the
    network's answers, the TLS library, MIME parsing, SHA-256, Argon2, HKDF and AES-GCM, the
    template engine, the operating system, TOML and environment decoding, PostgreSQL's text
    search, and what Go leaves open (the order of maps, the choice of select, float
    conversions out of range).  Laws that code relies on are classes ([AEAD],
    [BlobStoreLaws], [Connection]) or named hypotheses, each with an instance that computes.

    * Not modelled

    - PostgreSQL below the level of statements: a statement or transaction is one step, and
      isolation anomalies between concurrent statements are left out.
    - The vendored IMAP library below its interface: lexing commands, encoding replies,
      literals, the modified UTF-7 of mailbox names, AUTHENTICATE, ENABLE, STARTTLS on the
      server side, its client and its in-memory server.  The program replaces none of it.
    - Applying migrations, which the goose library does (internal/db/migrate.go only calls
      it), cobra's flag parsing, the metrics and profiling handlers, logging, the embedded
      templates and static files, and the layout of dates by time.Format: I/O and glue
      around library calls, without decisions of the program's own.
    - internal/testutil: a fake IMAP server and a throw-away PostgreSQL for the tests.
    - Waiting for background tasks at shutdown and the tickers of the loops: what one tick
      does is modelled, when it comes is not. *)
From Stdlib Require Export ZArith Lia Ascii.
From stdpp Require Export base tactics strings list gmap numbers option sorting.

#[global] Set Default Goal Selector "!".

(** * Machine integers

    Go's fixed-width integers are modelled as [Z]; every operation whose result
    could leave its type's range is written with the wrap-around explicit. *)

Open Scope Z_scope.

Definition u32_mod : Z := 4294967296.
Definition u32_max : Z := 4294967295.
Definition u32 (z : Z) : Z := z `mod` 4294967296.
Definition i64 (z : Z) : Z :=
  (z + 9223372036854775808) `mod` 18446744073709551616 - 9223372036854775808.
Definition i32 (z : Z) : Z := (z + 2147483648) `mod` 4294967296 - 2147483648.

Definition is_u32 (z : Z) : Prop := 0 <= z < 4294967296.
Definition is_i64 (z : Z) : Prop := -9223372036854775808 <= z < 9223372036854775808.

Lemma u32_id z : is_u32 z -> u32 z = z.
Proof. unfold is_u32, u32. intros. by rewrite Z.mod_small by lia. Qed.
Lemma u32_range z : is_u32 (u32 z).
Proof. unfold is_u32, u32. apply Z.mod_pos_bound. lia. Qed.
Lemma i64_id z : is_i64 z -> i64 z = z.
Proof. unfold is_i64, i64. intros. rewrite Z.mod_small by lia. lia. Qed.
Lemma i64_range z : is_i64 (i64 z).
Proof.
  unfold is_i64, i64.
  pose proof (Z.mod_pos_bound (z + 9223372036854775808) 18446744073709551616). lia.
Qed.

Create HintDb imapped.
#[export] Hint Resolve u32_range i64_range : imapped.
Create Rewrite HintDb ints.
#[export] Hint Rewrite u32_id i64_id using (unfold is_u32, is_i64 in *; lia) : ints.

(** Turns the boolean tests of the translated guards into propositions. *)
Ltac bool_to_prop :=
  repeat match goal with
  | H : _ && _ = true |- _ => apply andb_true_iff in H as [? ?]
  | H : _ && _ = false |- _ => apply andb_false_iff in H
  | H : _ || _ = true |- _ => apply orb_true_iff in H
  | H : _ || _ = false |- _ => apply orb_false_iff in H as [? ?]
  | H : negb _ = true |- _ => apply negb_true_iff in H
  | H : negb _ = false |- _ => apply negb_false_iff in H
  | H : (_ =? _) = true |- _ => apply Z.eqb_eq in H
  | H : (_ =? _) = false |- _ => apply Z.eqb_neq in H
  | H : (_ <? _) = true |- _ => apply Z.ltb_lt in H
  | H : (_ <? _) = false |- _ => apply Z.ltb_ge in H
  | H : (_ <=? _) = true |- _ => apply Z.leb_le in H
  | H : (_ <=? _) = false |- _ => apply Z.leb_gt in H
  | H : (_ >? _) = _ |- _ => rewrite Z.gtb_ltb in H
  | H : (_ >=? _) = _ |- _ => rewrite Z.geb_leb in H
  | H : (_ <? _)%nat = true |- _ => apply Nat.ltb_lt in H
  | H : (_ <? _)%nat = false |- _ => apply Nat.ltb_ge in H
  | H : (_ <=? _)%nat = true |- _ => apply Nat.leb_le in H
  | H : (_ <=? _)%nat = false |- _ => apply Nat.leb_gt in H
  | H : (_ =? _)%nat = true |- _ => apply Nat.eqb_eq in H
  | H : (_ =? _)%nat = false |- _ => apply Nat.eqb_neq in H
  | H : Is_true _ |- _ => apply Is_true_true_1 in H
  end.

(** Splits the first conditional or match of the goal, remembering the test. *)
Ltac split_if :=
  match goal with
  | |- context [if ?b then _ else _] => destruct b eqn:?
  | |- context [match ?o with _ => _ end] => destruct o eqn:?
  end.
Ltac split_if_in H :=
  match type of H with
  | context [if ?b then _ else _] => destruct b eqn:?
  | context [match ?o with _ => _ end] => destruct o eqn:?
  end.
Ltac zlia := bool_to_prop; intuition lia.
