(* ===== verification/GoStrings.v ===== *)
(** The parts of Go's [strings] package the program uses, on byte strings.

    A Go string is a sequence of bytes, here Stdlib's [string] for names, flags
    and keys, and [list ascii] for message content ([[]byte]).  Case mapping is
    that of the ASCII letters; bytes above 127 are left alone. *)
From S2P Require Import Prelude.
From Stdlib Require Import String.
From stdpp Require Import strings pretty.

Notation bytes := (list ascii).

Definition lower_ascii (c : ascii) : ascii :=
  let n := nat_of_ascii c in
  if ((65 <=? n) && (n <=? 90))%nat then ascii_of_nat (n + 32) else c.

Fixpoint ToLower (s : string) : string :=
  match s with
  | EmptyString => EmptyString
  | String c s => String (lower_ascii c) (ToLower s)
  end.

Definition EqualFold (s t : string) : bool := String.eqb (ToLower s) (ToLower t).

Definition HasPrefix (s prefix : string) : bool := String.prefix prefix s.

Fixpoint Contains (s sub : string) : bool :=
  HasPrefix s sub || match s with EmptyString => false | String _ s => Contains s sub end.

Fixpoint Join (elems : list string) (sep : string) : string :=
  match elems with
  | [] => EmptyString
  | [x] => x
  | x :: elems => (x ++ sep ++ Join elems sep)%string
  end.

(** [fmt]'s [%q] (strconv.Quote) on ASCII text. *)
Definition dquote : string := String (ascii_of_nat 34) EmptyString.
Definition hex_digit (n : nat) : ascii := ascii_of_nat (if (n <? 10)%nat then 48 + n else 87 + n).
Definition quote_char (c : ascii) : string :=
  let n := nat_of_ascii c in
  let esc d := String (ascii_of_nat 92) (String (ascii_of_nat d) EmptyString) in
  match n with
  | 7 => esc 97 | 8 => esc 98 | 9 => esc 116 | 10 => esc 110 | 11 => esc 118
  | 12 => esc 102 | 13 => esc 114 | 34 => esc 34 | 92 => esc 92
  | _ => if ((n <? 32) || (n =? 127))%nat
         then (esc 120 ++ String (hex_digit (n / 16)) (String (hex_digit (n mod 16)) EmptyString))%string
         else String c EmptyString
  end%nat.
Fixpoint quote_body (s : string) : string :=
  match s with EmptyString => EmptyString | String c s => (quote_char c ++ quote_body s)%string end.
Definition Quote (s : string) : string := (dquote ++ quote_body s ++ dquote)%string.

(** A JSON string as encoding/json writes it, for ASCII text: quotes and
    backslashes escaped, the HTML-sensitive characters and the control characters
    as [\u00xx] except those with a short form. *)
Definition json_char (c : ascii) : string :=
  let n := nat_of_ascii c in
  let bs := ascii_of_nat 92 in
  let esc d := String bs (String (ascii_of_nat d) EmptyString) in
  match n with
  | 8 => esc 98 | 9 => esc 116 | 10 => esc 110 | 12 => esc 102 | 13 => esc 114
  | 34 => esc 34 | 92 => esc 92
  | _ => if ((n <? 32) || (n =? 38) || (n =? 60) || (n =? 62))%nat
         then String bs (String (ascii_of_nat 117) (String (ascii_of_nat 48) (String (ascii_of_nat 48)
                (String (hex_digit (n / 16)) (String (hex_digit (n mod 16)) EmptyString)))))
         else String c EmptyString
  end%nat.
Fixpoint json_body (s : string) : string :=
  match s with EmptyString => EmptyString | String c s => (json_char c ++ json_body s)%string end.
Definition json_string (s : string) : string := (dquote ++ json_body s ++ dquote)%string.

(** [%d] *)
Definition Itoa (n : Z) : string := pretty n.

Definition Clone {A} (l : list A) : list A := l.

(** * Lemmas *)

Lemma lower_ascii_idem c : lower_ascii (lower_ascii c) = lower_ascii c.
Proof. destruct c as [[] [] [] [] [] [] [] []]; reflexivity. Qed.

Lemma ToLower_idem s : ToLower (ToLower s) = ToLower s.
Proof. induction s as [|c s IH]; simpl; [done|]. by rewrite lower_ascii_idem, IH. Qed.

Lemma EqualFold_iff s t : EqualFold s t = true <-> ToLower s = ToLower t.
Proof. apply String.eqb_eq. Qed.

Lemma EqualFold_refl s : EqualFold s s = true.
Proof. by apply EqualFold_iff. Qed.

Lemma EqualFold_sym s t : EqualFold s t = EqualFold t s.
Proof. unfold EqualFold. apply String.eqb_sym. Qed.

Lemma EqualFold_trans s t u :
  EqualFold s t = true -> EqualFold t u = true -> EqualFold s u = true.
Proof. rewrite !EqualFold_iff. congruence. Qed.

(** Case-insensitive equality as a setoid. *)
Definition eq_fold (s t : string) : Prop := ToLower s = ToLower t.

#[export] Instance eq_fold_equiv : Equivalence eq_fold.
Proof. unfold eq_fold. split; repeat intro; congruence. Qed.

#[export] Instance eq_fold_dec : RelDecision eq_fold.
Proof. intros s t. unfold eq_fold. apply _. Defined.

#[export] Instance EqualFold_proper : Proper (eq_fold ==> eq_fold ==> eq) EqualFold.
Proof. unfold eq_fold, EqualFold. intros ?? H1 ?? H2. by rewrite H1, H2. Qed.

Lemma HasPrefix_refl s : HasPrefix s s = true.
Proof. unfold HasPrefix. induction s as [|c s IH]; simpl; [done|]. destruct (ascii_dec c c); congruence. Qed.

Lemma Contains_self s : Contains s s = true.
Proof. destruct s; [done|]. cbn [Contains]. by rewrite HasPrefix_refl. Qed.
