(* ===== verification/NumSet.v ===== *)
(** Number sets (third_party/go-imap/internal/imapnum/numset.go and the
    [SeqSet]/[UIDSet] wrappers of third_party/go-imap/numset.go).

    A set is a Go slice of ranges kept sorted, disjoint and coalesced; [0] stands
    for ["*"].  The insertion with its binary search and in-place merging is
    translated statement by statement, then shown to compute set union. *)
From S2P Require Import Prelude.

(** * Ranges *)

Record Range := mkRange { Start : Z; Stop : Z }.

#[export] Instance Range_eq_dec : EqDecision Range.
Proof. solve_decision. Defined.
#[export] Instance Range_inhabited : Inhabited Range := populate (mkRange 0 0).

Definition Range_eqb (s t : Range) : bool := (Start s =? Start t) && (Stop s =? Stop t).

Definition Range_Contains (s : Range) (q : Z) : bool :=
  if q =? 0 then Stop s =? 0
  else negb (Start s =? 0) && (Start s <=? q) && ((q <=? Stop s) || (Stop s =? 0)).

Definition Range_Less (s : Range) (q : Z) : bool :=
  ((Stop s <? q) || (q =? 0)) && negb (Stop s =? 0).

Definition Range_Merge (s t : Range) : Range * bool :=
  let union := s in
  if Range_eqb s t then (s, true)
  else if negb (Start s =? 0) && negb (Start t =? 0) then
    let '(s, t) := if Start s >? Start t then (t, s) else (s, t) in
    if ((Stop s >=? Stop t) && negb (Stop t =? 0)) || (Stop s =? 0) then (s, true)
    else if (u32 (Stop s + 1) >=? Start t) || (Stop s =? u32_max)
    then (mkRange (Start s) (Stop t), true)
    else (union, false)
  else if Start s =? 0 then
    if Stop t =? 0 then (t, true) else (union, false)
  else if Stop s =? 0 then (s, true)
  else (union, false).

(** [for n := s.Start; n <= s.Stop; n++], with the uint32 counter wrapping;
    [None] when [fuel] iterations did not finish the loop. *)
Fixpoint Range_append_loop (fuel : nat) (n stop : Z) (nums : list Z) : option (list Z) :=
  match fuel with
  | O => None
  | S fuel =>
      if n <=? stop then Range_append_loop fuel (u32 (n + 1)) stop (nums ++ [n])
      else Some nums
  end.

(** The outer option is the loop's fuel, the inner one Go's [ok]. *)
Definition Range_append (fuel : nat) (s : Range) (nums : list Z) : option (option (list Z)) :=
  if (Start s =? 0) || (Stop s =? 0) then Some None
  else Some <$> Range_append_loop fuel (Start s) (Stop s) nums.

(** * Sets *)

Notation Set_ := (list Range).

(** The loop [for min < max]: [lo] and [hi] are Go's [min] and [max]. *)
Fixpoint Set_search_loop (fuel : nat) (s : Set_) (q : Z) (lo hi : nat) : nat :=
  match fuel with
  | O => lo
  | S fuel =>
      if (lo <? hi)%nat then
        let mid := ((lo + hi) / 2)%nat in
        if Range_Less (s !!! mid) q then Set_search_loop fuel s q (mid + 1) hi
        else Set_search_loop fuel s q lo mid
      else lo
  end.

Definition Set_search (s : Set_) (q : Z) : nat * bool :=
  match s with
  | [] => (O, false)
  | _ =>
      let min := Set_search_loop (length s) s q 0 (length s - 1) in
      if Range_Less (s !!! min) q then (length s, false)
      else (min, Range_Contains (s !!! min) q)
  end.

Definition Set_insertAt (s : Set_) (i : nat) (v : Range) : Set_ :=
  take i s ++ v :: drop i s.

(** The trailing loop of [insert]: merge s[i] with its successors while it can. *)
Fixpoint Set_absorb (fuel : nat) (s : Set_) (i j : nat) : Set_ :=
  match fuel with
  | O => take (i + 1) s
  | S fuel =>
      if (j <? length s)%nat then
        let '(u, merged) := Range_Merge (s !!! i) (s !!! j) in
        let s := <[i := u]> s in
        if merged then Set_absorb fuel s i (j + 1)
        else if (i + 1 <? j)%nat then take (i + 1) s ++ drop j s
        else s
      else take (i + 1) s
  end.

Definition Set_insert (s : Set_) (v : Range) : Set_ :=
  let i := fst (Set_search s (Start v)) in
  let '(s, merged) :=
    if (0 <? i)%nat then
      let '(u, m) := Range_Merge (s !!! (i - 1)%nat) v in (<[(i - 1)%nat := u]> s, m)
    else (s, false) in
  if (i =? length s)%nat then
    if merged then s else Set_insertAt s i v
  else if merged then Set_absorb (length s) s (i - 1) i
  else
    let '(u, m) := Range_Merge (s !!! i) v in
    let s := <[i := u]> s in
    if m then Set_absorb (length s) s i (i + 1) else Set_insertAt s i v.

Definition Set_AddNum (s : Set_) (q : list Z) : Set_ :=
  fold_left (fun s v => Set_insert s (mkRange v v)) q s.

Definition Set_AddRange (s : Set_) (start stop : Z) : Set_ :=
  if ((stop <? start) && negb (stop =? 0)) || (start =? 0)
  then Set_insert s (mkRange stop start)
  else Set_insert s (mkRange start stop).

Definition Set_AddSet (s t : Set_) : Set_ := fold_left Set_insert t s.

Definition Set_Dynamic (s : Set_) : bool :=
  match last s with Some r => Stop r =? 0 | None => false end.

Definition Set_Contains (s : Set_) (q : Z) : bool :=
  let '(_, ok) := Set_search s q in if ok then negb (q =? 0) else false.

Fixpoint Set_Nums_loop (fuel : nat) (s : Set_) (nums : list Z) : option (option (list Z)) :=
  match s with
  | [] => Some (Some nums)
  | v :: s =>
      match Range_append fuel v nums with
      | None => None
      | Some None => Some None
      | Some (Some nums) => Set_Nums_loop fuel s nums
      end
  end.

Definition Set_Nums (fuel : nat) (s : Set_) : option (option (list Z)) :=
  Set_Nums_loop fuel s [].

(** * Interval reading of a range

    ["*"] is larger than every number: reading it as 2^32 makes every
    well-formed range an interval [lo, hi] of [1, 2^32]. *)

Definition star : Z := 4294967296.
Definition value (q : Z) : Z := if q =? 0 then star else q.
Definition lo (r : Range) : Z := value (Start r).
Definition hi (r : Range) : Z := value (Stop r).

Definition range_wf (r : Range) : Prop :=
  is_u32 (Start r) /\ is_u32 (Stop r) /\ lo r <= hi r.

(** [s] lies wholly before [t] and the two cannot be coalesced. *)
Definition gap (s t : Range) : Prop :=
  hi s < lo t /\ (lo t < star -> hi s + 1 < lo t).

Fixpoint set_wf (s : Set_) : Prop :=
  match s with
  | [] => True
  | r :: s' => range_wf r /\ (forall t, head s' = Some t -> gap r t) /\ set_wf s'
  end.

(** The specification of membership. *)
Definition in_range (r : Range) (x : Z) : Prop := lo r <= x <= hi r.
Definition in_set (s : Set_) (x : Z) : Prop := Exists (fun r => in_range r x) s.

Ltac ranges :=
  unfold gap, range_wf, in_range, lo, hi, value, star, is_u32, u32_max in *;
  simpl in *.

Lemma value_inj_u32 q : is_u32 q -> 1 <= value q <= star.
Proof. unfold is_u32, value, star. intros. destruct (Z.eqb_spec q 0); lia. Qed.

Lemma range_ext r1 r2 : range_wf r1 -> range_wf r2 -> lo r1 = lo r2 -> hi r1 = hi r2 -> r1 = r2.
Proof.
  destruct r1 as [a b], r2 as [c d]. ranges. intros H1 H2 H3 H4.
  destruct (Z.eqb_spec a 0), (Z.eqb_spec b 0), (Z.eqb_spec c 0), (Z.eqb_spec d 0);
    subst; f_equal; lia.
Qed.

Lemma Range_Contains_spec r q :
  range_wf r -> is_u32 q -> Range_Contains r q = true <-> in_range r (value q).
Proof.
  intros Hr Hq. unfold Range_Contains. ranges.
  destruct (Z.eqb_spec q 0), (Z.eqb_spec (Start r) 0), (Z.eqb_spec (Stop r) 0);
    simpl; rewrite ?orb_true_r, ?orb_false_r, ?andb_true_iff, ?Z.leb_le, ?Z.leb_gt; try lia.
  all: split; [intros [? ?]|intros]; lia.
Qed.

Lemma Range_Less_spec r q :
  range_wf r -> is_u32 q -> Range_Less r q = true <-> hi r < value q.
Proof.
  intros Hr Hq. unfold Range_Less. ranges.
  destruct (Z.eqb_spec q 0), (Z.eqb_spec (Stop r) 0); simpl;
    rewrite ?andb_true_r, ?andb_false_r, ?orb_false_r, ?orb_true_r, ?Z.ltb_lt; lia.
Qed.

(** [Merge] either produces the interval hull of two intervals that overlap or
    touch, or leaves its receiver alone because there is a gap between them. *)
Lemma Range_Merge_spec s t u ok :
  range_wf s -> range_wf t -> Range_Merge s t = (u, ok) ->
  if ok then range_wf u /\ lo u = Z.min (lo s) (lo t) /\ hi u = Z.max (hi s) (hi t)
             /\ Z.max (lo s) (lo t) <= Z.min (hi s) (hi t) + 1
  else u = s /\ (gap s t \/ gap t s).
Proof.
  intros Hs Ht HM. unfold Range_Merge, Range_eqb in HM.
  destruct s as [a b], t as [c d]. ranges.
  destruct (Z.eqb_spec a 0), (Z.eqb_spec b 0), (Z.eqb_spec c 0), (Z.eqb_spec d 0);
    subst; simpl in *; rewrite ?andb_false_r, ?andb_true_r in HM; try lia;
    repeat (split_if_in HM; bool_to_prop; try discriminate); simplify_eq; simpl in *;
    bool_to_prop; unfold u32 in *;
    repeat match goal with
    | H : _ \/ _ |- _ => destruct H
    | H : _ /\ _ |- _ => destruct H
    end; simpl in *; try lia.
  all: try (split; [reflexivity|]).
  all: repeat match goal with
    | |- context [?x =? 0] => destruct (Z.eqb_spec x 0)
    | H : context [?x =? 0] |- _ => destruct (Z.eqb_spec x 0)
    end; try lia.
  all: try (match goal with H : context [(?z + 1) mod ?m] |- _ =>
      pose proof (Z.mod_small (z + 1) m); pose proof (Z.mod_pos_bound (z + 1) m) end; lia).
  all: destruct c; simpl in *; try discriminate; lia.
Qed.

Lemma gap_before s t : range_wf s -> range_wf t -> gap s t -> lo s <= hi s < lo t.
Proof. ranges. lia. Qed.

(** * Structure of well-formed sets *)

Lemma set_wf_cons r s :
  set_wf (r :: s) <-> range_wf r /\ (forall t, head s = Some t -> gap r t) /\ set_wf s.
Proof. done. Qed.

Lemma set_wf_app l1 l2 :
  set_wf (l1 ++ l2) <->
  set_wf l1 /\ set_wf l2 /\ (forall a b, last l1 = Some a -> head l2 = Some b -> gap a b).
Proof.
  induction l1 as [|r l1 IH]; simpl.
  { naive_solver. }
  rewrite IH. destruct l1 as [|r' l1]; simpl; naive_solver.
Qed.

Lemma set_wf_Forall s : set_wf s -> Forall range_wf s.
Proof. induction s; simpl; intuition. Qed.

Lemma set_wf_lookup s k a : set_wf s -> s !! k = Some a -> range_wf a.
Proof. intros H%set_wf_Forall Hk. by eapply Forall_lookup_1 in H. Qed.

Lemma set_wf_tail_lo r s : set_wf (r :: s) -> Forall (fun t => hi r < lo t) s.
Proof.
  revert r. induction s as [|r' s IH]; intros r; [constructor|].
  intros (Hr & Hg & Hs). specialize (Hg r' eq_refl).
  pose proof (gap_before _ _ Hr (proj1 Hs) Hg).
  constructor; [lia|]. eapply Forall_impl; [apply (IH r' Hs)|]. simpl. intros t Ht.
  assert (lo r' <= hi r') by apply Hs. lia.
Qed.

Lemma set_wf_ordered s k l a b :
  set_wf s -> (k < l)%nat -> s !! k = Some a -> s !! l = Some b -> hi a < lo b.
Proof.
  revert k l. induction s as [|r s IH]; [done|]. intros k l Hwf Hkl Hk Hl.
  destruct k as [|k], l as [|l]; try lia; simpl in *.
  - simplify_eq. pose proof (set_wf_tail_lo _ _ Hwf) as HF.
    by eapply Forall_lookup_1 in HF.
  - apply (IH k l); [apply Hwf|lia|done|done].
Qed.

Lemma set_wf_hi_le s k l a b :
  set_wf s -> (k <= l)%nat -> s !! k = Some a -> s !! l = Some b -> hi a <= hi b.
Proof.
  intros Hwf Hkl Ha Hb. destruct (decide (k = l)) as [->|]; [simplify_eq; lia|].
  pose proof (set_wf_ordered s k l a b Hwf ltac:(lia) Ha Hb).
  pose proof (set_wf_lookup _ _ _ Hwf Hb) as Hw. unfold range_wf in Hw. lia.
Qed.

Lemma lookup_total_Some (s : Set_) k : (k < length s)%nat -> s !! k = Some (s !!! k).
Proof. intros. by apply list_lookup_lookup_total_lt. Qed.

(** * Binary search *)

Lemma Set_search_loop_spec fuel s q l h :
  set_wf s -> is_u32 q -> (l <= h < length s)%nat -> (h - l < 2 ^ fuel)%nat ->
  (forall k a, (k < l)%nat -> s !! k = Some a -> hi a < value q) ->
  h = (length s - 1)%nat \/ value q <= hi (s !!! h) ->
  let r := Set_search_loop fuel s q l h in
  (r < length s)%nat /\ (forall k a, (k < r)%nat -> s !! k = Some a -> hi a < value q)
  /\ (r = (length s - 1)%nat \/ value q <= hi (s !!! r)).
Proof.
  intros Hwf Hq. revert l h. induction fuel as [|fuel IH]; intros l h Hlh Hf Hlo Hhi.
  { simpl in *. replace h with l in * by lia. repeat split; [lia|done|done]. }
  cbn [Set_search_loop]. destruct (Nat.ltb_spec l h) as [Hlt|Hge].
  2:{ replace h with l in * by lia. repeat split; [lia|done|done]. }
  set (mid := ((l + h) / 2)%nat).
  assert (Hmid : (l <= mid < h)%nat)
    by (unfold mid; pose proof (Nat.div_mod_eq (l + h) 2);
        pose proof (Nat.mod_upper_bound (l + h) 2); lia).
  assert (Hw : (h - (mid + 1) < 2 ^ fuel /\ mid - l < 2 ^ fuel)%nat)
    by (unfold mid; pose proof (Nat.div_mod_eq (l + h) 2);
        pose proof (Nat.mod_upper_bound (l + h) 2); simpl in Hf; lia).
  pose proof (lookup_total_Some s mid ltac:(lia)) as Hm.
  pose proof (set_wf_lookup _ _ _ Hwf Hm) as Hmw.
  pose proof (Range_Less_spec _ q Hmw Hq) as HL.
  destruct (Range_Less (s !!! mid) q); apply IH; try lia.
  - intros k a Hk Ha. pose proof (set_wf_hi_le s k mid a _ Hwf ltac:(lia) Ha Hm). lia.
  - done.
Qed.

(** The index [search] returns splits the set at the inserted value. *)
Lemma Set_search_split s q :
  set_wf s -> is_u32 q -> let i := fst (Set_search s q) in
  (i <= length s)%nat /\ Forall (fun a => hi a < value q) (take i s) /\
  (forall b, head (drop i s) = Some b -> value q <= hi b) /\
  (snd (Set_search s q) = true <-> in_set s (value q)).
Proof.
  intros Hwf Hq. unfold Set_search. destruct s as [|r0 s0] eqn:Es.
  { simpl. repeat split; [lia|constructor|done|done|intros H; inversion H]. }
  rewrite <- Es in *. assert (Hlen : (1 <= length s)%nat) by (subst; simpl; lia).
  pose proof (Set_search_loop_spec (length s) s q 0 (length s - 1) Hwf Hq
    ltac:(lia) ltac:(pose proof (Nat.pow_gt_lin_r 2 (length s)); lia)
    ltac:(intros; lia) ltac:(by left)) as (Hr & Hlow & Hend).
  set (r := Set_search_loop _ _ _ _ _) in *.
  pose proof (lookup_total_Some s r Hr) as Hlk.
  pose proof (set_wf_lookup _ _ _ Hwf Hlk) as Hw.
  pose proof (Range_Less_spec _ q Hw Hq) as HL. clearbody r. clear Es r0 s0.
  destruct (Range_Less (s !!! r) q) eqn:EL; simpl.
  - assert (Hlt : hi (s !!! r) < value q) by (by apply HL).
    assert (Hall : Forall (fun a => hi a < value q) s).
    { apply Forall_lookup. intros k a Hk.
      destruct (decide (k < r)%nat) as [|]; [by eapply Hlow|].
      destruct Hend as [Hend|]; [|lia].
      apply lookup_lt_Some in Hk as Hk'. replace k with r in * by lia.
      rewrite Hlk in Hk. by simplify_eq. }
    rewrite take_ge, drop_ge by lia. repeat split; [lia|done|done|done|].
    intros (a & Ha & Hin)%Exists_exists. rewrite Forall_forall in Hall.
    apply Hall in Ha. unfold in_range in Hin. lia.
  - assert (Hge : value q <= hi (s !!! r)).
    { destruct (Z_lt_le_dec (hi (s !!! r)) (value q)) as [H|]; [|done].
      apply HL in H. discriminate. }
    repeat split.
    + lia.
    + apply Forall_lookup. intros k a Hk. apply lookup_take_Some in Hk as [Hk Hkr].
      by eapply Hlow.
    + intros b Hb. rewrite head_lookup, lookup_drop, Nat.add_0_r, Hlk in Hb. by simplify_eq.
    + intros Hc. apply (Range_Contains_spec _ q Hw Hq) in Hc.
      apply Exists_exists. exists (s !!! r). split; [|done]. by eapply list_elem_of_lookup_2.
    + intros (a & Ha & Hin)%Exists_exists. apply (Range_Contains_spec _ q Hw Hq).
      apply list_elem_of_lookup in Ha as [k Hk]. unfold in_range in *.
      destruct (Nat.lt_total k r) as [Hkr|[->|Hkr]].
      * pose proof (Hlow k a Hkr Hk). lia.
      * rewrite Hlk in Hk. by simplify_eq.
      * pose proof (set_wf_ordered s r k _ a Hwf Hkr Hlk Hk). lia.
Qed.

(** * Insertion *)

(** What [absorb] leaves of the successors [rest] of a range [u]. *)
Fixpoint absorb_list (u : Range) (rest : list Range) : list Range :=
  match rest with
  | [] => [u]
  | b :: rest' =>
      let '(u', merged) := Range_Merge u b in
      if merged then absorb_list u' rest' else u' :: rest
  end.

Lemma Set_absorb_list fuel pre a mid rest :
  (length rest < fuel)%nat ->
  Set_absorb fuel (pre ++ a :: mid ++ rest) (length pre) (length pre + 1 + length mid) =
  pre ++ absorb_list a rest.
Proof.
  revert a mid rest. induction fuel as [|fuel IH]; intros a mid rest Hf; [lia|].
  assert (Ht : forall x, take (length pre + 1) (pre ++ x :: mid ++ rest) = pre ++ [x]).
  { intros x. rewrite take_app_add. done. }
  cbn [Set_absorb]. rewrite length_app, length_cons, length_app.
  destruct rest as [|b rest]; simpl absorb_list.
  { destruct (Nat.ltb_spec (length pre + 1 + length mid)
      (length pre + S (length mid + length (@nil Range)))) as [Hl|Hl]; simpl in Hl; [lia|].
    apply Ht. }
  destruct (Nat.ltb_spec (length pre + 1 + length mid)
      (length pre + S (length mid + length (b :: rest)))) as [Hl|Hl]; simpl in Hl; [|lia].
  rewrite (list_lookup_total_middle pre _ a (length pre)) by done.
  replace (pre ++ a :: mid ++ b :: rest) with ((pre ++ a :: mid) ++ b :: rest) at 1
    by (by rewrite <- app_assoc).
  rewrite (list_lookup_total_middle (pre ++ a :: mid) rest b)
    by (rewrite length_app; simpl; lia).
  destruct (Range_Merge a b) as [u m] eqn:EM.
  assert (Hins : <[length pre := u]> (pre ++ a :: mid ++ b :: rest) = pre ++ u :: mid ++ b :: rest)
    by (by rewrite insert_app_r_alt, Nat.sub_diag by lia).
  rewrite Hins. destruct m.
  - pose proof (IH u (mid ++ [b]) rest) as IH'. rewrite length_app in IH'. simpl in *.
    rewrite <- app_assoc in IH'. simpl in IH'. rewrite <- IH' by lia. f_equal. lia.
  - destruct (Nat.ltb_spec (length pre + 1) (length pre + 1 + length mid)) as [Hm|Hm].
    + rewrite Ht. rewrite <- Nat.add_assoc.
      rewrite (drop_app_add pre (u :: mid ++ b :: rest)). simpl.
      rewrite drop_app_length. by rewrite <- app_assoc.
    + destruct mid; [done|simpl in Hm; lia].
Qed.

Lemma in_set_cons r s x : in_set (r :: s) x <-> in_range r x \/ in_set s x.
Proof. apply Exists_cons. Qed.
Lemma in_set_app s t x : in_set (s ++ t) x <-> in_set s x \/ in_set t x.
Proof. apply Exists_app. Qed.
Lemma in_set_nil x : in_set [] x <-> False.
Proof. apply Exists_nil. Qed.

Lemma absorb_list_spec u rest :
  range_wf u -> set_wf rest -> (forall b, head rest = Some b -> lo u <= lo b) ->
  set_wf (absorb_list u rest) /\
  (exists r, head (absorb_list u rest) = Some r /\ lo r = lo u) /\
  (forall x, in_set (absorb_list u rest) x <-> in_range u x \/ in_set rest x).
Proof.
  revert u. induction rest as [|b rest IH]; intros u Hu Hrest Hlo.
  { simpl. split; [|split]; [naive_solver|naive_solver|]. intros x. apply in_set_cons. }
  simpl. destruct (Range_Merge u b) as [u' m] eqn:EM.
  destruct Hrest as (Hb & Hgap & Hrest). specialize (Hlo b eq_refl).
  apply Range_Merge_spec in EM; [|done..]. destruct m.
  - destruct EM as (Hu' & Hl & Hh & Ht).
    destruct (IH u' Hu' Hrest) as (Hw & (r & Hr & Hrl) & Hin).
    { intros t Hst. specialize (Hgap t Hst). unfold gap, range_wf in *. lia. }
    split; [done|split].
    + exists r. split; [done|]. lia.
    + intros x. rewrite Hin, in_set_cons. unfold in_range, range_wf in *.
      rewrite Hl, Hh. split; [|intros [H|[H|H]]; [left|left|by right]; lia].
      intros [H|H]; [|tauto]. destruct (Z_le_gt_dec x (hi u)); [left|]; lia.
  - destruct EM as (-> & Hg).
    assert (Hg' : gap u b) by (unfold gap, range_wf in *; destruct Hg; lia).
    split; [|split].
    + simpl. naive_solver.
    + exists u. done.
    + intros x. rewrite in_set_cons. done.
Qed.

(** The list produced by [insert] once the search has split the set. *)
Definition insert_split (pre post : list Range) (v : Range) : list Range :=
  match post with
  | [] => pre ++ [v]
  | b :: post' =>
      let '(u, m) := Range_Merge b v in
      if m then pre ++ absorb_list u post' else pre ++ v :: u :: post'
  end.

Lemma insert_split_eq pre post v :
  let s := pre ++ post in let i := length pre in
  (if (i =? length s)%nat then Set_insertAt s i v
   else let '(u, m) := Range_Merge (s !!! i) v in
        if m then Set_absorb (length s) (<[i := u]> s) i (i + 1)
        else Set_insertAt (<[i := u]> s) i v)
  = insert_split pre post v.
Proof.
  simpl. rewrite length_app. unfold Set_insertAt. destruct post as [|b post]; simpl.
  { rewrite Nat.add_0_r, Nat.eqb_refl, app_nil_r, take_ge, drop_ge by lia. done. }
  destruct (Nat.eqb_spec (length pre) (length pre + S (length post))); [lia|].
  rewrite (list_lookup_total_middle pre post b) by done.
  destruct (Range_Merge b v) as [u m].
  assert (Hins : <[length pre := u]> (pre ++ b :: post) = pre ++ u :: post)
    by (by rewrite insert_app_r_alt, Nat.sub_diag by lia).
  rewrite Hins. destruct m.
  - pose proof (Set_absorb_list (length pre + S (length post)) pre u [] post ltac:(lia)) as HA.
    simpl in HA. by rewrite Nat.add_0_r in HA.
  - rewrite take_app_length, drop_app_length. done.
Qed.

Lemma Set_insert_nil post v :
  fst (Set_search post (Start v)) = O -> Set_insert post v = insert_split [] post v.
Proof.
  intros Hi. unfold Set_insert. rewrite Hi. rewrite <- (insert_split_eq [] post v).
  destruct post as [|b post]; [done|]. simpl.
  by destruct (Range_Merge _ v) as [u []]; rewrite ?length_insert.
Qed.

Lemma Set_insert_snoc pre a post v :
  fst (Set_search (pre ++ a :: post) (Start v)) = S (length pre) ->
  Set_insert (pre ++ a :: post) v =
  let '(u, m) := Range_Merge a v in
  if m then pre ++ absorb_list u post else insert_split (pre ++ [u]) post v.
Proof.
  intros Hi. unfold Set_insert. rewrite Hi.
  replace (0 <? S (length pre))%nat with true by done.
  rewrite Nat.sub_succ, Nat.sub_0_r.
  rewrite (list_lookup_total_middle pre post a) by done.
  destruct (Range_Merge a v) as [u m].
  assert (Hins : <[length pre := u]> (pre ++ a :: post) = pre ++ u :: post)
    by (by rewrite insert_app_r_alt, Nat.sub_diag by lia).
  rewrite Hins. destruct m.
  - rewrite length_app. cbn [length].
    destruct post as [|b post]; cbn [length].
    { destruct (Nat.eqb_spec (S (length pre)) (length pre + 1)); [done|lia]. }
    destruct (Nat.eqb_spec (S (length pre)) (length pre + S (S (length post)))); [lia|].
    pose proof (Set_absorb_list (length pre + S (S (length post))) pre u [] (b :: post)) as HA.
    cbn [length app] in HA. rewrite Nat.add_0_r, Nat.add_1_r in HA. apply HA. lia.
  - pose proof (insert_split_eq (pre ++ [u]) post v) as HE. cbv zeta in HE.
    rewrite <- app_assoc in HE. cbn [app] in HE.
    rewrite (length_app pre [u]) in HE. cbn [length] in HE. rewrite Nat.add_1_r in HE.
    rewrite <- HE. destruct (S (length pre) =? _)%nat; [done|].
    destruct (Range_Merge _ v) as [u' m'].
    by rewrite length_insert.
Qed.

(** Inserting after a prefix that lies before [v] with a gap. *)
Lemma insert_split_spec pre post v :
  set_wf (pre ++ post) -> range_wf v -> (forall a, last pre = Some a -> gap a v) ->
  (forall b, head post = Some b -> lo v <= hi b) ->
  set_wf (insert_split pre post v) /\
  (forall x, in_set (insert_split pre post v) x <-> in_set (pre ++ post) x \/ in_range v x).
Proof.
  intros (Hpre & Hpost & Hg)%set_wf_app Hv Hgv Hhi. unfold insert_split.
  destruct post as [|b post].
  { split; [apply set_wf_app; simpl; naive_solver|].
    intros x. rewrite !in_set_app, in_set_cons, in_set_nil. tauto. }
  specialize (Hhi b eq_refl). destruct Hpost as (Hb & Hgb & Hpost).
  destruct (Range_Merge b v) as [u m] eqn:EM. apply Range_Merge_spec in EM; [|done..].
  destruct m.
  - destruct EM as (Hu & Hl & Hh & Ht).
    destruct (absorb_list_spec u post Hu Hpost) as (Hw & (r & Hr & Hrl) & Hin).
    { intros t Hst. specialize (Hgb t Hst). unfold gap, range_wf in *. lia. }
    split.
    + apply set_wf_app. split; [done|split; [done|]]. intros a c Ha Hc. simplify_eq.
      specialize (Hg a b Ha eq_refl). specialize (Hgv a Ha). unfold gap in *.
      rewrite Hrl, Hl. lia.
    + intros x. rewrite !in_set_app, in_set_cons, Hin. unfold in_range, range_wf in *.
      rewrite Hl, Hh. split; [|intros [[H|[H|H]]|H]; [by left|right; left|tauto|right;left]; lia].
      intros [H|[H|H]]; [tauto| |tauto].
      destruct (Z_le_gt_dec (lo b) x), (Z_le_gt_dec x (hi b)); try lia;
        first [left; right; left; lia | right; lia].
  - destruct EM as (-> & Hgap).
    assert (gap v b) by (destruct Hgap as [Hgap|]; [unfold gap, range_wf in *; lia|done]).
    split.
    + apply set_wf_app. split; [done|]. split; [simpl; naive_solver|].
      intros a c Ha [= <-]. by apply Hgv.
    + intros x. rewrite !in_set_app, !in_set_cons. tauto.
Qed.

Lemma Set_insert_spec s v :
  set_wf s -> range_wf v ->
  set_wf (Set_insert s v) /\
  (forall x, in_set (Set_insert s v) x <-> in_set s x \/ in_range v x).
Proof.
  intros Hwf Hv. assert (Hs : is_u32 (Start v)) by apply Hv.
  destruct (Set_search_split s (Start v) Hwf Hs) as (Hi & Hlow & Hhigh & _).
  set (i := fst (Set_search s (Start v))) in *.
  assert (Hsplit : s = take i s ++ drop i s) by (by rewrite take_drop).
  assert (Hli : length (take i s) = i) by (rewrite length_take; lia).
  assert (Ei : fst (Set_search s (Start v)) = i) by done. clearbody i.
  remember (take i s) as pre. remember (drop i s) as post. clear Heqpre Heqpost.
  destruct pre as [|a pre _] using rev_ind.
  { simpl in *. subst. rewrite Set_insert_nil by done.
    apply (insert_split_spec [] post v); done. }
  subst s. rewrite <- app_assoc in *. simpl in *. rewrite length_app in *. simpl in *.
  rewrite Set_insert_snoc by lia.
  apply Forall_app in Hlow as [_ Hlow]. inversion_clear Hlow as [|? ? Ha _].
  assert (Hla : hi a < lo v) by done.
  apply set_wf_app in Hwf as (Hpre & Hrest & Hg). destruct Hrest as (Haw & Hga & Hpost).
  destruct (Range_Merge a v) as [u m] eqn:EM. apply Range_Merge_spec in EM; [|done..].
  destruct m.
  - destruct EM as (Hu & Hl & Hh & Ht).
    destruct (absorb_list_spec u post Hu Hpost) as (Hw & (r & Hr & Hrl) & Hin).
    { intros t Hst. specialize (Hga t Hst). unfold gap, range_wf in *. lia. }
    split.
    + apply set_wf_app. split; [done|split; [done|]]. intros a' c Ha' Hc. simplify_eq.
      specialize (Hg a' a Ha' eq_refl). unfold gap, range_wf in *. rewrite Hrl, Hl. lia.
    + intros x. rewrite !in_set_app, in_set_cons, Hin. unfold in_range, range_wf in *.
      rewrite Hl, Hh. split; [|intros [[H|[H|H]]|H]; [by left|right; left|tauto|right;left]; lia].
      intros [H|[H|H]]; [tauto| |tauto].
      destruct (Z_le_gt_dec x (hi a)); [left; right; left; lia|right; lia].
  - destruct EM as (-> & Hgap).
    assert (gap a v) by (destruct Hgap as [|Hgap]; [done|unfold gap, range_wf in *; lia]).
    destruct (insert_split_spec (pre ++ [a]) post v) as [Hw Hin]; [|done| |done|].
    + rewrite <- app_assoc. apply set_wf_app. split; [done|]. split; [done|]. done.
    + intros a'. rewrite last_snoc. naive_solver.
    + split; [done|]. intros x. rewrite Hin, <- app_assoc. done.
Qed.

Lemma Set_Contains_spec s q :
  set_wf s -> is_u32 q -> Set_Contains s q = true <-> q <> 0 /\ in_set s (value q).
Proof.
  intros Hwf Hq. destruct (Set_search_split s q Hwf Hq) as (_ & _ & _ & Hok).
  unfold Set_Contains. destruct (Set_search s q) as [i [|]]; simpl in *; bool_to_prop.
  - rewrite negb_true_iff, Z.eqb_neq. tauto.
  - split; [done|]. intros [_ H%Hok]. done.
Qed.

Lemma value_nz q : q <> 0 -> value q = q.
Proof. unfold value. by destruct (Z.eqb_spec q 0). Qed.

Lemma range_wf_num q : is_u32 q -> range_wf (mkRange q q).
Proof. unfold range_wf, lo, hi. simpl. intuition lia. Qed.

(** A single number, as [AddNum] inserts it. *)
Lemma in_range_num q x : is_u32 q -> is_u32 x -> x <> 0 -> in_range (mkRange q q) x <-> x = q.
Proof.
  unfold in_range, lo, hi, value, star, is_u32. simpl. intros.
  destruct (Z.eqb_spec q 0); lia.
Qed.

Lemma Set_AddNum_spec q : forall s,
  set_wf s -> Forall is_u32 q ->
  set_wf (Set_AddNum s q) /\
  (forall x, is_u32 x -> x <> 0 -> in_set (Set_AddNum s q) x <-> in_set s x \/ x ∈ q).
Proof.
  induction q as [|v q IH]; intros s Hs Hq.
  { split; [done|]. intros x _ _. set_solver. }
  inversion_clear Hq as [|? ? Hv Hq']. simpl.
  destruct (Set_insert_spec s (mkRange v v) Hs (range_wf_num v Hv)) as [Hw Hin].
  destruct (IH _ Hw Hq') as [Hw' Hin']. split; [done|]. intros x Hx Hx0.
  rewrite (Hin' x Hx Hx0), Hin, (in_range_num v x Hv Hx Hx0), elem_of_cons. tauto.
Qed.

Lemma Range_append_loop_spec fuel n stop acc :
  0 <= n <= stop + 1 -> stop < u32_max -> stop - n + 1 < Z.of_nat fuel ->
  Range_append_loop fuel n stop acc = Some (acc ++ seqZ n (stop - n + 1)).
Proof.
  unfold u32_max. revert n acc. induction fuel as [|fuel IH]; intros n acc Hn Hs Hf; [lia|].
  simpl. destruct (Z.leb_spec n stop).
  - autorewrite with ints. rewrite IH by lia. rewrite (seqZ_cons n) by lia.
    rewrite <- app_assoc. simpl. repeat f_equal; lia.
  - replace (stop - n + 1) with 0 by lia. by rewrite app_nil_r.
Qed.

(** The numbers [Nums] lists for a static range. *)
Definition range_nums (r : Range) : list Z := seqZ (Start r) (Stop r - Start r + 1).

Definition static (r : Range) : Prop := Start r <> 0 /\ Stop r <> 0 /\ Stop r < u32_max.

Lemma elem_of_range_nums r x : range_wf r -> static r -> x ∈ range_nums r <-> in_range r x.
Proof.
  unfold range_nums, static, in_range. intros Hr (H1 & H2 & _).
  rewrite elem_of_seqZ. unfold lo, hi. rewrite !value_nz by done. lia.
Qed.

Lemma Set_Nums_loop_spec fuel s acc :
  Forall range_wf s -> Forall static s -> Forall (fun r => Stop r - Start r + 1 < Z.of_nat fuel) s ->
  Set_Nums_loop fuel s acc = Some (Some (acc ++ concat (map range_nums s))).
Proof.
  revert acc. induction s as [|r s IH]; intros acc Hw Hs Hf; simpl.
  { by rewrite app_nil_r. }
  inversion_clear Hw as [|? ? Hr Hw']. inversion_clear Hs as [|? ? Hsr Hs'].
  inversion_clear Hf as [|? ? Hfr Hf']. destruct Hsr as (H1 & H2 & H3).
  unfold Range_append. rewrite !(proj2 (Z.eqb_neq _ _)) by done. simpl.
  rewrite Range_append_loop_spec.
  - simpl. rewrite IH by done. by rewrite <- app_assoc.
  - destruct Hr as (? & ? & Hle). unfold lo, hi in Hle. rewrite !value_nz in Hle by done.
    unfold is_u32 in *. lia.
  - done.
  - done.
Qed.

Lemma range_nums_sorted a n : Sorted.StronglySorted Z.lt (seqZ a n).
Proof.
  destruct (Z_le_gt_dec 0 n) as [Hn|]; [|rewrite seqZ_nil by lia; constructor].
  revert a. pattern n. apply natlike_ind; [..|done].
  - intros a. constructor.
  - intros k Hk IH a. rewrite seqZ_cons by lia. rewrite Z.pred_succ. constructor; [apply IH|].
    apply Forall_forall. intros x Hx%elem_of_seqZ. lia.
Qed.

Lemma StronglySorted_app_intro (l1 l2 : list Z) :
  Sorted.StronglySorted Z.lt l1 -> Sorted.StronglySorted Z.lt l2 ->
  (forall a b, a ∈ l1 -> b ∈ l2 -> a < b) -> Sorted.StronglySorted Z.lt (l1 ++ l2).
Proof.
  induction l1 as [|x l1 IH]; simpl; intros H1 H2 H; [done|].
  inversion_clear H1 as [|? ? Hs Hf]. constructor; [apply IH; set_solver|].
  rewrite Forall_forall in Hf |- *. intros y [Hy|Hy]%elem_of_app; [by apply Hf|set_solver].
Qed.

Lemma concat_range_nums s x :
  Forall range_wf s -> Forall static s -> x ∈ concat (map range_nums s) <-> in_set s x.
Proof.
  induction s as [|r s IH]; intros Hw Hs; simpl.
  { rewrite in_set_nil. set_solver. }
  inversion_clear Hw. inversion_clear Hs.
  rewrite elem_of_app, in_set_cons, elem_of_range_nums, IH; done.
Qed.

Lemma concat_range_nums_sorted s :
  set_wf s -> Forall static s -> Sorted.StronglySorted Z.lt (concat (map range_nums s)).
Proof.
  induction s as [|r s IH]; intros Hw Hs; simpl; [constructor|].
  pose proof (set_wf_tail_lo _ _ Hw) as Htl. destruct Hw as (Hr & _ & Hw).
  inversion_clear Hs as [|? ? Hsr Hs'].
  apply StronglySorted_app_intro; [apply range_nums_sorted|by apply IH|].
  intros a b Ha%elem_of_range_nums Hb; [|done..].
  apply concat_range_nums in Hb; [|by apply set_wf_Forall|done].
  apply Exists_exists in Hb as (t & Ht & Hbt). rewrite Forall_forall in Htl.
  specialize (Htl t Ht). unfold in_range in *. lia.
Qed.

(** * Properties *)

(** Inserting a range into a well-formed number set keeps it sorted,
    disjoint and coalesced, and [Contains] of the result is the union: the
    binary search and the in-place merge loops lose and invent no number. *)
Theorem Set_insert_Contains (s : list Range) (v : Range) :
  set_wf s -> range_wf v ->
  set_wf (Set_insert s v) /\
  forall q, is_u32 q -> q <> 0 ->
    Set_Contains (Set_insert s v) q = Set_Contains s q || Range_Contains v q.
Proof.
  intros Hs Hv. destruct (Set_insert_spec s v Hs Hv) as [Hw Hin]. split; [done|].
  intros q Hq Hq0. apply eq_bool_prop_intro.
  rewrite !Is_true_true, orb_true_iff, !Set_Contains_spec, Range_Contains_spec, Hin by done.
  tauto.
Qed.

Lemma Set_insert_Contains_witness :
  set_wf [mkRange 1 3; mkRange 7 9; mkRange 12 0] /\
  Set_insert [mkRange 1 3; mkRange 7 9; mkRange 12 0] (mkRange 4 8) =
    [mkRange 1 9; mkRange 12 0] /\
  Set_Contains (Set_insert [mkRange 1 3; mkRange 7 9; mkRange 12 0] (mkRange 4 8)) 6 = true.
Proof.
  assert (Hs : set_wf [mkRange 1 3; mkRange 7 9; mkRange 12 0]).
  { simpl. ranges. repeat split; intros; simplify_eq/=; lia. }
  assert (Hv : range_wf (mkRange 4 8)) by (ranges; lia).
  split; [done|split; [by vm_compute|]].
  rewrite (proj2 (Set_insert_Contains _ _ Hs Hv) 6) by (unfold is_u32; lia).
  by vm_compute.
Defined.

(** The expansion of a set back to a list: for a set without ["*"] and
    below 2^32-1, the loops of [Nums] finish (given as many iterations as the
    longest range has numbers) and return exactly the members, in increasing
    order, each once. *)
Theorem Set_Nums_complete (fuel : nat) (s : list Range) :
  set_wf s -> Forall static s ->
  Forall (fun r => Stop r - Start r + 1 < Z.of_nat fuel) s ->
  exists l, Set_Nums fuel s = Some (Some l) /\ Sorted.StronglySorted Z.lt l /\
    forall x, is_u32 x -> x ∈ l <-> Set_Contains s x = true.
Proof.
  intros Hw Hs Hf. exists (concat (map range_nums s)). split; [|split].
  - by apply Set_Nums_loop_spec; [apply set_wf_Forall|..].
  - by apply concat_range_nums_sorted.
  - intros x Hx. rewrite concat_range_nums by (try apply set_wf_Forall; done).
    rewrite Set_Contains_spec by done. split; [|intros [H0 H]; by rewrite value_nz in H].
    intros H. assert (x <> 0); [|by rewrite value_nz].
    apply Exists_exists in H as (r & Hr & Hin). unfold in_range in Hin.
    rewrite Forall_forall in Hs. destruct (Hs r Hr) as (H1 & _).
    apply set_wf_Forall in Hw. rewrite Forall_forall in Hw. destruct (Hw r Hr) as (? & _).
    unfold lo in Hin. rewrite value_nz in Hin by done. unfold is_u32 in *. lia.
Qed.

Lemma Set_Nums_complete_witness :
  exists l, Set_Nums 10 [mkRange 2 4; mkRange 9 9] = Some (Some l) /\
    Sorted.StronglySorted Z.lt l /\
    (forall x, is_u32 x -> x ∈ l <-> Set_Contains [mkRange 2 4; mkRange 9 9] x = true).
Proof.
  apply Set_Nums_complete.
  - simpl. ranges. repeat split; intros; simplify_eq/=; lia.
  - repeat constructor; simpl; unfold u32_max; lia.
  - repeat constructor; simpl; lia.
Defined.

(** The loop of [Range.append] never ends on a range that reaches the
    largest UID: its uint32 counter wraps from 2^32-1 to 0, so no number of
    iterations finishes it. *)
Theorem Range_append_diverges (fuel : nat) (s : Range) (nums : list Z) :
  is_u32 (Start s) -> Start s <> 0 -> Stop s = u32_max -> Range_append fuel s nums = None.
Proof.
  intros Hs Hs0 Hstop. unfold Range_append. rewrite Hstop.
  rewrite (proj2 (Z.eqb_neq _ _)) by done. simpl.
  assert (Hl : forall n acc, is_u32 n -> Range_append_loop fuel n u32_max acc = None).
  { induction fuel as [|fuel IH]; intros n acc Hn; simpl; [done|].
    destruct (Z.leb_spec n u32_max) as [|Hgt].
    - apply IH. auto with imapped.
    - unfold is_u32, u32_max in *. lia. }
  by rewrite Hl.
Qed.

Lemma Range_append_diverges_witness :
  Range_append 100 (mkRange 4294967290 4294967295) [] = None.
Proof. apply Range_append_diverges; [split; simpl; lia|simpl; lia|reflexivity]. Defined.
