(* ===== verification/Planner.v ===== *)
(** The batch planner (internal/syncer/planner.go): pure functions that group
    messages into FETCH commands, built on the number sets of NumSet.v. *)
From S2P Require Import Prelude NumSet.

Record SizedUID := mkSized { UID : Z; Size : Z }.

Record BatchBudget := mkBudget { MaxBytes : Z; MaxMessages : Z; SoloAbove : Z }.

(** The variables the loop of [PlanBatches] updates. *)
Record plan := mkPlan { batches : list (list SizedUID); current : list SizedUID; bytes : Z }.

Definition PlanBatches_flush (p : plan) : plan :=
  match current p with
  | [] => p
  | _ => mkPlan (batches p ++ [current p]) [] 0
  end.

Definition PlanBatches_step (budget : BatchBudget) (p : plan) (msg : SizedUID) : plan :=
  if (0 <? SoloAbove budget) && (SoloAbove budget <? Size msg) then
    let p := PlanBatches_flush p in
    mkPlan (batches p ++ [[msg]]) (current p) (bytes p)
  else
    let p :=
      match current p with
      | [] => p
      | _ =>
          let overBytes := (0 <? MaxBytes budget) && (MaxBytes budget <? i64 (bytes p + Size msg)) in
          let overCount := MaxMessages budget <=? Z.of_nat (length (current p)) in
          if overBytes || overCount then PlanBatches_flush p else p
      end in
    mkPlan (batches p) (current p ++ [msg]) (i64 (bytes p + Size msg)).

Definition PlanBatches (msgs : list SizedUID) (budget : BatchBudget) : list (list SizedUID) :=
  match msgs with
  | [] => []
  | _ =>
      let budget :=
        if MaxMessages budget <? 1
        then mkBudget (MaxBytes budget) 1 (SoloAbove budget) else budget in
      batches (PlanBatches_flush (fold_left (PlanBatches_step budget) msgs (mkPlan [] [] 0)))
  end.

Definition UIDSet (batch : list SizedUID) : list Range :=
  fold_left (fun set msg => Set_AddNum set [UID msg]) batch [].

Definition UIDRange (start : Z) : list Range := Set_AddRange [] start 0.

(** The chunk loop; [None] when [fuel] iterations did not finish it. The counter
    is a uint32 and [imap.UID(chunk)] truncates. *)
Fixpoint ChunkUIDRange_loop (fuel : nat) (from end_ chunk : Z) (sets : list (list Range))
  : option (list (list Range)) :=
  match fuel with
  | O => None
  | S fuel =>
      if from <=? end_ then
        let to := u32 (from + u32 chunk - 1) in
        let to := if to >? end_ then end_ else to in
        let sets := sets ++ [Set_AddRange [] from to] in
        if to =? end_ then Some sets
        else ChunkUIDRange_loop fuel (u32 (from + u32 chunk)) end_ chunk sets
      else Some sets
  end.

Definition ChunkUIDRange (fuel : nat) (start end_ chunk : Z) : option (list (list Range)) :=
  if (chunk <? 1) || (end_ <? start) then Some [UIDRange start]
  else ChunkUIDRange_loop fuel start end_ chunk [].

(** [for start := 0; start < len(uids); start += size]; the slice bounds never
    exceed [length uids], so the loop needs at most that many iterations. *)
Fixpoint PlanMetadataChunks_loop (fuel : nat) (uids : list Z) (start size : nat)
    (sets : list (list Range)) : list (list Range) :=
  match fuel with
  | O => sets
  | S fuel =>
      if (start <? length uids)%nat then
        let end_ := Nat.min (start + size) (length uids) in
        let set := fold_left (fun set uid => Set_AddNum set [uid])
                             (take (end_ - start) (drop start uids)) [] in
        PlanMetadataChunks_loop fuel uids (start + size)%nat size (sets ++ [set])
      else sets
  end.

Definition PlanMetadataChunks (uids : list Z) (size : Z) : list (list Range) :=
  match uids with
  | [] => []
  | _ =>
      let size := if size <? 1 then 1 else size in
      PlanMetadataChunks_loop (length uids) uids 0 (Z.to_nat size) []
  end.

(** * Lemmas *)

(** What is planned so far, in order. *)
Definition planned (p : plan) : list SizedUID := concat (batches p) ++ current p.

Definition total (b : list SizedUID) : Z := foldr (fun m acc => Size m + acc) 0 b.

Lemma total_app b c : total (b ++ c) = total b + total c.
Proof. induction b as [|m b IH]; simpl; [lia|]. rewrite IH. lia. Qed.

Lemma total_nonneg b : Forall (fun m => 0 <= Size m) b -> 0 <= total b.
Proof. induction 1; simpl; lia. Qed.

Lemma planned_flush p : planned (PlanBatches_flush p) = planned p.
Proof.
  unfold PlanBatches_flush, planned. destruct p as [bs [|m c] n]; simpl; [done|].
  rewrite concat_app. simpl. by rewrite !app_nil_r.
Qed.

Lemma current_flush p : current (PlanBatches_flush p) = [].
Proof. unfold PlanBatches_flush. by destruct p as [bs [|m c] n]. Qed.

Lemma planned_step budget p msg :
  planned (PlanBatches_step budget p msg) = planned p ++ [msg].
Proof.
  unfold PlanBatches_step. destruct (_ && _).
  - rewrite <- (planned_flush p). unfold planned. simpl. rewrite current_flush.
    rewrite concat_app, !app_nil_r. done.
  - destruct (current p) eqn:Ec; [|destruct (_ || _)].
    + unfold planned. simpl. rewrite Ec. by rewrite app_assoc.
    + rewrite <- (planned_flush p). unfold planned. simpl. by rewrite app_assoc.
    + unfold planned. simpl. rewrite Ec. by rewrite app_assoc.
Qed.

Lemma planned_fold budget msgs p :
  planned (fold_left (PlanBatches_step budget) msgs p) = planned p ++ msgs.
Proof.
  revert p. induction msgs as [|m msgs IH]; intros p; simpl; [by rewrite app_nil_r|].
  rewrite IH, planned_step, <- app_assoc. done.
Qed.

(** The bounds a batch under construction or finished obeys. *)
Definition batch_ok (budget : BatchBudget) (b : list SizedUID) : Prop :=
  b <> [] /\ Z.of_nat (length b) <= MaxMessages budget /\
  (0 < MaxBytes budget -> length b = 1%nat \/ total b <= MaxBytes budget) /\
  (forall m, m ∈ b -> 0 < SoloAbove budget -> SoloAbove budget < Size m -> b = [m]).

Definition plan_ok (budget : BatchBudget) (p : plan) : Prop :=
  Forall (batch_ok budget) (batches p) /\
  (current p = [] \/ batch_ok budget (current p)) /\ bytes p = total (current p) /\
  Forall (fun m => 0 < SoloAbove budget -> Size m <= SoloAbove budget) (current p).

Lemma flush_ok budget p :
  plan_ok budget p ->
  plan_ok budget (PlanBatches_flush p) /\ current (PlanBatches_flush p) = [].
Proof.
  unfold plan_ok, PlanBatches_flush. destruct p as [bs [|m c] n]; simpl; [naive_solver|].
  intros (Hb & [Hc|Hc] & Hn & Hs); [done|]. split; [|done].
  split; [apply Forall_app; auto|]. naive_solver.
Qed.

Lemma step_ok budget p msg :
  1 <= MaxMessages budget -> 0 <= Size msg -> Forall (fun m => 0 <= Size m) (current p) ->
  total (current p) + Size msg < 9223372036854775808 ->
  plan_ok budget p -> plan_ok budget (PlanBatches_step budget p msg).
Proof.
  intros Hm Hsz Hnn Hov Hp. unfold PlanBatches_step. destruct (_ && _) eqn:Esolo; bool_to_prop.
  { destruct (flush_ok _ _ Hp) as [(Hb & _ & Hn & Hs) Hc]. rewrite Hc in *.
    split; [|split; [by left|split; [done|constructor]]].
    simpl. apply Forall_app. split; [done|]. constructor; [|constructor].
    split; [done|]. simpl. split; [lia|]. split; [by left|].
    intros m Hm'%list_elem_of_singleton. by subst. }
  assert (Hfit : 0 < SoloAbove budget -> Size msg <= SoloAbove budget) by lia. clear Esolo.
  assert (Hone : forall q, plan_ok budget q -> current q = [] ->
    plan_ok budget (mkPlan (batches q) (current q ++ [msg]) (i64 (bytes q + Size msg)))).
  { intros q (Hb & _ & Hn & _) Hc. rewrite Hc in *. simpl in Hn.
    split; [done|]. simpl. split; [|split].
    - right. split; [done|]. simpl. split; [lia|]. split; [by left|].
      intros m Hm'%list_elem_of_singleton. by subst.
    - pose proof (total_nonneg _ Hnn). rewrite i64_id by (unfold is_i64; lia). lia.
    - by repeat constructor. }
  destruct (current p) as [|c cs] eqn:Ec; [by apply Hone|].
  destruct (_ || _) eqn:Eover.
  { destruct (flush_ok _ _ Hp). by apply Hone. }
  destruct Hp as (Hb & Hc & Hn & Hs). rewrite Ec in *. destruct Hc as [Hc|Hc]; [done|].
  pose proof (total_nonneg _ Hnn). bool_to_prop.
  assert (Hi : i64 (bytes p + Size msg) = total (c :: cs) + Size msg)
    by (rewrite i64_id; unfold is_i64; lia).
  rewrite Hi in *. split; [done|]. cbn [batches current bytes].
  remember (c :: cs) as cur eqn:Ecur. clear Ecur. split; [|split].
  - right. split; [by destruct cur|]. rewrite length_app, total_app. simpl in *. split; [lia|]. split.
    + intros Hmb. right. zlia.
    + intros m Hin Hsolo Hbig. exfalso. apply elem_of_app in Hin as [Hin|Hin%list_elem_of_singleton]; [|subst; lia].
      rewrite Forall_forall in Hs. specialize (Hs m Hin). lia.
  - rewrite total_app. simpl. lia.
  - apply Forall_app. auto.
Qed.

Lemma fold_ok budget msgs p :
  1 <= MaxMessages budget ->
  Forall (fun m => 0 <= Size m) (current p ++ msgs) ->
  total (current p) + total msgs < 9223372036854775808 ->
  plan_ok budget p -> plan_ok budget (fold_left (PlanBatches_step budget) msgs p).
Proof.
  intros Hm. revert p. induction msgs as [|m msgs IH]; intros p Hnn Hov Hp; simpl; [done|].
  apply Forall_app in Hnn as [Hnc Hnm]. inversion_clear Hnm as [|? ? Hsz Hnm'].
  simpl in Hov. pose proof (total_nonneg _ Hnm').
  pose proof (total_nonneg _ Hnc).
  assert (Hcur : Forall (fun m => 0 <= Size m) (current (PlanBatches_step budget p m)) /\
                 total (current (PlanBatches_step budget p m)) <= total (current p) + Size m).
  { unfold PlanBatches_step. destruct (_ && _); simpl.
    { rewrite current_flush. simpl. split; [constructor|lia]. }
    destruct (current p) eqn:Ec; [|destruct (_ || _)]; rewrite ?current_flush, ?Ec; simpl.
    - rewrite ?Ec. simpl. split; [by repeat constructor|lia].
    - split; [by repeat constructor|]. simpl in *. lia.
    - simpl in *. rewrite total_app. simpl. split; [|lia].
      rewrite app_comm_cons. apply Forall_app. split; [done|by repeat constructor]. }
  destruct Hcur as [Hc1 Hc2]. apply IH; [by apply Forall_app|lia|].
  apply step_ok; try done. lia.
Qed.

Lemma UIDSet_AddNum batch s :
  fold_left (fun set msg => Set_AddNum set [UID msg]) batch s = Set_AddNum s (map UID batch).
Proof. revert s. induction batch as [|m batch IH]; intros s; simpl; [done|]. apply IH. Qed.

Lemma chunk_AddNum uids s :
  fold_left (fun set uid => Set_AddNum set [uid]) uids s = Set_AddNum s uids.
Proof. revert s. induction uids as [|m uids IH]; intros s; simpl; [done|]. apply IH. Qed.

Lemma AddNum_empty_Contains l x :
  Forall is_u32 l -> is_u32 x -> x <> 0 -> Set_Contains (Set_AddNum [] l) x = true <-> x ∈ l.
Proof.
  intros Hl Hx Hx0. destruct (Set_AddNum_spec l [] I Hl) as [Hw Hin].
  rewrite Set_Contains_spec, value_nz, Hin, in_set_nil by done. tauto.
Qed.

(** The slices of [uids] the chunk loop takes. *)
Fixpoint slices (fuel : nat) (uids : list Z) (size : nat) : list (list Z) :=
  match fuel with
  | O => []
  | S fuel => match uids with [] => [] | _ => take size uids :: slices fuel (drop size uids) size end
  end.

Lemma PlanMetadataChunks_loop_slices fuel uids start size sets :
  PlanMetadataChunks_loop fuel uids start size sets =
  sets ++ map (Set_AddNum []) (slices fuel (drop start uids) size).
Proof.
  revert start sets. induction fuel as [|fuel IH]; intros start sets; simpl; [by rewrite app_nil_r|].
  destruct (Nat.ltb_spec start (length uids)) as [Hlt|Hge].
  - rewrite IH, chunk_AddNum, <- app_assoc, drop_drop.
    destruct (drop start uids) as [|x rest] eqn:Ed.
    { apply (f_equal length) in Ed. rewrite length_drop in Ed. simpl in Ed. lia. }
    rewrite <- Ed. simpl. do 3 f_equal.
    destruct (decide (start + size <= length uids)%nat).
    + f_equal. lia.
    + rewrite !take_ge; [done|rewrite length_drop; lia..].
  - rewrite drop_ge by lia. by rewrite app_nil_r.
Qed.

Lemma slices_spec fuel uids size :
  (1 <= size)%nat -> (length uids <= fuel)%nat ->
  concat (slices fuel uids size) = uids /\
  Forall (fun sl => 1 <= length sl <= size)%nat (slices fuel uids size) /\
  (length (slices fuel uids size) * size < length uids + size)%nat.
Proof.
  intros Hs. revert uids. induction fuel as [|fuel IH]; intros uids Hl; simpl.
  { destruct uids; simpl in *; [|lia]. repeat split; [constructor|lia]. }
  destruct uids as [|x uids]; simpl; [repeat split; [constructor|lia]|].
  destruct (IH (drop size (x :: uids))) as (Hc & Hf & Hn).
  { rewrite length_drop. simpl in *. lia. }
  rewrite Hc, take_drop. split; [done|]. split.
  - constructor; [|done]. rewrite length_take. simpl. lia.
  - rewrite length_drop in Hn. simpl in *.
    destruct (decide (size <= S (length uids))%nat); [lia|].
    assert (length (slices fuel (drop size (x :: uids)) size) = 0)%nat; [|lia].
    rewrite drop_ge by (simpl; lia). by destruct fuel.
Qed.
(** Every batch obeys the budget it was planned with. *)
Lemma PlanBatches_obey (msgs : list SizedUID) (budget : BatchBudget) :
  Forall (fun m => 0 <= Size m) msgs -> total msgs < 9223372036854775808 ->
  Forall (batch_ok (mkBudget (MaxBytes budget) (Z.max 1 (MaxMessages budget)) (SoloAbove budget))) (PlanBatches msgs budget).
Proof.
  intros Hnn Hov. unfold PlanBatches. destruct msgs as [|m msgs]; [constructor|].
  set (b := if _ <? 1 then _ else _).
  assert (Hb : MaxMessages b = Z.max 1 (MaxMessages budget) /\ MaxBytes b = MaxBytes budget /\
               SoloAbove b = SoloAbove budget).
  { unfold b. destruct (Z.ltb_spec (MaxMessages budget) 1); simpl; lia. }
  destruct Hb as (Hb1 & Hb2 & Hb3).
  assert (Hp : plan_ok b (fold_left (PlanBatches_step b) (m :: msgs) (mkPlan [] [] 0))).
  { apply fold_ok; [lia|done|done|]. split; [constructor|]. simpl. auto. }
  destruct (flush_ok _ _ Hp) as [(Hok & _) _].
  unfold batch_ok in *. by rewrite Hb1, Hb2, Hb3 in Hok.
Qed.

(** * Properties *)

Lemma PlanBatches_concat (msgs : list SizedUID) (budget : BatchBudget) :
  concat (PlanBatches msgs budget) = msgs.
Proof.
  unfold PlanBatches. destruct msgs as [|m msgs]; [done|].
  set (b := if _ <? 1 then _ else _).
  pose proof (planned_fold b (m :: msgs) (mkPlan [] [] 0)) as H. simpl app in H.
  rewrite <- planned_flush in H. unfold planned in H. by rewrite current_flush, app_nil_r in H.
Qed.

(** No message is lost, duplicated or reordered by the batch planner: the
    batches, read in order, are exactly the input. *)
Theorem PlanBatches_preserves_order (msgs : list SizedUID) (budget : BatchBudget) :
  concat (PlanBatches msgs budget) = msgs.
Proof. apply PlanBatches_concat. Qed.

(** Every batch obeys the budget: it is never empty, never longer than
    [MaxMessages] (at least one), its total size stays within [MaxBytes] unless
    it is a single message, and a message above [SoloAbove] travels alone. *)
Theorem PlanBatches_within_budget (msgs : list SizedUID) (budget : BatchBudget) :
  Forall (fun m => 0 <= Size m) msgs -> total msgs < 9223372036854775808 ->
  Forall (fun b =>
    b <> [] /\ Z.of_nat (length b) <= Z.max 1 (MaxMessages budget) /\
    (0 < MaxBytes budget -> length b = 1%nat \/ total b <= MaxBytes budget) /\
    (forall m, m ∈ b -> 0 < SoloAbove budget -> SoloAbove budget < Size m -> b = [m]))
  (PlanBatches msgs budget).
Proof. apply PlanBatches_obey. Qed.

Lemma PlanBatches_within_budget_witness :
  let msgs := [mkSized 9 3000; mkSized 8 2000; mkSized 7 90000; mkSized 6 10] in
  let budget := mkBudget 4096 50 65536 in
  PlanBatches msgs budget = [[mkSized 9 3000]; [mkSized 8 2000]; [mkSized 7 90000]; [mkSized 6 10]]
  /\ Forall (fun b =>
    b <> [] /\ Z.of_nat (length b) <= Z.max 1 (MaxMessages budget) /\
    (0 < MaxBytes budget -> length b = 1%nat \/ total b <= MaxBytes budget) /\
    (forall m, m ∈ b -> 0 < SoloAbove budget -> SoloAbove budget < Size m -> b = [m]))
  (PlanBatches msgs budget).
Proof.
  split; [reflexivity|]. apply PlanBatches_within_budget.
  - repeat constructor; simpl; lia.
  - simpl. lia.
Defined.

Lemma PlanMetadataChunks_parts (uids : list Z) (size : Z) :
  Forall is_u32 uids ->
  exists parts : list (list Z),
    PlanMetadataChunks uids size = map (Set_AddNum []) parts /\
    concat parts = uids /\
    Forall (fun part => 1 <= Z.of_nat (length part) <= Z.max 1 size) parts /\
    Z.of_nat (length parts) * Z.max 1 size < Z.of_nat (length uids) + Z.max 1 size /\
    (forall u, is_u32 u -> u <> 0 ->
      Exists (fun set => Set_Contains set u = true) (PlanMetadataChunks uids size) <-> u ∈ uids).
Proof.
  intros Hu. set (n := Z.to_nat (if size <? 1 then 1 else size)).
  assert (Hn : (1 <= n)%nat /\ Z.of_nat n = Z.max 1 size)
    by (unfold n; destruct (Z.ltb_spec size 1); lia).
  destruct Hn as [Hn1 Hn2].
  exists (slices (length uids) uids n).
  destruct (slices_spec (length uids) uids n Hn1 (Nat.le_refl _)) as (Hc & Hf & Hl).
  assert (HP : PlanMetadataChunks uids size = map (Set_AddNum []) (slices (length uids) uids n)).
  { unfold PlanMetadataChunks. destruct uids as [|u uids]; [done|].
    by rewrite PlanMetadataChunks_loop_slices. }
  rewrite HP. split; [done|]. split; [done|]. split; [|split; [lia|]].
  { eapply Forall_impl; [exact Hf|]. simpl. intros. lia. }
  intros u Hu32 Hu0. remember (slices (length uids) uids n) as parts eqn:E.
  clear E Hn1 Hn2 Hf Hl HP. subst uids.
  induction parts as [|sl sls IH]; simpl in *.
  { rewrite Exists_nil. set_solver. }
  apply Forall_app in Hu as [Hsl Hsls].
  rewrite Exists_cons, elem_of_app, IH by done.
  rewrite AddNum_empty_Contains by done. tauto.
Qed.

(** The metadata chunks partition the pending UIDs: they are the number
    sets of consecutive slices of the list, no slice is empty or longer than
    [size] (at least one), there are ceiling (n / size) of them, and a UID is
    requested by some command exactly when it is pending. *)
Theorem PlanMetadataChunks_partition (uids : list Z) (size : Z) :
  Forall is_u32 uids ->
  exists parts : list (list Z),
    PlanMetadataChunks uids size = map (Set_AddNum []) parts /\
    concat parts = uids /\
    Forall (fun part => 1 <= Z.of_nat (length part) <= Z.max 1 size) parts /\
    Z.of_nat (length parts) * Z.max 1 size < Z.of_nat (length uids) + Z.max 1 size /\
    (forall u, is_u32 u -> u <> 0 ->
      Exists (fun set => Set_Contains set u = true) (PlanMetadataChunks uids size) <-> u ∈ uids).
Proof. apply PlanMetadataChunks_parts. Qed.

Lemma PlanMetadataChunks_partition_witness :
  PlanMetadataChunks [1; 2; 3; 7; 9] 2 =
    [[mkRange 1 2]; [mkRange 3 3; mkRange 7 7]; [mkRange 9 9]] /\
  exists parts : list (list Z),
    PlanMetadataChunks [1; 2; 3; 7; 9] 2 = map (Set_AddNum []) parts /\
    concat parts = [1; 2; 3; 7; 9] /\
    Forall (fun part => 1 <= Z.of_nat (length part) <= Z.max 1 2) parts /\
    Z.of_nat (length parts) * Z.max 1 2 < Z.of_nat (length [1; 2; 3; 7; 9]) + Z.max 1 2 /\
    (forall u, is_u32 u -> u <> 0 ->
      Exists (fun set => Set_Contains set u = true) (PlanMetadataChunks [1; 2; 3; 7; 9] 2)
      <-> u ∈ [1; 2; 3; 7; 9]).
Proof.
  split; [by vm_compute|]. apply PlanMetadataChunks_partition.
  repeat constructor; unfold is_u32; lia.
Defined.
