(* ===== verification/Retry.v ===== *)
(** Errors of the upstream package and their handling
    (internal/upstream/retry.go): severities, classification, backoff, retry. *)
From S2P Require Import Prelude GoStrings.
From Stdlib Require Import String.
From stdpp Require Import strings pretty.
Open Scope string_scope.
Open Scope Z_scope.

(** * Severities and errors *)

Inductive Severity := Retryable | FatalAccount | FatalMailbox.

#[export] Instance Severity_eq_dec : EqDecision Severity.
Proof. solve_decision. Defined.

Definition Severity_String (s : Severity) : string :=
  match s with
  | FatalAccount => "fatal-account"
  | FatalMailbox => "fatal-mailbox"
  | _ => "retryable"
  end.

(** The errors the program builds or inspects: the sentinels it compares with,
    network errors, the IMAP status responses, [*upstream.Error], and the
    [fmt.Errorf] wrappers with one ([ErrWrap]) or two ([ErrWrap2]) causes. *)
Inductive err :=
| ErrCanceled | ErrDeadlineExceeded
| ErrEOF | ErrUnexpectedEOF | ErrNetClosed
| ErrNet (text : string)
| ErrPoisoned | ErrMessageTooLarge
| ErrNotFound | ErrBlobNotFound | ErrNoRows
| ErrText (text : string)
| ErrImap (type code text : string)
| ErrUpstream (sev : Severity) (code : string) (e : err)
| ErrWrap (pre : string) (e : err) (post : string)
| ErrWrap2 (pre : string) (e1 : err) (mid : string) (e2 : err).

#[export] Instance err_eq_dec : EqDecision err.
Proof. solve_decision. Defined.

Fixpoint err_text (e : err) : string :=
  match e with
  | ErrCanceled => "context canceled"
  | ErrDeadlineExceeded => "context deadline exceeded"
  | ErrEOF => "EOF"
  | ErrUnexpectedEOF => "unexpected EOF"
  | ErrNetClosed => "use of closed network connection"
  | ErrNet t => t
  | ErrPoisoned => "connection was abandoned at a deadline and cannot be reused"
  | ErrMessageTooLarge => "message exceeds the maximum size"
  | ErrNotFound => "not found"
  | ErrBlobNotFound => "blob not found"
  | ErrNoRows => "no rows in result set"
  | ErrText t => t
  | ErrImap ty code t =>
      "imap: " ++ ty ++ (if String.eqb code "" then "" else " [" ++ code ++ "]")
      ++ " " ++ (if String.eqb t "" then "<unknown>" else t)
  | ErrUpstream _ code e =>
      if String.eqb code "" then err_text e else err_text e ++ " [" ++ code ++ "]"
  | ErrWrap pre e post => pre ++ err_text e ++ post
  | ErrWrap2 pre e1 mid e2 => pre ++ err_text e1 ++ mid ++ err_text e2
  end%string.

(** [errors.Is] against a sentinel: a walk of the chain of causes. *)
Fixpoint err_is (e target : err) : bool :=
  bool_decide (e = target) ||
  match e with
  | ErrUpstream _ _ e => err_is e target
  | ErrWrap _ e _ => err_is e target
  | ErrWrap2 _ e1 _ e2 => err_is e1 target || err_is e2 target
  | _ => false
  end.

(** [errors.As] for [*Error], [*imap.Error] and [net.Error]. *)
Fixpoint as_upstream (e : err) : option Severity :=
  match e with
  | ErrUpstream sev _ _ => Some sev
  | ErrWrap _ e _ => as_upstream e
  | ErrWrap2 _ e1 _ e2 =>
      match as_upstream e1 with Some s => Some s | None => as_upstream e2 end
  | _ => None
  end.

Fixpoint as_imap (e : err) : option (string * string) :=
  match e with
  | ErrImap _ code text => Some (code, text)
  | ErrUpstream _ _ e => as_imap e
  | ErrWrap _ e _ => as_imap e
  | ErrWrap2 _ e1 _ e2 =>
      match as_imap e1 with Some s => Some s | None => as_imap e2 end
  | _ => None
  end.

Fixpoint as_net (e : err) : bool :=
  match e with
  | ErrNet _ | ErrDeadlineExceeded | ErrNetClosed => true
  | ErrUpstream _ _ e => as_net e
  | ErrWrap _ e _ => as_net e
  | ErrWrap2 _ e1 _ e2 => as_net e1 || as_net e2
  | _ => false
  end.

Definition SeverityOf (e : err) : Severity :=
  match as_upstream e with Some sev => sev | None => Retryable end.

Definition severityForText (text : string) : Severity :=
  let lower := ToLower text in
  if Contains lower "authentication failed" || Contains lower "invalid credentials"
     || Contains lower "login failed" || Contains lower "password"
     || Contains lower "application-specific password" then FatalAccount
  else if Contains lower "no such mailbox" || Contains lower "mailbox does not exist"
     || Contains lower "nonexistent" then FatalMailbox
  else Retryable.

Definition severityForCode (code text : string) : Severity :=
  if bool_decide (code ∈ ["AUTHENTICATIONFAILED"; "AUTHORIZATIONFAILED"; "EXPIRED"; "PRIVACYREQUIRED"])
  then FatalAccount
  else if bool_decide (code ∈ ["NONEXISTENT"; "TRYCREATE"]) then FatalMailbox
  else if bool_decide (code ∈ ["UNAVAILABLE"; "INUSE"; "SERVERBUG"; "CANNOT"; "LIMIT"]) then Retryable
  else severityForText text.

(** [classify(nil)] is [nil]: the callers below only classify real errors. *)
Definition classify (e : err) : err :=
  match as_upstream e with
  | Some _ => e
  | None =>
      if err_is e ErrCanceled || err_is e ErrDeadlineExceeded then ErrUpstream Retryable "" e
      else match as_imap e with
           | Some (code, text) => ErrUpstream (severityForCode code text) code e
           | None =>
               if as_net e then ErrUpstream Retryable "" e
               else ErrUpstream (severityForText (err_text e)) "" e
           end
  end.

Definition IsTooManyConnections (e : option err) : bool :=
  match e with
  | None => false
  | Some e =>
      match as_imap e with
      | Some (code, _) => if String.eqb code "LIMIT" then true else
          let lower := ToLower (err_text e) in
          Contains lower "too many connections" || Contains lower "maximum number of connections"
          || Contains lower "concurrent connections"
      | None =>
          let lower := ToLower (err_text e) in
          Contains lower "too many connections" || Contains lower "maximum number of connections"
          || Contains lower "concurrent connections"
      end
  end.

(** * Backoff *)

(** [for i := 1; i < attempt && backoff < max; i++ { backoff *= 2 }]: [n] is the
    number of iterations the first test allows. *)
Fixpoint Backoff_loop (n : nat) (backoff max : Z) : Z :=
  match n with
  | O => backoff
  | S n => if backoff <? max then Backoff_loop n (i64 (backoff * 2)) max else backoff
  end.

(** [rand n] stands for [rand.Int64N(n)]. *)
Definition Backoff (rand : Z -> Z) (attempt base max : Z) : Z :=
  let attempt := if attempt <? 1 then 1 else attempt in
  let backoff := Backoff_loop (Z.to_nat (attempt - 1)) base max in
  let backoff := if backoff >? max then max else backoff in
  if backoff <=? 0 then 0 else i64 (rand backoff + 1).

(** * Retry *)

Definition giving_up (attempts : Z) (lastErr : err) : err :=
  ErrWrap ("giving up after " ++ pretty attempts ++ " attempts: ")%string lastErr "".

Section Retry.
(** The world a retried function runs in: [ctx_err] reads [ctx.Err()], and
    [sleep d] is the select between [ctx.Done()] (an error) and the timer. *)
Context {W : Type} (ctx_err : W -> option err) (sleep : Z -> W -> W * option err)
        (rand : Z -> Z) (base max : Z) (fn : W -> W * option err).

Fixpoint Retry_loop (n : nat) (attempt attempts : Z) (lastErr : err) (w : W) : W * option err :=
  match n with
  | O => (w, Some (giving_up attempts lastErr))
  | S n =>
      match ctx_err w with
      | Some e => (w, Some e)
      | None =>
          match fn w with
          | (w, None) => (w, None)
          | (w, Some e) =>
              let lastErr := classify e in
              if bool_decide (SeverityOf lastErr <> Retryable) then (w, Some lastErr)
              else if attempt =? attempts then
                (w, Some (giving_up attempts lastErr))
              else match sleep (Backoff rand attempt base max) w with
                   | (w, Some e) => (w, Some e)
                   | (w, None) => Retry_loop n (attempt + 1) attempts lastErr w
                   end
          end
      end
  end.

Definition Retry (attempts : Z) (w : W) : W * option err :=
  let attempts := if attempts <? 1 then 1 else attempts in
  Retry_loop (Z.to_nat attempts) 1 attempts (ErrText "") w.
End Retry.

(** * Lemmas *)

Lemma Backoff_loop_bounds n b max :
  0 < b -> b <= max -> max <= 4611686018427387904 ->
  b <= Backoff_loop n b max <= 2 * max.
Proof.
  revert b. induction n as [|n IH]; intros b Hb Hm Hmax; simpl; [lia|].
  destruct (Z.ltb_spec b max); [|lia].
  rewrite i64_id by (unfold is_i64; lia).
  destruct (Z.leb_spec (b * 2) max); [specialize (IH (b * 2)); lia|].
  destruct n as [|n]; simpl; [lia|]. destruct (Z.ltb_spec (b * 2) max); lia.
Qed.

Lemma Backoff_loop_exp n b max :
  0 < b -> max <= 4611686018427387904 -> b * 2 ^ Z.of_nat n < 9223372036854775808 ->
  Backoff_loop n b max <= b * 2 ^ Z.of_nat n.
Proof.
  revert b. induction n as [|n IH]; intros b Hb Hmax Ho; [simpl; lia|].
  cbn [Backoff_loop]. rewrite Nat2Z.inj_succ, Z.pow_succ_r in * by lia.
  assert (0 < 2 ^ Z.of_nat n) by (apply Z.pow_pos_nonneg; lia).
  destruct (Z.ltb_spec b max); [|nia].
  rewrite i64_id by (unfold is_i64; nia).
  specialize (IH (b * 2)). nia.
Qed.

Lemma SeverityOf_classify_imap ty code text :
  SeverityOf (classify (ErrImap ty code text)) = severityForCode code text.
Proof. done. Qed.

Lemma as_upstream_classify e : exists sev, as_upstream (classify e) = Some sev.
Proof.
  unfold classify. destruct (as_upstream e) as [s|] eqn:E; [by exists s|].
  destruct (_ || _); [by eexists|]. destruct (as_imap e) as [[c t]|]; [by eexists|].
  destruct (as_net e); by eexists.
Qed.

(** A scripted world: the [k]-th call of [fn] answers [outcome k], nothing is
    cancelled and the state counts the calls. *)
Section Scripted.
Context (outcome : nat -> option err) (rand : Z -> Z) (base max : Z).

Definition scripted (k : nat) : nat * option err := (S k, outcome k).
Definition uncancelled (k : nat) : option err := None.
Definition awake (d : Z) (k : nat) : nat * option err := (k, None).

(** The outcomes after which [Retry] must not call again. *)
Definition final (k : nat) : Prop :=
  match outcome k with None => True | Some e => SeverityOf (classify e) <> Retryable end.

Definition answer (k : nat) : option err := classify <$> outcome k.

Definition gave_up (attempts : Z) (k : nat) : option err :=
  (fun e => giving_up attempts (classify e)) <$> outcome k.

Lemma Retry_loop_final n attempt attempts lastErr k m :
  Z.of_nat n = attempts - attempt + 1 -> (m < n)%nat ->
  final (k + m) -> (forall j, (j < m)%nat -> ~ final (k + j)) ->
  Retry_loop uncancelled awake rand base max scripted n attempt attempts lastErr k
  = (S (k + m), answer (k + m)).
Proof.
  revert attempt lastErr k m. induction n as [|n IH]; intros attempt lastErr k m Hn Hm Hf Hnf; [lia|].
  cbn [Retry_loop scripted uncancelled]. unfold scripted at 1.
  destruct m as [|m].
  - rewrite Nat.add_0_r in *. unfold final, answer in *. destruct (outcome k) as [e|]; [|done].
    by rewrite bool_decide_eq_true_2.
  - pose proof (Hnf O ltac:(lia)) as H0. rewrite Nat.add_0_r in H0. unfold final in H0.
    destruct (outcome k) as [e|] eqn:Ek; [|by destruct H0].
    rewrite bool_decide_eq_false_2 by (intros ?; by apply H0).
    rewrite (proj2 (Z.eqb_neq _ _)) by lia. unfold awake at 1.
    replace (k + S m)%nat with (S k + m)%nat in * by lia.
    rewrite (IH _ _ (S k) m); [done|lia|lia|done|].
    intros j Hj. replace (S k + j)%nat with (k + S j)%nat by lia. apply Hnf. lia.
Qed.

Lemma Retry_loop_gave_up n attempt attempts lastErr k :
  Z.of_nat n = attempts - attempt + 1 -> (0 < n)%nat ->
  (forall j, (j < n)%nat -> ~ final (k + j)) ->
  Retry_loop uncancelled awake rand base max scripted n attempt attempts lastErr k
  = ((k + n)%nat, gave_up attempts (k + n - 1)).
Proof.
  revert attempt lastErr k. induction n as [|n IH]; intros attempt lastErr k Hn H0 Hnf; [lia|].
  cbn [Retry_loop uncancelled]. unfold scripted at 1.
  pose proof (Hnf O ltac:(lia)) as Hk. rewrite Nat.add_0_r in Hk. unfold final in Hk.
  destruct (outcome k) as [e|] eqn:Ek; [|by destruct Hk].
  rewrite bool_decide_eq_false_2 by (intros ?; by apply Hk).
  destruct n as [|n].
  - rewrite (proj2 (Z.eqb_eq _ _)) by lia. unfold gave_up.
    replace (k + 1 - 1)%nat with k by lia. rewrite Ek. simpl. f_equal. lia.
  - rewrite (proj2 (Z.eqb_neq _ _)) by lia. unfold awake at 1.
    rewrite IH; [f_equal; [lia|f_equal; lia]|lia|lia|].
    intros j Hj. replace (S k + j)%nat with (k + S j)%nat by lia. apply Hnf. lia.
Qed.
End Scripted.

(** * Properties *)

(** The backoff delay stays within its bounds for every attempt number:
    positive, at most [max], and at most [base] doubled once per earlier attempt;
    doubling never overflows the 64-bit duration while [max] is at most 2^62. *)
Theorem Backoff_bounds (rand : Z -> Z) (attempt base max : Z) :
  (forall n, 0 < n -> 0 <= rand n < n) -> 0 < base -> 0 < max <= 4611686018427387904 ->
  1 <= Backoff rand attempt base max <= max /\
  (attempt <= 30 -> base <= 4611686018427387904 ->
   base * 2 ^ Z.max 0 (attempt - 1) < 9223372036854775808 ->
   Backoff rand attempt base max <= base * 2 ^ Z.max 0 (attempt - 1)).
Proof.
  intros Hr Hb Hm. unfold Backoff. set (n := Z.to_nat _).
  assert (Hn : Z.of_nat n = Z.max 0 (attempt - 1))
    by (unfold n; destruct (Z.ltb_spec attempt 1); lia).
  assert (Hpos : 0 < Backoff_loop n base max).
  { destruct (Z.leb_spec base max); [pose proof (Backoff_loop_bounds n base max); lia|].
    destruct n; simpl; [done|]. destruct (Z.ltb_spec base max); lia. }
  set (b := Backoff_loop n base max) in *.
  set (c := if b >? max then max else b).
  assert (Hc : 0 < c <= max /\ c <= b)
    by (unfold c; rewrite Z.gtb_ltb; destruct (Z.ltb_spec max b); lia).
  destruct (Z.leb_spec c 0); [lia|]. destruct (Hr c ltac:(lia)).
  rewrite i64_id by (unfold is_i64; lia). split; [lia|].
  intros _ _ Ho. rewrite <- Hn in *.
  pose proof (Backoff_loop_exp n base max Hb ltac:(lia) Ho). lia.
Qed.

Lemma Backoff_bounds_witness :
  1 <= Backoff (fun n => n / 2) 4 1000000000 300000000000 <= 300000000000 /\
  (4 <= 30 -> 1000000000 <= 4611686018427387904 ->
   1000000000 * 2 ^ Z.max 0 (4 - 1) < 9223372036854775808 ->
   Backoff (fun n => n / 2) 4 1000000000 300000000000 <= 1000000000 * 2 ^ Z.max 0 (4 - 1)).
Proof.
  apply Backoff_bounds; [|lia|lia].
  intros n Hn. split; [apply Z.div_pos; lia|apply Z.div_lt; lia].
Defined.

(** [Retry] runs the function until its first final outcome (success, or a
    failure that is not retryable) and returns exactly that outcome, classified;
    if every one of the [attempts] (at least one) outcomes is retryable it makes
    exactly that many calls and reports the last error. *)
Theorem Retry_attempts (outcome : nat -> option err) (rand : Z -> Z) (base max attempts : Z) :
  let n := Z.to_nat (Z.max 1 attempts) in
  let run := Retry uncancelled awake rand base max (scripted outcome) attempts O in
  (forall k, (k < n)%nat -> final outcome k -> (forall j, (j < k)%nat -> ~ final outcome j) ->
     run = (S k, answer outcome k)) /\
  ((forall j, (j < n)%nat -> ~ final outcome j) ->
     run = (n, gave_up outcome (Z.max 1 attempts) (n - 1))).
Proof.
  intros n run. unfold run, Retry.
  replace (if attempts <? 1 then 1 else attempts) with (Z.max 1 attempts)
    by (destruct (Z.ltb_spec attempts 1); lia).
  fold n. split.
  - intros k Hk Hf Hnf.
    by rewrite (Retry_loop_final outcome rand base max n 1 _ _ O k) by (try done; lia).
  - intros Hnf. rewrite Retry_loop_gave_up; [done|lia|lia|done].
Qed.

(** Nothing is called once the context is done: [Retry] then returns the
    context's error and leaves the world alone. *)
Theorem Retry_cancelled {W : Type} (ctx_err : W -> option err) sleep rand base max
    (fn : W -> W * option err) (attempts : Z) (w : W) (e : err) :
  ctx_err w = Some e -> Retry ctx_err sleep rand base max fn attempts w = (w, Some e).
Proof.
  intros H. unfold Retry. destruct (Z.to_nat _) as [|n] eqn:En.
  - destruct (Z.ltb_spec attempts 1); lia.
  - simpl. by rewrite H.
Qed.

Lemma Retry_cancelled_witness :
  Retry (fun _ : nat => Some ErrCanceled) (fun _ w => (w, None)) (fun n => 0) 1 10
        (fun w => (S w, None)) 6 O = (O, Some ErrCanceled).
Proof. apply Retry_cancelled. reflexivity. Defined.

(** Classification never loses an authentication failure: whatever the
    wording, an IMAP response with a code that means bad credentials becomes a
    fatal account error, and an error that carries a severity keeps it. *)
Theorem classify_severity (e : err) :
  (exists sev, as_upstream (classify e) = Some sev) /\
  (forall sev, as_upstream e = Some sev -> classify e = e) /\
  (as_upstream e = None -> err_is e ErrCanceled = false -> err_is e ErrDeadlineExceeded = false ->
   forall code text, as_imap e = Some (code, text) ->
     code ∈ ["AUTHENTICATIONFAILED"; "AUTHORIZATIONFAILED"; "EXPIRED"; "PRIVACYREQUIRED"]%string ->
     SeverityOf (classify e) = FatalAccount).
Proof.
  split; [apply as_upstream_classify|]. split.
  - intros sev H. unfold classify. by rewrite H.
  - intros Hu Hc Hd code text Hi Hin. unfold classify. rewrite Hu, Hc, Hd, Hi. simpl.
    unfold SeverityOf. simpl. unfold severityForCode. by rewrite bool_decide_eq_true_2.
Qed.
