(* ===== verification/Schema.v ===== *)
(** The database behind internal/store, as the migrations of internal/db
    declare it: tables of rows, the SQL primitives the queries are made of, and
    the monad in which the store's methods run.

    A table maps ids to rows and carries the sequence its ids are drawn from.
    Columns that no query reads ([updated_at], [envelope], [bodystructure], ...)
    and the tables the program never touches are left out.  Nullable columns are
    options; JSON columns hold the decoded value; timestamps are microseconds. *)
From S2P Require Import Prelude GoStrings Retry.
From Stdlib Require Import String.
From stdpp Require Import strings fin_maps.
Open Scope string_scope.
Open Scope Z_scope.

(** * Tables *)

Record table (R : Type) := mk_table { rows : gmap Z R; nextval : Z }.
Arguments mk_table {R} _ _.
Arguments rows {R} _.
Arguments nextval {R} _.

Definition empty_table {R} : table R := mk_table ∅ 1.

Section sql_primitives.
Context {R : Type}.
Implicit Types (p : Z -> R -> bool) (t : table R).

(** [INSERT ... RETURNING id] *)
Definition insert_row (r : R) (t : table R) : Z * table R :=
  (nextval t, mk_table (<[nextval t := r]> (rows t)) (nextval t + 1)).

(** [UPDATE ... SET f WHERE p] *)
Definition update_where p (f : R -> R) (t : table R) : table R :=
  mk_table (map_imap (fun id r => Some (if p id r then f r else r)) (rows t)) (nextval t).

(** [DELETE ... WHERE p] *)
Definition delete_where p (t : table R) : table R :=
  mk_table (map_imap (fun id r => if p id r then None else Some r) (rows t)) (nextval t).

(** [SELECT * ... WHERE p], in no particular order *)
Definition select p (t : table R) : list (Z * R) :=
  filter (fun kr => p kr.1 kr.2 = true) (map_to_list (rows t)).

Definition find_row p (t : table R) : option (Z * R) := head (select p t).
Definition count_where p (t : table R) : Z := Z.of_nat (length (select p t)).
Definition exists_row p (t : table R) : bool := bool_decide (select p t <> []).
Definition id_is (id : Z) : Z -> R -> bool := fun k _ => k =? id.

(** Ids come from the sequence, so the next one is always fresh. *)
Definition table_wf t : Prop := forall id r, rows t !! id = Some r -> id < nextval t.

Lemma lookup_update_where p f t id :
  rows (update_where p f t) !! id =
    (fun r => if p id r then f r else r) <$> rows t !! id.
Proof. unfold update_where. simpl. rewrite map_lookup_imap. by destruct (rows t !! id). Qed.

Lemma lookup_delete_where p t id :
  rows (delete_where p t) !! id =
    rows t !! id ≫= fun r => if p id r then None else Some r.
Proof. unfold delete_where. simpl. by rewrite map_lookup_imap. Qed.

Lemma lookup_update_Some p f t id r' :
  rows (update_where p f t) !! id = Some r' <->
    exists r, rows t !! id = Some r /\ r' = if p id r then f r else r.
Proof. rewrite lookup_update_where, fmap_Some. naive_solver. Qed.

Lemma lookup_delete_Some p t id r :
  rows (delete_where p t) !! id = Some r <-> rows t !! id = Some r /\ p id r = false.
Proof.
  rewrite lookup_delete_where, bind_Some. split.
  - intros (r' & ? & H). destruct (p id r') eqn:?; naive_solver.
  - intros [? H]. eexists. split; [done|]. by rewrite H.
Qed.

Lemma lookup_insert_row r t id :
  rows (insert_row r t).2 !! id = if decide (id = nextval t) then Some r else rows t !! id.
Proof. simpl. destruct (decide _) as [->|]; [by rewrite lookup_insert_eq|by rewrite lookup_insert_ne]. Qed.

Lemma elem_of_select p t id r :
  (id, r) ∈ select p t <-> rows t !! id = Some r /\ p id r = true.
Proof. unfold select. rewrite list_elem_of_filter, elem_of_map_to_list. simpl. tauto. Qed.

Lemma NoDup_select p t : NoDup (select p t).*1.
Proof.
  unfold select. generalize (NoDup_fst_map_to_list (rows t)).
  induction (map_to_list (rows t)) as [|[k r] l IH]; [done|].
  rewrite filter_cons. csimpl. rewrite NoDup_cons. intros [Hk Hl].
  destruct (decide _); [|by apply IH]. csimpl. apply NoDup_cons. split; [|by apply IH].
  rewrite list_elem_of_fmap. intros (y & -> & [_ Hy]%list_elem_of_filter).
  apply Hk. by apply list_elem_of_fmap_2.
Qed.

Lemma find_row_Some p t id r :
  find_row p t = Some (id, r) -> rows t !! id = Some r /\ p id r = true.
Proof. unfold find_row. intros H. apply elem_of_select.
  destruct (select p t) as [|x l]; simplify_eq/=. left.
Qed.

Lemma find_row_None p t :
  find_row p t = None <-> forall id r, rows t !! id = Some r -> p id r = false.
Proof.
  unfold find_row. split.
  - intros H id r Hr. destruct (p id r) eqn:Hp; [|done].
    assert ((id, r) ∈ select p t) as Hin by (by apply elem_of_select).
    destruct (select p t); [by apply elem_of_nil in Hin|done].
  - intros H. destruct (select p t) as [|[id r] l] eqn:E; [done|].
    assert ((id, r) ∈ select p t) as Hin by (rewrite E; left).
    apply elem_of_select in Hin as [Hr Hp]. by rewrite (H _ _ Hr) in Hp.
Qed.

Lemma find_row_id id t : find_row (id_is id) t = (fun r => (id, r)) <$> rows t !! id.
Proof.
  destruct (find_row (id_is id) t) as [[k r]|] eqn:E.
  - apply find_row_Some in E as [Hr Hk]. apply Z.eqb_eq in Hk as ->. by rewrite Hr.
  - destruct (rows t !! id) as [r|] eqn:Hr; [|done].
    pose proof (proj1 (find_row_None _ _) E _ _ Hr) as Hn. unfold id_is in Hn. lia.
Qed.

Lemma table_wf_insert r t : table_wf t -> table_wf (insert_row r t).2.
Proof.
  intros Hwf id r'. rewrite lookup_insert_row. simpl. destruct (decide _) as [->|]; [lia|].
  intros H. apply Hwf in H. lia.
Qed.
Lemma table_wf_update p f t : table_wf t -> table_wf (update_where p f t).
Proof. intros Hwf id r'. rewrite lookup_update_Some. intros (? & ? & _). by eapply Hwf. Qed.
Lemma table_wf_delete p t : table_wf t -> table_wf (delete_where p t).
Proof. intros Hwf id r'. rewrite lookup_delete_Some. intros (? & _). by eapply Hwf. Qed.
Lemma table_wf_fresh t : table_wf t -> rows t !! nextval t = None.
Proof. intros Hwf. destruct (rows t !! nextval t) eqn:E; [|done]. apply Hwf in E. lia. Qed.
End sql_primitives.

#[export] Hint Resolve table_wf_insert table_wf_update table_wf_delete : imapped.

(** * Column types *)

Inductive BodyState := BodyPending | BodyFetching | BodyStored | BodyTooLarge | BodyFailed.
#[export] Instance BodyState_eq_dec : EqDecision BodyState.
Proof. solve_decision. Defined.

Inductive MutationStatus := MutPending | MutInFlight | MutSucceeded | MutFailed.
#[export] Instance MutationStatus_eq_dec : EqDecision MutationStatus.
Proof. solve_decision. Defined.

Inductive MutationType := MutationStoreFlags.
#[export] Instance MutationType_eq_dec : EqDecision MutationType.
Proof. solve_decision. Defined.

Record FlagPayload := mk_FlagPayload {
  fp_UpstreamUID : Z;
  fp_Mailbox : string;
  fp_Flags : list string
}.
#[export] Instance FlagPayload_eq_dec : EqDecision FlagPayload.
Proof. solve_decision. Defined.

(** The address object: from, to, cc, bcc and reply-to lists by name. *)
Notation json_addrs := (gmap string (list string)).

(** * Rows *)

(** [users]; the Go struct is [User]. *)
Record user_row := mk_user {
  us_email : string ;
  us_password_hash : string ;
  us_is_admin : bool ;
  us_disabled_at : option Z ;
  us_created_at : Z
}.

Definition set_us_password_hash (x : string) (r : user_row) : user_row :=
  mk_user (us_email r) x (us_is_admin r) (us_disabled_at r) (us_created_at r).

(** [mail_accounts]; the Go struct is [Account]. *)
Record account_row := mk_account {
  ac_user_id : Z ;
  ac_display_name : string ;
  ac_email_address : string ;
  ac_upstream_host : string ;
  ac_upstream_port : Z ;
  ac_upstream_tls_mode : string ;
  ac_upstream_auth_method : string ;
  ac_encrypted_username : list Z ;
  ac_encrypted_secret : list Z ;
  ac_capabilities : list string ;
  ac_sync_paused : bool ;
  ac_auth_state : string ;
  ac_last_sync_at : option Z ;
  ac_last_sync_error : option string ;
  ac_disabled_at : option Z
}.

Definition set_ac_capabilities (x : list string) (r : account_row) : account_row :=
  mk_account (ac_user_id r) (ac_display_name r) (ac_email_address r) (ac_upstream_host r)
    (ac_upstream_port r) (ac_upstream_tls_mode r) (ac_upstream_auth_method r)
    (ac_encrypted_username r) (ac_encrypted_secret r) x (ac_sync_paused r) (ac_auth_state r)
    (ac_last_sync_at r) (ac_last_sync_error r) (ac_disabled_at r).
Definition set_ac_sync_paused (x : bool) (r : account_row) : account_row :=
  mk_account (ac_user_id r) (ac_display_name r) (ac_email_address r) (ac_upstream_host r)
    (ac_upstream_port r) (ac_upstream_tls_mode r) (ac_upstream_auth_method r)
    (ac_encrypted_username r) (ac_encrypted_secret r) (ac_capabilities r) x (ac_auth_state
    r) (ac_last_sync_at r) (ac_last_sync_error r) (ac_disabled_at r).
Definition set_ac_auth_state (x : string) (r : account_row) : account_row :=
  mk_account (ac_user_id r) (ac_display_name r) (ac_email_address r) (ac_upstream_host r)
    (ac_upstream_port r) (ac_upstream_tls_mode r) (ac_upstream_auth_method r)
    (ac_encrypted_username r) (ac_encrypted_secret r) (ac_capabilities r) (ac_sync_paused r)
    x (ac_last_sync_at r) (ac_last_sync_error r) (ac_disabled_at r).
Definition set_ac_last_sync_at (x : option Z) (r : account_row) : account_row :=
  mk_account (ac_user_id r) (ac_display_name r) (ac_email_address r) (ac_upstream_host r)
    (ac_upstream_port r) (ac_upstream_tls_mode r) (ac_upstream_auth_method r)
    (ac_encrypted_username r) (ac_encrypted_secret r) (ac_capabilities r) (ac_sync_paused r)
    (ac_auth_state r) x (ac_last_sync_error r) (ac_disabled_at r).
Definition set_ac_last_sync_error (x : option string) (r : account_row) : account_row :=
  mk_account (ac_user_id r) (ac_display_name r) (ac_email_address r) (ac_upstream_host r)
    (ac_upstream_port r) (ac_upstream_tls_mode r) (ac_upstream_auth_method r)
    (ac_encrypted_username r) (ac_encrypted_secret r) (ac_capabilities r) (ac_sync_paused r)
    (ac_auth_state r) (ac_last_sync_at r) x (ac_disabled_at r).

(** [mailboxes]; the Go struct is [Mailbox]. *)
Record mailbox_row := mk_mailbox {
  mb_account_id : Z ;
  mb_name : string ;
  mb_canonical_name : string ;
  mb_delimiter : option string ;
  mb_attributes : list string ;
  mb_special_use : option string ;
  mb_subscribed : bool ;
  mb_uidvalidity : option Z ;
  mb_uidnext : option Z ;
  mb_highestmodseq : option Z ;
  mb_metadata_synced_through_uid : Z ;
  mb_last_full_scan_at : option Z ;
  mb_resync_required : bool ;
  mb_sync_generation : Z ;
  mb_local_uidnext : Z ;
  mb_exists_count : Z ;
  mb_unseen_count : Z
}.

Definition set_mb_name (x : string) (r : mailbox_row) : mailbox_row :=
  mk_mailbox (mb_account_id r) x (mb_canonical_name r) (mb_delimiter r) (mb_attributes r)
    (mb_special_use r) (mb_subscribed r) (mb_uidvalidity r) (mb_uidnext r) (mb_highestmodseq
    r) (mb_metadata_synced_through_uid r) (mb_last_full_scan_at r) (mb_resync_required r)
    (mb_sync_generation r) (mb_local_uidnext r) (mb_exists_count r) (mb_unseen_count r).
Definition set_mb_delimiter (x : option string) (r : mailbox_row) : mailbox_row :=
  mk_mailbox (mb_account_id r) (mb_name r) (mb_canonical_name r) x (mb_attributes r)
    (mb_special_use r) (mb_subscribed r) (mb_uidvalidity r) (mb_uidnext r) (mb_highestmodseq
    r) (mb_metadata_synced_through_uid r) (mb_last_full_scan_at r) (mb_resync_required r)
    (mb_sync_generation r) (mb_local_uidnext r) (mb_exists_count r) (mb_unseen_count r).
Definition set_mb_attributes (x : list string) (r : mailbox_row) : mailbox_row :=
  mk_mailbox (mb_account_id r) (mb_name r) (mb_canonical_name r) (mb_delimiter r) x
    (mb_special_use r) (mb_subscribed r) (mb_uidvalidity r) (mb_uidnext r) (mb_highestmodseq
    r) (mb_metadata_synced_through_uid r) (mb_last_full_scan_at r) (mb_resync_required r)
    (mb_sync_generation r) (mb_local_uidnext r) (mb_exists_count r) (mb_unseen_count r).
Definition set_mb_special_use (x : option string) (r : mailbox_row) : mailbox_row :=
  mk_mailbox (mb_account_id r) (mb_name r) (mb_canonical_name r) (mb_delimiter r)
    (mb_attributes r) x (mb_subscribed r) (mb_uidvalidity r) (mb_uidnext r)
    (mb_highestmodseq r) (mb_metadata_synced_through_uid r) (mb_last_full_scan_at r)
    (mb_resync_required r) (mb_sync_generation r) (mb_local_uidnext r) (mb_exists_count r)
    (mb_unseen_count r).
Definition set_mb_uidvalidity (x : option Z) (r : mailbox_row) : mailbox_row :=
  mk_mailbox (mb_account_id r) (mb_name r) (mb_canonical_name r) (mb_delimiter r)
    (mb_attributes r) (mb_special_use r) (mb_subscribed r) x (mb_uidnext r)
    (mb_highestmodseq r) (mb_metadata_synced_through_uid r) (mb_last_full_scan_at r)
    (mb_resync_required r) (mb_sync_generation r) (mb_local_uidnext r) (mb_exists_count r)
    (mb_unseen_count r).
Definition set_mb_uidnext (x : option Z) (r : mailbox_row) : mailbox_row :=
  mk_mailbox (mb_account_id r) (mb_name r) (mb_canonical_name r) (mb_delimiter r)
    (mb_attributes r) (mb_special_use r) (mb_subscribed r) (mb_uidvalidity r) x
    (mb_highestmodseq r) (mb_metadata_synced_through_uid r) (mb_last_full_scan_at r)
    (mb_resync_required r) (mb_sync_generation r) (mb_local_uidnext r) (mb_exists_count r)
    (mb_unseen_count r).
Definition set_mb_highestmodseq (x : option Z) (r : mailbox_row) : mailbox_row :=
  mk_mailbox (mb_account_id r) (mb_name r) (mb_canonical_name r) (mb_delimiter r)
    (mb_attributes r) (mb_special_use r) (mb_subscribed r) (mb_uidvalidity r) (mb_uidnext r)
    x (mb_metadata_synced_through_uid r) (mb_last_full_scan_at r) (mb_resync_required r)
    (mb_sync_generation r) (mb_local_uidnext r) (mb_exists_count r) (mb_unseen_count r).
Definition set_mb_metadata_synced_through_uid (x : Z) (r : mailbox_row) : mailbox_row :=
  mk_mailbox (mb_account_id r) (mb_name r) (mb_canonical_name r) (mb_delimiter r)
    (mb_attributes r) (mb_special_use r) (mb_subscribed r) (mb_uidvalidity r) (mb_uidnext r)
    (mb_highestmodseq r) x (mb_last_full_scan_at r) (mb_resync_required r)
    (mb_sync_generation r) (mb_local_uidnext r) (mb_exists_count r) (mb_unseen_count r).
Definition set_mb_last_full_scan_at (x : option Z) (r : mailbox_row) : mailbox_row :=
  mk_mailbox (mb_account_id r) (mb_name r) (mb_canonical_name r) (mb_delimiter r)
    (mb_attributes r) (mb_special_use r) (mb_subscribed r) (mb_uidvalidity r) (mb_uidnext r)
    (mb_highestmodseq r) (mb_metadata_synced_through_uid r) x (mb_resync_required r)
    (mb_sync_generation r) (mb_local_uidnext r) (mb_exists_count r) (mb_unseen_count r).
Definition set_mb_resync_required (x : bool) (r : mailbox_row) : mailbox_row :=
  mk_mailbox (mb_account_id r) (mb_name r) (mb_canonical_name r) (mb_delimiter r)
    (mb_attributes r) (mb_special_use r) (mb_subscribed r) (mb_uidvalidity r) (mb_uidnext r)
    (mb_highestmodseq r) (mb_metadata_synced_through_uid r) (mb_last_full_scan_at r) x
    (mb_sync_generation r) (mb_local_uidnext r) (mb_exists_count r) (mb_unseen_count r).
Definition set_mb_sync_generation (x : Z) (r : mailbox_row) : mailbox_row :=
  mk_mailbox (mb_account_id r) (mb_name r) (mb_canonical_name r) (mb_delimiter r)
    (mb_attributes r) (mb_special_use r) (mb_subscribed r) (mb_uidvalidity r) (mb_uidnext r)
    (mb_highestmodseq r) (mb_metadata_synced_through_uid r) (mb_last_full_scan_at r)
    (mb_resync_required r) x (mb_local_uidnext r) (mb_exists_count r) (mb_unseen_count r).
Definition set_mb_local_uidnext (x : Z) (r : mailbox_row) : mailbox_row :=
  mk_mailbox (mb_account_id r) (mb_name r) (mb_canonical_name r) (mb_delimiter r)
    (mb_attributes r) (mb_special_use r) (mb_subscribed r) (mb_uidvalidity r) (mb_uidnext r)
    (mb_highestmodseq r) (mb_metadata_synced_through_uid r) (mb_last_full_scan_at r)
    (mb_resync_required r) (mb_sync_generation r) x (mb_exists_count r) (mb_unseen_count r).
Definition set_mb_exists_count (x : Z) (r : mailbox_row) : mailbox_row :=
  mk_mailbox (mb_account_id r) (mb_name r) (mb_canonical_name r) (mb_delimiter r)
    (mb_attributes r) (mb_special_use r) (mb_subscribed r) (mb_uidvalidity r) (mb_uidnext r)
    (mb_highestmodseq r) (mb_metadata_synced_through_uid r) (mb_last_full_scan_at r)
    (mb_resync_required r) (mb_sync_generation r) (mb_local_uidnext r) x (mb_unseen_count
    r).
Definition set_mb_unseen_count (x : Z) (r : mailbox_row) : mailbox_row :=
  mk_mailbox (mb_account_id r) (mb_name r) (mb_canonical_name r) (mb_delimiter r)
    (mb_attributes r) (mb_special_use r) (mb_subscribed r) (mb_uidvalidity r) (mb_uidnext r)
    (mb_highestmodseq r) (mb_metadata_synced_through_uid r) (mb_last_full_scan_at r)
    (mb_resync_required r) (mb_sync_generation r) (mb_local_uidnext r) (mb_exists_count r)
    x.

(** [messages]: one row per distinct content of an account. *)
Record message_row := mk_message {
  m_account_id : Z ;
  m_rfc822_sha256 : list Z ;
  m_rfc822_size : Z ;
  m_blob_key : option string ;
  m_message_id_hdr : option string ;
  m_in_reply_to : option string ;
  m_refs : list string ;
  m_subject : option string ;
  m_addrs : json_addrs ;
  m_internal_date : option Z ;
  m_sent_date : option Z ;
  m_body_text : option string ;
  m_preview : option string ;
  m_parse_failed : bool ;
  m_parse_error : option string
}.

Definition set_m_rfc822_sha256 (x : list Z) (r : message_row) : message_row :=
  mk_message (m_account_id r) x (m_rfc822_size r) (m_blob_key r) (m_message_id_hdr r)
    (m_in_reply_to r) (m_refs r) (m_subject r) (m_addrs r) (m_internal_date r) (m_sent_date
    r) (m_body_text r) (m_preview r) (m_parse_failed r) (m_parse_error r).
Definition set_m_rfc822_size (x : Z) (r : message_row) : message_row :=
  mk_message (m_account_id r) (m_rfc822_sha256 r) x (m_blob_key r) (m_message_id_hdr r)
    (m_in_reply_to r) (m_refs r) (m_subject r) (m_addrs r) (m_internal_date r) (m_sent_date
    r) (m_body_text r) (m_preview r) (m_parse_failed r) (m_parse_error r).
Definition set_m_blob_key (x : option string) (r : message_row) : message_row :=
  mk_message (m_account_id r) (m_rfc822_sha256 r) (m_rfc822_size r) x (m_message_id_hdr r)
    (m_in_reply_to r) (m_refs r) (m_subject r) (m_addrs r) (m_internal_date r) (m_sent_date
    r) (m_body_text r) (m_preview r) (m_parse_failed r) (m_parse_error r).
Definition set_m_subject (x : option string) (r : message_row) : message_row :=
  mk_message (m_account_id r) (m_rfc822_sha256 r) (m_rfc822_size r) (m_blob_key r)
    (m_message_id_hdr r) (m_in_reply_to r) (m_refs r) x (m_addrs r) (m_internal_date r)
    (m_sent_date r) (m_body_text r) (m_preview r) (m_parse_failed r) (m_parse_error r).

(** [mailbox_messages]: the presence of a message in a mailbox. *)
Record mm_row := mk_mm {
  mm_mailbox_id : Z ;
  mm_message_id : Z ;
  mm_local_uid : Z ;
  mm_upstream_uid : option Z ;
  mm_upstream_modseq : option Z ;
  mm_flags : list string ;
  mm_body_state : BodyState ;
  mm_body_attempts : Z ;
  mm_body_error : option string ;
  mm_claimed_at : option Z ;
  mm_expunged_at : option Z
}.

Definition set_mm_message_id (x : Z) (r : mm_row) : mm_row :=
  mk_mm (mm_mailbox_id r) x (mm_local_uid r) (mm_upstream_uid r) (mm_upstream_modseq r)
    (mm_flags r) (mm_body_state r) (mm_body_attempts r) (mm_body_error r) (mm_claimed_at r)
    (mm_expunged_at r).
Definition set_mm_upstream_uid (x : option Z) (r : mm_row) : mm_row :=
  mk_mm (mm_mailbox_id r) (mm_message_id r) (mm_local_uid r) x (mm_upstream_modseq r)
    (mm_flags r) (mm_body_state r) (mm_body_attempts r) (mm_body_error r) (mm_claimed_at r)
    (mm_expunged_at r).
Definition set_mm_upstream_modseq (x : option Z) (r : mm_row) : mm_row :=
  mk_mm (mm_mailbox_id r) (mm_message_id r) (mm_local_uid r) (mm_upstream_uid r) x (mm_flags
    r) (mm_body_state r) (mm_body_attempts r) (mm_body_error r) (mm_claimed_at r)
    (mm_expunged_at r).
Definition set_mm_flags (x : list string) (r : mm_row) : mm_row :=
  mk_mm (mm_mailbox_id r) (mm_message_id r) (mm_local_uid r) (mm_upstream_uid r)
    (mm_upstream_modseq r) x (mm_body_state r) (mm_body_attempts r) (mm_body_error r)
    (mm_claimed_at r) (mm_expunged_at r).
Definition set_mm_body_state (x : BodyState) (r : mm_row) : mm_row :=
  mk_mm (mm_mailbox_id r) (mm_message_id r) (mm_local_uid r) (mm_upstream_uid r)
    (mm_upstream_modseq r) (mm_flags r) x (mm_body_attempts r) (mm_body_error r)
    (mm_claimed_at r) (mm_expunged_at r).
Definition set_mm_body_attempts (x : Z) (r : mm_row) : mm_row :=
  mk_mm (mm_mailbox_id r) (mm_message_id r) (mm_local_uid r) (mm_upstream_uid r)
    (mm_upstream_modseq r) (mm_flags r) (mm_body_state r) x (mm_body_error r) (mm_claimed_at
    r) (mm_expunged_at r).
Definition set_mm_body_error (x : option string) (r : mm_row) : mm_row :=
  mk_mm (mm_mailbox_id r) (mm_message_id r) (mm_local_uid r) (mm_upstream_uid r)
    (mm_upstream_modseq r) (mm_flags r) (mm_body_state r) (mm_body_attempts r) x
    (mm_claimed_at r) (mm_expunged_at r).
Definition set_mm_claimed_at (x : option Z) (r : mm_row) : mm_row :=
  mk_mm (mm_mailbox_id r) (mm_message_id r) (mm_local_uid r) (mm_upstream_uid r)
    (mm_upstream_modseq r) (mm_flags r) (mm_body_state r) (mm_body_attempts r)
    (mm_body_error r) x (mm_expunged_at r).

(** [mime_parts]; the Go struct is [MIMEPart]. *)
Record mime_row := mk_mime {
  mp_message_id : Z ;
  mp_part_path : string ;
  mp_content_type : string ;
  mp_charset : option string ;
  mp_disposition : option string ;
  mp_filename : option string ;
  mp_content_id : option string ;
  mp_transfer_encoding : option string ;
  mp_size_octets : Z ;
  mp_blob_key : option string
}.

Definition set_mp_content_type (x : string) (r : mime_row) : mime_row :=
  mk_mime (mp_message_id r) (mp_part_path r) x (mp_charset r) (mp_disposition r)
    (mp_filename r) (mp_content_id r) (mp_transfer_encoding r) (mp_size_octets r)
    (mp_blob_key r).
Definition set_mp_size_octets (x : Z) (r : mime_row) : mime_row :=
  mk_mime (mp_message_id r) (mp_part_path r) (mp_content_type r) (mp_charset r)
    (mp_disposition r) (mp_filename r) (mp_content_id r) (mp_transfer_encoding r) x
    (mp_blob_key r).
Definition set_mp_blob_key (x : option string) (r : mime_row) : mime_row :=
  mk_mime (mp_message_id r) (mp_part_path r) (mp_content_type r) (mp_charset r)
    (mp_disposition r) (mp_filename r) (mp_content_id r) (mp_transfer_encoding r)
    (mp_size_octets r) x.

(** [pending_mutations]; the Go struct is [Mutation]. *)
Record mutation_row := mk_mutation {
  pm_account_id : Z ;
  pm_mailbox_id : option Z ;
  pm_mutation_type : MutationType ;
  pm_payload : FlagPayload ;
  pm_status : MutationStatus ;
  pm_attempts : Z ;
  pm_next_attempt_at : option Z ;
  pm_last_error : option string ;
  pm_idempotency_key : string ;
  pm_locked_by : option string ;
  pm_locked_at : option Z ;
  pm_created_at : Z
}.

Definition set_pm_status (x : MutationStatus) (r : mutation_row) : mutation_row :=
  mk_mutation (pm_account_id r) (pm_mailbox_id r) (pm_mutation_type r) (pm_payload r) x
    (pm_attempts r) (pm_next_attempt_at r) (pm_last_error r) (pm_idempotency_key r)
    (pm_locked_by r) (pm_locked_at r) (pm_created_at r).
Definition set_pm_attempts (x : Z) (r : mutation_row) : mutation_row :=
  mk_mutation (pm_account_id r) (pm_mailbox_id r) (pm_mutation_type r) (pm_payload r)
    (pm_status r) x (pm_next_attempt_at r) (pm_last_error r) (pm_idempotency_key r)
    (pm_locked_by r) (pm_locked_at r) (pm_created_at r).
Definition set_pm_next_attempt_at (x : option Z) (r : mutation_row) : mutation_row :=
  mk_mutation (pm_account_id r) (pm_mailbox_id r) (pm_mutation_type r) (pm_payload r)
    (pm_status r) (pm_attempts r) x (pm_last_error r) (pm_idempotency_key r) (pm_locked_by
    r) (pm_locked_at r) (pm_created_at r).
Definition set_pm_last_error (x : option string) (r : mutation_row) : mutation_row :=
  mk_mutation (pm_account_id r) (pm_mailbox_id r) (pm_mutation_type r) (pm_payload r)
    (pm_status r) (pm_attempts r) (pm_next_attempt_at r) x (pm_idempotency_key r)
    (pm_locked_by r) (pm_locked_at r) (pm_created_at r).
Definition set_pm_locked_by (x : option string) (r : mutation_row) : mutation_row :=
  mk_mutation (pm_account_id r) (pm_mailbox_id r) (pm_mutation_type r) (pm_payload r)
    (pm_status r) (pm_attempts r) (pm_next_attempt_at r) (pm_last_error r)
    (pm_idempotency_key r) x (pm_locked_at r) (pm_created_at r).
Definition set_pm_locked_at (x : option Z) (r : mutation_row) : mutation_row :=
  mk_mutation (pm_account_id r) (pm_mailbox_id r) (pm_mutation_type r) (pm_payload r)
    (pm_status r) (pm_attempts r) (pm_next_attempt_at r) (pm_last_error r)
    (pm_idempotency_key r) (pm_locked_by r) x (pm_created_at r).

(** [sync_runs]; the Go struct is [SyncRun]. *)
Record run_row := mk_run {
  sr_account_id : Z ;
  sr_status : string ;
  sr_phase : string ;
  sr_trigger : string ;
  sr_mailboxes_total : Z ;
  sr_mailboxes_done : Z ;
  sr_messages_new : Z ;
  sr_bodies_fetched : Z ;
  sr_bytes_fetched : Z ;
  sr_commands_issued : Z ;
  sr_error : option string ;
  sr_started_at : Z ;
  sr_heartbeat_at : Z ;
  sr_finished_at : option Z
}.


(** [sessions]. *)
Record session_row := mk_session {
  se_user_id : Z ;
  se_token_hash : list Z ;
  se_kind : string ;
  se_user_agent : string ;
  se_remote_addr : string ;
  se_last_seen_at : Z ;
  se_expires_at : Z ;
  se_revoked_at : option Z
}.

Definition set_se_last_seen_at (x : Z) (r : session_row) : session_row :=
  mk_session (se_user_id r) (se_token_hash r) (se_kind r) (se_user_agent r) (se_remote_addr
    r) x (se_expires_at r) (se_revoked_at r).
Definition set_se_revoked_at (x : option Z) (r : session_row) : session_row :=
  mk_session (se_user_id r) (se_token_hash r) (se_kind r) (se_user_agent r) (se_remote_addr
    r) (se_last_seen_at r) (se_expires_at r) x.

(** The database: one table per record type. *)
Record DB := mk_DB {
  users : table user_row ;
  mail_accounts : table account_row ;
  mailboxes : table mailbox_row ;
  messages : table message_row ;
  mailbox_messages : table mm_row ;
  mime_parts : table mime_row ;
  pending_mutations : table mutation_row ;
  sync_runs : table run_row ;
  sessions : table session_row
}.

Definition set_users (x : table user_row) (r : DB) : DB :=
  mk_DB x (mail_accounts r) (mailboxes r) (messages r) (mailbox_messages r) (mime_parts r)
    (pending_mutations r) (sync_runs r) (sessions r).
Definition set_mail_accounts (x : table account_row) (r : DB) : DB :=
  mk_DB (users r) x (mailboxes r) (messages r) (mailbox_messages r) (mime_parts r)
    (pending_mutations r) (sync_runs r) (sessions r).
Definition set_mailboxes (x : table mailbox_row) (r : DB) : DB :=
  mk_DB (users r) (mail_accounts r) x (messages r) (mailbox_messages r) (mime_parts r)
    (pending_mutations r) (sync_runs r) (sessions r).
Definition set_messages (x : table message_row) (r : DB) : DB :=
  mk_DB (users r) (mail_accounts r) (mailboxes r) x (mailbox_messages r) (mime_parts r)
    (pending_mutations r) (sync_runs r) (sessions r).
Definition set_mailbox_messages (x : table mm_row) (r : DB) : DB :=
  mk_DB (users r) (mail_accounts r) (mailboxes r) (messages r) x (mime_parts r)
    (pending_mutations r) (sync_runs r) (sessions r).
Definition set_mime_parts (x : table mime_row) (r : DB) : DB :=
  mk_DB (users r) (mail_accounts r) (mailboxes r) (messages r) (mailbox_messages r) x
    (pending_mutations r) (sync_runs r) (sessions r).
Definition set_pending_mutations (x : table mutation_row) (r : DB) : DB :=
  mk_DB (users r) (mail_accounts r) (mailboxes r) (messages r) (mailbox_messages r)
    (mime_parts r) x (sync_runs r) (sessions r).
Definition set_sync_runs (x : table run_row) (r : DB) : DB :=
  mk_DB (users r) (mail_accounts r) (mailboxes r) (messages r) (mailbox_messages r)
    (mime_parts r) (pending_mutations r) x (sessions r).
Definition set_sessions (x : table session_row) (r : DB) : DB :=
  mk_DB (users r) (mail_accounts r) (mailboxes r) (messages r) (mailbox_messages r)
    (mime_parts r) (pending_mutations r) (sync_runs r) x.

Definition empty_db : DB :=
  mk_DB empty_table empty_table empty_table empty_table empty_table empty_table
    empty_table empty_table empty_table.

(** * Statements and transactions *)

(** A query against the database: a result or an error, and the database after
    it.  A statement runs atomically; an error of a single statement leaves the
    database as it was. *)
Definition sql (A : Type) : Type := DB -> (err + A) * DB.

#[export] Instance sql_ret : MRet sql := fun _ x db => (inr x, db).
#[export] Instance sql_bind : MBind sql := fun _ _ f m db =>
  match m db with
  | (inl e, db) => (inl e, db)
  | (inr x, db) => f x db
  end.
Definition throw {A} (e : err) : sql A := fun db => (inl e, db).
Definition gets {A} (f : DB -> A) : sql A := fun db => (inr (f db), db).
Definition modify (f : DB -> DB) : sql unit := fun db => (inr tt, f db).
Definition from_option_or {A} (e : err) (o : option A) : sql A :=
  match o with Some x => mret x | None => throw e end.

(** [fmt.Errorf("pre: %w", err)] on the error of a query. *)
Definition wrap_err {A} (pre : string) (m : sql A) : sql A := fun db =>
  match m db with
  | (inl e, db) => (inl (ErrWrap pre e ""), db)
  | r => r
  end.

(** [notFound]: pgx's no-rows sentinel becomes the package's own. *)
Definition notFound (e : err) : err := if err_is e ErrNoRows then ErrNotFound else e.
Definition map_err {A} (f : err -> err) (m : sql A) : sql A := fun db =>
  match m db with
  | (inl e, db) => (inl (f e), db)
  | r => r
  end.

(** [InTx]: an error rolls the transaction back. *)
Definition InTx {A} (fn : sql A) : sql A := fun db =>
  match fn db with
  | (inl e, _) => (inl e, db)
  | r => r
  end.

Fixpoint for_each {A} (f : A -> sql unit) (l : list A) : sql unit :=
  match l with
  | [] => mret tt
  | x :: l => f x ≫= fun _ => for_each f l
  end.

(** What a method does to the database, its result apart. *)
Definition exec {A} (m : sql A) (db : DB) : DB := (m db).2.

Section sql_lemmas.
Context {A B : Type}.

Lemma exec_ret (x : A) db : exec (mret x) db = db.
Proof. done. Qed.
Lemma exec_InTx_err (fn : sql A) db e : (InTx fn db).1 = inl e -> exec (InTx fn) db = db.
Proof. unfold exec, InTx. by destruct (fn db) as [[|] ?]. Qed.

(** A property of databases that a method keeps. *)
Definition preserves (P : DB -> Prop) (m : sql A) : Prop := forall db, P db -> P (exec m db).

Lemma preserves_ret P (x : A) : preserves P (mret x).
Proof. by intros ??. Qed.
Lemma preserves_throw P e : preserves P (throw (A:=A) e).
Proof. by intros ??. Qed.
Lemma preserves_gets P (f : DB -> A) : preserves P (gets f).
Proof. by intros ??. Qed.
Lemma preserves_wrap P s (m : sql A) : preserves P m -> preserves P (wrap_err s m).
Proof. intros H db HP. specialize (H db HP). unfold exec, wrap_err in *. by destruct (m db) as [[]]. Qed.
Lemma preserves_map_err P f (m : sql A) : preserves P m -> preserves P (map_err f m).
Proof. intros H db HP. specialize (H db HP). unfold exec, map_err in *. by destruct (m db) as [[]]. Qed.
Lemma preserves_InTx P (m : sql A) : preserves P m -> preserves P (InTx m).
Proof. intros H db HP. specialize (H db HP). unfold exec, InTx in *. by destruct (m db) as [[]]. Qed.
Lemma preserves_option P e (o : option A) : preserves P (from_option_or e o).
Proof. by destruct o; intros ??. Qed.
End sql_lemmas.

Lemma preserves_bind {A B} P (m : sql A) (f : A -> sql B) :
  preserves P m -> (forall x, preserves P (f x)) -> preserves P (m ≫= f).
Proof.
  intros Hm Hf db HP. specialize (Hm db HP). unfold exec, mbind, sql_bind in *.
  destruct (m db) as [[e|x] db']; [done|]. by apply Hf.
Qed.

Lemma preserves_modify (P : DB -> Prop) f : (forall db, P db -> P (f db)) -> preserves P (modify f).
Proof. intros H db. apply H. Qed.

Lemma preserves_for_each {A} P (f : A -> sql unit) l :
  (forall x, preserves P (f x)) -> preserves P (for_each f l).
Proof.
  intros H. induction l as [|x l IH]; simpl; [apply preserves_ret|].
  apply preserves_bind; auto.
Qed.

Create HintDb sql.
#[export] Hint Resolve preserves_ret preserves_throw preserves_gets preserves_wrap preserves_map_err
  preserves_InTx preserves_option preserves_bind preserves_for_each : sql.
