(* ===== verification/StoreMailboxes.v ===== *)
(** Mailboxes and their sync checkpoints (internal/store/mailboxes.go). *)
From S2P Require Import Prelude GoStrings Retry Schema.
From Stdlib Require Import String.
From stdpp Require Import strings.
Open Scope string_scope.
Open Scope Z_scope.

(** A scanned mailbox: its id and its columns. *)
Definition Mailbox : Type := Z * mailbox_row.

Record UpsertMailboxParams := mk_UpsertMailboxParams {
  up_AccountID : Z;
  up_Name : string;
  up_CanonicalName : string;
  up_Delimiter : option string;
  up_Attributes : list string;
  up_SpecialUse : option string
}.

(** The unique index on (account_id, canonical_name). *)
Definition mailbox_key (account : Z) (canonical : string) (_ : Z) (r : mailbox_row) : bool :=
  (mb_account_id r =? account) && String.eqb (mb_canonical_name r) canonical.

(** The row the INSERT creates: columns it does not name take their defaults. *)
Definition new_mailbox (p : UpsertMailboxParams) : mailbox_row :=
  {| mb_account_id := up_AccountID p; mb_name := up_Name p;
     mb_canonical_name := up_CanonicalName p; mb_delimiter := up_Delimiter p;
     mb_attributes := up_Attributes p; mb_special_use := up_SpecialUse p;
     mb_subscribed := true; mb_uidvalidity := None; mb_uidnext := None;
     mb_highestmodseq := None; mb_metadata_synced_through_uid := 0;
     mb_last_full_scan_at := None; mb_resync_required := false; mb_sync_generation := 0;
     mb_local_uidnext := 1; mb_exists_count := 0; mb_unseen_count := 0 |}.

Definition relist_mailbox (p : UpsertMailboxParams) (r : mailbox_row) : mailbox_row :=
  set_mb_name (up_Name p) (set_mb_delimiter (up_Delimiter p)
    (set_mb_attributes (up_Attributes p) (set_mb_special_use (up_SpecialUse p) r))).

Definition update_mailbox (id : Z) (f : mailbox_row -> mailbox_row) (db : DB) : DB :=
  set_mailboxes (update_where (id_is id) f (mailboxes db)) db.

Definition UpsertMailbox (p : UpsertMailboxParams) : sql Mailbox :=
  wrap_err ("upserting mailbox " ++ Quote (up_Name p) ++ ": ") (fun db =>
    match find_row (mailbox_key (up_AccountID p) (up_CanonicalName p)) (mailboxes db) with
    | Some (id, r) =>
        (inr (id, relist_mailbox p r), update_mailbox id (relist_mailbox p) db)
    | None =>
        match rows (mail_accounts db) !! up_AccountID p with
        | None => (inl (ErrText "mailboxes_account_id_fkey"), db)
        | Some _ =>
            let '(id, t) := insert_row (new_mailbox p) (mailboxes db) in
            (inr (id, new_mailbox p), set_mailboxes t db)
        end
    end).

(** [ORDER BY canonical_name], in byte order. *)
Definition canonical_le (m1 m2 : Mailbox) : Prop :=
  String.leb (mb_canonical_name m1.2) (mb_canonical_name m2.2) = true.
#[export] Instance canonical_le_dec : RelDecision canonical_le.
Proof. intros ??. unfold canonical_le. apply _. Defined.

Definition ListMailboxes (accountID : Z) : sql (list Mailbox) :=
  gets (fun db => merge_sort canonical_le
    (select (fun _ r => mb_account_id r =? accountID) (mailboxes db))).

Definition GetMailbox (id : Z) : sql Mailbox := fun db =>
  match rows (mailboxes db) !! id with
  | Some r => (inr (id, r), db)
  | None => (inl (ErrWrap ("loading mailbox " ++ Itoa id ++ ": ") (notFound ErrNoRows) ""), db)
  end.

Record Checkpoint := mk_Checkpoint {
  cp_UIDValidity : Z;
  cp_UIDNext : Z;
  cp_HighestModSeq : Z;
  cp_MetadataSyncedThroughUID : Z;
  cp_FullScanCompleted : bool
}.

Definition COALESCE {A} (o : option A) (d : A) : A := match o with Some x => x | None => d end.
Definition COALESCE_opt {A} (o d : option A) : option A := match o with Some x => Some x | None => d end.

Definition save_full_scan (now : Z) (c : Checkpoint) (r : mailbox_row) : mailbox_row :=
  set_mb_uidvalidity (Some (cp_UIDValidity c))
  (set_mb_uidnext (Some (cp_UIDNext c))
  (set_mb_highestmodseq (Some (Z.max (COALESCE (mb_highestmodseq r) 0) (cp_HighestModSeq c)))
  (set_mb_metadata_synced_through_uid
     (Z.max (mb_metadata_synced_through_uid r) (cp_MetadataSyncedThroughUID c))
  (set_mb_last_full_scan_at (Some now)
  (set_mb_resync_required false r))))).

Definition save_mid_pass (c : Checkpoint) (r : mailbox_row) : mailbox_row :=
  set_mb_uidvalidity (Some (cp_UIDValidity c))
  (set_mb_metadata_synced_through_uid
     (Z.max (mb_metadata_synced_through_uid r) (cp_MetadataSyncedThroughUID c))
  (set_mb_resync_required false r)).

Definition SaveCheckpoint (now : Z) (mailboxID : Z) (c : Checkpoint) : sql unit :=
  modify (update_mailbox mailboxID
    (if cp_FullScanCompleted c then save_full_scan now c else save_mid_pass c)).

Definition clear_upstream (r : mm_row) : mm_row :=
  set_mm_upstream_uid None (set_mm_upstream_modseq None r).

Definition reset_checkpoint (newUIDValidity : Z) (r : mailbox_row) : mailbox_row :=
  set_mb_uidvalidity (Some newUIDValidity)
  (set_mb_highestmodseq (Some 0)
  (set_mb_metadata_synced_through_uid 0
  (set_mb_resync_required true
  (set_mb_sync_generation (mb_sync_generation r + 1) r)))).

Definition in_mailbox (mailboxID : Z) (_ : Z) (r : mm_row) : bool := mm_mailbox_id r =? mailboxID.

Definition ResetForUIDValidityChange (mailboxID newUIDValidity : Z) : sql unit :=
  InTx (
    modify (fun db => set_mailbox_messages
      (update_where (in_mailbox mailboxID) clear_upstream (mailbox_messages db)) db) ;;
    modify (update_mailbox mailboxID (reset_checkpoint newUIDValidity))).

(** Messages a client sees: those not marked expunged. *)
Definition live_in (mailboxID : Z) (_ : Z) (r : mm_row) : bool :=
  (mm_mailbox_id r =? mailboxID) && bool_decide (mm_expunged_at r = None).
Definition seen_flag : string := "\Seen".
Definition unseen (r : mm_row) : bool := negb (bool_decide (seen_flag ∈ mm_flags r)).

Definition RefreshMailboxCounts (mailboxID : Z) : sql unit :=
  modify (fun db =>
    let total := count_where (live_in mailboxID) (mailbox_messages db) in
    let unseen := count_where (fun id r => live_in mailboxID id r && unseen r) (mailbox_messages db) in
    update_mailbox mailboxID (fun r => set_mb_exists_count total (set_mb_unseen_count unseen r)) db).

(** Deleting mailboxes cascades to the rows that reference them. *)
Definition gone {R} (t : table R) (id : Z) : bool := bool_decide (rows t !! id = None).

Definition cascade_mailboxes (db : DB) : DB :=
  set_mailbox_messages
    (delete_where (fun _ r => gone (mailboxes db) (mm_mailbox_id r)) (mailbox_messages db))
  (set_pending_mutations
    (delete_where (fun _ r => match pm_mailbox_id r with
                              | Some id => gone (mailboxes db) id
                              | None => false end) (pending_mutations db)) db).

Definition delete_mailboxes (p : Z -> mailbox_row -> bool) (db : DB) : DB :=
  cascade_mailboxes (set_mailboxes (delete_where p (mailboxes db)) db).

(** [NOT (x = ANY ($2))].  A nil Go slice arrives as NULL, and the comparison
    with NULL is not true of any row; [keep] is [None] for nil. *)
Definition not_any {A} `{EqDecision A} (x : A) (keep : option (list A)) : bool :=
  match keep with
  | Some keep => negb (bool_decide (x ∈ keep))
  | None => false
  end.

Definition DeleteMailboxesExcept (accountID : Z) (keep : option (list string)) : sql Z := fun db =>
  let doomed _ r := (mb_account_id r =? accountID) && not_any (mb_canonical_name r) keep in
  (inr (count_where doomed (mailboxes db)), delete_mailboxes doomed db).
