(* ===== verification/StoreMessages.v ===== *)
(** Messages and the body queue (internal/store/messages.go): metadata upserts,
    claiming and finishing body downloads, deduplication by content. *)
From S2P Require Import Prelude GoStrings Retry Schema StoreMailboxes.
From Stdlib Require Import String.
From stdpp Require Import strings.
Open Scope string_scope.
Open Scope Z_scope.

Record MessageMeta := mk_MessageMeta {
  mt_AccountID : Z;
  mt_MailboxID : Z;
  mt_UpstreamUID : Z;
  mt_UpstreamModSeq : Z;
  mt_Flags : list string;
  mt_Size : Z;
  mt_MessageID : option string;
  mt_InReplyTo : option string;
  mt_References : list string;
  mt_Subject : option string;
  mt_Addrs : option json_addrs;   (* None: no JSON text at all *)
  mt_InternalDate : option Z;
  mt_SentDate : option Z
}.

(** [byte(v >> (8*i))] *)
Definition byte_of (v : Z) (i : nat) : Z := Z.land (Z.shiftr v (8 * Z.of_nat i)) 255.

(** The ASCII bytes of ["pending:"], the two identifiers in little-endian order,
    and eight zero bytes. *)
Definition placeholder_prefix : list Z := [112; 101; 110; 100; 105; 110; 103; 58].
Definition placeholderDigest (mailboxID uid : Z) : list Z :=
  placeholder_prefix
  ++ map (byte_of mailboxID) (List.seq 0 8) ++ map (byte_of uid) (List.seq 0 8) ++ repeat 0 8.

Definition nullableInt (v : Z) : option Z := if v =? 0 then None else Some v.

(** The unique index on (account_id, rfc822_sha256). *)
Definition message_key (account : Z) (sha : list Z) (_ : Z) (r : message_row) : bool :=
  (m_account_id r =? account) && bool_decide (m_rfc822_sha256 r = sha).

Definition new_message (m : MessageMeta) (sha : list Z) : message_row :=
  {| m_account_id := mt_AccountID m; m_rfc822_sha256 := sha; m_rfc822_size := mt_Size m;
     m_blob_key := None; m_message_id_hdr := mt_MessageID m; m_in_reply_to := mt_InReplyTo m;
     m_refs := mt_References m; m_subject := mt_Subject m;
     m_addrs := COALESCE (mt_Addrs m) ∅; m_internal_date := mt_InternalDate m;
     m_sent_date := mt_SentDate m; m_body_text := None; m_preview := None;
     m_parse_failed := false; m_parse_error := None |}.

(** The first statement of [upsertMetadataTx]: the messages row. *)
Definition upsert_message (m : MessageMeta) : sql Z := fun db =>
  let sha := placeholderDigest (mt_MailboxID m) (mt_UpstreamUID m) in
  if mt_Size m <? 0 then (inl (ErrText "messages_size_nonnegative"), db) else
  match rows (mail_accounts db) !! mt_AccountID m with
  | None => (inl (ErrText "messages_account_id_fkey"), db)
  | Some _ =>
      match find_row (message_key (mt_AccountID m) sha) (messages db) with
      | Some (id, _) =>
          (inr id, set_messages (update_where (id_is id) (set_m_subject (mt_Subject m)) (messages db)) db)
      | None =>
          let '(id, t) := insert_row (new_message m sha) (messages db) in
          (inr id, set_messages t db)
      end
  end.

(** The partial unique index on (mailbox_id, upstream_uid). *)
Definition mm_key (mailboxID uid : Z) (_ : Z) (r : mm_row) : bool :=
  (mm_mailbox_id r =? mailboxID) && bool_decide (mm_upstream_uid r = Some uid).

Definition new_mm (m : MessageMeta) (messageID local_uid : Z) : mm_row :=
  {| mm_mailbox_id := mt_MailboxID m; mm_message_id := messageID; mm_local_uid := local_uid;
     mm_upstream_uid := Some (mt_UpstreamUID m);
     mm_upstream_modseq := nullableInt (mt_UpstreamModSeq m); mm_flags := mt_Flags m;
     mm_body_state := BodyPending; mm_body_attempts := 0; mm_body_error := None;
     mm_claimed_at := None; mm_expunged_at := None |}.

Definition refresh_mm (m : MessageMeta) (r : mm_row) : mm_row :=
  set_mm_flags (mt_Flags m) (set_mm_upstream_modseq (nullableInt (mt_UpstreamModSeq m)) r).

(** The second statement: [WITH allocated AS (UPDATE mailboxes SET local_uidnext
    = local_uidnext + 1 ... RETURNING local_uidnext - 1) INSERT ...].  The
    counter moves even when the insert turns into an update; a missing mailbox
    allocates nothing, so no row comes back. *)
Definition upsert_mailbox_message (m : MessageMeta) (messageID : Z) : sql (Z * bool) := fun db =>
  match rows (mailboxes db) !! mt_MailboxID m with
  | None => (inl ErrNoRows, db)
  | Some mb =>
      let db := update_mailbox (mt_MailboxID m) (fun r => set_mb_local_uidnext (mb_local_uidnext r + 1) r) db in
      match find_row (mm_key (mt_MailboxID m) (mt_UpstreamUID m)) (mailbox_messages db) with
      | Some (id, _) =>
          (inr (id, false),
           set_mailbox_messages (update_where (id_is id) (refresh_mm m) (mailbox_messages db)) db)
      | None =>
          let '(id, t) := insert_row (new_mm m messageID (mb_local_uidnext mb)) (mailbox_messages db) in
          (inr (id, true), set_mailbox_messages t db)
      end
  end.

Definition upsertMetadataTx (m : MessageMeta) : sql (Z * bool) :=
  messageID ← wrap_err "upserting message: " (upsert_message m);
  wrap_err "upserting mailbox message: " (upsert_mailbox_message m messageID).

Definition UpsertMetadata (m : MessageMeta) : sql (Z * bool) := InTx (upsertMetadataTx m).

Fixpoint upsert_all (metas : list MessageMeta) (created : Z) : sql Z :=
  match metas with
  | [] => mret created
  | m :: metas =>
      '(_, wasCreated) ← upsertMetadataTx m;
      upsert_all metas (if (wasCreated : bool) then created + 1 else created)
  end.

Definition UpsertMetadataBatch (metas : list MessageMeta) : sql Z :=
  match metas with
  | [] => mret 0
  | _ => InTx (upsert_all metas 0)
  end.

Definition update_mm (p : Z -> mm_row -> bool) (f : mm_row -> mm_row) (db : DB) : DB :=
  set_mailbox_messages (update_where p f (mailbox_messages db)) db.

Definition UpdateFlags (mailboxID upstreamUID : Z) (flags : list string) (modseq : Z) : sql unit :=
  modify (update_mm (mm_key mailboxID upstreamUID) (fun r =>
    set_mm_flags flags
      (set_mm_upstream_modseq (COALESCE_opt (nullableInt modseq) (mm_upstream_modseq r)) r))).

Record PendingBody := mk_PendingBody {
  pb_MailboxMessageID : Z;
  pb_MessageID : Z;
  pb_UpstreamUID : Z;
  pb_Size : Z;
  pb_Attempts : Z
}.

(** The rows the [claimed] subquery may take. *)
Definition claimable (mailboxID maxAttempts : Z) (_ : Z) (r : mm_row) : bool :=
  (mm_mailbox_id r =? mailboxID) && bool_decide (mm_body_state r = BodyPending)
  && bool_decide (mm_upstream_uid r <> None) && (mm_body_attempts r <? maxAttempts).

Definition newest_first (a b : Z * mm_row) : Prop :=
  COALESCE (mm_upstream_uid b.2) 0 <= COALESCE (mm_upstream_uid a.2) 0.
#[export] Instance newest_first_dec : RelDecision newest_first.
Proof. intros ??. unfold newest_first. apply _. Defined.

Definition LIMIT {A} (limit : Z) (l : list A) : list A := take (Z.to_nat limit) l.

Definition claimed_rows (locked : Z -> bool) (mailboxID limit maxAttempts : Z) (db : DB) : list (Z * mm_row) :=
  LIMIT limit (merge_sort newest_first
    (filter (fun kr => locked kr.1 = false) (select (claimable mailboxID maxAttempts) (mailbox_messages db)))).

Definition start_fetching (now : Z) (r : mm_row) : mm_row :=
  set_mm_body_state BodyFetching (set_mm_claimed_at (Some now) r).

(** [RETURNING]: the row joined with its message (the foreign key finds it). *)
Definition pending_body (db : DB) (kr : Z * mm_row) : option PendingBody :=
  (fun m => {| pb_MailboxMessageID := kr.1; pb_MessageID := mm_message_id kr.2;
               pb_UpstreamUID := COALESCE (mm_upstream_uid kr.2) 0; pb_Size := m_rfc822_size m;
               pb_Attempts := mm_body_attempts kr.2 |})
  <$> rows (messages db) !! mm_message_id kr.2.

(** [locked]: rows held by other transactions, which SKIP LOCKED passes over.
    [returning]: the order in which UPDATE ... RETURNING yields its rows, which
    SQL leaves open. *)
Definition ClaimPendingBodies (now : Z) (locked : Z -> bool)
    (returning : list PendingBody -> list PendingBody)
    (mailboxID limit maxAttempts : Z) : sql (list PendingBody) := fun db =>
  let claimed := claimed_rows locked mailboxID limit maxAttempts db in
  (inr (returning (omap (pending_body db) claimed)),
   update_mm (fun id _ => bool_decide (id ∈ claimed.*1)) (start_fetching now) db).

(** * Finishing a body *)

Definition body_stored (r : mm_row) : mm_row :=
  set_mm_body_state BodyStored (set_mm_claimed_at None (set_mm_body_error None r)).

Definition references_message (messageID : Z) (_ : Z) (r : mm_row) : bool :=
  mm_message_id r =? messageID.

(** [DELETE FROM messages], with the cascades to the parts and placements. *)
Definition cascade_messages (db : DB) : DB :=
  set_mailbox_messages
    (delete_where (fun _ r => gone (messages db) (mm_message_id r)) (mailbox_messages db))
  (set_mime_parts
    (delete_where (fun _ r => gone (messages db) (mp_message_id r)) (mime_parts db)) db).
Definition delete_messages (p : Z -> message_row -> bool) (db : DB) : DB :=
  cascade_messages (set_messages (delete_where p (messages db)) db).

Definition load_for_attach (mailboxMessageID : Z) : sql (Z * Z) := fun db =>
  match rows (mailbox_messages db) !! mailboxMessageID with
  | Some r =>
      match rows (messages db) !! mm_message_id r with
      | Some m => (inr (m_account_id m, mm_message_id r), db)
      | None => (inl ErrNoRows, db)
      end
  | None => (inl ErrNoRows, db)
  end.

(** The digest column has a CHECK on its length, and so does the size. *)
Definition record_body (messageID : Z) (digest : list Z) (size : Z) (blobKey : string) : sql unit := fun db =>
  match rows (messages db) !! messageID with
  | None => (inr tt, db)
  | Some _ =>
      if negb (length digest =? 32)%nat then (inl (ErrText "messages_sha256_length"), db)
      else if size <? 0 then (inl (ErrText "messages_size_nonnegative"), db)
      else (inr tt, set_messages (update_where (id_is messageID) (fun r =>
             set_m_rfc822_sha256 digest (set_m_rfc822_size size (set_m_blob_key (Some blobKey) r)))
             (messages db)) db)
  end.

Definition AttachBody (mailboxMessageID : Z) (digest : list Z) (size : Z) (blobKey : string) : sql unit :=
  InTx (
    '(accountID, messageID) ← wrap_err "loading message for body attach: "
      (map_err notFound (load_for_attach mailboxMessageID));
    existing ← gets (fun db => find_row
      (fun id r => message_key accountID digest id r && negb (id =? messageID)) (messages db));
    match existing with
    | Some (existingID, _) =>
        modify (update_mm (id_is mailboxMessageID) (fun r => set_mm_message_id existingID (body_stored r))) ;;
        modify (fun db => delete_messages (fun id _ => (id =? messageID)
          && negb (exists_row (references_message messageID) (mailbox_messages db))) db)
    | None =>
        wrap_err "recording message body: " (record_body messageID digest size blobKey) ;;
        modify (update_mm (id_is mailboxMessageID) body_stored)
    end).

Definition body_failed (message : string) (maxAttempts : Z) (r : mm_row) : mm_row :=
  set_mm_body_attempts (mm_body_attempts r + 1)
  (set_mm_body_error (Some message)
  (set_mm_body_state (if maxAttempts <=? mm_body_attempts r + 1 then BodyFailed else BodyPending)
  (set_mm_claimed_at None r))).

Definition MarkBodyFailed (mailboxMessageID : Z) (cause : err) (maxAttempts : Z) : sql unit :=
  modify (update_mm (id_is mailboxMessageID) (body_failed (err_text cause) maxAttempts)).

Definition body_too_large (r : mm_row) : mm_row :=
  set_mm_body_state BodyTooLarge (set_mm_claimed_at None r).

Definition MarkBodyTooLarge (mailboxMessageID : Z) : sql unit :=
  modify (update_mm (id_is mailboxMessageID) body_too_large).

Definition stale_claim (now olderThan : Z) (_ : Z) (r : mm_row) : bool :=
  bool_decide (mm_body_state r = BodyFetching)
  && match mm_claimed_at r with Some t => t <? now - olderThan | None => false end.

Definition back_to_pending (r : mm_row) : mm_row :=
  set_mm_body_state BodyPending (set_mm_claimed_at None r).

Definition ReapStaleClaims (now olderThan : Z) : sql Z := fun db =>
  (inr (count_where (stale_claim now olderThan) (mailbox_messages db)),
   update_mm (stale_claim now olderThan) back_to_pending db).

(** * Queries *)

Definition unfinished (r : mm_row) : bool :=
  bool_decide (mm_body_state r = BodyPending \/ mm_body_state r = BodyFetching).

Definition CountPendingBodies (mailboxID : Z) : sql Z :=
  gets (fun db => count_where (fun id r => in_mailbox mailboxID id r && unfinished r) (mailbox_messages db)).

Definition ExistingUpstreamUIDs (mailboxID : Z) : sql (gset Z) :=
  gets (fun db => list_to_set (omap (fun kr => mm_upstream_uid kr.2)
    (select (live_in mailboxID) (mailbox_messages db)))).

(** [NOT (upstream_uid = ANY ($2))]; [presentUIDs] is [None] for a nil slice. *)
Definition missing (mailboxID : Z) (presentUIDs : option (list Z)) (_ : Z) (r : mm_row) : bool :=
  (mm_mailbox_id r =? mailboxID)
  && match mm_upstream_uid r with Some uid => not_any uid presentUIDs | None => false end.

Definition DeleteMissingUIDs (mailboxID : Z) (presentUIDs : option (list Z)) : sql Z := fun db =>
  (inr (count_where (missing mailboxID presentUIDs) (mailbox_messages db)),
   set_mailbox_messages (delete_where (missing mailboxID presentUIDs) (mailbox_messages db)) db).

Definition CountMailboxMessages (mailboxID : Z) : sql Z :=
  gets (fun db => count_where (live_in mailboxID) (mailbox_messages db)).

Definition in_account (accountID : Z) (db : DB) (r : mm_row) : bool :=
  match rows (mailboxes db) !! mm_mailbox_id r with
  | Some mb => mb_account_id mb =? accountID
  | None => false
  end.

Definition CountPendingBodiesForAccount (accountID : Z) : sql Z :=
  gets (fun db => count_where (fun _ r => in_account accountID db r && unfinished r) (mailbox_messages db)).

Definition MessageIDForMailboxMessage (mailboxMessageID : Z) : sql Z := fun db =>
  match rows (mailbox_messages db) !! mailboxMessageID with
  | Some r => (inr (mm_message_id r), db)
  | None => (inl (notFound ErrNoRows), db)
  end.

(** * Parsed content *)

Record ParsedContent := mk_ParsedContent {
  pc_Subject : option string;
  pc_MessageID : option string;
  pc_InReplyTo : option string;
  pc_References : list string;
  pc_Addrs : option json_addrs;
  pc_BodyText : option string;
  pc_Preview : option string;
  pc_SentDate : option Z;
  pc_ParseFailed : bool;
  pc_ParseError : option string
}.

Record MIMEPart := mk_MIMEPart {
  mpt_Path : string;
  mpt_ContentType : string;
  mpt_Charset : option string;
  mpt_Disposition : option string;
  mpt_Filename : option string;
  mpt_ContentID : option string;
  mpt_Encoding : option string;
  mpt_Size : Z;
  mpt_BlobKey : option string
}.

Definition apply_parsed (c : ParsedContent) (r : message_row) : message_row :=
  {| m_account_id := m_account_id r; m_rfc822_sha256 := m_rfc822_sha256 r;
     m_rfc822_size := m_rfc822_size r; m_blob_key := m_blob_key r;
     m_message_id_hdr := COALESCE_opt (pc_MessageID c) (m_message_id_hdr r);
     m_in_reply_to := COALESCE_opt (pc_InReplyTo c) (m_in_reply_to r);
     m_refs := pc_References c;
     m_subject := COALESCE_opt (pc_Subject c) (m_subject r);
     m_addrs := COALESCE (pc_Addrs c) (m_addrs r);
     m_internal_date := m_internal_date r;
     m_sent_date := COALESCE_opt (pc_SentDate c) (m_sent_date r);
     m_body_text := pc_BodyText c; m_preview := pc_Preview c;
     m_parse_failed := pc_ParseFailed c; m_parse_error := pc_ParseError c |}.

Definition part_key (messageID : Z) (path : string) (_ : Z) (r : mime_row) : bool :=
  (mp_message_id r =? messageID) && String.eqb (mp_part_path r) path.

Definition new_part (messageID : Z) (p : MIMEPart) : mime_row :=
  {| mp_message_id := messageID; mp_part_path := mpt_Path p; mp_content_type := mpt_ContentType p;
     mp_charset := mpt_Charset p; mp_disposition := mpt_Disposition p;
     mp_filename := mpt_Filename p; mp_content_id := mpt_ContentID p;
     mp_transfer_encoding := mpt_Encoding p; mp_size_octets := mpt_Size p;
     mp_blob_key := mpt_BlobKey p |}.

Definition save_part (messageID : Z) (p : MIMEPart) : sql unit :=
  wrap_err ("saving MIME part " ++ mpt_Path p ++ ": ") (fun db =>
    if mpt_Size p <? 0 then (inl (ErrText "mime_parts_size_nonnegative"), db) else
    match rows (messages db) !! messageID with
    | None => (inl (ErrText "mime_parts_message_id_fkey"), db)
    | Some _ =>
        match find_row (part_key messageID (mpt_Path p)) (mime_parts db) with
        | Some (id, _) =>
            (inr tt, set_mime_parts (update_where (id_is id) (fun r =>
               set_mp_content_type (mpt_ContentType p) (set_mp_blob_key (mpt_BlobKey p)
                 (set_mp_size_octets (mpt_Size p) r))) (mime_parts db)) db)
        | None => (inr tt, set_mime_parts (insert_row (new_part messageID p) (mime_parts db)).2 db)
        end
    end).

Definition SaveParsedContent (messageID : Z) (c : ParsedContent) (parts : list MIMEPart) : sql unit :=
  InTx (
    modify (fun db => set_messages (update_where (id_is messageID) (apply_parsed c) (messages db)) db) ;;
    modify (fun db => set_mime_parts
      (delete_where (fun _ r => mp_message_id r =? messageID) (mime_parts db)) db) ;;
    for_each (save_part messageID) parts).
