(* ===== verification/StoreMutations.v ===== *)
(** The queue of local changes to replay upstream (internal/store/mutations.go). *)
From S2P Require Import Prelude GoStrings Retry Schema StoreMailboxes StoreMessages.
From Stdlib Require Import String.
From stdpp Require Import strings pretty.
Open Scope string_scope.
Open Scope Z_scope.

Definition MutationType_string (kind : MutationType) : string :=
  match kind with MutationStoreFlags => "store_flags" end.

Record Mutation := mk_Mutation {
  mu_ID : Z;
  mu_AccountID : Z;
  mu_MailboxID : option Z;
  mu_Type : MutationType;
  mu_Payload : FlagPayload;
  mu_Attempts : Z;
  mu_LastError : option string
}.

(** [json.Marshal] of a [FlagPayload]; the flags the IMAP server computes are a nil
    slice when there are none. *)
Definition FlagPayload_json (p : FlagPayload) : string :=
  "{" ++ json_string "upstream_uid" ++ ":" ++ Itoa (fp_UpstreamUID p)
  ++ "," ++ json_string "mailbox" ++ ":" ++ json_string (fp_Mailbox p)
  ++ "," ++ json_string "flags" ++ ":" ++ match fp_Flags p with
     | [] => "null"
     | flags => "[" ++ GoStrings.Join (map json_string flags) "," ++ "]"
     end ++ "}".

Section mutations.
(** SHA-256 in hexadecimal. *)
Variable sha256_hex : string -> string.

Definition IdempotencyKey (accountID mailboxID : Z) (kind : MutationType) (payload : string) : string :=
  sha256_hex (Itoa accountID ++ ":" ++ Itoa mailboxID ++ ":" ++ MutationType_string kind ++ ":" ++ payload).

Definition new_mutation (now accountID mailboxID : Z) (kind : MutationType) (payload : FlagPayload)
    (key : string) : mutation_row :=
  {| pm_account_id := accountID; pm_mailbox_id := Some mailboxID; pm_mutation_type := kind;
     pm_payload := payload; pm_status := MutPending; pm_attempts := 0; pm_next_attempt_at := None;
     pm_last_error := None; pm_idempotency_key := key; pm_locked_by := None; pm_locked_at := None;
     pm_created_at := now |}.

Definition requeue (r : mutation_row) : mutation_row :=
  set_pm_status MutPending (set_pm_next_attempt_at None (set_pm_attempts 0 (set_pm_last_error None r))).

Definition mutation_key (key : string) (_ : Z) (r : mutation_row) : bool :=
  String.eqb (pm_idempotency_key r) key.

Definition update_mutations (p : Z -> mutation_row -> bool) (f : mutation_row -> mutation_row) (db : DB) : DB :=
  set_pending_mutations (update_where p f (pending_mutations db)) db.

Definition EnqueueMutation (now accountID mailboxID : Z) (kind : MutationType) (payload : FlagPayload)
    : sql unit :=
  let key := IdempotencyKey accountID mailboxID kind (FlagPayload_json payload) in
  wrap_err "queueing mutation: " (fun db =>
    match rows (mail_accounts db) !! accountID, rows (mailboxes db) !! mailboxID with
    | Some _, Some _ =>
        match find_row (mutation_key key) (pending_mutations db) with
        | Some (id, _) => (inr tt, update_mutations (id_is id) requeue db)
        | None => (inr tt, set_pending_mutations
            (insert_row (new_mutation now accountID mailboxID kind payload key) (pending_mutations db)).2 db)
        end
    | None, _ => (inl (ErrText "pending_mutations_account_id_fkey"), db)
    | _, None => (inl (ErrText "pending_mutations_mailbox_id_fkey"), db)
    end).

Definition due (now accountID : Z) (_ : Z) (r : mutation_row) : bool :=
  (pm_account_id r =? accountID)
  && bool_decide (pm_status r = MutPending \/ pm_status r = MutFailed)
  && match pm_next_attempt_at r with None => true | Some t => t <=? now end.

Definition oldest_first (a b : Z * mutation_row) : Prop := pm_created_at a.2 <= pm_created_at b.2.
#[export] Instance oldest_first_dec : RelDecision oldest_first.
Proof. intros ??. unfold oldest_first. apply _. Defined.

Definition due_rows (now : Z) (locked : Z -> bool) (accountID limit : Z) (db : DB) : list (Z * mutation_row) :=
  LIMIT limit (merge_sort oldest_first
    (filter (fun kr => locked kr.1 = false) (select (due now accountID) (pending_mutations db)))).

Definition take_mutation (now : Z) (worker : string) (r : mutation_row) : mutation_row :=
  set_pm_status MutInFlight (set_pm_attempts (pm_attempts r + 1)
    (set_pm_locked_by (Some worker) (set_pm_locked_at (Some now) r))).

Definition scan_mutation (kr : Z * mutation_row) : Mutation :=
  {| mu_ID := kr.1; mu_AccountID := pm_account_id kr.2; mu_MailboxID := pm_mailbox_id kr.2;
     mu_Type := pm_mutation_type kr.2; mu_Payload := pm_payload kr.2;
     mu_Attempts := pm_attempts kr.2; mu_LastError := pm_last_error kr.2 |}.

Definition ClaimDueMutations (now : Z) (locked : Z -> bool) (returning : list Mutation -> list Mutation)
    (accountID limit : Z) (worker : string) : sql (list Mutation) := fun db =>
  let claimed := due_rows now locked accountID limit db in
  (inr (returning (map (fun kr => scan_mutation (kr.1, take_mutation now worker kr.2)) claimed)),
   update_mutations (fun id _ => bool_decide (id ∈ claimed.*1)) (take_mutation now worker) db).

Definition unlock (r : mutation_row) : mutation_row := set_pm_locked_by None (set_pm_locked_at None r).

Definition MutationSucceeded (id : Z) : sql unit :=
  modify (update_mutations (id_is id) (fun r => set_pm_status MutSucceeded (set_pm_last_error None (unlock r)))).

Definition MutationFailed (now id : Z) (cause : err) (retryAfter maxAttempts : Z) : sql unit :=
  modify (update_mutations (id_is id) (fun r =>
    set_pm_status (if maxAttempts <=? pm_attempts r then MutFailed else MutPending)
    (set_pm_next_attempt_at (Some (now + retryAfter))
    (set_pm_last_error (Some (err_text cause)) (unlock r))))).

Definition stale_lock (now olderThan : Z) (_ : Z) (r : mutation_row) : bool :=
  bool_decide (pm_status r = MutInFlight)
  && match pm_locked_at r with Some t => t <? now - olderThan | None => false end.

Definition ReleaseStaleMutations (now olderThan : Z) : sql Z := fun db =>
  (inr (count_where (stale_lock now olderThan) (pending_mutations db)),
   update_mutations (stale_lock now olderThan) (fun r => set_pm_status MutPending (unlock r)) db).

Definition waiting (accountID : Z) (_ : Z) (r : mutation_row) : bool :=
  (pm_account_id r =? accountID)
  && bool_decide (pm_status r = MutPending \/ pm_status r = MutInFlight).

Definition CountPendingMutations (accountID : Z) : sql Z :=
  gets (fun db => count_where (waiting accountID) (pending_mutations db)).
End mutations.
