(* ===== verification/StoreRuns.v ===== *)
(** Sync runs and the per-account advisory lock (internal/store/syncruns.go,
    internal/store/lock.go). *)
From S2P Require Import Prelude GoStrings Retry Schema StoreMailboxes StoreMessages.
From Stdlib Require Import String.
From stdpp Require Import strings.
Open Scope string_scope.
Open Scope Z_scope.

Definition SyncRun : Type := Z * run_row.

(** [Stale]; [now] is the clock [time.Since] reads. *)
Definition Stale (now threshold : Z) (r : SyncRun) : bool :=
  String.eqb (sr_status r.2) "running" && (threshold <? now - sr_heartbeat_at r.2).

Definition new_run (now accountID : Z) (trigger : string) : run_row :=
  {| sr_account_id := accountID; sr_status := "running"; sr_phase := "starting"; sr_trigger := trigger;
     sr_mailboxes_total := 0; sr_mailboxes_done := 0; sr_messages_new := 0; sr_bodies_fetched := 0;
     sr_bytes_fetched := 0; sr_commands_issued := 0; sr_error := None; sr_started_at := now;
     sr_heartbeat_at := now; sr_finished_at := None |}.

Definition StartSyncRun (now accountID : Z) (trigger : string) : sql Z :=
  wrap_err "starting sync run: " (fun db =>
    if negb (bool_decide (trigger ∈ ["scheduled"; "manual"; "startup"]))
    then (inl (ErrText "sync_runs_trigger_valid"), db) else
    match rows (mail_accounts db) !! accountID with
    | None => (inl (ErrText "sync_runs_account_id_fkey"), db)
    | Some _ =>
        let '(id, t) := insert_row (new_run now accountID trigger) (sync_runs db) in
        (inr id, set_sync_runs t db)
    end).

Record SyncProgress := mk_SyncProgress {
  sp_Phase : string;
  sp_MailboxesTotal : Z;
  sp_MailboxesDone : Z;
  sp_MessagesNew : Z;
  sp_BodiesFetched : Z;
  sp_BytesFetched : Z;
  sp_CommandsIssued : Z
}.

Definition beat (now : Z) (p : SyncProgress) (r : run_row) : run_row :=
  {| sr_account_id := sr_account_id r; sr_status := sr_status r; sr_phase := sp_Phase p;
     sr_trigger := sr_trigger r; sr_mailboxes_total := sp_MailboxesTotal p;
     sr_mailboxes_done := sp_MailboxesDone p; sr_messages_new := sp_MessagesNew p;
     sr_bodies_fetched := sp_BodiesFetched p; sr_bytes_fetched := sp_BytesFetched p;
     sr_commands_issued := sp_CommandsIssued p; sr_error := sr_error r;
     sr_started_at := sr_started_at r; sr_heartbeat_at := now; sr_finished_at := sr_finished_at r |}.

Definition update_runs (p : Z -> run_row -> bool) (f : run_row -> run_row) (db : DB) : DB :=
  set_sync_runs (update_where p f (sync_runs db)) db.

Definition Heartbeat (now runID : Z) (p : SyncProgress) : sql unit :=
  modify (update_runs (id_is runID) (beat now p)).

Definition close_run (now : Z) (status : string) (error : option string) (r : run_row) : run_row :=
  {| sr_account_id := sr_account_id r; sr_status := status; sr_phase := sr_phase r;
     sr_trigger := sr_trigger r; sr_mailboxes_total := sr_mailboxes_total r;
     sr_mailboxes_done := sr_mailboxes_done r; sr_messages_new := sr_messages_new r;
     sr_bodies_fetched := sr_bodies_fetched r; sr_bytes_fetched := sr_bytes_fetched r;
     sr_commands_issued := sr_commands_issued r; sr_error := error;
     sr_started_at := sr_started_at r; sr_heartbeat_at := sr_heartbeat_at r;
     sr_finished_at := Some now |}.

Definition FinishSyncRun (now runID : Z) (status : string) (runErr : option err) (p : SyncProgress)
    : sql unit := fun db =>
  if negb (bool_decide (status ∈ ["running"; "succeeded"; "failed"; "cancelled"]))
     && exists_row (id_is runID) (sync_runs db)
  then (inl (ErrText "sync_runs_status_valid"), db) else
  (inr tt, update_runs (id_is runID) (fun r =>
     close_run now status (err_text <$> runErr) (beat now p r)) db).

Definition orphaned (now staleAfter : Z) (_ : Z) (r : run_row) : bool :=
  String.eqb (sr_status r) "running" && (sr_heartbeat_at r <? now - staleAfter).

Definition orphan_text : string := "the process running this sync exited without completing it".

Definition MarkOrphanedRuns (now staleAfter : Z) : sql Z := fun db =>
  (inr (count_where (orphaned now staleAfter) (sync_runs db)),
   update_runs (orphaned now staleAfter) (fun r =>
     close_run now "failed" (COALESCE_opt (sr_error r) (Some orphan_text)) r) db).

Definition latest_first (a b : SyncRun) : Prop := sr_started_at b.2 <= sr_started_at a.2.
#[export] Instance latest_first_dec : RelDecision latest_first.
Proof. intros ??. unfold latest_first. apply _. Defined.

Definition ListSyncRuns (accountID limit : Z) : sql (list SyncRun) :=
  gets (fun db => LIMIT limit (merge_sort latest_first
    (select (fun _ r => sr_account_id r =? accountID) (sync_runs db)))).

(** * The advisory lock

    The lock lives on a database session: [locks] maps a lock key to the sessions'
    holds, [open_conns] are the live sessions.  A session may take a lock it
    already holds; it then holds it twice. *)

Module Lock.
Open Scope list_scope.

Record state := mk_state {
  holder : gmap Z (Z * Z);      (* lock key -> session, number of holds *)
  open_conns : gset Z;          (* sessions that are alive *)
  pooled : gset Z               (* sessions idle in the pool *)
}.

Record AccountLock := mk_AccountLock { al_conn : Z; al_accountID : Z; al_released : bool }.

Definition lock_key (accountID : Z) : Z := i32 accountID.

(** [pool.Acquire]: an idle session or a new one, chosen by the pool ([conn]). *)
Definition Acquire (conn : Z) (st : state) : state :=
  mk_state (holder st) ({[conn]} ∪ open_conns st) (pooled st ∖ {[conn]}).
Definition Release_conn (conn : Z) (st : state) : state :=
  mk_state (holder st) (open_conns st) ({[conn]} ∪ pooled st).

(** [pg_try_advisory_lock] on a session. *)
Definition pg_try_advisory_lock (conn key : Z) (st : state) : bool * state :=
  match holder st !! key with
  | None => (true, mk_state (<[key := (conn, 1)]> (holder st)) (open_conns st) (pooled st))
  | Some (c, n) =>
      if c =? conn then (true, mk_state (<[key := (conn, n + 1)]> (holder st)) (open_conns st) (pooled st))
      else (false, st)
  end.

(** [pg_advisory_unlock]; false (with a warning) when the session does not hold it. *)
Definition pg_advisory_unlock (conn key : Z) (st : state) : bool * state :=
  match holder st !! key with
  | Some (c, n) =>
      if c =? conn then
        (true, mk_state (if n =? 1 then delete key (holder st) else <[key := (c, n - 1)]> (holder st))
                 (open_conns st) (pooled st))
      else (false, st)
  | None => (false, st)
  end.

(** The server's side of a session's end: its locks are released. *)
Definition session_ends (conn : Z) (st : state) : state :=
  mk_state (filter (fun kv => kv.2.1 <> conn) (holder st)) (open_conns st ∖ {[conn]}) (pooled st ∖ {[conn]}).

(** [TryLockAccount]; [conn] is the session the pool hands out. *)
Definition TryLockAccount (conn accountID : Z) (st : state) : option AccountLock * state :=
  let st := Acquire conn st in
  let '(acquired, st) := pg_try_advisory_lock conn (lock_key accountID) st in
  if acquired : bool then (Some (mk_AccountLock conn accountID false), st)
  else (None, Release_conn conn st).

(** [Release], on a lock or on nil; [fails] is an error of the unlock query on a
    session that has died. *)
Definition Release (l : option AccountLock) (st : state) : option AccountLock * state :=
  match l with
  | None => (None, st)
  | Some l =>
      if al_released l then (Some l, st) else
      let l' := mk_AccountLock (al_conn l) (al_accountID l) true in
      let st := (pg_advisory_unlock (al_conn l) (lock_key (al_accountID l)) st).2 in
      (Some l', Release_conn (al_conn l) st)
  end.

(** * Several processes

    A configuration is the server's state and the locks processes hold.  The pool
    never hands out a session a lock is using; a session may end at any time,
    and with it the lock its owner believed to have. *)

Definition config : Type := state * list AccountLock.

Inductive step : config -> config -> Prop :=
| step_lock st held conn accountID l st' :
    (forall l', l' ∈ held -> al_conn l' <> conn) ->
    TryLockAccount conn accountID st = (Some l, st') -> step (st, held) (st', l :: held)
| step_refused st held conn accountID st' :
    (forall l', l' ∈ held -> al_conn l' <> conn) ->
    TryLockAccount conn accountID st = (None, st') -> step (st, held) (st', held)
| step_release st held1 l held2 l' st' :
    Release (Some l) st = (l', st') -> step (st, held1 ++ l :: held2) (st', held1 ++ held2)
| step_dies st held conn :
    step (st, held) (session_ends conn st, filter (fun l => al_conn l <> conn) held).

Definition initial : config := (mk_state ∅ ∅ ∅, []).

Definition key_of (l : AccountLock) : Z := lock_key (al_accountID l).

(** The server's table and the processes' locks describe the same holds. *)
Record lock_inv (c : config) : Prop := mk_lock_inv {
  li_held : forall l, l ∈ c.2 -> al_released l = false /\ holder c.1 !! key_of l = Some (al_conn l, 1);
  li_holder : forall k conn n, holder c.1 !! k = Some (conn, n) ->
    exists l, l ∈ c.2 /\ key_of l = k /\ al_conn l = conn;
  li_conns : NoDup (map al_conn c.2)
}.

Lemma initial_inv : lock_inv initial.
Proof.
  constructor; simpl; [by intros l ?%elem_of_nil| |constructor].
  intros k conn n. by rewrite lookup_empty.
Qed.

(** Locks held at the same time are on different keys. *)
Lemma inv_keys c : lock_inv c -> NoDup (map key_of c.2).
Proof.
  intros [H _ Hnd]. apply NoDup_fmap_1 in Hnd as Hnd'. apply NoDup_fmap_2_strong; [|done].
  intros l1 l2 H1 H2 E. destruct (H _ H1) as [_ E1], (H _ H2) as [_ E2].
  rewrite E, E2 in E1. injection E1 as Ec. clear E2 H E Hnd'. revert Hnd H1 H2.
  induction c.2 as [|x l IH]; [by intros _ ?%elem_of_nil|]. simpl. rewrite NoDup_cons, !elem_of_cons.
  intros [Hx Hl] [->|H1] [->|H2]; auto; destruct Hx.
  - rewrite <- Ec. by apply (list_elem_of_fmap_2 al_conn).
  - rewrite Ec. by apply (list_elem_of_fmap_2 al_conn).
Qed.

Lemma step_inv c c' : step c c' -> lock_inv c -> lock_inv c'.
Proof.
  intros Hstep Hinv. pose proof (inv_keys _ Hinv) as Hkeys. destruct Hinv as [Hheld Hholder Hnd].
  destruct Hstep as [st held conn a l st' Hfree HT|st held conn a st' Hfree HT|st held1 l held2 l' st' HR|st held conn];
    simpl in *.
  - unfold TryLockAccount, pg_try_advisory_lock in HT. simpl in HT.
    destruct (holder st !! lock_key a) as [[c n]|] eqn:E.
    + destruct (Z.eqb_spec c conn) as [->|]; [|done].
      destruct (Hholder _ _ _ E) as (l' & Hl' & _ & Hc). by destruct (Hfree _ Hl').
    + injection HT as <- <-. constructor; simpl.
      * intros l'. rewrite elem_of_cons. intros [->|Hl']; [by rewrite lookup_insert_eq|].
        destruct (Hheld _ Hl') as [? E']. split; [done|]. rewrite lookup_insert_ne; [done|]. intros Ek.
        rewrite Ek, E' in E. done.
      * intros k c n. destruct (decide (k = lock_key a)) as [->|Hne].
        -- rewrite lookup_insert_eq. intros [= <- <-]. eexists. split; [left|]. done.
        -- rewrite lookup_insert_ne by done. intros (l' & ? & ? & ?)%Hholder.
           exists l'. split; [by right|done].
      * apply NoDup_cons. split; [|done]. intros (l' & Ec & Hl')%list_elem_of_fmap. by destruct (Hfree _ Hl').
  - unfold TryLockAccount, pg_try_advisory_lock in HT. simpl in HT.
    destruct (holder st !! lock_key a) as [[c n]|] eqn:E; [|done].
    destruct (Z.eqb_spec c conn); [done|]. injection HT as <-. constructor; simpl; eauto.
  - destruct (Hheld l) as [Hr E]; [apply elem_of_app; right; left|].
    unfold Release, pg_advisory_unlock in HR. fold (key_of l) in HR. rewrite Hr, E, Z.eqb_refl in HR.
    injection HR as <- <-. simpl.
    assert (forall l0, l0 ∈ held1 ++ held2 -> l0 ∈ held1 ++ l :: held2 /\ key_of l0 <> key_of l) as Hother.
    { intros l0 H0. split; [set_solver|]. rewrite map_app in Hkeys. simpl in Hkeys.
      intros Ek. apply (NoDup_app _ _) in Hkeys as (_ & Hd & Hn). apply NoDup_cons in Hn as [Hn _].
      apply elem_of_app in H0 as [H0|H0]; apply (list_elem_of_fmap_2 key_of) in H0; rewrite Ek in H0.
      - apply (Hd _ H0). left.
      - done. }
    constructor; simpl.
    + intros l0 H0. destruct (Hother _ H0) as [H1 H2]. destruct (Hheld _ H1). by rewrite lookup_delete_ne.
    + intros k c n H. apply fin_maps.lookup_delete_Some in H as [Hk H]. destruct (Hholder _ _ _ H) as (l0 & H0 & H1 & H2).
      exists l0. split; [|done]. apply elem_of_app in H0 as [H0|H0]; [by apply elem_of_app; left|].
      apply elem_of_cons in H0 as [->|H0]; [done|]. by apply elem_of_app; right.
    + rewrite map_app in *. simpl in Hnd. apply NoDup_app in Hnd as (H1 & H2 & H3).
      apply NoDup_cons in H3 as [_ H3]. apply NoDup_app. split_and!; try done.
      intros x Hx Hx'. apply (H2 _ Hx). by right.
  - constructor; simpl.
    + intros l [Hc Hl]%list_elem_of_filter. destruct (Hheld _ Hl) as [? E]. split; [done|].
      by apply map_lookup_filter_Some.
    + intros k c n [H Hc]%map_lookup_filter_Some. destruct (Hholder _ _ _ H) as (l & H1 & H2 & H3).
      exists l. split; [|done]. apply list_elem_of_filter. simpl in Hc. by rewrite H3.
    + eapply sublist_NoDup; [exact Hnd|]. apply fmap_sublist, sublist_filter.
Qed.
End Lock.

(** [C28] At most one process syncs an account at a time: whatever sequence of lock
    attempts, releases and dying sessions, two locks held together are on
    accounts whose 32-bit keys differ.  A session's death frees its locks: the
    next attempt on any other session succeeds. *)
Theorem AccountLock_exclusive (st : Lock.state) (held : list Lock.AccountLock) :
  rtc Lock.step Lock.initial (st, held) ->
  (forall i j l1 l2, held !! i = Some l1 -> held !! j = Some l2 -> i <> j ->
     i32 (Lock.al_accountID l1) <> i32 (Lock.al_accountID l2))
  /\ (forall l conn, l ∈ held -> conn <> Lock.al_conn l ->
        exists l' st', Lock.TryLockAccount conn (Lock.al_accountID l) (Lock.session_ends (Lock.al_conn l) st)
          = (Some l', st')).
Proof.
  intros Hr. assert (Lock.lock_inv (st, held)) as Hinv.
  { revert Hr. generalize Lock.initial_inv. generalize Lock.initial. intros c Hc Hr.
    remember (st, held) as c' eqn:E. clear E. induction Hr; eauto using Lock.step_inv. }
  split.
  - intros i j l1 l2 H1 H2 Hne E. apply Hne. apply Lock.inv_keys in Hinv. simpl in Hinv.
    eapply (NoDup_lookup _ i j (Lock.key_of l1) Hinv); [by rewrite list_lookup_fmap, H1|].
    rewrite list_lookup_fmap, H2. simpl. unfold Lock.key_of, Lock.lock_key. by rewrite E.
  - intros l conn Hl Hconn. destruct (Lock.li_held _ Hinv l Hl) as [_ E]. simpl in E.
    unfold Lock.TryLockAccount, Lock.pg_try_advisory_lock. simpl.
    rewrite (proj2 (map_lookup_filter_None _ _ _)); [eauto|]. right. intros [c n] Hc. simpl.
    unfold Lock.key_of in E. rewrite E in Hc. injection Hc as <- <-. by intros [].
Qed.

Lemma AccountLock_exclusive_witness :
  let st := (Lock.TryLockAccount 8 2 (Lock.TryLockAccount 7 1 (fst Lock.initial)).2).2 in
  fst (Lock.TryLockAccount 9 1 st) = None
  /\ exists l' st', Lock.TryLockAccount 9 1 (Lock.session_ends 7 st) = (Some l', st').
Proof.
  cbv zeta. split; [vm_compute; reflexivity|].
  set (st := (Lock.TryLockAccount 8 2 (Lock.TryLockAccount 7 1 (fst Lock.initial)).2).2).
  assert (rtc Lock.step Lock.initial (st, [Lock.mk_AccountLock 8 2 false; Lock.mk_AccountLock 7 1 false])) as Hr.
  { eapply rtc_l; [eapply (Lock.step_lock _ _ 7 1); [by intros ? ?%elem_of_nil|vm_compute; reflexivity]|].
    eapply rtc_l; [eapply (Lock.step_lock _ _ 8 2); [by intros ? ->%list_elem_of_singleton|vm_compute; reflexivity]|].
    apply rtc_refl. }
  apply (proj2 (AccountLock_exclusive _ _ Hr) (Lock.mk_AccountLock 7 1 false) 9).
  - right; left.
  - done.
Defined.
