(* ===== verification/StoreAccounts.v ===== *)
(** Accounts, users and sign-in sessions (internal/store/accounts.go, users.go). *)
From S2P Require Import Prelude GoStrings Retry Schema StoreMailboxes StoreMessages.
From Stdlib Require Import String.
From stdpp Require Import strings.
Open Scope string_scope.
Open Scope Z_scope.

(** * Accounts *)

Definition Account : Type := Z * account_row.

Definition Account_Active (a : Account) : bool :=
  bool_decide (ac_disabled_at a.2 = None) && negb (ac_sync_paused a.2)
  && negb (String.eqb (ac_auth_state a.2) "auth_failed").

Definition GetAccount (id : Z) : sql Account := fun db =>
  match rows (mail_accounts db) !! id with
  | Some r => (inr (id, r), db)
  | None => (inl (ErrWrap ("loading account " ++ Itoa id ++ ": ") (notFound ErrNoRows) ""), db)
  end.

Definition syncable (_ : Z) (r : account_row) : bool :=
  bool_decide (ac_disabled_at r = None) && negb (ac_sync_paused r)
  && negb (String.eqb (ac_auth_state r) "auth_failed").

(** [ORDER BY COALESCE(last_sync_at, 'epoch') ASC, id ASC] *)
Definition least_recent_first (a b : Account) : Prop :=
  let ta := COALESCE (ac_last_sync_at a.2) 0 in
  let tb := COALESCE (ac_last_sync_at b.2) 0 in
  ta < tb \/ (ta = tb /\ a.1 <= b.1).
#[export] Instance least_recent_first_dec : RelDecision least_recent_first.
Proof. intros ??. unfold least_recent_first. apply _. Defined.

Definition ListSyncableAccounts : sql (list Account) :=
  gets (fun db => merge_sort least_recent_first (select syncable (mail_accounts db))).

Definition update_accounts (id : Z) (f : account_row -> account_row) (db : DB) : DB :=
  set_mail_accounts (update_where (id_is id) f (mail_accounts db)) db.

Definition SetAccountCapabilities (accountID : Z) (caps : list string) : sql unit :=
  modify (update_accounts accountID (set_ac_capabilities caps)).

Definition SetAccountSyncResult (now accountID : Z) (syncErr : option err) (authFailed : bool) : sql unit :=
  modify (update_accounts accountID (fun r =>
    set_ac_last_sync_at (Some now) (set_ac_last_sync_error (err_text <$> syncErr)
      (set_ac_auth_state (if authFailed then "auth_failed" else "ok") r)))).

Definition SetAccountPaused (accountID : Z) (paused : bool) : sql unit :=
  modify (update_accounts accountID (set_ac_sync_paused paused)).

Definition email_le (a b : Account) : Prop := String.leb (ac_email_address a.2) (ac_email_address b.2) = true.
#[export] Instance email_le_dec : RelDecision email_le.
Proof. intros ??. unfold email_le. apply _. Defined.

Definition ListAccountsForUser (userID : Z) : sql (list Account) :=
  gets (fun db => merge_sort email_le (select (fun _ r => ac_user_id r =? userID) (mail_accounts db))).

Record CreateAccountParams := mk_CreateAccountParams {
  ca_UserID : Z;
  ca_DisplayName : string;
  ca_EmailAddress : string;
  ca_UpstreamHost : string;
  ca_UpstreamPort : Z;
  ca_UpstreamTLSMode : string;
  ca_EncryptedUsername : list Z;
  ca_EncryptedSecret : list Z
}.

Definition new_account (p : CreateAccountParams) : account_row :=
  {| ac_user_id := ca_UserID p; ac_display_name := ca_DisplayName p;
     ac_email_address := ca_EmailAddress p; ac_upstream_host := ca_UpstreamHost p;
     ac_upstream_port := ca_UpstreamPort p; ac_upstream_tls_mode := ca_UpstreamTLSMode p;
     ac_upstream_auth_method := "login"; ac_encrypted_username := ca_EncryptedUsername p;
     ac_encrypted_secret := ca_EncryptedSecret p; ac_capabilities := []; ac_sync_paused := false;
     ac_auth_state := "ok"; ac_last_sync_at := None; ac_last_sync_error := None;
     ac_disabled_at := None |}.

(** The unique index on (user_id, lower(email_address)). *)
Definition account_key (user : Z) (email : string) (_ : Z) (r : account_row) : bool :=
  (ac_user_id r =? user) && EqualFold (ac_email_address r) email.

Definition CreateAccount (p : CreateAccountParams) : sql Account :=
  wrap_err ("creating account " ++ ca_EmailAddress p ++ ": ") (fun db =>
    if negb ((1 <=? ca_UpstreamPort p) && (ca_UpstreamPort p <=? 65535))
    then (inl (ErrText "mail_accounts_port_valid"), db)
    else if negb (bool_decide (ca_UpstreamTLSMode p ∈ ["plain"; "tls"; "starttls"]))
    then (inl (ErrText "mail_accounts_tls_mode_valid"), db)
    else match rows (users db) !! ca_UserID p with
    | None => (inl (ErrText "mail_accounts_user_id_fkey"), db)
    | Some _ =>
        if exists_row (account_key (ca_UserID p) (ca_EmailAddress p)) (mail_accounts db)
        then (inl (ErrText "mail_accounts_user_address_key"), db) else
        let '(id, t) := insert_row (new_account p) (mail_accounts db) in
        (inr (id, new_account p), set_mail_accounts t db)
    end).

(** Deleting accounts cascades to mailboxes, messages, runs and queued changes,
    and from there to everything below them. *)
Definition cascade_accounts (db : DB) : DB :=
  let orphan id := gone (mail_accounts db) id in
  cascade_messages (cascade_mailboxes
    (set_mailboxes (delete_where (fun _ r => orphan (mb_account_id r)) (mailboxes db))
    (set_messages (delete_where (fun _ r => orphan (m_account_id r)) (messages db))
    (set_sync_runs (delete_where (fun _ r => orphan (sr_account_id r)) (sync_runs db))
    (set_pending_mutations
       (delete_where (fun _ r => orphan (pm_account_id r)) (pending_mutations db)) db))))).

Definition DeleteAccount (accountID : Z) : sql unit :=
  modify (fun db => cascade_accounts
    (set_mail_accounts (delete_where (id_is accountID) (mail_accounts db)) db)).

(** * Users *)

Definition User : Type := Z * user_row.

Definition User_Active (u : User) : bool := bool_decide (us_disabled_at u.2 = None).

Definition user_key (email : string) (_ : Z) (r : user_row) : bool := EqualFold (us_email r) email.

Definition CreateUser (now : Z) (email passwordHash : string) (isAdmin : bool) : sql User :=
  wrap_err ("creating user " ++ email ++ ": ") (fun db =>
    if exists_row (user_key email) (users db) then (inl (ErrText "users_email_key"), db) else
    let u := mk_user email passwordHash isAdmin None now in
    let '(id, t) := insert_row u (users db) in
    (inr (id, u), set_users t db)).

Definition UserByEmail (email : string) : sql User := fun db =>
  match find_row (user_key email) (users db) with
  | Some u => (inr u, db)
  | None => (inl (notFound ErrNoRows), db)
  end.

Definition UserByID (id : Z) : sql User := fun db =>
  match rows (users db) !! id with
  | Some r => (inr (id, r), db)
  | None => (inl (notFound ErrNoRows), db)
  end.

Definition CountUsers : sql Z := gets (fun db => count_where (fun _ _ => true) (users db)).

Definition SetUserPassword (userID : Z) (hash : string) : sql unit :=
  modify (fun db => set_users (update_where (id_is userID) (set_us_password_hash hash) (users db)) db).

(** * Sign-in sessions *)

Definition token_key (tokenHash : list Z) (_ : Z) (r : session_row) : bool :=
  bool_decide (se_token_hash r = tokenHash).

Definition CreateSession (now userID : Z) (tokenHash : list Z) (kind userAgent remoteAddr : string)
    (expiresAt : Z) : sql unit :=
  wrap_err "creating session: " (fun db =>
    if negb (bool_decide (kind ∈ ["web"; "imap"])) then (inl (ErrText "sessions_kind_valid"), db) else
    match rows (users db) !! userID with
    | None => (inl (ErrText "sessions_user_id_fkey"), db)
    | Some _ =>
        if exists_row (token_key tokenHash) (sessions db)
        then (inl (ErrText "sessions_token_hash_key"), db) else
        (inr tt, set_sessions (insert_row
           (mk_session userID tokenHash kind userAgent remoteAddr now expiresAt None) (sessions db)).2 db)
    end).

Definition live_session (now : Z) (tokenHash : list Z) (_ : Z) (r : session_row) : bool :=
  bool_decide (se_token_hash r = tokenHash) && bool_decide (se_revoked_at r = None)
  && (now <? se_expires_at r).

Definition UserForSession (now : Z) (tokenHash : list Z) : sql User := fun db =>
  match find_row (live_session now tokenHash) (sessions db) with
  | None => (inl (notFound ErrNoRows), db)
  | Some (_, s) =>
      let db' := set_sessions (update_where (live_session now tokenHash)
                                 (set_se_last_seen_at now) (sessions db)) db in
      match rows (users db) !! se_user_id s with
      | Some u => (inr (se_user_id s, u), db')
      | None => (inl (ErrText "cannot scan NULL into *int64"), db')
      end
  end.

Definition RevokeSession (now : Z) (tokenHash : list Z) : sql unit :=
  modify (fun db => set_sessions (update_where (token_key tokenHash)
    (set_se_revoked_at (Some now)) (sessions db)) db).

(** Seven days, in microseconds. *)
Definition session_grace : Z := 7 * 24 * 3600 * 1000000.
Definition expired (now : Z) (_ : Z) (r : session_row) : bool := se_expires_at r <? now - session_grace.

Definition DeleteExpiredSessions (now : Z) : sql Z := fun db =>
  (inr (count_where (expired now) (sessions db)),
   set_sessions (delete_where (expired now) (sessions db)) db).
