(* ===== verification/StoreBrowse.v ===== *)
(** Reading the mirror (internal/store/browse.go): message lists, details, raw
    message lookup, account statistics, and local flag changes. *)
From S2P Require Import Prelude GoStrings Retry Schema StoreMailboxes StoreMessages.
From Stdlib Require Import String.
From stdpp Require Import strings.
Open Scope string_scope.
Open Scope Z_scope.

Record MessageSummary := mk_MessageSummary {
  ms_MailboxMessageID : Z;
  ms_MessageID : Z;
  ms_LocalUID : Z;
  ms_UpstreamUID : Z;
  ms_Subject : string;
  ms_From : list string;
  ms_To : list string;
  ms_Cc : list string;
  ms_Preview : string;
  ms_InternalDate : option Z;
  ms_SentDate : option Z;
  ms_MessageIDHdr : string;
  ms_Size : Z;
  ms_Flags : list string;
  ms_BodyState : BodyState;
  ms_HasAttachments : bool
}.

Definition Seen (m : MessageSummary) : bool := bool_decide (seen_flag ∈ ms_Flags m).

(** [decodeAddresses]; a missing name is a nil slice. *)
Definition decodeAddresses (raw : json_addrs) : list string * list string * list string :=
  (COALESCE (raw !! "from") [], COALESCE (raw !! "to") [], COALESCE (raw !! "cc") []).

Definition has_attachments (db : DB) (messageID : Z) : bool :=
  exists_row (fun _ p => (mp_message_id p =? messageID) && bool_decide (mp_filename p <> None)) (mime_parts db).

(** The SELECT list, for a row and its message; [no_subject] is the stand-in. *)
Definition summary (db : DB) (no_subject : string) (id : Z) (r : mm_row) (m : message_row) : MessageSummary :=
  let '(from, to, cc) := decodeAddresses (m_addrs m) in
  {| ms_MailboxMessageID := id; ms_MessageID := mm_message_id r; ms_LocalUID := mm_local_uid r;
     ms_UpstreamUID := COALESCE (mm_upstream_uid r) 0;
     ms_Subject := COALESCE (m_subject m) no_subject;
     ms_From := from; ms_To := to; ms_Cc := cc; ms_Preview := COALESCE (m_preview m) "";
     ms_InternalDate := m_internal_date m; ms_SentDate := m_sent_date m;
     ms_MessageIDHdr := COALESCE (m_message_id_hdr m) ""; ms_Size := m_rfc822_size m;
     ms_Flags := mm_flags r; ms_BodyState := mm_body_state r;
     ms_HasAttachments := has_attachments db (mm_message_id r) |}.

(** The inner join of the live rows of a mailbox with their messages. *)
Definition summaries (no_subject : string) (mailboxID : Z) (db : DB) : list MessageSummary :=
  omap (fun kr => summary db no_subject kr.1 kr.2 <$> rows (messages db) !! mm_message_id kr.2)
    (select (live_in mailboxID) (mailbox_messages db)).

(** [ORDER BY COALESCE(internal_date, sent_date) DESC NULLS LAST, local_uid DESC] *)
Definition shown_date (m : MessageSummary) : option Z := COALESCE_opt (ms_InternalDate m) (ms_SentDate m).
Definition most_recent_first (a b : MessageSummary) : Prop :=
  match shown_date a, shown_date b with
  | Some x, Some y => y < x \/ (x = y /\ ms_LocalUID b <= ms_LocalUID a)
  | Some _, None => True
  | None, Some _ => False
  | None, None => ms_LocalUID b <= ms_LocalUID a
  end.
#[export] Instance most_recent_first_dec : RelDecision most_recent_first.
Proof.
  intros a b. unfold most_recent_first.
  destruct (shown_date a), (shown_date b); apply _.
Defined.

(** [LIMIT $2 OFFSET $3]; a negative offset is an error of the query. *)
Definition page {A} (limit offset : Z) (l : list A) : list A := LIMIT limit (drop (Z.to_nat offset) l).

(** The total comes from a window over the rows, so a page past the end has
    none and reports zero. *)
Definition with_total {A} (all page : list A) : list A * Z :=
  (page, match page with [] => 0 | _ => Z.of_nat (length all) end).

Definition ListMessages (mailboxID limit offset : Z) : sql (list MessageSummary * Z) := fun db =>
  let limit := if (limit <=? 0) || (200 <? limit) then 50 else limit in
  if offset <? 0 then (inl (ErrWrap "listing messages: " (ErrText "OFFSET must not be negative") ""), db) else
  let all := merge_sort most_recent_first (summaries "(no subject)" mailboxID db) in
  (inr (with_total all (page limit offset all)), db).

Definition uid_order (a b : MessageSummary) : Prop := ms_LocalUID a <= ms_LocalUID b.
#[export] Instance uid_order_dec : RelDecision uid_order.
Proof. intros ??. unfold uid_order. apply _. Defined.

Definition ListMessagesByUID (mailboxID limit offset : Z) : sql (list MessageSummary * Z) := fun db =>
  let all := merge_sort uid_order (summaries "" mailboxID db) in
  if 0 <? limit then
    if offset <? 0
    then (inl (ErrWrap "listing messages by UID: " (ErrText "OFFSET must not be negative") ""), db)
    else (inr (with_total all (page limit offset all)), db)
  else (inr (with_total all all), db).

Record MIMEPartRow := mk_MIMEPartRow {
  mr_Path : string;
  mr_ContentType : string;
  mr_Filename : string;
  mr_Size : Z;
  mr_BlobKey : string
}.

(** [MessageDetail].  The query does not fill the summary's [SentDate],
    [MessageIDHdr] and [HasAttachments], and the outer To and Cc hide the
    embedded ones. *)
Record MessageDetail := mk_MessageDetail {
  md_Summary : MessageSummary;
  md_To : list string;
  md_Cc : list string;
  md_MessageID_ : string;
  md_BodyText : string;
  md_BlobKey : string;
  md_ParseFailed : bool;
  md_ParseError : string;
  md_MailboxID : Z;
  md_MailboxName : string;
  md_AccountID : Z;
  md_Parts : list MIMEPartRow
}.

Definition part_row (p : mime_row) : MIMEPartRow :=
  {| mr_Path := mp_part_path p; mr_ContentType := mp_content_type p;
     mr_Filename := COALESCE (mp_filename p) ""; mr_Size := mp_size_octets p;
     mr_BlobKey := COALESCE (mp_blob_key p) "" |}.

Definition path_le (a b : MIMEPartRow) : Prop := String.leb (mr_Path a) (mr_Path b) = true.
#[export] Instance path_le_dec : RelDecision path_le.
Proof. intros ??. unfold path_le. apply _. Defined.

Definition detail_summary (id : Z) (r : mm_row) (m : message_row) : MessageSummary :=
  let '(from, to, cc) := decodeAddresses (m_addrs m) in
  {| ms_MailboxMessageID := id; ms_MessageID := mm_message_id r; ms_LocalUID := mm_local_uid r;
     ms_UpstreamUID := COALESCE (mm_upstream_uid r) 0;
     ms_Subject := COALESCE (m_subject m) "(no subject)";
     ms_From := from; ms_To := []; ms_Cc := []; ms_Preview := COALESCE (m_preview m) "";
     ms_InternalDate := m_internal_date m; ms_SentDate := None; ms_MessageIDHdr := "";
     ms_Size := m_rfc822_size m; ms_Flags := mm_flags r; ms_BodyState := mm_body_state r;
     ms_HasAttachments := false |}.

Definition detail (db : DB) (id : Z) (r : mm_row) (m : message_row) (mb : mailbox_row) : MessageDetail :=
  let '(_, to, cc) := decodeAddresses (m_addrs m) in
  {| md_Summary := detail_summary id r m; md_To := to; md_Cc := cc;
     md_MessageID_ := COALESCE (m_message_id_hdr m) "";
     md_BodyText := COALESCE (m_body_text m) ""; md_BlobKey := COALESCE (m_blob_key m) "";
     md_ParseFailed := m_parse_failed m; md_ParseError := COALESCE (m_parse_error m) "";
     md_MailboxID := mm_mailbox_id r; md_MailboxName := mb_name mb; md_AccountID := m_account_id m;
     md_Parts := merge_sort path_le (map (fun kr => part_row kr.2)
       (select (fun _ p => mp_message_id p =? mm_message_id r) (mime_parts db))) |}.

Definition GetMessage (mailboxMessageID : Z) : sql MessageDetail := fun db =>
  match (r ← rows (mailbox_messages db) !! mailboxMessageID;
         m ← rows (messages db) !! mm_message_id r;
         mb ← rows (mailboxes db) !! mm_mailbox_id r;
         mret (detail db mailboxMessageID r m mb)) with
  | Some d => (inr d, db)
  | None => (inl (notFound ErrNoRows), db)
  end.

Record AccountStats := mk_AccountStats {
  as_Mailboxes : Z;
  as_Messages : Z;
  as_PendingBodies : Z;
  as_FailedBodies : Z;
  as_Bytes : Z
}.

Definition sum_sizes (accountID : Z) (db : DB) : Z :=
  foldr (fun kr acc => m_rfc822_size kr.2 + acc) 0
    (select (fun _ r => m_account_id r =? accountID) (messages db)).

Definition StatsForAccount (accountID : Z) : sql AccountStats :=
  gets (fun db =>
    {| as_Mailboxes := count_where (fun _ r => mb_account_id r =? accountID) (mailboxes db);
       as_Messages := count_where (fun _ r => in_account accountID db r) (mailbox_messages db);
       as_PendingBodies := count_where (fun _ r => in_account accountID db r && unfinished r) (mailbox_messages db);
       as_FailedBodies := count_where (fun _ r => in_account accountID db r
                            && bool_decide (mm_body_state r = BodyFailed)) (mailbox_messages db);
       as_Bytes := sum_sizes accountID db |}).

Definition SetFlags (mailboxMessageID : Z) (flags : list string) : sql unit :=
  modify (update_mm (id_is mailboxMessageID) (set_mm_flags flags)).

(** [RawMessage]: the blob key and the size; a message without a stored body is
    not found. *)
Definition RawMessage (mailboxMessageID : Z) : sql (string * Z) := fun db =>
  match (r ← rows (mailbox_messages db) !! mailboxMessageID; rows (messages db) !! mm_message_id r) with
  | None => (inl (notFound ErrNoRows), db)
  | Some m =>
      match m_blob_key m with
      | None => (inl ErrNotFound, db)
      | Some key => (inr (key, m_rfc822_size m), db)
      end
  end.
