(* ===== verification/StoreInvariant.v ===== *)
(** What every method of the store keeps true of the database: keys stay unique,
    references resolve, local UIDs stay below the mailbox's counter, and claims
    are marked exactly while a body is being fetched. *)
From S2P Require Import Prelude GoStrings Retry Schema StoreMailboxes StoreMessages StoreMutations StoreRuns StoreAccounts StoreBrowse.
From Stdlib Require Import String.
From stdpp Require Import strings.
Open Scope string_scope.
Open Scope Z_scope.

(** * Constraints on tables *)

Section constraints.
Context {R S K : Type}.
Implicit Types (t : table R) (s : table S).

(** A unique index; rows whose key is NULL do not take part. *)
Definition uniq (key : R -> option K) t : Prop := forall id1 id2 r1 r2 k,
  rows t !! id1 = Some r1 -> rows t !! id2 = Some r2 ->
  key r1 = Some k -> key r2 = Some k -> id1 = id2.

(** A foreign key; NULL references nothing. *)
Definition refs (fk : R -> option Z) t s : Prop := forall id r k,
  rows t !! id = Some r -> fk r = Some k -> is_Some (rows s !! k).

(** A CHECK on every row. *)
Definition all_rows (P : R -> Prop) t : Prop := forall id r, rows t !! id = Some r -> P r.

Lemma uniq_update key p f t :
  (forall id r, rows t !! id = Some r -> p id r = true -> key (f r) = key r \/ key (f r) = None) ->
  uniq key t -> uniq key (update_where p f t).
Proof.
  intros Hf Hu id1 id2 r1 r2 k (x1 & H1 & ->)%lookup_update_Some (x2 & H2 & ->)%lookup_update_Some K1 K2.
  eapply (Hu id1 id2 x1 x2 k); [done|done| |];
    [destruct (p id1 x1) eqn:E; [destruct (Hf id1 x1 H1 E)|]
    |destruct (p id2 x2) eqn:E; [destruct (Hf id2 x2 H2 E)|]]; congruence.
Qed.
Lemma uniq_delete key p t : uniq key t -> uniq key (delete_where p t).
Proof. intros Hu id1 id2 r1 r2 k [? _]%lookup_delete_Some [? _]%lookup_delete_Some. by eapply Hu. Qed.
Lemma uniq_insert key r t :
  (forall k, key r = Some k -> forall id r', rows t !! id = Some r' -> key r' <> Some k) ->
  uniq key t -> uniq key (insert_row r t).2.
Proof.
  intros Hn Hu id1 id2 r1 r2 k. rewrite !lookup_insert_row.
  destruct (decide (id1 = _)) as [->|], (decide (id2 = _)) as [->|]; intros H1 H2 K1 K2;
    simplify_eq; try done.
  - by destruct (Hn _ K1 _ _ H2).
  - by destruct (Hn _ K2 _ _ H1).
  - by eapply Hu.
Qed.
(** A statement that changes the key of a single row, to one no other row has. *)
Lemma uniq_update_id key id f t :
  (forall id' r', rows t !! id' = Some r' -> id' <> id ->
     forall r k, rows t !! id = Some r -> key (f r) = Some k -> key r' <> Some k) ->
  uniq key t -> uniq key (update_where (id_is id) f t).
Proof.
  intros Hn Hu id1 id2 r1 r2 k (x1 & H1 & ->)%lookup_update_Some (x2 & H2 & ->)%lookup_update_Some.
  unfold id_is. destruct (Z.eqb_spec id1 id) as [->|], (Z.eqb_spec id2 id) as [->|]; intros K1 K2.
  - done.
  - by destruct (Hn _ _ H2 n _ _ H1 K1).
  - by destruct (Hn _ _ H1 n _ _ H2 K2).
  - by eapply Hu.
Qed.

Lemma refs_update fk p f t s :
  (forall id r k, rows t !! id = Some r -> p id r = true -> fk (f r) = Some k -> is_Some (rows s !! k)) ->
  refs fk t s -> refs fk (update_where p f t) s.
Proof.
  intros Hf Hr id r k (x & Hx & ->)%lookup_update_Some. destruct (p id x) eqn:E; eauto.
Qed.
Lemma refs_delete fk p t s : refs fk t s -> refs fk (delete_where p t) s.
Proof. intros Hr id r k [? _]%lookup_delete_Some. by eapply Hr. Qed.
Lemma refs_insert fk r t s :
  (forall k, fk r = Some k -> is_Some (rows s !! k)) -> refs fk t s -> refs fk (insert_row r t).2 s.
Proof. intros Hk Hr id r' k. rewrite lookup_insert_row. case_decide; [naive_solver|eauto]. Qed.

Lemma refs_target_update fk p f t s : refs fk t s -> refs fk t (update_where p f s).
Proof. intros Hr id r k H1 H2. rewrite lookup_update_where, fmap_is_Some. eauto. Qed.
Lemma refs_target_insert fk r t s : refs fk t s -> refs fk t (insert_row r s).2.
Proof. intros Hr id r' k H1 H2. rewrite lookup_insert_row. case_decide; eauto. Qed.

(** [ON DELETE CASCADE] re-establishes a reference whatever was deleted. *)
Lemma refs_cascade (fk : R -> option Z) t s :
  refs fk (delete_where (fun _ r => match fk r with Some k => gone s k | None => false end) t) s.
Proof.
  intros id r k [_ H]%lookup_delete_Some Hk. rewrite Hk in H. unfold gone in H.
  apply bool_decide_eq_false in H. by destruct (rows s !! k); [eexists|].
Qed.

Lemma all_rows_update P p f t :
  (forall id r, rows t !! id = Some r -> p id r = true -> P r -> P (f r)) ->
  all_rows P t -> all_rows P (update_where p f t).
Proof. intros Hf Ht id r (x & Hx & ->)%lookup_update_Some. destruct (p id x) eqn:E; eauto. Qed.
Lemma all_rows_delete P p t : all_rows P t -> all_rows P (delete_where p t).
Proof. intros Ht id r [? _]%lookup_delete_Some. eauto. Qed.
Lemma all_rows_insert P r t : P r -> all_rows P t -> all_rows P (insert_row r t).2.
Proof. intros Hr Ht id r'. rewrite lookup_insert_row. case_decide; naive_solver. Qed.
End constraints.

(** * The invariant *)

(** Local UIDs come from the mailbox's counter and stay below it. *)
Definition uids_below (mms : table mm_row) (mbs : table mailbox_row) : Prop := forall id r mb,
  rows mms !! id = Some r -> rows mbs !! mm_mailbox_id r = Some mb ->
  1 <= mm_local_uid r < mb_local_uidnext mb.

(** A body is claimed exactly while it is being fetched. *)
Definition mm_ok (r : mm_row) : Prop :=
  (mm_body_state r = BodyFetching <-> is_Some (mm_claimed_at r)) /\ 0 <= mm_body_attempts r.
Definition message_ok (r : message_row) : Prop :=
  length (m_rfc822_sha256 r) = 32%nat /\ 0 <= m_rfc822_size r
  /\ (m_blob_key r = None -> take 8 (m_rfc822_sha256 r) = placeholder_prefix).

(** A body is marked stored only when its message has a blob. *)
Definition stored_have_blob (mms : table mm_row) (msgs : table message_row) : Prop := forall id r m,
  rows mms !! id = Some r -> mm_body_state r = BodyStored ->
  rows msgs !! mm_message_id r = Some m -> is_Some (m_blob_key m).

(** The unique indexes of the schema. *)
Definition user_index (r : user_row) : option string := Some (ToLower (us_email r)).
Definition account_index (r : account_row) : option (Z * string) :=
  Some (ac_user_id r, ToLower (ac_email_address r)).
Definition mailbox_index (r : mailbox_row) : option (Z * string) :=
  Some (mb_account_id r, mb_canonical_name r).
Definition message_index (r : message_row) : option (Z * list Z) := Some (m_account_id r, m_rfc822_sha256 r).
Definition local_index (r : mm_row) : option (Z * Z) := Some (mm_mailbox_id r, mm_local_uid r).
Definition upstream_index (r : mm_row) : option (Z * Z) := (fun uid => (mm_mailbox_id r, uid)) <$> mm_upstream_uid r.
Definition part_index (r : mime_row) : option (Z * string) := Some (mp_message_id r, mp_part_path r).
Definition mutation_index (r : mutation_row) : option string := Some (pm_idempotency_key r).
Definition session_index (r : session_row) : option (list Z) := Some (se_token_hash r).

Definition to {R} (col : R -> Z) (r : R) : option Z := Some (col r).

Record db_wf (db : DB) : Prop := mk_db_wf {
  wf_seq_users : table_wf (users db);
  wf_seq_accounts : table_wf (mail_accounts db);
  wf_seq_mailboxes : table_wf (mailboxes db);
  wf_seq_messages : table_wf (messages db);
  wf_seq_mms : table_wf (mailbox_messages db);
  wf_seq_parts : table_wf (mime_parts db);
  wf_seq_mutations : table_wf (pending_mutations db);
  wf_seq_runs : table_wf (sync_runs db);
  wf_seq_sessions : table_wf (sessions db);
  wf_user_index : uniq user_index (users db);
  wf_account_index : uniq account_index (mail_accounts db);
  wf_mailbox_index : uniq mailbox_index (mailboxes db);
  wf_message_index : uniq message_index (messages db);
  wf_local_index : uniq local_index (mailbox_messages db);
  wf_upstream_index : uniq upstream_index (mailbox_messages db);
  wf_part_index : uniq part_index (mime_parts db);
  wf_mutation_index : uniq mutation_index (pending_mutations db);
  wf_session_index : uniq session_index (sessions db);
  wf_account_user : refs (to ac_user_id) (mail_accounts db) (users db);
  wf_session_user : refs (to se_user_id) (sessions db) (users db);
  wf_mailbox_account : refs (to mb_account_id) (mailboxes db) (mail_accounts db);
  wf_message_account : refs (to m_account_id) (messages db) (mail_accounts db);
  wf_run_account : refs (to sr_account_id) (sync_runs db) (mail_accounts db);
  wf_mutation_account : refs (to pm_account_id) (pending_mutations db) (mail_accounts db);
  wf_mm_mailbox : refs (to mm_mailbox_id) (mailbox_messages db) (mailboxes db);
  wf_mutation_mailbox : refs pm_mailbox_id (pending_mutations db) (mailboxes db);
  wf_mm_message : refs (to mm_message_id) (mailbox_messages db) (messages db);
  wf_part_message : refs (to mp_message_id) (mime_parts db) (messages db);
  wf_uids : uids_below (mailbox_messages db) (mailboxes db);
  wf_stored : stored_have_blob (mailbox_messages db) (messages db);
  wf_mm_ok : all_rows mm_ok (mailbox_messages db);
  wf_message_ok : all_rows message_ok (messages db);
  wf_uidnext : all_rows (fun r => 1 <= mb_local_uidnext r) (mailboxes db)
}.

Lemma empty_db_wf : db_wf empty_db.
Proof.
  constructor; repeat intro;
    match goal with H : rows _ !! _ = Some _ |- _ => simpl in H; by rewrite lookup_empty in H end.
Qed.

Create HintDb dbwf.
#[export] Hint Resolve wf_seq_users wf_seq_accounts wf_seq_mailboxes wf_seq_messages wf_seq_mms
  wf_seq_parts wf_seq_mutations wf_seq_runs wf_seq_sessions wf_user_index wf_account_index
  wf_mailbox_index wf_message_index wf_local_index wf_upstream_index wf_part_index
  wf_mutation_index wf_session_index wf_account_user wf_session_user wf_mailbox_account
  wf_message_account wf_run_account wf_mutation_account wf_mm_mailbox wf_mutation_mailbox
  wf_mm_message wf_part_message wf_uids wf_stored wf_mm_ok wf_message_ok wf_uidnext : dbwf.
#[export] Hint Resolve table_wf_insert table_wf_update table_wf_delete uniq_delete refs_delete
  all_rows_delete refs_target_update refs_target_insert : dbwf.

(** Computes the tables of an updated database, leaving the statements alone. *)
Ltac db_simpl := cbn [users mail_accounts mailboxes messages mailbox_messages mime_parts
  pending_mutations sync_runs sessions set_users set_mail_accounts set_mailboxes set_messages
  set_mailbox_messages set_mime_parts set_pending_mutations set_sync_runs set_sessions
  update_mailbox update_mm update_mutations update_runs update_accounts
  delete_mailboxes delete_messages cascade_mailboxes cascade_messages cascade_accounts].

(** Proves [db_wf] of an updated database conjunct by conjunct; what concerns
    the changed table is left. *)
Ltac wf_step := intros Hwf; constructor; db_simpl; eauto 6 with dbwf.

(** * One table at a time *)

Lemma uids_update_mm p f mms mbs :
  (forall id r, rows mms !! id = Some r -> p id r = true ->
     mm_mailbox_id (f r) = mm_mailbox_id r /\ mm_local_uid (f r) = mm_local_uid r) ->
  uids_below mms mbs -> uids_below (update_where p f mms) mbs.
Proof.
  intros Hf Hu id r mb (x & Hx & ->)%lookup_update_Some. destruct (p id x) eqn:E; [|by eauto].
  destruct (Hf id x Hx E) as [-> ->]. eauto.
Qed.
Lemma uids_delete_mm p mms mbs : uids_below mms mbs -> uids_below (delete_where p mms) mbs.
Proof. intros Hu id r mb [? _]%lookup_delete_Some. eauto. Qed.
Lemma uids_delete_mailbox p mms mbs : uids_below mms mbs -> uids_below mms (delete_where p mbs).
Proof. intros Hu id r mb ? [? _]%lookup_delete_Some. eauto. Qed.
Lemma uids_update_mailbox p f mms mbs :
  (forall r, mb_local_uidnext r <= mb_local_uidnext (f r)) ->
  uids_below mms mbs -> uids_below mms (update_where p f mbs).
Proof.
  intros Hf Hu id r mb Hr (x & Hx & ->)%lookup_update_Some. specialize (Hu id r x Hr Hx).
  destruct (p _ x); [|done]. specialize (Hf x). lia.
Qed.
Lemma uids_insert_mailbox r mms mbs :
  table_wf mbs -> refs (to mm_mailbox_id) mms mbs ->
  uids_below mms mbs -> uids_below mms (insert_row r mbs).2.
Proof.
  intros Hwf Hr Hu id x mb Hx. rewrite lookup_insert_row. case_decide as E; [|by eauto].
  destruct (Hr id x _ Hx eq_refl) as [? H]. rewrite E, table_wf_fresh in H; done.
Qed.
Lemma uids_insert_mm r mms mbs :
  (forall mb, rows mbs !! mm_mailbox_id r = Some mb -> 1 <= mm_local_uid r < mb_local_uidnext mb) ->
  uids_below mms mbs -> uids_below (insert_row r mms).2 mbs.
Proof. intros Hr Hu id x mb. rewrite lookup_insert_row. case_decide; [naive_solver|eauto]. Qed.
#[export] Hint Resolve uids_delete_mm uids_delete_mailbox uids_insert_mailbox : dbwf.

Lemma stored_delete_mm p mms msgs : stored_have_blob mms msgs -> stored_have_blob (delete_where p mms) msgs.
Proof. intros Hs id r m [? _]%lookup_delete_Some. eauto. Qed.
Lemma stored_delete_message p mms msgs : stored_have_blob mms msgs -> stored_have_blob mms (delete_where p msgs).
Proof. intros Hs id r m ? ? [? _]%lookup_delete_Some. eauto. Qed.
Lemma stored_update_message p f mms msgs :
  (forall r, is_Some (m_blob_key r) -> is_Some (m_blob_key (f r))) ->
  stored_have_blob mms msgs -> stored_have_blob mms (update_where p f msgs).
Proof.
  intros Hf Hs id r m Hr Hst (x & Hx & ->)%lookup_update_Some.
  destruct (p _ x); [apply Hf|]; by eapply Hs.
Qed.
Lemma stored_insert_message r mms msgs :
  table_wf msgs -> refs (to mm_message_id) mms msgs ->
  stored_have_blob mms msgs -> stored_have_blob mms (insert_row r msgs).2.
Proof.
  intros Hwf Hr Hs id x m Hx Hst. rewrite lookup_insert_row. case_decide as E; [|by eauto].
  destruct (Hr id x _ Hx eq_refl) as [? H]. rewrite E, table_wf_fresh in H; done.
Qed.
Lemma stored_update_mm p f mms msgs :
  (forall id r, rows mms !! id = Some r -> p id r = true -> mm_body_state (f r) = BodyStored ->
     (mm_body_state r = BodyStored /\ mm_message_id (f r) = mm_message_id r)
     \/ (forall m, rows msgs !! mm_message_id (f r) = Some m -> is_Some (m_blob_key m))) ->
  stored_have_blob mms msgs -> stored_have_blob (update_where p f mms) msgs.
Proof.
  intros Hf Hs id r m (x & Hx & ->)%lookup_update_Some. destruct (p id x) eqn:E; [|by eauto].
  intros Hst Hm. destruct (Hf id x Hx E Hst) as [[H1 H2]|H]; [|by eauto].
  rewrite H2 in Hm. by eapply Hs.
Qed.
Lemma stored_insert_mm r mms msgs :
  mm_body_state r <> BodyStored -> stored_have_blob mms msgs -> stored_have_blob (insert_row r mms).2 msgs.
Proof. intros Hr Hs id x m. rewrite lookup_insert_row. case_decide; [naive_solver|eauto]. Qed.
#[export] Hint Resolve stored_delete_mm stored_delete_message stored_insert_message : dbwf.

Lemma find_row_unique {R K} (key : R -> option K) (t : table R) p k :
  find_row p t = None -> (forall id r, key r = Some k -> p id r = true) ->
  forall id r, rows t !! id = Some r -> key r <> Some k.
Proof. intros H Hp id r Hr Hk. pose proof (proj1 (find_row_None _ _) H _ _ Hr). by rewrite (Hp id r Hk) in *. Qed.

Section updates.
Implicit Types db : DB.

Lemma wf_update_users p f db :
  (forall r, us_email (f r) = us_email r) ->
  db_wf db -> db_wf (set_users (update_where p f (users db)) db).
Proof.
  intros Hf. wf_step. apply uniq_update; [|by apply wf_user_index].
  intros; left. unfold user_index. by rewrite Hf.
Qed.

Lemma wf_update_accounts p f db :
  (forall r, ac_user_id (f r) = ac_user_id r /\ ac_email_address (f r) = ac_email_address r) ->
  db_wf db -> db_wf (set_mail_accounts (update_where p f (mail_accounts db)) db).
Proof.
  intros Hf. wf_step.
  - apply uniq_update; [|by apply wf_account_index].
    intros id r _ _; left. unfold account_index. by destruct (Hf r) as [-> ->].
  - apply refs_update; [|by apply wf_account_user].
    intros id r k Hr _. unfold to. destruct (Hf r) as [-> _]. by apply (wf_account_user _ Hwf id).
Qed.

Lemma wf_update_mailboxes p f db :
  (forall r, mb_account_id (f r) = mb_account_id r /\ mb_canonical_name (f r) = mb_canonical_name r
             /\ mb_local_uidnext r <= mb_local_uidnext (f r)) ->
  db_wf db -> db_wf (set_mailboxes (update_where p f (mailboxes db)) db).
Proof.
  intros Hf. wf_step.
  - apply uniq_update; [|by apply wf_mailbox_index].
    intros id r _ _; left. unfold mailbox_index. by destruct (Hf r) as (-> & -> & _).
  - apply refs_update; [|by apply wf_mailbox_account].
    intros id r k Hr _. unfold to. destruct (Hf r) as [-> _]. by apply (wf_mailbox_account _ Hwf id).
  - apply uids_update_mailbox; [|by apply wf_uids]. intros r. by destruct (Hf r) as (_ & _ & ?).
  - apply all_rows_update; [|by apply wf_uidnext]. intros _ r _ _ ?. destruct (Hf r) as (_ & _ & ?). lia.
Qed.

Lemma wf_update_messages p f db :
  (forall r, m_account_id (f r) = m_account_id r /\ m_rfc822_sha256 (f r) = m_rfc822_sha256 r
             /\ m_rfc822_size (f r) = m_rfc822_size r /\ m_blob_key (f r) = m_blob_key r) ->
  db_wf db -> db_wf (set_messages (update_where p f (messages db)) db).
Proof.
  intros Hf. wf_step.
  - apply uniq_update; [|by apply wf_message_index].
    intros id r _ _; left. unfold message_index. by destruct (Hf r) as (-> & -> & _).
  - apply refs_update; [|by apply wf_message_account].
    intros id r k Hr _. unfold to. destruct (Hf r) as [-> _]. by apply (wf_message_account _ Hwf id).
  - apply stored_update_message; [|by apply wf_stored]. intros r. by destruct (Hf r) as (_ & _ & _ & ->).
  - apply all_rows_update; [|by apply wf_message_ok]. intros _ r _ _ (? & ? & ?).
    destruct (Hf r) as (_ & E1 & E2 & E3). unfold message_ok. by rewrite E1, E2, E3.
Qed.

(** What an update may do to a mailbox row: relink it to a message that
    exists, forget its upstream UID, and move its body state consistently. *)
Definition mm_update_ok db (r r' : mm_row) : Prop :=
  mm_mailbox_id r' = mm_mailbox_id r /\ mm_local_uid r' = mm_local_uid r
  /\ (mm_message_id r' = mm_message_id r \/ is_Some (rows (messages db) !! mm_message_id r'))
  /\ (mm_upstream_uid r' = mm_upstream_uid r \/ mm_upstream_uid r' = None)
  /\ (mm_body_state r' = BodyStored ->
        (mm_body_state r = BodyStored /\ mm_message_id r' = mm_message_id r)
        \/ (forall m, rows (messages db) !! mm_message_id r' = Some m -> is_Some (m_blob_key m)))
  /\ (mm_ok r -> mm_ok r').

Lemma wf_update_mms p f db :
  (forall id r, rows (mailbox_messages db) !! id = Some r -> p id r = true -> mm_update_ok db r (f r)) ->
  db_wf db -> db_wf (set_mailbox_messages (update_where p f (mailbox_messages db)) db).
Proof.
  intros Hf. wf_step.
  - apply uniq_update; [|by apply wf_local_index].
    intros id r Hr Hp; left. unfold local_index. by destruct (Hf id r Hr Hp) as (-> & -> & _).
  - apply uniq_update; [|by apply wf_upstream_index].
    intros id r Hr Hp. unfold upstream_index.
    destruct (Hf id r Hr Hp) as (-> & _ & _ & [->| ->] & _); auto.
  - apply refs_update; [|by apply wf_mm_mailbox].
    intros id r k Hr Hp. unfold to. destruct (Hf id r Hr Hp) as (-> & _). by apply (wf_mm_mailbox _ Hwf id).
  - apply refs_update; [|by apply wf_mm_message].
    intros id r k Hr Hp. unfold to. destruct (Hf id r Hr Hp) as (_ & _ & Hm & _). intros [= <-].
    destruct Hm as [->|]; [|done]. by apply (wf_mm_message _ Hwf id r _ Hr).
  - apply uids_update_mm; [|by apply wf_uids]. intros id r Hr Hp. by destruct (Hf id r Hr Hp) as (? & ? & _).
  - apply stored_update_mm; [|by apply wf_stored]. intros id r Hr Hp. by destruct (Hf id r Hr Hp) as (_ & _ & _ & _ & ? & _).
  - apply all_rows_update; [|by apply wf_mm_ok]. intros id r Hr Hp. by destruct (Hf id r Hr Hp) as (_ & _ & _ & _ & _ & ?).
Qed.

Lemma wf_update_parts p f db :
  (forall r, mp_message_id (f r) = mp_message_id r /\ mp_part_path (f r) = mp_part_path r) ->
  db_wf db -> db_wf (set_mime_parts (update_where p f (mime_parts db)) db).
Proof.
  intros Hf. wf_step.
  - apply uniq_update; [|by apply wf_part_index].
    intros id r _ _; left. unfold part_index. by destruct (Hf r) as [-> ->].
  - apply refs_update; [|by apply wf_part_message].
    intros id r k Hr _. unfold to. destruct (Hf r) as [-> _]. by apply (wf_part_message _ Hwf id).
Qed.

Lemma wf_update_mutations p f db :
  (forall r, pm_account_id (f r) = pm_account_id r /\ pm_mailbox_id (f r) = pm_mailbox_id r
             /\ pm_idempotency_key (f r) = pm_idempotency_key r) ->
  db_wf db -> db_wf (set_pending_mutations (update_where p f (pending_mutations db)) db).
Proof.
  intros Hf. wf_step.
  - apply uniq_update; [|by apply wf_mutation_index].
    intros id r _ _; left. unfold mutation_index. by destruct (Hf r) as (_ & _ & ->).
  - apply refs_update; [|by apply wf_mutation_account].
    intros id r k Hr _. unfold to. destruct (Hf r) as [-> _]. by apply (wf_mutation_account _ Hwf id).
  - apply refs_update; [|by apply wf_mutation_mailbox].
    intros id r k Hr _. destruct (Hf r) as (_ & -> & _). by apply (wf_mutation_mailbox _ Hwf id).
Qed.

Lemma wf_update_runs p f db :
  (forall r, sr_account_id (f r) = sr_account_id r) ->
  db_wf db -> db_wf (set_sync_runs (update_where p f (sync_runs db)) db).
Proof.
  intros Hf. wf_step. apply refs_update; [|by apply wf_run_account].
  intros id r k Hr _. unfold to. rewrite Hf. by apply (wf_run_account _ Hwf id).
Qed.

Lemma wf_update_sessions p f db :
  (forall r, se_user_id (f r) = se_user_id r /\ se_token_hash (f r) = se_token_hash r) ->
  db_wf db -> db_wf (set_sessions (update_where p f (sessions db)) db).
Proof.
  intros Hf. wf_step.
  - apply uniq_update; [|by apply wf_session_index].
    intros id r _ _; left. unfold session_index. by destruct (Hf r) as [_ ->].
  - apply refs_update; [|by apply wf_session_user].
    intros id r k Hr _. unfold to. destruct (Hf r) as [-> _]. by apply (wf_session_user _ Hwf id).
Qed.
End updates.

Section deletes.
Implicit Types db : DB.

Lemma wf_delete_mms p db : db_wf db -> db_wf (set_mailbox_messages (delete_where p (mailbox_messages db)) db).
Proof. wf_step. Qed.
Lemma wf_delete_parts p db : db_wf db -> db_wf (set_mime_parts (delete_where p (mime_parts db)) db).
Proof. wf_step. Qed.
Lemma wf_delete_sessions p db : db_wf db -> db_wf (set_sessions (delete_where p (sessions db)) db).
Proof. wf_step. Qed.

Lemma wf_delete_mailboxes p db : db_wf db -> db_wf (delete_mailboxes p db).
Proof.
  wf_step; [apply (refs_cascade (to mm_mailbox_id))|apply (refs_cascade pm_mailbox_id)].
Qed.

Lemma wf_delete_messages p db : db_wf db -> db_wf (delete_messages p db).
Proof.
  wf_step; [apply (refs_cascade (to mm_message_id))|apply (refs_cascade (to mp_message_id))].
Qed.

Lemma wf_delete_accounts p db :
  db_wf db -> db_wf (cascade_accounts (set_mail_accounts (delete_where p (mail_accounts db)) db)).
Proof.
  wf_step.
  - apply (refs_cascade (to mb_account_id)).
  - apply (refs_cascade (to m_account_id)).
  - apply (refs_cascade (to sr_account_id)).
  - apply refs_delete, (refs_cascade (to pm_account_id)).
  - apply refs_delete, (refs_cascade (to mm_mailbox_id)).
  - apply (refs_cascade pm_mailbox_id).
  - apply (refs_cascade (to mm_message_id)).
  - apply (refs_cascade (to mp_message_id)).
Qed.
End deletes.

Section inserts.
Implicit Types db : DB.

Lemma wf_insert_user r db :
  find_row (user_key (us_email r)) (users db) = None ->
  db_wf db -> db_wf (set_users (insert_row r (users db)).2 db).
Proof.
  intros Hn. wf_step. apply uniq_insert; [|by apply wf_user_index].
  intros k [= <-]. refine (find_row_unique _ _ _ _ Hn _). intros id x [= E].
  by apply EqualFold_iff.
Qed.

Lemma wf_insert_account r db :
  is_Some (rows (users db) !! ac_user_id r) ->
  find_row (account_key (ac_user_id r) (ac_email_address r)) (mail_accounts db) = None ->
  db_wf db -> db_wf (set_mail_accounts (insert_row r (mail_accounts db)).2 db).
Proof.
  intros Hfk Hn. wf_step.
  - apply uniq_insert; [|by apply wf_account_index].
    intros k [= <-]. refine (find_row_unique _ _ _ _ Hn _). intros id x [= E1 E2].
    unfold account_key. rewrite E1, Z.eqb_refl. by apply EqualFold_iff.
  - apply refs_insert; [|by apply wf_account_user]. by intros k [= <-].
Qed.

Lemma wf_insert_mailbox r db :
  is_Some (rows (mail_accounts db) !! mb_account_id r) -> 1 <= mb_local_uidnext r ->
  find_row (mailbox_key (mb_account_id r) (mb_canonical_name r)) (mailboxes db) = None ->
  db_wf db -> db_wf (set_mailboxes (insert_row r (mailboxes db)).2 db).
Proof.
  intros Hfk Hl Hn. wf_step.
  - apply uniq_insert; [|by apply wf_mailbox_index].
    intros k [= <-]. refine (find_row_unique _ _ _ _ Hn _). intros id x [= E1 E2].
    unfold mailbox_key. by rewrite E1, E2, Z.eqb_refl, String.eqb_refl.
  - apply refs_insert; [|by apply wf_mailbox_account]. by intros k [= <-].
  - apply all_rows_insert; [done|by apply wf_uidnext].
Qed.

Lemma wf_insert_message r db :
  is_Some (rows (mail_accounts db) !! m_account_id r) -> message_ok r ->
  find_row (message_key (m_account_id r) (m_rfc822_sha256 r)) (messages db) = None ->
  db_wf db -> db_wf (set_messages (insert_row r (messages db)).2 db).
Proof.
  intros Hfk Hok Hn. wf_step.
  - apply uniq_insert; [|by apply wf_message_index].
    intros k [= <-]. refine (find_row_unique _ _ _ _ Hn _). intros id x [= E1 E2].
    unfold message_key. by rewrite E1, Z.eqb_refl, bool_decide_true by done.
  - apply refs_insert; [|by apply wf_message_account]. by intros k [= <-].
  - apply all_rows_insert; [done|by apply wf_message_ok].
Qed.

Lemma wf_insert_mm r uid db :
  is_Some (rows (mailboxes db) !! mm_mailbox_id r) -> is_Some (rows (messages db) !! mm_message_id r) ->
  mm_upstream_uid r = Some uid -> mm_body_state r <> BodyStored ->
  find_row (mm_key (mm_mailbox_id r) uid) (mailbox_messages db) = None -> mm_ok r ->
  (forall id x, rows (mailbox_messages db) !! id = Some x -> local_index x <> local_index r) ->
  (forall mb, rows (mailboxes db) !! mm_mailbox_id r = Some mb -> 1 <= mm_local_uid r < mb_local_uidnext mb) ->
  db_wf db -> db_wf (set_mailbox_messages (insert_row r (mailbox_messages db)).2 db).
Proof.
  intros Hmb Hm Huid Hst Hn Hok Hl Hb. wf_step.
  - apply uniq_insert; [|by apply wf_local_index]. intros k <-. exact Hl.
  - apply uniq_insert; [|by apply wf_upstream_index].
    intros k Hk. refine (find_row_unique _ _ _ _ Hn _). intros id x Hx.
    unfold upstream_index in *. rewrite Huid in Hk. simplify_eq/=.
    destruct (mm_upstream_uid x) eqn:E; simplify_eq/=. unfold mm_key.
    rewrite bool_decide_true by congruence. rewrite andb_true_r. by apply Z.eqb_eq.
  - apply refs_insert; [|by apply wf_mm_mailbox]. by intros k [= <-].
  - apply refs_insert; [|by apply wf_mm_message]. by intros k [= <-].
  - apply uids_insert_mm; [done|by apply wf_uids].
  - apply stored_insert_mm; [done|by apply wf_stored].
  - apply all_rows_insert; [done|by apply wf_mm_ok].
Qed.

Lemma wf_insert_part r db :
  is_Some (rows (messages db) !! mp_message_id r) ->
  find_row (part_key (mp_message_id r) (mp_part_path r)) (mime_parts db) = None ->
  db_wf db -> db_wf (set_mime_parts (insert_row r (mime_parts db)).2 db).
Proof.
  intros Hfk Hn. wf_step.
  - apply uniq_insert; [|by apply wf_part_index].
    intros k [= <-]. refine (find_row_unique _ _ _ _ Hn _). intros id x [= E1 E2].
    unfold part_key. by rewrite E1, E2, Z.eqb_refl, String.eqb_refl.
  - apply refs_insert; [|by apply wf_part_message]. by intros k [= <-].
Qed.

Lemma wf_insert_mutation r db :
  is_Some (rows (mail_accounts db) !! pm_account_id r) ->
  (forall k, pm_mailbox_id r = Some k -> is_Some (rows (mailboxes db) !! k)) ->
  find_row (mutation_key (pm_idempotency_key r)) (pending_mutations db) = None ->
  db_wf db -> db_wf (set_pending_mutations (insert_row r (pending_mutations db)).2 db).
Proof.
  intros Hfk Hmb Hn. wf_step.
  - apply uniq_insert; [|by apply wf_mutation_index].
    intros k [= <-]. refine (find_row_unique _ _ _ _ Hn _). intros id x [= E].
    unfold mutation_key. by rewrite E, String.eqb_refl.
  - apply refs_insert; [|by apply wf_mutation_account]. by intros k [= <-].
  - apply refs_insert; [done|by apply wf_mutation_mailbox].
Qed.

Lemma wf_insert_run r db :
  is_Some (rows (mail_accounts db) !! sr_account_id r) ->
  db_wf db -> db_wf (set_sync_runs (insert_row r (sync_runs db)).2 db).
Proof. intros Hfk. wf_step. apply refs_insert; [|by apply wf_run_account]. by intros k [= <-]. Qed.

Lemma wf_insert_session r db :
  is_Some (rows (users db) !! se_user_id r) ->
  find_row (token_key (se_token_hash r)) (sessions db) = None ->
  db_wf db -> db_wf (set_sessions (insert_row r (sessions db)).2 db).
Proof.
  intros Hfk Hn. wf_step.
  - apply uniq_insert; [|by apply wf_session_index].
    intros k [= <-]. refine (find_row_unique _ _ _ _ Hn _). intros id x [= E].
    unfold token_key. by rewrite E, bool_decide_true by done.
  - apply refs_insert; [|by apply wf_session_user]. by intros k [= <-].
Qed.
End inserts.

(** * The methods keep the invariant *)

Lemma snd_pair {A B} (x : A) (y : B) : snd (x, y) = y.
Proof. done. Qed.

(** Case analysis on a method's queries; the row an INSERT adds stays visible as
    [(insert_row r t).2]. *)
Ltac sql_cases :=
  repeat match goal with
  | |- context [match insert_row ?r ?t with _ => _ end] =>
      let E := fresh "E" in
      destruct (insert_row r t) as [? ?] eqn:E;
      apply (f_equal snd) in E; rewrite snd_pair in E; subst
  | |- context [match ?x with _ => _ end] => destruct x eqn:?
  end; cbn [fst snd].
Ltac op_start := intros db Hwf; unfold exec, modify; cbn [fst snd].
Ltac trivially := solve [assumption | repeat split; simpl; auto; lia].

Lemma exists_row_false {R} p (t : table R) : exists_row p t = false -> find_row p t = None.
Proof.
  unfold exists_row, find_row. intros H%bool_decide_eq_false. by destruct (select p t); [|destruct H].
Qed.

Lemma is_Some_eq {A} (o : option A) x : o = Some x -> is_Some o.
Proof. intros ->. by eexists. Qed.
#[export] Hint Resolve is_Some_eq exists_row_false : dbwf.

Section preservation.
Notation keeps := (preserves db_wf).

Lemma UpsertMailbox_wf p : keeps (UpsertMailbox p).
Proof.
  apply preserves_wrap. op_start. sql_cases; trivial.
  - apply wf_update_mailboxes; [intros; trivially|done].
  - apply wf_insert_mailbox; eauto with dbwf. simpl. lia.
Qed.
Lemma SaveCheckpoint_wf now id c : keeps (SaveCheckpoint now id c).
Proof. op_start. apply wf_update_mailboxes; [|done]. intros r. destruct (cp_FullScanCompleted c); trivially. Qed.
Lemma ResetForUIDValidityChange_wf id v : keeps (ResetForUIDValidityChange id v).
Proof.
  apply preserves_InTx, preserves_bind; [|intros _]; op_start.
  - apply wf_update_mms; [|done]. intros ? r _ _. split_and!; simpl; auto.
  - apply wf_update_mailboxes; [intros; trivially|done].
Qed.
Lemma RefreshMailboxCounts_wf id : keeps (RefreshMailboxCounts id).
Proof. op_start. apply wf_update_mailboxes; [intros; trivially|done]. Qed.
Lemma DeleteMailboxesExcept_wf a keep : keeps (DeleteMailboxesExcept a keep).
Proof. op_start. by apply wf_delete_mailboxes. Qed.

(** The statement that records the message leaves its row in place. *)
Lemma upsert_message_spec m db id db' :
  upsert_message m db = (inr id, db') ->
  is_Some (rows (messages db') !! id) /\ mailboxes db' = mailboxes db
  /\ mailbox_messages db' = mailbox_messages db.
Proof.
  unfold upsert_message. repeat case_match; intros [= <- <-]; db_simpl; (split; [|done]).
  - rewrite lookup_update_where.
    match goal with H : find_row _ _ = Some _ |- _ => apply find_row_Some in H as [-> _] end. by eexists.
  - match goal with H : insert_row _ _ = _ |- _ => injection H as <- <- end.
    simpl. rewrite lookup_insert_eq. by eexists.
Qed.

Lemma placeholderDigest_length mailboxID uid : length (placeholderDigest mailboxID uid) = 32%nat.
Proof. reflexivity. Qed.

Lemma upsert_message_wf m : keeps (upsert_message m).
Proof.
  op_start. unfold upsert_message. sql_cases; trivial.
  - apply wf_update_messages; [intros; trivially|done].
  - apply wf_insert_message; eauto with dbwf.
    split; [by apply placeholderDigest_length|]. split; [simpl; zlia|done].
Qed.

Lemma upsert_mailbox_message_wf m messageID db :
  is_Some (rows (messages db) !! messageID) ->
  db_wf db -> db_wf (exec (upsert_mailbox_message m messageID) db).
Proof.
  intros Hm Hwf. unfold exec, upsert_mailbox_message.
  destruct (rows (mailboxes db) !! mt_MailboxID m) as [mb|] eqn:Emb; [|done]. cbv zeta.
  set (db1 := update_mailbox _ _ db).
  assert (db_wf db1) as Hwf1 by (apply wf_update_mailboxes; [intros; trivially|done]).
  assert (rows (mailboxes db1) !! mt_MailboxID m = Some (set_mb_local_uidnext (mb_local_uidnext mb + 1) mb)) as Emb1.
  { unfold db1. db_simpl. rewrite lookup_update_where, Emb. simpl. unfold id_is. by rewrite Z.eqb_refl. }
  sql_cases.
  - apply wf_update_mms; [|done]. intros ? r _ _. split_and!; simpl; auto.
  - eapply wf_insert_mm; simpl; eauto with dbwf.
    + split; simpl; [|lia]. split; [done|by intros []].
    + intros id x Hx [= E1 E2].
      assert (rows (mailboxes db) !! mm_mailbox_id x = Some mb) as Ex by (by rewrite E1).
      pose proof (wf_uids _ Hwf id x mb Hx Ex). lia.
    + intros mb' Hmb'. pose proof (wf_uidnext _ Hwf _ _ Emb) as Hn. simpl in Hn.
      injection (eq_trans (eq_sym Hmb') Emb1) as ->. simpl. lia.
Qed.

Lemma upsertMetadataTx_wf m : keeps (upsertMetadataTx m).
Proof.
  intros db Hwf. unfold exec, upsertMetadataTx, mbind, sql_bind, wrap_err.
  pose proof (upsert_message_wf m db Hwf) as H1. unfold exec in H1.
  destruct (upsert_message m db) as [[e|id] db1] eqn:E; [done|].
  apply upsert_message_spec in E as [Hm _].
  pose proof (upsert_mailbox_message_wf m id db1 Hm H1) as H2. unfold exec in H2.
  by destruct (upsert_mailbox_message m id db1) as [[]].
Qed.
Lemma UpsertMetadata_wf m : keeps (UpsertMetadata m).
Proof. apply preserves_InTx, upsertMetadataTx_wf. Qed.
Lemma upsert_all_wf metas : forall n, keeps (upsert_all metas n).
Proof.
  induction metas as [|m metas IH]; intros n; simpl; [apply preserves_ret|].
  apply preserves_bind; [apply upsertMetadataTx_wf|]. intros [? []]; apply IH.
Qed.
Lemma UpsertMetadataBatch_wf metas : keeps (UpsertMetadataBatch metas).
Proof. destruct metas; [apply preserves_ret|]. apply preserves_InTx, upsert_all_wf. Qed.

(** An update of mailbox rows that keeps everything but the body's state. *)
Lemma update_mm_wf p f :
  (forall r, mm_mailbox_id (f r) = mm_mailbox_id r /\ mm_local_uid (f r) = mm_local_uid r
     /\ mm_message_id (f r) = mm_message_id r /\ mm_upstream_uid (f r) = mm_upstream_uid r
     /\ (mm_body_state (f r) = BodyStored -> mm_body_state r = BodyStored)
     /\ (mm_ok r -> mm_ok (f r))) ->
  forall db, db_wf db -> db_wf (update_mm p f db).
Proof.
  intros Hf db Hwf. apply wf_update_mms; [|done]. intros ? r _ _.
  destruct (Hf r) as (? & ? & ? & ? & ? & ?). split_and!; auto.
Qed.

Lemma UpdateFlags_wf mb uid flags modseq : keeps (UpdateFlags mb uid flags modseq).
Proof. op_start. apply update_mm_wf; [|done]. intros r. split_and!; simpl; auto. Qed.
Lemma SetFlags_wf id flags : keeps (SetFlags id flags).
Proof. op_start. apply update_mm_wf; [|done]. intros r. split_and!; simpl; auto. Qed.
Lemma ClaimPendingBodies_wf now locked ret mb limit maxa : keeps (ClaimPendingBodies now locked ret mb limit maxa).
Proof.
  op_start. apply update_mm_wf; [|done]. intros r. do 5 (split; [done|]). intros [_ H].
  split; simpl; [|lia]. split; [by eexists|done].
Qed.
Lemma MarkBodyFailed_wf id cause maxa : keeps (MarkBodyFailed id cause maxa).
Proof.
  op_start. apply update_mm_wf; [|done]. intros r. do 4 (split; [done|]).
  split; [simpl; by destruct (_ <=? _)|]. intros [_ H]. split; simpl; [|lia].
  destruct (_ <=? _); split; (done || by intros []).
Qed.
Lemma MarkBodyTooLarge_wf id : keeps (MarkBodyTooLarge id).
Proof.
  op_start. apply update_mm_wf; [|done]. intros r. do 5 (split; [done|]). intros [_ H].
  split; simpl; [|lia]. split; [done|by intros []].
Qed.
Lemma ReapStaleClaims_wf now older : keeps (ReapStaleClaims now older).
Proof.
  op_start. apply update_mm_wf; [|done]. intros r. do 5 (split; [done|]). intros [_ H].
  split; simpl; [|lia]. split; [done|by intros []].
Qed.
Lemma DeleteMissingUIDs_wf mb present : keeps (DeleteMissingUIDs mb present).
Proof. op_start. by apply wf_delete_mms. Qed.

(** Replacing a message's digest by one no other message of the account has. *)
Lemma record_body_wf messageID account digest size key db :
  (exists m, rows (messages db) !! messageID = Some m /\ m_account_id m = account) ->
  find_row (fun id r => message_key account digest id r && negb (id =? messageID)) (messages db) = None ->
  db_wf db -> db_wf (exec (record_body messageID digest size key) db).
Proof.
  intros (m & Hm & Hacc) Hn Hwf. unfold exec, record_body. rewrite Hm. sql_cases; trivial.
  bool_to_prop. revert Hwf. wf_step.
  - apply uniq_update_id; [|by apply wf_message_index].
    intros id' r' Hr' Hne r k Hr [= <-] [= E1 E2]. simplify_eq.
    pose proof (proj1 (find_row_None _ _) Hn _ _ Hr') as Hf. simpl in Hf.
    unfold message_key in Hf. rewrite E1, Z.eqb_refl, bool_decide_true in Hf by done.
    simpl in Hf. lia.
  - apply refs_update; [|by apply wf_message_account].
    intros id r k Hr _. unfold to. simpl. by apply (wf_message_account _ Hwf id).
  - apply stored_update_message; [|by apply wf_stored]. intros r _. by eexists.
  - apply all_rows_update; [|by apply wf_message_ok]. intros _ r _ _ _. split_and!; simpl; [lia|lia|done].
Qed.
Lemma record_body_blob messageID digest size key db db' m :
  record_body messageID digest size key db = (inr tt, db') ->
  rows (messages db') !! messageID = Some m -> is_Some (m_blob_key m).
Proof.
  unfold record_body. destruct (rows (messages db) !! messageID) as [x|] eqn:E; [|intros [= <-]; congruence].
  repeat case_match; try done. intros [= <-]. db_simpl. rewrite lookup_update_where, E.
  unfold id_is. simpl. rewrite Z.eqb_refl. intros [= <-]. by eexists.
Qed.

Lemma body_stored_ok r : mm_ok r -> mm_ok (body_stored r).
Proof. intros [_ H]. split; simpl; [|lia]. split; [done|by intros []]. Qed.

(** A digest of real content does not start like a placeholder. *)
Definition content_digest (digest : list Z) : Prop := take 8 digest <> placeholder_prefix.

Lemma message_blob db id m : db_wf db -> rows (messages db) !! id = Some m ->
  content_digest (m_rfc822_sha256 m) -> is_Some (m_blob_key m).
Proof.
  intros Hwf Hm Hd. destruct (wf_message_ok _ Hwf _ _ Hm) as (_ & _ & H).
  destruct (m_blob_key m); [by eexists|]. by destruct Hd, H.
Qed.

Lemma AttachBody_wf id digest size key : content_digest digest -> keeps (AttachBody id digest size key).
Proof.
  intros Hdig. apply preserves_InTx. intros db Hwf.
  unfold exec, mbind, sql_bind, wrap_err, map_err, load_for_attach, gets.
  destruct (rows (mailbox_messages db) !! id) as [r|] eqn:Er; [|done].
  destruct (rows (messages db) !! mm_message_id r) as [m|] eqn:Em; [|done].
  destruct (find_row _ (messages db)) as [[eid e]|] eqn:Ee; cbn [fst snd].
  - apply wf_delete_messages. apply wf_update_mms; [|done].
    intros ? x _ _. apply find_row_Some in Ee as [Ee He]. unfold message_key in He. bool_to_prop.
    split_and!; [done|done|right; by eexists|by left| |apply body_stored_ok].
    intros _. right. simpl. intros m' Hm'. simplify_eq. eapply message_blob; [done|done|].
    by rewrite bool_decide_eq_true in *; simplify_eq.
  - pose proof (record_body_wf (mm_message_id r) (m_account_id m) digest size key db) as H.
    specialize (H (ex_intro _ m (conj Em eq_refl)) Ee Hwf). unfold exec in H.
    pose proof (record_body_blob (mm_message_id r) digest size key db) as Hb.
    assert (mailbox_messages (exec (record_body (mm_message_id r) digest size key) db) = mailbox_messages db) as Hmms.
    { unfold exec, record_body. by repeat case_match. }
    unfold exec in Hmms.
    destruct (record_body _ _ _ _ _) as [[|[]] db1]; [done|]. cbn [fst snd] in *.
    apply wf_update_mms; [|done]. intros id' x Hx Hid. apply Z.eqb_eq in Hid as ->.
    rewrite Hmms, Er in Hx. injection Hx as <-.
    split_and!; [done|done|by left|by left| |apply body_stored_ok].
    intros _. right. simpl. intros m' Hm'. by eapply Hb.
Qed.

Lemma save_part_wf messageID part : keeps (save_part messageID part).
Proof.
  apply preserves_wrap. op_start. sql_cases; trivial.
  - apply wf_update_parts; [intros; trivially|done].
  - apply wf_insert_part; eauto with dbwf.
Qed.
Lemma SaveParsedContent_wf messageID c parts : keeps (SaveParsedContent messageID c parts).
Proof.
  apply preserves_InTx, preserves_bind; [|intros _; apply preserves_bind; [|intros _]].
  - op_start. apply wf_update_messages; [intros; trivially|done].
  - op_start. by apply wf_delete_parts.
  - apply preserves_for_each, save_part_wf.
Qed.

Lemma EnqueueMutation_wf hash now a mb kind p : keeps (EnqueueMutation hash now a mb kind p).
Proof.
  apply preserves_wrap. op_start. sql_cases; trivial.
  - apply wf_update_mutations; [intros; trivially|done].
  - apply wf_insert_mutation; eauto with dbwf. intros k [= <-]. eauto with dbwf.
Qed.
Lemma ClaimDueMutations_wf now locked ret a limit w : keeps (ClaimDueMutations now locked ret a limit w).
Proof. op_start. apply wf_update_mutations; [intros; trivially|done]. Qed.
Lemma MutationSucceeded_wf id : keeps (MutationSucceeded id).
Proof. op_start. apply wf_update_mutations; [intros; trivially|done]. Qed.
Lemma MutationFailed_wf now id e delay maxa : keeps (MutationFailed now id e delay maxa).
Proof. op_start. apply wf_update_mutations; [intros; trivially|done]. Qed.
Lemma ReleaseStaleMutations_wf now older : keeps (ReleaseStaleMutations now older).
Proof. op_start. apply wf_update_mutations; [intros; trivially|done]. Qed.

Lemma StartSyncRun_wf now a trigger : keeps (StartSyncRun now a trigger).
Proof. apply preserves_wrap. op_start. sql_cases; trivial. apply wf_insert_run; eauto with dbwf. Qed.
Lemma Heartbeat_wf now id p : keeps (Heartbeat now id p).
Proof. op_start. apply wf_update_runs; [intros; trivially|done]. Qed.
Lemma FinishSyncRun_wf now id status e p : keeps (FinishSyncRun now id status e p).
Proof. op_start. unfold FinishSyncRun. destruct (_ && _); [done|]. apply wf_update_runs; [intros; trivially|done]. Qed.
Lemma MarkOrphanedRuns_wf now stale : keeps (MarkOrphanedRuns now stale).
Proof. op_start. apply wf_update_runs; [intros; trivially|done]. Qed.

Lemma SetAccountCapabilities_wf a caps : keeps (SetAccountCapabilities a caps).
Proof. op_start. apply wf_update_accounts; [intros; trivially|done]. Qed.
Lemma SetAccountSyncResult_wf now a e failed : keeps (SetAccountSyncResult now a e failed).
Proof. op_start. apply wf_update_accounts; [intros; trivially|done]. Qed.
Lemma SetAccountPaused_wf a paused : keeps (SetAccountPaused a paused).
Proof. op_start. apply wf_update_accounts; [intros; trivially|done]. Qed.
Lemma CreateAccount_wf p : keeps (CreateAccount p).
Proof. apply preserves_wrap. op_start. sql_cases; trivial. apply wf_insert_account; eauto with dbwf. Qed.
Lemma DeleteAccount_wf a : keeps (DeleteAccount a).
Proof. op_start. by apply wf_delete_accounts. Qed.

Lemma CreateUser_wf now email hash admin : keeps (CreateUser now email hash admin).
Proof. apply preserves_wrap. op_start. cbv zeta. sql_cases; trivial. apply wf_insert_user; eauto with dbwf. Qed.
Lemma SetUserPassword_wf id hash : keeps (SetUserPassword id hash).
Proof. op_start. apply wf_update_users; [intros; trivially|done]. Qed.
Lemma CreateSession_wf now u tok kind ua ra exp : keeps (CreateSession now u tok kind ua ra exp).
Proof. apply preserves_wrap. op_start. sql_cases; trivial. apply wf_insert_session; eauto with dbwf. Qed.
Lemma UserForSession_wf now tok : keeps (UserForSession now tok).
Proof.
  op_start. unfold UserForSession. sql_cases; trivial; apply wf_update_sessions; (done || by intros; trivially).
Qed.
Lemma RevokeSession_wf now tok : keeps (RevokeSession now tok).
Proof. op_start. apply wf_update_sessions; [intros; trivially|done]. Qed.
Lemma DeleteExpiredSessions_wf now : keeps (DeleteExpiredSessions now).
Proof. op_start. by apply wf_delete_sessions. Qed.
End preservation.
