(* ===== verification/StoreSteps.v ===== *)
(** The store as a transition system: every method that writes is a step.
    Reachable databases satisfy the invariant, and a local UID names the same
    message for as long as its mailbox exists. *)
From S2P Require Import Prelude GoStrings Retry Schema StoreMailboxes StoreMessages StoreMutations StoreRuns StoreAccounts StoreBrowse StoreInvariant.
From Stdlib Require Import String.
From stdpp Require Import strings relations.
Open Scope string_scope.
Open Scope Z_scope.

Section steps.
Variable sha256_hex : string -> string.

(** One constructor per method; arguments and clock are arbitrary, but for the
    digest of a body, which must not look like a placeholder. *)
Inductive store_step (db : DB) : DB -> Prop :=
| step_UpsertMailbox p : store_step db (exec (UpsertMailbox p) db)
| step_SaveCheckpoint now id c : store_step db (exec (SaveCheckpoint now id c) db)
| step_ResetForUIDValidityChange id v : store_step db (exec (ResetForUIDValidityChange id v) db)
| step_RefreshMailboxCounts id : store_step db (exec (RefreshMailboxCounts id) db)
| step_DeleteMailboxesExcept a keep : store_step db (exec (DeleteMailboxesExcept a keep) db)
| step_UpsertMetadata m : store_step db (exec (UpsertMetadata m) db)
| step_UpsertMetadataBatch ms : store_step db (exec (UpsertMetadataBatch ms) db)
| step_UpdateFlags mb uid flags modseq : store_step db (exec (UpdateFlags mb uid flags modseq) db)
| step_ClaimPendingBodies now locked ret mb limit maxa :
    store_step db (exec (ClaimPendingBodies now locked ret mb limit maxa) db)
| step_AttachBody id digest size key : content_digest digest -> store_step db (exec (AttachBody id digest size key) db)
| step_MarkBodyFailed id cause maxa : store_step db (exec (MarkBodyFailed id cause maxa) db)
| step_MarkBodyTooLarge id : store_step db (exec (MarkBodyTooLarge id) db)
| step_ReapStaleClaims now older : store_step db (exec (ReapStaleClaims now older) db)
| step_DeleteMissingUIDs mb present : store_step db (exec (DeleteMissingUIDs mb present) db)
| step_SaveParsedContent id c parts : store_step db (exec (SaveParsedContent id c parts) db)
| step_SetFlags id flags : store_step db (exec (SetFlags id flags) db)
| step_EnqueueMutation now a mb kind p : store_step db (exec (EnqueueMutation sha256_hex now a mb kind p) db)
| step_ClaimDueMutations now locked ret a limit w :
    store_step db (exec (ClaimDueMutations now locked ret a limit w) db)
| step_MutationSucceeded id : store_step db (exec (MutationSucceeded id) db)
| step_MutationFailed now id e delay maxa : store_step db (exec (MutationFailed now id e delay maxa) db)
| step_ReleaseStaleMutations now older : store_step db (exec (ReleaseStaleMutations now older) db)
| step_StartSyncRun now a trigger : store_step db (exec (StartSyncRun now a trigger) db)
| step_Heartbeat now id p : store_step db (exec (Heartbeat now id p) db)
| step_FinishSyncRun now id status e p : store_step db (exec (FinishSyncRun now id status e p) db)
| step_MarkOrphanedRuns now stale : store_step db (exec (MarkOrphanedRuns now stale) db)
| step_SetAccountCapabilities a caps : store_step db (exec (SetAccountCapabilities a caps) db)
| step_SetAccountSyncResult now a e failed : store_step db (exec (SetAccountSyncResult now a e failed) db)
| step_SetAccountPaused a paused : store_step db (exec (SetAccountPaused a paused) db)
| step_CreateAccount p : store_step db (exec (CreateAccount p) db)
| step_DeleteAccount a : store_step db (exec (DeleteAccount a) db)
| step_CreateUser now email hash admin : store_step db (exec (CreateUser now email hash admin) db)
| step_SetUserPassword id hash : store_step db (exec (SetUserPassword id hash) db)
| step_CreateSession now u tok kind ua ra exp :
    store_step db (exec (CreateSession now u tok kind ua ra exp) db)
| step_UserForSession now tok : store_step db (exec (UserForSession now tok) db)
| step_RevokeSession now tok : store_step db (exec (RevokeSession now tok) db)
| step_DeleteExpiredSessions now : store_step db (exec (DeleteExpiredSessions now) db).

Definition reachable (db : DB) : Prop := rtc store_step empty_db db.

Lemma store_step_wf db db' : store_step db db' -> db_wf db -> db_wf db'.
Proof.
  destruct 1; intros Hwf;
    [by apply UpsertMailbox_wf|by apply SaveCheckpoint_wf|by apply ResetForUIDValidityChange_wf
    |by apply RefreshMailboxCounts_wf|by apply DeleteMailboxesExcept_wf|by apply UpsertMetadata_wf
    |by apply UpsertMetadataBatch_wf|by apply UpdateFlags_wf|by apply ClaimPendingBodies_wf
    |by apply AttachBody_wf|by apply MarkBodyFailed_wf|by apply MarkBodyTooLarge_wf
    |by apply ReapStaleClaims_wf|by apply DeleteMissingUIDs_wf|by apply SaveParsedContent_wf
    |by apply SetFlags_wf|by apply EnqueueMutation_wf|by apply ClaimDueMutations_wf
    |by apply MutationSucceeded_wf|by apply MutationFailed_wf|by apply ReleaseStaleMutations_wf
    |by apply StartSyncRun_wf|by apply Heartbeat_wf|by apply FinishSyncRun_wf
    |by apply MarkOrphanedRuns_wf|by apply SetAccountCapabilities_wf|by apply SetAccountSyncResult_wf
    |by apply SetAccountPaused_wf|by apply CreateAccount_wf|by apply DeleteAccount_wf
    |by apply CreateUser_wf|by apply SetUserPassword_wf|by apply CreateSession_wf
    |by apply UserForSession_wf|by apply RevokeSession_wf|by apply DeleteExpiredSessions_wf].
Qed.

Lemma steps_wf db db' : rtc store_step db db' -> db_wf db -> db_wf db'.
Proof. induction 1; eauto using store_step_wf. Qed.
End steps.

(** * Local UIDs over time *)

(** What any step does to the rows of mailboxes: a row keeps its mailbox and its
    local UID; a new row has a new id and a local UID its mailbox had not yet
    handed out; a mailbox's counter never goes back. *)
Record uid_frame (mms mms' : table mm_row) (mbs mbs' : table mailbox_row) : Prop := mk_uid_frame {
  uf_row : forall id r', rows mms' !! id = Some r' ->
    (exists r, rows mms !! id = Some r /\ mm_mailbox_id r = mm_mailbox_id r' /\ mm_local_uid r = mm_local_uid r')
    \/ (nextval mms <= id /\
        forall mb, rows mbs !! mm_mailbox_id r' = Some mb -> mb_local_uidnext mb <= mm_local_uid r');
  uf_mailbox : forall id mb', rows mbs' !! id = Some mb' ->
    (exists mb, rows mbs !! id = Some mb /\ mb_local_uidnext mb <= mb_local_uidnext mb')
    \/ nextval mbs <= id;
  uf_nextval_mms : nextval mms <= nextval mms';
  uf_nextval_mbs : nextval mbs <= nextval mbs'
}.

Notation db_frame db db' :=
  (uid_frame (mailbox_messages db) (mailbox_messages db') (mailboxes db) (mailboxes db')).

Lemma uid_frame_refl mms mbs : uid_frame mms mms mbs mbs.
Proof. constructor; [eauto|intros; left; eexists; split; [done|lia]|lia|lia]. Qed.

Lemma uid_frame_trans mms1 mms2 mms3 mbs1 mbs2 mbs3 :
  table_wf mbs1 -> refs (to mm_mailbox_id) mms3 mbs3 ->
  uid_frame mms1 mms2 mbs1 mbs2 -> uid_frame mms2 mms3 mbs2 mbs3 -> uid_frame mms1 mms3 mbs1 mbs3.
Proof.
  intros Hwf Hfk [R12 M12 S12 T12] [R23 M23 S23 T23]. constructor; [| |lia|lia].
  - intros id r3 H3. destruct (R23 _ _ H3) as [(r2 & H2 & Emb & Eu)|[Hid Hnew]].
    + destruct (R12 _ _ H2) as [(r1 & H1 & ? & ?)|[Hid Hnew]]; [left; exists r1; repeat split; congruence|].
      right. split; [done|]. intros mb. rewrite <- Emb, <- Eu. apply Hnew.
    + right. split; [lia|]. intros mb Hmb.
      destruct (Hfk id r3 _ H3 eq_refl) as [mb3 H3'].
      destruct (M23 _ _ H3') as [(mb2 & H2 & _)|Hge]; [|pose proof (Hwf _ _ Hmb); lia].
      destruct (M12 _ _ H2) as [(mb1 & H1 & Hle)|Hge]; [|pose proof (Hwf _ _ Hmb); lia].
      specialize (Hnew _ H2). simplify_eq. lia.
  - intros id mb3 H3. destruct (M23 _ _ H3) as [(mb2 & H2 & Hle)|Hge]; [|right; lia].
    destruct (M12 _ _ H2) as [(mb1 & H1 & Hle')|Hge]; [|right; lia].
    left. exists mb1. split; [done|lia].
Qed.

Section frames.
Implicit Types (mms : table mm_row) (mbs : table mailbox_row).

Lemma frame_update_mms p f mms mbs :
  (forall r, mm_mailbox_id (f r) = mm_mailbox_id r /\ mm_local_uid (f r) = mm_local_uid r) ->
  uid_frame mms (update_where p f mms) mbs mbs.
Proof.
  intros Hf. constructor; [|intros; left; eexists; split; [done|lia]|simpl; lia|lia].
  intros id r' (r & Hr & ->)%lookup_update_Some. left. exists r. split; [done|].
  destruct (p id r); [|done]. destruct (Hf r) as [-> ->]. done.
Qed.
Lemma frame_delete_mms p mms mms' mbs mbs' :
  uid_frame mms mms' mbs mbs' -> uid_frame mms (delete_where p mms') mbs mbs'.
Proof. intros [R M ? ?]. constructor; auto. intros id r' [H _]%lookup_delete_Some. eauto. Qed.
Lemma frame_delete_mbs p mms mms' mbs mbs' :
  uid_frame mms mms' mbs mbs' -> uid_frame mms mms' mbs (delete_where p mbs').
Proof. intros [R M ? ?]. constructor; auto. intros id r' [H _]%lookup_delete_Some. eauto. Qed.
Lemma frame_update_mbs p f mms mbs :
  (forall r, mb_local_uidnext r <= mb_local_uidnext (f r)) ->
  uid_frame mms mms mbs (update_where p f mbs).
Proof.
  intros Hf. constructor; [eauto| |lia|simpl; lia].
  intros id mb' (mb & Hmb & ->)%lookup_update_Some. left. exists mb. split; [done|].
  destruct (p id mb); [apply Hf|lia].
Qed.
Lemma frame_update_both p f q g mms mbs :
  (forall r, mm_mailbox_id (f r) = mm_mailbox_id r /\ mm_local_uid (f r) = mm_local_uid r) ->
  (forall r, mb_local_uidnext r <= mb_local_uidnext (g r)) ->
  uid_frame mms (update_where p f mms) mbs (update_where q g mbs).
Proof.
  intros Hf Hg. destruct (frame_update_mms p f mms mbs Hf), (frame_update_mbs q g mms mbs Hg).
  by constructor.
Qed.
Lemma frame_insert_mb r mms mbs : uid_frame mms mms mbs (insert_row r mbs).2.
Proof.
  constructor; [eauto| |lia|simpl; lia].
  intros id mb'. rewrite lookup_insert_row. case_decide; [right; lia|]. left. eexists. split; [done|lia].
Qed.
(** Allocating a UID: the counter's old value goes to the new row. *)
Lemma frame_insert_mm r p f mms mbs :
  (forall r, mb_local_uidnext r <= mb_local_uidnext (f r)) ->
  (forall mb, rows mbs !! mm_mailbox_id r = Some mb -> mb_local_uidnext mb <= mm_local_uid r) ->
  uid_frame mms (insert_row r mms).2 mbs (update_where p f mbs).
Proof.
  intros Hf Hr. constructor; [|apply frame_update_mbs; done|simpl; lia|simpl; lia].
  intros id r'. rewrite lookup_insert_row. case_decide as E; [|by eauto].
  intros [= <-]. right. split; [lia|done].
Qed.
End frames.

(** A method whose effect on mailboxes and their rows is a frame. *)
Definition frames {A} (m : sql A) : Prop := forall db, db_wf db -> db_frame db (exec m db).

Section frames_sql.
Context {A B : Type}.
Lemma frames_wrap s (m : sql A) : frames m -> frames (wrap_err s m).
Proof. intros H db Hwf. specialize (H db Hwf). unfold exec, wrap_err in *. by destruct (m db) as [[]]. Qed.
Lemma frames_InTx (m : sql A) : frames m -> frames (InTx m).
Proof.
  intros H db Hwf. specialize (H db Hwf). unfold exec, InTx in *.
  destruct (m db) as [[] ?]; [apply uid_frame_refl|done].
Qed.
Lemma frames_bind (m : sql A) (f : A -> sql B) :
  preserves db_wf m -> (forall x, preserves db_wf (f x)) ->
  frames m -> (forall x, frames (f x)) -> frames (m ≫= f).
Proof.
  intros Km Kf Hm Hf db Hwf. specialize (Hm db Hwf). specialize (Km db Hwf).
  unfold exec, mbind, sql_bind in *. destruct (m db) as [[e|x] db1]; [done|].
  eapply uid_frame_trans; [by apply wf_seq_mailboxes| |done|by apply Hf].
  eapply wf_mm_mailbox. by apply (Kf x).
Qed.
Lemma frames_same (m : sql A) :
  (forall db, mailbox_messages (exec m db) = mailbox_messages db /\ mailboxes (exec m db) = mailboxes db) ->
  frames m.
Proof. intros H db _. destruct (H db) as [-> ->]. apply uid_frame_refl. Qed.
End frames_sql.

Ltac same_tables := apply frames_same; intros db; unfold exec; sql_cases; done.
Ltac frame_start := intros db Hwf; unfold exec; cbn [fst snd]; db_simpl.

Lemma UpsertMailbox_frames p : frames (UpsertMailbox p).
Proof.
  apply frames_wrap. frame_start. sql_cases; db_simpl; try apply uid_frame_refl.
  - by apply frame_update_mbs.
  - apply frame_insert_mb.
Qed.
Lemma update_mailbox_frames id f :
  (forall r, mb_local_uidnext r <= mb_local_uidnext (f r)) -> frames (modify (update_mailbox id f)).
Proof. intros Hf. frame_start. by apply frame_update_mbs. Qed.
Lemma update_mm_frames p f :
  (forall r, mm_mailbox_id (f r) = mm_mailbox_id r /\ mm_local_uid (f r) = mm_local_uid r) ->
  frames (modify (update_mm p f)).
Proof. intros Hf. frame_start. by apply frame_update_mms. Qed.

Lemma SaveCheckpoint_frames now id c : frames (SaveCheckpoint now id c).
Proof. apply update_mailbox_frames. intros r. destruct (cp_FullScanCompleted c); simpl; lia. Qed.
Lemma RefreshMailboxCounts_frames id : frames (RefreshMailboxCounts id).
Proof. frame_start. apply frame_update_mbs. intros; simpl; lia. Qed.
Lemma ResetForUIDValidityChange_frames id v : frames (ResetForUIDValidityChange id v).
Proof.
  apply frames_InTx, frames_bind.
  - op_start. apply wf_update_mms; [|done]. intros ? r _ _. split_and!; simpl; auto.
  - intros _. op_start. apply wf_update_mailboxes; [intros; trivially|done].
  - by apply update_mm_frames.
  - intros _. apply update_mailbox_frames. intros; simpl; lia.
Qed.
Lemma delete_mailboxes_frame p db : db_frame db (delete_mailboxes p db).
Proof. db_simpl. apply frame_delete_mms, frame_delete_mbs, uid_frame_refl. Qed.
Lemma DeleteAccount_frames a : frames (DeleteAccount a).
Proof. frame_start. apply frame_delete_mms, frame_delete_mms, frame_delete_mbs, uid_frame_refl. Qed.

Lemma upsert_mailbox_message_frames m id : frames (upsert_mailbox_message m id).
Proof.
  intros db _. unfold exec, upsert_mailbox_message.
  destruct (rows (mailboxes db) !! mt_MailboxID m) as [mb|] eqn:Emb; [|apply uid_frame_refl]. cbv zeta.
  sql_cases; db_simpl.
  - apply frame_update_both; [done|]. intros; simpl; lia.
  - apply frame_insert_mm; [intros; simpl; lia|]. simpl. intros mb' E. rewrite Emb in E. by injection E as ->.
Qed.

Lemma upsertMetadataTx_frames m : frames (upsertMetadataTx m).
Proof.
  intros db Hwf. unfold exec, upsertMetadataTx, mbind, sql_bind, wrap_err.
  pose proof (upsert_message_wf m db Hwf) as Hwf1. unfold exec in Hwf1.
  destruct (upsert_message m db) as [[e|id] db1] eqn:E.
  - unfold upsert_message in E. repeat case_match; simplify_eq; apply uid_frame_refl.
  - apply upsert_message_spec in E as (_ & <- & <-).
    pose proof (upsert_mailbox_message_frames m id db1 Hwf1) as H. unfold exec in H.
    by destruct (upsert_mailbox_message m id db1) as [[]].
Qed.
Lemma upsert_all_frames ms : forall n, frames (upsert_all ms n).
Proof.
  induction ms as [|m ms IH]; intros n; simpl; [by same_tables|].
  apply frames_bind; [apply upsertMetadataTx_wf| |apply upsertMetadataTx_frames|];
    intros [? []]; apply upsert_all_wf || apply IH.
Qed.
Lemma UpsertMetadataBatch_frames ms : frames (UpsertMetadataBatch ms).
Proof. destruct ms; [by same_tables|]. apply frames_InTx, upsert_all_frames. Qed.

Lemma AttachBody_frames id digest size key : frames (AttachBody id digest size key).
Proof.
  apply frames_InTx. intros db _.
  unfold exec, mbind, sql_bind, wrap_err, map_err, load_for_attach, gets, modify.
  destruct (rows (mailbox_messages db) !! id) as [r|] eqn:Er; [|apply uid_frame_refl].
  destruct (rows (messages db) !! mm_message_id r) as [m|] eqn:Em; [|apply uid_frame_refl].
  destruct (find_row _ (messages db)) as [[eid e]|] eqn:Ee; cbn [fst snd]; db_simpl.
  - apply frame_delete_mms. by apply frame_update_mms.
  - unfold record_body. rewrite Em. destruct (negb _); [apply uid_frame_refl|].
    destruct (size <? 0); [apply uid_frame_refl|]. by apply frame_update_mms.
Qed.

(** Methods that write neither table. *)
Lemma for_each_same {A} (f : A -> sql unit) l :
  (forall x db, mailbox_messages (exec (f x) db) = mailbox_messages db /\ mailboxes (exec (f x) db) = mailboxes db) ->
  forall db, mailbox_messages (exec (for_each f l) db) = mailbox_messages db
             /\ mailboxes (exec (for_each f l) db) = mailboxes db.
Proof.
  intros Hf. induction l as [|x l IH]; intros db; [done|].
  unfold exec in *. simpl. unfold mbind, sql_bind. destruct (Hf x db) as [E1 E2].
  destruct (f x db) as [[] db1]; [done|]. destruct (IH db1) as [-> ->]. done.
Qed.
Lemma SaveParsedContent_frames id c parts : frames (SaveParsedContent id c parts).
Proof.
  apply frames_InTx, frames_same. intros db.
  assert (forall x db, mailbox_messages (exec (save_part id x) db) = mailbox_messages db
    /\ mailboxes (exec (save_part id x) db) = mailboxes db) as Hpart; [clear db; intros x db|].
  2: by match goal with |- context [exec (_ ≫= _) ?d] =>
       destruct (for_each_same _ parts Hpart (exec (modify (fun db => set_mime_parts
         (delete_where (fun _ r => mp_message_id r =? id) (mime_parts db)) db))
         (exec (modify (fun db => set_messages (update_where (id_is id) (apply_parsed c) (messages db)) db)) d))) end.
  unfold exec, save_part, wrap_err. sql_cases; simplify_eq; try done;
    repeat case_match; simplify_eq; done.
Qed.

Lemma UpsertMetadata_frames m : frames (UpsertMetadata m).
Proof. apply frames_InTx, upsertMetadataTx_frames. Qed.
Lemma ClaimPendingBodies_frames now locked ret mb limit maxa : frames (ClaimPendingBodies now locked ret mb limit maxa).
Proof. frame_start. by apply frame_update_mms. Qed.
Lemma ReapStaleClaims_frames now older : frames (ReapStaleClaims now older).
Proof. frame_start. by apply frame_update_mms. Qed.
Lemma DeleteMissingUIDs_frames mb present : frames (DeleteMissingUIDs mb present).
Proof. frame_start. apply frame_delete_mms, uid_frame_refl. Qed.

Lemma store_step_frame hash db db' : store_step hash db db' -> db_wf db -> db_frame db db'.
Proof.
  destruct 1; intros Hwf;
    [by apply UpsertMailbox_frames|by apply SaveCheckpoint_frames|by apply ResetForUIDValidityChange_frames
    |by apply RefreshMailboxCounts_frames|apply delete_mailboxes_frame|by apply UpsertMetadata_frames
    |by apply UpsertMetadataBatch_frames|by apply update_mm_frames|by apply ClaimPendingBodies_frames
    |by apply AttachBody_frames|by apply update_mm_frames|by apply update_mm_frames
    |by apply ReapStaleClaims_frames|by apply DeleteMissingUIDs_frames|by apply SaveParsedContent_frames
    |by apply update_mm_frames|..].
  14: by apply DeleteAccount_frames.
  all: unfold exec, EnqueueMutation, ClaimDueMutations, ReleaseStaleMutations, StartSyncRun, FinishSyncRun,
    MarkOrphanedRuns, CreateAccount, CreateUser, CreateSession, UserForSession, DeleteExpiredSessions, wrap_err.
  all: repeat case_match; simplify_eq; apply uid_frame_refl.
Qed.

Lemma steps_frame hash db db' : rtc (store_step hash) db db' -> db_wf db -> db_frame db db'.
Proof.
  induction 1 as [db|db db1 db2 H12 H23 IH]; intros Hwf; [apply uid_frame_refl|].
  pose proof (store_step_wf _ _ _ H12 Hwf) as Hwf1.
  eapply uid_frame_trans; [by apply wf_seq_mailboxes| |by eapply store_step_frame|by apply IH].
  apply wf_mm_mailbox. by eapply steps_wf.
Qed.

(** * A database with content, for the witnesses *)

Definition ex_user : sql User := CreateUser 0 "alice@example.org" "hash" false.
Definition ex_account : sql Account := CreateAccount
  (mk_CreateAccountParams 1 "Alice" "alice@example.org" "imap.example.org" 993 "tls" [1] [2]).
Definition ex_mailbox : sql Mailbox := UpsertMailbox (mk_UpsertMailboxParams 1 "INBOX" "inbox" (Some "/") [] None).
Definition ex_meta (uid : Z) : MessageMeta :=
  {| mt_AccountID := 1; mt_MailboxID := 1; mt_UpstreamUID := uid; mt_UpstreamModSeq := 7; mt_Flags := [];
     mt_Size := 100 * uid; mt_MessageID := None; mt_InReplyTo := None; mt_References := [];
     mt_Subject := Some "hello"; mt_Addrs := None; mt_InternalDate := None; mt_SentDate := None |}.
Definition ex_db0 : DB := exec ex_mailbox (exec ex_account (exec ex_user empty_db)).
(** A mailbox with the upstream messages 11, 12 and 13. *)
Definition ex_db : DB := exec (UpsertMetadataBatch (map ex_meta [11; 12; 13])) ex_db0.

Lemma ex_db0_reachable hash : reachable hash ex_db0.
Proof.
  eapply rtc_r; [eapply rtc_r; [eapply rtc_r; [apply rtc_refl|apply step_CreateUser]|apply step_CreateAccount]|].
  apply step_UpsertMailbox.
Qed.
Lemma ex_db_reachable hash : reachable hash ex_db.
Proof. eapply rtc_r; [apply ex_db0_reachable|apply step_UpsertMetadataBatch]. Qed.

(** * Theorems *)

(** [C1] Every database the store's methods can produce, in any order and with
    any arguments, satisfies the schema's invariant: unique keys, resolved
    references, local UIDs between 1 and the mailbox's counter, and a claim time
    exactly on the rows being fetched. *)
Theorem reachable_db_wf (hash : string -> string) (db : DB) : reachable hash db -> db_wf db.
Proof. intros H. eapply steps_wf; [exact H|apply empty_db_wf]. Qed.

Lemma reachable_db_wf_witness :
  map fst (map_to_list (rows (mailbox_messages ex_db))) <> [] /\ db_wf ex_db.
Proof. split; [by vm_compute|]. apply (reachable_db_wf (fun s => s)), ex_db_reachable. Defined.

(** [C3] A local UID is allocated once: over any sequence of store operations, a
    mailbox row either is an old row with its mailbox and local UID unchanged, or
    is a new row whose UID exceeds every UID its mailbox has used. *)
Theorem local_uid_never_reused (hash : string -> string) (db db' : DB) (id : Z) (r' : mm_row) :
  reachable hash db -> rtc (store_step hash) db db' ->
  rows (mailbox_messages db') !! id = Some r' ->
  (exists r, rows (mailbox_messages db) !! id = Some r
     /\ mm_mailbox_id r = mm_mailbox_id r' /\ mm_local_uid r = mm_local_uid r')
  \/ (rows (mailbox_messages db) !! id = None
      /\ forall id0 r, rows (mailbox_messages db) !! id0 = Some r ->
           mm_mailbox_id r = mm_mailbox_id r' -> mm_local_uid r < mm_local_uid r').
Proof.
  intros Hr Hs Hr'. assert (db_wf db) as Hwf by (eapply steps_wf; [exact Hr|apply empty_db_wf]).
  destruct (steps_frame _ _ _ Hs Hwf) as [R _ _ _].
  destruct (R _ _ Hr') as [?|[Hge Hnew]]; [by left|right]. split.
  - destruct (rows (mailbox_messages db) !! id) eqn:E; [|done]. apply (wf_seq_mms _ Hwf) in E. lia.
  - intros id0 r H0 Emb. destruct (wf_mm_mailbox _ Hwf id0 r _ H0 eq_refl) as [mb Hmb].
    pose proof (wf_uids _ Hwf _ _ _ H0 Hmb). rewrite Emb in Hmb. specialize (Hnew _ Hmb). lia.
Qed.

Lemma local_uid_never_reused_witness :
  let db' := exec (UpsertMetadata (ex_meta 14)) (exec (DeleteMissingUIDs 1 (Some [11])) ex_db) in
  mm_local_uid <$> rows (mailbox_messages db') !! 4 = Some 4
  /\ forall r', rows (mailbox_messages db') !! 4 = Some r' ->
     (exists r, rows (mailbox_messages ex_db) !! 4 = Some r
        /\ mm_mailbox_id r = mm_mailbox_id r' /\ mm_local_uid r = mm_local_uid r')
     \/ (rows (mailbox_messages ex_db) !! 4 = None
         /\ forall id0 r, rows (mailbox_messages ex_db) !! id0 = Some r ->
              mm_mailbox_id r = mm_mailbox_id r' -> mm_local_uid r < mm_local_uid r').
Proof.
  split; [by vm_compute|]. intros r' Hr'.
  apply (local_uid_never_reused (fun s => s) ex_db _ 4 r' (ex_db_reachable _)) in Hr'; [exact Hr'|].
  eapply rtc_l; [apply (step_DeleteMissingUIDs _ _ 1 (Some [11]))|].
  eapply rtc_l; [apply (step_UpsertMetadata _ _ (ex_meta 14))|apply rtc_refl].
Defined.
