(* ===== verification/StoreProps.v ===== *)
(** What the store's methods do: upserts, claims, body attachment, checkpoints,
    the mutation queue, sign-in sessions and listings. *)
From S2P Require Import Prelude GoStrings Retry Schema StoreMailboxes StoreMessages StoreMutations StoreRuns StoreAccounts StoreBrowse StoreInvariant StoreSteps.
From Stdlib Require Import String.
From stdpp Require Import strings relations.
Open Scope string_scope.
Open Scope Z_scope.

(** * Lookups through unique indexes *)

Lemma find_row_uniq {R K} (key : R -> option K) (t : table R) p k id r :
  uniq key t -> rows t !! id = Some r -> p id r = true ->
  (forall id' r', p id' r' = true -> key r' = Some k) -> find_row p t = Some (id, r).
Proof.
  intros Hu Hr Hp Hk. destruct (find_row p t) as [[id' r']|] eqn:E.
  - apply find_row_Some in E as [Hr' Hp'].
    assert (id' = id) as -> by (eapply Hu; eauto). by simplify_eq.
  - by rewrite (proj1 (find_row_None _ _) E _ _ Hr) in Hp.
Qed.

Lemma find_message db account sha id r :
  db_wf db -> rows (messages db) !! id = Some r -> m_account_id r = account -> m_rfc822_sha256 r = sha ->
  find_row (message_key account sha) (messages db) = Some (id, r).
Proof.
  intros Hwf Hr <- <-. eapply (find_row_uniq message_index); [by apply wf_message_index|done| |].
  - unfold message_key. by rewrite Z.eqb_refl, bool_decide_true.
  - intros ? r' H. unfold message_key in H. bool_to_prop. apply bool_decide_eq_true in H0.
    unfold message_index. by rewrite H, H0.
Qed.

Lemma find_mm db mailbox uid id r :
  db_wf db -> rows (mailbox_messages db) !! id = Some r ->
  mm_mailbox_id r = mailbox -> mm_upstream_uid r = Some uid ->
  find_row (mm_key mailbox uid) (mailbox_messages db) = Some (id, r).
Proof.
  intros Hwf Hr <- Hu. eapply (find_row_uniq upstream_index); [by apply wf_upstream_index|done| |].
  - unfold mm_key. by rewrite Z.eqb_refl, bool_decide_true.
  - intros ? r' H. unfold mm_key in H. bool_to_prop. apply bool_decide_eq_true in H0.
    unfold upstream_index. by rewrite H, H0.
Qed.

(** * Placeholder digests *)

Lemma byte_of_range v i : 0 <= byte_of v i < 256.
Proof.
  unfold byte_of. change 255 with (Z.ones 8). rewrite Z.land_ones by lia. apply Z.mod_pos_bound. lia.
Qed.

Lemma byte_of_testbit v i n : 0 <= n < 8 -> Z.testbit (byte_of v i) n = Z.testbit v (n + 8 * Z.of_nat i).
Proof.
  intros Hn. unfold byte_of. change 255 with (Z.ones 8).
  rewrite Z.land_spec, Z.shiftr_spec, Z.ones_spec_low by lia. apply andb_true_r.
Qed.

(** Eight bytes determine a 64-bit integer. *)
Lemma bytes_inj v w : is_i64 v -> is_i64 w ->
  map (byte_of v) (List.seq 0 8) = map (byte_of w) (List.seq 0 8) -> v = w.
Proof.
  intros Hv Hw H.
  assert (forall i, (i < 8)%nat -> byte_of v i = byte_of w i) as Hb.
  { intros i Hi. cbn in H. injection H as ? ? ? ? ? ? ? ?.
    do 8 (destruct i as [|i]; [done|]). lia. }
  assert (v mod 2 ^ 64 = w mod 2 ^ 64) as E.
  { apply Z.bits_inj'. intros n Hn. rewrite !Z.testbit_mod_pow2 by lia.
    destruct (Z.ltb_spec n 64); [|done]. simpl.
    rewrite (Z.div_mod n 8), Z.add_comm by lia.
    rewrite <- (Z2Nat.id (n / 8)) by (apply Z.div_pos; lia).
    pose proof (Z.mod_pos_bound n 8). rewrite <- !byte_of_testbit by lia.
    f_equal. apply Hb. apply Nat2Z.inj_lt. rewrite Z2Nat.id by (apply Z.div_pos; lia).
    apply Z.div_lt_upper_bound; lia. }
  unfold is_i64 in *.
  destruct (Z.lt_ge_cases v 0), (Z.lt_ge_cases w 0).
  - rewrite <- (Z_mod_plus_full v 1), <- (Z_mod_plus_full w 1), !Z.mod_small in E by lia. lia.
  - rewrite <- (Z_mod_plus_full v 1), !Z.mod_small in E by lia. lia.
  - rewrite <- (Z_mod_plus_full w 1), !Z.mod_small in E by lia. lia.
  - rewrite !Z.mod_small in E by lia. lia.
Qed.

(** The stand-in digest of a message without a body has the length of a
    SHA-256 and identifies the mailbox and the UID: different 64-bit pairs never
    share one. *)
Theorem placeholderDigest_injective (mb1 uid1 mb2 uid2 : Z) :
  is_i64 mb1 -> is_i64 uid1 -> is_i64 mb2 -> is_i64 uid2 ->
  length (placeholderDigest mb1 uid1) = 32%nat
  /\ (placeholderDigest mb1 uid1 = placeholderDigest mb2 uid2 -> mb1 = mb2 /\ uid1 = uid2).
Proof.
  intros H1 H2 H3 H4. split; [done|]. unfold placeholderDigest. intros E.
  apply app_inv_head in E. apply app_inj_1 in E as [E1 E]; [|done].
  apply app_inj_1 in E as [E2 _]; [|done]. split; by apply bytes_inj.
Qed.
Lemma placeholderDigest_injective_witness :
  placeholderDigest 1 513 <> placeholderDigest 1 (-1)
  /\ (placeholderDigest 1 513 = placeholderDigest 1 (-1) -> 1 = 1 /\ 513 = -1).
Proof. split; [by vm_compute|]. apply placeholderDigest_injective; unfold is_i64; lia. Defined.

(** * Upserting metadata *)

Lemma update_where_same {R} p (f : R -> R) (t : table R) :
  (forall id r, rows t !! id = Some r -> p id r = true -> f r = r) -> rows (update_where p f t) = rows t.
Proof.
  intros Hf. apply map_eq. intros id. rewrite lookup_update_where.
  destruct (rows t !! id) as [r|] eqn:E; [|done]. simpl. destruct (p id r) eqn:Ep; [|done].
  by rewrite (Hf id r E Ep).
Qed.

(** What the first statement leaves behind. *)
Lemma upsert_message_row m db id db' :
  upsert_message m db = (inr id, db') ->
  exists r, rows (messages db') !! id = Some r /\ m_account_id r = mt_AccountID m
    /\ m_rfc822_sha256 r = placeholderDigest (mt_MailboxID m) (mt_UpstreamUID m)
    /\ m_subject r = mt_Subject m.
Proof.
  unfold upsert_message.
  destruct (mt_Size m <? 0); [done|]. destruct (rows (mail_accounts db) !! _); [|done].
  destruct (find_row _ _) as [[id' r]|] eqn:E.
  - apply find_row_Some in E as [Hr Hk]. unfold message_key in Hk. bool_to_prop.
    apply bool_decide_eq_true in H0. intros [= <- <-]. db_simpl. rewrite lookup_update_where, Hr.
    unfold id_is. rewrite Z.eqb_refl. eexists. split; [done|]. done.
  - destruct (insert_row _ _) as [id' t] eqn:Ei. injection Ei as <- <-. intros [= <- <-]. simpl.
    rewrite lookup_insert_eq. eexists. split; [done|]. done.
Qed.

Lemma upsert_message_again m db id r :
  db_wf db -> 0 <= mt_Size m -> rows (messages db) !! id = Some r -> m_account_id r = mt_AccountID m ->
  m_rfc822_sha256 r = placeholderDigest (mt_MailboxID m) (mt_UpstreamUID m) -> m_subject r = mt_Subject m ->
  exists db', upsert_message m db = (inr id, db') /\ rows (messages db') = rows (messages db)
    /\ mailboxes db' = mailboxes db /\ mailbox_messages db' = mailbox_messages db.
Proof.
  intros Hwf Hsz Hr Ha Hsha Hs. unfold upsert_message.
  destruct (Z.ltb_spec (mt_Size m) 0); [lia|].
  destruct (wf_message_account _ Hwf id r _ Hr eq_refl) as [a Hacc]. rewrite <- Ha, Hacc.
  rewrite (find_message db _ _ id r) by done.
  eexists. split; [done|]. split; [|done]. db_simpl. apply update_where_same.
  intros id' r' Hr' Hid. apply Z.eqb_eq in Hid as ->. simplify_eq. destruct r; simpl in *. by rewrite <- Hs.
Qed.

Lemma upsert_mailbox_message_row m mid db id c db' :
  upsert_mailbox_message m mid db = (inr (id, c), db') ->
  messages db' = messages db /\ is_Some (rows (mailboxes db') !! mt_MailboxID m)
  /\ exists r, rows (mailbox_messages db') !! id = Some r /\ mm_mailbox_id r = mt_MailboxID m
       /\ mm_upstream_uid r = Some (mt_UpstreamUID m) /\ refresh_mm m r = r.
Proof.
  unfold upsert_mailbox_message. destruct (rows (mailboxes db) !! _) as [mb|] eqn:Emb; [|done]. cbv zeta.
  set (db1 := update_mailbox _ _ db).
  assert (is_Some (rows (mailboxes db1) !! mt_MailboxID m)) as Hmb.
  { unfold db1. db_simpl. rewrite lookup_update_where, Emb. by eexists. }
  change (mailbox_messages db1) with (mailbox_messages db).
  destruct (find_row _ _) as [[id' r]|] eqn:E.
  - apply find_row_Some in E as [Hr Hk]. unfold mm_key in Hk. bool_to_prop.
    apply bool_decide_eq_true in H0. intros [= <- <- <-]. db_simpl. split; [done|]. split; [done|].
    rewrite lookup_update_where, Hr. unfold id_is. rewrite Z.eqb_refl. eexists. split; [done|]. done.
  - destruct (insert_row _ _) as [id' t] eqn:Ei. injection Ei as <- <-. intros [= <- <- <-].
    split; [done|]. split; [done|]. simpl. rewrite lookup_insert_eq. eexists. split; [done|]. done.
Qed.

Lemma upsert_mailbox_message_again m mid db id r :
  db_wf db -> is_Some (rows (mailboxes db) !! mt_MailboxID m) ->
  rows (mailbox_messages db) !! id = Some r -> mm_mailbox_id r = mt_MailboxID m ->
  mm_upstream_uid r = Some (mt_UpstreamUID m) -> refresh_mm m r = r ->
  exists db', upsert_mailbox_message m mid db = (inr (id, false), db')
    /\ rows (mailbox_messages db') = rows (mailbox_messages db) /\ messages db' = messages db.
Proof.
  intros Hwf [mb Hmb] Hr Emb Hu Hf. unfold upsert_mailbox_message. rewrite Hmb. cbv zeta. db_simpl.
  rewrite (find_mm db _ _ id r) by done. eexists. split; [done|]. split; [|done].
  apply update_where_same. intros id' r' Hr' Hid. apply Z.eqb_eq in Hid as ->. by simplify_eq.
Qed.

(** [UpsertMetadata] on success, as its two statements. *)
Lemma UpsertMetadata_inv m db id c db' :
  UpsertMetadata m db = (inr (id, c), db') ->
  exists mid db1, upsert_message m db = (inr mid, db1) /\ upsert_mailbox_message m mid db1 = (inr (id, c), db').
Proof.
  unfold UpsertMetadata, InTx, upsertMetadataTx, mbind, sql_bind, wrap_err.
  destruct (upsert_message m db) as [[e|mid] db1]; [done|]. intros H. exists mid, db1. split; [done|].
  by destruct (upsert_mailbox_message m mid db1) as [[]].
Qed.
Lemma UpsertMetadata_eq m db mid db1 id c db' :
  upsert_message m db = (inr mid, db1) -> upsert_mailbox_message m mid db1 = (inr (id, c), db') ->
  UpsertMetadata m db = (inr (id, c), db').
Proof.
  intros H1 H2. unfold UpsertMetadata, InTx, upsertMetadataTx, mbind, sql_bind, wrap_err. by rewrite H1, H2.
Qed.

(** Recording the same metadata twice is the same as recording it once: the
    second call succeeds, reports the same row as not created, and leaves every
    message and mailbox row as the first call left it. *)
Theorem UpsertMetadata_idempotent (m : MessageMeta) (db db1 : DB) (id : Z) (c : bool) :
  db_wf db -> UpsertMetadata m db = (inr (id, c), db1) ->
  exists db2, UpsertMetadata m db1 = (inr (id, false), db2)
    /\ rows (mailbox_messages db2) = rows (mailbox_messages db1)
    /\ rows (messages db2) = rows (messages db1).
Proof.
  intros Hwf H. pose proof (UpsertMetadata_wf m db Hwf) as Hwf1. unfold exec in Hwf1. rewrite H in Hwf1.
  apply UpsertMetadata_inv in H as (mid & dbA & H1 & H2).
  assert (0 <= mt_Size m) as Hsz by (unfold upsert_message in H1; destruct (Z.ltb_spec (mt_Size m) 0); done).
  destruct (upsert_message_row _ _ _ _ H1) as (mr & Hmr & Ha & Hsha & Hs).
  destruct (upsert_mailbox_message_row _ _ _ _ _ _ H2) as (Emsg & Hmb & r & Hr & Emb & Hu & Hf).
  rewrite <- Emsg in Hmr. simpl in Hwf1.
  destruct (upsert_message_again m db1 mid mr) as (dbB & E1 & EB1 & EB2 & EB3); [done..|].
  assert (db_wf dbB) as HwfB.
  { pose proof (upsert_message_wf m db1 Hwf1) as HB. unfold exec in HB. by rewrite E1 in HB. }
  destruct (upsert_mailbox_message_again m mid dbB id r) as (db2 & E2 & E3 & E4);
    [done|by rewrite EB2|by rewrite EB3|done..|].
  exists db2. split; [by eapply UpsertMetadata_eq|]. by rewrite E3, E4, EB3, EB1.
Qed.
Lemma UpsertMetadata_idempotent_witness :
  exists db2, UpsertMetadata (ex_meta 11) (exec (UpsertMetadata (ex_meta 11)) ex_db0) = (inr (1, false), db2)
    /\ rows (mailbox_messages db2) = rows (mailbox_messages (exec (UpsertMetadata (ex_meta 11)) ex_db0))
    /\ rows (messages db2) = rows (messages (exec (UpsertMetadata (ex_meta 11)) ex_db0)).
Proof.
  apply (UpsertMetadata_idempotent (ex_meta 11) ex_db0 _ 1 true).
  - eapply (steps_wf (fun s => s)); [apply ex_db0_reachable|apply empty_db_wf].
  - reflexivity.
Defined.

(** * Attaching a body *)

Lemma exists_row_true {R} p (t : table R) : exists_row p t = true <-> exists id r, rows t !! id = Some r /\ p id r = true.
Proof.
  unfold exists_row. rewrite bool_decide_eq_true. split.
  - intros H. destruct (select p t) as [|[id r] l] eqn:E; [done|].
    exists id, r. apply elem_of_select. rewrite E. left.
  - intros (id & r & H) E. apply elem_of_select in H. rewrite E in H. by apply elem_of_nil in H.
Qed.

Lemma update_id_lookup {R} id (f : R -> R) (t : table R) id' :
  rows (update_where (id_is id) f t) !! id' = if decide (id' = id) then f <$> rows t !! id' else rows t !! id'.
Proof.
  rewrite lookup_update_where. unfold id_is. destruct (rows t !! id') as [r|] eqn:E; simpl;
    case_decide; subst; rewrite ?Z.eqb_refl; try done.
  destruct (Z.eqb_spec id' id); done.
Qed.

(** Dropping a message nobody refers to costs no mailbox row. *)
Lemma delete_unreferenced mid db :
  refs (to mm_message_id) (mailbox_messages db) (messages db) ->
  let db' := delete_messages (fun id _ => (id =? mid)
    && negb (exists_row (references_message mid) (mailbox_messages db))) db in
  (forall id, rows (mailbox_messages db') !! id = rows (mailbox_messages db) !! id)
  /\ (forall id, id <> mid -> rows (messages db') !! id = rows (messages db) !! id)
  /\ (is_Some (rows (messages db) !! mid) -> (is_Some (rows (messages db') !! mid) <->
      exists id r, rows (mailbox_messages db) !! id = Some r /\ mm_message_id r = mid)).
Proof.
  intros Hfk db'. set (used := exists_row (references_message mid) (mailbox_messages db)).
  assert (used = true <-> exists id r, rows (mailbox_messages db) !! id = Some r /\ mm_message_id r = mid) as Hused.
  { unfold used. rewrite exists_row_true. unfold references_message. by setoid_rewrite Z.eqb_eq. }
  assert (forall id, rows (messages db') !! id =
    if (id =? mid) && negb used then None else rows (messages db) !! id) as Hmsg.
  { intros id. unfold db'. db_simpl. rewrite lookup_delete_where. fold used.
    by destruct (rows (messages db) !! id), (_ && _). }
  split_and!.
  - intros id. change (mailbox_messages db') with
      (delete_where (fun _ r => gone (messages db') (mm_message_id r)) (mailbox_messages db)).
    rewrite lookup_delete_where. destruct (rows (mailbox_messages db) !! id) as [r|] eqn:Er; [|done]. simpl.
    unfold gone. rewrite Hmsg. destruct (_ && negb used) eqn:E.
    + bool_to_prop. assert (used = true) by (apply Hused; by exists id, r). congruence.
    + destruct (Hfk id r _ Er eq_refl) as [? ->]. done.
  - intros id Hid. rewrite Hmsg. by destruct (Z.eqb_spec id mid).
  - intros [m Hm]. rewrite <- Hused, Hmsg, Z.eqb_refl, Hm. destruct used; simpl.
    + split; [done|by eexists].
    + split; [by intros []|done].
Qed.

(** What attaching must achieve for mailbox row [id], whose message was [m]. *)
Definition attached (db db' : DB) (id : Z) (m : message_row) (digest : list Z) : Prop :=
  exists r' m', rows (mailbox_messages db') !! id = Some r'
    /\ mm_body_state r' = BodyStored /\ mm_claimed_at r' = None /\ mm_body_error r' = None
    /\ rows (messages db') !! mm_message_id r' = Some m'
    /\ m_account_id m' = m_account_id m /\ m_rfc822_sha256 m' = digest /\ is_Some (m_blob_key m')
    /\ (forall mid m'', rows (messages db') !! mid = Some m'' -> m_account_id m'' = m_account_id m ->
          m_rfc822_sha256 m'' = digest -> mid = mm_message_id r').

Lemma load_for_attach_eq db id r m :
  rows (mailbox_messages db) !! id = Some r -> rows (messages db) !! mm_message_id r = Some m ->
  load_for_attach id db = (inr (m_account_id m, mm_message_id r), db).
Proof. intros Hr Hm. unfold load_for_attach. by rewrite Hr, Hm. Qed.

(** The branch in which the content is already stored under another row. *)
Lemma AttachBody_duplicate db id digest size key r m eid e :
  db_wf db -> content_digest digest ->
  rows (mailbox_messages db) !! id = Some r -> rows (messages db) !! mm_message_id r = Some m ->
  rows (messages db) !! eid = Some e -> m_account_id e = m_account_id m -> m_rfc822_sha256 e = digest ->
  eid <> mm_message_id r ->
  exists db', AttachBody id digest size key db = (inr tt, db') /\ attached db db' id m digest
    /\ rows (messages db') !! eid = Some e
    /\ (forall id', id' <> id -> rows (mailbox_messages db') !! id' = rows (mailbox_messages db) !! id')
    /\ (is_Some (rows (messages db') !! mm_message_id r) <->
        exists id' r', rows (mailbox_messages db) !! id' = Some r' /\ id' <> id /\ mm_message_id r' = mm_message_id r).
Proof.
  intros Hwf Hdig Hr Hm He Ea Es Hne.
  unfold AttachBody, InTx, mbind, sql_bind, wrap_err, map_err, gets, modify.
  rewrite (load_for_attach_eq _ _ _ _ Hr Hm). cbv beta iota.
  assert (find_row (fun id r0 => message_key (m_account_id m) digest id r0
    && negb (id =? mm_message_id r)) (messages db) = Some (eid, e)) as ->.
  { eapply (find_row_uniq message_index); [by apply wf_message_index|done| |].
    - unfold message_key. rewrite Ea, Es, Z.eqb_refl, bool_decide_true by done. simpl. by destruct (Z.eqb_spec eid (mm_message_id r)).
    - intros ? r' H. unfold message_key in H. bool_to_prop.
      apply bool_decide_eq_true in H1. unfold message_index. by rewrite H, H1. }
  set (db1 := update_mm (id_is id) (fun r => set_mm_message_id eid (body_stored r)) db).
  assert (db_wf db1) as Hwf1.
  { apply wf_update_mms; [|done]. intros ? x _ _.
    split_and!; [done|done|right; by eexists|by left| |apply body_stored_ok].
    intros _. right. simpl. intros m' Hm'. simplify_eq. by eapply message_blob. }
  destruct (delete_unreferenced (mm_message_id r) db1) as (Hmms & Hkeep & Hgone); [by apply wf_mm_message|].
  eexists. split; [done|]. set (db' := delete_messages _ db1) in *.
  assert (forall id', rows (mailbox_messages db') !! id' = if decide (id' = id)
    then Some (set_mm_message_id eid (body_stored r)) else rows (mailbox_messages db) !! id') as Hmms'.
  { intros id'. rewrite Hmms. unfold db1. db_simpl. rewrite update_id_lookup.
    case_decide; subst; [by rewrite Hr|done]. }
  assert (rows (messages db') !! eid = Some e) as He' by (by rewrite Hkeep).
  assert (db_wf db') as Hwf' by (by apply wf_delete_messages).
  split; [|split; [done|split]].
  - exists (set_mm_message_id eid (body_stored r)), e. rewrite Hmms', decide_True by done.
    split_and!; try done; [by eapply message_blob; [exact Hwf'|done|rewrite Es]|].
    intros mid m'' Hm'' E1 E2. eapply (wf_message_index _ Hwf'); [done..| |done].
    unfold message_index. congruence.
  - intros id' Hid'. rewrite Hmms'. by rewrite decide_False by done.
  - rewrite Hgone by (by exists m). split.
    + intros (id' & r' & H & E). unfold db1 in H. revert H. db_simpl. rewrite update_id_lookup.
      case_decide; subst; [rewrite Hr; intros [= <-]; simpl in E; congruence|]. intros Hx. by exists id', r'.
    + intros (id' & r' & H & Hid' & E). exists id', r'. split; [|done].
      unfold db1. db_simpl. rewrite update_id_lookup. by rewrite decide_False by done.
Qed.

(** The branch in which the content is new to the account. *)
Lemma AttachBody_fresh db id digest size key r m :
  db_wf db -> content_digest digest -> length digest = 32%nat -> 0 <= size ->
  rows (mailbox_messages db) !! id = Some r -> rows (messages db) !! mm_message_id r = Some m ->
  (forall eid e, rows (messages db) !! eid = Some e -> m_account_id e = m_account_id m ->
     m_rfc822_sha256 e = digest -> eid = mm_message_id r) ->
  exists db', AttachBody id digest size key db = (inr tt, db') /\ attached db db' id m digest
    /\ rows (messages db') !! mm_message_id r
       = Some (set_m_rfc822_sha256 digest (set_m_rfc822_size size (set_m_blob_key (Some key) m)))
    /\ (forall id', id' <> id -> rows (mailbox_messages db') !! id' = rows (mailbox_messages db) !! id').
Proof.
  intros Hwf Hdig Hlen Hsz Hr Hm Hnew.
  pose proof (AttachBody_wf id digest size key Hdig db Hwf) as Hwf'. unfold exec in Hwf'. revert Hwf'.
  unfold AttachBody, InTx, mbind, sql_bind, wrap_err, map_err, gets, modify.
  rewrite (load_for_attach_eq _ _ _ _ Hr Hm). cbv beta iota.
  assert (find_row (fun id r0 => message_key (m_account_id m) digest id r0
    && negb (id =? mm_message_id r)) (messages db) = None) as ->.
  { apply find_row_None. intros eid e He. unfold message_key.
    destruct (Z.eqb_spec (m_account_id e) (m_account_id m)) as [Ea|]; [|done]. simpl.
    case_bool_decide as Es; [|done]. simpl. by rewrite (Hnew eid e), Z.eqb_refl. }
  unfold record_body. rewrite Hm, Hlen. destruct (Z.ltb_spec size 0); [lia|]. simpl. intros Hwf'.
  set (m' := set_m_rfc822_sha256 digest (set_m_rfc822_size size (set_m_blob_key (Some key) m))).
  eexists. split; [done|]. match goal with |- attached _ ?d _ _ _ /\ _ => set (db' := d) in * end.
  assert (rows (mailbox_messages db') !! id = Some (body_stored r)) as Hr'.
  { unfold db'. db_simpl. by rewrite update_id_lookup, decide_True, Hr by done. }
  assert (rows (messages db') !! mm_message_id r = Some m') as Hm'.
  { unfold db'. db_simpl. by rewrite update_id_lookup, decide_True, Hm by done. }
  split; [|split; [done|]].
  - exists (body_stored r), m'. split_and!; try (done || by eexists).
    intros mid m'' H'' E1 E2. eapply (wf_message_index _ Hwf'); [done..| |done].
    unfold message_index. rewrite E1, E2. done.
  - intros id' Hid'. unfold db'. db_simpl. by rewrite update_id_lookup, decide_False by done.
Qed.

Lemma AttachBody_attaches (db : DB) (id : Z) (digest : list Z) (size : Z) (key : string)
    (r : mm_row) (m : message_row) :
  db_wf db -> content_digest digest -> length digest = 32%nat -> 0 <= size ->
  rows (mailbox_messages db) !! id = Some r -> rows (messages db) !! mm_message_id r = Some m ->
  exists db', AttachBody id digest size key db = (inr tt, db') /\ attached db db' id m digest
    /\ (forall id', id' <> id -> rows (mailbox_messages db') !! id' = rows (mailbox_messages db) !! id')
    /\ (forall eid e, rows (messages db) !! eid = Some e -> m_account_id e = m_account_id m ->
          m_rfc822_sha256 e = digest -> eid <> mm_message_id r ->
          rows (messages db') !! eid = Some e
          /\ (is_Some (rows (messages db') !! mm_message_id r) <->
              exists id' r', rows (mailbox_messages db) !! id' = Some r' /\ id' <> id
                /\ mm_message_id r' = mm_message_id r)).
Proof.
  intros Hwf Hdig Hlen Hsz Hr Hm.
  destruct (find_row (fun eid e => message_key (m_account_id m) digest eid e
    && negb (eid =? mm_message_id r)) (messages db)) as [[eid e]|] eqn:E.
  - apply find_row_Some in E as [He Hk]. unfold message_key in Hk. bool_to_prop.
    apply bool_decide_eq_true in H1.
    destruct (AttachBody_duplicate db id digest size key r m eid e) as (db' & H2 & H3 & H4 & H5 & H6); try done.
    exists db'. split_and!; try done. intros eid' e' He' Ea Es Hne.
    assert (eid' = eid) as ->; [|by rewrite He in He'; simplify_eq].
    eapply (wf_message_index _ Hwf); [done..| |done]. unfold message_index. congruence.
  - assert (forall eid e, rows (messages db) !! eid = Some e -> m_account_id e = m_account_id m ->
      m_rfc822_sha256 e = digest -> eid = mm_message_id r) as Hnew.
    { intros eid e He Ea Es. pose proof (proj1 (find_row_None _ _) E _ _ He) as Hf. cbn beta in Hf.
      unfold message_key in Hf. rewrite Ea, Z.eqb_refl, bool_decide_true in Hf by done. simpl in Hf.
      by destruct (Z.eqb_spec eid (mm_message_id r)). }
    destruct (AttachBody_fresh db id digest size key r m) as (db' & H2 & H3 & H4 & H5); try done.
    exists db'. split_and!; try done. intros eid e He Ea Es Hne. by destruct Hne, (Hnew eid e).
Qed.

(** [C23] Attaching a downloaded body succeeds for every known message row: the
    row becomes stored and points at the one message of the account with that
    content, which has a blob; no other mailbox row changes.  If the content was
    already stored under another message that message is kept as it is, and the
    placeholder goes away exactly when no other row uses it. *)
Theorem AttachBody_deduplicates (db : DB) (id : Z) (digest : list Z) (size : Z) (key : string)
    (r : mm_row) (m : message_row) :
  db_wf db -> content_digest digest -> length digest = 32%nat -> 0 <= size ->
  rows (mailbox_messages db) !! id = Some r -> rows (messages db) !! mm_message_id r = Some m ->
  exists db', AttachBody id digest size key db = (inr tt, db') /\ attached db db' id m digest
    /\ (forall id', id' <> id -> rows (mailbox_messages db') !! id' = rows (mailbox_messages db) !! id')
    /\ (forall eid e, rows (messages db) !! eid = Some e -> m_account_id e = m_account_id m ->
          m_rfc822_sha256 e = digest -> eid <> mm_message_id r ->
          rows (messages db') !! eid = Some e
          /\ (is_Some (rows (messages db') !! mm_message_id r) <->
              exists id' r', rows (mailbox_messages db) !! id' = Some r' /\ id' <> id
                /\ mm_message_id r' = mm_message_id r)).
Proof. apply AttachBody_attaches. Qed.

Definition ex_digest : list Z := repeat 7 32.
Lemma ex_db_wf : db_wf ex_db.
Proof. eapply (steps_wf (fun s => s)); [apply ex_db_reachable|apply empty_db_wf]. Qed.
Lemma ex_digest_content : content_digest ex_digest.
Proof. done. Qed.

(** Two messages with the same content: the second attach finds the first. *)
Lemma AttachBody_deduplicates_witness :
  let db1 := exec (AttachBody 1 ex_digest 1100 "k") ex_db in
  match rows (mailbox_messages db1) !! 2 with
  | Some r => match rows (messages db1) !! mm_message_id r with
    | Some m => exists db', AttachBody 2 ex_digest 1100 "k" db1 = (inr tt, db') /\ attached db1 db' 2 m ex_digest
    | None => False end
  | None => False end.
Proof.
  cbv zeta. set (db1 := exec (AttachBody 1 ex_digest 1100 "k") ex_db).
  assert (db_wf db1) as Hwf by apply (AttachBody_wf 1 ex_digest 1100 "k" ex_digest_content ex_db ex_db_wf).
  destruct (rows (mailbox_messages db1) !! 2) as [r|] eqn:Er; [|by vm_compute in Er].
  destruct (rows (messages db1) !! mm_message_id r) as [m|] eqn:Em.
  - destruct (AttachBody_deduplicates db1 2 ex_digest 1100 "k" r m Hwf ex_digest_content eq_refl ltac:(lia) Er Em)
      as (db' & H1 & H2 & _). exists db'. exact (conj H1 H2).
  - destruct (wf_mm_message _ Hwf 2 r _ Er eq_refl) as [? E]. congruence.
Defined.

(** * Claiming work *)

Section order_limit.
Context {A} (R : relation A) `{!RelDecision R, !Transitive R, !Total R}.

Lemma StronglySorted_app_inv l1 l2 x y :
  StronglySorted R (l1 ++ l2) -> x ∈ l1 -> y ∈ l2 -> R x y.
Proof.
  induction l1 as [|z l1 IH]; simpl; [by intros _ ?%elem_of_nil|].
  intros H. apply StronglySorted_inv in H as [H Hz]. rewrite elem_of_cons. intros [->|Hx] Hy; [|by apply IH].
  rewrite Forall_forall in Hz. apply Hz, elem_of_app. by right.
Qed.

(** [ORDER BY ... LIMIT n] takes [n] least elements. *)
Lemma order_limit_spec l (n : Z) :
  NoDup l -> 0 <= n ->
  let l' := LIMIT n (merge_sort R l) in
  NoDup l' /\ (forall x, x ∈ l' -> x ∈ l) /\ Z.of_nat (length l') <= n
  /\ (forall y, y ∈ l -> y ∉ l' -> Z.of_nat (length l') = n /\ forall x, x ∈ l' -> R x y).
Proof.
  intros Hnd Hn l'.
  pose proof (merge_sort_Permutation R l) as Hp.
  assert (StronglySorted R (merge_sort R l)) as Hs by (apply StronglySorted_merge_sort; done).
  unfold l', LIMIT. split_and!.
  - eapply sublist_NoDup; [|apply sublist_take]. by rewrite Hp.
  - intros x Hx. rewrite <- Hp. eapply elem_of_sublist; [exact Hx|apply sublist_take].
  - rewrite length_take. lia.
  - intros y Hy Hny. rewrite <- Hp in Hy. rewrite <- (take_drop (Z.to_nat n) (merge_sort R l)) in Hy, Hs.
    apply elem_of_app in Hy as [?|Hy]; [done|]. split; [|intros x Hx; by eapply StronglySorted_app_inv].
    assert (length (drop (Z.to_nat n) (merge_sort R l)) <> 0%nat).
    { intros H0%length_zero_iff_nil. rewrite H0 in Hy. by apply elem_of_nil in Hy. }
    rewrite length_drop in H. rewrite length_take. lia.
Qed.
End order_limit.

#[export] Instance newest_first_trans : Transitive newest_first.
Proof. unfold newest_first. intros ???. lia. Qed.
#[export] Instance newest_first_total : Total newest_first.
Proof. unfold newest_first. intros ??. lia. Qed.
#[export] Instance oldest_first_trans : Transitive oldest_first.
Proof. unfold oldest_first. intros ???. lia. Qed.
#[export] Instance oldest_first_total : Total oldest_first.
Proof. unfold oldest_first. intros ??. lia. Qed.

Lemma NoDup_select_full {R} p (t : table R) : NoDup (select p t).
Proof. unfold select. apply NoDup_filter, NoDup_map_to_list. Qed.

Lemma pending_body_row db kr : db_wf db -> rows (mailbox_messages db) !! kr.1 = Some kr.2 ->
  exists b, pending_body db kr = Some b /\ pb_MailboxMessageID b = kr.1.
Proof.
  intros Hwf Hr. destruct (wf_mm_message _ Hwf _ _ _ Hr eq_refl) as [m Hm].
  unfold pending_body. rewrite Hm. simpl. eexists. split; [done|done].
Qed.

Lemma pending_bodies_ids db l : db_wf db ->
  (forall kr, kr ∈ l -> rows (mailbox_messages db) !! kr.1 = Some kr.2) ->
  map pb_MailboxMessageID (omap (pending_body db) l) = l.*1.
Proof.
  intros Hwf. induction l as [|kr l IH]; intros Hl; [done|].
  destruct (pending_body_row db kr Hwf) as (b & Hb & Eb); [apply Hl; left|].
  csimpl. rewrite Hb. cbn [map]. rewrite Eb. f_equal. apply IH. intros kr' H. apply Hl. by right.
Qed.

Lemma ClaimPendingBodies_claims (now : Z) (locked : Z -> bool)
    (returning : list PendingBody -> list PendingBody) (mailboxID limit maxAttempts : Z) (db : DB) :
  db_wf db -> 0 <= limit -> (forall l, Permutation (returning l) l) ->
  exists out db', ClaimPendingBodies now locked returning mailboxID limit maxAttempts db = (inr out, db')
    /\ Z.of_nat (length out) <= limit /\ NoDup (map pb_MailboxMessageID out)
    /\ (forall b, b ∈ out -> exists r, rows (mailbox_messages db) !! pb_MailboxMessageID b = Some r
          /\ claimable mailboxID maxAttempts (pb_MailboxMessageID b) r = true
          /\ locked (pb_MailboxMessageID b) = false
          /\ mm_upstream_uid r = Some (pb_UpstreamUID b) /\ mm_body_attempts r = pb_Attempts b)
    /\ (forall id, rows (mailbox_messages db') !! id =
          if decide (id ∈ map pb_MailboxMessageID out)
          then start_fetching now <$> rows (mailbox_messages db) !! id
          else rows (mailbox_messages db) !! id)
    /\ (forall id r uid, rows (mailbox_messages db) !! id = Some r ->
          claimable mailboxID maxAttempts id r = true -> locked id = false -> mm_upstream_uid r = Some uid ->
          id ∉ map pb_MailboxMessageID out ->
          Z.of_nat (length out) = limit /\ forall b, b ∈ out -> uid <= pb_UpstreamUID b).
Proof.
  intros Hwf Hlim Hret. unfold ClaimPendingBodies.
  set (free := filter (fun kr => locked kr.1 = false) (select (claimable mailboxID maxAttempts) (mailbox_messages db))).
  assert (NoDup free) as Hnd by (apply NoDup_filter, NoDup_select_full).
  destruct (order_limit_spec newest_first free limit Hnd Hlim) as (_ & Hsub & Hlen & Hfull).
  change (LIMIT limit (merge_sort newest_first free)) with (claimed_rows locked mailboxID limit maxAttempts db) in *.
  set (claimed := claimed_rows locked mailboxID limit maxAttempts db) in *.
  assert (forall kr, kr ∈ free -> rows (mailbox_messages db) !! kr.1 = Some kr.2
    /\ claimable mailboxID maxAttempts kr.1 kr.2 = true /\ locked kr.1 = false) as Hfree.
  { intros [id r]. unfold free. rewrite list_elem_of_filter, elem_of_select. simpl. tauto. }
  set (out := returning (omap (pending_body db) claimed)).
  assert (Permutation (map pb_MailboxMessageID out) claimed.*1) as Hids.
  { unfold out. rewrite Hret, pending_bodies_ids; [done|done|]. intros kr Hkr. apply Hfree. by apply Hsub. }
  assert (length out = length claimed) as Hlo.
  { apply Permutation_length in Hids. by rewrite length_map, length_fmap in Hids. }
  assert (NoDup claimed.*1) as Hnd1.
  { pose proof (NoDup_select (claimable mailboxID maxAttempts) (mailbox_messages db)) as H.
    apply NoDup_fmap_2_strong; [|by destruct (order_limit_spec newest_first free limit Hnd Hlim)].
    intros [i1 r1] [i2 r2] H1 H2. simpl. intros ->.
    apply Hsub, Hfree in H1 as [H1 _]. apply Hsub, Hfree in H2 as [H2 _]. simpl in *. congruence. }
  assert (forall b, b ∈ out -> exists kr, kr ∈ claimed /\ pending_body db kr = Some b) as Hout.
  { intros b. unfold out. rewrite Hret, list_elem_of_omap. naive_solver. }
  exists out. eexists. split; [done|]. split_and!.
  - by rewrite Hlo.
  - by rewrite Hids.
  - intros b ([id r] & Hkr & Hb)%Hout. apply Hsub, Hfree in Hkr as (Hr & Hc & Hl). simpl in *.
    unfold pending_body in Hb. simpl in Hb. destruct (rows (messages db) !! _); [|done].
    injection Hb as <-. simpl. exists r. split_and!; try done.
    unfold claimable in Hc. bool_to_prop. apply bool_decide_eq_true in H1. by destruct (mm_upstream_uid r).
  - intros id. db_simpl. rewrite lookup_update_where.
    destruct (rows (mailbox_messages db) !! id) as [r|]; simpl; [|by case_decide].
    rewrite (bool_decide_ext _ (id ∈ map pb_MailboxMessageID out)) by (by rewrite Hids).
    by case_decide; [rewrite bool_decide_true|rewrite bool_decide_false].
  - intros id r uid Hr Hc Hl Hu Hni. rewrite Hids in Hni.
    destruct (Hfull (id, r)) as [Hf Hle].
    + unfold free. apply list_elem_of_filter. split; [done|]. by apply elem_of_select.
    + intros H. apply Hni. by apply (list_elem_of_fmap_2 fst) in H.
    + split; [by rewrite Hlo|]. intros b (kr & Hkr & Hb)%Hout. specialize (Hle _ Hkr).
      unfold newest_first in Hle. simpl in Hle. rewrite Hu in Hle. simpl in Hle.
      unfold pending_body in Hb. destruct (rows (messages db) !! _); [|done]. injection Hb as <-. done.
Qed.

(** [C18] Claiming bodies takes at most [limit] rows, each pending, on the server,
    under the attempt limit and not held by another worker; exactly those become
    'fetching', and every other row is untouched.  A row that could have been
    claimed and was not means the batch was full, of rows at least as new. *)
Theorem ClaimPendingBodies_exclusive (now : Z) (locked : Z -> bool)
    (returning : list PendingBody -> list PendingBody) (mailboxID limit maxAttempts : Z) (db : DB) :
  db_wf db -> 0 <= limit -> (forall l, Permutation (returning l) l) ->
  exists out db', ClaimPendingBodies now locked returning mailboxID limit maxAttempts db = (inr out, db')
    /\ Z.of_nat (length out) <= limit /\ NoDup (map pb_MailboxMessageID out)
    /\ (forall b, b ∈ out -> exists r, rows (mailbox_messages db) !! pb_MailboxMessageID b = Some r
          /\ claimable mailboxID maxAttempts (pb_MailboxMessageID b) r = true
          /\ locked (pb_MailboxMessageID b) = false
          /\ mm_upstream_uid r = Some (pb_UpstreamUID b) /\ mm_body_attempts r = pb_Attempts b)
    /\ (forall id, rows (mailbox_messages db') !! id =
          if decide (id ∈ map pb_MailboxMessageID out)
          then start_fetching now <$> rows (mailbox_messages db) !! id
          else rows (mailbox_messages db) !! id)
    /\ (forall id r uid, rows (mailbox_messages db) !! id = Some r ->
          claimable mailboxID maxAttempts id r = true -> locked id = false -> mm_upstream_uid r = Some uid ->
          id ∉ map pb_MailboxMessageID out ->
          Z.of_nat (length out) = limit /\ forall b, b ∈ out -> uid <= pb_UpstreamUID b).
Proof. apply ClaimPendingBodies_claims. Qed.

Lemma ClaimPendingBodies_exclusive_witness :
  fst (ClaimPendingBodies 5 (fun _ => false) (fun l => l) 1 2 5 ex_db)
    = inr [mk_PendingBody 3 3 13 1300 0; mk_PendingBody 2 2 12 1200 0]
  /\ exists out db', ClaimPendingBodies 5 (fun _ => false) (fun l => l) 1 2 5 ex_db = (inr out, db')
       /\ NoDup (map pb_MailboxMessageID out).
Proof.
  split; [by vm_compute|].
  destruct (ClaimPendingBodies_exclusive 5 (fun _ => false) (fun l => l) 1 2 5 ex_db ex_db_wf ltac:(lia)
    ltac:(done)) as (out & db' & H1 & _ & H2 & _).
  by exists out, db'.
Defined.

(** * Failures and abandoned claims *)

Lemma update_mm_lookup id f db : rows (mailbox_messages (update_mm (id_is id) f db)) !! id
  = f <$> rows (mailbox_messages db) !! id.
Proof. db_simpl. by rewrite update_id_lookup, decide_True. Qed.

Lemma iter_body_failed text maxAttempts n r :
  mm_body_attempts (Nat.iter n (body_failed text maxAttempts) r) = mm_body_attempts r + Z.of_nat n.
Proof. induction n as [|n IH]; simpl; [lia|]. rewrite IH. lia. Qed.

(** A body that keeps failing is retried only up to the limit: after [n]
    failures its row has counted [n] more attempts and is failed exactly if the
    limit is reached, otherwise back in the queue; a row that can still be
    claimed has attempts left.  A claim abandoned by a dead worker (older than
    the threshold) goes back to the queue, without an attempt being counted. *)
Theorem body_attempts_bounded (db : DB) (id : Z) (r : mm_row) (cause : err) (maxAttempts : Z) (n : nat) :
  rows (mailbox_messages db) !! id = Some r ->
  let db' := Nat.iter (S n) (exec (MarkBodyFailed id cause maxAttempts)) db in
  (exists r', rows (mailbox_messages db') !! id = Some r'
     /\ mm_body_attempts r' = mm_body_attempts r + Z.of_nat (S n)
     /\ mm_body_state r' = (if maxAttempts <=? mm_body_attempts r + Z.of_nat (S n) then BodyFailed else BodyPending)
     /\ (forall mb id', claimable mb maxAttempts id' r' = true ->
           mm_body_attempts r + Z.of_nat (S n) < maxAttempts))
  /\ (forall now olderThan t, mm_body_state r = BodyFetching -> mm_claimed_at r = Some t -> t < now - olderThan ->
        rows (mailbox_messages (exec (ReapStaleClaims now olderThan) db)) !! id = Some (back_to_pending r)).
Proof.
  intros Hr. cbv zeta. split.
  - assert (forall k, rows (mailbox_messages (Nat.iter k (exec (MarkBodyFailed id cause maxAttempts)) db)) !! id
      = Some (Nat.iter k (body_failed (err_text cause) maxAttempts) r)) as H.
    { induction k as [|k IH]; [done|]. rewrite !Nat.iter_succ.
      unfold exec at 1, MarkBodyFailed at 1, modify. cbn [snd]. by rewrite update_mm_lookup, IH. }
    eexists. split; [apply H|]. split; [apply iter_body_failed|].
    assert (mm_body_state (Nat.iter (S n) (body_failed (err_text cause) maxAttempts) r)
      = if maxAttempts <=? mm_body_attempts r + Z.of_nat (S n) then BodyFailed else BodyPending) as Hst.
    { simpl. rewrite iter_body_failed. by replace (mm_body_attempts r + Z.of_nat n + 1)
        with (mm_body_attempts r + Z.pos (Pos.of_succ_nat n)) by lia. }
    split; [exact Hst|]. intros mb id' Hc. unfold claimable in Hc. rewrite iter_body_failed in Hc. zlia.
  - intros now olderThan t Hst Ht Hlt. unfold exec, ReapStaleClaims. cbn [snd]. db_simpl.
    rewrite lookup_update_where, Hr. simpl. unfold stale_claim. rewrite Hst, Ht. simpl.
    by destruct (Z.ltb_spec t (now - olderThan)); [|lia].
Qed.

Lemma body_attempts_bounded_witness :
  let db' := Nat.iter 3 (exec (MarkBodyFailed 1 ErrEOF 3)) ex_db in
  mm_body_state <$> rows (mailbox_messages db') !! 1 = Some BodyFailed
  /\ exists r', rows (mailbox_messages db') !! 1 = Some r' /\ mm_body_attempts r' = 3.
Proof.
  cbv zeta. split; [by vm_compute|].
  destruct (body_attempts_bounded ex_db 1 (new_mm (ex_meta 11) 1 1) ErrEOF 3 2 ltac:(by vm_compute))
    as [(r' & H1 & H2 & _) _].
  exists r'. split; [exact H1|exact H2].
Defined.

(** * Checkpoints *)

Lemma update_mailbox_lookup id f db id' : rows (mailboxes (update_mailbox id f db)) !! id'
  = if decide (id' = id) then f <$> rows (mailboxes db) !! id' else rows (mailboxes db) !! id'.
Proof. apply update_id_lookup. Qed.

(** Saving a checkpoint in the middle of a pass leaves UIDNEXT, HIGHESTMODSEQ
    and the last full scan alone; only a finished pass writes them.  Neither ever
    moves the enumeration mark or the modification sequence backwards, clears a
    local counter, or touches another mailbox. *)
Theorem SaveCheckpoint_monotone (now : Z) (mb : Z) (c : Checkpoint) (db : DB) (r : mailbox_row) :
  rows (mailboxes db) !! mb = Some r ->
  exists r', rows (mailboxes (exec (SaveCheckpoint now mb c) db)) !! mb = Some r'
    /\ mb_uidvalidity r' = Some (cp_UIDValidity c) /\ mb_resync_required r' = false
    /\ mb_metadata_synced_through_uid r <= mb_metadata_synced_through_uid r'
    /\ cp_MetadataSyncedThroughUID c <= mb_metadata_synced_through_uid r'
    /\ (mb_local_uidnext r', mb_sync_generation r', mb_canonical_name r')
       = (mb_local_uidnext r, mb_sync_generation r, mb_canonical_name r)
    /\ (if cp_FullScanCompleted c
        then mb_uidnext r' = Some (cp_UIDNext c) /\ mb_last_full_scan_at r' = Some now
             /\ exists m, mb_highestmodseq r' = Some m /\ COALESCE (mb_highestmodseq r) 0 <= m
                  /\ cp_HighestModSeq c <= m
        else (mb_uidnext r', mb_highestmodseq r', mb_last_full_scan_at r')
             = (mb_uidnext r, mb_highestmodseq r, mb_last_full_scan_at r))
    /\ (forall mb', mb' <> mb -> rows (mailboxes (exec (SaveCheckpoint now mb c) db)) !! mb'
          = rows (mailboxes db) !! mb').
Proof.
  intros Hr. unfold exec, SaveCheckpoint, modify. cbn [snd].
  exists ((if cp_FullScanCompleted c then save_full_scan now c else save_mid_pass c) r).
  split; [by rewrite update_mailbox_lookup, decide_True, Hr by done|].
  assert (forall mb', mb' <> mb -> forall f, rows (mailboxes (update_mailbox mb f db)) !! mb' = rows (mailboxes db) !! mb') as Hne
    by (intros; by rewrite update_mailbox_lookup, decide_False by done).
  destruct (cp_FullScanCompleted c); simpl; split_and!; try done; try lia; try (by intros; apply Hne).
  eexists. split; [done|]. lia.
Qed.

Lemma SaveCheckpoint_monotone_witness :
  mb_highestmodseq <$> rows (mailboxes (exec (SaveCheckpoint 9 1 (mk_Checkpoint 3 14 50 13 false)) ex_db)) !! 1
    = Some None
  /\ exists r', rows (mailboxes (exec (SaveCheckpoint 9 1 (mk_Checkpoint 3 14 50 13 true)) ex_db)) !! 1 = Some r'
       /\ mb_uidnext r' = Some 14.
Proof.
  split; [by vm_compute|].
  destruct (rows (mailboxes ex_db) !! 1) as [r|] eqn:E; [|by vm_compute in E].
  destruct (SaveCheckpoint_monotone 9 1 (mk_Checkpoint 3 14 50 13 true) ex_db r E)
    as (r' & H1 & _ & _ & _ & _ & _ & [H2 _] & _).
  by exists r'.
Defined.

(** * Relisting and renumbering a mailbox *)

(** What LIST does not report. *)
Definition sync_state (r : mailbox_row) :=
  (mb_uidvalidity r, mb_uidnext r, mb_highestmodseq r, mb_metadata_synced_through_uid r, mb_last_full_scan_at r,
   (mb_resync_required r, mb_sync_generation r, mb_local_uidnext r, mb_exists_count r, mb_unseen_count r)).

(** Listing a known mailbox again returns the same row with LIST's fields
    updated and every part of its sync checkpoint and counters preserved; other
    mailboxes are untouched. *)
Theorem UpsertMailbox_preserves_checkpoint (p : UpsertMailboxParams) (db : DB) (id : Z) (r : mailbox_row) :
  db_wf db -> rows (mailboxes db) !! id = Some r ->
  mb_account_id r = up_AccountID p -> mb_canonical_name r = up_CanonicalName p ->
  exists r' db', UpsertMailbox p db = (inr (id, r'), db')
    /\ rows (mailboxes db') !! id = Some r' /\ sync_state r' = sync_state r
    /\ (mb_name r', mb_delimiter r', mb_attributes r', mb_special_use r')
       = (up_Name p, up_Delimiter p, up_Attributes p, up_SpecialUse p)
    /\ (forall id', id' <> id -> rows (mailboxes db') !! id' = rows (mailboxes db) !! id').
Proof.
  intros Hwf Hr Ha Hc. unfold UpsertMailbox, wrap_err.
  rewrite (find_row_uniq mailbox_index (mailboxes db) _ (up_AccountID p, up_CanonicalName p) id r);
    [|by apply wf_mailbox_index|done| |].
  - eexists _, _. split; [done|]. rewrite update_mailbox_lookup, decide_True, Hr by done.
    split; [done|]. split; [done|]. split; [done|]. intros id' Hid. by rewrite update_mailbox_lookup, decide_False.
  - unfold mailbox_key. by rewrite Ha, Hc, Z.eqb_refl, String.eqb_refl.
  - intros ? r' H. unfold mailbox_key in H. bool_to_prop. apply String.eqb_eq in H0. unfold mailbox_index. by rewrite H, H0.
Qed.

Lemma UpsertMailbox_preserves_checkpoint_witness :
  exists r' db', UpsertMailbox (mk_UpsertMailboxParams 1 "Inbox" "inbox" None [] None) ex_db = (inr (1, r'), db')
    /\ mb_local_uidnext r' = 4.
Proof.
  destruct (rows (mailboxes ex_db) !! 1) as [r|] eqn:E; [|by vm_compute in E].
  destruct (UpsertMailbox_preserves_checkpoint (mk_UpsertMailboxParams 1 "Inbox" "inbox" None [] None) ex_db 1 r
    ex_db_wf E) as (r' & db' & H1 & H2 & H3 & _); [by vm_compute in E; simplify_eq..|].
  exists r', db'. split; [done|]. injection H3 as _ _ _ _ _ _ _ -> _ _. by vm_compute in E; simplify_eq.
Defined.

(** A row that has lost its upstream UID. *)
Definition stranded (mb : Z) (r : mm_row) : Prop := mm_mailbox_id r = mb /\ mm_upstream_uid r = None.

(** After the server renumbers a mailbox, its old rows are never matched
    again: reconciling deletions removes none of them, and recording metadata for
    any UID creates a new row beside them instead of relinking one. *)
Theorem renumbered_rows_stranded (mb newv : Z) (db : DB) (id : Z) (r : mm_row) :
  db_wf db -> rows (mailbox_messages db) !! id = Some r -> mm_mailbox_id r = mb ->
  let db1 := exec (ResetForUIDValidityChange mb newv) db in
  (exists r1, rows (mailbox_messages db1) !! id = Some r1 /\ stranded mb r1
     /\ mm_message_id r1 = mm_message_id r /\ mm_local_uid r1 = mm_local_uid r /\ mm_body_state r1 = mm_body_state r)
  /\ (forall present, rows (mailbox_messages (exec (DeleteMissingUIDs mb present) db1)) !! id
        = rows (mailbox_messages db1) !! id)
  /\ (forall m id' c db2, mt_MailboxID m = mb -> UpsertMetadata m db1 = (inr (id', c), db2) ->
        c = true /\ id' <> id /\ rows (mailbox_messages db2) !! id = rows (mailbox_messages db1) !! id).
Proof.
  intros Hwf Hr Hmb. cbv zeta. set (db1 := exec (ResetForUIDValidityChange mb newv) db).
  pose proof (ResetForUIDValidityChange_wf mb newv db Hwf) as Hwf1. change (db_wf db1) in Hwf1.
  assert (forall id', rows (mailbox_messages db1) !! id' =
    (fun r => if mm_mailbox_id r =? mb then clear_upstream r else r) <$> rows (mailbox_messages db) !! id') as Hmms.
  { intros id'. replace (mailbox_messages db1)
      with (update_where (in_mailbox mb) clear_upstream (mailbox_messages db)) by reflexivity.
    by rewrite lookup_update_where. }
  assert (rows (mailbox_messages db1) !! id = Some (clear_upstream r)) as Hr1
    by (rewrite Hmms, Hr; simpl; by rewrite Hmb, Z.eqb_refl).
  split; [|split].
  - exists (clear_upstream r). split; [done|]. by split_and!.
  - intros present. change (rows (delete_where (missing mb present) (mailbox_messages db1)) !! id
      = rows (mailbox_messages db1) !! id). rewrite lookup_delete_where, Hr1. simpl.
    unfold missing. simpl. by rewrite andb_false_r.
  - clearbody db1. intros m id' c db2 Hm HU. apply UpsertMetadata_inv in HU as (mid & dbA & H1 & H2).
    destruct (upsert_message_spec _ _ _ _ H1) as (_ & Emb & Emm). revert H2. unfold upsert_mailbox_message.
    rewrite Emb. destruct (rows (mailboxes db1) !! _) as [mbr|]; [|done]. cbv zeta. db_simpl.
    rewrite Emm. assert (find_row (mm_key (mt_MailboxID m) (mt_UpstreamUID m)) (mailbox_messages db1) = None) as ->.
    { apply find_row_None. intros id0 r0. rewrite Hmms. destruct (rows (mailbox_messages db) !! id0) as [x|]; [|done].
      simpl. intros [= <-]. unfold mm_key. rewrite Hm. destruct (Z.eqb_spec (mm_mailbox_id x) mb); simpl.
      - by rewrite andb_false_r.
      - by destruct (Z.eqb_spec (mm_mailbox_id x) mb). }
    destruct (insert_row _ _) as [nid t] eqn:Ei. intros [= <- <- <-].
    pose proof (wf_seq_mms _ Hwf1 _ _ Hr1). unfold insert_row in Ei. injection Ei as <- <-. db_simpl. cbn [rows].
    split; [done|]. split; [lia|]. by rewrite lookup_insert_ne by lia.
Qed.

Lemma renumbered_rows_stranded_witness :
  let db1 := exec (ResetForUIDValidityChange 1 2) (exec (AttachBody 1 ex_digest 1100 "k") ex_db) in
  mm_body_state <$> rows (mailbox_messages db1) !! 1 = Some BodyStored
  /\ rows (mailbox_messages (exec (DeleteMissingUIDs 1 (Some [])) db1)) !! 1 = rows (mailbox_messages db1) !! 1.
Proof.
  cbv zeta. split; [by vm_compute|].
  pose proof (AttachBody_wf 1 ex_digest 1100 "k" ex_digest_content ex_db ex_db_wf) as Hwf.
  assert (exists r, rows (mailbox_messages (exec (AttachBody 1 ex_digest 1100 "k") ex_db)) !! 1 = Some r
    /\ mm_mailbox_id r = 1) as (r & E & Emb) by (eexists; split; vm_compute; reflexivity).
  exact (proj1 (proj2 (renumbered_rows_stranded 1 2 _ 1 r Hwf E Emb)) (Some [])).
Defined.

(** * The mutation queue *)

(** Giving up is not final.  A change whose attempts are used up is marked
    failed, but failed changes are claimed like pending ones: once the retry time
    has come, and with no other change due, it is handed out again and its
    attempt counter keeps growing. *)
Theorem parked_mutation_is_retried (db : DB) (id : Z) (r : mutation_row) (cause : err)
    (t now delay maxAttempts limit : Z) (worker : string) :
  rows (pending_mutations db) !! id = Some r -> maxAttempts <= pm_attempts r -> 0 < limit -> t + delay <= now ->
  (forall id' r', rows (pending_mutations db) !! id' = Some r' -> id' <> id ->
     due now (pm_account_id r) id' r' = false) ->
  let db1 := exec (MutationFailed t id cause delay maxAttempts) db in
  pm_status <$> rows (pending_mutations db1) !! id = Some MutFailed
  /\ exists mu db2, ClaimDueMutations now (fun _ => false) (fun l => l) (pm_account_id r) limit worker db1 = (inr [mu], db2)
       /\ mu_ID mu = id /\ mu_Attempts mu = pm_attempts r + 1.
Proof.
  intros Hr Hmax Hlim Hnow Hothers. cbv zeta.
  set (r1 := set_pm_status MutFailed (set_pm_next_attempt_at (Some (t + delay))
    (set_pm_last_error (Some (err_text cause)) (unlock r)))).
  set (db1 := exec (MutationFailed t id cause delay maxAttempts) db).
  assert (forall id', rows (pending_mutations db1) !! id' = if decide (id' = id) then Some r1
    else rows (pending_mutations db) !! id') as H1.
  { intros id'. unfold db1, exec, MutationFailed, modify. cbn [snd]. db_simpl. rewrite update_id_lookup.
    case_decide as E; [|done]. subst. rewrite Hr. simpl. unfold r1. by destruct (Z.leb_spec maxAttempts (pm_attempts r)); [|lia]. }
  assert (rows (pending_mutations db1) !! id = Some r1) as Hr1 by (by rewrite H1, decide_True).
  split; [by rewrite Hr1|]. clearbody db1.
  assert (select (due now (pm_account_id r)) (pending_mutations db1) = [(id, r1)]) as Hsel.
  { pose proof (NoDup_select_full (due now (pm_account_id r)) (pending_mutations db1)) as Hnd.
    assert (forall kr, kr ∈ select (due now (pm_account_id r)) (pending_mutations db1) <-> kr = (id, r1)) as Hin.
    { intros [id' r']. rewrite elem_of_select, H1. split.
      - case_decide as E; [subst; by intros [[= <-] _]|]. intros [Hr' Hd]. by rewrite (Hothers _ _ Hr' E) in Hd.
      - intros [= -> ->]. rewrite decide_True by done. split; [done|]. unfold due.
        change (pm_account_id r1) with (pm_account_id r). change (pm_next_attempt_at r1) with (Some (t + delay)).
        rewrite Z.eqb_refl, bool_decide_true by (by right). by apply Z.leb_le. }
    destruct (select _ _) as [|x [|y l]]; [pose proof (proj2 (Hin _) eq_refl) as H0; by apply elem_of_nil in H0| |].
    - f_equal. apply Hin. left.
    - exfalso. assert (x = y) as -> by (transitivity (id, r1); [|symmetry]; apply Hin; [left|right; left]).
      apply NoDup_cons in Hnd as [Hnd _]. apply Hnd. left. }
  unfold ClaimDueMutations, due_rows. rewrite Hsel.
  rewrite filter_cons, filter_nil, decide_True by done. unfold LIMIT.
  destruct (Z.to_nat limit) as [|n] eqn:En; [lia|].
  eexists _, _. split.
  - cbn. rewrite take_nil. reflexivity.
  - done.
Qed.

(** The example's queue: a change that has failed eight times. *)
Definition ex_payload (flags : list string) : FlagPayload := mk_FlagPayload 11 "INBOX" flags.
Definition ex_hash (s : string) : string := s.
Definition ex_enqueue (now : Z) (flags : list string) : sql unit :=
  EnqueueMutation ex_hash now 1 1 MutationStoreFlags (ex_payload flags).
Definition ex_claim (now : Z) : sql (list Mutation) :=
  ClaimDueMutations now (fun _ => false) (fun l => l) 1 50 "worker".
Definition ex_exhausted : DB :=
  Nat.iter 8 (fun db => exec (MutationFailed 0 1 ErrEOF 1 8) (exec (ex_claim 10) db)) (exec (ex_enqueue 0 []) ex_db).

Lemma parked_mutation_is_retried_witness :
  pm_status <$> rows (pending_mutations ex_exhausted) !! 1 = Some MutFailed
  /\ exists mu db2, ex_claim 10 (exec (MutationFailed 0 1 ErrEOF 1 8) ex_exhausted) = (inr [mu], db2)
       /\ mu_Attempts mu = 9.
Proof.
  split; [by vm_compute|].
  assert (exists r, rows (pending_mutations ex_exhausted) !! 1 = Some r /\ pm_attempts r = 8 /\ pm_account_id r = 1)
    as (r & E & Ea & Eb) by (eexists; split; [vm_compute; reflexivity|split; vm_compute; reflexivity]).
  destruct (parked_mutation_is_retried ex_exhausted 1 r ErrEOF 0 10 1 8 50 "worker" E) as (_ & mu & db2 & H1 & _ & H2).
  - lia.
  - lia.
  - lia.
  - intros id' r' H Hne. exfalso. apply Hne.
    apply elem_of_map_to_list, (list_elem_of_fmap_2 fst) in H.
    assert (map fst (map_to_list (rows (pending_mutations ex_exhausted))) = [1]) as Eids by (vm_compute; reflexivity).
    change (id' ∈ map fst (map_to_list (rows (pending_mutations ex_exhausted)))) in H.
    rewrite Eids in H. by apply list_elem_of_singleton in H.
  - rewrite Eb in H1. exists mu, db2. split; [exact H1|by rewrite H2, Ea].
Defined.

(** Re-queueing a change after a newer one on the same message keeps its old
    place: of the changes set, cleared and set again, the replay order ends with
    the cleared state, so the user's last state is not the one left upstream. *)
Theorem requeued_mutation_replayed_first :
  let db1 := exec (ex_enqueue 3 [seen_flag]) (exec (ex_enqueue 2 []) (exec (ex_enqueue 1 [seen_flag]) ex_db)) in
  exists mu1 mu2 db2, ex_claim 10 db1 = (inr [mu1; mu2], db2)
    /\ mu_Payload mu1 = ex_payload [seen_flag] /\ mu_Payload mu2 = ex_payload [].
Proof. cbv zeta. eexists _, _, _. split; [vm_compute; reflexivity|]. by split. Qed.

(** * Sign-in sessions *)

(** A token resolves to a user exactly while its session is unexpired and
    not revoked, and then to the session's own user; signing out ends that at
    once and for every later time. *)
Theorem UserForSession_live (db : DB) (now : Z) (tok : list Z) (sid : Z) (s : session_row) :
  db_wf db -> rows (sessions db) !! sid = Some s -> se_token_hash s = tok ->
  (if bool_decide (se_revoked_at s = None) && (now <? se_expires_at s)
   then exists u db', UserForSession now tok db = (inr (se_user_id s, u), db')
          /\ rows (users db) !! se_user_id s = Some u
   else UserForSession now tok db = (inl ErrNotFound, db))
  /\ (forall now' t, UserForSession now' tok (exec (RevokeSession t tok) db)
        = (inl ErrNotFound, exec (RevokeSession t tok) db)).
Proof.
  intros Hwf Hs Htok. split.
  - unfold UserForSession. destruct (_ && _) eqn:E.
    + rewrite (find_row_uniq session_index (sessions db) _ tok sid s);
        [|by apply wf_session_index|done| |].
      * destruct (wf_session_user _ Hwf sid s _ Hs eq_refl) as [u Hu]. rewrite Hu. eauto.
      * unfold live_session. bool_to_prop. rewrite Htok, bool_decide_true, H by done. simpl. by apply Z.ltb_lt.
      * intros ? s' H. unfold live_session in H. bool_to_prop. apply bool_decide_eq_true in H.
        unfold session_index. by rewrite H.
    + assert (find_row (live_session now tok) (sessions db) = None) as ->; [|done].
      apply find_row_None. intros sid' s' Hs'. unfold live_session.
      destruct (bool_decide (se_token_hash s' = tok)) eqn:Et; [apply bool_decide_eq_true in Et|done].
      assert (sid' = sid) as -> by (apply (wf_session_index _ Hwf sid' sid s' s tok); [done|done| |]; unfold session_index; congruence).
      by simplify_eq.
  - intros now' t. unfold UserForSession.
    assert (find_row (live_session now' tok) (sessions (exec (RevokeSession t tok) db)) = None) as ->; [|done].
    apply find_row_None. intros sid' s'.
    change (sessions (exec (RevokeSession t tok) db))
      with (update_where (token_key tok) (set_se_revoked_at (Some t)) (sessions db)).
    rewrite lookup_update_Some. intros (x & Hx & ->). unfold live_session, token_key.
    destruct (bool_decide (se_token_hash x = tok)) eqn:Et; simpl; [|by rewrite Et].
    by rewrite andb_false_r.
Qed.

Definition ex_session_db : DB := exec (CreateSession 0 1 [9; 9] "web" "agent" "addr" 100) ex_db.
Lemma UserForSession_live_witness :
  fst (UserForSession 50 [9; 9] ex_session_db) = inr (1, mk_user "alice@example.org" "hash" false None 0)
  /\ UserForSession 60 [9; 9] (exec (RevokeSession 55 [9; 9]) ex_session_db)
     = (inl ErrNotFound, exec (RevokeSession 55 [9; 9]) ex_session_db).
Proof.
  split; [by vm_compute|].
  pose proof (CreateSession_wf 0 1 [9; 9] "web" "agent" "addr" 100 ex_db ex_db_wf) as Hwf.
  assert (exists s, rows (sessions ex_session_db) !! 1 = Some s /\ se_token_hash s = [9; 9])
    as (s & E & Et) by (eexists; split; vm_compute; reflexivity).
  exact (proj2 (UserForSession_live ex_session_db 50 [9; 9] 1 s Hwf E Et) 60 55).
Defined.

(** * Which accounts are synced *)

#[export] Instance least_recent_first_trans : Transitive least_recent_first.
Proof. unfold least_recent_first. intros ???. simpl. lia. Qed.
#[export] Instance least_recent_first_total : Total least_recent_first.
Proof. unfold least_recent_first. intros ??. simpl. lia. Qed.

(** The SQL filter of the background sync agrees with [Account.Active]: the
    list holds exactly the active accounts, the one synced longest ago first, and
    an account whose credentials were refused drops out until they change. *)
Theorem ListSyncableAccounts_active (db : DB) :
  (exists l, ListSyncableAccounts db = (inr l, db)
     /\ (forall a, a ∈ l <-> rows (mail_accounts db) !! a.1 = Some a.2 /\ Account_Active a = true)
     /\ StronglySorted least_recent_first l)
  /\ (forall now id e a, rows (mail_accounts (exec (SetAccountSyncResult now id e true) db)) !! id = Some a ->
        Account_Active (id, a) = false).
Proof.
  split.
  - eexists. split; [done|]. split.
    + intros [id r]. rewrite (merge_sort_Permutation least_recent_first). apply elem_of_select.
    + apply StronglySorted_merge_sort; apply _.
  - intros now id e a. change (mail_accounts _) with (update_where (id_is id) (fun r =>
      set_ac_last_sync_at (Some now) (set_ac_last_sync_error (err_text <$> e)
        (set_ac_auth_state "auth_failed" r))) (mail_accounts db)).
    rewrite update_id_lookup, decide_True by done. destruct (rows (mail_accounts db) !! id); [|done].
    simpl. intros [= <-]. unfold Account_Active. simpl. by rewrite andb_false_r.
Qed.

(** * Listings *)

#[export] Instance uid_order_trans : Transitive uid_order.
Proof. unfold uid_order. intros ???. lia. Qed.
#[export] Instance uid_order_total : Total uid_order.
Proof. unfold uid_order. intros ??. lia. Qed.

Lemma summary_fields db ns id r m :
  let s := summary db ns id r m in
  ms_MailboxMessageID s = id /\ ms_LocalUID s = mm_local_uid r /\ ms_Flags s = mm_flags r
  /\ ms_BodyState s = mm_body_state r /\ ms_MessageID s = mm_message_id r.
Proof. unfold summary, decodeAddresses. by split_and!. Qed.

Lemma summaries_map db ns mb : db_wf db ->
  exists f, summaries ns mb db = map f (select (live_in mb) (mailbox_messages db))
    /\ forall kr, kr ∈ select (live_in mb) (mailbox_messages db) ->
         ms_MailboxMessageID (f kr) = kr.1 /\ ms_LocalUID (f kr) = mm_local_uid kr.2 /\ ms_Flags (f kr) = mm_flags kr.2
         /\ ms_BodyState (f kr) = mm_body_state kr.2.
Proof.
  intros Hwf. unfold summaries.
  exists (fun kr => match rows (messages db) !! mm_message_id kr.2 with
                    | Some m => summary db ns kr.1 kr.2 m
                    | None => summary db ns kr.1 kr.2 (new_message (ex_meta 0) []) end).
  assert (forall kr, kr ∈ select (live_in mb) (mailbox_messages db) ->
    is_Some (rows (messages db) !! mm_message_id kr.2)) as Hm.
  { intros [id r] [H _]%elem_of_select. by apply (wf_mm_message _ Hwf id r _ H). }
  split.
  - induction (select (live_in mb) (mailbox_messages db)) as [|kr l IH]; [done|].
    csimpl. destruct (Hm kr) as [m ->]; [left|]. simpl. f_equal. apply IH. intros. apply Hm. by right.
  - intros kr Hkr. destruct (Hm _ Hkr) as [m ->].
    destruct (summary_fields db ns kr.1 kr.2 m) as (? & ? & ? & ? & ?). done.
Qed.

Lemma summaries_rows ns db mb id uid fl st : db_wf db ->
  (exists s, s ∈ summaries ns mb db /\ (ms_MailboxMessageID s, ms_LocalUID s, ms_Flags s, ms_BodyState s) = (id, uid, fl, st))
  <-> exists r, rows (mailbox_messages db) !! id = Some r /\ live_in mb id r = true
        /\ (mm_local_uid r, mm_flags r, mm_body_state r) = (uid, fl, st).
Proof.
  intros Hwf. destruct (summaries_map db ns mb Hwf) as (f & Ef & Hf). rewrite Ef. split.
  - intros (s & Hs & E). apply list_elem_of_fmap in Hs as ([i r] & -> & Hin).
    destruct (Hf _ Hin) as (E1 & E2 & E3 & E4). apply elem_of_select in Hin as [Hr Hl].
    simpl in *. exists r. split_and!; congruence.
  - intros (r & Hr & Hl & E). assert ((id, r) ∈ select (live_in mb) (mailbox_messages db)) as Hin by (by apply elem_of_select).
    destruct (Hf _ Hin) as (E1 & E2 & E3 & E4). exists (f (id, r)). split; [by apply (list_elem_of_fmap_2 f)|].
    simpl in *. congruence.
Qed.
Lemma summaries_distinct ns db mb : db_wf db -> NoDup (map ms_MailboxMessageID (summaries ns mb db)).
Proof.
  intros Hwf. destruct (summaries_map db ns mb Hwf) as (f & Ef & Hf). rewrite Ef.
  change (NoDup (ms_MailboxMessageID <$> (f <$> select (live_in mb) (mailbox_messages db)))).
  rewrite <- list_fmap_compose. pose proof (NoDup_select (live_in mb) (mailbox_messages db)) as Hd.
  erewrite list_fmap_ext; [exact Hd|]. intros i kr Hkr. apply (Hf kr). by eapply list_elem_of_lookup_2.
Qed.

Lemma StronglySorted_strict {A} (f : A -> Z) l :
  StronglySorted (fun a b => f a <= f b) l -> NoDup (map f l) -> StronglySorted (fun a b => f a < f b) l.
Proof.
  induction 1 as [|x l Hl IH Hx]; [constructor|]. simpl. rewrite NoDup_cons. intros [Hn Hnd].
  constructor; [by apply IH|]. rewrite Forall_forall in Hx |- *. intros y Hy.
  specialize (Hx y Hy). assert (f x <> f y); [|lia]. intros E. apply Hn. rewrite E. by apply (list_elem_of_fmap_2 f).
Qed.

(** The listing by UID, whatever the offset. *)
Definition uid_listing (mb : Z) (db : DB) : list MessageSummary := merge_sort uid_order (summaries "" mb db).

Lemma uid_listing_eq mb off db :
  ListMessagesByUID mb 0 off db = (inr (uid_listing mb db, Z.of_nat (length (uid_listing mb db))), db).
Proof. unfold ListMessagesByUID. fold (uid_listing mb db). simpl. unfold with_total. by destruct (uid_listing mb db). Qed.

Lemma uid_listing_perm mb db : Permutation (uid_listing mb db) (summaries "" mb db).
Proof. apply merge_sort_Permutation. Qed.

Lemma uid_listing_sorted db mb : db_wf db ->
  StronglySorted (fun a b => ms_LocalUID a < ms_LocalUID b) (uid_listing mb db).
Proof.
  intros Hwf. destruct (summaries_map db "" mb Hwf) as (f & Ef & Hf).
  apply StronglySorted_strict; [apply (StronglySorted_merge_sort uid_order)|].
  rewrite uid_listing_perm, Ef. change (NoDup (ms_LocalUID <$> (f <$> select (live_in mb) (mailbox_messages db)))).
  rewrite <- list_fmap_compose. apply NoDup_fmap_2_strong; [|apply NoDup_select_full].
  intros [i1 r1] [i2 r2] H1 H2. simpl. intros E.
  destruct (Hf _ H1) as (_ & E1 & _). destruct (Hf _ H2) as (_ & E2 & _). simpl in *.
  apply elem_of_select in H1 as [H1 L1]. apply elem_of_select in H2 as [H2 L2].
  unfold live_in in *. bool_to_prop.
  assert (i1 = i2) as -> by (eapply (wf_local_index _ Hwf i1 i2 r1 r2); [done|done|done|];
    unfold local_index; congruence).
  congruence.
Qed.

Lemma uid_listing_distinct db mb : db_wf db -> NoDup (map ms_MailboxMessageID (uid_listing mb db)).
Proof.
  intros Hwf. change (NoDup (ms_MailboxMessageID <$> uid_listing mb db)). rewrite uid_listing_perm. by apply summaries_distinct.
Qed.

Lemma uid_listing_rows db mb id uid fl st : db_wf db ->
  (exists s, s ∈ uid_listing mb db /\ (ms_MailboxMessageID s, ms_LocalUID s, ms_Flags s, ms_BodyState s) = (id, uid, fl, st))
  <-> exists r, rows (mailbox_messages db) !! id = Some r /\ live_in mb id r = true
        /\ (mm_local_uid r, mm_flags r, mm_body_state r) = (uid, fl, st).
Proof. intros Hwf. setoid_rewrite uid_listing_perm. by apply summaries_rows. Qed.

(** The sequence-number view of a mailbox: its live messages, all of them and
    nothing else, in strictly increasing order of local UID, with the total equal
    to their number; a page is the corresponding slice of that list. *)
Theorem ListMessagesByUID_complete (db : DB) (mb : Z) :
  db_wf db ->
  exists l, (forall off, ListMessagesByUID mb 0 off db = (inr (l, Z.of_nat (length l)), db))
    /\ StronglySorted (fun a b => ms_LocalUID a < ms_LocalUID b) l
    /\ (forall id uid fl st,
          (exists s, s ∈ l /\ (ms_MailboxMessageID s, ms_LocalUID s, ms_Flags s, ms_BodyState s) = (id, uid, fl, st))
          <-> exists r, rows (mailbox_messages db) !! id = Some r /\ live_in mb id r = true
                /\ (mm_local_uid r, mm_flags r, mm_body_state r) = (uid, fl, st))
    /\ (forall lim off, 0 < lim -> 0 <= off -> exists total,
          ListMessagesByUID mb lim off db = (inr (take (Z.to_nat lim) (drop (Z.to_nat off) l), total), db)).
Proof.
  intros Hwf. exists (uid_listing mb db). split_and!.
  - intros off. apply uid_listing_eq.
  - by apply uid_listing_sorted.
  - intros. by apply uid_listing_rows.
  - intros lim off Hlim Hoff. unfold ListMessagesByUID. fold (uid_listing mb db).
    destruct (Z.ltb_spec 0 lim); [|lia]. destruct (Z.ltb_spec off 0); [lia|].
    unfold with_total, page, LIMIT. eauto.
Qed.

Lemma ListMessagesByUID_complete_witness :
  match fst (ListMessagesByUID 1 2 1 ex_db) with
  | inr (l, total) => (map ms_LocalUID l, total) = ([2; 3], 3)
  | inl _ => False
  end
  /\ exists l, ListMessagesByUID 1 0 0 ex_db = (inr (l, Z.of_nat (length l)), ex_db)
       /\ StronglySorted (fun a b => ms_LocalUID a < ms_LocalUID b) l.
Proof.
  split; [vm_compute; reflexivity|].
  destruct (ListMessagesByUID_complete ex_db 1 ex_db_wf) as (l & H1 & H2 & _).
  exists l. exact (conj (H1 0) H2).
Defined.
