(* ===== verification/Upstream.v ===== *)
(** The upstream connection (internal/upstream): commands under a deadline,
    streaming of message bodies, and the self-healing session on top.

    The IMAP client library, the network and the clock are the world [W]; what a
    session needs of a connection is the interface [Connection]. *)
From S2P Require Import Prelude GoStrings Retry.
From Stdlib Require Import String.
From stdpp Require Import strings.
Open Scope string_scope.
Open Scope Z_scope.

(** * Mailboxes as LIST reports them *)

Record MailboxInfo := mk_MailboxInfo {
  mi_Name : string;
  mi_Delimiter : option ascii;
  mi_Attributes : list string
}.

Definition special_uses : list string :=
  ["\Sent"; "\Drafts"; "\Trash"; "\Junk"; "\Archive"; "\All"; "\Flagged"].

(** The first role attribute, or the empty string. *)
Fixpoint first_special (attrs : list string) : string :=
  match attrs with
  | [] => ""
  | a :: attrs => if bool_decide (a ∈ special_uses) then a else first_special attrs
  end.
Definition SpecialUse (m : MailboxInfo) : string := first_special (mi_Attributes m).

Definition Selectable (m : MailboxInfo) : bool :=
  forallb (fun a => negb (String.eqb a "\Noselect" || String.eqb a "\NonExistent")) (mi_Attributes m).

Record SelectedMailbox := mk_SelectedMailbox {
  sm_Name : string;
  sm_NumMessages : Z;
  sm_UIDValidity : Z;
  sm_UIDNext : Z;
  sm_HighestModSeq : Z;
  sm_ReadOnly : bool
}.

(** * Commands under a deadline *)

(** [checkUsable] *)
Definition checkUsable (poisoned : bool) : option err := if poisoned then Some ErrPoisoned else None.

(** [withDeadline].  [before] and [after] are [ctx.Err()] when the call starts
    and when it has returned; [result] is what the library call returned.  The
    context firing closes the connection and poisons the client. *)
Definition withDeadline {A} (before after : option err) (remaining : string) (result : err + A)
    (poisoned : bool) : (err + A) * bool :=
  match before with
  | Some e => (inl e, poisoned)
  | None =>
      let poisoned := poisoned || bool_decide (is_Some after) in
      match result, after with
      | inl _, Some cause => (inl (ErrWrap "" cause (" after " ++ remaining)), poisoned)
      | r, _ => (r, poisoned)
      end
  end.

(** The shape Select, ListMailboxes, FetchMetadata, SearchAllUIDs and StoreFlags
    share: refuse a poisoned connection, run under the deadline, classify. *)
Definition command {A} (what : string) (before after : option err) (remaining : string)
    (result : err + A) (poisoned : bool) : (err + A) * bool :=
  match checkUsable poisoned with
  | Some e => (inl e, poisoned)
  | None =>
      match withDeadline before after remaining result poisoned with
      | (inl e, poisoned) => (inl (ErrWrap what (classify e) ""), poisoned)
      | r => r
      end
  end.

(** * Message bodies *)

Inductive fetch_item :=
| ItemUID (uid : Z)
| ItemRFC822Size (size : Z)
| ItemBodySection (literal : option bytes).

(** The handler gets the UID, the literal's size and the reader; it returns an
    error and how many octets it read.  [W] is whatever it changes. *)
Record body_state (W : Type) := mk_body_state {
  bs_uid : Z;
  bs_size : Z;
  bs_handled : bool;
  bs_err : option err;
  bs_drained : Z;       (* octets of literals taken off the connection *)
  bs_world : W
}.
Arguments mk_body_state {W}.
Arguments bs_uid {W}.
Arguments bs_size {W}.
Arguments bs_handled {W}.
Arguments bs_err {W}.
Arguments bs_drained {W}.
Arguments bs_world {W}.

Section bodies.
Context {W : Type} (maxSize : Z) (handler : Z -> Z -> bytes -> W -> option err * W).

Definition literal_size (data : bytes) : Z := Z.of_nat (length data).

Definition handle_item (st : body_state W) (item : fetch_item) : body_state W :=
  match item with
  | ItemUID uid => mk_body_state uid (bs_size st) (bs_handled st) (bs_err st) (bs_drained st) (bs_world st)
  | ItemRFC822Size size =>
      mk_body_state (bs_uid st) size (bs_handled st) (bs_err st) (bs_drained st) (bs_world st)
  | ItemBodySection None => st
  | ItemBodySection (Some data) =>
      let n := literal_size data in
      if (0 <? maxSize) && (maxSize <? n) then
        mk_body_state (bs_uid st) (bs_size st) true
          (Some (ErrWrap "" ErrMessageTooLarge (": " ++ Itoa n ++ " bytes"))) (bs_drained st + n) (bs_world st)
      else
        let size := if bs_size st =? 0 then n else bs_size st in
        let '(e, w) := handler (bs_uid st) n data (bs_world st) in
        mk_body_state (bs_uid st) size true (match e with Some e => Some e | None => bs_err st end)
          (bs_drained st + n) w
  end.

Definition handleBodyMessage (items : list fetch_item) (w : W) : option err * W :=
  let st := fold_left handle_item items (mk_body_state 0 0 false None 0 w) in
  if negb (bs_handled st) && bool_decide (bs_err st = None) then (None, bs_world st)
  else (bs_err st, bs_world st).

(** The loop of [FetchBodies]: it stops at the first message with an error; the
    deferred Close drains the rest of the response unseen. *)
Fixpoint fetch_loop (msgs : list (list fetch_item)) (w : W) : option err * W :=
  match msgs with
  | [] => (None, w)
  | items :: msgs =>
      match handleBodyMessage items w with
      | (Some e, w) => (Some e, w)
      | (None, w) => fetch_loop msgs w
      end
  end.

(** [FetchBodies] on the messages of the response; [close] is what the final
    Close reports. *)
Definition FetchBodies (before after : option err) (remaining : string) (msgs : list (list fetch_item))
    (close : option err) (poisoned : bool) (w : W) : option err * bool * W :=
  match checkUsable poisoned with
  | Some e => (Some e, poisoned, w)
  | None =>
      match before with
      | Some e => (Some e, poisoned, w)
      | None =>
          let '(e, w) := fetch_loop msgs w in
          let result := match e with
                        | Some e => inl e
                        | None => match close with
                                  | Some e => inl (ErrWrap "fetching bodies: " (classify e) "")
                                  | None => inr tt
                                  end
                        end in
          match withDeadline None after remaining result poisoned with
          | (inl e, poisoned) => (Some e, poisoned, w)
          | (inr _, poisoned) => (None, poisoned, w)
          end
      end
  end.
End bodies.

(** * The session *)

(** What a session asks of the world: dialling and authenticating, SELECT on a
    client, whether a client is poisoned, closing one, the context, and the wait
    between attempts (false when the context ended it). *)
Class Connection (W C : Type) := {
  connect : W -> (err + C) * W;
  select_mailbox : C -> string -> bool -> W -> (err + SelectedMailbox) * W;
  poisoned : C -> W -> bool;
  close_client : C -> W -> W;
  ctx_err : W -> option err;
  wait : Z -> W -> bool * W
}.

(** [recoverable]: could a fresh connection plausibly succeed? *)
Definition recoverable (e : err) : bool :=
  if err_is e ErrCanceled then false
  else if bool_decide (SeverityOf e = FatalAccount \/ SeverityOf e = FatalMailbox) then false
  else if err_is e ErrPoisoned || err_is e ErrEOF || err_is e ErrUnexpectedEOF
          || err_is e ErrNetClosed || err_is e ErrDeadlineExceeded then true
  else as_net e.

Section session.
Context {W C : Type} `{Connection W C}.

Record Session := mk_Session {
  se_client : option C;
  se_selected : string;
  se_readOnly : bool
}.

Definition NewSession : Session := mk_Session None "" false.
Definition set_client (c : option C) (s : Session) : Session := mk_Session c (se_selected s) (se_readOnly s).

(** The second half of [ensureConnected]: dial, and restore the mailbox the caller
    had open. *)
Definition dial (s : Session) (w : W) : (err + C) * Session * W :=
  match connect w with
  | (inl e, w) => (inl e, s, w)
  | (inr c, w) =>
      if String.eqb (se_selected s) "" then (inr c, set_client (Some c) s, w) else
      match select_mailbox c (se_selected s) (se_readOnly s) w with
      | (inl e, w) => (inl (ErrWrap ("reopening " ++ se_selected s ++ " after reconnecting: ") e ""),
                       s, close_client c w)
      | (inr _, w) => (inr c, set_client (Some c) s, w)
      end
  end.

Definition ensureConnected (s : Session) (w : W) : (err + C) * Session * W :=
  match se_client s with
  | Some c =>
      if negb (poisoned c w) then (inr c, s, w)
      else dial (set_client None s) (close_client c w)
  | None => dial s w
  end.

Definition discard (s : Session) (w : W) : Session * W :=
  match se_client s with
  | Some c => (set_client None s, close_client c w)
  | None => (s, w)
  end.

Definition Close (s : Session) (w : W) : Session * W := discard s w.

Section do.
Context {A : Type} (rand : Z -> Z) (base max : Z) (op : string) (fn : C -> W -> (err + A) * W).

Definition failed_after (attempts : Z) (e : err) : err :=
  ErrWrap (op ++ " failed after " ++ Itoa attempts ++ " attempts: ") e "".

Definition waitBeforeRetry (attempt : Z) (w : W) : bool * W := wait (Backoff rand attempt base max) w.

(** The loop of [Do]; [n] attempts are left. *)
Fixpoint Do_loop (n : nat) (attempt attempts : Z) (lastErr : err) (s : Session) (w : W)
    : (err + A) * Session * W :=
  match n with
  | O => (inl (failed_after attempts lastErr), s, w)
  | S n =>
      match ctx_err w with
      | Some e => (inl e, s, w)
      | None =>
          match ensureConnected s w with
          | (inl e, s, w) =>
              if bool_decide (SeverityOf e = FatalAccount) then (inl e, s, w) else
              match waitBeforeRetry attempt w with
              | (false, w) => (inl (failed_after attempts e), s, w)
              | (true, w) => Do_loop n (attempt + 1) attempts e s w
              end
          | (inr c, s, w) =>
              match fn c w with
              | (inr x, w) => (inr x, s, w)
              | (inl e, w) =>
                  if negb (recoverable e) then (inl e, s, w) else
                  let '(s, w) := discard s w in
                  match waitBeforeRetry attempt w with
                  | (false, w) => (inl (failed_after attempts e), s, w)
                  | (true, w) => Do_loop n (attempt + 1) attempts e s w
                  end
              end
          end
      end
  end.

Definition Do (RetryMaxAttempts : Z) (s : Session) (w : W) : (err + A) * Session * W :=
  let attempts := if RetryMaxAttempts <? 1 then 1 else RetryMaxAttempts in
  Do_loop (Z.to_nat attempts) 1 attempts (ErrText "") s w.
End do.

(** [Session.Select]: the mailbox is remembered only on success. *)
Definition Session_Select (rand : Z -> Z) (base max RetryMaxAttempts : Z) (name : string) (readOnly : bool)
    (s : Session) (w : W) : (err + SelectedMailbox) * Session * W :=
  match Do rand base max ("select " ++ name) (fun c => select_mailbox c name readOnly) RetryMaxAttempts s w with
  | (inl e, s, w) => (inl e, s, w)
  | (inr sel, s, w) => (inr sel, mk_Session (se_client s) name readOnly, w)
  end.
End session.
Arguments Session C : clear implicits.

(** * Sessions run commands on the mailbox they were asked to open *)

Section open_mailbox.
Context {W C A : Type} `{Connection W C}.
(** [opened c w name ro]: client [c] has [name] selected in world [w]. *)
Context (opened : C -> W -> string -> bool -> bool).
Context (select_opens : forall c name ro w sel w',
  select_mailbox c name ro w = (inr sel, w') -> opened c w' name ro = true).

(** The session's client has the session's mailbox open. *)
Definition session_inv (s : Session C) (w : W) : Prop :=
  match se_client s with
  | Some c => se_selected s <> "" -> opened c w (se_selected s) (se_readOnly s) = true
  | None => True
  end.

Lemma dial_inv s w r s' w' :
  se_client s = None -> dial s w = (r, s', w') ->
  se_selected s' = se_selected s /\ se_readOnly s' = se_readOnly s
  /\ match r with inl _ => se_client s' = None | inr c => se_client s' = Some c /\ session_inv s' w' end.
Proof.
  unfold dial. intros Hc. destruct (connect w) as [[e|c] w1]; [by intros [= <- <- <-]|].
  destruct (String.eqb_spec (se_selected s) "") as [E|E].
  - intros [= <- <- <-]. unfold session_inv. simpl. split_and!; done.
  - destruct (select_mailbox c _ _ w1) as [[e|sel] w2] eqn:Es; intros [= <- <- <-]; [done|].
    unfold session_inv. simpl. split_and!; try done. intros _. by eapply select_opens.
Qed.

Lemma ensureConnected_inv s w r s' w' :
  session_inv s w -> ensureConnected s w = (r, s', w') ->
  se_selected s' = se_selected s /\ se_readOnly s' = se_readOnly s
  /\ match r with inl _ => se_client s' = None | inr c => se_client s' = Some c /\ session_inv s' w' end.
Proof.
  unfold ensureConnected. intros Hinv. destruct (se_client s) as [c|] eqn:Ec; [|by apply dial_inv].
  destruct (negb (poisoned c w)).
  - intros [= <- <- <-]. by rewrite Ec.
  - intros Hd. by apply dial_inv in Hd.
Qed.

Context (rand : Z -> Z) (base max : Z) (op : string) (fn : C -> W -> (err + A) * W).

(** [fn], refusing to run unless the mailbox is open. *)
Definition guarded (name : string) (ro : bool) (c : C) (w : W) : (err + A) * W :=
  if String.eqb name "" || opened c w name ro then fn c w else (inl (ErrText "no mailbox"), w).

Lemma Do_loop_guarded n attempt attempts lastErr s w :
  session_inv s w ->
  Do_loop rand base max op fn n attempt attempts lastErr s w
  = Do_loop rand base max op (guarded (se_selected s) (se_readOnly s)) n attempt attempts lastErr s w.
Proof.
  revert attempt lastErr s w. induction n as [|n IH]; intros attempt lastErr s w Hinv; [done|].
  cbn [Do_loop]. destruct (ctx_err w); [done|].
  destruct (ensureConnected s w) as [[[e|c] s1] w1] eqn:Ee;
    apply ensureConnected_inv in Ee as (Esel & Ero & Hs1); try done.
  - case_bool_decide; [done|]. destruct (waitBeforeRetry rand base max attempt w1) as [[] w2]; [|done].
    rewrite <- Esel, <- Ero. apply IH. unfold session_inv. by rewrite Hs1.
  - destruct Hs1 as [Ec Hinv1]. unfold guarded at 1.
    assert (String.eqb (se_selected s) "" || opened c w1 (se_selected s) (se_readOnly s) = true) as ->.
    { destruct (String.eqb_spec (se_selected s) "") as [|Hne]; [done|]. simpl.
      unfold session_inv in Hinv1. rewrite Ec, Esel, Ero in Hinv1. by apply Hinv1. }
    destruct (fn c w1) as [[e|x] w2]; [|done].
    destruct (negb (recoverable e)); [done|]. unfold discard. rewrite Ec.
    destruct (waitBeforeRetry rand base max attempt (close_client c w2)) as [[] w3]; [|done].
    rewrite <- Esel, <- Ero. change (se_selected s1) with (se_selected (set_client None s1)).
    change (se_readOnly s1) with (se_readOnly (set_client None s1)). by apply IH.
Qed.
End open_mailbox.

(** * A scripted server

    Dialling and SELECT always succeed and nothing is cancelled; the [k]-th call
    of the command answers [outcome k].  The world counts calls and dials. *)

Section scripted_session.
Context {A : Type} (outcome : nat -> err + A) (rand : Z -> Z) (base max : Z) (op : string).

Notation script := (nat * nat)%type.

#[local] Instance scripted_connection : Connection script unit := {
  connect w := (inr tt, (w.1, S w.2));
  select_mailbox _ name ro w := (inr (mk_SelectedMailbox name 0 1 1 0 ro), w);
  poisoned _ _ := false;
  close_client _ w := w;
  ctx_err _ := None;
  wait _ w := (true, w)
}.

Definition scripted_call (c : unit) (w : script) : (err + A) * script := (outcome w.1, (S w.1, w.2)).

(** The outcomes after which [Do] does not dial again. *)
Definition settles (k : nat) : Prop :=
  match outcome k with inr _ => True | inl e => recoverable e = false end.

Definition outcome_error (k : nat) : err :=
  match outcome k with inl e => e | inr _ => ErrText "" end.

Lemma dial_scripted s w :
  exists s', dial s w = (inr tt, s', (w.1, S w.2)) /\ se_client s' = Some tt.
Proof.
  unfold dial. simpl. destruct (String.eqb (se_selected s) ""); eexists; split; done.
Qed.

Lemma Do_loop_settles n attempt attempts lastErr s k d m :
  (m < n)%nat -> se_client s = None -> settles (k + m) -> (forall j, (j < m)%nat -> ~ settles (k + j)) ->
  exists s', Do_loop rand base max op scripted_call n attempt attempts lastErr s (k, d)
    = (outcome (k + m), s', (S (k + m), S (d + m)))%nat.
Proof.
  revert attempt lastErr s k d m. induction n as [|n IH]; intros attempt lastErr s k d m Hm Hc Hf Hnf; [lia|].
  cbn [Do_loop ctx_err scripted_connection]. unfold ensureConnected. rewrite Hc.
  destruct (dial_scripted s (k, d)) as (s1 & -> & Hs1). cbn [fst snd]. unfold scripted_call at 1. cbn [fst snd].
  destruct m as [|m].
  - rewrite !Nat.add_0_r in *. unfold settles in Hf. destruct (outcome k) as [e|x]; [rewrite Hf|]; by eexists.
  - pose proof (Hnf O ltac:(lia)) as H0. rewrite Nat.add_0_r in H0. unfold settles in H0.
    destruct (outcome k) as [e|x] eqn:Ek; [|by destruct H0].
    destruct (recoverable e) eqn:Er; [|by destruct H0]. cbn [negb].
    unfold discard. rewrite Hs1. unfold waitBeforeRetry. cbn [wait scripted_connection close_client].
    replace (k + S m)%nat with (S k + m)%nat in * by lia. replace (d + S m)%nat with (S d + m)%nat by lia.
    apply IH; [lia|done|done|]. intros j Hj. replace (S k + j)%nat with (k + S j)%nat by lia. apply Hnf. lia.
Qed.

Lemma Do_loop_exhausted n attempt attempts lastErr s k d :
  (0 < n)%nat -> se_client s = None -> (forall j, (j < n)%nat -> ~ settles (k + j)) ->
  exists s', Do_loop rand base max op scripted_call n attempt attempts lastErr s (k, d)
    = (inl (failed_after op attempts (outcome_error (k + n - 1))), s', (k + n, d + n))%nat.
Proof.
  revert attempt lastErr s k d. induction n as [|n IH]; intros attempt lastErr s k d Hn Hc Hnf; [lia|].
  cbn [Do_loop ctx_err scripted_connection]. unfold ensureConnected. rewrite Hc.
  destruct (dial_scripted s (k, d)) as (s1 & -> & Hs1). cbn [fst snd]. unfold scripted_call at 1. cbn [fst snd].
  pose proof (Hnf O ltac:(lia)) as H0. rewrite Nat.add_0_r in H0. unfold settles in H0.
  destruct (outcome k) as [e|x] eqn:Ek; [|by destruct H0].
  destruct (recoverable e) eqn:Er; [|by destruct H0]. cbn [negb].
  unfold discard. rewrite Hs1. unfold waitBeforeRetry. cbn [wait scripted_connection close_client].
  destruct n as [|n].
  - cbn [Do_loop]. eexists. unfold outcome_error. replace (k + 1 - 1)%nat with k by lia. rewrite Ek.
    f_equal. f_equal; lia.
  - destruct (IH (attempt + 1) e (set_client None s1) (S k) (S d)) as [s' ->]; [lia|done| |].
    + intros j Hj. replace (S k + j)%nat with (k + S j)%nat by lia. apply Hnf. lia.
    + eexists. f_equal; [f_equal; do 3 f_equal; lia|f_equal; lia].
Qed.
End scripted_session.

(** * Properties *)

(** A session never runs a command on the wrong mailbox: if its client has
    the session's mailbox open to begin with, then running a command is the same
    as running one that refuses to act unless that mailbox is open, through every
    reconnection, whatever fails in between. *)
Theorem Do_runs_on_open_mailbox {W C A : Type} `{Connection W C}
    (opened : C -> W -> string -> bool -> bool) (rand : Z -> Z) (base max attempts : Z) (op : string)
    (fn : C -> W -> (err + A) * W) (s : Session C) (w : W) :
  (forall c name ro w sel w', select_mailbox c name ro w = (inr sel, w') -> opened c w' name ro = true) ->
  session_inv opened s w ->
  Do rand base max op fn attempts s w
  = Do rand base max op (guarded opened fn (se_selected s) (se_readOnly s)) attempts s w.
Proof. intros Hsel Hinv. unfold Do. by apply Do_loop_guarded. Qed.

(** A session rides out transient faults: each recoverable failure costs one
    reconnection and one attempt, the first success or final error is what the
    caller sees, and after the last allowed attempt the last error is reported
    with the number of attempts. *)
Theorem Do_attempts {A : Type} (outcome : nat -> err + A) (rand : Z -> Z) (base max attempts : Z) (op : string) :
  let n := Z.to_nat (Z.max 1 attempts) in
  let run := Do (H:=scripted_connection) rand base max op (scripted_call outcome) attempts NewSession (O, O) in
  (forall k, (k < n)%nat -> settles outcome k -> (forall j, (j < k)%nat -> ~ settles outcome j) ->
     exists s, run = (outcome k, s, (S k, S k)))
  /\ ((forall j, (j < n)%nat -> ~ settles outcome j) ->
     exists s, run = (inl (failed_after op (Z.max 1 attempts) (outcome_error outcome (n - 1))), s, (n, n))).
Proof.
  intros n run. unfold run, Do.
  replace (if attempts <? 1 then 1 else attempts) with (Z.max 1 attempts)
    by (destruct (Z.ltb_spec attempts 1); lia).
  fold n. split.
  - intros k Hk Hf Hnf. by apply (Do_loop_settles outcome rand base max op n 1 _ _ NewSession O O k).
  - intros Hnf. apply (Do_loop_exhausted outcome rand base max op n 1 _ _ NewSession O O); [lia|done|done].
Qed.

(** A refused SELECT leaves the session out of step: when the server drops
    the open mailbox on a failed SELECT, as the protocol says, the session keeps
    the client and still names the old mailbox, which that client no longer has
    open. *)
Theorem failed_select_leaves_session_stale {W C : Type} `{Connection W C}
    (opened : C -> W -> string -> bool -> bool) (rand : Z -> Z) (base max attempts : Z)
    (name : string) (ro : bool) (s : Session C) (c : C) (w w' : W) (e : err) :
  (forall c name ro w e w', select_mailbox c name ro w = (inl e, w') -> forall m r, opened c w' m r = false) ->
  se_client s = Some c -> poisoned c w = false -> ctx_err w = None -> se_selected s <> "" ->
  select_mailbox c name ro w = (inl e, w') -> recoverable e = false ->
  Session_Select rand base max attempts name ro s w = (inl e, s, w') /\ ~ session_inv opened s w'.
Proof.
  intros Hcl Hc Hp Hctx Hsel He Hr. split.
  - unfold Session_Select, Do. destruct (Z.to_nat _) as [|n] eqn:En; [destruct (Z.ltb_spec attempts 1); lia|].
    cbn [Do_loop]. rewrite Hctx. unfold ensureConnected. rewrite Hc, Hp. cbn [negb]. by rewrite He, Hr.
  - unfold session_inv. rewrite Hc. intros Hinv. specialize (Hinv Hsel). by rewrite (Hcl _ _ _ _ _ _ He) in Hinv.
Qed.

(** A server with one mailbox, INBOX; the world is what it has open. *)
Definition tiny_server : Connection (option string) unit := {|
  connect w := (inr tt, None);
  select_mailbox _ name ro _ :=
    if String.eqb name "INBOX" then (inr (mk_SelectedMailbox name 0 1 1 0 ro), Some name)
    else (inl (ErrUpstream FatalMailbox "NONEXISTENT" (ErrImap "NO" "NONEXISTENT" "no such mailbox")), None);
  poisoned _ _ := false;
  close_client _ _ := None;
  ctx_err _ := None;
  wait _ w := (true, w)
|}.
Definition tiny_opened (_ : unit) (w : option string) (name : string) (_ : bool) : bool :=
  bool_decide (w = Some name).

Lemma Do_runs_on_open_mailbox_witness :
  let s := mk_Session None "INBOX" false in
  let fn (_ : unit) (w : option string) : (err + option string) * option string := (inr w, w) in
  fst (fst (Do (H:=tiny_server) (fun _ => 0) 1 1 "op" fn 3 s None)) = inr (Some "INBOX")
  /\ Do (H:=tiny_server) (fun _ => 0) 1 1 "op" fn 3 s None
     = Do (H:=tiny_server) (fun _ => 0) 1 1 "op" (guarded tiny_opened fn "INBOX" false) 3 s None.
Proof.
  cbv zeta. split; [by vm_compute|].
  apply (Do_runs_on_open_mailbox (H:=tiny_server) tiny_opened); [|done].
  intros c name ro w sel w'. simpl. destruct (String.eqb_spec name "INBOX") as [->|]; [|done].
  intros [= <- <-]. done.
Defined.

Lemma failed_select_leaves_session_stale_witness :
  let s := mk_Session (Some tt) "INBOX" false in
  let e := ErrUpstream FatalMailbox "NONEXISTENT" (ErrImap "NO" "NONEXISTENT" "no such mailbox") in
  Session_Select (H:=tiny_server) (fun _ => 0) 1 1 3 "Gone" false s (Some "INBOX") = (inl e, s, None)
  /\ ~ session_inv tiny_opened s None.
Proof.
  apply (failed_select_leaves_session_stale (H:=tiny_server) tiny_opened _ _ _ _ _ _
    (mk_Session (Some tt) "INBOX" false) tt (Some "INBOX")); try done.
  intros c name ro w e w'. simpl. destruct (String.eqb_spec name "INBOX"); [done|].
  intros [= <- <-] m r. done.
Defined.

(** * Abandoned commands and message bodies *)

Section bodies_props.
Context {W : Type} (maxSize : Z) (handler : Z -> Z -> bytes -> W -> option err * W).

(** The octets of the literals among some items. *)
Definition literal_octets (items : list fetch_item) : Z :=
  foldr (fun i acc => match i with ItemBodySection (Some d) => literal_size d + acc | _ => acc end) 0 items.

Lemma handle_items_drained items st :
  bs_drained (fold_left (handle_item maxSize handler) items st) = bs_drained st + literal_octets items.
Proof.
  revert st. induction items as [|i items IH]; intros st; simpl; [lia|]. rewrite IH.
  destruct i as [u|z|[d|]]; simpl; try lia.
  destruct (_ && _); simpl; [lia|]. destruct (handler _ _ _ _). simpl. lia.
Qed.

(** A message as servers send it. *)
Definition body_message (m : Z * bytes) : list fetch_item :=
  [ItemUID m.1; ItemRFC822Size (literal_size m.2); ItemBodySection (Some m.2)].

Definition fits (m : Z * bytes) : bool := negb ((0 <? maxSize) && (maxSize <? literal_size m.2)).

(** The handler's effect on a list of messages in order. *)
Definition deliver (msgs : list (Z * bytes)) (w : W) : W :=
  fold_left (fun w m => (handler m.1 (literal_size m.2) m.2 w).2) msgs w.

Context (handler_ok : forall u n d w, (handler u n d w).1 = None).

Lemma handle_fitting m w : fits m = true ->
  handleBodyMessage maxSize handler (body_message m) w = (None, (handler m.1 (literal_size m.2) m.2 w).2).
Proof.
  unfold fits, handleBodyMessage, body_message. intros Hf. simpl. apply negb_true_iff in Hf. rewrite Hf.
  pose proof (handler_ok m.1 (literal_size m.2) m.2 w) as Hk.
  destruct (handler _ _ _ _) as [e w']. simpl in *. by subst.
Qed.
Lemma handle_oversized m w : fits m = false ->
  handleBodyMessage maxSize handler (body_message m) w
  = (Some (ErrWrap "" ErrMessageTooLarge (": " ++ Itoa (literal_size m.2) ++ " bytes")), w).
Proof.
  unfold fits, handleBodyMessage, body_message. intros Hf. simpl. apply negb_false_iff in Hf. by rewrite Hf.
Qed.

Lemma fetch_loop_fitting msgs rest w : forallb fits msgs = true ->
  fetch_loop maxSize handler (map body_message msgs ++ rest) w = fetch_loop maxSize handler rest (deliver msgs w).
Proof.
  revert w. induction msgs as [|m msgs IH]; intros w; [done|]. simpl. rewrite andb_true_iff. intros [H1 H2].
  rewrite handle_fitting by done. by apply IH.
Qed.
End bodies_props.

(** Downloading a batch hands over the messages in order and keeps the
    connection in step.  Messages within the size limit reach the handler with
    their UID, size and octets; the first message over the limit does not, and
    ends the batch with the too-large error, so that no later message of the
    response is handed over, whatever its size.  The octets taken off the
    connection are always exactly those of the literals sent. *)
Theorem FetchBodies_delivers {W : Type} (maxSize : Z) (handler : Z -> Z -> bytes -> W -> option err * W) (w : W) :
  (forall u n d w, (handler u n d w).1 = None) ->
  (forall msgs, forallb (fits maxSize) msgs = true ->
     FetchBodies maxSize handler None None "" (map body_message msgs) None false w
     = (None, false, deliver handler msgs w))
  /\ (forall good bad rest, forallb (fits maxSize) good = true -> fits maxSize bad = false ->
     exists e, FetchBodies maxSize handler None None "" (map body_message (good ++ bad :: rest)) None false w
       = (Some e, false, deliver handler good w) /\ err_is e ErrMessageTooLarge = true)
  /\ (forall items st, bs_drained (fold_left (handle_item maxSize handler) items st)
       = bs_drained st + literal_octets items).
Proof.
  intros Hok. split; [|split].
  - intros msgs Hf. unfold FetchBodies. simpl. rewrite <- (app_nil_r (map body_message msgs)).
    by rewrite fetch_loop_fitting.
  - intros good bad rest Hg Hb. eexists. unfold FetchBodies. simpl.
    rewrite map_app, fetch_loop_fitting by done. simpl. rewrite handle_oversized by done.
    split; [done|]. simpl. done.
  - apply handle_items_drained.
Qed.

Lemma FetchBodies_delivers_witness :
  exists e, FetchBodies 2 (fun u _ _ w => (None, w ++ [u])%list) None None ""
    (map body_message [(11, ["a"%char]); (12, ["a"; "b"; "c"]%char); (13, ["z"%char])]) None false []
    = (Some e, false, [11]) /\ err_is e ErrMessageTooLarge = true.
Proof.
  destruct (FetchBodies_delivers 2 (fun u _ _ w => (None, w ++ [u])%list) [] ltac:(done)) as (_ & H & _).
  apply (H [(11, ["a"%char])] (12, ["a"; "b"; "c"]%char) [(13, ["z"%char])]); reflexivity.
Defined.

(** A command cut off at its deadline is recoverable and its connection is
    never used again: the client is poisoned, the error counts as a transient
    fault, and every later command on that client is refused without touching the
    connection, which in turn makes the session reconnect. *)
Theorem abandoned_command_recoverable {A : Type} (what remaining : string) (result : err + A) (e : err) :
  result = inl e ->
  exists e', command what None (Some ErrDeadlineExceeded) remaining result false = (inl e', true)
    /\ recoverable e' = true
    /\ (forall B what' b a r (res : err + B), command what' b a r res true = (inl ErrPoisoned, true))
    /\ recoverable ErrPoisoned = true.
Proof. intros ->. eexists. split; [reflexivity|]. by split_and!. Qed.
Lemma abandoned_command_recoverable_witness :
  exists e', command (A:=unit) "selecting: " None (Some ErrDeadlineExceeded) "0s remaining" (inl ErrNetClosed) false
    = (inl e', true) /\ recoverable e' = true.
Proof.
  destruct (abandoned_command_recoverable (A:=unit) "selecting: " "0s remaining" _ ErrNetClosed eq_refl)
    as (e' & H1 & H2 & _).
  exists e'. exact (conj H1 H2).
Defined.
