(* ===== verification/Commands.v ===== *)
(** One upstream connection (internal/upstream/client.go, commands.go, dial.go,
    deadlineconn.go): opening it, the commands the sync engine issues on it, and
    the inactivity window on its reads.  What the IMAP library and the network
    answer to each call is an argument. *)
From S2P Require Import Prelude GoStrings Retry Upstream.
From Stdlib Require Import String.
From stdpp Require Import strings.
Open Scope string_scope.
Open Scope Z_scope.

(** A library call under a deadline: [ctx.Err()] before and after it, the text
    [describeDeadline] gives, and what it returned. *)
Record call (A : Type) := mk_call {
  c_before : option err;
  c_after : option err;
  c_remaining : string;
  c_result : err + A
}.
Arguments mk_call {A}.
Arguments c_before {A}.
Arguments c_after {A}.
Arguments c_remaining {A}.
Arguments c_result {A}.

(** A call the context did not touch. *)
Definition answered {A} (r : err + A) : call A := mk_call None None "" r.

Definition under_deadline {A} (c : call A) (poisoned : bool) : (err + A) * bool :=
  withDeadline (c_before c) (c_after c) (c_remaining c) (c_result c) poisoned.
Definition issue {A} (what : string) (c : call A) (poisoned : bool) : (err + A) * bool :=
  command what (c_before c) (c_after c) (c_remaining c) (c_result c) poisoned.

Definition map_result {A B} (f : A -> B) (r : err + A) : err + B :=
  match r with inl e => inl e | inr x => inr (f x) end.
Definition map_call {A B} (f : A -> B) (c : call A) : call B :=
  mk_call (c_before c) (c_after c) (c_remaining c) (map_result f (c_result c)).

(** * Messages as FETCH reports them *)

Record Address := mk_Address { ad_Name : string; ad_Mailbox : string; ad_Host : string }.

Definition Addr (a : Address) : string :=
  if String.eqb (ad_Mailbox a) "" || String.eqb (ad_Host a) "" then ""
  else ad_Mailbox a ++ "@" ++ ad_Host a.

(** [imap.Envelope]; the date is [None] when it is the zero time. *)
Record Envelope := mk_Envelope {
  en_Date : option Z;
  en_Subject : string;
  en_From : list Address;
  en_Sender : list Address;
  en_ReplyTo : list Address;
  en_To : list Address;
  en_Cc : list Address;
  en_Bcc : list Address;
  en_InReplyTo : list string;
  en_MessageID : string
}.

(** [upstream.MessageMeta], without the body structure, which the sync path
    never requests.  [fm_InternalDate] is the optional [timeValue]. *)
Record FetchedMeta := mk_FetchedMeta {
  fm_UID : Z;
  fm_Flags : list string;
  fm_Size : Z;
  fm_InternalDate : option Z;
  fm_Envelope : option Envelope;
  fm_ModSeq : Z
}.

(** [timeValue.Or] *)
Definition timeValue_Or {A} (t : option A) (fallback : A) : A := match t with Some x => x | None => fallback end.

(** * What the commands ask for *)

Inductive MetadataFields := MetadataFieldsFlags | MetadataFieldsLean | MetadataFieldsWithBodyStructure.
Definition fields_rank (f : MetadataFields) : Z :=
  match f with MetadataFieldsFlags => 0 | MetadataFieldsLean => 1 | MetadataFieldsWithBodyStructure => 2 end.

Record FetchOptions := mk_FetchOptions {
  fo_UID : bool;
  fo_Flags : bool;
  fo_RFC822Size : bool;
  fo_InternalDate : bool;
  fo_Envelope : bool;
  fo_BodyStructure : bool;
  fo_ModSeq : bool;
  fo_ChangedSince : Z
}.

Definition fetchOptions (f : MetadataFields) (changedSince : Z) : FetchOptions :=
  let lean := fields_rank MetadataFieldsLean <=? fields_rank f in
  let changed := 0 <? changedSince in
  mk_FetchOptions true true lean lean lean
    (fields_rank f =? fields_rank MetadataFieldsWithBodyStructure)
    changed (if changed then changedSince else 0).

(** [collectMeta]: the buffer go-imap collects, or its error. *)
Record FetchBuffer := mk_FetchBuffer {
  fb_UID : Z;
  fb_Flags : list string;
  fb_RFC822Size : Z;
  fb_InternalDate : option Z;
  fb_Envelope : option Envelope;
  fb_ModSeq : Z
}.
Definition collectMeta (collected : err + FetchBuffer) : err + FetchedMeta :=
  map_result (fun b => mk_FetchedMeta (fb_UID b) (fb_Flags b) (fb_RFC822Size b) (fb_InternalDate b)
    (fb_Envelope b) (fb_ModSeq b)) collected.

(** The loop over the response, stopping at the first message that cannot be
    collected, then the final Close. *)
Fixpoint collect_all (msgs : list (err + FetchBuffer)) (close : option err) (out : list FetchedMeta)
    : err + list FetchedMeta :=
  match msgs with
  | [] => match close with Some e => inl e | None => inr out end
  | m :: msgs =>
      match collectMeta m with
      | inl e => inl e
      | inr meta => collect_all msgs close (out ++ [meta])
      end
  end.

(** * Commands *)

(** What SELECT's response carries. *)
Record SelectData := mk_SelectData {
  sd_NumMessages : Z;
  sd_UIDValidity : Z;
  sd_UIDNext : Z;
  sd_HighestModSeq : Z
}.
Definition selected_mailbox (name : string) (readOnly : bool) (d : SelectData) : SelectedMailbox :=
  mk_SelectedMailbox name (sd_NumMessages d) (sd_UIDValidity d) (sd_UIDNext d)
    (if negb (sd_HighestModSeq d =? 0) then sd_HighestModSeq d else 0) readOnly.
Definition Select (name : string) (readOnly : bool) (c : call SelectData) (poisoned : bool)
    : (err + SelectedMailbox) * bool :=
  issue ("selecting mailbox " ++ Quote name ++ ": ") (map_call (selected_mailbox name readOnly) c) poisoned.

Record ListData := mk_ListData { ld_Mailbox : string; ld_Delim : option ascii; ld_Attrs : list string }.
Definition list_info (d : ListData) : MailboxInfo := mk_MailboxInfo (ld_Mailbox d) (ld_Delim d) (ld_Attrs d).
Definition ListMailboxes (c : call (list ListData)) (poisoned : bool) : (err + list MailboxInfo) * bool :=
  issue "listing mailboxes: " (map_call (map list_info) c) poisoned.

(** [server] answers the FETCH it is sent: the messages and the final status. *)
Definition FetchMetadataFields {NumSet} (uids : NumSet) (changedSince : Z) (fields : MetadataFields)
    (server : NumSet -> FetchOptions -> list (err + FetchBuffer) * option err)
    (before after : option err) (remaining : string) (poisoned : bool) : (err + list FetchedMeta) * bool :=
  let '(msgs, close) := server uids (fetchOptions fields changedSince) in
  issue "fetching metadata: " (mk_call before after remaining (collect_all msgs close [])) poisoned.
Definition FetchMetadata {NumSet} (uids : NumSet) (changedSince : Z) (full : bool) :=
  FetchMetadataFields uids changedSince (if full then MetadataFieldsLean else MetadataFieldsFlags).

Definition SearchAllUIDs (c : call (list Z)) (poisoned : bool) : (err + list Z) * bool :=
  issue "searching for all UIDs: " c poisoned.

Definition StoreFlags (uid : Z) (server : Z -> list string -> call unit) (flags : list string) (poisoned : bool)
    : (err + unit) * bool :=
  issue ("setting flags on UID " ++ Itoa uid ++ ": ") (server uid flags) poisoned.

(** * Opening a connection

    The trace of what was sent and of the transport's state; [true] in the result
    means the transport is still open. *)

Inductive conn_event := Dialled | Handshake | Greeting | StartTLSUpgrade | LoginSent | CapabilitySent | LogoutSent.

Record Client := mk_Client { cl_caps : list string; cl_poisoned : bool }.

(** What the network and the server do during [Connect]. *)
Record connect_env := mk_connect_env {
  ce_dial : option err;
  ce_handshake : option err;
  ce_greeting : call unit;      (* WaitGreeting, or NewStartTLS *)
  ce_login : call unit;
  ce_cached_caps : list string; (* what go-imap already knows *)
  ce_capability : call (list string)
}.

Definition authenticate (username : string) (c : call unit) (poisoned : bool) : (err + unit) * bool :=
  match under_deadline c poisoned with
  | (inl e, p) => (inl (ErrWrap ("authenticating as " ++ username ++ ": ") (classify e) ""), p)
  | r => r
  end.

(** The capabilities, and whether the server was asked. *)
Definition refreshCaps (cached : list string) (c : call (list string)) (poisoned : bool)
    : (err + list string) * bool * bool :=
  match cached with
  | _ :: _ => (inr cached, poisoned, false)
  | [] => let '(r, p) := under_deadline c poisoned in (r, p, true)
  end.

(** [Client.Close]: the events it adds; the transport is closed in every case. *)
Definition Client_Close (poisoned : bool) : list conn_event := if poisoned then [] else [LogoutSent].

Definition Connect (host addr username : string) (tls_mode : string) (env : connect_env)
    : (err + Client) * bool * list conn_event :=
  match ce_dial env with
  | Some e => (inl (ErrWrap ("dialling " ++ addr ++ ": ") e ""), false, [])
  | None =>
      let handshake := String.eqb tls_mode "tls" in
      match (if handshake then ce_handshake env else None) with
      | Some e => (inl (ErrWrap ("TLS handshake with " ++ host ++ ": ") e ""), false, [Dialled])
      | None =>
          let trace := (Dialled :: if handshake then [Handshake] else [])%list in
          let starttls := String.eqb tls_mode "starttls" in
          match under_deadline (ce_greeting env) false with
          | (inl e, _) =>
              (inl (ErrWrap ((if starttls then "starting TLS with " else "waiting for greeting from ")
                             ++ host ++ ": ") e ""), false, trace)
          | (inr _, p) =>
              let trace := (trace ++ Greeting :: if starttls then [StartTLSUpgrade] else [])%list in
              match authenticate username (ce_login env) p with
              | (inl e, p) => (inl e, false, trace ++ LoginSent :: Client_Close p)%list
              | (inr _, p) =>
                  let trace := (trace ++ [LoginSent])%list in
                  match refreshCaps (ce_cached_caps env) (ce_capability env) p with
                  | (inl e, p, _) => (inl e, false, trace ++ CapabilitySent :: Client_Close p)%list
                  | (inr caps, p, asked) =>
                      (inr (mk_Client caps p), negb p,
                       trace ++ if asked : bool then [CapabilitySent] else [])%list
                  end
              end
          end
      end
  end.

(** * The inactivity window

    [arrivals] are the times at which the peer's bytes reach the socket; a read
    blocks until the next bytes or its deadline, whichever is first. *)

Definition touch (idle now : Z) : Z := now + idle.

Fixpoint reads (idle deadline : Z) (arrivals : list Z) : list Z * option Z :=
  match arrivals with
  | [] => ([], Some deadline)          (* nothing more comes: the deadline fires *)
  | t :: arrivals =>
      if t <? deadline then
        let '(got, stopped) := reads idle (touch idle t) arrivals in (t :: got, stopped)
      else ([], Some deadline)
  end.
Definition deadlineConn_run (idle start : Z) (arrivals : list Z) : list Z * option Z :=
  if idle <=? 0 then (arrivals, None) else reads idle (touch idle start) arrivals.

(** * Properties *)

Definition secured (trace : list conn_event) : Prop := Handshake ∈ trace \/ StartTLSUpgrade ∈ trace.

(** Opening a connection leaks nothing and sends the password only where the
    account allows: a failed [Connect] leaves the transport closed, and with the
    modes tls and starttls the login is sent only on a secured transport. *)
Theorem Connect_safe (host addr username tls_mode : string) (env : connect_env) :
  let '(r, open, trace) := Connect host addr username tls_mode env in
  match r with inl _ => open = false | inr c => open = negb (cl_poisoned c) /\ LoginSent ∈ trace end
  /\ (tls_mode = "tls" \/ tls_mode = "starttls" ->
      forall before after, trace = (before ++ LoginSent :: after)%list -> secured before).
Proof.
  destruct (Connect _ _ _ _ _) as [[r open] trace] eqn:E. unfold Connect, secured in *.
  assert (forall (b : list conn_event) x a t, (b ++ x :: a = t)%list -> x ∈ t) as Hin.
  { intros b x a t <-. apply elem_of_app. right. left. }
  destruct (ce_dial env).
  { simplify_eq. split; [done|]. intros _ b a H. by apply symmetry, app_nil in H as [_ ?]. }
  destruct (if String.eqb tls_mode "tls" then _ else _).
  { simplify_eq. split; [done|]. intros _ b a H. symmetry in H. apply Hin in H. set_solver. }
  destruct (under_deadline (ce_greeting env) false) as [[e|[]] p].
  { simplify_eq. split; [done|]. intros _ b a H. symmetry in H. apply Hin in H.
    destruct (String.eqb tls_mode "tls"); set_solver. }
  assert (forall l rest before after, LoginSent ∉ l -> (l ++ rest = before ++ LoginSent :: after)%list ->
    Handshake ∈ l \/ StartTLSUpgrade ∈ l -> Handshake ∈ before \/ StartTLSUpgrade ∈ before)%list as Hpre.
  { intros l rest b a Hl [(k & -> & Hk)|(k & -> & _)]%app_eq_inv; [|set_solver].
    destruct k as [|x k]; [by rewrite app_nil_r|]. injection Hk as <- _. set_solver. }
  set (l := ((Dialled :: if String.eqb tls_mode "tls" then [Handshake] else [])
      ++ Greeting :: if String.eqb tls_mode "starttls" then [StartTLSUpgrade] else [])%list) in *.
  assert (LoginSent ∉ l) as Hl.
  { unfold l. destruct (String.eqb tls_mode "tls"), (String.eqb tls_mode "starttls"); set_solver. }
  assert (tls_mode = "tls" \/ tls_mode = "starttls" -> Handshake ∈ l \/ StartTLSUpgrade ∈ l) as Hs.
  { intros [-> | ->]; unfold l; simpl; set_solver. }
  clearbody l.
  destruct (authenticate username (ce_login env) p) as [[e|[]] p'].
  { simplify_eq. split; [done|]. intros Hm b a H. eapply Hpre; eauto. }
  destruct (refreshCaps _ _ _) as [[[e|caps] p''] asked]; simplify_eq.
  - split; [done|]. intros Hm b a H. rewrite <- ?app_assoc in H. eapply Hpre; eauto.
  - split; [split; [done|set_solver]|]. intros Hm b a H. rewrite <- ?app_assoc in H. eapply Hpre; eauto.
Qed.

(** Consecutive times are less than [idle] apart. *)
Fixpoint gaps_below (idle last : Z) (arrivals : list Z) : bool :=
  match arrivals with
  | [] => true
  | t :: arrivals => (t - last <? idle) && gaps_below idle t arrivals
  end.

Lemma last_cons (t d : Z) l : List.last (t :: l) d = List.last l t.
Proof.
  revert t d. induction l as [|z l IH]; intros t d; [done|].
  change (List.last (z :: l) d = List.last (z :: l) t). by rewrite !IH.
Qed.

Lemma reads_all idle last arrivals :
  gaps_below idle last arrivals = true ->
  reads idle (touch idle last) arrivals = (arrivals, Some (touch idle (List.last arrivals last))).
Proof.
  revert last. induction arrivals as [|t l IH]; intros last; [done|]. cbn [gaps_below reads].
  intros [H1 H2]%andb_true_iff. apply Z.ltb_lt in H1. unfold touch at 1.
  destruct (Z.ltb_spec t (last + idle)); [|lia]. by rewrite (IH t H2), last_cons.
Qed.

Lemma reads_stalled idle last got next rest :
  gaps_below idle last got = true -> idle <= next - List.last got last ->
  reads idle (touch idle last) (got ++ next :: rest)%list = (got, Some (touch idle (List.last got last))).
Proof.
  revert last. induction got as [|t l IH]; intros last.
  - intros _ Hn. cbn [app reads List.last] in *. unfold touch. destruct (Z.ltb_spec next (last + idle)); [lia|done].
  - cbn [gaps_below app reads]. intros [H1 H2]%andb_true_iff Hn. apply Z.ltb_lt in H1. unfold touch at 1.
    destruct (Z.ltb_spec t (last + idle)); [|lia].
    rewrite last_cons in *. by rewrite (IH t H2 Hn).
Qed.

(** The inactivity window bounds silence, not transfers: bytes whose gaps all
    stay below the window are delivered whatever the total time, and a peer that
    goes silent is given up exactly one window after its last byte, with
    everything before it delivered. *)
Theorem deadlineConn_idle (idle start : Z) (got : list Z) :
  0 < idle -> gaps_below idle start got = true ->
  deadlineConn_run idle start got = (got, Some (List.last got start + idle))
  /\ forall next rest, idle <= next - List.last got start ->
       deadlineConn_run idle start (got ++ next :: rest)%list = (got, Some (List.last got start + idle)).
Proof.
  intros Hi Hg. unfold deadlineConn_run. destruct (Z.leb_spec idle 0); [lia|]. split.
  - by rewrite reads_all.
  - intros next rest Hn. by rewrite reads_stalled.
Qed.
Lemma deadlineConn_idle_witness :
  deadlineConn_run 60 0 [50; 100; 150; 200; 500] = ([50; 100; 150; 200], Some 260).
Proof.
  exact (proj2 (deadlineConn_idle 60 0 [50; 100; 150; 200] eq_refl eq_refl) 500 [] ltac:(cbn; lia)).
Defined.
