(* ===== verification/Blob.v ===== *)
(** The content-addressed object store (internal/blob): keys, the interface, the
    in-memory implementation and the filesystem implementation. *)
From S2P Require Import Prelude GoStrings Retry.
From Stdlib Require Import String.
From stdpp Require Import strings fin_maps.
Open Scope string_scope.
Open Scope Z_scope.

(** * Keys *)

Definition TypeRFC822 : string := "rfc822".
Definition TypeMIMEPart : string := "mime_part".
Definition Type_Valid (t : string) : bool := String.eqb t TypeRFC822 || String.eqb t TypeMIMEPart.

(** [hex.EncodeToString] on bytes 0..255. *)
Fixpoint hex_encode (digest : list Z) : string :=
  match digest with
  | [] => ""
  | b :: digest => String (hex_digit (Z.to_nat (b / 16)))
                     (String (hex_digit (Z.to_nat (b mod 16))) (hex_encode digest))
  end.

Definition hex_value (c : ascii) : option Z :=
  let n := Z.of_nat (nat_of_ascii c) in
  if (48 <=? n) && (n <=? 57) then Some (n - 48)
  else if (97 <=? n) && (n <=? 102) then Some (n - 87)
  else if (65 <=? n) && (n <=? 70) then Some (n - 55)
  else None.

(** [hex.DecodeString]; odd lengths and other characters are errors. *)
Fixpoint hex_decode (s : string) : option (list Z) :=
  match s with
  | EmptyString => Some []
  | String a (String b s) =>
      x ← hex_value a; y ← hex_value b; l ← hex_decode s; Some (16 * x + y :: l)
  | String _ EmptyString => None
  end.

(** [strings.Cut(s, "/")] *)
Fixpoint Cut (s : string) : option (string * string) :=
  match s with
  | EmptyString => None
  | String c s =>
      if Ascii.eqb c "/"%char then Some ("", s)
      else (fun p => (String c p.1, p.2)) <$> Cut s
  end.

Definition NewKey (t : string) (digest : list Z) : string := t ++ "/" ++ hex_encode digest.
Definition Key_Type (k : string) : string := match Cut k with Some (p, _) => p | None => "" end.
Definition Key_Digest (k : string) : err + list Z :=
  match Cut k with
  | None => inl (ErrText ("malformed blob key " ++ Quote k))
  | Some (_, hexDigest) =>
      match hex_decode hexDigest with
      | Some d => inr d
      | None => inl (ErrText "encoding/hex: invalid digest")
      end
  end.
Definition Key_Valid (k : string) : bool :=
  Type_Valid (Key_Type k)
  && match Key_Digest k with inr d => (length d =? 32)%nat | inl _ => false end.

Record Info := mk_Info { in_Key : string; in_Size : Z; in_SHA256 : list Z }.

Definition blob_missing (key : string) : err := ErrWrap "" ErrBlobNotFound (": " ++ key).
Definition invalid_type (t : string) : err := ErrText ("blob: invalid object type " ++ Quote t).

(** * The interface

    What a content-addressed store promises its clients.  [S] is its state and
    [content] the bytes readable under each key. *)
Section store_interface.
Variable sha256 : bytes -> list Z.

Class BlobStore (S : Type) := {
  content : S -> string -> option bytes;
  Put : string -> bytes -> S -> (err + Info) * S;
  Get : string -> S -> err + bytes;
  GetRange : string -> Z -> Z -> S -> err + bytes;
  Stat : string -> S -> err + Info;
  Delete : string -> S -> (err + unit) * S
}.

(** The bytes [offset .. offset+length) of an object; a length of zero or less
    means to the end. *)
Definition slice (offset length : Z) (data : bytes) : bytes :=
  let data := drop (Z.to_nat offset) data in
  if length <=? 0 then data else take (Z.to_nat length) data.

Class BlobStoreLaws (S : Type) `{BlobStore S} := {
  put_ok : forall t data s, Type_Valid t = true ->
    exists s', Put t data s = (inr (mk_Info (NewKey t (sha256 data)) (Z.of_nat (length data)) (sha256 data)), s')
      /\ content s' (NewKey t (sha256 data)) = Some data
      /\ forall k, k <> NewKey t (sha256 data) -> content s' k = content s k;
  put_refused : forall t data s, Type_Valid t = false -> Put t data s = (inl (invalid_type t), s);
  get_content : forall k s data, Key_Valid k = true -> content s k = Some data -> Get k s = inr data;
  get_missing : forall k s, Key_Valid k = true -> content s k = None ->
    Get k s = inl (blob_missing k) /\ Stat k s = inl (blob_missing k);
  range_content : forall k off len s data, Key_Valid k = true -> 0 <= off -> content s k = Some data ->
    GetRange k off len s = inr (slice off len data);
  stat_content : forall k s data d, Key_Valid k = true -> content s k = Some data -> Key_Digest k = inr d ->
    Stat k s = inr (mk_Info k (Z.of_nat (length data)) d);
  delete_content : forall k s, Key_Valid k = true ->
    exists s', Delete k s = (inr tt, s') /\ content s' k = None
      /\ forall k', Key_Valid k' = true -> k' <> k -> content s' k' = content s k'
}.

(** * In memory *)

Definition MemStore : Type := gmap string bytes.
Definition NewMemStore : MemStore := ∅.

Definition Mem_Put (t : string) (data : bytes) (s : MemStore) : (err + Info) * MemStore :=
  if negb (Type_Valid t) then (inl (invalid_type t), s) else
  let digest := sha256 data in
  let key := NewKey t digest in
  (inr (mk_Info key (Z.of_nat (length data)) digest), <[key := data]> s).

Definition Mem_Get (key : string) (s : MemStore) : err + bytes :=
  match s !! key with None => inl (blob_missing key) | Some data => inr data end.

Definition Mem_GetRange (key : string) (offset len : Z) (s : MemStore) : err + bytes :=
  match s !! key with
  | None => inl (blob_missing key)
  | Some data =>
      let offset := if Z.of_nat (length data) <? offset then Z.of_nat (length data) else offset in
      let data := drop (Z.to_nat offset) data in
      inr (if (0 <? len) && (len <? Z.of_nat (length data)) then take (Z.to_nat len) data else data)
  end.

Definition Mem_Stat (key : string) (s : MemStore) : err + Info :=
  match s !! key with
  | None => inl (blob_missing key)
  | Some data =>
      match Key_Digest key with
      | inl e => inl e
      | inr digest => inr (mk_Info key (Z.of_nat (length data)) digest)
      end
  end.

Definition Mem_Delete (key : string) (s : MemStore) : (err + unit) * MemStore := (inr tt, delete key s).

Definition Mem_Len (s : MemStore) : Z := Z.of_nat (size s).

#[export] Instance Mem_BlobStore : BlobStore MemStore := {
  content s k := s !! k;
  Put := Mem_Put; Get := Mem_Get; GetRange := Mem_GetRange; Stat := Mem_Stat; Delete := Mem_Delete
}.

(** * On a filesystem

    A file is named by the components of its path under the root; temporary files
    sit beside the type directories and have names no object path has. *)

Record FSStore := mk_FSStore { files : gmap (list string) bytes; partial : option bytes }.

(** [path] *)
Definition path (key : string) : err + list string :=
  if negb (Key_Valid key) then inl (ErrText ("blob: invalid key " ++ Quote key)) else
  let hexDigest := match Cut key with Some (_, d) => d | None => "" end in
  inr [Key_Type key; substring 0 2 hexDigest; substring 2 2 hexDigest; hexDigest].

(** The operations of [Put] on the disk, in order.  [wrote] is what the copy got
    to the temporary file before it stopped. *)
Inductive put_step := CreateTemp | WriteTemp (wrote : bytes) | SyncTemp | CloseTemp | MkdirAll | Rename (dest : list string).

Definition run_step (st : FSStore) (p : put_step) : FSStore :=
  match p with
  | CreateTemp => mk_FSStore (files st) (Some [])
  | WriteTemp d => mk_FSStore (files st) (Some d)
  | SyncTemp | CloseTemp | MkdirAll => st
  | Rename dest =>
      match partial st with
      | Some d => mk_FSStore (<[dest := d]> (files st)) None
      | None => st
      end
  end.

Definition put_steps (data : bytes) (dest : list string) : list put_step :=
  [CreateTemp; WriteTemp data; SyncTemp; CloseTemp; MkdirAll; Rename dest].

(** [Put] when the operating system answers every call and the context is live
    (a context that ends meanwhile is reported beside the finished object). *)
Definition FS_Put (t : string) (data : bytes) (st : FSStore) : (err + Info) * FSStore :=
  if negb (Type_Valid t) then (inl (invalid_type t), st) else
  let digest := sha256 data in
  let key := NewKey t digest in
  match path key with
  | inl e => (inl e, st)
  | inr dest => (inr (mk_Info key (Z.of_nat (length data)) digest),
                 fold_left run_step (put_steps data dest) st)
  end.

(** [Put] when call number [k] fails (the failing call writes at most part of the
    data): the deferred Remove deletes the temporary file. *)
Definition FS_Put_failing (k : nat) (wrote : bytes) (e : err) (t : string) (data : bytes) (st : FSStore)
    : (err + Info) * FSStore :=
  if negb (Type_Valid t) then (inl (invalid_type t), st) else
  match path (NewKey t (sha256 data)) with
  | inl e => (inl e, st)
  | inr dest =>
      let st := fold_left run_step (take k (put_steps wrote dest)) st in
      (inl e, mk_FSStore (files st) None)
  end.

Definition FS_Get (key : string) (st : FSStore) : err + bytes :=
  match path key with
  | inl e => inl e
  | inr p => match files st !! p with None => inl (blob_missing key) | Some d => inr d end
  end.

(** A read limited to [len] octets from [offset]; seeking past the end reads nothing. *)
Definition FS_GetRange (key : string) (offset len : Z) (st : FSStore) : err + bytes :=
  match FS_Get key st with
  | inl e => inl e
  | inr data =>
      let data := if 0 <? offset then drop (Z.to_nat offset) data else data in
      inr (if len <=? 0 then data else take (Z.to_nat len) data)
  end.

Definition FS_Stat (key : string) (st : FSStore) : err + Info :=
  match path key with
  | inl e => inl e
  | inr p =>
      match files st !! p with
      | None => inl (blob_missing key)
      | Some d => match Key_Digest key with
                  | inl e => inl e
                  | inr digest => inr (mk_Info key (Z.of_nat (length d)) digest)
                  end
      end
  end.

Definition FS_Delete (key : string) (st : FSStore) : (err + unit) * FSStore :=
  match path key with
  | inl e => (inl e, st)
  | inr p => (inr tt, mk_FSStore (delete p (files st)) (partial st))
  end.

Definition FS_content (st : FSStore) (key : string) : option bytes :=
  match path key with inr p => files st !! p | inl _ => None end.

#[export] Instance FS_BlobStore : BlobStore FSStore := {
  content := FS_content;
  Put := FS_Put; Get := FS_Get; GetRange := FS_GetRange; Stat := FS_Stat; Delete := FS_Delete
}.
End store_interface.

(** * Key lemmas *)

Definition is_bytes (l : list Z) : Prop := Forall (fun b => 0 <= b < 256) l.

Lemma hex_value_digit n : 0 <= n < 16 -> hex_value (hex_digit (Z.to_nat n)) = Some n.
Proof.
  intros Hn. assert (Z.to_nat n < 16)%nat by lia. replace (Some n) with (Some (Z.of_nat (Z.to_nat n))) by (f_equal; lia).
  generalize dependent (Z.to_nat n). clear. intros n Hn.
  do 16 (destruct n as [|n]; [reflexivity|]). lia.
Qed.

Lemma hex_decode_encode l : is_bytes l -> hex_decode (hex_encode l) = Some l.
Proof.
  induction 1 as [|b l Hb _ IH]; [done|]. cbn [hex_encode hex_decode].
  rewrite !hex_value_digit by (split; [apply Z.div_pos; lia|apply Z.div_lt_upper_bound; lia] || apply Z.mod_pos_bound; lia).
  simpl. rewrite IH. simpl. do 2 f_equal. pose proof (Z.div_mod b 16). lia.
Qed.

Lemma Cut_Some s p d : Cut s = Some (p, d) -> s = p ++ "/" ++ d.
Proof.
  revert p. induction s as [|c s IH]; intros p; [done|]. simpl.
  destruct (Ascii.eqb_spec c "/"%char) as [->|]; [by intros [= <- <-]|].
  destruct (Cut s) as [[p' d']|]; [|done]. simpl. intros [= <- <-]. pose proof (IH p' eq_refl) as ->. reflexivity.
Qed.

Lemma Cut_type t s : Type_Valid t = true -> Cut (t ++ "/" ++ s) = Some (t, s).
Proof.
  unfold Type_Valid. intros [->%String.eqb_eq| ->%String.eqb_eq]%orb_true_iff; reflexivity.
Qed.

Lemma Key_parts t digest : Type_Valid t = true -> is_bytes digest ->
  Key_Type (NewKey t digest) = t /\ Key_Digest (NewKey t digest) = inr digest.
Proof.
  intros Ht Hd. unfold Key_Type, Key_Digest, NewKey. rewrite Cut_type by done.
  by rewrite hex_decode_encode.
Qed.

Lemma NewKey_valid t digest : Type_Valid t = true -> is_bytes digest -> length digest = 32%nat ->
  Key_Valid (NewKey t digest) = true.
Proof.
  intros Ht Hd Hl. destruct (Key_parts t digest Ht Hd) as [E1 E2]. unfold Key_Valid.
  by rewrite E1, E2, Ht, Hl.
Qed.

Lemma path_inj k k' p : path k = inr p -> path k' = inr p -> k = k'.
Proof.
  unfold path. destruct (Key_Valid k) eqn:E1, (Key_Valid k') eqn:E2; try done. simpl.
  intros [= <-] [= Et _ _ Eh].
  assert (forall k, Key_Valid k = true -> k = Key_Type k ++ "/" ++ match Cut k with Some (_, d) => d | None => "" end) as H.
  { intros x Hx. unfold Key_Valid, Key_Type in *. destruct (Cut x) as [[a b]|] eqn:Ec; [|done].
    by apply Cut_Some. }
  rewrite (H k E1), (H k' E2). by rewrite Et, Eh.
Qed.

Lemma path_valid k : Key_Valid k = true -> exists p, path k = inr p.
Proof. intros H. unfold path. rewrite H. by eexists. Qed.

(** * The implementations obey the interface *)

Section laws.
Variable sha256 : bytes -> list Z.
Hypothesis sha256_ok : forall d, length (sha256 d) = 32%nat /\ is_bytes (sha256 d).

Lemma sha256_key_valid t d : Type_Valid t = true -> Key_Valid (NewKey t (sha256 d)) = true.
Proof. intros Ht. destruct (sha256_ok d). by apply NewKey_valid. Qed.

Lemma drop_past {A} (l : list A) n : Z.of_nat (length l) < n -> drop (Z.to_nat n) l = [].
Proof. intros H. apply drop_ge. lia. Qed.

#[export] Instance Mem_laws : BlobStoreLaws sha256 MemStore (H:=Mem_BlobStore sha256).
Proof.
  constructor; simpl.
  - intros t data s Ht. unfold Mem_Put. rewrite Ht. eexists. split; [done|].
    split; [apply lookup_insert_eq|]. intros k Hk. by apply lookup_insert_ne.
  - intros t data s Ht. unfold Mem_Put. by rewrite Ht.
  - intros k s data _ Hk. unfold Mem_Get. by rewrite Hk.
  - intros k s _ Hk. unfold Mem_Get, Mem_Stat. by rewrite Hk.
  - intros k off len s data _ Hoff Hk. unfold Mem_GetRange, slice. rewrite Hk. f_equal.
    assert (drop (Z.to_nat (if Z.of_nat (length data) <? off then Z.of_nat (length data) else off)) data
      = drop (Z.to_nat off) data) as ->.
    { destruct (Z.ltb_spec (Z.of_nat (length data)) off); [|done].
      rewrite (drop_past data off) by lia. rewrite Nat2Z.id. by apply drop_ge. }
    destruct (Z.ltb_spec 0 len), (Z.leb_spec len 0); simpl; try lia; [|done].
    destruct (Z.ltb_spec len (Z.of_nat (length (drop (Z.to_nat off) data)))); [done|].
    rewrite take_ge; [done|lia].
  - intros k s data d _ Hk Hd. unfold Mem_Stat. by rewrite Hk, Hd.
  - intros k s _. eexists. split; [done|]. split; [apply lookup_delete_eq|].
    intros k' _ Hne. by apply lookup_delete_ne.
Qed.

#[export] Instance FS_laws : BlobStoreLaws sha256 FSStore (H:=FS_BlobStore sha256).
Proof.
  constructor; simpl.
  - intros t data s Ht. unfold FS_Put. rewrite Ht. simpl.
    destruct (path_valid _ (sha256_key_valid t data Ht)) as [p Hp]. rewrite Hp.
    eexists. split; [done|]. unfold FS_content. split; [simpl; rewrite Hp; apply lookup_insert_eq|]. simpl.
    intros k Hk. destruct (path k) as [|p'] eqn:Hp'; [done|]. apply lookup_insert_ne.
    intros ->. apply Hk. by eapply path_inj.
  - intros t data s Ht. unfold FS_Put. by rewrite Ht.
  - intros k s data Hv Hk. unfold FS_Get, FS_content in *. destruct (path_valid k Hv) as [p Hp].
    rewrite Hp in *. by rewrite Hk.
  - intros k s Hv Hk. unfold FS_Get, FS_Stat, FS_content in *. destruct (path_valid k Hv) as [p Hp].
    rewrite Hp in *. by rewrite Hk.
  - intros k off len s data Hv Hoff Hk. unfold FS_GetRange, FS_Get, FS_content, slice in *.
    destruct (path_valid k Hv) as [p Hp]. rewrite Hp in *. rewrite Hk. f_equal.
    destruct (Z.ltb_spec 0 off); [done|]. by replace off with 0 by lia.
  - intros k s data d Hv Hk Hd. unfold FS_Stat, FS_content in *. destruct (path_valid k Hv) as [p Hp].
    rewrite Hp in *. by rewrite Hk, Hd.
  - intros k s Hv. unfold FS_Delete, FS_content. destruct (path_valid k Hv) as [p Hp]. rewrite Hp.
    eexists. split; [done|]. split; [apply lookup_delete_eq|].
    intros k' Hv' Hne. destruct (path_valid k' Hv') as [p' Hp']. rewrite Hp'.
    apply lookup_delete_ne. intros ->. apply Hne. by eapply path_inj.
Qed.
End laws.

(** * Properties *)

(** Keys round-trip: the key built from a type and a 32-byte digest is valid
    and gives both back, so two objects share a key only if type and digest agree. *)
Theorem blob_key_roundtrip (t : string) (digest : list Z) :
  Type_Valid t = true -> is_bytes digest -> length digest = 32%nat ->
  Key_Valid (NewKey t digest) = true /\ Key_Type (NewKey t digest) = t /\ Key_Digest (NewKey t digest) = inr digest.
Proof.
  intros Ht Hd Hl. split; [by apply NewKey_valid|]. by apply Key_parts.
Qed.
Lemma blob_key_roundtrip_witness :
  Key_Digest "rfc822/0707070707070707070707070707070707070707070707070707070707070707" = inr (repeat 7 32)
  /\ Key_Valid (NewKey TypeRFC822 (repeat 7 32)) = true.
Proof.
  split; [reflexivity|]. apply (blob_key_roundtrip TypeRFC822 (repeat 7 32)); [done| |done].
  apply Forall_forall. intros b Hb. apply list_elem_of_In, repeat_spec in Hb. lia.
Defined.


Definition ex_sha (d : bytes) : list Z := repeat (Z.of_nat (length d) mod 256) 32.
Lemma ex_sha_ok d : length (ex_sha d) = 32%nat /\ is_bytes (ex_sha d).
Proof.
  split; [done|]. apply Forall_forall. intros b Hb. apply list_elem_of_In, repeat_spec in Hb as ->.
  apply Z.mod_pos_bound. lia.
Qed.

(** A store operation interrupted at any point never shows a partial object:
    after any number of [Put]'s disk operations, every key reads either what it
    read before or the complete new content, and a failed [Put] reports its error
    and leaves no temporary file. *)
Theorem FS_Put_atomic (sha256 : bytes -> list Z) (t : string) (data wrote : bytes) (st : FSStore) (k : nat) (e : err) (key : string) :
  partial st = None -> (k < 6)%nat ->
  FS_content (FS_Put_failing sha256 k wrote e t data st).2 key = FS_content st key
  /\ partial (FS_Put_failing sha256 k wrote e t data st).2 = None
  /\ (exists e', (FS_Put_failing sha256 k wrote e t data st).1 = inl e')
  /\ (forall dest n, path (NewKey t (sha256 data)) = inr dest ->
        FS_content (fold_left run_step (take n (put_steps data dest)) st) key = FS_content st key
        \/ (key = NewKey t (sha256 data)
            /\ FS_content (fold_left run_step (take n (put_steps data dest)) st) key = Some data)).
Proof.
  intros Hp Hk. unfold FS_Put_failing.
  assert (forall d dest, files (fold_left run_step (take k (put_steps d dest)) st) = files st) as Hfiles.
  { intros d dest. do 6 (destruct k as [|k]; [done|]). lia. }
  split_and!.
  - destruct (Type_Valid t); [|done]. simpl. destruct (path _); [done|]. unfold FS_content. simpl. by rewrite Hfiles.
  - destruct (Type_Valid t); [|done]. simpl. by destruct (path _).
  - destruct (Type_Valid t); [|by eexists]. simpl. destruct (path _); by eexists.
  - intros dest n Hd. unfold FS_content. destruct (path key) as [e'|p] eqn:Ekey; [by left|].
    assert (files (fold_left run_step (take n (put_steps data dest)) st) = files st
      \/ files (fold_left run_step (take n (put_steps data dest)) st) = <[dest := data]> (files st)) as [->| ->].
    { do 6 (destruct n as [|n]; [by left|]). right. by destruct n. }
    + by left.
    + destruct (decide (p = dest)) as [->|Hne]; [|left; by rewrite lookup_insert_ne].
      right. rewrite lookup_insert_eq. split; [by eapply path_inj|done].
Qed.
Lemma FS_Put_atomic_witness :
  FS_content (FS_Put_failing ex_sha 3 ["a"%char] (ErrText "disk full") TypeRFC822 ["a"; "b"]%char (mk_FSStore ∅ None)).2
    (NewKey TypeRFC822 (ex_sha ["a"; "b"]%char)) = None.
Proof.
  exact (proj1 (FS_Put_atomic ex_sha TypeRFC822 ["a"; "b"]%char ["a"%char] (mk_FSStore ∅ None) 3 (ErrText "disk full")
    (NewKey TypeRFC822 (ex_sha ["a"; "b"]%char)) eq_refl ltac:(lia))).
Defined.
