(* ===== verification/Text.v ===== *)
(** Text handling shared by ingestion (internal/mailstore/parse.go) and the sync
    engine (internal/syncer/mailbox.go): UTF-8, whitespace, truncation, the
    sanitising of text before it is stored, and the reduction of HTML to text.

    A Go string is here the list of its bytes. *)
From S2P Require Import Prelude GoStrings.
From Stdlib Require Import String.
From stdpp Require Import strings list.
Open Scope list_scope.
Open Scope Z_scope.

Definition code (c : ascii) : Z := Z.of_nat (nat_of_ascii c).
Definition lit (s : string) : bytes := list_ascii_of_string s.
Definition byte (n : nat) : ascii := ascii_of_nat n.

(** * UTF-8

    [rune_len s] is the width of the rune at the head of [s] as Go decodes it;
    [None] where Go reports RuneError with width one. *)

Definition between (lo hi : Z) (c : ascii) : bool := (lo <=? code c) && (code c <=? hi).
Definition cont (c : ascii) : bool := between 128 191 c.

Definition rune_len (s : bytes) : option nat :=
  match s with
  | [] => None
  | a :: s =>
      if code a <? 128 then Some 1%nat
      else if between 194 223 a then
        match s with b :: _ => if cont b then Some 2%nat else None | _ => None end
      else if between 224 239 a then
        match s with
        | b :: c :: _ =>
            if (if code a =? 224 then between 160 191 b else if code a =? 237 then between 128 159 b else cont b)
               && cont c then Some 3%nat else None
        | _ => None
        end
      else if between 240 244 a then
        match s with
        | b :: c :: d :: _ =>
            if (if code a =? 240 then between 144 191 b else if code a =? 244 then between 128 143 b else cont b)
               && cont c && cont d then Some 4%nat else None
        | _ => None
        end
      else None
  end.

(** The runes of a string, an undecodable byte by itself, as [range] visits them. *)
Fixpoint runes_fuel (n : nat) (s : bytes) : list bytes :=
  match n, s with
  | S n, _ :: _ =>
      let w := match rune_len s with Some w => w | None => 1%nat end in
      take w s :: runes_fuel n (drop w s)
  | _, _ => []
  end.
Definition runes (s : bytes) : list bytes := runes_fuel (length s) s.

Definition valid_rune (c : bytes) : bool := bool_decide (rune_len c = Some (length c)).
Definition valid_utf8 (s : bytes) : bool := forallb valid_rune (runes s).

(** [strings.ToValidUTF8(s, "")] *)
Definition ToValidUTF8 (s : bytes) : bytes := concat (filter (fun c => valid_rune c = true) (runes s)).

(** [utf8Start] *)
Definition utf8Start (b : ascii) : bool := negb (Z.land (code b) 192 =? 128).

(** * [sanitise] (mailstore) and [sanitiseText] (syncer) *)

Definition NUL : ascii := byte 0.
Definition sanitise (s : bytes) : bytes :=
  match s with
  | [] => []
  | _ => ToValidUTF8 (filter (fun c => c <> NUL) s)
  end.

(** What a Postgres text column accepts. *)
Definition storable (s : bytes) : bool := valid_utf8 s && forallb (fun c => negb (Ascii.eqb c NUL)) s.

(** * [truncate] *)

(** The loop [for cut > 0 && !utf8Start(s[cut])]. *)
Fixpoint cut_back (s : bytes) (cut : nat) : nat :=
  match cut with
  | O => O
  | S cut' =>
      match s !! cut with
      | Some b => if utf8Start b then cut else cut_back s cut'
      | None => cut
      end
  end.
Definition truncate (s : bytes) (n : Z) : bytes :=
  if Z.of_nat (length s) <=? n then s else take (cut_back s (Z.to_nat n)) s.

(** * [strings.Fields] *)

(** The bytes of the runes [unicode.IsSpace] accepts. *)
Definition is_space (r : bytes) : bool :=
  match map code r with
  | [a] => ((9 <=? a) && (a <=? 13)) || (a =? 32)
  | [194; b] => (b =? 133) || (b =? 160)
  | [225; 154; 128] => true
  | [226; 128; c] => ((128 <=? c) && (c <=? 138)) || (c =? 168) || (c =? 169) || (c =? 175)
  | [226; 129; 159] => true
  | [227; 128; 128] => true
  | _ => false
  end.

(** Maximal runs of runes that are not spaces; [cur] is the run being read. *)
Fixpoint fields_of (rs : list bytes) (cur : bytes) : list bytes :=
  match rs with
  | [] => match cur with [] => [] | _ => [cur] end
  | r :: rs =>
      if is_space r then match cur with [] => fields_of rs [] | _ => cur :: fields_of rs [] end
      else fields_of rs (cur ++ r)
  end.
Definition Fields (s : bytes) : list bytes := fields_of (runes s) [].

Fixpoint join (sep : bytes) (l : list bytes) : bytes :=
  match l with
  | [] => []
  | [x] => x
  | x :: l => x ++ sep ++ join sep l
  end.
Definition space : ascii := byte 32.
Definition normalise (s : bytes) : bytes := join [space] (Fields s).

Definition previewLength : Z := 300.
Definition makePreview (body : bytes) : bytes := truncate (normalise body) previewLength.

(** [strings.Trim] with an ASCII cutset. *)
Fixpoint trim_left (cutset s : bytes) : bytes :=
  match s with
  | [] => []
  | c :: s' => if bool_decide (c ∈ cutset) then trim_left cutset s' else s
  end.
Definition Trim (cutset s : bytes) : bytes := rev (trim_left cutset (rev (trim_left cutset s))).

Definition splitReferences (value : bytes) : list bytes :=
  map sanitise (filter (fun t => t <> []) (map (Trim (lit "<>,")) (Fields value))).

(** * HTML *)

(** Does [strings.ToLower(s)] start with [pat]?  Besides the ASCII letters two
    capitals have an ASCII lower case: U+0130 ([i]) and U+212A ([k]). *)
Fixpoint lower_prefix (pat s : bytes) : bool :=
  match pat with
  | [] => true
  | p :: pat =>
      match s with
      | [] => false
      | c :: s1 =>
          if Ascii.eqb (lower_ascii c) p then lower_prefix pat s1
          else match s1 with
               | [] => false
               | d :: s2 =>
                   if (code c =? 196) && (code d =? 176) && Ascii.eqb p "i"%char then lower_prefix pat s2
                   else match s2 with
                        | [] => false
                        | e :: s3 =>
                            if (code c =? 226) && (code d =? 132) && (code e =? 170) && Ascii.eqb p "k"%char
                            then lower_prefix pat s3 else false
                        end
               end
      end
  end.

Definition lt : ascii := "<"%char.
Definition gt : ascii := ">"%char.
Definition amp : ascii := "&"%char.

(** The scan of [stripHTML]: what it writes to the builder. *)
Fixpoint strip_fuel (n : nat) (html : bytes) (inTag : bool) (skipUntil : bytes) : bytes :=
  match n, html with
  | S n, c :: rest =>
      match skipUntil with
      | _ :: _ =>
          if lower_prefix skipUntil html then strip_fuel n (drop (length skipUntil) html) inTag []
          else strip_fuel n rest inTag skipUntil
      | [] =>
          if Ascii.eqb c lt then
            if lower_prefix (lit "<script") html then strip_fuel n rest inTag (lit "</script>")
            else if lower_prefix (lit "<style") html then strip_fuel n rest inTag (lit "</style>")
            else strip_fuel n rest true []
          else if Ascii.eqb c gt then space :: strip_fuel n rest false []
          else if inTag then strip_fuel n rest inTag []
          else c :: strip_fuel n rest inTag []
      end
  | _, _ => []
  end.
Definition strip_tags (html : bytes) : bytes := strip_fuel (length html) html false [].

Definition htmlEntities : list (bytes * bytes) :=
  [(lit "&nbsp;", lit " "); (lit "&amp;", lit "&"); (lit "&lt;", lit "<"); (lit "&gt;", lit ">");
   (lit "&quot;", [byte 34]); (lit "&#39;", lit "'"); (lit "&apos;", lit "'")].

Fixpoint prefixb (pat s : bytes) : bool :=
  match pat, s with
  | [], _ => true
  | p :: pat, c :: s => Ascii.eqb p c && prefixb pat s
  | _ :: _, [] => false
  end.

(** [strings.Replacer.Replace]: one pass from the left, the replaced text is not
    looked at again. *)
Fixpoint replace_fuel (table : list (bytes * bytes)) (n : nat) (s : bytes) : bytes :=
  match n, s with
  | S n, c :: rest =>
      match find (fun e => prefixb e.1 s) table with
      | Some (old, new) => new ++ replace_fuel table n (drop (length old) s)
      | None => c :: replace_fuel table n rest
      end
  | _, _ => []
  end.
Definition Replace (table : list (bytes * bytes)) (s : bytes) : bytes := replace_fuel table (length s) s.

Definition decodeEntities (s : bytes) : bytes := Replace htmlEntities s.

Definition stripHTML (html : bytes) : bytes := normalise (decodeEntities (strip_tags html)).

(** * Display names (internal/syncer/mailbox.go) *)

Definition backslash : ascii := byte 92.
Definition quote_mark : ascii := byte 34.
Definition specials : bytes := quote_mark :: backslash :: lit "<>@,;:.[]()".
Definition escapes : list (bytes * bytes) :=
  [([backslash], [backslash; backslash]); ([quote_mark], [backslash; quote_mark])].
Definition quoteDisplayName (name : bytes) : bytes :=
  if forallb (fun c => negb (bool_decide (c ∈ specials))) name then name
  else [quote_mark] ++ Replace escapes name ++ [quote_mark].

(** How RFC 5322 reads a display name back: a quoted string with its quoted pairs
    undone, or the text itself. *)
Fixpoint unescape (s : bytes) : bytes :=
  match s with
  | a :: rest =>
      if Ascii.eqb a backslash then match rest with c :: s => c :: unescape s | [] => [] end
      else if Ascii.eqb a quote_mark then []
      else a :: unescape rest
  | [] => []
  end.
Definition parse_display_name (s : bytes) : bytes :=
  match s with
  | a :: rest => if Ascii.eqb a quote_mark then unescape rest else s
  | [] => []
  end.

Example strip1 : stripHTML (lit "<p>Hi <b>there</b></p><style>p{}</style> &lt;ok&gt;") = lit "Hi there <ok>".
Proof. reflexivity. Qed.
Example strip2 : stripHTML (lit "a<SCRIPT>x<y</Script>b &amp;lt;") = lit "ab &lt;".
Proof. reflexivity. Qed.
Example quote1 : quoteDisplayName (lit "Westberg, Esaias") = [quote_mark] ++ lit "Westberg, Esaias" ++ [quote_mark].
Proof. reflexivity. Qed.

(** * Runes *)

Lemma rune_len_bounds s w : rune_len s = Some w -> (1 <= w <= 4)%nat /\ (w <= length s)%nat.
Proof.
  destruct s as [|a s]; [done|]. cbn [rune_len].
  destruct (code a <? 128); [intros [= <-]; simpl; lia|].
  destruct (between 194 223 a).
  { destruct s as [|b s]; [done|]. destruct (cont b); [|done]. intros [= <-]. simpl. lia. }
  destruct (between 224 239 a).
  { destruct s as [|b [|c s]]; try done. destruct (_ && cont c); [|done]. intros [= <-]. simpl. lia. }
  destruct (between 240 244 a); [|done].
  destruct s as [|b [|c [|d s]]]; try done. destruct (_ && cont d); [|done]. intros [= <-]. simpl. lia.
Qed.

(** Only the bytes of the rune itself decide its width. *)
Lemma rune_len_local s w t : rune_len s = Some w -> rune_len (take w s ++ t) = Some w.
Proof.
  destruct s as [|a s]; [done|]. cbn [rune_len].
  destruct (code a <? 128) eqn:E1; [intros [= <-]; simpl; by rewrite E1|].
  destruct (between 194 223 a) eqn:E2.
  { destruct s as [|b s]; [done|]. destruct (cont b) eqn:Eb; [|done]. intros [= <-]. simpl. by rewrite E1, E2, Eb. }
  destruct (between 224 239 a) eqn:E3.
  { destruct s as [|b [|c s]]; try done. destruct (_ && cont c) eqn:Eb; [|done]. intros [= <-]. simpl.
    by rewrite E1, E2, E3, Eb. }
  destruct (between 240 244 a) eqn:E4; [|done].
  destruct s as [|b [|c [|d s]]]; try done. destruct (_ && cont d) eqn:Eb; [|done]. intros [= <-]. simpl.
  by rewrite E1, E2, E3, E4, Eb.
Qed.

Lemma runes_fuel_enough n m s : (length s <= n)%nat -> (length s <= m)%nat -> runes_fuel n s = runes_fuel m s.
Proof.
  revert m s. induction n as [|n IH]; intros m [|a s] Hn Hm; try (simpl in Hn; lia); try (by destruct m).
  destruct m as [|m]; [simpl in Hm; lia|]. simpl in Hn, Hm. cbn [runes_fuel].
  set (w := match rune_len (a :: s) with Some w => w | None => 1%nat end).
  assert (1 <= w)%nat by (unfold w; destruct (rune_len (a :: s)) eqn:E; [apply rune_len_bounds in E; lia|lia]).
  f_equal. apply IH; rewrite length_drop; simpl; lia.
Qed.

Lemma runes_unfold s : s <> [] ->
  runes s = let w := match rune_len s with Some w => w | None => 1%nat end in take w s :: runes (drop w s).
Proof.
  destruct s as [|a s]; [done|]. intros _. unfold runes at 1. cbn [length runes_fuel].
  set (w := match rune_len (a :: s) with Some w => w | None => 1%nat end). cbv zeta.
  assert (1 <= w)%nat by (unfold w; destruct (rune_len (a :: s)) eqn:E; [apply rune_len_bounds in E; lia|lia]).
  f_equal. apply runes_fuel_enough; rewrite ?length_drop; simpl; lia.
Qed.

Lemma valid_rune_iff c : valid_rune c = true <-> rune_len c = Some (length c).
Proof. apply bool_decide_eq_true. Qed.

Lemma runes_app c s : valid_rune c = true -> runes (c ++ s) = c :: runes s.
Proof.
  intros Hc%valid_rune_iff. pose proof (rune_len_bounds _ _ Hc) as [Hb _].
  rewrite runes_unfold by (destruct c; [done|discriminate]).
  pose proof (rune_len_local _ _ s Hc) as Hl. rewrite firstn_all in Hl. cbv zeta. rewrite Hl.
  by rewrite take_app_length, drop_app_length.
Qed.

Lemma runes_concat cs : forallb valid_rune cs = true -> runes (concat cs) = cs.
Proof.
  induction cs as [|c cs IH]; [done|]. cbn [forallb concat]. intros [Hc Hcs]%andb_true_iff.
  by rewrite runes_app, IH.
Qed.

Lemma concat_runes s : concat (runes s) = s.
Proof.
  unfold runes. assert (length s <= length s)%nat as H by lia. revert H. generalize (length s) at 2 3.
  intros n. revert s. induction n as [|n IH]; intros [|a s] Hn; try done; [simpl in Hn; lia|].
  cbn [runes_fuel concat]. set (w := match rune_len (a :: s) with Some w => w | None => 1%nat end).
  assert (1 <= w)%nat by (unfold w; destruct (rune_len (a :: s)) eqn:E; [apply rune_len_bounds in E; lia|lia]).
  rewrite IH by (rewrite length_drop; simpl in *; lia). apply take_drop.
Qed.

Lemma valid_utf8_concat s :
  valid_utf8 s = true <-> exists cs, forallb valid_rune cs = true /\ s = concat cs.
Proof.
  split.
  - intros H. exists (runes s). by rewrite concat_runes.
  - intros (cs & Hcs & ->). unfold valid_utf8. by rewrite runes_concat.
Qed.

Lemma valid_utf8_app s t : valid_utf8 s = true -> valid_utf8 t = true -> valid_utf8 (s ++ t) = true.
Proof.
  rewrite !valid_utf8_concat. intros (cs & Hc & ->) (ds & Hd & ->). exists (cs ++ ds).
  by rewrite forallb_app, Hc, Hd, concat_app.
Qed.

Lemma ToValidUTF8_valid s : valid_utf8 (ToValidUTF8 s) = true.
Proof.
  apply valid_utf8_concat. eexists. split; [|done].
  apply forallb_forall. intros c [Hc _]%list_elem_of_In%list_elem_of_filter. done.
Qed.

Lemma filter_all {A} (P : A -> Prop) `{forall x, Decision (P x)} l : Forall P l -> filter P l = l.
Proof. induction 1; [done|]. rewrite filter_cons_True by done. by f_equal. Qed.

Lemma ToValidUTF8_id s : valid_utf8 s = true -> ToValidUTF8 s = s.
Proof.
  unfold valid_utf8, ToValidUTF8. intros H. rewrite filter_all; [apply concat_runes|].
  apply Forall_forall. intros c Hc. eapply forallb_forall in H; [done|]. by apply list_elem_of_In.
Qed.

Lemma elem_of_ToValidUTF8 c s : c ∈ ToValidUTF8 s -> c ∈ s.
Proof.
  unfold ToValidUTF8. rewrite <- (concat_runes s) at 2. generalize (runes s). intros l.
  induction l as [|x l IH]; [done|]. rewrite filter_cons. cbn [concat].
  destruct (decide _); cbn [concat]; rewrite ?elem_of_app; naive_solver.
Qed.

Lemma storable_iff s : storable s = true <-> valid_utf8 s = true /\ NUL ∉ s.
Proof.
  unfold storable. rewrite andb_true_iff, forallb_forall. split; intros [H1 H2]; (split; [done|]).
  - intros Hn%list_elem_of_In%H2. done.
  - intros x Hx. apply negb_true_iff, Ascii.eqb_neq. intros ->. by apply H2, list_elem_of_In.
Qed.

Lemma sanitise_storable_eq s : sanitise s = ToValidUTF8 (filter (fun c => c <> NUL) s).
Proof. by destruct s. Qed.

(** * Truncation and normalisation keep text valid *)

(** Within a rune only the first byte starts one. *)
Lemma utf8Start_cont c : utf8Start c = negb (cont c).
Proof. destruct c as [[] [] [] [] [] [] [] []]; reflexivity. Qed.

Lemma between_cont lo hi c : 128 <= lo -> hi <= 191 -> between lo hi c = true -> cont c = true.
Proof. unfold cont, between. intros ?? H. zlia. Qed.

Lemma between_start lo hi c : 192 <= lo -> between lo hi c = true -> utf8Start c = true.
Proof. rewrite utf8Start_cont. unfold cont, between. intros ? H. apply negb_true_iff. bool_to_prop. apply andb_false_iff. right. lia. Qed.

Lemma ascii_start c : code c <? 128 = true -> utf8Start c = true.
Proof. rewrite utf8Start_cont. unfold cont, between. intros H. apply negb_true_iff, andb_false_iff. left. zlia. Qed.

Lemma valid_rune_shape c : valid_rune c = true ->
  exists a r, c = a :: r /\ utf8Start a = true /\ Forall (fun b => utf8Start b = false) r /\ (length r <= 3)%nat.
Proof.
  intros H%valid_rune_iff. destruct c as [|a s]; [done|]. exists a, s. split; [done|].
  assert (forall b, cont b = true -> utf8Start b = false) as Hc by (intros b Hb; by rewrite utf8Start_cont, Hb).
  cbn [rune_len] in H.
  destruct (code a <? 128) eqn:E1.
  { destruct s; [|done]. split; [by apply ascii_start|]. split; [constructor|simpl; lia]. }
  destruct (between 194 223 a) eqn:E2.
  { apply between_start in E2; [|lia]. destruct s as [|b [|? s]]; try done; destruct (cont b) eqn:Eb; try done.
    split_and!; [done|auto|simpl; lia]. }
  destruct (between 224 239 a) eqn:E3.
  { apply between_start in E3; [|lia]. destruct s as [|b [|c [|? s]]]; try done;
      (destruct (_ && cont c) eqn:Eb; [|done]); try done. apply andb_true_iff in Eb as [Eb Ec].
    assert (cont b = true) by (destruct (code a =? 224), (code a =? 237); first [exact Eb | eapply between_cont; [| |exact Eb]; lia]).
    split_and!; [done|auto|simpl; lia]. }
  destruct (between 240 244 a) eqn:E4; [|done].
  apply between_start in E4; [|lia]. destruct s as [|b [|c [|d [|? s]]]]; try done;
      (destruct (_ && cont d) eqn:Eb; [|done]); try done.
  apply andb_true_iff in Eb as [[Eb Ec]%andb_true_iff Ed].
  assert (cont b = true) by (destruct (code a =? 240), (code a =? 244); first [exact Eb | eapply between_cont; [| |exact Eb]; lia]).
  split_and!; [done|auto|simpl; lia].
Qed.

(** A valid text cut before a byte that starts a rune is valid. *)
Lemma valid_take_start s k b :
  valid_utf8 s = true -> s !! k = Some b -> utf8Start b = true -> valid_utf8 (take k s) = true.
Proof.
  rewrite valid_utf8_concat. intros (cs & Hcs & ->). revert k. induction cs as [|c cs IH]; intros k; [done|].
  cbn [forallb concat] in *. apply andb_true_iff in Hcs as [Hc Hcs]. intros Hk Hb.
  destruct (decide (length c <= k)%nat) as [Hle|Hlt].
  - rewrite lookup_app_r in Hk by done. rewrite take_app_ge by done. apply valid_utf8_app.
    + apply valid_utf8_concat. exists [c]. cbn. by rewrite Hc, app_nil_r.
    + by apply IH.
  - rewrite lookup_app_l in Hk by lia. destruct (valid_rune_shape c Hc) as (a & r & -> & _ & Hr & _).
    destruct k as [|k]; [done|]. simpl in Hk. eapply Forall_lookup_1 in Hr; [|exact Hk]. by rewrite Hb in Hr.
Qed.

(** Every position of a valid text is at most three bytes after a rune's start. *)
Lemma valid_start_near s n :
  valid_utf8 s = true -> (n < length s)%nat ->
  exists k b, (k <= n <= k + 3)%nat /\ s !! k = Some b /\ utf8Start b = true.
Proof.
  rewrite valid_utf8_concat. intros (cs & Hcs & ->). revert n. induction cs as [|c cs IH]; intros n Hn;
    [simpl in Hn; lia|].
  cbn [forallb concat] in *. apply andb_true_iff in Hcs as [Hc Hcs]. rewrite length_app in Hn.
  destruct (decide (length c <= n)%nat) as [Hle|Hlt].
  - destruct (IH Hcs (n - length c)%nat) as (k & b & Hk & Hl & Hb); [lia|].
    exists (length c + k)%nat, b. split; [lia|]. split; [|done].
    rewrite lookup_app_r by lia. by replace (length c + k - length c)%nat with k by lia.
  - destruct (valid_rune_shape c Hc) as (a & r & -> & Ha & _ & Hr). simpl in Hlt. exists 0%nat, a. split; [lia|done].
Qed.

Lemma cut_back_le s n : (cut_back s n <= n)%nat.
Proof. induction n as [|n IH]; [done|]. simpl. destruct (s !! S n); [destruct (utf8Start a)|]; lia. Qed.

Lemma cut_back_ge s n k b : (k <= n)%nat -> s !! k = Some b -> utf8Start b = true -> (k <= cut_back s n)%nat.
Proof.
  intros Hk Hl Hb. induction n as [|n IH]; [lia|]. simpl.
  destruct (decide (k = S n)) as [->|Hne]; [by rewrite Hl, Hb|].
  destruct (s !! S n); [destruct (utf8Start a)|]; lia.
Qed.

Lemma cut_back_start s n : (n < length s)%nat ->
  cut_back s n = 0%nat \/ exists b, s !! cut_back s n = Some b /\ utf8Start b = true.
Proof.
  induction n as [|n IH]; intros Hn; [by left|]. cbn [cut_back].
  destruct (s !! S n) as [b|] eqn:E; [|apply lookup_ge_None in E; lia].
  destruct (utf8Start b) eqn:Eb; [right; eauto|]. apply IH. lia.
Qed.

Lemma truncate_valid s n : 0 <= n -> valid_utf8 s = true -> valid_utf8 (truncate s n) = true.
Proof.
  intros Hn Hs. unfold truncate. destruct (Z.leb_spec (Z.of_nat (length s)) n); [done|].
  destruct (cut_back_start s (Z.to_nat n)) as [->|(b & Hl & Hb)]; [lia|done|]. by eapply valid_take_start.
Qed.

Lemma truncate_length s n : 0 <= n -> Z.of_nat (length (truncate s n)) <= n.
Proof.
  intros Hn. unfold truncate. destruct (Z.leb_spec (Z.of_nat (length s)) n); [done|]. rewrite length_take.
  pose proof (cut_back_le s (Z.to_nat n)). lia.
Qed.

Lemma truncate_prefix s n : truncate s n `prefix_of` s.
Proof. unfold truncate. destruct (_ <=? _); [done|apply prefix_take]. Qed.

(** [truncate] keeps at most [n] bytes, a prefix, never splits a rune of valid
    text, and gives up at most three bytes for that. *)
Theorem truncate_spec (s : bytes) (n : Z) :
  0 <= n ->
  Z.of_nat (length (truncate s n)) <= n /\ truncate s n `prefix_of` s
  /\ (valid_utf8 s = true -> valid_utf8 (truncate s n) = true
      /\ (Z.of_nat (length s) <= n -> truncate s n = s)
      /\ (n < Z.of_nat (length s) -> n <= Z.of_nat (length (truncate s n)) + 3)).
Proof.
  intros Hn. split; [by apply truncate_length|]. split; [apply truncate_prefix|]. intros Hs.
  split; [by apply truncate_valid|].
  unfold truncate. split; intros H; destruct (Z.leb_spec (Z.of_nat (length s)) n); try lia; [done|].
  destruct (valid_start_near s (Z.to_nat n) Hs ltac:(lia)) as (k & b & Hk & Hl & Hb).
  pose proof (cut_back_ge s (Z.to_nat n) k b ltac:(lia) Hl Hb). rewrite length_take.
  pose proof (cut_back_le s (Z.to_nat n)). lia.
Qed.
Lemma truncate_spec_witness :
  truncate [byte 97; byte 195; byte 165; byte 98] 2 = [byte 97]
  /\ valid_utf8 (truncate [byte 97; byte 195; byte 165; byte 98] 2) = true.
Proof.
  split; [reflexivity|].
  exact (proj1 (proj2 (proj2 (truncate_spec [byte 97; byte 195; byte 165; byte 98] 2 ltac:(lia))) eq_refl)).
Defined.

(** ** Fields *)

Lemma fields_of_valid rs cur : forallb valid_rune rs = true -> valid_utf8 cur = true ->
  Forall (fun f => valid_utf8 f = true) (fields_of rs cur).
Proof.
  revert cur. induction rs as [|r rs IH]; intros cur Hrs Hcur; cbn [fields_of].
  - destruct cur; [constructor|by repeat constructor].
  - cbn [forallb] in Hrs. apply andb_true_iff in Hrs as [Hr Hrs]. destruct (is_space r).
    + destruct cur; [by apply IH|]. constructor; [done|by apply IH].
    + apply IH; [done|]. apply valid_utf8_app; [done|]. apply valid_utf8_concat. exists [r]. cbn.
      by rewrite Hr, app_nil_r.
Qed.

Lemma fields_of_bytes rs cur f : f ∈ fields_of rs cur -> f <> [] /\ forall c, c ∈ f -> c ∈ cur ++ concat rs.
Proof.
  revert cur. induction rs as [|r rs IH]; intros cur; cbn [fields_of concat].
  - destruct cur as [|a cur]; [by intros ?%elem_of_nil|]. intros ->%list_elem_of_singleton.
    split; [done|]. intros c Hc. rewrite app_nil_r. done.
  - destruct (is_space r).
    + destruct cur as [|a cur]; [|rewrite elem_of_cons; intros [->|H]].
      * intros [? H]%IH. split; [done|]. set_solver.
      * split; [done|]. set_solver.
      * apply IH in H as [? H]. split; [done|]. set_solver.
    + intros [? H]%IH. split; [done|]. set_solver.
Qed.

Lemma elem_of_join sep l c : c ∈ join sep l -> c ∈ sep \/ exists x, x ∈ l /\ c ∈ x.
Proof.
  induction l as [|x [|y l] IH]; cbn [join]; [by intros ?%elem_of_nil|set_solver|].
  rewrite !elem_of_app. intros [?|[?|H]]; [set_solver|by left|]. apply IH in H as [?|(z & ? & ?)]; set_solver.
Qed.

Lemma join_valid sep l : valid_utf8 sep = true -> Forall (fun f => valid_utf8 f = true) l ->
  valid_utf8 (join sep l) = true.
Proof.
  intros Hs. induction 1 as [|x [|y l] Hx Hl IH]; [done|done|]. cbn [join]. by repeat apply valid_utf8_app.
Qed.

Lemma normalise_storable s : storable s = true -> storable (normalise s) = true.
Proof.
  rewrite !storable_iff. intros [Hv Hn]. split.
  - apply join_valid; [done|]. by apply fields_of_valid.
  - intros [H|(x & Hx & H)]%elem_of_join.
    + by apply list_elem_of_singleton in H.
    + apply fields_of_bytes in Hx as [_ Hx]. apply Hx in H. rewrite concat_runes in H. by apply Hn.
Qed.

Lemma truncate_storable s n : 0 <= n -> storable s = true -> storable (truncate s n) = true.
Proof.
  rewrite !storable_iff. intros H0 [Hv Hn]. split; [by apply truncate_valid|].
  intros H. apply Hn. eapply elem_of_prefix; [exact H|apply truncate_prefix].
Qed.

Lemma makePreview_storable s : storable s = true -> storable (makePreview s) = true.
Proof. intros H. by apply truncate_storable; [|apply normalise_storable]. Qed.

Lemma sanitise_storable s : storable (sanitise s) = true.
Proof.
  rewrite sanitise_storable_eq. apply storable_iff. split; [apply ToValidUTF8_valid|].
  intros [H _]%elem_of_ToValidUTF8%list_elem_of_filter. done.
Qed.

Lemma sanitise_id s : storable s = true -> sanitise s = s.
Proof.
  intros [Hv Hn]%storable_iff. rewrite sanitise_storable_eq, filter_all; [by apply ToValidUTF8_id|].
  apply Forall_forall. intros c Hc ->. done.
Qed.

Lemma sanitise_sublist s : sanitise s `sublist_of` s.
Proof.
  rewrite sanitise_storable_eq. transitivity (filter (fun c => c <> NUL) s); [|apply sublist_filter].
  unfold ToValidUTF8. rewrite <- (concat_runes (filter (fun c => c <> NUL) s)) at 2.
  generalize (runes (filter (fun c => c <> NUL) s)). intros l. induction l as [|x l IH]; [done|].
  rewrite filter_cons. cbn [concat]. destruct (decide _); cbn [concat].
  - by apply sublist_app.
  - by apply sublist_inserts_l.
Qed.

(** [sanitise] (and the syncer's [sanitiseText]) returns text Postgres accepts
    for every input, leaves acceptable text alone, and only ever removes bytes. *)
Theorem sanitise_spec (s : bytes) :
  storable (sanitise s) = true
  /\ (storable s = true -> sanitise s = s)
  /\ sanitise (sanitise s) = sanitise s
  /\ sanitise s `sublist_of` s.
Proof.
  split; [apply sanitise_storable|]. split; [apply sanitise_id|].
  split; [apply sanitise_id, sanitise_storable|apply sanitise_sublist].
Qed.

(** * Reducing HTML *)

Lemma strip_fuel_enough n m html tag skip :
  (length html <= n)%nat -> (length html <= m)%nat -> strip_fuel n html tag skip = strip_fuel m html tag skip.
Proof.
  revert m html tag skip. induction n as [|n IH]; intros m [|c rest] tag skip Hn Hm; try (simpl in Hn; lia);
    try (by destruct m).
  destruct m as [|m]; [simpl in Hm; lia|]. simpl in Hn, Hm. cbn [strip_fuel].
  assert (forall tag skip, strip_fuel n rest tag skip = strip_fuel m rest tag skip) as Hr by (intros; apply IH; lia).
  destruct skip as [|p skip].
  - rewrite !Hr. done.
  - rewrite Hr, (IH m) by (rewrite length_drop; simpl; lia). done.
Qed.

Lemma strip_fuel_no_tags n html tag skip c : c ∈ strip_fuel n html tag skip -> c <> lt /\ c <> gt.
Proof.
  revert html tag skip. induction n as [|n IH]; intros [|a rest] tag skip; try (by intros ?%elem_of_nil).
  cbn [strip_fuel]. destruct skip as [|p skip]; [|destruct (lower_prefix _ _); apply IH].
  destruct (Ascii.eqb_spec a lt) as [->|Hlt].
  { destruct (lower_prefix _ _); [apply IH|]. destruct (lower_prefix _ _); apply IH. }
  destruct (Ascii.eqb_spec a gt) as [->|Hgt].
  { intros [->|H]%elem_of_cons; [done|by apply IH in H]. }
  destruct tag; [apply IH|]. intros [->|H]%elem_of_cons; [done|by apply IH in H].
Qed.

(** Plain text is copied. *)
Lemma strip_fuel_text n a b :
  lt ∉ a -> gt ∉ a -> (length (a ++ b) <= n)%nat ->
  strip_fuel n (a ++ b) false [] = a ++ strip_fuel (length b) b false [].
Proof.
  revert n. induction a as [|c a IH]; intros n H1 H2 Hn; [by apply strip_fuel_enough|].
  simpl in Hn. destruct n as [|n]; [lia|]. cbn [app strip_fuel].
  apply not_elem_of_cons in H1 as [H1 H1'], H2 as [H2 H2'].
  destruct (Ascii.eqb_spec c lt); [congruence|]. destruct (Ascii.eqb_spec c gt); [congruence|].
  f_equal. apply IH; [done|done|lia].
Qed.

(** While skipping, everything up to the closing tag is dropped. *)
Lemma strip_fuel_skip n p pat inner b tag :
  (forall i, (i < length inner)%nat -> lower_prefix (p :: pat) (drop i (inner ++ b)) = false) ->
  lower_prefix (p :: pat) b = true -> (length (inner ++ b) <= n)%nat ->
  strip_fuel n (inner ++ b) tag (p :: pat)
    = strip_fuel (length b) (drop (length (p :: pat)) b) tag [].
Proof.
  revert n. induction inner as [|c inner IH]; intros n Hno Hyes Hn.
  - destruct b as [|x b]; [done|]. simpl in Hn. destruct n as [|n]; [lia|].
    cbn [app strip_fuel]. rewrite Hyes. apply strip_fuel_enough; rewrite length_drop; simpl; lia.
  - simpl in Hn. destruct n as [|n]; [lia|]. cbn [app strip_fuel].
    pose proof (Hno 0%nat ltac:(simpl; lia)) as H0. cbn [drop app] in H0. rewrite H0.
    apply IH; [|done|lia]. intros i Hi. apply (Hno (S i)). simpl. lia.
Qed.

(** What [stripHTML] keeps, before entities are decoded: never an angle
    bracket; all of the text outside tags, in order; and nothing of a script up to
    its closing tag. *)
Theorem strip_tags_spec (html a inner b : bytes) :
  (forall c, c ∈ strip_tags html -> c <> lt /\ c <> gt)
  /\ (lt ∉ a -> gt ∉ a -> strip_tags (a ++ b) = a ++ strip_tags b)
  /\ (lt ∉ a -> gt ∉ a ->
      (forall i, (i < 7 + length inner)%nat ->
         lower_prefix (lit "</script>") (drop i (lit "script>" ++ inner ++ lit "</script>" ++ b)) = false) ->
      strip_tags (a ++ lit "<script>" ++ inner ++ lit "</script>" ++ b) = a ++ strip_tags b).
Proof.
  split; [intros c; apply strip_fuel_no_tags|]. split.
  - intros H1 H2. by apply strip_fuel_text.
  - intros H1 H2 Hno. unfold strip_tags. rewrite strip_fuel_text by done. f_equal.
    set (tail := inner ++ lit "</script>" ++ b) in *. change (lit "<script>" ++ tail) with (lt :: (lit "script>" ++ tail)).
    cbn [length strip_fuel]. replace (Ascii.eqb lt lt) with true by done.
    replace (lower_prefix (lit "<script") (lt :: lit "script>" ++ tail)) with true by done.
    unfold tail in *. rewrite app_assoc.
    rewrite (strip_fuel_skip _ "<"%char (lit "/script>") (lit "script>" ++ inner)).
    + change (drop (length ("<"%char :: lit "/script>")) (lit "</script>" ++ b)) with b.
      apply strip_fuel_enough; [rewrite length_app; lia|done].
    + intros i Hi. rewrite <- app_assoc. apply Hno. rewrite length_app in Hi. exact Hi.
    + done.
    + done.
Qed.
Lemma strip_tags_spec_witness :
  strip_tags (lit "ab" ++ lit "<script>" ++ lit "if (x<y) z" ++ lit "</script>" ++ lit "c") = lit "abc".
Proof.
  refine (eq_trans (proj2 (proj2 (strip_tags_spec [] (lit "ab") (lit "if (x<y) z") (lit "c"))) _ _ _) _).
  - exact (bool_decide_eq_true_1 (lt ∉ lit "ab") eq_refl).
  - exact (bool_decide_eq_true_1 (gt ∉ lit "ab") eq_refl).
  - intros i Hi. do 17 (destruct i as [|i]; [reflexivity|]). simpl in Hi. lia.
  - reflexivity.
Defined.

(** * Display names *)

Lemma replace_escapes n s : (length s <= n)%nat ->
  unescape (replace_fuel escapes n s ++ [quote_mark]) = s.
Proof.
  revert s. induction n as [|n IH]; intros [|c s] Hn; [done|simpl in Hn; lia|done|]. simpl in Hn.
  cbn [replace_fuel escapes find prefixb fst]. destruct (Ascii.eqb_spec backslash c) as [<-|Hb].
  { cbn [andb]. cbn. change (drop 0 s) with s. by rewrite IH by lia. }
  cbn [andb find]. destruct (Ascii.eqb_spec quote_mark c) as [<-|Hq].
  { cbn. change (drop 0 s) with s. by rewrite IH by lia. }
  cbn [andb app unescape].
  destruct (Ascii.eqb_spec c backslash); [congruence|]. destruct (Ascii.eqb_spec c quote_mark); [congruence|].
  by rewrite IH by lia.
Qed.

Lemma unescape_length s : (length (unescape s) <= length s)%nat.
Proof.
  assert (length s <= length s)%nat as Hl by lia. revert Hl. generalize (length s) at 2 3 as k.
  intros k. revert s. induction k as [|k IH]; intros [|a s] Hk; try (simpl in *; lia).
  simpl in Hk. cbn [unescape]. destruct (Ascii.eqb a backslash).
  - destruct s as [|c s]; [simpl; lia|]. simpl in *. specialize (IH s). lia.
  - destruct (Ascii.eqb a quote_mark); [simpl; lia|]. simpl. specialize (IH s). lia.
Qed.

(** A display name survives being written into an address header: reading the
    quoted form back gives the name, and what is written unquoted holds no
    character that RFC 5322 treats as special. *)
Theorem quoteDisplayName_roundtrip (name : bytes) :
  parse_display_name (quoteDisplayName name) = name
  /\ (quoteDisplayName name = name -> forall c, c ∈ specials -> c ∉ name).
Proof.
  unfold quoteDisplayName. destruct (forallb _ name) eqn:E.
  - assert (forall c, c ∈ specials -> c ∉ name) as Hs.
    { intros c Hc Hn%list_elem_of_In. eapply forallb_forall in E; [|exact Hn]. simpl in E.
      by rewrite bool_decide_eq_true_2 in E. }
    split; [|done]. destruct name as [|a name]; [done|]. cbn [parse_display_name].
    destruct (Ascii.eqb_spec a quote_mark) as [->|]; [|done]. exfalso. apply (Hs quote_mark); [left|left].
  - split; [unfold Replace; cbn [app parse_display_name]; by apply replace_escapes|].
    intros H. exfalso. apply (f_equal length) in H. unfold Replace in H.
    rewrite !length_app in H. simpl in H. pose proof (replace_escapes (length name) name ltac:(lia)) as Hr.
    pose proof (unescape_length (replace_fuel escapes (length name) name ++ [quote_mark])) as Hl.
    rewrite Hr, length_app in Hl. simpl in Hl. lia.
Qed.

(** ** Quoted text is still storable *)

Definition unescaped (c : ascii) : Prop := c <> backslash /\ c <> quote_mark.

Lemma replace_skip n c t : Forall unescaped c -> (length (c ++ t) <= n)%nat ->
  replace_fuel escapes n (c ++ t) = c ++ replace_fuel escapes (n - length c) t.
Proof.
  intros Hc. revert n. induction Hc as [|a c [Hb Hq] _ IH]; intros n Hn; [by rewrite Nat.sub_0_r|].
  simpl in Hn. destruct n as [|n]; [lia|]. cbn [app replace_fuel escapes find prefixb fst].
  destruct (Ascii.eqb_spec backslash a); [congruence|]. destruct (Ascii.eqb_spec quote_mark a); [congruence|].
  cbn [andb]. rewrite IH by lia. done.
Qed.

Lemma high_unescaped c : 128 <= code c -> unescaped c.
Proof. intros H. split; intros ->; vm_compute in H; congruence. Qed.

Lemma valid_rune_high a r : valid_rune (a :: r) = true -> 128 <= code a -> Forall unescaped (a :: r).
Proof.
  intros (a' & r' & [= <- <-] & _ & Hr & _)%valid_rune_shape Ha. constructor; [by apply high_unescaped|].
  eapply Forall_impl; [exact Hr|]. cbn. intros b Hb. apply high_unescaped.
  rewrite utf8Start_cont in Hb. unfold cont, between in Hb. apply negb_false_iff, andb_true_iff in Hb as [Hb _]. lia.
Qed.

Lemma valid_rune_low a r : valid_rune (a :: r) = true -> code a < 128 -> r = [].
Proof.
  intros H%valid_rune_iff Ha. cbn [rune_len] in H. destruct (Z.ltb_spec (code a) 128); [|lia].
  injection H as H. by destruct r.
Qed.

Lemma valid_ascii l : Forall (fun c => code c < 128) l -> valid_utf8 l = true.
Proof.
  intros H. apply valid_utf8_concat. exists (map (fun c => [c]) l). split.
  - apply forallb_forall. intros x (c & <- & Hc)%in_map_iff. apply valid_rune_iff. cbn [rune_len].
    rewrite Forall_forall in H. specialize (H c ltac:(by apply list_elem_of_In)).
    destruct (Z.ltb_spec (code c) 128); [done|lia].
  - clear H. induction l as [|c l IH]; [done|]. cbn. by f_equal.
Qed.

Lemma replace_escapes_valid n cs : forallb valid_rune cs = true -> (length (concat cs) <= n)%nat ->
  valid_utf8 (replace_fuel escapes n (concat cs)) = true.
Proof.
  revert n. induction cs as [|c cs IH]; intros n; [by destruct n|]. cbn [forallb concat].
  intros [Hc Hcs]%andb_true_iff Hn. destruct (valid_rune_shape c Hc) as (a & r & -> & _).
  destruct (decide (code a < 128)) as [Hlow|Hhigh].
  - rewrite (valid_rune_low a r Hc Hlow) in *. destruct n as [|n]; [simpl in Hn; lia|]. simpl in Hn.
    cbn [app replace_fuel escapes find prefixb fst].
    destruct (Ascii.eqb_spec backslash a) as [<-|].
    { apply (valid_utf8_app [backslash; backslash]); [done|]. apply (IH n Hcs). lia. }
    cbn [andb]. destruct (Ascii.eqb_spec quote_mark a) as [<-|].
    { apply (valid_utf8_app [backslash; quote_mark]); [done|]. apply (IH n Hcs). lia. }
    cbn [andb]. apply (valid_utf8_app [a]); [|apply IH; [done|lia]]. apply valid_ascii. by repeat constructor.
  - rewrite replace_skip; [|apply valid_rune_high; [done|lia]|done]. apply valid_utf8_app.
    + apply valid_utf8_concat. exists [a :: r]. cbn [forallb concat]. by rewrite Hc, app_nil_r.
    + apply IH; [done|]. rewrite length_app in Hn. lia.
Qed.

Lemma replace_escapes_bytes n s c : c ∈ replace_fuel escapes n s -> c ∈ s \/ c = backslash \/ c = quote_mark.
Proof.
  revert s. induction n as [|n IH]; intros [|a s]; try (by intros ?%elem_of_nil).
  cbn [replace_fuel escapes find prefixb fst]. destruct (Ascii.eqb_spec backslash a) as [<-|].
  { cbn. rewrite drop_0, !elem_of_cons. intros [->|[->|H]]; [auto..|]. apply IH in H. tauto. }
  cbn [andb]. destruct (Ascii.eqb_spec quote_mark a) as [<-|].
  { cbn. rewrite drop_0, !elem_of_cons. intros [->|[->|H]]; [auto..|]. apply IH in H. tauto. }
  cbn [andb]. rewrite !elem_of_cons. intros [->|H]; [auto|]. apply IH in H. tauto.
Qed.

Lemma quoteDisplayName_storable name : storable name = true -> storable (quoteDisplayName name) = true.
Proof.
  intros Hs. unfold quoteDisplayName. destruct (forallb _ name); [done|].
  apply storable_iff in Hs as [Hv Hn]. apply storable_iff. split.
  - apply valid_utf8_concat in Hv as (cs & Hcs & ->). repeat apply valid_utf8_app; [done| |done].
    by apply replace_escapes_valid.
  - rewrite !elem_of_app, !list_elem_of_singleton. intros [H|[H|H]]; try done.
    apply replace_escapes_bytes in H as [?|[?|?]]; done.
Qed.
