(* ===== verification/GoParse.v ===== *)
(** The parts of Go's [strconv] and [strings] that take text apart: decimal numbers and
    lists separated by commas. *)
From S2P Require Import Prelude GoStrings Text.
From Stdlib Require Import String.
From stdpp Require Import strings pretty list.
Open Scope list_scope.
Open Scope Z_scope.

Definition digit (c : ascii) : option Z := let n := code c in if (48 <=? n) && (n <=? 57) then Some (n - 48) else None.
Fixpoint all_digits (l : list ascii) (acc : Z) : option Z :=
  match l with
  | [] => Some acc
  | c :: l => match digit c with Some d => all_digits l (acc * 10 + d) | None => None end
  end.
(** [strconv.ParseUint(s, 10, bits)]: no sign, no separators, no value out of range. *)
Definition ParseUint (bits : Z) (s : string) : option Z :=
  match lit s with
  | [] => None
  | l => n ← all_digits l 0; if n <? 2 ^ bits then Some n else None
  end.
(** [strconv.ParseInt(s, 10, 64)], and [strconv.Atoi] on a 64-bit machine. *)
Definition ParseInt (s : string) : option Z :=
  let '(negative, l) := match list_ascii_of_string s with
    | "-"%char :: l => (true, l)
    | "+"%char :: l => (false, l)
    | l => (false, l)
    end in
  match l with
  | [] => None
  | _ => n ← all_digits l 0;
      let n := if negative : bool then - n else n in
      if bool_decide (is_i64 n) then Some n else None
  end.
(** [strings.Split(s, ",")], [part] being what was read of the current piece. *)
Fixpoint Split_comma (s part : string) : list string :=
  match s with
  | EmptyString => [part]
  | String "," s => part :: Split_comma s ""
  | String c s => Split_comma s (part ++ String c "")
  end%string.

(** * Printed numbers are read back *)

Lemma digit_char (n : N) : (n < 10)%N -> digit (pretty_N_char n) = Some (Z.of_N n).
Proof.
  intros Hn. destruct n as [|p]; [reflexivity|]. do 4 (destruct p as [p|p|]; try reflexivity; try lia).
Qed.

Lemma all_digits_go (x : N) : forall s, all_digits (lit (pretty_N_go x s)) 0 = all_digits (lit s) (Z.of_N x).
Proof.
  induction x as [x IH] using (well_founded_induction N.lt_wf_0). intros s.
  destruct (decide (x = 0)%N) as [->|Hx]; [by rewrite pretty_N_go_0|].
  rewrite pretty_N_go_step by lia. rewrite (IH (x / 10)%N) by (apply N.div_lt; lia).
  unfold lit. cbn [list_ascii_of_string all_digits]. rewrite digit_char by (apply N.mod_lt; lia). f_equal.
  rewrite N2Z.inj_div, N2Z.inj_mod. pose proof (Z.div_mod (Z.of_N x) 10). lia.
Qed.

Lemma all_digits_Itoa (n : Z) : 0 <= n -> all_digits (lit (Itoa n)) 0 = Some n.
Proof.
  intros Hn. destruct n as [|p|p]; [reflexivity| |lia].
  change (Itoa (Z.pos p)) with (pretty_N_go (N.pos p) ""). by rewrite all_digits_go.
Qed.

(** The first digit, and the only one that is a zero, is that of zero. *)
Lemma Itoa_head (n : Z) : 0 <= n -> exists c l, lit (Itoa n) = c :: l /\ is_Some (digit c) /\ (c = "0"%char -> n = 0).
Proof.
  intros Hn. destruct n as [|p|p]; [by eexists _, _| |lia].
  change (Itoa (Z.pos p)) with (pretty_N_go (N.pos p) "").
  assert (forall x s, (0 < x)%N -> exists c l, lit (pretty_N_go x s) = c :: l /\ is_Some (digit c) /\ c <> "0"%char) as Hgo.
  { clear. intros x. induction x as [x IH] using (well_founded_induction N.lt_wf_0). intros s Hx. rewrite pretty_N_go_step by lia.
    destruct (decide (x / 10 = 0)%N) as [E|Hne].
    - rewrite E, pretty_N_go_0. eexists _, _. split; [reflexivity|]. assert (x < 10)%N as Hlt by (by apply N.div_small_iff in E).
      rewrite N.mod_small by done. rewrite digit_char by done. split; [by eexists|].
      destruct x as [|p]; [done|]. do 4 (destruct p as [p|p|]; try done; try lia).
    - apply IH; [apply N.div_lt; lia|by apply N.neq_0_lt_0]. }
  destruct (Hgo (N.pos p) ""%string ltac:(done)) as (c & l & E & Hd & Hc). by exists c, l.
Qed.

Lemma ParseUint_Itoa bits n : 0 <= n < 2 ^ bits -> ParseUint bits (Itoa n) = Some n.
Proof.
  intros [Hn Hb]. unfold ParseUint. destruct (Itoa_head n Hn) as (c & l & E & _).
  pose proof (all_digits_Itoa n Hn) as Hd. rewrite E in *. rewrite Hd. cbn. by rewrite (proj2 (Z.ltb_lt _ _) Hb).
Qed.

(** Nothing else is: the characters of a number are digits. *)
Lemma all_digits_chars l acc n : all_digits l acc = Some n -> Forall (fun c => is_Some (digit c)) l.
Proof.
  revert acc. induction l as [|c l IH]; intros acc; [constructor|]. cbn. destruct (digit c) as [d|] eqn:E; [|done].
  intros H. constructor; [by rewrite E|]. by eapply IH.
Qed.
Lemma Itoa_digits n : 0 <= n -> Forall (fun c => is_Some (digit c)) (lit (Itoa n)).
Proof. intros Hn. eapply all_digits_chars. by apply all_digits_Itoa. Qed.

(** * A list joined with commas is split into its pieces *)

Lemma str_app_nil_r (s : string) : (s ++ "")%string = s.
Proof. induction s as [|c s IH]; [done|]. exact (f_equal (String c) IH). Qed.
Lemma str_app_assoc (s t u : string) : (s ++ t ++ u)%string = ((s ++ t) ++ u)%string.
Proof. induction s as [|c s IH]; [done|]. exact (f_equal (String c) IH). Qed.

Definition no_comma (s : string) : Prop := Forall (fun c => c <> ","%char) (lit s).

Lemma Split_comma_piece s part rest : no_comma s ->
  Split_comma (s ++ rest) part = Split_comma rest (part ++ s).
Proof.
  unfold no_comma. revert part. induction s as [|c s IH]; intros part; [by rewrite str_app_nil_r|].
  unfold lit. cbn [list_ascii_of_string]. intros [Hc Hs]%Forall_cons. change (String c s ++ rest)%string with (String c (s ++ rest)).
  transitivity (Split_comma (s ++ rest) (part ++ String c "")).
  - destruct c as [[] [] [] [] [] [] [] []]; try reflexivity. by destruct Hc.
  - rewrite IH by done. by rewrite <- str_app_assoc.
Qed.
Definition comma_list (l : list string) : string := foldr (fun y s => "," ++ y ++ s)%string ""%string l.
Lemma Split_comma_list l : Forall no_comma l -> forall part, Split_comma (comma_list l) part = part :: l.
Proof.
  induction 1 as [|y l Hy Hl IH]; intros part; [done|].
  transitivity (part :: Split_comma (y ++ comma_list l) "")%list; [done|]. by rewrite Split_comma_piece, IH.
Qed.
