(* ===== verification/NumText.v ===== *)
(** Number sets as text (third_party/go-imap/internal/imapnum/numset.go: String,
    parseNum, parseNumRange, ParseSet), the form they have on the wire. *)
From S2P Require Import Prelude NumSet GoStrings Retry Text GoParse.
From Stdlib Require Import String.
From stdpp Require Import strings list.
Open Scope list_scope.
Open Scope Z_scope.

(** * Printing *)

(** [Range.String]. *)
Definition Range_String (s : Range) : string :=
  if Start s =? Stop s then (if Start s =? 0 then "*" else Itoa (Start s))
  else if Stop s =? 0 then (Itoa (Start s) ++ ":*")%string
  else (Itoa (Start s) ++ ":" ++ Itoa (Stop s))%string.

(** [Set.String]: every range after a comma, the first of which is dropped. *)
Definition print_range (v : Range) : string :=
  if Start v =? 0 then "*"
  else if negb (Start v =? Stop v) then
    (if Stop v =? 0 then (Itoa (Start v) ++ ":*")%string else (Itoa (Start v) ++ ":" ++ Itoa (Stop v))%string)
  else Itoa (Start v).
Definition Set_String (s : list Range) : string :=
  match s with
  | [] => ""%string
  | _ =>
      match fold_left (fun b v => (b ++ "," ++ print_range v)%string) s ""%string with
      | String _ b => b
      | EmptyString => ""%string
      end
  end.

(** * Parsing *)

Definition errBadNumSet (v : string) : err := ErrText ("imap: bad number set value " ++ Quote v).

Definition parseNum (v : string) : err + Z :=
  match ParseUint 32 v, v with
  | Some n, String c _ => if Ascii.eqb c "0" then inl (errBadNumSet v) else inr n
  | _, _ => if String.eqb v "*" then inr 0 else inl (errBadNumSet v)
  end.

(** What stands before the first colon and after it. *)
Fixpoint at_colon (v : string) : option (string * string) :=
  match v with
  | EmptyString => None
  | String ":" v => Some (""%string, v)
  | String c v => match at_colon v with Some (a, b) => Some (String c a, b) | None => None end
  end.
Definition parseNumRange (v : string) : err + Range :=
  match at_colon v with
  | None => match parseNum v with inl e => inl e | inr n => inr (mkRange n n) end
  | Some (a, b) =>
      match parseNum a, parseNum b with
      | inr start, inr stop =>
          if ((stop <? start) && negb (stop =? 0)) || (start =? 0) then inr (mkRange stop start) else inr (mkRange start stop)
      | _, _ => inl (errBadNumSet v)
      end
  end.

Fixpoint parse_pieces (l : list string) (s : list Range) : err + list Range :=
  match l with
  | [] => inr s
  | sv :: l =>
      match parseNumRange sv with
      | inl e => inl e
      | inr r => parse_pieces l (Set_AddRange s (Start r) (Stop r))
      end
  end.
Definition ParseSet (set : string) : err + list Range := parse_pieces (Split_comma set "") [].

Example parse_set : ParseSet "5,1:3,*:7,4" = inr [mkRange 1 5; mkRange 7 0] /\ Set_String [mkRange 1 5; mkRange 7 0] = "1:5,7:*"%string.
Proof. split; vm_compute; reflexivity. Qed.
Example parse_bad : ParseSet "" = inl (errBadNumSet "") /\ ParseSet "1,,2" = inl (errBadNumSet "") /\ ParseSet "01" = inl (errBadNumSet "01")
  /\ ParseSet "4294967296" = inl (errBadNumSet "4294967296").
Proof. repeat split; vm_compute; reflexivity. Qed.

(** * What a text means *)

Lemma all_digits_nonneg l acc n : 0 <= acc -> all_digits l acc = Some n -> 0 <= n.
Proof.
  revert acc. induction l as [|c l IH]; intros acc Ha; [by intros [= <-]|]. cbn. destruct (digit c) as [d|] eqn:E; [|done].
  apply IH. unfold digit in E. destruct ((48 <=? code c) && (code c <=? 57)) eqn:Ec; [|done]. injection E as <-.
  apply andb_prop in Ec as [H1%Z.leb_le _]. lia.
Qed.
Lemma parseNum_range v n : parseNum v = inr n -> is_u32 n.
Proof.
  unfold parseNum, ParseUint. destruct (lit v) as [|c l] eqn:El.
  { destruct (String.eqb v "*"); [|by destruct v]. intros [= <-]. by split. }
  assert (is_u32 0) as H0 by by split.
  destruct (all_digits (c :: l) 0) as [m|] eqn:Ed; cbn [mbind option_bind]; [|by destruct (String.eqb v "*"); intros [= <-]].
  destruct (Z.ltb_spec m (2 ^ 32)) as [Hlt|]; [|by destruct (String.eqb v "*"); intros [= <-]].
  destruct v as [|c' v]; [by destruct (String.eqb "" "*")|]. destruct (Ascii.eqb c' "0"); [done|]. intros [= <-].
  split; [by eapply all_digits_nonneg in Ed|done].
Qed.

(** Every range that parses is well formed, whichever end was written first. *)
Lemma parseNumRange_wf v r : parseNumRange v = inr r -> range_wf r.
Proof.
  unfold parseNumRange. destruct (at_colon v) as [[a b]|].
  - destruct (parseNum a) as [e|start] eqn:Ea; [done|]. destruct (parseNum b) as [e|stop] eqn:Eb; [done|].
    apply parseNum_range in Ea, Eb. destruct ((stop <? start) && negb (stop =? 0) || (start =? 0)) eqn:Ec;
      intros [= <-]; ranges; destruct (Z.eqb_spec start 0), (Z.eqb_spec stop 0); cbn in Ec;
      rewrite ?andb_true_r, ?andb_false_r, ?orb_false_r, ?orb_true_r in Ec;
      try discriminate; try apply Z.ltb_lt in Ec; try apply Z.ltb_ge in Ec; lia.
  - destruct (parseNum v) as [e|n] eqn:En; [done|]. intros [= <-]. apply range_wf_num. by eapply parseNum_range.
Qed.

Lemma AddRange_insert s r : range_wf r -> Set_AddRange s (Start r) (Stop r) = Set_insert s r.
Proof.
  intros Hr. unfold Set_AddRange. destruct r as [a b]. cbn [Start Stop].
  destruct (((b <? a) && negb (b =? 0)) || (a =? 0)) eqn:E; [|done]. replace (mkRange b a) with (mkRange a b); [done|].
  ranges. destruct (Z.eqb_spec a 0), (Z.eqb_spec b 0); cbn in E; rewrite ?andb_true_r, ?andb_false_r, ?orb_false_r, ?orb_true_r in E;
    try discriminate; try apply Z.ltb_lt in E; subst; try done; lia.
Qed.

(** The members of a text: those of its pieces. *)
Definition piece_holds (q : Z) (piece : string) : Prop := exists r, parseNumRange piece = inr r /\ Range_Contains r q = true.

Lemma parse_pieces_spec l : forall s t, set_wf s -> parse_pieces l s = inr t ->
  set_wf t /\ forall q, is_u32 q -> q <> 0 -> Set_Contains t q = true <-> Set_Contains s q = true \/ Exists (piece_holds q) l.
Proof.
  induction l as [|sv l IH]; intros s t Hs; cbn [parse_pieces].
  { intros [= <-]. split; [done|]. intros q _ _. rewrite Exists_nil. tauto. }
  destruct (parseNumRange sv) as [e|r] eqn:Er; [done|]. pose proof (parseNumRange_wf _ _ Er) as Hr. rewrite AddRange_insert by done.
  destruct (Set_insert_spec s r Hs Hr) as [Hw Hin]. intros E. destruct (IH _ _ Hw E) as [Ht Hq]. split; [done|].
  intros q Hqu Hq0. rewrite Hq, Exists_cons, !Set_Contains_spec, Hin by done. unfold piece_holds at 2. rewrite Er.
  setoid_rewrite <- (Range_Contains_spec r q Hr Hqu). naive_solver.
Qed.

(** * Printed sets *)

Lemma print_no_colon n : 0 <= n -> at_colon (Itoa n) = None.
Proof.
  intros Hn. pose proof (Itoa_digits n Hn) as Hd. induction (Itoa n) as [|c s IH]; [done|].
  unfold lit in *. cbn [list_ascii_of_string] in Hd. apply Forall_cons in Hd as [[d Hc] Hd]. specialize (IH Hd). cbn [at_colon]. rewrite IH.
  destruct c as [[] [] [] [] [] [] [] []]; try reflexivity. discriminate Hc.
Qed.
Lemma print_colon n t : 0 <= n -> at_colon (Itoa n ++ ":" ++ t) = Some (Itoa n, t).
Proof.
  intros Hn. pose proof (Itoa_digits n Hn) as Hd. induction (Itoa n) as [|c s IH]; [done|].
  unfold lit in *. cbn [list_ascii_of_string] in Hd. apply Forall_cons in Hd as [[d Hc] Hd]. specialize (IH Hd).
  change ((String c s ++ ":" ++ t)%string) with (String c (s ++ ":" ++ t)). cbn [at_colon]. rewrite IH.
  destruct c as [[] [] [] [] [] [] [] []]; try reflexivity. discriminate Hc.
Qed.
Lemma parseNum_Itoa n : is_u32 n -> n <> 0 -> parseNum (Itoa n) = inr n.
Proof.
  intros [Hn Hb] Hne. unfold parseNum. rewrite ParseUint_Itoa by done.
  destruct (Itoa_head n Hn) as (c & l & E & Hd & Hz). destruct (Itoa n) as [|c' s]; [done|].
  unfold lit in E. cbn [list_ascii_of_string] in E. injection E as -> _.
  destruct (Ascii.eqb_spec c "0"); [by destruct (Hne (Hz e))|done].
Qed.

Lemma print_range_parses r : range_wf r -> parseNumRange (print_range r) = inr r.
Proof.
  intros (Hs & Ht & Hle). unfold print_range, parseNumRange. destruct r as [a b]. cbn [Start Stop] in *.
  unfold lo, hi, value, star in Hle. cbn [Start Stop] in Hle. destruct (Z.eqb_spec a 0) as [->|Ha].
  { destruct (Z.eqb_spec b 0) as [->|]; [done|]. unfold is_u32 in Ht. lia. }
  destruct (Z.eqb_spec a b) as [<-|Hab]; cbn [negb].
  { by rewrite print_no_colon, parseNum_Itoa by (done || apply Hs). }
  destruct (Z.eqb_spec b 0) as [->|Hb].
  - change (Itoa a ++ ":*")%string with (Itoa a ++ ":" ++ "*")%string. rewrite (print_colon a "*") by apply Hs. rewrite parseNum_Itoa by done. change (parseNum "*") with (@inr err Z 0).
    cbn. rewrite andb_false_r. cbn. by rewrite (proj2 (Z.eqb_neq _ _) Ha).
  - rewrite (print_colon a) by apply Hs. rewrite !parseNum_Itoa by done.
    rewrite (proj2 (Z.ltb_ge b a)), (proj2 (Z.eqb_neq _ _) Ha) by lia. done.
Qed.
Lemma digits_no_comma s : Forall (fun c => is_Some (digit c)) (lit s) -> no_comma s.
Proof. intros Hd. eapply Forall_impl; [exact Hd|]. intros c [d Hc] ->. discriminate Hc. Qed.
Lemma no_comma_app s t : no_comma s -> no_comma t -> no_comma (s ++ t).
Proof. unfold no_comma, lit. induction s as [|c s IH]; [done|]. intros [Hc Hs]%Forall_cons Ht. constructor; [done|by apply IH]. Qed.
Lemma print_no_comma r : range_wf r -> no_comma (print_range r).
Proof.
  intros ([Hs _] & [Ht _] & _). unfold print_range.
  assert (forall n, 0 <= n -> no_comma (Itoa n)) as Hn by (intros n Hn; by apply digits_no_comma, Itoa_digits).
  destruct (_ =? 0); [by repeat constructor|]. destruct (negb _); [|by apply Hn].
  destruct (_ =? 0); (apply no_comma_app; [by apply Hn|]); [by repeat constructor|].
  apply (no_comma_app ":"); [by repeat constructor|by apply Hn].
Qed.

(** ** Ranges put in order stay as they are *)

Lemma Range_Merge_gap s t : range_wf s -> range_wf t -> gap s t -> Range_Merge s t = (s, false).
Proof.
  intros Hs Ht Hg. destruct (Range_Merge s t) as [u ok] eqn:E. pose proof (Range_Merge_spec s t u ok Hs Ht E) as Hm.
  destruct ok; [|by destruct Hm as [-> _]]. exfalso. destruct Hm as (_ & _ & _ & Hm).
  assert (hi s + 1 = star /\ lo t = star) as [Eh El].
  { pose proof (value_inj_u32 (Start t) (proj1 Ht)) as Hb. unfold range_wf, gap, lo in *. lia. }
  destruct s as [a b], t as [c d]. revert E. unfold Range_Merge, Range_eqb. ranges.
  destruct (Z.eqb_spec a 0), (Z.eqb_spec b 0), (Z.eqb_spec c 0), (Z.eqb_spec d 0); subst; cbn; try done; try lia.
  all: rewrite ?andb_false_r; try done; try lia.
  by destruct (Z.eqb_spec a 0); [lia|].
Qed.

Lemma insert_last s v : set_wf (s ++ [v]) -> Set_insert s v = s ++ [v].
Proof.
  intros Hwf. apply set_wf_app in Hwf as (Hs & (Hv & _) & Hg). assert (is_u32 (Start v)) as Hu by apply Hv.
  destruct (Set_search_split s (Start v) Hs Hu) as (Hle & _ & Hhead & _). set (i := fst (Set_search s (Start v))) in *.
  assert (i = length s) as Ei.
  { destruct (decide (i = length s)) as [|Hne]; [done|]. exfalso. assert (i < length s)%nat as Hlt by lia.
    destruct (lookup_lt_is_Some_2 s i Hlt) as [b Hb]. destruct (drop i s) as [|b' post] eqn:Ed.
    { apply (f_equal length) in Ed. rewrite length_drop in Ed. cbn in Ed. lia. }
    rewrite (drop_S s b i Hb) in Ed. injection Ed as <- _. specialize (Hhead b eq_refl).
    destruct (last s) as [z|] eqn:El; [|by apply last_None in El; subst].
    pose proof (Hg z v eq_refl eq_refl) as Hgap. rewrite last_lookup in El.
    pose proof (set_wf_hi_le s i (pred (length s)) b z Hs ltac:(lia) Hb El). unfold gap, lo in Hgap. lia. }
  destruct s as [|a pre _] using rev_ind; [by rewrite (Set_insert_nil [] v)|].
  rewrite length_app in Ei. cbn in Ei. rewrite (Set_insert_snoc pre a [] v) by (unfold i in Ei; lia).
  rewrite Range_Merge_gap; [done| |done|by apply Hg; [rewrite last_snoc|]].
  apply set_wf_app in Hs as (_ & Ha & _). apply Ha.
Qed.

Lemma parse_in_order l : forall s, set_wf (s ++ l) -> parse_pieces (map print_range l) s = inr (s ++ l).
Proof.
  induction l as [|r l IH]; intros s Hwf; [by rewrite app_nil_r|]. cbn [map parse_pieces].
  assert (set_wf ((s ++ [r]) ++ l)) as Hwf' by by rewrite <- app_assoc.
  pose proof (proj1 (set_wf_app _ _) Hwf') as (Hsr & _). assert (range_wf r) as Hr by (by apply set_wf_app in Hsr as (_ & [? _] & _)).
  rewrite print_range_parses, AddRange_insert, insert_last by done. rewrite IH by done. by rewrite <- app_assoc.
Qed.

Lemma Set_String_eq r s : Set_String (r :: s) = (print_range r ++ comma_list (map print_range s))%string.
Proof.
  unfold Set_String. cbn [fold_left]. change ("" ++ "," ++ print_range r)%string with ("," ++ print_range r)%string.
  assert (forall l b, fold_left (fun b v => (b ++ "," ++ print_range v)%string) l b = (b ++ comma_list (map print_range l))%string) as Hf.
  { induction l as [|v l IH]; intros b; [by rewrite str_app_nil_r|]. cbn [fold_left map]. rewrite IH.
    change (comma_list (print_range v :: map print_range l)) with ("," ++ print_range v ++ comma_list (map print_range l))%string.
    rewrite <- !str_app_assoc. done. }
  by rewrite Hf.
Qed.

(** [C35] A number set survives the wire: the text of a well-formed set that is not empty
    parses, and to the very same ranges.  And a text means what it lists: whatever parses
    is a well-formed set, which contains exactly the numbers that one of the pieces
    between its commas names, in whatever order they are given and however they overlap. *)
Theorem number_sets_survive_the_wire (s : list Range) (text : string) (t : list Range) :
  (set_wf s -> s <> [] -> ParseSet (Set_String s) = inr s) /\
  (ParseSet text = inr t -> set_wf t /\
   forall q, is_u32 q -> q <> 0 -> Set_Contains t q = true <-> Exists (piece_holds q) (Split_comma text "")).
Proof.
  split.
  - intros Hwf Hne. destruct s as [|r s]; [done|]. unfold ParseSet. rewrite Set_String_eq.
    pose proof (set_wf_Forall _ Hwf) as [Hr Hs]%Forall_cons.
    rewrite Split_comma_piece, Split_comma_list by (by apply print_no_comma || (apply Forall_map; by eapply Forall_impl, print_no_comma)).
    by apply (parse_in_order (r :: s) []).
  - intros E. destruct (parse_pieces_spec _ [] t I E) as [Hw Hq]. split; [done|]. intros q Hu H0. rewrite Hq by done.
    split; [|by right]. intros [Hc|?]; [done|done].
Qed.

Lemma number_sets_survive_the_wire_witness :
  ParseSet (Set_String [mkRange 1 5; mkRange 7 7; mkRange 9 0]) = inr [mkRange 1 5; mkRange 7 7; mkRange 9 0]
  /\ Set_Contains [mkRange 1 5; mkRange 7 0] 4 = true.
Proof.
  split.
  - apply (proj1 (number_sets_survive_the_wire [mkRange 1 5; mkRange 7 7; mkRange 9 0] "" [])); [|done].
    simpl. ranges. repeat split; intros; simplify_eq/=; lia.
  - apply (proj2 (number_sets_survive_the_wire [] "5,1:3,*:7,4" [mkRange 1 5; mkRange 7 0]) ltac:(vm_compute; reflexivity)); [done|done|].
    do 3 right. left. exists (mkRange 4 4). by split.
Defined.
