(* ===== verification/GoFloat.v ===== *)
(** Go's [float64] and [strconv.ParseFloat], as far as sizes and durations written in a
    configuration need them: finite values are exact dyadic numbers, every operation
    rounds its exact result to the nearest double, ties to even. *)
From S2P Require Import Prelude GoStrings Text GoParse.
From Stdlib Require Import String.
From stdpp Require Import strings list.
Open Scope list_scope.
Open Scope Z_scope.

(** [Finite m e] is [m * 2^e]; the two zeros are one. *)
Inductive float64 := Finite (m e : Z) | Inf (neg : bool) | NaN.

(** * Rounding *)

(** The whole part of the binary logarithm of [p / q]. *)
Definition log2_ratio (p q : Z) : Z :=
  let l := Z.log2 p - Z.log2 q in
  if (if 0 <=? l then q * 2 ^ l <=? p else q <=? p * 2 ^ (- l)) then l else l - 1.
Definition round_half_even (a b : Z) : Z :=
  let n := a / b in
  match 2 * (a mod b) ?= b with
  | Lt => n
  | Gt => n + 1
  | Eq => if Z.even n then n else n + 1
  end.
(** The double nearest to [p / q], or to [- p / q]: 53 bits, the least exponent -1074,
    and infinity from halfway past the greatest finite double on. *)
Definition round (neg : bool) (p q : Z) : float64 :=
  if p =? 0 then Finite 0 0 else
  let e := Z.max (-1074) (log2_ratio p q - 52) in
  let n := if 0 <=? e then round_half_even p (q * 2 ^ e) else round_half_even (p * 2 ^ (- e)) q in
  if (971 <? e) || ((e =? 971) && (2 ^ 53 <=? n)) then Inf neg else Finite (if neg then - n else n) e.

Definition of_Z (z : Z) : float64 := round (z <? 0) (Z.abs z) 1.
(** [m * 2^e] as a fraction. *)
Definition over (m e : Z) : Z * Z := if 0 <=? e then (m * 2 ^ e, 1) else (m, 2 ^ (- e)).

Definition negative (x : float64) : bool := match x with Finite m _ => m <? 0 | Inf neg => neg | NaN => false end.
Definition is_zero (x : float64) : bool := match x with Finite m _ => m =? 0 | _ => false end.

Definition mul (x y : float64) : float64 :=
  let neg := xorb (negative x) (negative y) in
  match x, y with
  | NaN, _ | _, NaN => NaN
  | Finite m e, Finite m' e' => let '(p, q) := over (Z.abs (m * m')) (e + e') in round neg p q
  | _, _ => if is_zero x || is_zero y then NaN else Inf neg
  end.
Definition div (x y : float64) : float64 :=
  let neg := xorb (negative x) (negative y) in
  match x, y with
  | NaN, _ | _, NaN | Inf _, Inf _ => NaN
  | Inf _, _ => Inf neg
  | Finite _ _, Inf _ => Finite 0 0
  | Finite m e, Finite m' e' =>
      if m' =? 0 then (if m =? 0 then NaN else Inf neg)
      else round neg (Z.abs m * 2 ^ Z.max 0 (e - e')) (Z.abs m' * 2 ^ Z.max 0 (e' - e))
  end.

Definition add (x y : float64) : float64 :=
  match x, y with
  | NaN, _ | _, NaN => NaN
  | Inf a, Inf b => if Bool.eqb a b then Inf a else NaN
  | Inf a, _ | _, Inf a => Inf a
  | Finite m e, Finite m' e' =>
      let e0 := Z.min e e' in
      let z := m * 2 ^ (e - e0) + m' * 2 ^ (e' - e0) in
      let '(p, q) := over (Z.abs z) e0 in round (z <? 0) p q
  end.
(** [%.1f]: the exact value to one decimal, ties to even. *)
Definition one_decimal (x : float64) : string :=
  match x with
  | NaN => "NaN"
  | Inf neg => if neg then "-Inf" else "+Inf"
  | Finite m e =>
      let '(p, q) := over (Z.abs m * 10) e in
      let t := round_half_even p q in
      ((if (m <? 0)%Z then "-" else "") ++ Itoa (t / 10) ++ "." ++ Itoa (t mod 10))%string
  end.

(** Conversion to an integer type with the values [lo .. hi]: towards zero.  What it gives
    for a value out of range depends on the machine ([undefined]). *)
Definition to_Z (undefined : float64 -> Z) (lo hi : Z) (x : float64) : Z :=
  match x with
  | Finite m e =>
      let z := if 0 <=? e then m * 2 ^ e else Z.quot m (2 ^ (- e)) in
      if (lo <=? z) && (z <=? hi) then z else undefined x
  | _ => undefined x
  end.

(** * ParseFloat *)

Definition hex_value (c : ascii) : option Z :=
  let n := code c in
  if (65 <=? n) && (n <=? 70) then Some (n - 55) else if (97 <=? n) && (n <=? 102) then Some (n - 87) else digit c.

(** Digits with at most one point among them and underscores anywhere: the digits' value,
    how many of them follow the point, whether there was a digit, an underscore; the rest. *)
Record mantissa := mk_mantissa { mant : Z; frac : Z; sawdot : bool; sawdigits : bool; underscores : bool }.
Fixpoint read_mantissa (hex : bool) (l : list ascii) (s : mantissa) : mantissa * list ascii :=
  match l with
  | [] => (s, [])
  | c :: l' =>
      if Ascii.eqb c "_" then read_mantissa hex l' (mk_mantissa (mant s) (frac s) (sawdot s) (sawdigits s) true)
      else if Ascii.eqb c "." then
        if sawdot s then (s, l) else read_mantissa hex l' (mk_mantissa (mant s) (frac s) true (sawdigits s) (underscores s))
      else
        match (if hex then hex_value c else digit c) with
        | Some d =>
            read_mantissa hex l' (mk_mantissa (mant s * (if hex then 16 else 10) + d) (if sawdot s then frac s + 1 else frac s)
              (sawdot s) true (underscores s))
        | None => (s, l)
        end
  end.
(** The digits of the exponent; once it has reached 10000 no further digit counts. *)
Fixpoint read_exponent (l : list ascii) (e : Z) (us : bool) : Z * bool * list ascii :=
  match l with
  | [] => (e, us, [])
  | c :: l' =>
      if Ascii.eqb c "_" then read_exponent l' e true
      else match digit c with
           | Some d => read_exponent l' (if e <? 10000 then e * 10 + d else e) us
           | None => (e, us, l)
           end
  end.
Definition is_letter (c : ascii) (upper : ascii) : bool := Ascii.eqb (lower_ascii c) (lower_ascii upper).

(** [underscoreOK]: an underscore stands between digits, or between the base prefix and a digit. *)
Inductive seen := SeenStart | SeenDigit | SeenUnderscore | SeenOther.
Fixpoint underscores_ok (hex : bool) (l : list ascii) (before : seen) : bool :=
  match l with
  | [] => match before with SeenUnderscore => false | _ => true end
  | c :: l =>
      match (if hex then hex_value c else digit c) with
      | Some _ => underscores_ok hex l SeenDigit
      | None =>
          if Ascii.eqb c "_" then match before with SeenDigit => underscores_ok hex l SeenUnderscore | _ => false end
          else match before with SeenUnderscore => false | _ => underscores_ok hex l SeenOther end
      end
  end.
Definition unsigned (l : list ascii) : bool * list ascii :=
  match l with "+"%char :: l => (false, l) | "-"%char :: l => (true, l) | _ => (false, l) end.
Definition underscoreOK (l : list ascii) : bool :=
  match (unsigned l).2 with
  | "0"%char :: c :: l =>
      if is_letter c "X" then underscores_ok true l SeenDigit
      else if is_letter c "B" || is_letter c "O" then underscores_ok false l SeenDigit
      else underscores_ok false ("0"%char :: c :: l) SeenStart
  | l => underscores_ok false l SeenStart
  end.

(** The number that the whole text is: its sign, its digits, the base of its exponent, the exponent. *)
Definition readFloat (s : list ascii) : option (bool * Z * Z * Z) :=
  let '(neg, l) := unsigned s in
  let '(hex, l) := match l with "0"%char :: x :: c :: l' => if is_letter x "X" then (true, c :: l') else (false, l) | _ => (false, l) end in
  let '(m, l) := read_mantissa hex l (mk_mantissa 0 0 false false false) in
  if negb (sawdigits m) then None else
  let done e us := if us && negb (underscoreOK s) then None
    else Some (neg, mant m, if hex then 2 else 10, e - (if hex then 4 else 1) * frac m) in
  match l with
  | [] => if hex then None else done 0 (underscores m)
  | c :: l =>
      if is_letter c (if hex then "P"%char else "E"%char) then
        let '(esign, l) := unsigned l in
        match l with
        | c :: _ =>
            match digit c with
            | None => None
            | Some _ =>
                let '(e, us, l) := read_exponent l 0 (underscores m) in
                match l with [] => done (if esign then - e else e) us | _ => None end
            end
        | [] => None
        end
      else None
  end.

Definition special (s : string) : option float64 :=
  let s := ToLower s in
  let one_of l := existsb (String.eqb s) l in
  if one_of ["inf"; "infinity"; "+inf"; "+infinity"]%string then Some (Inf false)
  else if one_of ["-inf"; "-infinity"]%string then Some (Inf true)
  else if one_of ["nan"]%string then Some NaN else None.

Inductive NumErr := ErrSyntax | ErrRange.
Definition numError (fn s : string) (e : NumErr) : string :=
  ("strconv." ++ fn ++ ": parsing " ++ Quote s ++ ": " ++ match e with ErrSyntax => "invalid syntax" | ErrRange => "value out of range" end)%string.

(** [strconv.ParseFloat(s, 64)] *)
Definition ParseFloat (s : string) : NumErr + float64 :=
  match special s with
  | Some x => inr x
  | None =>
      match readFloat (lit s) with
      | None => inl ErrSyntax
      | Some (neg, m, base, e) =>
          match (if 0 <=? e then round neg (m * base ^ e) 1 else round neg m (base ^ (- e))) with
          | Inf _ => inl ErrRange
          | x => inr x
          end
      end
  end.

Example floats : ParseFloat "1.5" = inr (Finite (3 * 2 ^ 51) (-52)) /\ ParseFloat "0X1.8P1" = inr (Finite (3 * 2 ^ 51) (-51))
  /\ ParseFloat "1E400" = inl ErrRange /\ ParseFloat "1_0.5E-1" = ParseFloat "1.05" /\ ParseFloat "1__0" = inl ErrSyntax /\ ParseFloat "-Inf" = inr (Inf true)
  /\ ParseFloat "5E-324" = inr (Finite 1 (-1074)) /\ ParseFloat "." = inl ErrSyntax /\ ParseFloat "0.1" = inr (Finite 7205759403792794 (-56)).
Proof. repeat split; vm_compute; reflexivity. Qed.
Example float_limits : ParseFloat "1.7976931348623157E308" = inr (Finite (2 ^ 53 - 1) 971) /\ ParseFloat "1.7976931348623159E308" = inl ErrRange.
Proof. split; vm_compute; reflexivity. Qed.

(** * Where the arithmetic is exact *)

(** [x] is the integer [v]. *)
Definition exactly (x : float64) (v : Z) : Prop :=
  exists m e, x = Finite m e /\ (if 0 <=? e then m * 2 ^ e = v else m = v * 2 ^ (- e)).
(** Not too many bits to be a double. *)
Definition short (v : Z) : Prop := exists n j, v = n * 2 ^ j /\ 0 < n < 2 ^ 53 /\ 0 <= j <= 64.

Lemma short_small v : 0 < v < 2 ^ 53 -> short v.
Proof. intros Hv. exists v, 0. split; [lia|]. split; [done|lia]. Qed.
Lemma short_pos v : short v -> 0 < v.
Proof. intros (n & j & -> & Hn & Hj). apply Z.mul_pos_pos; [lia|]. apply Z.pow_pos_nonneg; lia. Qed.

Lemma log2_ratio_exact v q : 0 < v -> 0 < q -> log2_ratio (v * q) q = Z.log2 v.
Proof.
  intros Hv Hq. unfold log2_ratio. pose proof (Z.log2_nonneg v). pose proof (Z.log2_spec v Hv) as [Hl Hu].
  pose proof (Z.log2_mul_below v q Hv Hq). pose proof (Z.log2_mul_above v q ltac:(lia) ltac:(lia)).
  rewrite (proj2 (Z.leb_le 0 (Z.log2 (v * q) - Z.log2 q))) by lia.
  assert (Z.log2 (v * q) - Z.log2 q = Z.log2 v \/ Z.log2 (v * q) - Z.log2 q = Z.succ (Z.log2 v)) as [->| ->] by lia.
  - rewrite (proj2 (Z.leb_le _ _)); [done|]. nia.
  - rewrite (proj2 (Z.leb_gt _ _)); [lia|]. nia.
Qed.

Lemma round_half_even_exact n b : 0 < b -> round_half_even (n * b) b = n.
Proof.
  intros Hb. unfold round_half_even. rewrite Z.div_mul, Z.mod_mul by lia. by destruct b.
Qed.

Lemma round_exact v q : short v -> 0 < q -> exactly (round false (v * q) q) v.
Proof.
  intros Hs Hq. pose proof (short_pos v Hs) as Hv. destruct Hs as (n & j & E & Hn & Hj). unfold round.
  rewrite (proj2 (Z.eqb_neq _ _)) by nia. rewrite log2_ratio_exact by done.
  assert (Z.log2 v = Z.log2 n + j) as El by (subst v; rewrite Z.log2_mul_pow2 by lia; lia).
  assert (Z.log2 n <= 52) as Hl by (apply Z.lt_succ_r, Z.log2_lt_pow2; [lia|]; apply Hn).
  pose proof (Z.log2_nonneg n). rewrite Z.max_r by lia. set (e := Z.log2 v - 52).
  assert (e <= j) as Hej by lia. clear El. clearbody e. rewrite (proj2 (Z.ltb_ge 971 e)), (proj2 (Z.eqb_neq e 971)) by lia. cbn [orb andb].
  eexists _, e. split; [reflexivity|]. destruct (Z.leb_spec 0 e) as [He|He].
  - assert (v = n * 2 ^ (j - e) * 2 ^ e) as -> by (rewrite <- Z.mul_assoc, <- Z.pow_add_r by lia; subst v; do 2 f_equal; lia).
    replace (n * 2 ^ (j - e) * 2 ^ e * q) with (n * 2 ^ (j - e) * (q * 2 ^ e)) by ring.
    rewrite round_half_even_exact; [done|]. apply Z.mul_pos_pos; [done|]. apply Z.pow_pos_nonneg; lia.
  - replace (v * q * 2 ^ (- e)) with (v * 2 ^ (- e) * q) by ring. by apply round_half_even_exact.
Qed.

Lemma of_Z_exact v : short v -> exactly (of_Z v) v.
Proof.
  intros Hs. pose proof (short_pos v Hs). unfold of_Z. rewrite (proj2 (Z.ltb_ge v 0)), Z.abs_eq by lia.
  rewrite <- (Z.mul_1_r v) at 1. by apply round_exact.
Qed.

(** A double that is a positive integer, as a fraction. *)
Lemma exactly_over m e v : 0 < v -> (if 0 <=? e then m * 2 ^ e = v else m = v * 2 ^ (- e)) ->
  0 < m /\ exists q, over m e = (v * q, q) /\ 0 < q.
Proof.
  intros Hv. unfold over. destruct (Z.leb_spec 0 e) as [He|He]; intros E.
  - pose proof (Z.pow_pos_nonneg 2 e). split; [nia|]. exists 1. split; [|lia]. f_equal. lia.
  - pose proof (Z.pow_pos_nonneg 2 (- e)). split; [nia|]. exists (2 ^ (- e)). split; [|lia]. by f_equal.
Qed.

Lemma mul_exact x y v w : exactly x v -> exactly y w -> 0 < v -> 0 < w -> short (v * w) -> exactly (mul x y) (v * w).
Proof.
  intros (m & e & -> & Hx) (m' & e' & -> & Hy) Hv Hw Hs.
  destruct (exactly_over _ _ _ Hv Hx) as (Hm & _). destruct (exactly_over _ _ _ Hw Hy) as (Hm' & _).
  unfold mul. cbn [negative]. rewrite (proj2 (Z.ltb_ge m 0)), (proj2 (Z.ltb_ge m' 0)) by lia. cbn [xorb].
  rewrite Z.abs_eq by nia.
  assert (exists q, over (m * m') (e + e') = (v * w * q, q) /\ 0 < q) as (q & -> & Hq); [|by apply round_exact].
  pose proof (Z.pow_pos_nonneg 2 e). pose proof (Z.pow_pos_nonneg 2 e').
  pose proof (Z.pow_pos_nonneg 2 (- e)). pose proof (Z.pow_pos_nonneg 2 (- e')).
  unfold over. destruct (Z.leb_spec 0 (e + e')) as [He|He], (Z.leb_spec 0 e), (Z.leb_spec 0 e'); try lia.
  - exists 1. split; [|lia]. f_equal. rewrite Z.pow_add_r by lia. subst. ring.
  - exists 1. split; [|lia]. f_equal. subst. rewrite Z.mul_1_r.
    assert (2 ^ e = 2 ^ (e + e') * 2 ^ (- e')) as -> by (rewrite <- Z.pow_add_r by lia; f_equal; lia). ring.
  - exists 1. split; [|lia]. f_equal. subst. rewrite Z.mul_1_r.
    assert (2 ^ e' = 2 ^ (e + e') * 2 ^ (- e)) as -> by (rewrite <- Z.pow_add_r by lia; f_equal; lia). ring.
  - exists (2 ^ (- (e + e'))). split; [|apply Z.pow_pos_nonneg; lia]. f_equal. subst.
    assert (2 ^ (- e') = 2 ^ e * 2 ^ (- (e + e'))) as -> by (rewrite <- Z.pow_add_r by lia; f_equal; lia). ring.
  - exists (2 ^ (- (e + e'))). split; [|apply Z.pow_pos_nonneg; lia]. f_equal. subst.
    assert (2 ^ (- e) = 2 ^ e' * 2 ^ (- (e + e'))) as -> by (rewrite <- Z.pow_add_r by lia; f_equal; lia). ring.
  - exists (2 ^ (- (e + e'))). split; [|apply Z.pow_pos_nonneg; lia]. f_equal. subst.
    assert (2 ^ (- (e + e')) = 2 ^ (- e) * 2 ^ (- e')) as -> by (rewrite <- Z.pow_add_r by lia; f_equal; lia). ring.
Qed.

(** The fraction that a division rounds. *)
Lemma exactly_cross m e m' e' v s : 0 < v -> 0 < s ->
  (if 0 <=? e then m * 2 ^ e = v else m = v * 2 ^ (- e)) -> (if 0 <=? e' then m' * 2 ^ e' = s else m' = s * 2 ^ (- e')) ->
  m * 2 ^ Z.max 0 (e - e') * s = v * (m' * 2 ^ Z.max 0 (e' - e)).
Proof.
  intros Hv Hs Hx Hy.
  pose proof (Z.pow_pos_nonneg 2 e). pose proof (Z.pow_pos_nonneg 2 e'). pose proof (Z.pow_pos_nonneg 2 (- e)). pose proof (Z.pow_pos_nonneg 2 (- e')).
  assert (forall a b, 0 <= a -> 0 <= b -> 2 ^ (a + b) = 2 ^ a * 2 ^ b) as Hpow by (intros; by apply Z.pow_add_r).
  destruct (Z.max_spec 0 (e - e')) as [[? ->]|[? ->]], (Z.max_spec 0 (e' - e)) as [[? ->]|[? ->]]; try lia;
    destruct (Z.leb_spec 0 e), (Z.leb_spec 0 e'); try lia; rewrite ?Z.pow_0_r, ?Z.mul_1_r.
  - assert (2 ^ e = 2 ^ (e - e') * 2 ^ e') as E by (rewrite <- Hpow by lia; f_equal; lia). rewrite E in Hx. nia.
  - assert (2 ^ (e - e') = 2 ^ e * 2 ^ (- e')) as -> by (rewrite <- Hpow by lia; f_equal; lia). nia.
  - assert (2 ^ (- e') = 2 ^ (e - e') * 2 ^ (- e)) as E by (rewrite <- Hpow by lia; f_equal; lia). rewrite E in Hy. nia.
  - assert (2 ^ e' = 2 ^ (e' - e) * 2 ^ e) as E by (rewrite <- Hpow by lia; f_equal; lia). rewrite E in Hy. nia.
  - assert (2 ^ (e' - e) = 2 ^ e' * 2 ^ (- e)) as -> by (rewrite <- Hpow by lia; f_equal; lia). nia.
  - assert (2 ^ (- e) = 2 ^ (e' - e) * 2 ^ (- e')) as E by (rewrite <- Hpow by lia; f_equal; lia). rewrite E in Hx. nia.
  - assert (e = e') as -> by lia. nia.
  - assert (e = e') as -> by lia. nia.
Qed.

Lemma div_exact x y v s : exactly x (v * s) -> exactly y s -> short v -> 0 < s -> exactly (div x y) v.
Proof.
  intros (m & e & -> & Hx) (m' & e' & -> & Hy) Hs Hp. pose proof (short_pos v Hs) as Hv.
  assert (0 < v * s) as Hvs by nia. destruct (exactly_over m e (v * s) Hvs Hx) as (Hm & _). destruct (exactly_over _ _ _ Hp Hy) as (Hm' & _).
  unfold div. cbn [negative]. rewrite (proj2 (Z.ltb_ge m 0)), (proj2 (Z.ltb_ge m' 0)) by lia. cbn [xorb].
  rewrite (proj2 (Z.eqb_neq m' 0)), !Z.abs_eq by lia. pose proof (exactly_cross m e m' e' (v * s) s Hvs Hp Hx Hy) as E.
  assert (m * 2 ^ Z.max 0 (e - e') = v * (m' * 2 ^ Z.max 0 (e' - e))) as -> by (apply (Z.mul_reg_r _ _ s); lia).
  apply round_exact; [done|]. apply Z.mul_pos_pos; [done|]. apply Z.pow_pos_nonneg; lia.
Qed.

Lemma to_Z_exact undefined lo hi x v : exactly x v -> lo <= v <= hi -> to_Z undefined lo hi x = v.
Proof.
  intros (m & e & -> & E) Hv. cbn.
  assert ((if 0 <=? e then m * 2 ^ e else Z.quot m (2 ^ (- e))) = v) as ->.
  { destruct (Z.leb_spec 0 e); [done|]. subst m. apply Z.quot_mul. pose proof (Z.pow_pos_nonneg 2 (- e)). lia. }
  by rewrite (proj2 (Z.leb_le _ _)), (proj2 (Z.leb_le _ _)) by lia.
Qed.

(** ** A number divided by a power of two *)

Lemma log2_ratio_dyadic n j p q : 0 < n -> 0 <= j -> 0 < q -> p * 2 ^ j = n * q -> log2_ratio p q = Z.log2 n - j.
Proof.
  intros Hn Hj Hq E. pose proof (Z.pow_pos_nonneg 2 j ltac:(lia) Hj) as H2j. assert (0 < p) as Hp by nia.
  assert (Z.log2 (n * q) = Z.log2 p + j) as El by (rewrite <- E, Z.log2_mul_pow2 by lia; lia).
  pose proof (Z.log2_mul_below n q Hn Hq). pose proof (Z.log2_mul_above n q ltac:(lia) ltac:(lia)).
  pose proof (Z.log2_spec n Hn) as [Hlo Hhi]. pose proof (Z.log2_nonneg n). unfold log2_ratio.
  set (l := Z.log2 p - Z.log2 q). assert (l = Z.log2 n - j \/ l = Z.succ (Z.log2 n) - j) as Hl by lia. clearbody l.
  assert ((if 0 <=? l then q * 2 ^ l <=? p else q <=? p * 2 ^ (- l)) = (2 ^ (l + j) <=? n)) as ->.
  { assert (0 <= l + j) as Hlj by lia. destruct (Z.leb_spec 0 l) as [Hl0|Hl0].
    - rewrite Z.pow_add_r by lia. pose proof (Z.pow_pos_nonneg 2 l ltac:(lia) Hl0). destruct (Z.leb_spec (q * 2 ^ l) p), (Z.leb_spec (2 ^ l * 2 ^ j) n); try done; nia.
    - pose proof (Z.pow_pos_nonneg 2 (l + j) ltac:(lia) Hlj) as H2. pose proof (Z.pow_pos_nonneg 2 (- l) ltac:(lia) ltac:(lia)).
      assert (2 ^ j = 2 ^ (l + j) * 2 ^ (- l)) as Ej by (rewrite <- Z.pow_add_r by lia; f_equal; lia). rewrite Ej in E.
      set (a := 2 ^ (l + j)) in *. set (b := 2 ^ (- l)) in *. clearbody a b. destruct (Z.leb_spec q (p * b)), (Z.leb_spec a n); try done; nia. }
  destruct Hl as [->| ->].
  - replace (Z.log2 n - j + j) with (Z.log2 n) by lia. by rewrite (proj2 (Z.leb_le _ _) Hlo).
  - replace (Z.succ (Z.log2 n) - j + j) with (Z.succ (Z.log2 n)) by lia. rewrite (proj2 (Z.leb_gt _ _) Hhi). lia.
Qed.
Lemma round_dyadic n j p q : 0 < n < 2 ^ 53 -> 0 <= j <= 1000 -> 0 < q -> p * 2 ^ j = n * q ->
  exists e, round false p q = Finite (n * 2 ^ (- e - j)) e /\ e <= - j.
Proof.
  intros Hn Hj Hq E. pose proof (Z.pow_pos_nonneg 2 j ltac:(lia) ltac:(lia)) as H2j. assert (0 < p) as Hp by nia.
  assert (Z.log2 n <= 52) as Hl by (apply Z.lt_succ_r, Z.log2_lt_pow2; [lia|]; apply Hn). pose proof (Z.log2_nonneg n).
  unfold round. rewrite (proj2 (Z.eqb_neq p 0)) by lia. rewrite (log2_ratio_dyadic n j) by (done || lia). rewrite Z.max_r by lia.
  set (e := Z.log2 n - j - 52). assert (e <= - j /\ -1074 <= e) as [He Hlo] by lia. clearbody e. exists e. split; [|done].
  rewrite (proj2 (Z.ltb_ge 971 e)), (proj2 (Z.eqb_neq e 971)) by lia. cbn [orb andb]. f_equal.
  destruct (Z.leb_spec 0 e) as [He0|He0].
  - assert (e = 0 /\ j = 0) as [-> ->] by lia. cbn [Z.opp Z.sub Z.add Z.pow] in *. rewrite !Z.mul_1_r in *. subst p. by apply round_half_even_exact.
  - replace (p * 2 ^ (- e)) with (n * 2 ^ (- e - j) * q); [by apply round_half_even_exact|].
    assert (2 ^ (- e) = 2 ^ (- e - j) * 2 ^ j) as -> by (rewrite <- Z.pow_add_r by lia; f_equal; lia). nia.
Qed.

Lemma div_dyadic x y n j : exactly x n -> exactly y (2 ^ j) -> 0 < n < 2 ^ 53 -> 0 <= j <= 1000 ->
  exists e, div x y = Finite (n * 2 ^ (- e - j)) e /\ e <= - j.
Proof.
  intros (m & e & -> & Hx) (m' & e' & -> & Hy) Hn Hj. pose proof (Z.pow_pos_nonneg 2 j ltac:(lia) ltac:(lia)) as H2j.
  destruct (exactly_over m e n ltac:(lia) Hx) as (Hm & _). destruct (exactly_over _ _ _ H2j Hy) as (Hm' & _).
  unfold div. cbn [negative]. rewrite (proj2 (Z.ltb_ge m 0)), (proj2 (Z.ltb_ge m' 0)) by lia. cbn [xorb].
  rewrite (proj2 (Z.eqb_neq m' 0)), !Z.abs_eq by lia. apply round_dyadic; [done|done|apply Z.mul_pos_pos; [done|apply Z.pow_pos_nonneg; lia]|].
  apply exactly_cross; (done || lia).
Qed.

Lemma round_half_even_near a b : 0 < b -> 2 * Z.abs (round_half_even a b * b - a) <= b.
Proof.
  intros Hb. unfold round_half_even. pose proof (Z.div_mod a b ltac:(lia)). pose proof (Z.mod_pos_bound a b Hb).
  destruct (Z.compare_spec (2 * (a mod b)) b) as [Hc|Hc|Hc]; [destruct (Z.even (a / b))|..]; nia.
Qed.
