(* ===== verification/Mailstore.v ===== *)
(** Ingesting a message (internal/mailstore): extracting its text and parts, and
    recording them with their blobs.

    The MIME parser is a library: what it makes of the raw bytes - an entity tree,
    an error, a panic - is the argument [message_Read].  Go strings are lists of
    bytes here and become column text when they are stored. *)
From S2P Require Import Prelude GoStrings Retry Schema StoreMailboxes StoreMessages Blob Text.
From Stdlib Require Import String.
From stdpp Require Import strings pretty fin_maps list.
Open Scope list_scope.
Open Scope Z_scope.

(** * What the parser delivers *)

(** The header values of one part, as go-message reads them. *)
Record PartHeader := mk_PartHeader {
  ph_ContentType : bytes;
  ph_charset : bytes;
  ph_name : bytes;
  ph_Disposition : bytes;
  ph_filename : bytes;
  ph_ContentID : bytes;
  ph_Encoding : bytes
}.

(** A part's body: its bytes, and whether reading ends in an error after them. *)
Inductive Body := BodyBytes (data : bytes) (fails : bool) | BodyPanics.
Inductive Stop := StopEOF | StopError | StopPanic.

(** [Multipart]: what successive calls of NextPart return, an entity with or
    without an error beside it, and how the sequence ends. *)
Inductive Entity :=
| Single (h : PartHeader) (b : Body)
| Multipart (children : list (Entity * option err)) (stop : Stop).

Record MailHeader := mk_MailHeader {
  mh_Text : string -> err + bytes;
  mh_Get : string -> bytes;
  mh_Date : err + option Z;                        (* None: the zero time *)
  mh_AddressList : string -> err + list (bytes * bytes)
}.

Inductive ReadResult :=
| ReadPanics
| ReadReturns (entity : option (MailHeader * Entity)) (e : option err).

(** * Parsed messages *)

Record Part := mk_Part {
  pt_Path : string;
  pt_ContentType : bytes;
  pt_Charset : bytes;
  pt_Disposition : bytes;
  pt_Filename : bytes;
  pt_ContentID : bytes;
  pt_Encoding : bytes;
  pt_Size : Z;
  pt_Content : bytes
}.

Record ParsedMessage := mk_ParsedMessage {
  pm_Subject : bytes;
  pm_MessageID : bytes;
  pm_InReplyTo : bytes;
  pm_Refs : list bytes;
  pm_From : list bytes;
  pm_To : list bytes;
  pm_Cc : list bytes;
  pm_Bcc : list bytes;
  pm_ReplyTo : list bytes;
  pm_Date : option Z;
  pm_BodyText : bytes;
  pm_Preview : bytes;
  pm_Parts : list Part;
  pm_Failed : bool;
  pm_Error : bytes
}.

(** The zero value of the struct. *)
Definition zero_ParsedMessage : ParsedMessage :=
  mk_ParsedMessage [] [] [] [] [] [] [] [] [] None [] [] [] false [].

Definition fold_eq (a b : bytes) : bool := bool_decide (map lower_ascii a = map lower_ascii b).

Definition IsAttachment (p : Part) : bool :=
  fold_eq (pt_Disposition p) (lit "attachment") || negb (bool_decide (pt_Filename p = [])).

Definition maxBodyText : Z := 1048576.
Definition maxDepth : nat := 20.

Definition firstNonEmpty (a b : bytes) : bytes := match a with [] => b | _ => a end.

(** [io.ReadAll(io.LimitReader(body, n))]: the limit hides what follows it, an
    error included. *)
Definition read_limited (data : bytes) (fails : bool) (n : Z) : option bytes :=
  if Z.of_nat (length data) <? n then (if fails then None else Some data)
  else Some (take (Z.to_nat n) data).

Definition make_part (h : PartHeader) (path : string) (content : bytes) : Part :=
  {| pt_Path := path; pt_ContentType := ph_ContentType h; pt_Charset := ph_charset h;
     pt_Disposition := ph_Disposition h; pt_Filename := firstNonEmpty (ph_filename h) (ph_name h);
     pt_ContentID := Trim (lit "<>") (ph_ContentID h); pt_Encoding := ph_Encoding h;
     pt_Size := Z.of_nat (length content); pt_Content := content |}.

(** What a text part adds to the searchable body. *)
Definition add_text (p : Part) (text : bytes) : bytes :=
  if prefixb (lit "text/") (pt_ContentType p) && negb (IsAttachment p)
     && (Z.of_nat (length text) <? maxBodyText)
  then text ++ (match text with [] => [] | _ => [byte 10] end)
       ++ (if fold_eq (pt_ContentType p) (lit "text/html") then stripHTML (pt_Content p) else pt_Content p)
  else text.

Definition child_path (depth : nat) (path : string) (index : Z) : string :=
  if (depth =? 0)%nat then Itoa index else (path ++ "." ++ Itoa index)%string.

(** [walk]; [None] is a panic.  The accumulator is the parts and the text. *)
Fixpoint walk (e : Entity) (path : string) (depth : nat) (acc : list Part * bytes)
    : option (list Part * bytes) :=
  if (maxDepth <? depth)%nat then Some acc else
  match e with
  | Single h b =>
      match b with
      | BodyPanics => None
      | BodyBytes data fails =>
          match read_limited data fails (maxBodyText * 4) with
          | None => Some acc
          | Some content =>
              let part := make_part h path content in
              Some (acc.1 ++ [part], add_text part acc.2)
          end
      end
  | Multipart children stop =>
      (fix next (cs : list (Entity * option err)) (index : Z) (acc : list Part * bytes) :=
         match cs with
         | [] => match stop with StopPanic => None | _ => Some acc end
         | (_, Some _) :: _ => Some acc
         | (c, None) :: cs =>
             match walk c (child_path depth path index) (S depth) acc with
             | None => None
             | Some acc => next cs (index + 1) acc
             end
         end) children 1 acc
  end.

(** * [Parse] *)

Definition headerText (h : MailHeader) (key : string) : bytes :=
  match mh_Text h key with inr v => v | inl _ => mh_Get h key end.

Definition addresses (h : MailHeader) (key : string) : list bytes :=
  match mh_AddressList h key with
  | inr ((_ :: _) as l) =>
      map (fun a => match a.1 with
                    | [] => sanitise a.2
                    | _ => sanitise (a.1 ++ lit " <" ++ a.2 ++ lit ">")
                    end) l
  | _ => match mh_Get h key with [] => [] | raw => [sanitise raw] end
  end.

Section mailstore.
Variable message_Read : bytes -> ReadResult.
Variable err_bytes : err -> bytes.

(** The result is not a named one, so the deferred function, which sets fields of
    the local [out], cannot reach it: after a panic the caller gets the zero
    value. *)
Definition Parse (raw : bytes) : ParsedMessage :=
  match message_Read raw with
  | ReadPanics => zero_ParsedMessage
  | ReadReturns None (Some e) =>
      mk_ParsedMessage [] [] [] [] [] [] [] [] [] None [] [] [] true (err_bytes e)
  | ReadReturns None None => zero_ParsedMessage   (* the nil entity is dereferenced *)
  | ReadReturns (Some (h, entity)) e =>
      match walk entity "1" 0 ([], []) with
      | None => zero_ParsedMessage
      | Some (parts, text) =>
          let body := sanitise (truncate text maxBodyText) in
          {| pm_Subject := sanitise (headerText h "Subject");
             pm_MessageID := sanitise (Trim (lit "<>") (mh_Get h "Message-Id"));
             pm_InReplyTo := sanitise (Trim (lit "<>") (mh_Get h "In-Reply-To"));
             pm_Refs := splitReferences (mh_Get h "References");
             pm_From := addresses h "From"; pm_To := addresses h "To"; pm_Cc := addresses h "Cc";
             pm_Bcc := addresses h "Bcc"; pm_ReplyTo := addresses h "Reply-To";
             pm_Date := match mh_Date h with inr d => d | inl _ => None end;
             pm_BodyText := body; pm_Preview := makePreview body;
             pm_Parts := parts; pm_Failed := false;
             pm_Error := match e with Some e => err_bytes e | None => [] end |}
      end
  end.

(** * [Ingest] *)

Definition text_of (s : bytes) : string := string_of_list_ascii s.
Definition optional (s : bytes) : option string := match s with [] => None | _ => Some (text_of s) end.

Definition parsed_content (p : ParsedMessage) : ParsedContent :=
  {| pc_Subject := optional (pm_Subject p); pc_MessageID := optional (pm_MessageID p);
     pc_InReplyTo := optional (pm_InReplyTo p); pc_References := map text_of (pm_Refs p);
     pc_Addrs := Some (list_to_map
       [("from"%string, map text_of (pm_From p)); ("to"%string, map text_of (pm_To p));
        ("cc"%string, map text_of (pm_Cc p)); ("bcc"%string, map text_of (pm_Bcc p));
        ("reply_to"%string, map text_of (pm_ReplyTo p))]);
     pc_BodyText := optional (pm_BodyText p); pc_Preview := optional (pm_Preview p);
     pc_SentDate := pm_Date p; pc_ParseFailed := pm_Failed p; pc_ParseError := optional (pm_Error p) |}.

Context {S : Type} `{BlobStore S}.

(** The record of one part; only attachments get a blob, and losing one is not an
    error. *)
Definition part_record (p : Part) (s : S) : MIMEPart * S :=
  let '(key, s) :=
    if IsAttachment p && negb (bool_decide (pt_Content p = [])) then
      match Put TypeMIMEPart (pt_Content p) s with
      | (inr info, s) => (Some (in_Key info), s)
      | (inl _, s) => (None, s)
      end
    else (None, s) in
  (mk_MIMEPart (pt_Path p) (text_of (pt_ContentType p)) (optional (pt_Charset p))
     (optional (pt_Disposition p)) (optional (pt_Filename p)) (optional (pt_ContentID p))
     (optional (pt_Encoding p)) (pt_Size p) key, s).

Fixpoint part_records (ps : list Part) (s : S) : list MIMEPart * S :=
  match ps with
  | [] => ([], s)
  | p :: ps => let '(r, s) := part_record p s in let '(rs, s) := part_records ps s in (r :: rs, s)
  end.

(** Blobs already stored stay stored when recording the parts fails. *)
Definition Ingest (messageID : Z) (raw : bytes) (s : S) (db : DB) : (err + unit) * S * DB :=
  let parsed := Parse raw in
  let '(parts, s) := part_records (pm_Parts parsed) s in
  match SaveParsedContent messageID (parsed_content parsed) parts db with
  | (inl e, db) => (inl (ErrWrap ("recording parsed message " ++ Itoa messageID ++ ": ") e ""), s, db)
  | (inr _, db) => (inr tt, s, db)
  end.
End mailstore.

(** * Walking the tree *)

Lemma entity_ind' (P : Entity -> Prop) :
  (forall h b, P (Single h b)) ->
  (forall cs stop, Forall (fun c => P c.1) cs -> P (Multipart cs stop)) -> forall e, P e.
Proof.
  intros Hs Hm. fix IH 1. intros [h b|cs stop]; [apply Hs|]. apply Hm.
  induction cs as [|[c o] cs IHcs]; constructor; [apply IH|exact IHcs].
Qed.

(** The loop over a multipart's children. *)
Fixpoint walk_children (stop : Stop) (path : string) (depth : nat) (cs : list (Entity * option err)) (index : Z)
    (acc : list Part * bytes) : option (list Part * bytes) :=
  match cs with
  | [] => match stop with StopPanic => None | _ => Some acc end
  | (_, Some _) :: _ => Some acc
  | (c, None) :: cs =>
      match walk c (child_path depth path index) (S depth) acc with
      | None => None
      | Some acc => walk_children stop path depth cs (index + 1) acc
      end
  end.

Lemma walk_Multipart cs stop path depth acc :
  walk (Multipart cs stop) path depth acc =
    if (maxDepth <? depth)%nat then Some acc else walk_children stop path depth cs 1 acc.
Proof.
  cbn [walk]. destruct (_ <? _)%nat; [done|].
  lazymatch goal with |- ?f cs 1 acc = ?g cs 1 acc => enough (forall n a, f cs n a = g cs n a) by done end.
  induction cs as [|[c [e|]] cs IH]; intros n a; [done|done|]. cbn [walk_children].
  destruct (walk c _ _ a); [apply IH|done].
Qed.

(** ** Part numbers *)

Fixpoint upto_dot (s : string) : string :=
  match s with
  | EmptyString => EmptyString
  | String c s => if Ascii.eqb c "."%char then EmptyString else String c (upto_dot s)
  end.
Definition no_dot (s : string) : Prop := upto_dot s = s.

Lemma no_dot_app a r : no_dot a -> upto_dot (a ++ "." ++ r)%string = a.
Proof.
  unfold no_dot. induction a as [|c a IH]; [done|]. simpl.
  destruct (Ascii.eqb c "."%char); [done|]. intros [= H]. f_equal. by apply IH.
Qed.

Lemma no_dot_pretty_go x s : no_dot s -> no_dot (pretty_N_go x s).
Proof.
  revert s. induction (N.lt_wf_0 x) as [x _ IH]; intros s Hs.
  assert (x = 0 \/ 0 < x)%N as [->|Hx] by lia; [by rewrite pretty_N_go_0|].
  rewrite pretty_N_go_step by done. apply IH; [by apply N.div_lt|].
  unfold no_dot in *. simpl. rewrite Hs. unfold pretty_N_char. by repeat case_match.
Qed.

Lemma no_dot_Itoa n : 0 <= n -> no_dot (Itoa n).
Proof.
  intros Hn. destruct n as [|p|p]; [done| |lia]. unfold Itoa, pretty, pretty_Z, pretty, pretty_positive, pretty, pretty_N.
  destruct (decide _); [done|]. by apply no_dot_pretty_go.
Qed.

(** [q] is part [p] or below it. *)
Definition below (p q : string) : Prop := q = p \/ exists r, q = (p ++ "." ++ r)%string.

Lemma below_index n q : 0 <= n -> below (Itoa n) q -> upto_dot q = Itoa n.
Proof. intros Hn [->|[r ->]]; [by apply no_dot_Itoa|by apply no_dot_app, no_dot_Itoa]. Qed.

Lemma string_app_assoc (a b c : string) : ((a ++ b) ++ c = a ++ (b ++ c))%string.
Proof. induction a as [|x a IH]; [done|]. exact (f_equal (String x) IH). Qed.

Lemma below_child depth path i q : below (child_path depth path i) q ->
  exists q', q = (if (depth =? 0)%nat then q' else (path ++ "." ++ q')%string) /\ below (Itoa i) q'.
Proof.
  unfold child_path. destruct (depth =? 0)%nat; [eauto|]. intros [->|[r ->]].
  - exists (Itoa i). split; [done|by left].
  - exists (Itoa i ++ "." ++ r)%string. split; [by rewrite !string_app_assoc|right; eauto].
Qed.

Lemma below_child_inj depth path i j q :
  0 <= i -> 0 <= j -> below (child_path depth path i) q -> below (child_path depth path j) q -> i = j.
Proof.
  intros Hi Hj (q1 & E1 & H1)%below_child (q2 & E2 & H2)%below_child.
  assert (q1 = q2) as ->.
  { rewrite E1 in E2. destruct (depth =? 0)%nat; [done|]. apply (inj (String.append path)) in E2.
    by injection E2. }
  apply below_index in H1, H2; [|done..]. rewrite H1 in H2. by apply (inj pretty) in H2.
Qed.

Lemma below_parent depth path i q : depth <> 0%nat -> below (child_path depth path i) q -> below path q.
Proof.
  intros Hd (q' & -> & _)%below_child. destruct (Nat.eqb_spec depth 0); [done|]. right. eauto.
Qed.

(** A part's recorded size is that of its content, at most four MiB. *)
Definition sized (p : Part) : Prop :=
  pt_Size p = Z.of_nat (length (pt_Content p)) /\ pt_Size p <= maxBodyText * 4.

Lemma read_limited_length data fails n c : 0 <= n -> read_limited data fails n = Some c -> Z.of_nat (length c) <= n.
Proof.
  intros Hn. unfold read_limited. destruct (Z.ltb_spec (Z.of_nat (length data)) n).
  - destruct fails; [done|]. intros [= <-]. lia.
  - intros [= <-]. rewrite length_take. lia.
Qed.

(** Walking adds parts at or below the entity's own number, all different. *)
Definition adds (path : string) (acc acc' : list Part * bytes) : Prop :=
  exists new, acc'.1 = acc.1 ++ new /\ NoDup (map pt_Path new) /\ Forall (fun p => below path (pt_Path p) /\ sized p) new.

Lemma adds_none path acc : adds path acc acc.
Proof. exists []. rewrite app_nil_r. repeat constructor. Qed.

Lemma walk_children_adds stop path depth cs index acc acc' :
  0 <= index ->
  Forall (fun c => forall p d a a', walk c.1 p (S d) a = Some a' -> adds p a a') cs ->
  walk_children stop path depth cs index acc = Some acc' ->
  exists new, acc'.1 = acc.1 ++ new /\ NoDup (map pt_Path new)
    /\ Forall (fun p => (exists i, index <= i /\ below (child_path depth path i) (pt_Path p)) /\ sized p) new.
Proof.
  intros Hi Hcs. revert index acc Hi. induction Hcs as [|[c o] cs Hc Hcs IH]; intros index acc Hi; cbn [walk_children].
  { intros H. assert (acc' = acc) as -> by (by destruct stop; simplify_eq). exists []. rewrite app_nil_r. repeat constructor. }
  destruct o as [e|]; [intros [= <-]; exists []; rewrite app_nil_r; repeat constructor|].
  destruct (walk c _ _ acc) as [acc1|] eqn:E; [|done]. intros H.
  destruct (Hc _ _ _ _ E) as (n1 & E1 & D1 & F1).
  destruct (IH (index + 1) acc1 ltac:(lia) H) as (n2 & E2 & D2 & F2).
  exists (n1 ++ n2). split; [by rewrite E2, E1, app_assoc|]. split.
  - rewrite map_app. apply NoDup_app. split_and!; try done. intros q Hq1 Hq2.
    apply list_elem_of_fmap in Hq1 as (p1 & -> & Hp1), Hq2 as (p2 & Ep & Hp2).
    rewrite Forall_forall in F1, F2. destruct (F2 _ Hp2) as ((i & Hle & Hb) & _). rewrite <- Ep in Hb.
    pose proof (below_child_inj depth path index i _ Hi ltac:(lia) (proj1 (F1 _ Hp1)) Hb). lia.
  - apply Forall_app. split; eapply Forall_impl; try done.
    + intros p [Hp ?]. split; [|done]. exists index. split; [lia|done].
    + intros p ((i & Hle & Hp) & ?). split; [|done]. exists i. split; [lia|done].
Qed.

Lemma walk_adds e path depth acc acc' : walk e path (S depth) acc = Some acc' -> adds path acc acc'.
Proof.
  revert path depth acc acc'. induction e as [h b|cs stop IH] using entity_ind'; intros path depth acc acc'.
  - cbn [walk]. destruct (_ <? _)%nat; [intros [= <-]; apply adds_none|]. destruct b as [data fails|]; [|done].
    destruct (read_limited _ _ _) as [c|] eqn:E; intros [= <-]; [|apply adds_none].
    apply read_limited_length in E; [|done].
    exists [make_part h path c]. split_and!; [done|apply NoDup_singleton|]. by repeat constructor.
  - rewrite walk_Multipart. destruct (_ <? _)%nat; [intros [= <-]; apply adds_none|]. intros H.
    apply walk_children_adds in H as (new & E & D & F); [|lia|].
    + exists new. split_and!; [done|done|]. eapply Forall_impl; [exact F|]. cbn. intros p ((i & _ & Hb) & Hs).
      split; [by apply (below_parent (S depth) path i)|done].
    + eapply Forall_impl; [exact IH|]. cbn. intros c Hc p d a a'. apply Hc.
Qed.

Lemma walk_root e parts text :
  walk e "1" 0 ([], []) = Some (parts, text) ->
  NoDup (map pt_Path parts)
  /\ Forall (fun p => (exists i, 1 <= i /\ below (Itoa i) (pt_Path p)) /\ sized p) parts.
Proof.
  destruct e as [h b|cs stop].
  - cbn [walk]. destruct b as [data fails|]; [|done]. change (maxDepth <? 0)%nat with false. cbn iota.
    destruct (read_limited _ _ _) as [c|] eqn:E; intros [= <- <-]; [|repeat constructor].
    apply read_limited_length in E; [|done]. split; [apply NoDup_singleton|].
    repeat (constructor || done). exists 1. split; [lia|by left].
  - rewrite walk_Multipart. intros H.
    change (walk_children stop "1" 0 cs 1 ([], []) = Some (parts, text)) in H.
    apply walk_children_adds in H as (new & E & D & F); [|lia|].
    + cbn in E. subst new. split; [done|exact F].
    + apply Forall_forall. intros c _ p d a a'. apply walk_adds.
Qed.

(** Part numbers are unique: whatever the nesting, no two parts of a message get
    the same path, so no part's row overwrites another's; children of the top
    multipart are numbered from 1 as IMAP counts them, and each part's size is that
    of its content. *)
Theorem walk_paths_unique (e : Entity) (parts : list Part) (text : bytes) :
  walk e "1" 0 ([], []) = Some (parts, text) ->
  NoDup (map pt_Path parts)
  /\ Forall (fun p => (exists i, 1 <= i /\ below (Itoa i) (pt_Path p)) /\ sized p) parts.
Proof. apply walk_root. Qed.

Definition plain_header : PartHeader := mk_PartHeader (lit "text/plain") [] [] [] [] [] [].
Definition pdf_header : PartHeader := mk_PartHeader (lit "application/pdf") [] [] (lit "attachment") (lit "a.pdf") [] [].
Definition ex_entity : Entity :=
  Multipart [(Multipart [(Single plain_header (BodyBytes (lit "one") false), None);
                         (Single plain_header (BodyBytes (lit "second") false), None)] StopEOF, None);
             (Single pdf_header (BodyBytes (lit "pdf!") false), None)] StopEOF.
Lemma walk_paths_unique_witness :
  exists parts text, walk ex_entity "1" 0 ([], []) = Some (parts, text)
    /\ map pt_Path parts = ["1.1"; "1.2"; "2"]%string /\ NoDup (map pt_Path parts).
Proof.
  eexists _, _. split; [vm_compute; reflexivity|]. split; [reflexivity|].
  eapply (proj1 (walk_paths_unique ex_entity _ _ _)). Unshelve. 2: vm_compute; reflexivity.
Defined.

(** A part that go-message returns together with an error (an unknown charset,
    say) is treated as the end of the multipart: that part and every part after it are
    left out, although the same error at the top of the message is tolerated. *)
Theorem walk_stops_at_part_error (before after : list (Entity * option err)) (c : Entity) (e : err) (stop : Stop)
    (path : string) (depth : nat) (acc : list Part * bytes) :
  walk (Multipart (before ++ (c, Some e) :: after) stop) path depth acc
    = walk (Multipart before StopEOF) path depth acc.
Proof.
  rewrite !walk_Multipart. destruct (_ <? _)%nat; [done|]. generalize 1. revert acc.
  induction before as [|[d o] before IH]; intros acc i; [done|]. cbn [app walk_children].
  destruct o; [done|]. destruct (walk d _ _ acc); [apply IH|done].
Qed.

(** The limit on what is read of a part is applied to attachments too: one larger
    than four MiB is recorded, and stored under its own key, as its first 4194304
    bytes. *)
Theorem large_part_truncated (h : PartHeader) (data : bytes) (fails : bool) (path : string) (acc : list Part * bytes) :
  4194304 <= Z.of_nat (length data) ->
  exists p text, walk (Single h (BodyBytes data fails)) path 0 acc = Some (acc.1 ++ [p], text)
    /\ pt_Size p = 4194304 /\ pt_Content p = take (Z.to_nat 4194304) data.
Proof.
  intros Hl. cbn [walk]. change (maxDepth <? 0)%nat with false. cbn iota. unfold read_limited.
  change (maxBodyText * 4) with 4194304. destruct (Z.ltb_spec (Z.of_nat (length data)) 4194304); [lia|].
  eexists _, _. split; [reflexivity|]. split; [|done].
  cbn [pt_Size make_part]. rewrite length_take. lia.
Qed.
Lemma large_part_truncated_witness :
  exists p text, walk (Single pdf_header (BodyBytes (replicate (Z.to_nat 5000000) "x"%char) false)) "1" 0 ([], [])
    = Some ([p], text) /\ pt_Size p = 4194304.
Proof.
  destruct (large_part_truncated pdf_header (replicate (Z.to_nat 5000000) "x"%char) false "1" ([], []))
    as (p & text & E & Hs & _); [rewrite length_replicate; lia|]. exists p, text. exact (conj E Hs).
Defined.

(** * What is parsed can be stored *)

Lemma addresses_storable h key : Forall (fun a => storable a = true) (addresses h key).
Proof.
  unfold addresses.
  assert (Forall (fun a => storable a = true) (match mh_Get h key with [] => [] | raw => [sanitise raw] end)).
  { destruct (mh_Get h key); repeat constructor. apply sanitise_storable. }
  destruct (mh_AddressList h key) as [e|[|a l]]; [done|done|].
  apply Forall_forall. intros x (y & -> & _)%list_elem_of_fmap. destruct y.1; apply sanitise_storable.
Qed.

Lemma splitReferences_storable v : Forall (fun a => storable a = true) (splitReferences v).
Proof. apply Forall_forall. intros x (y & -> & _)%list_elem_of_fmap. apply sanitise_storable. Qed.

(** The text columns of a message. *)
Definition message_texts (p : ParsedMessage) : list bytes :=
  [pm_Subject p; pm_MessageID p; pm_InReplyTo p; pm_BodyText p; pm_Preview p]
  ++ pm_Refs p ++ pm_From p ++ pm_To p ++ pm_Cc p ++ pm_Bcc p ++ pm_ReplyTo p.

(** Whatever the bytes of a message and whatever the parser makes of them, every
    text the message row receives is valid UTF-8 without NUL bytes, the body text is
    within one MiB and the preview within 300 bytes. *)
Theorem Parse_storable (message_Read : bytes -> ReadResult) (err_bytes : err -> bytes) (raw : bytes) :
  let p := Parse message_Read err_bytes raw in
  Forall (fun t => storable t = true) (message_texts p)
  /\ Z.of_nat (length (pm_BodyText p)) <= maxBodyText /\ Z.of_nat (length (pm_Preview p)) <= previewLength.
Proof.
  cbv zeta. unfold Parse.
  assert (forall f e, Forall (fun t => storable t = true) (message_texts (mk_ParsedMessage [] [] [] [] [] [] [] [] [] None [] [] [] f e))) as Hz.
  { intros f e. repeat constructor. }
  destruct (message_Read raw) as [|[[h entity]|] [e|]]; try (split; [apply Hz || apply (Hz false [])|done]);
    (destruct (walk entity "1" 0 ([], [])) as [[parts text]|]; [|split; [apply (Hz false [])|done]]).
  all: set (body := sanitise (truncate text maxBodyText)); split_and!; cbn [pm_BodyText pm_Preview];
    [|unfold body; pose proof (sublist_length _ _ (sanitise_sublist (truncate text maxBodyText)));
      pose proof (truncate_length text maxBodyText ltac:(done)); lia
     |by apply truncate_length].
  all: assert (storable body = true) by apply sanitise_storable; unfold message_texts; cbn;
    repeat (apply Forall_cons; split; [first [done|apply sanitise_storable|by apply makePreview_storable]|]);
    repeat (apply Forall_app; split); first [apply splitReferences_storable|apply addresses_storable].
Qed.

(** * Recording the parts *)

Lemma save_part_new id p db r :
  rows (messages db) !! id = Some r -> 0 <= mpt_Size p ->
  (forall k x, rows (mime_parts db) !! k = Some x -> part_key id (mpt_Path p) k x = false) ->
  save_part id p db = (inr tt, set_mime_parts (insert_row (new_part id p) (mime_parts db)).2 db).
Proof.
  intros Hr Hs Hno. unfold save_part, wrap_err. destruct (Z.ltb_spec (mpt_Size p) 0); [lia|].
  rewrite Hr. by rewrite (proj2 (find_row_None _ _) Hno).
Qed.

Lemma save_parts_ok id ps db r :
  rows (messages db) !! id = Some r -> table_wf (mime_parts db) ->
  Forall (fun p => 0 <= mpt_Size p) ps -> NoDup (map mpt_Path ps) ->
  (forall p k x, p ∈ ps -> rows (mime_parts db) !! k = Some x -> part_key id (mpt_Path p) k x = false) ->
  exists t, for_each (save_part id) ps db = (inr tt, set_mime_parts t db)
    /\ (forall k x, rows (mime_parts db) !! k = Some x -> rows t !! k = Some x)
    /\ (forall p, p ∈ ps -> exists k, rows t !! k = Some (new_part id p)).
Proof.
  revert db. induction ps as [|p ps IH]; intros db Hr Hwf Hsz Hnd Hno.
  { exists (mime_parts db). split; [by destruct db|]. split; [done|]. by intros ? ?%elem_of_nil. }
  apply Forall_cons in Hsz as [Hs Hsz]. cbn [map] in Hnd. apply NoDup_cons in Hnd as [Hp Hnd].
  cbn [for_each]. unfold mbind, sql_bind.
  rewrite (save_part_new id p db r Hr Hs) by (intros k x; apply Hno; left).
  set (db1 := set_mime_parts (insert_row (new_part id p) (mime_parts db)).2 db).
  destruct (IH db1) as (t & E & Hold & Hnew); [done|by apply table_wf_insert|done|done| |].
  - intros q k x Hq. unfold db1. cbn [mime_parts set_mime_parts]. rewrite lookup_insert_row.
    destruct (decide (k = nextval (mime_parts db))) as [->|].
    + intros [= <-]. unfold part_key. cbn. rewrite Z.eqb_refl. cbn. apply String.eqb_neq. intros E.
      apply Hp. rewrite E. by apply (list_elem_of_fmap_2 mpt_Path).
    + apply Hno. by right.
  - exists t. split; [rewrite E; by destruct db|]. split.
    + intros k x Hk. apply Hold. unfold db1. cbn [mime_parts set_mime_parts]. rewrite lookup_insert_row.
      destruct (decide _) as [->|]; [|done]. apply Hwf in Hk. lia.
    + intros q [->|Hq]%elem_of_cons; [|by apply Hnew]. exists (nextval (mime_parts db)). apply Hold.
      unfold db1. cbn [mime_parts set_mime_parts]. rewrite lookup_insert_row. by rewrite decide_True.
Qed.

Lemma SaveParsedContent_ok id c ps db r :
  rows (messages db) !! id = Some r -> table_wf (mime_parts db) ->
  Forall (fun p => 0 <= mpt_Size p) ps -> NoDup (map mpt_Path ps) ->
  exists db', SaveParsedContent id c ps db = (inr tt, db')
    /\ rows (messages db') !! id = Some (apply_parsed c r)
    /\ mailbox_messages db' = mailbox_messages db
    /\ (forall p, p ∈ ps -> exists k, rows (mime_parts db') !! k = Some (new_part id p)).
Proof.
  intros Hr Hwf Hsz Hnd. unfold SaveParsedContent, InTx, mbind, sql_bind, modify.
  match goal with |- context [for_each _ ps ?d] => set (db1 := d) end.
  assert (rows (messages db1) !! id = Some (apply_parsed c r)) as Hm.
  { unfold db1. cbn [messages set_mime_parts set_messages]. rewrite lookup_update_where, Hr. cbn.
    unfold id_is. by rewrite Z.eqb_refl. }
  destruct (save_parts_ok id ps db1 _ Hm) as (t & E & _ & Hnew); [by apply table_wf_delete|done|done| |].
  - intros p k x _. unfold db1. cbn [mime_parts set_mime_parts set_messages]. rewrite Schema.lookup_delete_Some.
    intros [_ H]. unfold part_key. by rewrite H.
  - rewrite E. eexists. split; [done|]. split; [exact Hm|]. split; [done|exact Hnew].
Qed.

(** A panic of the MIME parser leaves no trace: the deferred recover sets fields
    of a local that is not the result, so the message is recorded as parsed, without
    error and without text. *)
Theorem Parse_panic_unrecorded {S : Type} `{BlobStore S} (message_Read : bytes -> ReadResult)
    (err_bytes : err -> bytes) (raw : bytes) (id : Z) (r : message_row) (s : S) (db : DB) :
  message_Read raw = ReadPanics \/
    (exists h e o, message_Read raw = ReadReturns (Some (h, e)) o /\ walk e "1" 0 ([], []) = None) ->
  rows (messages db) !! id = Some r -> table_wf (mime_parts db) ->
  exists db' r', Ingest message_Read err_bytes id raw s db = (inr tt, s, db')
    /\ rows (messages db') !! id = Some r'
    /\ m_parse_failed r' = false /\ m_parse_error r' = None /\ m_body_text r' = None.
Proof.
  intros Hp Hr Hwf. assert (Parse message_Read err_bytes raw = zero_ParsedMessage) as E.
  { unfold Parse. destruct Hp as [->|(h & e & o & -> & ->)]; [done|by destruct o]. }
  unfold Ingest. rewrite E. cbn [zero_ParsedMessage pm_Parts part_records].
  destruct (SaveParsedContent_ok id (parsed_content zero_ParsedMessage) [] db r Hr Hwf) as (db' & E' & Hm & _);
    [constructor|constructor|].
  rewrite E'. eexists db', _. split; [done|]. split; [exact Hm|]. done.
Qed.

(** A database with one message row, its body not parsed yet. *)
Definition ex_row : message_row :=
  new_message (mk_MessageMeta 1 1 7 0 [] 10 None None [] (Some "old"%string) None None None) [].
Definition ex_db1 : DB := set_messages (mk_table {[ 1 := ex_row ]} 2) empty_db.
Lemma ex_parts_wf : table_wf (mime_parts ex_db1).
Proof. intros k x. cbn. rewrite lookup_empty. done. Qed.

Lemma Parse_panic_unrecorded_witness :
  exists db' r', @Ingest (fun _ => ReadPanics) (fun _ => []) MemStore (Mem_BlobStore ex_sha) 1 [] NewMemStore ex_db1 = (inr tt, NewMemStore, db')
    /\ rows (messages db') !! 1 = Some r' /\ m_parse_failed r' = false /\ m_subject r' = Some "old"%string.
Proof.
  destruct (@Parse_panic_unrecorded MemStore (Mem_BlobStore ex_sha) (fun _ => ReadPanics) (fun _ => []) [] 1 ex_row
    NewMemStore ex_db1 (or_introl eq_refl) eq_refl ex_parts_wf) as (db' & r' & H1 & H2 & H3 & _).
  vm_compute in H1. injection H1 as <-. vm_compute in H2. injection H2 as <-.
  eexists _, _. split; [vm_compute; reflexivity|]. split; [vm_compute; reflexivity|]. split; [exact H3|reflexivity].
Defined.

(** ** Blobs of attachments *)

Definition stored_alone (p : Part) : bool := IsAttachment p && negb (bool_decide (pt_Content p = [])).

Section attachments.
Context {S : Type} (sha256 : bytes -> list Z) `{HB : BlobStore S} `{HL : !BlobStoreLaws sha256 S}.

Lemma part_records_ok ps s :
  let '(rs, s') := part_records ps s in
  map mpt_Path rs = map pt_Path ps /\ map mpt_Size rs = map pt_Size ps
  /\ Forall2 (fun p r => mpt_BlobKey r =
       if stored_alone p then Some (NewKey TypeMIMEPart (sha256 (pt_Content p))) else None) ps rs
  /\ (forall k, (forall p, p ∈ ps -> stored_alone p = true -> k <> NewKey TypeMIMEPart (sha256 (pt_Content p))) ->
       content s' k = content s k)
  /\ (forall p, p ∈ ps -> stored_alone p = true ->
       exists q, q ∈ ps /\ stored_alone q = true
         /\ NewKey TypeMIMEPart (sha256 (pt_Content q)) = NewKey TypeMIMEPart (sha256 (pt_Content p))
         /\ content s' (NewKey TypeMIMEPart (sha256 (pt_Content p))) = Some (pt_Content q)).
Proof.
  revert s. induction ps as [|p ps IH]; intros s; cbn [part_records].
  { split_and!; try done; try constructor. by intros ? ?%elem_of_nil. }
  unfold part_record. fold (stored_alone p). destruct (stored_alone p) eqn:Ea.
  - destruct (put_ok sha256 TypeMIMEPart (pt_Content p) s eq_refl) as (s1 & -> & Hc & Ho).
    specialize (IH s1). destruct (part_records ps s1) as [rs s2]. destruct IH as (E1 & E2 & Hk & Hoth & Hin).
    cbn. split_and!; try (by f_equal).
    + constructor; [by rewrite Ea|done].
    + intros k Hno. rewrite Hoth by (intros q Hq; apply Hno; by right). apply Ho, Hno; [left|done].
    + intros q [->|Hq]%elem_of_cons Hs.
      * destruct (decide (Exists (fun q => stored_alone q = true
            /\ NewKey TypeMIMEPart (sha256 (pt_Content q)) = NewKey TypeMIMEPart (sha256 (pt_Content p))) ps)) as [Hex|Hnex].
        -- apply Exists_exists in Hex as (q & Hq & Hqs & Eq). destruct (Hin q Hq Hqs) as (q' & ? & ? & ? & Hq').
           exists q'. split; [by right|]. rewrite <- Eq. done.
        -- exists p. split; [left|]. split; [done|]. split; [done|]. rewrite Hoth; [done|].
           intros q Hq Hqs E. apply Hnex, Exists_exists. by exists q.
      * destruct (Hin q Hq Hs) as (q' & ? & ? & ? & ?). exists q'. split; [by right|done].
  - specialize (IH s). destruct (part_records ps s) as [rs s2]. destruct IH as (E1 & E2 & Hk & Hoth & Hin).
    cbn. split_and!; try (by f_equal).
    + constructor; [by rewrite Ea|done].
    + intros k Hno. apply Hoth. intros q Hq. apply Hno. by right.
    + intros q [->|Hq]%elem_of_cons Hs; [by rewrite Ea in Hs|].
      destruct (Hin q Hq Hs) as (q' & ? & ? & ? & ?). exists q'. split; [by right|done].
Qed.
End attachments.

Lemma map_eq_lookup {A B C} (f : A -> C) (g : B -> C) l k i x y :
  map f l = map g k -> l !! i = Some x -> k !! i = Some y -> f x = g y.
Proof.
  revert k i. induction l as [|a l IH]; intros [|b k] [|i]; try done; cbn.
  - by intros [= E _] [= <-] [= <-].
  - intros [= _ E]. by apply IH.
Qed.

Lemma Parse_parts message_Read err_bytes raw :
  let ps := pm_Parts (Parse message_Read err_bytes raw) in NoDup (map pt_Path ps) /\ Forall sized ps.
Proof.
  cbv zeta. unfold Parse. destruct (message_Read raw) as [|[[h entity]|] [e|]]; try (repeat constructor);
    (destruct (walk entity "1" 0 ([], [])) as [[parts text]|] eqn:E; [|repeat constructor]);
    apply walk_root in E as [Hn Hf]; cbn; try done;
    (eapply Forall_impl; [exact Hf|]; by intros p []).
Qed.

(** What ingesting does apart from the parts. *)
Lemma Ingest_ok {S : Type} (sha256 : bytes -> list Z) `{BlobStoreLaws sha256 S}
    (message_Read : bytes -> ReadResult) (err_bytes : err -> bytes) (raw : bytes) (id : Z)
    (r : message_row) (s : S) (db : DB) :
  rows (messages db) !! id = Some r -> table_wf (mime_parts db) ->
  exists s' db', Ingest message_Read err_bytes id raw s db = (inr tt, s', db')
    /\ rows (messages db') !! id = Some (apply_parsed (parsed_content (Parse message_Read err_bytes raw)) r)
    /\ mailbox_messages db' = mailbox_messages db
    /\ forall k, (forall d, k <> NewKey TypeMIMEPart d) -> content s' k = content s k.
Proof.
  intros Hr Hwf. destruct (Parse_parts message_Read err_bytes raw) as [Hnd Hsz]. unfold Ingest.
  set (parsed := Parse message_Read err_bytes raw) in *.
  pose proof (part_records_ok sha256 (pm_Parts parsed) s) as Hp.
  destruct (part_records (pm_Parts parsed) s) as [rs s']. destruct Hp as (E1 & E2 & _ & Hoth & _).
  destruct (SaveParsedContent_ok id (parsed_content parsed) rs db r Hr Hwf) as (db' & E' & Hm & Hmm & _).
  { apply Forall_forall. intros x Hx. apply (list_elem_of_fmap_2 mpt_Size) in Hx. unfold fmap in Hx.
    change (mpt_Size x ∈ map mpt_Size rs) in Hx. rewrite E2 in Hx. apply list_elem_of_fmap in Hx as (p & -> & Hp).
    rewrite Forall_forall in Hsz. destruct (Hsz p Hp). lia. }
  { by rewrite E1. }
  rewrite E'. exists s', db'. split_and!; try done. intros k Hk. apply Hoth. intros p _ _. apply Hk.
Qed.

(** Ingesting a message that has its row always succeeds and records exactly what
    parsing found: the message's content, one row per part under its own path, and
    for each attachment a blob that reads back as the part's content (given that
    SHA-256 does not collide between the message's own parts). *)
Theorem Ingest_records {S : Type} (sha256 : bytes -> list Z) `{BlobStoreLaws sha256 S}
    (message_Read : bytes -> ReadResult) (err_bytes : err -> bytes) (raw : bytes) (id : Z)
    (r : message_row) (s : S) (db : DB) :
  let parsed := Parse message_Read err_bytes raw in
  rows (messages db) !! id = Some r -> table_wf (mime_parts db) ->
  (forall d, length (sha256 d) = 32%nat /\ is_bytes (sha256 d)) ->
  (forall p q, p ∈ pm_Parts parsed -> q ∈ pm_Parts parsed ->
     sha256 (pt_Content p) = sha256 (pt_Content q) -> pt_Content p = pt_Content q) ->
  exists s' db', Ingest message_Read err_bytes id raw s db = (inr tt, s', db')
    /\ rows (messages db') !! id = Some (apply_parsed (parsed_content parsed) r)
    /\ forall p, p ∈ pm_Parts parsed -> exists k row,
         rows (mime_parts db') !! k = Some row /\ mp_message_id row = id /\ mp_part_path row = pt_Path p
         /\ mp_size_octets row = pt_Size p
         /\ (stored_alone p = true ->
              exists key, mp_blob_key row = Some key /\ Get key s' = inr (pt_Content p)).
Proof.
  cbv zeta. intros Hr Hwf Hsha Hinj. destruct (Parse_parts message_Read err_bytes raw) as [Hnd Hsz].
  unfold Ingest. set (parsed := Parse message_Read err_bytes raw) in *.
  pose proof (part_records_ok sha256 (pm_Parts parsed) s) as Hp.
  destruct (part_records (pm_Parts parsed) s) as [rs s'] eqn:E. destruct Hp as (E1 & E2 & Hk & _ & Hin).
  destruct (SaveParsedContent_ok id (parsed_content parsed) rs db r Hr Hwf) as (db' & E' & Hm & _ & Hrows).
  { apply Forall_forall. intros x Hx. apply (list_elem_of_fmap_2 mpt_Size) in Hx. unfold fmap in Hx.
    change (mpt_Size x ∈ map mpt_Size rs) in Hx. rewrite E2 in Hx. apply list_elem_of_fmap in Hx as (p & -> & Hp).
    rewrite Forall_forall in Hsz. destruct (Hsz p Hp). lia. }
  { by rewrite E1. }
  rewrite E'. exists s', db'. split; [done|]. split; [exact Hm|]. intros p Hp.
  apply list_elem_of_lookup in Hp as [i Hi]. destruct (Forall2_lookup_l _ _ _ _ _ Hk Hi) as (rec & Hrec & Hkey).
  destruct (Hrows rec) as (k & Hrow); [by eapply list_elem_of_lookup_2|].
  exists k, (new_part id rec). split; [done|]. split; [done|].
  split; [exact (map_eq_lookup _ _ _ _ _ _ _ E1 Hrec Hi)|].
  split; [exact (map_eq_lookup _ _ _ _ _ _ _ E2 Hrec Hi)|]. intros Hs.
  rewrite Hs in Hkey. exists (NewKey TypeMIMEPart (sha256 (pt_Content p))). split; [exact Hkey|].
  assert (p ∈ pm_Parts parsed) as Hp by (by eapply list_elem_of_lookup_2).
  destruct (Hin p Hp Hs) as (q & Hq & _ & Ek & Hc). destruct (Hsha (pt_Content p)), (Hsha (pt_Content q)).
  apply (get_content sha256); [by apply NewKey_valid|]. rewrite Hc. f_equal. apply Hinj; [done|done|].
  destruct (Key_parts TypeMIMEPart (sha256 (pt_Content p))) as [_ D1]; [done..|].
  destruct (Key_parts TypeMIMEPart (sha256 (pt_Content q))) as [_ D2]; [done..|].
  rewrite Ek in D2. rewrite D1 in D2. by injection D2.
Qed.

Definition ex_header : MailHeader :=
  mk_MailHeader (fun _ => inr (lit "hello")) (fun _ => []) (inr None) (fun _ => inr []).
Definition ex_read (_ : bytes) : ReadResult := ReadReturns (Some (ex_header, ex_entity)) None.
Lemma Ingest_records_witness :
  exists s' db', @Ingest ex_read (fun _ => []) MemStore (Mem_BlobStore ex_sha) 1 [] NewMemStore ex_db1 = (inr tt, s', db')
    /\ (m_body_text <$> rows (messages db') !! 1) = Some (Some (text_of (lit "one" ++ [byte 10] ++ lit "second")))
    /\ exists k row key, rows (mime_parts db') !! k = Some row /\ mp_part_path row = "2"%string
         /\ mp_blob_key row = Some key /\ Mem_Get key s' = inr (lit "pdf!").
Proof.
  destruct (@Ingest_records MemStore ex_sha (Mem_BlobStore ex_sha) (Mem_laws ex_sha) ex_read (fun _ => []) [] 1 ex_row
    NewMemStore ex_db1 eq_refl ex_parts_wf ex_sha_ok) as (s' & db' & H1 & H2 & H3).
  - intros p q Hp Hq.
    change (pm_Parts (Parse ex_read (fun _ => []) [])) with
      [make_part plain_header "1.1" (lit "one"); make_part plain_header "1.2" (lit "second");
       make_part pdf_header "2" (lit "pdf!")] in *.
    rewrite !elem_of_cons, elem_of_nil in Hp, Hq.
    destruct Hp as [->|[->|[->|[]]]], Hq as [->|[->|[->|[]]]]; try (intros _; reflexivity); intros E; vm_compute in E; discriminate E.
  - exists s', db'. split; [exact H1|]. split; [rewrite H2; reflexivity|].
    destruct (H3 (make_part pdf_header "2" (lit "pdf!"))) as (k & row & Hk & _ & Hpath & _ & Hb).
    { right. right. left. }
    destruct (Hb eq_refl) as (key & Hkey & Hg). exists k, row, key. exact (conj Hk (conj Hpath (conj Hkey Hg))).
Defined.
