(* ===== verification/SyncMeta.v ===== *)
(** The sync engine's data (internal/syncer): claims, progress counters, the order
    mailboxes are visited in, and the conversion of upstream metadata to rows. *)
From S2P Require Import Prelude GoStrings Retry NumSet Planner Schema StoreMailboxes StoreMessages StoreRuns Upstream Commands Text.
From Stdlib Require Import String.
From stdpp Require Import strings gmap list sorting.
Open Scope list_scope.
Open Scope Z_scope.

(** * The claim table (claims.go) *)

(** Mailbox id and UID to the claimed row; every method holds the mutex
    throughout, so each is one step. *)
Definition claimTable : Type := gmap (Z * Z) PendingBody.
Definition newClaimTable : claimTable := ∅.

(** The map the producer builds, [byUID]: the last claim of a UID wins. *)
Definition by_uid (claimed : list PendingBody) : gmap Z PendingBody :=
  fold_left (fun m c => <[u32 (pb_UpstreamUID c) := c]> m) claimed ∅.

Definition remember (mailboxID : Z) (claims : gmap Z PendingBody) (t : claimTable) : claimTable :=
  kmap (fun uid => (mailboxID, uid)) claims ∪ t.

Definition take (mailboxID uid : Z) (t : claimTable) : option PendingBody * claimTable :=
  match t !! (mailboxID, uid) with
  | Some c => (Some c, delete (mailboxID, uid) t)
  | None => (None, t)
  end.

(** * Progress (engine.go) *)

Record Progress := mk_Progress {
  p_AccountID : Z;
  p_phase : string;
  p_currentMailbox : string;
  p_mailboxTotal : Z;
  p_mailboxesDone : Z;
  p_messagesNew : Z;
  p_bodiesFetched : Z;
  p_bytesFetched : Z;
  p_commands : Z;
  p_pendingBodies : Z;
  p_bodiesAtMetadataDone : Z
}.

Definition newProgress (accountID : Z) : Progress := mk_Progress accountID "starting" "" 0 0 0 0 0 0 0 0.
Definition setPhase (phase : string) (p : Progress) : Progress :=
  mk_Progress (p_AccountID p) phase (p_currentMailbox p) (p_mailboxTotal p) (p_mailboxesDone p)
    (p_messagesNew p) (p_bodiesFetched p) (p_bytesFetched p) (p_commands p) (p_pendingBodies p) (p_bodiesAtMetadataDone p).
Definition setMailbox (name : string) (p : Progress) : Progress :=
  mk_Progress (p_AccountID p) (p_phase p) name (p_mailboxTotal p) (p_mailboxesDone p)
    (p_messagesNew p) (p_bodiesFetched p) (p_bytesFetched p) (p_commands p) (p_pendingBodies p) (p_bodiesAtMetadataDone p).
Definition setMailboxTotal (n : Z) (p : Progress) : Progress :=
  mk_Progress (p_AccountID p) (p_phase p) (p_currentMailbox p) n (p_mailboxesDone p)
    (p_messagesNew p) (p_bodiesFetched p) (p_bytesFetched p) (p_commands p) (p_pendingBodies p) (p_bodiesAtMetadataDone p).
Definition mailboxDone (p : Progress) : Progress :=
  mk_Progress (p_AccountID p) (p_phase p) (p_currentMailbox p) (p_mailboxTotal p) (i64 (p_mailboxesDone p + 1))
    (p_messagesNew p) (p_bodiesFetched p) (p_bytesFetched p) (p_commands p) (p_pendingBodies p) (p_bodiesAtMetadataDone p).
Definition addMessages (n : Z) (p : Progress) : Progress :=
  mk_Progress (p_AccountID p) (p_phase p) (p_currentMailbox p) (p_mailboxTotal p) (p_mailboxesDone p)
    (i64 (p_messagesNew p + n)) (p_bodiesFetched p) (p_bytesFetched p) (p_commands p) (p_pendingBodies p) (p_bodiesAtMetadataDone p).
Definition addBody (bytes : Z) (p : Progress) : Progress :=
  mk_Progress (p_AccountID p) (p_phase p) (p_currentMailbox p) (p_mailboxTotal p) (p_mailboxesDone p)
    (p_messagesNew p) (i64 (p_bodiesFetched p + 1)) (i64 (p_bytesFetched p + bytes)) (p_commands p) (p_pendingBodies p)
    (p_bodiesAtMetadataDone p).
Definition addCommands (n : Z) (p : Progress) : Progress :=
  mk_Progress (p_AccountID p) (p_phase p) (p_currentMailbox p) (p_mailboxTotal p) (p_mailboxesDone p)
    (p_messagesNew p) (p_bodiesFetched p) (p_bytesFetched p) (i64 (p_commands p + n)) (p_pendingBodies p)
    (p_bodiesAtMetadataDone p).
Definition setPendingBodies (n : Z) (p : Progress) : Progress :=
  mk_Progress (p_AccountID p) (p_phase p) (p_currentMailbox p) (p_mailboxTotal p) (p_mailboxesDone p)
    (p_messagesNew p) (p_bodiesFetched p) (p_bytesFetched p) (p_commands p) n (p_bodiesAtMetadataDone p).
Definition recordMetadataComplete (p : Progress) : Progress :=
  mk_Progress (p_AccountID p) (p_phase p) (p_currentMailbox p) (p_mailboxTotal p) (p_mailboxesDone p)
    (p_messagesNew p) (p_bodiesFetched p) (p_bytesFetched p) (p_commands p) (p_pendingBodies p) (p_bodiesFetched p).
Definition snapshot (p : Progress) : SyncProgress :=
  mk_SyncProgress (p_phase p) (p_mailboxTotal p) (p_mailboxesDone p) (p_messagesNew p) (p_bodiesFetched p)
    (p_bytesFetched p) (p_commands p).

(** * The order of the mailboxes *)

Definition rank (b : MailboxInfo) : Z :=
  if EqualFold (mi_Name b) "INBOX" then 0
  else let u := SpecialUse b in
    if String.eqb u "\Sent" || String.eqb u "\Drafts" then 1
    else if String.eqb u "\Archive" || String.eqb u "\All" then 3
    else if String.eqb u "\Trash" || String.eqb u "\Junk" then 4
    else 2.

Section insertion_sort.
Context {A : Type} (key : A -> Z).

(** The inner loop: [for j := i; j > 0 && rank(sorted[j]) < rank(sorted[j-1]); j--]
    with the swap of the two cells. *)
Fixpoint sift (j : nat) (sorted : list A) : list A :=
  match j with
  | O => sorted
  | S j' =>
      match sorted !! j, sorted !! j' with
      | Some x, Some y =>
          if key x <? key y then sift j' (<[j' := x]> (<[j := y]> sorted)) else sorted
      | _, _ => sorted
      end
  end.

(** The outer loop from cell [i] on, [n] cells left. *)
Fixpoint sort_from (n i : nat) (sorted : list A) : list A :=
  match n with
  | O => sorted
  | S n => sort_from n (S i) (sift i sorted)
  end.
Definition insertion_sort (l : list A) : list A := sort_from (length l - 1) 1 l.
End insertion_sort.

Definition prioritise (boxes : list MailboxInfo) : list MailboxInfo := insertion_sort rank boxes.

(** * Metadata to rows *)

Definition attributeNames (attrs : list string) : list string := attrs.
Definition flagNames (flags : list string) : list string := flags.

Definition sanitiseText (s : string) : string := string_of_list_ascii (sanitise (list_ascii_of_string s)).
Definition quote_name (s : string) : string := string_of_list_ascii (quoteDisplayName (list_ascii_of_string s)).

Definition render_address (a : Address) : string :=
  let addr := sanitiseText (Addr a) in
  let name := sanitiseText (ad_Name a) in
  if String.eqb name "" then addr else (quote_name name ++ " <" ++ addr ++ ">")%string.

Definition addressMap (e : Envelope) : json_addrs :=
  list_to_map
    [("from"%string, map render_address (en_From e)); ("to"%string, map render_address (en_To e));
     ("cc"%string, map render_address (en_Cc e)); ("bcc"%string, map render_address (en_Bcc e));
     ("reply_to"%string, map render_address (en_ReplyTo e))].

Definition nonempty_text (s : string) : option string :=
  if String.eqb s "" then None else Some (sanitiseText s).

Definition buildMeta (accountID mailboxID : Z) (meta : FetchedMeta) : MessageMeta :=
  {| mt_AccountID := accountID; mt_MailboxID := mailboxID; mt_UpstreamUID := fm_UID meta;
     mt_UpstreamModSeq := i64 (fm_ModSeq meta); mt_Flags := flagNames (fm_Flags meta); mt_Size := fm_Size meta;
     mt_MessageID := fm_Envelope meta ≫= fun e => nonempty_text (en_MessageID e);
     mt_InReplyTo := fm_Envelope meta ≫= fun e => sanitiseText <$> head (en_InReplyTo e);
     mt_References := [];
     mt_Subject := fm_Envelope meta ≫= fun e => nonempty_text (en_Subject e);
     mt_Addrs := addressMap <$> fm_Envelope meta;
     mt_InternalDate := fm_InternalDate meta;
     mt_SentDate := fm_Envelope meta ≫= en_Date |}.

(** * The claim table hands each claim out once *)

Lemma take_lookup mb uid t k :
  (take mb uid t).2 !! k = if decide (k = (mb, uid)) then None else t !! k.
Proof.
  unfold take. destruct (t !! (mb, uid)) as [c|] eqn:E; cbn.
  - destruct (decide (k = (mb, uid))) as [->|]; [apply lookup_delete_eq|by apply lookup_delete_ne].
  - by destruct (decide (k = (mb, uid))) as [->|].
Qed.

Lemma remember_lookup mb claims t mb' uid :
  remember mb claims t !! (mb', uid) =
    match (if decide (mb' = mb) then claims !! uid else None) with Some c => Some c | None => t !! (mb', uid) end.
Proof.
  unfold remember, claimTable in *. assert (Inj (=) (=) (fun uid : Z => (mb, uid))) by (intros ?? [=]; done).
  rewrite lookup_union.
  destruct (decide (mb' = mb)) as [->|Hne].
  - rewrite lookup_kmap by done. by destruct (claims !! uid), (t !! (mb, uid)).
  - rewrite (proj2 (lookup_kmap_None _ _ _)); [by destruct (t !! (mb', uid))|]. intros u [= -> _]. done.
Qed.

Lemma by_uid_lookup (claimed : list PendingBody) (uid : Z) :
  (forall c, by_uid claimed !! uid = Some c -> c ∈ claimed /\ u32 (pb_UpstreamUID c) = uid) /\
  (uid ∈ map (fun c => u32 (pb_UpstreamUID c)) claimed -> is_Some (by_uid claimed !! uid)).
Proof.
  unfold by_uid. induction claimed as [|c l [IH1 IH2]] using rev_ind.
  { split; [by intros c|by intros ?%elem_of_nil]. }
  rewrite fold_left_app, map_app. cbn [fold_left map].
  destruct (decide (u32 (pb_UpstreamUID c) = uid)) as [<-|Hne].
  - rewrite lookup_insert_eq. split; [|by eexists]. intros ? [= <-]. split; [|done]. apply elem_of_app. right. left.
  - rewrite lookup_insert_ne by done. split.
    + intros c' Hc'. destruct (IH1 c' Hc'). split; [apply elem_of_app; by left|done].
    + intros [Hin|Hin]%elem_of_app; [by apply IH2|]. by apply list_elem_of_singleton in Hin.
Qed.

(** The results of taking the same claim again and again, other claims being taken
    and remembered for other messages in between. *)
Inductive claim_op := OpTake (mailboxID uid : Z) | OpRemember (mailboxID : Z) (claims : gmap Z PendingBody).
Fixpoint takes (mb uid : Z) (ops : list claim_op) (t : claimTable) : list PendingBody :=
  match ops with
  | [] => []
  | OpTake mb' uid' :: ops =>
      let '(r, t) := take mb' uid' t in
      (if decide ((mb', uid') = (mb, uid)) then match r with Some c => [c] | None => [] end else [])
      ++ takes mb uid ops t
  | OpRemember mb' claims :: ops => takes mb uid ops (remember mb' claims t)
  end.
Definition remembers (mb uid : Z) (op : claim_op) : Prop :=
  match op with OpRemember mb' claims => mb' = mb /\ is_Some (claims !! uid) | OpTake _ _ => False end.
#[export] Instance remembers_dec mb uid op : Decision (remembers mb uid op).
Proof. destruct op; cbn; apply _. Defined.

Lemma takes_bound mb uid ops t :
  (length (takes mb uid ops t) <= length (filter (remembers mb uid) ops)
     + if decide (is_Some (t !! (mb, uid))) then 1 else 0)%nat.
Proof.
  revert t. induction ops as [|[mb' uid'|mb' claims] ops IH]; intros t; [cbn; lia| |]; cbn [takes].
  - rewrite filter_cons_False by by intros []. pose proof (take_lookup mb' uid' t (mb, uid)) as Hl.
    destruct (take mb' uid' t) as [r t'] eqn:Et. cbn in Hl. specialize (IH t'). rewrite Hl in IH. rewrite length_app.
    destruct (decide ((mb', uid') = (mb, uid))) as [E|Hne].
    + injection E as -> ->. destruct (decide ((mb, uid) = (mb, uid))) as [_|]; [|done].
      rewrite decide_False in IH by by intros []. unfold take in Et.
      destruct (t !! (mb, uid)) as [c|]; injection Et as <- <-; cbn; [|lia].
      destruct (decide (is_Some (Some c))) as [|[]]; [lia|by eexists].
    + destruct (decide ((mb, uid) = (mb', uid'))); [congruence|]. cbn. lia.
  - specialize (IH (remember mb' claims t)). rewrite remember_lookup in IH. rewrite filter_cons.
    destruct (decide (remembers mb uid (OpRemember mb' claims))) as [[-> [c Hc]]|Hno]; cbn [length].
    + destruct (decide (mb = mb)) as [_|]; [|done]. rewrite Hc in IH.
      destruct (decide (is_Some (t !! (mb, uid)))), (decide (is_Some (Some c))); lia.
    + assert ((if decide (mb = mb') then claims !! uid else None) = None) as E.
      { destruct (decide (mb = mb')) as [->|]; [|done]. apply eq_None_not_Some. intros Hs. by apply Hno. }
      rewrite E in IH. exact IH.
Qed.

(** A claim is handed out at most once for every time it is remembered, however
    workers, batches and retries interleave: the second look-up of a UID finds
    nothing, so no message is stored twice. *)
Theorem claims_taken_once (mb uid : Z) (ops : list claim_op) :
  (length (takes mb uid ops newClaimTable) <= length (filter (remembers mb uid) ops))%nat.
Proof. pose proof (takes_bound mb uid ops newClaimTable) as H. rewrite decide_False in H; [lia|]. by intros []. Qed.

(** * The mailbox order is stable *)

Section insertion_sort_proofs.
Context {A : Type} (key : A -> Z).
Notation le := (fun x y => key x <= key y).

Lemma sift_app pre x post :
  StronglySorted le pre ->
  exists ins, sift key (length pre) (pre ++ x :: post) = ins ++ post
    /\ StronglySorted le ins /\ ins ≡ₚ pre ++ [x]
    /\ forall k, filter (fun y => key y = k) ins = filter (fun y => key y = k) (pre ++ [x]).
Proof.
  revert post. induction pre as [|y pre IH] using rev_ind; intros post Hs.
  { exists [x]. repeat constructor. }
  rewrite length_app. replace (length pre + length [y])%nat with (S (length pre)) by (simpl; lia).
  rewrite <- app_assoc. cbn [app sift]. rewrite !lookup_app_r by lia.
  replace (S (length pre) - length pre)%nat with 1%nat by lia. rewrite Nat.sub_diag. cbn [lookup list_lookup].
  destruct (Z.ltb_spec (key x) (key y)) as [Hlt|Hge].
  - rewrite !insert_app_r_alt by lia. replace (S (length pre) - length pre)%nat with 1%nat by lia.
    rewrite Nat.sub_diag. cbn [insert list_insert].
    apply StronglySorted_app in Hs as (Hc & Hs & _). destruct (IH (y :: post) Hs) as (ins & E & Si & Pi & Fi).
    exists (ins ++ [y]). rewrite E, <- app_assoc. split; [done|]. split_and!.
    + apply StronglySorted_app. split_and!; [|done|repeat constructor].
      intros a b Ha ->%list_elem_of_singleton. rewrite Pi in Ha.
      apply elem_of_app in Ha as [Ha|Ha]; [|apply list_elem_of_singleton in Ha].
      * apply Hc; [done|left].
      * subst. lia.
    + rewrite Pi, <- !app_assoc. by rewrite (Permutation_app_comm [x]).
    + intros k. rewrite !filter_app, Fi, filter_app, <- !app_assoc. f_equal.
      rewrite !filter_cons, filter_nil. destruct (decide (key x = k)), (decide (key y = k)); try done. lia.
  - exists ((pre ++ [y]) ++ [x]). split; [by rewrite <- !app_assoc|]. split; [|done].
    apply StronglySorted_app. split_and!; [|done|repeat constructor].
    intros a b Ha ->%list_elem_of_singleton. apply StronglySorted_app in Hs as (Hc & _ & _).
    apply elem_of_app in Ha as [Ha|Ha]; [|by apply list_elem_of_singleton in Ha as ->].
    specialize (Hc a y Ha ltac:(left)). cbn in Hc. lia.
Qed.

Lemma sort_from_spec n pre post :
  StronglySorted le pre -> length post = n ->
  let l := sort_from key n (length pre) (pre ++ post) in
  StronglySorted le l /\ l ≡ₚ pre ++ post
  /\ forall k, filter (fun y => key y = k) l = filter (fun y => key y = k) (pre ++ post).
Proof.
  revert pre post. induction n as [|n IH]; intros pre [|x post] Hs Hn; try done; cbn [sort_from].
  { by rewrite app_nil_r. }
  destruct (sift_app pre x post Hs) as (ins & -> & Si & Pi & Fi).
  assert (length ins = S (length pre)) as Hl by (rewrite Pi, length_app; simpl; lia).
  rewrite <- Hl. destruct (IH ins post Si) as (S' & P' & F'); [simpl in Hn; lia|].
  cbv zeta. split; [done|]. split.
  - rewrite P', Pi, <- app_assoc. done.
  - intros k. rewrite F', !filter_app, Fi, filter_app, <- app_assoc. by rewrite <- filter_app.
Qed.

Lemma insertion_sort_spec l :
  StronglySorted le (insertion_sort key l) /\ insertion_sort key l ≡ₚ l
  /\ forall k, filter (fun y => key y = k) (insertion_sort key l) = filter (fun y => key y = k) l.
Proof.
  unfold insertion_sort. destruct l as [|x l]; [split; [constructor|done]|].
  apply (sort_from_spec (length (x :: l) - 1) [x] l); [repeat constructor|simpl; lia].
Qed.
End insertion_sort_proofs.

(** Mailboxes are visited by rank, INBOX first and archives, junk and trash last,
    every mailbox exactly once, and equally ranked ones in the server's order. *)
Theorem prioritise_stable (boxes : list MailboxInfo) :
  StronglySorted (fun a b => rank a <= rank b) (prioritise boxes)
  /\ prioritise boxes ≡ₚ boxes
  /\ forall k, filter (fun b => rank b = k) (prioritise boxes) = filter (fun b => rank b = k) boxes.
Proof. apply insertion_sort_spec. Qed.

(** * Rows built from metadata are storable *)

Definition storable_text (s : string) : Prop := storable (list_ascii_of_string s) = true.

Lemma sanitiseText_storable s : storable_text (sanitiseText s).
Proof. unfold storable_text, sanitiseText. rewrite list_ascii_of_string_of_list_ascii. apply sanitise_storable. Qed.

Lemma list_ascii_app a b : list_ascii_of_string (a ++ b)%string = list_ascii_of_string a ++ list_ascii_of_string b.
Proof. induction a as [|c a IH]; [done|]. exact (f_equal (cons c) IH). Qed.

Lemma storable_app a b : storable_text a -> storable_text b -> storable_text (a ++ b)%string.
Proof.
  unfold storable_text. rewrite list_ascii_app, !storable_iff. intros [H1 H2] [H3 H4].
  split; [by apply valid_utf8_app|]. rewrite elem_of_app. tauto.
Qed.

Lemma render_address_storable a : storable_text (render_address a).
Proof.
  unfold render_address. destruct (String.eqb _ _); [apply sanitiseText_storable|].
  repeat apply storable_app; try done; [|apply sanitiseText_storable].
  unfold storable_text, quote_name. rewrite list_ascii_of_string_of_list_ascii.
  apply quoteDisplayName_storable, sanitiseText_storable.
Qed.

Definition optional_storable (o : option string) : Prop := match o with Some s => storable_text s | None => True end.

Lemma nonempty_text_storable s : optional_storable (nonempty_text s).
Proof. unfold nonempty_text. destruct (String.eqb s ""); [done|]. apply sanitiseText_storable. Qed.

(** Whatever a server reports, the row built from it is one Postgres accepts:
    subject, message id, in-reply-to and every address are valid UTF-8 without NUL,
    and it is filed under the account, mailbox, UID and flags it was asked for. *)
Theorem buildMeta_storable (accountID mailboxID : Z) (meta : FetchedMeta) :
  let m := buildMeta accountID mailboxID meta in
  mt_AccountID m = accountID /\ mt_MailboxID m = mailboxID /\ mt_UpstreamUID m = fm_UID meta
  /\ mt_Flags m = fm_Flags meta /\ mt_Size m = fm_Size meta
  /\ optional_storable (mt_Subject m) /\ optional_storable (mt_MessageID m) /\ optional_storable (mt_InReplyTo m)
  /\ forall addrs key l, mt_Addrs m = Some addrs -> addrs !! key = Some l -> Forall storable_text l.
Proof.
  cbv zeta. repeat (split; [done|]). cbn [buildMeta mt_Subject mt_MessageID mt_InReplyTo mt_Addrs].
  destruct (fm_Envelope meta) as [e|]; [|done]. cbn.
  split; [apply nonempty_text_storable|]. split; [apply nonempty_text_storable|].
  split; [destruct (en_InReplyTo e); [done|apply sanitiseText_storable]|].
  intros addrs key l [= <-]. unfold addressMap. cbn. intros Hl.
  assert (exists as_, l = map render_address as_) as (as_ & ->).
  { do 5 (apply lookup_insert_Some in Hl as [[_ <-]|[_ Hl]]; [eauto|]). done. }
  apply Forall_forall. intros x (a & -> & _)%list_elem_of_fmap. apply render_address_storable.
Qed.
