(* ===== verification/SyncPass.v ===== *)
(** The metadata pass (internal/syncer/mailbox.go: metadataPass,
    reconcileDeletions): one sequence of store calls and IMAP commands, any of
    which may fail, run while other processes change the database. *)
From S2P Require Import Prelude GoStrings Retry NumSet Planner Schema StoreMailboxes StoreMessages Upstream Commands SyncMeta.
From Stdlib Require Import String.
From stdpp Require Import strings gmap list.
Open Scope list_scope.
Open Scope Z_scope.

(** * The world of a run *)

(** What happens to one call of the store: it runs, or its error is returned
    either without the statement taking effect or although it did. *)
Inductive store_fault := NoFault | FailBefore (e : err) | FailAfter (e : err).

(** The environment of a run: what the database and the server do at each call,
    what other processes commit just before it, the clock and the context. *)
Record Env := mk_Env {
  ev_fault : nat -> store_fault;
  ev_others : nat -> DB -> DB;
  ev_now : nat -> Z;
  ev_ctx : nat -> option err;
  ev_condstore : bool;                 (* PreferCondStore and the capability *)
  ev_batch : Z;                        (* MetadataBatchMessages *)
  ev_fetch : nat -> list Range -> Z -> bool -> err + list FetchedMeta;
  ev_search : nat -> err + list Z
}.

(** The state of a run: the database, the progress counters, the numbers of store
    calls and IMAP commands so far, and two locals of the pass. *)
Record World := mk_World {
  w_db : DB;
  w_progress : Progress;
  w_calls : nat;
  w_cmds : nat;
  w_new : Z;          (* newMessages *)
  w_highest : Z       (* highestSeen *)
}.

Definition set_new (n : Z) (w : World) : World :=
  mk_World (w_db w) (w_progress w) (w_calls w) (w_cmds w) n (w_highest w).
Definition set_highest (n : Z) (w : World) : World :=
  mk_World (w_db w) (w_progress w) (w_calls w) (w_cmds w) (w_new w) n.
Definition on_progress (f : Progress -> Progress) (w : World) : World :=
  mk_World (w_db w) (f (w_progress w)) (w_calls w) (w_cmds w) (w_new w) (w_highest w).

Definition M (A : Type) : Type := World -> (err + A) * World.
#[export] Instance M_ret : MRet M := fun _ x w => (inr x, w).
#[export] Instance M_bind : MBind M := fun _ _ f m w =>
  match m w with (inl e, w) => (inl e, w) | (inr x, w) => f x w end.
Definition local (f : World -> World) : M unit := fun w => (inr tt, f w).
Definition read {A} (f : World -> A) : M A := fun w => (inr (f w), w).
Definition fail {A} (e : err) : M A := fun w => (inl e, w).
(** An error that is only logged. *)
Definition logged (m : M unit) : M unit := fun w => (inr tt, (m w).2).
Definition wrapping {A} (pre : string) (m : M A) : M A := fun w =>
  match m w with (inl e, w) => (inl (ErrWrap pre e ""), w) | r => r end.

Section engine.
Variable env : Env.

Definition with_db (db : DB) (w : World) : World :=
  mk_World db (w_progress w) (S (w_calls w)) (w_cmds w) (w_new w) (w_highest w).

Definition store_call {A} (m : Z -> sql A) : M A := fun w =>
  let n := w_calls w in
  let db := ev_others env n (w_db w) in
  match ev_fault env n with
  | NoFault => let '(r, db) := m (ev_now env n) db in (r, with_db db w)
  | FailBefore e => (inl e, with_db db w)
  | FailAfter e => (inl e, with_db (exec (m (ev_now env n)) db) w)
  end.

Definition command {A} (m : nat -> err + A) : M A := fun w =>
  (m (w_cmds w), mk_World (w_db w) (w_progress w) (w_calls w) (S (w_cmds w)) (w_new w) (w_highest w)).

Definition FetchMetadata (uids : list Range) (changedSince : Z) (full : bool) : M (list FetchedMeta) :=
  command (fun n => ev_fetch env n uids changedSince full).
Definition SearchAllUIDs : M (list Z) := command (ev_search env).
Definition ctx_Err : M unit := fun w =>
  match ev_ctx env (w_calls w) with Some e => (inl e, w) | None => (inr tt, w) end.
Definition addCommands1 : M unit := local (on_progress (addCommands 1)).

Fixpoint each {A} (f : A -> M unit) (l : list A) : M unit :=
  match l with
  | [] => mret tt
  | x :: l => f x ≫= fun _ => each f l
  end.

Definition stored (o : option Z) : Z := match o with Some x => x | None => 0 end.

Definition update_flags (mailboxID : Z) (meta : FetchedMeta) : M unit :=
  store_call (fun _ => UpdateFlags mailboxID (fm_UID meta) (flagNames (fm_Flags meta)) (i64 (fm_ModSeq meta))).

(** * [reconcileDeletions] *)

Definition reconcileDeletions (mailboxID : Z) (selected : SelectedMailbox) : M unit :=
  localCount ← store_call (fun _ => CountMailboxMessages mailboxID);
  if localCount =? sm_NumMessages selected then mret tt else
  uids ← SearchAllUIDs;
  _ ← store_call (fun _ => DeleteMissingUIDs mailboxID (Some uids));
  mret tt.

(** * [metadataPass] *)

(** Sorting one response: rows already known only get their flags refreshed, and
    that only without CONDSTORE; the others become the batch. *)
Fixpoint collect_batch (accountID mailboxID : Z) (known : gset Z) (condStore : bool) (metas : list FetchedMeta)
    (batch : list MessageMeta) : M (list MessageMeta) :=
  match metas with
  | [] => mret batch
  | meta :: metas =>
      let uid := fm_UID meta in
      local (fun w => if w_highest w <? uid then set_highest uid w else w) ≫= fun _ =>
      if bool_decide (uid ∈ known) then
        (if negb condStore then update_flags mailboxID meta else mret tt) ≫= fun _ =>
        collect_batch accountID mailboxID known condStore metas batch
      else collect_batch accountID mailboxID known condStore metas (batch ++ [buildMeta accountID mailboxID meta])
  end.

Definition chunk_phase (name : string) (done total : Z) : string :=
  ("metadata: " ++ name ++ " (" ++ Itoa done ++ "/" ++ Itoa total ++ ")")%string.

Definition save_checkpoint (mailboxID : Z) (selected : SelectedMailbox) (full : bool) : M unit :=
  highestSeen ← read w_highest;
  store_call (fun now => SaveCheckpoint now mailboxID
    (mk_Checkpoint (sm_UIDValidity selected) (sm_UIDNext selected) (i64 (sm_HighestModSeq selected)) highestSeen full)).

(** One chunk; [i] counts from zero. *)
Definition sync_chunk (accountID : Z) (mailbox : Mailbox) (selected : SelectedMailbox) (known : gset Z)
    (condStore : bool) (total i : Z) (chunk : list Range) : M unit :=
  ctx_Err ≫= fun _ =>
  addCommands1 ≫= fun _ =>
  metas ← FetchMetadata chunk 0 true;
  batch ← collect_batch accountID mailbox.1 known condStore metas [];
  created ← wrapping ("recording metadata chunk " ++ Itoa (i + 1) ++ ": ")
    (store_call (fun _ => UpsertMetadataBatch batch));
  local (fun w => set_new (i64 (w_new w + created)) w) ≫= fun _ =>
  local (on_progress (fun p => setPhase (chunk_phase (mb_name mailbox.2)
    (Z.min (i64 ((i + 1) * ev_batch env)) total) total) (addMessages created p))) ≫= fun _ =>
  save_checkpoint mailbox.1 selected false.

Fixpoint sync_chunks (accountID : Z) (mailbox : Mailbox) (selected : SelectedMailbox) (known : gset Z)
    (condStore : bool) (total i : Z) (chunks : list (list Range)) : M unit :=
  match chunks with
  | [] => mret tt
  | chunk :: chunks =>
      sync_chunk accountID mailbox selected known condStore total i chunk ≫= fun _ =>
      sync_chunks accountID mailbox selected known condStore total (i + 1) chunks
  end.

Definition uses_condstore (selected : SelectedMailbox) : bool :=
  ev_condstore env && (0 <? sm_HighestModSeq selected).

(** Does SELECT alone show that nothing changed? *)
Definition looks_unchanged (r : mailbox_row) (selected : SelectedMailbox) : bool :=
  uses_condstore selected && (stored (mb_highestmodseq r) =? i64 (sm_HighestModSeq selected))
  && (stored (mb_uidnext r) =? sm_UIDNext selected) && (0 <? mb_metadata_synced_through_uid r).

(** The first part: true when the pass is over. *)
Definition check_unchanged (mailbox : Mailbox) (selected : SelectedMailbox) : M bool :=
  if looks_unchanged mailbox.2 selected then
    localCount ← store_call (fun _ => CountMailboxMessages mailbox.1);
    mret (sm_NumMessages selected <=? localCount)
  else mret false.

(** Flag changes since the stored sequence. *)
Definition changed_flags (mailbox : Mailbox) (selected : SelectedMailbox) : M unit :=
  let storedModSeq := stored (mb_highestmodseq mailbox.2) in
  if uses_condstore selected && (0 <? storedModSeq) then
    addCommands1 ≫= fun _ =>
    changed ← FetchMetadata (UIDRange 1) storedModSeq false;
    each (update_flags mailbox.1) changed
  else mret tt.

(** The UIDs to ask about. *)
Definition pending_uids (known : gset Z) (condStore : bool) (allUIDs : list Z) : list Z :=
  filter (fun uid => ~ (uid ∈ known /\ condStore = true)) allUIDs.

Definition enumerate (accountID : Z) (mailbox : Mailbox) (selected : SelectedMailbox) : M unit :=
  let condStore := uses_condstore selected in
  addCommands1 ≫= fun _ =>
  allUIDs ← SearchAllUIDs;
  known ← store_call (fun _ => ExistingUpstreamUIDs mailbox.1);
  let pending := pending_uids known condStore allUIDs in
  local (set_highest (mb_metadata_synced_through_uid mailbox.2)) ≫= fun _ =>
  sync_chunks accountID mailbox selected known condStore (Z.of_nat (length pending)) 0
    (PlanMetadataChunks pending (ev_batch env)).

(** The result's first component, [newMessages], is [w_new] of the final world. *)
Definition metadataPass (accountID : Z) (mailbox : Mailbox) (selected : SelectedMailbox) : M unit :=
  local (set_new 0) ≫= fun _ =>
  unchanged ← check_unchanged mailbox selected;
  if (unchanged : bool) then mret tt else
  changed_flags mailbox selected ≫= fun _ =>
  enumerate accountID mailbox selected ≫= fun _ =>
  logged (reconcileDeletions mailbox.1 selected) ≫= fun _ =>
  save_checkpoint mailbox.1 selected true.
End engine.
