(* ===== verification/SyncPassProps.v ===== *)
(** Properties of the metadata pass: under any failures and any concurrent work on
    bodies, the checkpoint never gets ahead of what is recorded; without failures
    the mailbox ends up holding exactly the server's messages. *)
From S2P Require Import Prelude GoStrings Retry NumSet Planner Schema StoreMailboxes StoreMessages StoreInvariant StoreSteps StoreProps Upstream Commands SyncMeta SyncPass.
From Stdlib Require Import String.
From stdpp Require Import strings gmap list.
Open Scope list_scope.
Open Scope Z_scope.

(** * Recorded messages and checkpoints *)

Definition has_row (mb uid : Z) (db : DB) : Prop :=
  exists id r, rows (mailbox_messages db) !! id = Some r /\ mm_mailbox_id r = mb /\ mm_upstream_uid r = Some uid.

(** What the next pass compares with the server. *)
Definition ckpt (mb : Z) (db : DB) : option (option Z * option Z) :=
  (fun r => (mb_uidnext r, mb_highestmodseq r)) <$> rows (mailboxes db) !! mb.

(** From [db] to [db'] no message of the mailbox was lost and its checkpoint did not
    move. *)
Record grown (mb : Z) (db db' : DB) : Prop := mk_grown {
  gr_seq : table_wf (mailbox_messages db');
  gr_rows : forall uid, has_row mb uid db -> has_row mb uid db';
  gr_ckpt : ckpt mb db' = ckpt mb db
}.
Definition grows (mb : Z) (db db' : DB) : Prop := table_wf (mailbox_messages db) -> grown mb db db'.

#[export] Instance grows_preorder mb : PreOrder (grows mb).
Proof.
  split; [by intros db Hwf|]. intros a b c H1 H2 Hwf. destruct (H1 Hwf) as [W1 R1 C1], (H2 W1) as [W2 R2 C2].
  constructor; [done|auto|congruence].
Qed.

Lemma grows_same mb db db' :
  mailbox_messages db' = mailbox_messages db -> ckpt mb db' = ckpt mb db -> grows mb db db'.
Proof. intros E C Hwf. constructor; [by rewrite E| |done]. unfold has_row. by rewrite E. Qed.

Lemma grows_update_mm mb p f db :
  (forall r, mm_mailbox_id (f r) = mm_mailbox_id r /\ mm_upstream_uid (f r) = mm_upstream_uid r) ->
  grows mb db (update_mm p f db).
Proof.
  intros Hf Hwf. constructor; [by apply table_wf_update| |done].
  intros uid (id & r & Hr & Hm & Hu). exists id, (if p id r then f r else r). db_simpl.
  rewrite lookup_update_where, Hr. destruct (Hf r) as [E1 E2]. split; [done|]. destruct (p id r); [|done].
  by rewrite E1, E2.
Qed.

Lemma ckpt_update_mailbox mb id f db :
  (forall r, mb_uidnext (f r) = mb_uidnext r /\ mb_highestmodseq (f r) = mb_highestmodseq r) ->
  ckpt mb (update_mailbox id f db) = ckpt mb db.
Proof.
  intros Hf. unfold ckpt. db_simpl. rewrite lookup_update_where. destruct (rows (mailboxes db) !! mb) as [r|]; [|done].
  simpl. destruct (id_is id mb r); [|done]. destruct (Hf r) as [-> ->]. done.
Qed.

(** * The store calls of the pass *)

Definition sql_grows (mb : Z) {A} (m : sql A) : Prop := forall db, grows mb db (exec m db).

Section sql_grows.
Context (mb : Z).

Lemma sql_grows_ret {A} (x : A) : sql_grows mb (mret x).
Proof. by intros db. Qed.
Lemma sql_grows_gets {A} (f : DB -> A) : sql_grows mb (gets f).
Proof. by intros db. Qed.
Lemma sql_grows_wrap {A} pre (m : sql A) : sql_grows mb m -> sql_grows mb (wrap_err pre m).
Proof. intros H db. specialize (H db). unfold exec, wrap_err in *. by destruct (m db) as [[]]. Qed.
Lemma sql_grows_InTx {A} (m : sql A) : sql_grows mb m -> sql_grows mb (InTx m).
Proof. intros H db. specialize (H db). unfold exec, InTx in *. by destruct (m db) as [[]]. Qed.
Lemma sql_grows_bind {A B} (m : sql A) (f : A -> sql B) :
  sql_grows mb m -> (forall x, sql_grows mb (f x)) -> sql_grows mb (m ≫= f).
Proof.
  intros H1 H2 db. specialize (H1 db). unfold exec, mbind, sql_bind in *.
  destruct (m db) as [[e|x] db1]; [done|]. simpl in *. etransitivity; [exact H1|]. apply H2.
Qed.

Lemma UpdateFlags_grows mb' uid flags modseq : sql_grows mb (UpdateFlags mb' uid flags modseq).
Proof. intros db. by apply grows_update_mm. Qed.

Lemma upsert_message_grows m : sql_grows mb (upsert_message m).
Proof. intros db. unfold exec, upsert_message. sql_cases; try done; by apply grows_same. Qed.

(** Rows may be added or refreshed, not moved to another mailbox or UID. *)
Lemma grows_rows db db' :
  ckpt mb db' = ckpt mb db ->
  (table_wf (mailbox_messages db) -> table_wf (mailbox_messages db')
     /\ forall id r, rows (mailbox_messages db) !! id = Some r -> exists r', rows (mailbox_messages db') !! id = Some r'
          /\ mm_mailbox_id r' = mm_mailbox_id r /\ mm_upstream_uid r' = mm_upstream_uid r) ->
  grows mb db db'.
Proof.
  intros Hc H Hwf. destruct (H Hwf) as [Hwf' Hr]. constructor; [done| |done].
  intros uid (id & r & Hid & Hm & Hu). destruct (Hr id r Hid) as (r' & ? & E1 & E2). exists id, r'. split; [done|].
  by rewrite E1, E2.
Qed.

Lemma upsert_mailbox_message_grows m mid : sql_grows mb (upsert_mailbox_message m mid).
Proof.
  intros db. unfold exec, upsert_mailbox_message.
  destruct (rows (mailboxes db) !! mt_MailboxID m) as [r|]; [|done]. cbv zeta.
  assert (ckpt mb (update_mailbox (mt_MailboxID m) (fun r0 => set_mb_local_uidnext (mb_local_uidnext r0 + 1) r0) db)
    = ckpt mb db) as Hc by by apply ckpt_update_mailbox.
  sql_cases; (apply grows_rows; [exact Hc|]); db_simpl; intros Hwf.
  - split; [by apply table_wf_update|]. intros id x Hx. rewrite lookup_update_where, Hx. eexists. split; [done|].
    by destruct (id_is _ _ _).
  - split; [by apply table_wf_insert|]. intros id x Hx. exists x. rewrite lookup_insert_row.
    destruct (decide _) as [->|]; [apply Hwf in Hx; lia|done].
Qed.

Lemma upsert_all_grows metas : forall n, sql_grows mb (upsert_all metas n).
Proof.
  induction metas as [|m metas IH]; intros n; [apply sql_grows_ret|]. cbn [upsert_all].
  apply sql_grows_bind; [|intros [? c]; apply IH]. unfold upsertMetadataTx.
  apply sql_grows_bind; [apply sql_grows_wrap, upsert_message_grows|].
  intros mid. apply sql_grows_wrap, upsert_mailbox_message_grows.
Qed.
Lemma UpsertMetadataBatch_grows metas : sql_grows mb (UpsertMetadataBatch metas).
Proof. destruct metas; [apply sql_grows_ret|]. apply sql_grows_InTx, upsert_all_grows. Qed.

Lemma SaveCheckpoint_mid_grows now id v n h x : sql_grows mb (SaveCheckpoint now id (mk_Checkpoint v n h x false)).
Proof. intros db. apply grows_same; [done|]. by apply ckpt_update_mailbox. Qed.

(** What a successful batch leaves behind. *)
Lemma upsert_all_rows metas : forall n c db db',
  table_wf (mailbox_messages db) -> upsert_all metas n db = (inr c, db') ->
  (forall m, m ∈ metas -> mt_MailboxID m = mb) -> forall m, m ∈ metas -> has_row mb (mt_UpstreamUID m) db'.
Proof.
  induction metas as [|m metas IH]; intros n c db db' Hwf; [by intros _ _ ? ?%elem_of_nil|].
  cbn [upsert_all]. unfold mbind, sql_bind. destruct (upsertMetadataTx m db) as [[e|[id cr]] db1] eqn:E1; [done|].
  intros E2 Hmb.
  assert (has_row mb (mt_UpstreamUID m) db1 /\ table_wf (mailbox_messages db1)) as [Hrow Hwf1].
  { unfold upsertMetadataTx, mbind, sql_bind, wrap_err in E1.
    pose proof (upsert_message_grows m db Hwf) as [W1 _ _]. unfold exec in W1.
    destruct (upsert_message m db) as [[e|mid] db2]; [done|]. cbn [snd] in W1.
    pose proof (upsert_mailbox_message_grows m mid db2 W1) as [W2 _ _]. unfold exec in W2.
    destruct (upsert_mailbox_message m mid db2) as [[e|[id' cr']] db3] eqn:E3; [done|]. injection E1 as <- <- <-.
    split; [|exact W2]. apply upsert_mailbox_message_row in E3 as (_ & _ & r & Hr & Hm & Hu & _).
    exists id', r. split; [done|]. rewrite Hm. split; [apply Hmb; left|done]. }
  pose proof (upsert_all_grows metas (if cr : bool then n + 1 else n) db1 Hwf1) as [_ G _].
  unfold exec in G. rewrite E2 in G. cbn [snd] in G.
  intros m' [->|Hm']%elem_of_cons; [by apply G|].
  eapply IH; [exact Hwf1|exact E2| |exact Hm']. intros m0 H0. apply Hmb. by right.
Qed.

Lemma UpsertMetadataBatch_rows metas c db db' :
  table_wf (mailbox_messages db) -> UpsertMetadataBatch metas db = (inr c, db') ->
  (forall m, m ∈ metas -> mt_MailboxID m = mb) -> forall m, m ∈ metas -> has_row mb (mt_UpstreamUID m) db'.
Proof.
  intros Hwf. destruct metas as [|m metas]; [by intros _ _ ? ?%elem_of_nil|]. unfold UpsertMetadataBatch, InTx.
  destruct (upsert_all (m :: metas) 0 db) as [[e|c'] db1] eqn:E; [done|]. intros [= <- <-] Hmb.
  by eapply upsert_all_rows.
Qed.
End sql_grows.

(** * The pass as a whole *)

Section pass.
Context (env : Env) (mb : Z).

(** Other processes and the body workers add and refresh rows; they neither take
    messages of this mailbox away nor touch its checkpoint. *)
Definition quiet : Prop := forall n db, grows mb db (ev_others env n db).
Context (Hquiet : quiet).

Definition growing {A} (m : M A) : Prop := forall w, grows mb (w_db w) (w_db (m w).2).

Lemma growing_ret {A} (x : A) : growing (mret x).
Proof. by intros w. Qed.
Lemma growing_local f : (forall w, w_db (f w) = w_db w) -> growing (local f).
Proof. intros Hf w. cbn. by rewrite Hf. Qed.
Lemma growing_read {A} (f : World -> A) : growing (read f).
Proof. by intros w. Qed.
Lemma growing_command {A} (m : nat -> err + A) : growing (command m).
Proof. by intros w. Qed.
Lemma growing_ctx : growing (ctx_Err env).
Proof. intros w. unfold ctx_Err. by destruct (ev_ctx env (w_calls w)). Qed.
Lemma growing_bind {A B} (m : M A) (f : A -> M B) :
  growing m -> (forall x, growing (f x)) -> growing (m ≫= f).
Proof.
  intros H1 H2 w. specialize (H1 w). unfold mbind, M_bind. destruct (m w) as [[e|x] w1]; [done|].
  cbn in H1. etransitivity; [exact H1|]. apply H2.
Qed.
Lemma growing_wrapping {A} pre (m : M A) : growing m -> growing (wrapping pre m).
Proof. intros H w. specialize (H w). unfold wrapping. by destruct (m w) as [[]]. Qed.
Lemma growing_store {A} (m : Z -> sql A) : (forall now, sql_grows mb (m now)) -> growing (store_call env m).
Proof.
  intros Hm w. unfold store_call. set (db := ev_others env (w_calls w) (w_db w)).
  assert (grows mb (w_db w) db) as Ho by apply Hquiet. specialize (Hm (ev_now env (w_calls w)) db). unfold exec in Hm.
  destruct (ev_fault env (w_calls w)); cbn; [|done|].
  - destruct (m _ db) as [r db']. cbn in *. by etransitivity.
  - etransitivity; [exact Ho|exact Hm].
Qed.
Lemma growing_each {A} (f : A -> M unit) l : (forall x, growing (f x)) -> growing (each f l).
Proof.
  intros Hf. induction l as [|x l IH]; [apply growing_ret|]. cbn [each]. apply growing_bind; [apply Hf|done].
Qed.

Lemma growing_flags meta : growing (update_flags env mb meta).
Proof. apply growing_store. intros now. apply UpdateFlags_grows. Qed.

Lemma growing_collect a known cs metas : forall batch, growing (collect_batch env a mb known cs metas batch).
Proof.
  induction metas as [|m metas IH]; intros batch; [apply growing_ret|]. cbn [collect_batch].
  apply growing_bind; [apply growing_local; intros w; by destruct (_ <? _)|]. intros _.
  destruct (bool_decide _); [|apply IH]. apply growing_bind; [|intros _; apply IH].
  destruct (negb cs); [apply growing_flags|apply growing_ret].
Qed.

Lemma growing_save_mid sel : growing (save_checkpoint env mb sel false).
Proof.
  apply growing_bind; [apply growing_read|]. intros h. apply growing_store. intros now. apply SaveCheckpoint_mid_grows.
Qed.

Lemma growing_chunk a r sel known cs total i chunk : growing (sync_chunk env a (mb, r) sel known cs total i chunk).
Proof.
  unfold sync_chunk. apply growing_bind; [apply growing_ctx|]. intros _.
  apply growing_bind; [by apply growing_local|]. intros _.
  apply growing_bind; [apply growing_command|]. intros metas.
  apply growing_bind; [apply growing_collect|]. intros batch.
  apply growing_bind; [apply growing_wrapping, growing_store; intros _; apply UpsertMetadataBatch_grows|]. intros created.
  apply growing_bind; [by apply growing_local|]. intros _.
  apply growing_bind; [by apply growing_local|]. intros _. apply growing_save_mid.
Qed.

Lemma growing_chunks a r sel known cs total chunks : forall i,
  growing (sync_chunks env a (mb, r) sel known cs total i chunks).
Proof.
  induction chunks as [|c chunks IH]; intros i; [apply growing_ret|]. cbn [sync_chunks].
  apply growing_bind; [apply growing_chunk|]. intros _. apply IH.
Qed.

Lemma growing_enumerate a r sel : growing (enumerate env a (mb, r) sel).
Proof.
  unfold enumerate. apply growing_bind; [by apply growing_local|]. intros _.
  apply growing_bind; [apply growing_command|]. intros uids.
  apply growing_bind; [apply growing_store; intros _; apply sql_grows_gets|]. intros known.
  apply growing_bind; [by apply growing_local|]. intros _. apply growing_chunks.
Qed.

Lemma growing_changed r sel : growing (changed_flags env (mb, r) sel).
Proof.
  unfold changed_flags. destruct (_ && _); [|apply growing_ret].
  apply growing_bind; [by apply growing_local|]. intros _.
  apply growing_bind; [apply growing_command|]. intros l. apply growing_each. intros m. apply growing_flags.
Qed.

Lemma growing_check r sel : growing (check_unchanged env (mb, r) sel).
Proof.
  unfold check_unchanged. destruct (looks_unchanged _ _ _); [|apply growing_ret].
  apply growing_bind; [apply growing_store; intros _; apply sql_grows_gets|]. intros. apply growing_ret.
Qed.

(** ** What an honest server's responses lead to

    [U] is what the server holds; it answers searches with it and a fetch with
    (at least) the messages of [U] it was asked for. *)
Definition honest (U : gset Z) : Prop :=
  (forall u, u ∈ U -> is_u32 u /\ u <> 0)
  /\ (forall n l, ev_search env n = inr l -> forall u, u ∈ l <-> u ∈ U)
  /\ (forall n chunk metas, ev_fetch env n chunk 0 true = inr metas ->
        forall u, u ∈ U -> Set_Contains chunk u = true -> exists m, m ∈ metas /\ fm_UID m = u).

(** A successful store call ran on the database others left. *)
Lemma store_call_ok {A} (m : Z -> sql A) w x w' :
  store_call env m w = (inr x, w') ->
  exists db, grows mb (w_db w) db /\ m (ev_now env (w_calls w)) db = (inr x, w_db w').
Proof.
  unfold store_call. intros H. exists (ev_others env (w_calls w) (w_db w)). split; [apply Hquiet|].
  destruct (ev_fault env (w_calls w)); [|done|done].
  destruct (m _ _) as [r db']. injection H as -> <-. done.
Qed.

Lemma bind_ok {A B} (m : M A) (f : A -> M B) w y w' :
  (m ≫= f) w = (inr y, w') -> exists x w1, m w = (inr x, w1) /\ f x w1 = (inr y, w').
Proof. unfold mbind, M_bind. destruct (m w) as [[e|x] w1]; [done|]. eauto. Qed.

Lemma collect_ok a known cs metas : forall batch w batch' w',
  collect_batch env a mb known cs metas batch w = (inr batch', w') ->
  (forall m, m ∈ batch -> mt_MailboxID m = mb) ->
  (forall m, m ∈ batch' -> mt_MailboxID m = mb)
  /\ (forall m, m ∈ batch -> m ∈ batch')
  /\ (forall m, m ∈ metas -> fm_UID m ∈ known \/ exists x, x ∈ batch' /\ mt_UpstreamUID x = fm_UID m).
Proof.
  induction metas as [|m metas IH]; intros batch w batch' w'.
  { intros [= <- <-] Hb. split_and!; [done|done|by intros ? ?%elem_of_nil]. }
  cbn [collect_batch]. intros ([] & w1 & _ & H)%bind_ok Hb.
  destruct (bool_decide (fm_UID m ∈ known)) eqn:Ek.
  - apply bind_ok in H as ([] & w2 & _ & H). apply IH in H as (H1 & H2 & H3); [|done].
    split_and!; [done|done|]. intros m' [->|Hm]%elem_of_cons; [|auto]. left. by apply bool_decide_eq_true in Ek.
  - apply IH in H as (H1 & H2 & H3).
    + split_and!; [done|intros x Hx; apply H2, elem_of_app; by left|].
      intros m' [->|Hm]%elem_of_cons; [|auto]. right. exists (buildMeta a mb m). split; [|done].
      apply H2, elem_of_app. right. left.
    + intros x [Hx|Hx]%elem_of_app; [auto|]. by apply list_elem_of_singleton in Hx as ->.
Qed.

Lemma chunk_ok a r sel known cs total i chunk w w' U :
  honest U -> table_wf (mailbox_messages (w_db w)) ->
  sync_chunk env a (mb, r) sel known cs total i chunk w = (inr tt, w') ->
  forall u, u ∈ U -> Set_Contains chunk u = true -> u ∈ known \/ has_row mb u (w_db w').
Proof.
  intros (_ & _ & Hf) Hwf H u Hu Hc. unfold sync_chunk in H.
  apply bind_ok in H as ([] & w1 & E1 & H). apply bind_ok in H as ([] & w2 & E2 & H).
  apply bind_ok in H as (metas & w3 & E3 & H). apply bind_ok in H as (batch & w4 & E4 & H).
  apply bind_ok in H as (created & w5 & E5 & H). apply bind_ok in H as ([] & w6 & E6 & H).
  apply bind_ok in H as ([] & w7 & E7 & H).
  assert (w_db w1 = w_db w) as D1.
  { unfold ctx_Err in E1. destruct (ev_ctx _ _); [done|]. by injection E1 as <-. }
  assert (w_db w2 = w_db w) as D2 by (injection E2 as <-; done).
  unfold FetchMetadata, command in E3. injection E3 as Em D3. apply (f_equal w_db) in D3. cbn in D3.
  destruct (Hf _ _ _ Em u Hu Hc) as (m & Hm & Hmu).
  cbn [fst] in E4. pose proof (growing_collect a known cs metas [] w3) as G4. rewrite E4 in G4. cbn [snd] in G4.
  destruct (collect_ok a known cs metas [] w3 batch w4 E4) as (B1 & _ & B3); [by intros ? ?%elem_of_nil|].
  destruct (B3 m Hm) as [Hk|(x & Hx & Hxu)]; [left; by rewrite <- Hmu|]. right.
  assert (table_wf (mailbox_messages (w_db w4))) as W4.
  { apply G4. rewrite <- D3. by rewrite D2. }
  unfold wrapping in E5. destruct (store_call _ _ w4) as [[e|c] w5'] eqn:E5'; [done|]. injection E5 as -> ->.
  apply store_call_ok in E5' as (db & Gd & E5). destruct (Gd W4) as [Wd _ _].
  pose proof (UpsertMetadataBatch_rows mb batch created db (w_db w5) Wd E5 B1 x Hx) as Hrow.
  rewrite Hxu, Hmu in Hrow.
  pose proof (growing_save_mid sel w7) as G. cbn [fst] in H. rewrite H in G. cbn [snd] in G.
  assert (w_db w7 = w_db w5) as D7 by (injection E6 as <-; injection E7 as <-; done). rewrite D7 in G.
  apply G; [|done]. pose proof (UpsertMetadataBatch_grows mb batch db Wd) as [W5 _ _]. unfold exec in W5.
  by rewrite E5 in W5.
Qed.

Lemma chunks_ok a r sel known cs total chunks U : honest U -> forall i w w',
  table_wf (mailbox_messages (w_db w)) ->
  sync_chunks env a (mb, r) sel known cs total i chunks w = (inr tt, w') ->
  forall u, u ∈ U -> Exists (fun c => Set_Contains c u = true) chunks -> u ∈ known \/ has_row mb u (w_db w').
Proof.
  intros HU. induction chunks as [|c chunks IH]; intros i w w' Hwf H u Hu Hex; [by apply Exists_nil in Hex|].
  cbn [sync_chunks] in H. apply bind_ok in H as ([] & w1 & E1 & H).
  pose proof (growing_chunk a r sel known cs total i c w Hwf) as [W1 _ _]. rewrite E1 in W1. cbn [snd] in W1.
  apply Exists_cons in Hex as [Hc|Hex]; [|by eapply IH].
  destruct (chunk_ok a r sel known cs total i c w w1 U HU Hwf E1 u Hu Hc) as [?|Hrow]; [by left|]. right.
  pose proof (growing_chunks a r sel known cs total chunks (i + 1) w1 W1) as [_ G _].
  rewrite H in G. cbn [snd] in G. by apply G.
Qed.

Lemma known_rows db : forall u, u ∈ (list_to_set (omap (fun kr => mm_upstream_uid kr.2)
    (select (live_in mb) (mailbox_messages db))) : gset Z) -> has_row mb u db.
Proof.
  intros u Hu%elem_of_list_to_set. apply list_elem_of_omap in Hu as ([id r] & Hr & Hu).
  apply elem_of_select in Hr as [Hr Hl]. unfold live_in in Hl. bool_to_prop. exists id, r. done.
Qed.

Lemma enumerate_ok a r sel w w' U :
  honest U -> table_wf (mailbox_messages (w_db w)) ->
  enumerate env a (mb, r) sel w = (inr tt, w') -> forall u, u ∈ U -> has_row mb u (w_db w').
Proof.
  intros HU Hwf H u Hu. pose proof HU as (Hu32 & Hs & _). unfold enumerate in H.
  apply bind_ok in H as ([] & w1 & E1 & H). apply bind_ok in H as (uids & w2 & E2 & H).
  apply bind_ok in H as (known & w3 & E3 & H). apply bind_ok in H as ([] & w4 & E4 & H).
  assert (w_db w1 = w_db w) as D1 by (injection E1 as <-; done).
  unfold SearchAllUIDs, command in E2. injection E2 as El D2. apply (f_equal w_db) in D2. cbn in D2.
  assert (w_db w4 = w_db w3) as D4 by (injection E4 as <-; done).
  apply store_call_ok in E3 as (db & Gd & E3). unfold ExistingUpstreamUIDs, gets in E3. injection E3 as Ek D3.
  destruct (Gd ltac:(by rewrite <- D2, D1)) as [W3 _ _].
  rewrite D3 in W3, Ek. rewrite <- D4 in W3, Ek.
  cbn [fst] in H. set (pending := pending_uids known (uses_condstore env sel) uids) in *.
  pose proof (growing_chunks a r sel known (uses_condstore env sel) (Z.of_nat (length pending))
    (PlanMetadataChunks pending (ev_batch env)) 0 w4 W3) as [_ G _]. rewrite H in G. cbn [snd] in G.
  destruct (decide (u ∈ known)) as [Hk|Hk]; [apply G, known_rows; by rewrite Ek|].
  assert (Forall is_u32 pending) as Hp.
  { apply Forall_forall. intros x [_ Hx]%list_elem_of_filter. apply (Hs _ _ El) in Hx. by apply Hu32. }
  destruct (PlanMetadataChunks_parts pending (ev_batch env) Hp) as (_ & _ & _ & _ & _ & Hex).
  destruct (Hu32 u Hu) as [H32 H0].
  destruct (chunks_ok a r sel known _ _ _ U HU 0 w4 w' W3 H u Hu) as [?|?]; [|done|done].
  apply Hex; [done|done|]. apply list_elem_of_filter. split; [by intros []|]. by apply (Hs _ _ El).
Qed.

(** Reconciling removes only what the server no longer has. *)
Definition kept (U : gset Z) (db db' : DB) : Prop :=
  table_wf (mailbox_messages db) ->
  table_wf (mailbox_messages db') /\ ckpt mb db' = ckpt mb db
  /\ forall u, u ∈ U -> has_row mb u db -> has_row mb u db'.

Lemma grows_kept U db db' : grows mb db db' -> kept U db db'.
Proof. intros G Hwf. destruct (G Hwf) as [? ? ?]. split_and!; auto. Qed.

Lemma kept_trans U db1 db2 db3 : kept U db1 db2 -> kept U db2 db3 -> kept U db1 db3.
Proof.
  intros H1 H2 Hwf. destruct (H1 Hwf) as (W1 & C1 & R1), (H2 W1) as (W2 & C2 & R2).
  split_and!; [done|congruence|auto].
Qed.

Lemma DeleteMissingUIDs_kept U uids db : (forall u, u ∈ uids <-> u ∈ U) ->
  kept U db (exec (DeleteMissingUIDs mb (Some uids)) db).
Proof.
  intros Hu Hwf. split_and!; [by apply table_wf_delete|done|].
  intros u HU (id & r & Hr & Hm & Hup). exists id, r. unfold exec, DeleteMissingUIDs. cbn [snd]. db_simpl.
  split; [|done]. apply Schema.lookup_delete_Some. split; [done|]. unfold missing, not_any. rewrite Hup.
  rewrite bool_decide_eq_true_2 by by apply Hu. apply andb_false_r.
Qed.

Lemma store_call_kept {A} U (m : Z -> sql A) w :
  (forall now db, kept U db (exec (m now) db)) -> kept U (w_db w) (w_db (store_call env m w).2).
Proof.
  intros Hm. unfold store_call. set (db := ev_others env (w_calls w) (w_db w)).
  assert (kept U (w_db w) db) as Ho by by apply grows_kept, Hquiet.
  specialize (Hm (ev_now env (w_calls w)) db). unfold exec in Hm.
  destruct (ev_fault env (w_calls w)); cbn; [|done|].
  - destruct (m _ db) as [x db']. cbn in *. by eapply kept_trans.
  - by eapply kept_trans.
Qed.

Lemma reconcile_kept U sel w : honest U ->
  kept U (w_db w) (w_db (logged (reconcileDeletions env mb sel) w).2).
Proof.
  intros (_ & Hs & _). unfold logged, reconcileDeletions, mbind, M_bind.
  pose proof (store_call_kept U (fun _ => CountMailboxMessages mb) w) as H1.
  destruct (store_call env (fun _ => CountMailboxMessages mb) w) as [[e|n] w1]; cbn [fst snd] in *;
    (specialize (H1 ltac:(intros ? ? ?; split_and!; auto))); [exact H1|].
  destruct (n =? sm_NumMessages sel); [exact H1|].
  unfold SearchAllUIDs, command. destruct (ev_search env (w_cmds w1)) as [e|uids] eqn:El; [exact H1|].
  set (w2 := mk_World _ _ _ _ _ _).
  pose proof (store_call_kept U (fun _ => DeleteMissingUIDs mb (Some uids)) w2
    (fun _ db => DeleteMissingUIDs_kept U uids db (Hs _ _ El))) as H2.
  destruct (store_call env (fun _ => DeleteMissingUIDs mb (Some uids)) w2) as [[e|k] w3]; cbn [snd] in *;
    (eapply kept_trans; [exact H1|exact H2]).
Qed.

Lemma save_full_rows sel w :
  table_wf (mailbox_messages (w_db w)) ->
  let w' := (save_checkpoint env mb sel true w).2 in
  table_wf (mailbox_messages (w_db w')) /\ forall u, has_row mb u (w_db w) -> has_row mb u (w_db w').
Proof.
  intros Hwf. unfold save_checkpoint, mbind, M_bind, read, store_call. cbv zeta.
  destruct (Hquiet (w_calls w) (w_db w) Hwf) as [Wd Gd _].
  destruct (ev_fault env (w_calls w)); cbn; split; done.
Qed.

Lemma metadataPass_safe U a r sel w :
  honest U -> table_wf (mailbox_messages (w_db w)) ->
  let w' := (metadataPass env a (mb, r) sel w).2 in
  (ckpt mb (w_db w') = ckpt mb (w_db w) \/ forall u, u ∈ U -> has_row mb u (w_db w'))
  /\ forall u, u ∈ U -> has_row mb u (w_db w) -> has_row mb u (w_db w').
Proof.
  intros HU Hwf. unfold metadataPass, mbind, M_bind, local. cbn [fst snd].
  pose proof (growing_check r sel (set_new 0 w) Hwf) as [W1 G1 C1].
  destruct (check_unchanged env (mb, r) sel (set_new 0 w)) as [[e|[]] w1]; cbn [snd w_db set_new] in *;
    [split; [by left|auto]..|].
  pose proof (growing_changed r sel w1 W1) as [W2 G2 C2].
  destruct (changed_flags env (mb, r) sel w1) as [[e|[]] w2]; cbn [snd] in *; [split; [left; congruence|auto]|].
  pose proof (growing_enumerate a r sel w2 W2) as [W3 G3 C3].
  destruct (enumerate env a (mb, r) sel w2) as [[e|[]] w3] eqn:E3; cbn [snd] in *; [split; [left; congruence|auto]|].
  pose proof (enumerate_ok a r sel w2 w3 U HU W2 E3) as R3.
  destruct (reconcile_kept U sel w3 HU W3) as (W4 & C4 & K4).
  unfold logged in *. cbn [fst snd] in *. set (w4 := (reconcileDeletions env mb sel w3).2) in *.
  destruct (save_full_rows sel w4 W4) as [_ K5].
  assert (forall u, u ∈ U -> has_row mb u (w_db (save_checkpoint env mb sel true w4).2)) as Hall.
  { intros u Hu. apply K5, K4; [done|]. by apply R3. }
  split; [right; exact Hall|]. intros u Hu _. by apply Hall.
Qed.
End pass.

(** * A small server *)

Definition ex_fetched (uid : Z) : FetchedMeta := mk_FetchedMeta uid [] 100 None None 9.
Definition ex_env (fault : nat -> store_fault) (uids : list Z) : Env :=
  mk_Env fault (fun _ db => db) (fun _ => 5) (fun _ => None) true 2
    (fun _ chunk _ _ => inr (map ex_fetched (filter (fun u => Set_Contains chunk u = true) uids)))
    (fun _ => inr uids).
Definition ex_selected (n modseq : Z) : SelectedMailbox := mk_SelectedMailbox "INBOX" n 1 21 modseq true.
Definition ex_mb : mailbox_row := new_mailbox (mk_UpsertMailboxParams 1 "INBOX" "inbox" (Some "/"%string) [] None).
Definition ex_world : World := mk_World ex_db (newProgress 1) 0 0 0 0.

Lemma ex_honest fault uids : Forall (fun u => is_u32 u /\ u <> 0) uids -> honest (ex_env fault uids) (list_to_set uids).
Proof.
  intros Hu. split; [|split].
  - intros u Hin%elem_of_list_to_set. rewrite Forall_forall in Hu. by apply Hu.
  - intros n l [= <-] u. by rewrite elem_of_list_to_set.
  - intros n chunk metas [= <-] u Hin%elem_of_list_to_set Hc. exists (ex_fetched u). split; [|done].
    apply list_elem_of_fmap_2. by apply list_elem_of_filter.
Qed.
Lemma ex_quiet fault uids mb : quiet (ex_env fault uids) mb.
Proof. by intros n db. Qed.
Lemma ex_uids_ok l : forallb (fun u => (0 <? u) && (u <? 4294967296)) l = true -> Forall (fun u => is_u32 u /\ u <> 0) l.
Proof.
  intros H. apply Forall_forall. intros u Hu%list_elem_of_In. eapply forallb_forall in H; [|exact Hu].
  unfold is_u32. zlia.
Qed.
Lemma ex_has_row uid id : rows (mailbox_messages ex_db) !! id = Some (new_mm (ex_meta uid) id id) -> has_row 1 uid ex_db.
Proof. intros H. eexists id, _. split; [exact H|]. done. Qed.

(** The third store call fails after its effect. *)
Definition ex_fault (n : nat) : store_fault := if (n =? 2)%nat then FailAfter ErrEOF else NoFault.

(** * Without failures the mirror is exact *)

(** Nothing fails, nobody interferes, nobody cancels. *)
Definition calm (env : Env) : Prop :=
  (forall n, ev_fault env n = NoFault) /\ (forall n db, ev_others env n db = db) /\ (forall n, ev_ctx env n = None).

(** The server always answers, and only with its own messages. *)
Definition serves (env : Env) (U : gset Z) : Prop :=
  (forall n, exists l, ev_search env n = inr l)
  /\ (forall n chunk cs full, exists metas, ev_fetch env n chunk cs full = inr metas
        /\ forall m, m ∈ metas -> fm_UID m ∈ U /\ 0 <= fm_Size m).

Section exact.
Context (env : Env) (a mb : Z) (U : gset Z).
Context (Hcalm : calm env) (Hserves : serves env U) (Hhonest : honest env U).

Record ready (db : DB) : Prop := mk_ready {
  rd_wf : db_wf db;
  rd_account : is_Some (rows (mail_accounts db) !! a);
  rd_mailbox : is_Some (rows (mailboxes db) !! mb);
  rd_live : forall id r, rows (mailbox_messages db) !! id = Some r -> mm_expunged_at r = None
}.

(** A query that succeeds on a ready database and leaves one. *)
Definition sql_ready {A} (m : sql A) : Prop := forall db, ready db -> exists x db', m db = (inr x, db') /\ ready db'.

Lemma ready_update_mm p f db :
  (forall r, mm_expunged_at (f r) = mm_expunged_at r) -> db_wf (update_mm p f db) -> ready db -> ready (update_mm p f db).
Proof.
  intros Hf Hwf [_ ? ? Hl]. constructor; [done..|]. intros id r. db_simpl.
  rewrite lookup_update_Some. intros (r0 & Hr0 & ->). destruct (p id r0); [rewrite Hf|]; by eapply Hl.
Qed.

Lemma UpdateFlags_ready uid flags modseq : sql_ready (UpdateFlags mb uid flags modseq).
Proof.
  intros db Hr. eexists _, _. split; [reflexivity|]. apply ready_update_mm; [done| |done].
  apply (UpdateFlags_wf mb uid flags modseq db), Hr.
Qed.

Lemma gets_ready {A} (f : DB -> A) : sql_ready (gets f).
Proof. intros db Hr. by eexists _, db. Qed.

Lemma upsertMetadataTx_ready m :
  mt_AccountID m = a -> mt_MailboxID m = mb -> 0 <= mt_Size m -> sql_ready (upsertMetadataTx m).
Proof.
  intros Ha Hm Hs db Hr. pose proof (upsertMetadataTx_wf m db (rd_wf _ Hr)) as Hwf'.
  destruct Hr as [Hwf [acc Hacc] [mbr Hmb] Hl]. unfold exec, upsertMetadataTx, mbind, sql_bind, wrap_err in *.
  assert (exists mid db1, upsert_message m db = (inr mid, db1) /\ mailboxes db1 = mailboxes db
    /\ mailbox_messages db1 = mailbox_messages db /\ mail_accounts db1 = mail_accounts db) as (mid & db1 & E1 & D1 & D2 & D3).
  { unfold upsert_message. destruct (Z.ltb_spec (mt_Size m) 0); [lia|]. rewrite Ha, Hacc.
    destruct (find_row _ _) as [[id r]|]; [eauto 6|]. destruct (insert_row _ _). eauto 6. }
  rewrite E1 in *.
  assert (exists id cr db2, upsert_mailbox_message m mid db1 = (inr (id, cr), db2) /\ mail_accounts db2 = mail_accounts db1
    /\ is_Some (rows (mailboxes db2) !! mb)
    /\ (forall id r, rows (mailbox_messages db2) !! id = Some r -> mm_expunged_at r = None)) as (id & cr & db2 & E2 & D4 & D5 & D6).
  { unfold upsert_mailbox_message. rewrite Hm, D1, Hmb. cbv zeta.
    destruct (find_row _ _) as [[id r]|]; [|destruct (insert_row _ _) as [id t] eqn:Et];
      (eexists _, _, _; split; [reflexivity|]; split; [done|]; split;
       [db_simpl; rewrite lookup_update_where, D1, Hmb; by eexists|]); db_simpl.
    - intros id' r'. rewrite lookup_update_Some, D2. intros (r0 & Hr0 & ->). apply Hl in Hr0. by destruct (id_is _ _ _).
    - apply (f_equal snd) in Et. cbn [snd] in Et. subst t. intros id' r'. rewrite lookup_insert_row.
      destruct (decide _); [by intros [= <-]|]. db_simpl. rewrite D2. apply Hl. }
  rewrite E2 in *. eexists _, _. split; [reflexivity|]. constructor; [done|by rewrite D4, D3, Hacc|done|done].
Qed.

Lemma upsert_all_ready metas : (forall m, m ∈ metas -> mt_AccountID m = a /\ mt_MailboxID m = mb /\ 0 <= mt_Size m) ->
  forall n, sql_ready (upsert_all metas n).
Proof.
  induction metas as [|m metas IH]; intros Hm n db Hr; [by eexists _, db|]. cbn [upsert_all]. unfold mbind, sql_bind.
  destruct (Hm m ltac:(left)) as (H1 & H2 & H3).
  destruct (upsertMetadataTx_ready m H1 H2 H3 db Hr) as ([id cr] & db1 & -> & Hr1).
  apply IH; [|done]. intros x Hx. apply Hm. by right.
Qed.

Lemma UpsertMetadataBatch_ready metas : (forall m, m ∈ metas -> mt_AccountID m = a /\ mt_MailboxID m = mb /\ 0 <= mt_Size m) ->
  sql_ready (UpsertMetadataBatch metas).
Proof.
  intros Hm db Hr. destruct metas as [|m metas]; [by eexists _, db|]. unfold UpsertMetadataBatch, InTx.
  destruct (upsert_all_ready (m :: metas) Hm 0 db Hr) as (c & db' & -> & Hr'). eauto.
Qed.

Lemma SaveCheckpoint_ready now c : sql_ready (SaveCheckpoint now mb c).
Proof.
  intros db Hr. eexists _, _. split; [reflexivity|]. pose proof (SaveCheckpoint_wf now mb c db (rd_wf _ Hr)) as Hwf.
  destruct Hr as [_ ? [x Hx] ?]. constructor; try done. db_simpl. rewrite lookup_update_where, Hx. by eexists.
Qed.

Lemma DeleteMissingUIDs_ready uids : sql_ready (DeleteMissingUIDs mb uids).
Proof.
  intros db Hr. eexists _, _. split; [reflexivity|]. pose proof (DeleteMissingUIDs_wf mb uids db (rd_wf _ Hr)) as Hwf.
  destruct Hr as [_ ? ? Hl]. constructor; try done. intros id r. db_simpl. intros [Hid _]%Schema.lookup_delete_Some.
  by eapply Hl.
Qed.

(** A step of the pass that succeeds on a ready world and leaves one. *)
Definition goes {A} (m : M A) (Q : A -> Prop) : Prop :=
  forall w, ready (w_db w) -> exists x w', m w = (inr x, w') /\ ready (w_db w') /\ Q x.

Lemma goes_ret {A} (x : A) (Q : A -> Prop) : Q x -> goes (mret x) Q.
Proof. intros H w Hr. by exists x, w. Qed.
Lemma goes_local f : (forall w, w_db (f w) = w_db w) -> goes (local f) (fun _ => True).
Proof. intros Hf w Hr. exists tt, (f w). split; [done|]. by rewrite Hf. Qed.
Lemma goes_ctx : goes (ctx_Err env) (fun _ => True).
Proof. intros w Hr. exists tt, w. unfold ctx_Err. destruct Hcalm as (_ & _ & Hc). by rewrite Hc. Qed.
Lemma goes_bind {A B} (m : M A) (f : A -> M B) (P : A -> Prop) (Q : B -> Prop) :
  goes m P -> (forall x, P x -> goes (f x) Q) -> goes (m ≫= f) Q.
Proof.
  intros Hm Hf w Hr. destruct (Hm w Hr) as (x & w1 & E & Hr1 & Hx). unfold mbind, M_bind. rewrite E. by apply Hf.
Qed.
Lemma goes_store {A} (m : Z -> sql A) : (forall now, sql_ready (m now)) -> goes (store_call env m) (fun _ => True).
Proof.
  intros Hm w Hr. unfold store_call. destruct Hcalm as (Hf & Ho & _). rewrite Hf, Ho.
  destruct (Hm (ev_now env (w_calls w)) (w_db w) Hr) as (x & db & -> & Hr'). by eexists _, _.
Qed.
Lemma goes_fetch chunk cs full :
  goes (FetchMetadata env chunk cs full) (fun metas => forall m, m ∈ metas -> fm_UID m ∈ U /\ 0 <= fm_Size m).
Proof.
  intros w Hr. unfold FetchMetadata, command. destruct (proj2 Hserves (w_cmds w) chunk cs full) as (metas & -> & Hm).
  by eexists _, _.
Qed.
Lemma goes_search : goes (SearchAllUIDs env) (fun l => forall u, u ∈ l <-> u ∈ U).
Proof.
  intros w Hr. unfold SearchAllUIDs, command. destruct (proj1 Hserves (w_cmds w)) as (l & E).
  rewrite E. eexists _, _. split; [reflexivity|]. split; [done|]. by apply (proj1 (proj2 Hhonest) _ _ E).
Qed.
Lemma goes_weaken {A} (m : M A) (P Q : A -> Prop) : goes m P -> (forall x, P x -> Q x) -> goes m Q.
Proof. intros Hm HPQ w Hr. destruct (Hm w Hr) as (x & w' & E & Hr' & Hx). eauto 6. Qed.
Lemma goes_each {A} (f : A -> M unit) l : (forall x, goes (f x) (fun _ => True)) -> goes (each f l) (fun _ => True).
Proof.
  intros Hf. induction l as [|x l IH]; [by apply goes_ret|]. cbn [each]. eapply goes_bind; [apply Hf|]. intros. apply IH.
Qed.

Lemma goes_flags m : goes (update_flags env mb m) (fun _ => True).
Proof. apply goes_store. intros now. apply UpdateFlags_ready. Qed.

Lemma goes_collect known cs metas : (forall m, m ∈ metas -> fm_UID m ∈ U /\ 0 <= fm_Size m) -> forall batch,
  (forall m, m ∈ batch -> mt_AccountID m = a /\ mt_MailboxID m = mb /\ 0 <= mt_Size m) ->
  goes (collect_batch env a mb known cs metas batch)
    (fun batch => forall m, m ∈ batch -> mt_AccountID m = a /\ mt_MailboxID m = mb /\ 0 <= mt_Size m).
Proof.
  induction metas as [|m metas IH]; intros Hm batch Hb; [by apply goes_ret|]. cbn [collect_batch].
  eapply goes_bind; [apply goes_local; intros w; by destruct (_ <? _)|]. intros _ _.
  destruct (bool_decide _).
  - eapply goes_bind; [|intros _ _; apply IH; [intros x Hx; apply Hm; by right|done]].
    destruct (negb cs); [apply goes_flags|by apply goes_ret].
  - apply IH; [intros x Hx; apply Hm; by right|].
    intros x [Hx|Hx]%elem_of_app; [auto|]. apply list_elem_of_singleton in Hx as ->.
    destruct (Hm m ltac:(left)). done.
Qed.

Lemma goes_save sel full : goes (save_checkpoint env mb sel full) (fun _ => True).
Proof.
  apply (goes_bind _ _ (fun _ => True)); [intros w Hr; by exists (w_highest w), w|]. intros h _. apply goes_store. intros now. apply SaveCheckpoint_ready.
Qed.

Lemma goes_chunk r sel known cs total i chunk : goes (sync_chunk env a (mb, r) sel known cs total i chunk) (fun _ => True).
Proof.
  unfold sync_chunk. eapply goes_bind; [apply goes_ctx|]. intros _ _.
  eapply goes_bind; [by apply goes_local|]. intros _ _. eapply goes_bind; [apply goes_fetch|]. intros metas Hm.
  eapply goes_bind; [apply goes_collect; [done|by intros ? ?%elem_of_nil]|]. intros batch Hb.
  apply (goes_bind _ _ (fun _ => True)).
  { intros w Hr. destruct (goes_store (fun _ => UpsertMetadataBatch batch)
      ltac:(intros ?; by apply UpsertMetadataBatch_ready) w Hr) as (x & w' & E & Hr' & _).
    exists x, w'. unfold wrapping. by rewrite E. }
  intros c _. eapply goes_bind; [by apply goes_local|]. intros _ _. eapply goes_bind; [by apply goes_local|]. intros _ _.
  apply goes_save.
Qed.

Lemma goes_chunks r sel known cs total chunks : forall i,
  goes (sync_chunks env a (mb, r) sel known cs total i chunks) (fun _ => True).
Proof.
  induction chunks as [|c chunks IH]; intros i; [by apply goes_ret|]. cbn [sync_chunks].
  eapply goes_bind; [apply goes_chunk|]. intros. apply IH.
Qed.

Lemma goes_enumerate r sel : goes (enumerate env a (mb, r) sel) (fun _ => True).
Proof.
  unfold enumerate. eapply goes_bind; [by apply goes_local|]. intros _ _. eapply goes_bind; [apply goes_search|]. intros l _.
  eapply goes_bind; [apply goes_store; intros _; apply gets_ready|]. intros known _.
  eapply goes_bind; [by apply goes_local|]. intros _ _. apply goes_chunks.
Qed.

Lemma goes_changed r sel : goes (changed_flags env (mb, r) sel) (fun _ => True).
Proof.
  unfold changed_flags. destruct (_ && _); [|by apply goes_ret].
  eapply goes_bind; [by apply goes_local|]. intros _ _. eapply goes_bind; [apply goes_fetch|]. intros l _.
  apply goes_each. intros m. apply goes_flags.
Qed.

Lemma calm_quiet : quiet env mb.
Proof. intros n db. destruct Hcalm as (_ & Ho & _). by rewrite Ho. Qed.

(** As many live rows as messages on the server, each of which has one: no others. *)
Lemma count_exact db :
  ready db -> count_where (live_in mb) (mailbox_messages db) = Z.of_nat (size U) ->
  (forall u, u ∈ U -> has_row mb u db) -> forall u, has_row mb u db -> u ∈ U.
Proof.
  intros Hr Hc HU u Hu. destruct (decide (u ∈ U)) as [|Hn]; [done|]. exfalso.
  set (uids := omap (fun kr : Z * mm_row => mm_upstream_uid kr.2) (select (live_in mb) (mailbox_messages db))).
  assert (forall v, has_row mb v db -> v ∈ uids) as Hin.
  { intros v (id & r & Hid & Hm & Hv). apply list_elem_of_omap. exists (id, r). split; [|done].
    apply elem_of_select. split; [done|]. unfold live_in. rewrite Hm, Z.eqb_refl.
    by rewrite bool_decide_eq_true_2 by by eapply rd_live. }
  assert (elements ({[u]} ∪ U) ⊆+ uids) as Hsub.
  { apply NoDup_submseteq; [apply NoDup_elements|]. intros v Hv%elem_of_elements. apply Hin. set_solver. }
  apply submseteq_length in Hsub. change (length (elements ({[u]} ∪ U))) with (size ({[u]} ∪ U)) in Hsub.
  rewrite size_union, size_singleton in Hsub by set_solver.
  assert (forall l : list (Z * mm_row), length (omap (fun kr => mm_upstream_uid kr.2) l) <= length l)%nat as Hom.
  { induction l as [|x l IH]; [done|]. cbn. destruct (mm_upstream_uid x.2); cbn; lia. }
  specialize (Hom (select (live_in mb) (mailbox_messages db))). unfold count_where in Hc. unfold uids in Hsub. lia.
Qed.

Lemma store_call_calm {A} (m : Z -> sql A) w :
  store_call env m w = ((m (ev_now env (w_calls w)) (w_db w)).1, with_db (exec (m (ev_now env (w_calls w))) (w_db w)) w).
Proof.
  unfold store_call, exec. destruct Hcalm as (Hf & Ho & _). rewrite Hf, Ho. by destruct (m _ (w_db w)).
Qed.

Lemma reconcile_exact sel w :
  sm_NumMessages sel = Z.of_nat (size U) -> ready (w_db w) -> (forall u, u ∈ U -> has_row mb u (w_db w)) ->
  exists w', logged (reconcileDeletions env mb sel) w = (inr tt, w') /\ ready (w_db w')
    /\ forall u, has_row mb u (w_db w') <-> u ∈ U.
Proof.
  intros Hn Hr HU. eexists. split; [reflexivity|]. unfold reconcileDeletions, mbind, M_bind.
  rewrite store_call_calm. cbn [CountMailboxMessages gets fst exec snd].
  destruct (Z.eqb_spec (count_where (live_in mb) (mailbox_messages (w_db w))) (sm_NumMessages sel)) as [E|E].
  - cbn. split; [done|]. intros u. split; [apply count_exact; [done|congruence|done]|apply HU].
  - set (w1 := with_db _ w). destruct (goes_search w1 Hr) as (uids & w2 & Es & Hr2 & Hu). rewrite Es.
    assert (w_db w2 = w_db w) as D2 by (unfold SearchAllUIDs, command in Es; by injection Es as _ <-).
    rewrite store_call_calm. cbn [DeleteMissingUIDs fst snd].
    destruct (DeleteMissingUIDs_ready (Some uids) (w_db w2) Hr2) as (n & db' & Ed & Hr').
    destruct (DeleteMissingUIDs_kept mb U uids (w_db w2) Hu (wf_seq_mms _ (rd_wf _ Hr2))) as (_ & _ & Hk).
    unfold exec in *. rewrite Ed in *. cbn [snd with_db w_db mret M_ret] in *. split; [done|]. intros u. split.
    + intros (id & r & Hid & Hm & Hup). unfold DeleteMissingUIDs in Ed. injection Ed as _ <-. db_simpl.
      cbn [mailbox_messages set_mailbox_messages] in Hid.
      apply Schema.lookup_delete_Some in Hid as [_ Hno]. unfold missing, not_any in Hno.
      rewrite Hm, Z.eqb_refl, Hup in Hno. cbn in Hno. apply negb_false_iff, bool_decide_eq_true in Hno. by apply Hu.
    + intros Hin. apply Hk; [done|]. rewrite D2. by apply HU.
Qed.

Lemma metadataPass_exact r sel w w1 :
  sm_NumMessages sel = Z.of_nat (size U) -> ready (w_db w) ->
  check_unchanged env (mb, r) sel (set_new 0 w) = (inr false, w1) ->
  exists w' r', metadataPass env a (mb, r) sel w = (inr tt, w')
    /\ (forall u, has_row mb u (w_db w') <-> u ∈ U)
    /\ rows (mailboxes (w_db w')) !! mb = Some r'
    /\ mb_uidnext r' = Some (sm_UIDNext sel) /\ i64 (sm_HighestModSeq sel) <= stored (mb_highestmodseq r').
Proof.
  intros Hn Hr Hck. unfold metadataPass, mbind, M_bind, local. cbn [fst snd]. rewrite Hck.
  assert (ready (w_db w1)) as Hr1.
  { unfold check_unchanged in Hck. destruct (looks_unchanged env _ sel); [|by injection Hck as <-].
    unfold mbind, M_bind in Hck. rewrite store_call_calm in Hck. by injection Hck as _ <-. }
  destruct (goes_changed r sel w1 Hr1) as ([] & w2 & -> & Hr2 & _).
  destruct (goes_enumerate r sel w2 Hr2) as ([] & w3 & E3 & Hr3 & _). rewrite E3.
  pose proof (enumerate_ok env mb calm_quiet a r sel w2 w3 U Hhonest (wf_seq_mms _ (rd_wf _ Hr2)) E3) as HU.
  destruct (reconcile_exact sel w3 Hn Hr3 HU) as (w4 & E4 & Hr4 & Hex). cbn [fst]. rewrite E4.
  unfold save_checkpoint, mbind, M_bind, read. rewrite store_call_calm. cbn [SaveCheckpoint modify fst].
  destruct (rd_mailbox _ Hr4) as [x Hx]. eexists _, _. split; [reflexivity|].
  unfold exec, SaveCheckpoint, modify. cbn [with_db w_db snd cp_FullScanCompleted]. split; [exact Hex|].
  split; [db_simpl; rewrite lookup_update_where, Hx; cbn; unfold id_is; rewrite Z.eqb_refl; reflexivity|].
  cbn. split; [done|]. lia.
Qed.
End exact.

Lemma ex_serves fault uids : serves (ex_env fault uids) (list_to_set uids).
Proof.
  split; [intros n; by eexists|]. intros n chunk cs full. eexists. split; [reflexivity|].
  intros m (u & -> & [_ Hu]%list_elem_of_filter)%list_elem_of_fmap. split; [by apply elem_of_list_to_set|done].
Qed.
Lemma ex_ready : ready 1 1 ex_db.
Proof.
  constructor; [apply ex_db_wf|eexists; vm_compute; reflexivity|eexists; vm_compute; reflexivity|].
  exact (bool_decide_eq_true_1 (map_Forall (fun _ r => mm_expunged_at r = None) (rows (mailbox_messages ex_db))) eq_refl).
Qed.
Lemma ex_calm uids : calm (ex_env (fun _ => NoFault) uids).
Proof. done. Qed.

(** A mailbox that looks unchanged costs no command and changes nothing: when the
    checkpoint equals what SELECT reports and at least as many messages are held as
    the server has.  In particular messages deleted upstream stay for as long as the
    server's HIGHESTMODSEQ and UIDNEXT do, also when an earlier pass recorded its
    checkpoint after its reconciliation had failed. *)
Theorem unchanged_mailbox_skipped (env : Env) (a : Z) (mailbox : Mailbox) (sel : SelectedMailbox) (w : World) :
  calm env -> looks_unchanged env mailbox.2 sel = true ->
  sm_NumMessages sel <= count_where (live_in mailbox.1) (mailbox_messages (w_db w)) ->
  exists w', metadataPass env a mailbox sel w = (inr tt, w')
    /\ w_db w' = w_db w /\ w_cmds w' = w_cmds w /\ w_new w' = 0.
Proof.
  intros Hc Hl Hn. unfold metadataPass, check_unchanged, mbind, M_bind, local. rewrite Hl.
  rewrite (store_call_calm env Hc). cbn [CountMailboxMessages gets fst exec snd w_db set_new].
  rewrite (proj2 (Z.leb_le _ _) Hn). eexists. split; [reflexivity|]. done.
Qed.
Lemma unchanged_mailbox_skipped_witness :
  exists w', metadataPass (ex_env (fun _ => NoFault) [11; 12]) 1 (1, save_full_scan 5 (mk_Checkpoint 1 21 9 13 true) ex_mb)
      (ex_selected 2 9) ex_world = (inr tt, w')
    /\ has_row 1 13 (w_db w') /\ w_cmds w' = 0%nat.
Proof.
  destruct (unchanged_mailbox_skipped (ex_env (fun _ => NoFault) [11; 12]) 1
    (1, save_full_scan 5 (mk_Checkpoint 1 21 9 13 true) ex_mb) (ex_selected 2 9) ex_world (ex_calm _) eq_refl) as (w' & E & Hd & Hc & _).
  { vm_compute. discriminate. }
  exists w'. split; [exact E|]. rewrite Hd. split; [|exact Hc]. apply (ex_has_row 13 3). vm_compute. reflexivity.
Defined.
