(* ===== verification/BodyPass.v ===== *)
(** Downloading bodies (internal/syncer/mailbox.go: fetchBatch, fetchBatchSession,
    bodyPass): what happens to each body that arrives, to a batch that fails, and
    the producer and workers that share the work. *)
From S2P Require Import Prelude NumSet Planner GoStrings Retry Schema StoreMailboxes StoreMessages Upstream Commands Blob Mailstore SyncMeta SyncPass.
From Stdlib Require Import String.
From stdpp Require Import strings gmap list.
Open Scope list_scope.
Open Scope Z_scope.

(** * The world of a worker *)

(** What the database, the object store and the connection do at each call, and
    what other workers and processes do to the database in between. *)
Record BodyEnv := mk_BodyEnv {
  be_fault : nat -> store_fault;
  be_others : nat -> DB -> DB;
  be_put : nat -> option err;           (* the object store refuses this Put *)
  be_read : nat -> option err;          (* reading the literal fails *)
  be_maxAttempts : Z;                   (* BodyMaxAttempts *)
  be_maxSize : Z                        (* MaxMessageSize *)
}.

Record BodyWorld (S : Type) := mk_BodyWorld {
  b_blobs : S;
  b_db : DB;
  b_claims : claimTable;
  b_progress : Progress;
  b_fetched : Z;
  b_bytes : Z;
  b_calls : nat
}.
Arguments mk_BodyWorld {S}.
Arguments b_blobs {S}.
Arguments b_db {S}.
Arguments b_claims {S}.
Arguments b_progress {S}.
Arguments b_fetched {S}.
Arguments b_bytes {S}.
Arguments b_calls {S}.

Section bodies.
Context {S : Type} `{BlobStore S}.
Variable env : BodyEnv.
Variable message_Read : bytes -> ReadResult.
Variable err_bytes : err -> bytes.

Notation BW := (BodyWorld S).

Definition set_stores (s : S) (db : DB) (w : BW) : BW :=
  mk_BodyWorld s db (b_claims w) (b_progress w) (b_fetched w) (b_bytes w) (Datatypes.S (b_calls w)).
Definition set_claims (t : claimTable) (w : BW) : BW :=
  mk_BodyWorld (b_blobs w) (b_db w) t (b_progress w) (b_fetched w) (b_bytes w) (b_calls w).

Definition body_call {A} (m : sql A) (w : BW) : (err + A) * BW :=
  let n := b_calls w in
  let db := be_others env n (b_db w) in
  match be_fault env n with
  | NoFault => let '(r, db) := m db in (r, set_stores (b_blobs w) db w)
  | FailBefore e => (inl e, set_stores (b_blobs w) db w)
  | FailAfter e => (inl e, set_stores (b_blobs w) (exec m db) w)
  end.

Definition put_call (t : string) (data : bytes) (w : BW) : (err + Info) * BW :=
  match be_put env (b_calls w) with
  | Some e => (inl e, set_stores (b_blobs w) (b_db w) w)
  | None => let '(r, s) := Put t data (b_blobs w) in (r, set_stores s (b_db w) w)
  end.

(** [Ingest]: its error is only logged. *)
Definition ingest_call (messageID : Z) (raw : bytes) (w : BW) : BW :=
  let n := b_calls w in
  let db := be_others env n (b_db w) in
  let '(_, s, db') := Ingest message_Read err_bytes messageID raw (b_blobs w) db in
  match be_fault env n with
  | FailBefore _ => set_stores s db w
  | _ => set_stores s db' w
  end.

(** * One body *)

Definition mark_failed (claim : PendingBody) (e : err) (w : BW) : option err * BW :=
  match body_call (MarkBodyFailed (pb_MailboxMessageID claim) e (be_maxAttempts env)) w with
  | (inl e, w) => (Some e, w)
  | (inr _, w) => (None, w)
  end.

Definition count_body (size : Z) (w : BW) : BW :=
  mk_BodyWorld (b_blobs w) (b_db w) (b_claims w) (addBody size (b_progress w))
    (i64 (b_fetched w + 1)) (i64 (b_bytes w + size)) (b_calls w).

(** The handler [fetchBatch] gives to [FetchBodies]. *)
Definition handle_body (mailboxID : Z) (uid size : Z) (body : bytes) (w : BW) : option err * BW :=
  match SyncMeta.take mailboxID uid (b_claims w) with
  | (None, _) => (None, w)
  | (Some claim, t) =>
      let w := set_claims t w in
      match be_read env (b_calls w) with
      | Some e => mark_failed claim e w
      | None =>
          match put_call TypeRFC822 body w with
          | (inl e, w) => mark_failed claim e w
          | (inr info, w) =>
              match body_call (AttachBody (pb_MailboxMessageID claim) (in_SHA256 info) (in_Size info) (in_Key info)) w with
              | (inl e, w) => (Some e, w)
              | (inr _, w) =>
                  match body_call (MessageIDForMailboxMessage (pb_MailboxMessageID claim)) w with
                  | (inl e, w) => (Some e, w)
                  | (inr messageID, w) => (None, count_body (in_Size info) (ingest_call messageID body w))
                  end
              end
          end
      end
  end.

(** * A batch *)

(** What the connection does with the batch's FETCH. *)
Record Response := mk_Response {
  rs_before : option err;
  rs_after : option err;
  rs_remaining : string;
  rs_messages : list (list fetch_item);
  rs_close : option err;
  rs_poisoned : bool
}.

Fixpoint mark_too_large (mailboxID : Z) (batch : list SizedUID) (w : BW) : option err * BW :=
  match batch with
  | [] => (None, w)
  | msg :: batch =>
      match SyncMeta.take mailboxID (UID msg) (b_claims w) with
      | (Some claim, t) =>
          match body_call (MarkBodyTooLarge (pb_MailboxMessageID claim)) (set_claims t w) with
          | (inl e, w) => (Some e, w)
          | (inr _, w) => mark_too_large mailboxID batch w
          end
      | (None, t) => mark_too_large mailboxID batch (set_claims t w)
      end
  end.

Fixpoint release_claims (mailboxID : Z) (e : err) (batch : list SizedUID) (w : BW) : BW :=
  match batch with
  | [] => w
  | msg :: batch =>
      match SyncMeta.take mailboxID (UID msg) (b_claims w) with
      | (Some claim, t) => release_claims mailboxID e batch (mark_failed claim e (set_claims t w)).2
      | (None, t) => release_claims mailboxID e batch (set_claims t w)
      end
  end.

Definition count_command (w : BW) : BW :=
  mk_BodyWorld (b_blobs w) (b_db w) (b_claims w) (addCommands 1 (b_progress w)) (b_fetched w) (b_bytes w) (b_calls w).

(** The error, whether the connection is poisoned, and the world. *)
Definition fetchBatch (mailboxID : Z) (batch : list SizedUID) (rs : Response) (w : BW) : option err * bool * BW :=
  let '(e, poisoned, w) := FetchBodies (be_maxSize env) (handle_body mailboxID) (rs_before rs) (rs_after rs)
    (rs_remaining rs) (rs_messages rs) (rs_close rs) (rs_poisoned rs) w in
  let w := count_command w in
  match e with
  | None => (None, poisoned, w)
  | Some e =>
      if err_is e ErrMessageTooLarge then
        let '(e, w) := mark_too_large mailboxID batch w in (e, poisoned, w)
      else (Some e, poisoned, release_claims mailboxID e batch w)
  end.

(** [fetchBatchSession]: the batch as a command of the worker's session. *)
Section batch_session.
Context {X C : Type} `{Connection (BW * X) C}.
Context (respond : C -> BW * X -> Response) (mark_poisoned : C -> bool -> X -> X).

Definition fetchBatchSession (rand : Z -> Z) (base max attempts : Z) (mailboxID : Z) (batch : list SizedUID)
    (s : Session C) (w : BW * X) : (err + unit) * Session C * (BW * X) :=
  Do rand base max "fetch bodies" (fun c w =>
    let '(e, poisoned, b) := fetchBatch mailboxID batch (respond c w) w.1 in
    (match e with Some e => inl e | None => inr tt end, (b, mark_poisoned c poisoned w.2)))
  attempts s w.
End batch_session.
End bodies.

(** * The body pass: one producer, several workers, an unbuffered channel *)

(** The producer claims work ([Claiming]) or offers planned batches in order
    ([Sending]); a worker opens its mailbox, then receives batches until one fails,
    then only drains; one that cannot open it returns at once.  [P_Done] closes the
    channel. *)
Inductive producer := Claiming | Sending (batches : list (list SizedUID)) | P_Done (e : option err).
Inductive worker := Opening | Failed_open (e : option err) | Receiving | Fetching (batch : list SizedUID)
  | Draining | W_Done (e : option err).
Definition pool : Type := producer * list worker.

Definition workers_for (ConnectionsPerAccount : Z) : Z :=
  let workers := ConnectionsPerAccount - 1 in if workers <? 1 then 1 else workers.

(** One step.  [cancelled] is the end of the run's context, the only thing that
    interrupts the producer. *)
Inductive pool_step (cancelled : option err) : pool -> pool -> Prop :=
| step_claim batches ws : batches <> [] -> pool_step cancelled (Claiming, ws) (Sending batches, ws)
| step_poll ws : pool_step cancelled (Claiming, ws) (Claiming, ws)
| step_finish e ws : pool_step cancelled (Claiming, ws) (P_Done e, ws)
| step_sent ws : pool_step cancelled (Sending [], ws) (Claiming, ws)
| step_cancel e p ws : cancelled = Some e -> (forall e', p <> P_Done e') -> pool_step cancelled (p, ws) (P_Done (Some e), ws)
| step_open ws1 ws2 p : pool_step cancelled (p, ws1 ++ Opening :: ws2) (p, ws1 ++ Receiving :: ws2)
| step_open_fails e ws1 ws2 p : pool_step cancelled (p, ws1 ++ Opening :: ws2) (p, ws1 ++ Failed_open e :: ws2)
| step_receive b bs ws1 ws2 :
    pool_step cancelled (Sending (b :: bs), ws1 ++ Receiving :: ws2) (Sending bs, ws1 ++ Fetching b :: ws2)
| step_drain b bs ws1 ws2 :
    pool_step cancelled (Sending (b :: bs), ws1 ++ Draining :: ws2) (Sending bs, ws1 ++ Draining :: ws2)
| step_fetched b p ws1 ws2 : pool_step cancelled (p, ws1 ++ Fetching b :: ws2) (p, ws1 ++ Receiving :: ws2)
| step_failed b p ws1 ws2 : pool_step cancelled (p, ws1 ++ Fetching b :: ws2) (p, ws1 ++ Draining :: ws2)
| step_closed x e' e ws1 ws2 : x = Receiving \/ x = Draining ->
    pool_step cancelled (P_Done e, ws1 ++ x :: ws2) (P_Done e, ws1 ++ W_Done e' :: ws2).

Definition pool_start (n : nat) : pool := (Claiming, replicate n Opening).
Definition worker_done (w : worker) : bool := match w with W_Done _ | Failed_open _ => true | _ => false end.
Definition pool_finished (c : pool) : Prop :=
  (exists e, c.1 = P_Done e) /\ forallb worker_done c.2 = true.

(** The error of the pass: the producer's, or the first worker's when all failed.
    [None] among the workers is a success or a refused connection. *)
Definition bodyPass_error (producer_err : option err) (workers : list (option err)) : option err :=
  match producer_err with
  | Some e => Some e
  | None =>
      let errs := omap (fun e => e) workers in
      match errs with
      | [] => None
      | first :: _ =>
          if (length errs =? length workers)%nat then
            Some (ErrWrap ("every body-fetch worker failed (" ++ Itoa (Z.of_nat (length errs)) ++ " of "
                    ++ Itoa (Z.of_nat (length workers)) ++ "): ") first "")
          else None
      end
  end.
