(* ===== verification/BodyPassProps.v ===== *)
(** Properties of downloading bodies: no message ever claims content the object
    store lacks, a delivered body ends up stored, a failed batch is released, and
    when the pass can stand still. *)
From S2P Require Import Prelude NumSet Planner GoStrings Retry Schema StoreMailboxes StoreMessages StoreInvariant StoreSteps StoreProps Upstream Commands Blob Mailstore SyncMeta SyncPass BodyPass.
From Stdlib Require Import String.
From stdpp Require Import strings gmap list.
Open Scope list_scope.
Open Scope Z_scope.

(** * Every recorded body exists *)

(** A message with a blob key has, under that key, content with its digest. *)
Definition blobs_sound {S} (sha256 : bytes -> list Z) `{BlobStore S} (s : S) (db : DB) : Prop :=
  forall id m key, rows (messages db) !! id = Some m -> m_blob_key m = Some key ->
  key = NewKey TypeRFC822 (m_rfc822_sha256 m)
  /\ exists data, content s key = Some data /\ sha256 data = m_rfc822_sha256 m.

Section sound.
Context {S : Type} (sha256 : bytes -> list Z) `{HB : BlobStore S} `{HL : !BlobStoreLaws sha256 S}.
Context (Hsha : forall d, length (sha256 d) = 32%nat /\ is_bytes (sha256 d)).
Notation sound := (blobs_sound sha256).

Lemma NewKey_inj t t' d d' : Type_Valid t = true -> Type_Valid t' = true -> is_bytes d -> is_bytes d' ->
  NewKey t d = NewKey t' d' -> t = t' /\ d = d'.
Proof.
  intros H1 H2 H3 H4 E. destruct (Key_parts t d H1 H3) as [E1 E2], (Key_parts t' d' H2 H4) as [E3 E4].
  rewrite E in E1, E2. split; [congruence|]. rewrite E2 in E4. by injection E4.
Qed.

Lemma Put_sound t data s db : sound s db -> sound (Put t data s).2 db.
Proof.
  intros Hs id m key Hm Hk. destruct (Hs id m key Hm Hk) as (-> & d & Hc & Hd).
  destruct (Type_Valid t) eqn:Ht; [|rewrite (put_refused sha256 t data s Ht); eauto].
  destruct (put_ok sha256 t data s Ht) as (s' & -> & Hnew & Hold). cbn [snd]. split; [done|].
  destruct (decide (NewKey TypeRFC822 (m_rfc822_sha256 m) = NewKey t (sha256 data))) as [E|Hne];
    [|rewrite Hold by done; eauto].
  exists data. rewrite E. split; [done|].
  assert (is_bytes (m_rfc822_sha256 m)) by (rewrite <- Hd; apply Hsha).
  destruct (NewKey_inj TypeRFC822 t (m_rfc822_sha256 m) (sha256 data) eq_refl Ht H (proj2 (Hsha data)) E) as [_ ->]. done.
Qed.

(** A change of the messages table that adds no other blob keys. *)
Lemma sound_messages s db db' :
  (forall id m' key, rows (messages db') !! id = Some m' -> m_blob_key m' = Some key ->
     (exists id0 m, rows (messages db) !! id0 = Some m /\ m_blob_key m = Some key
        /\ m_rfc822_sha256 m = m_rfc822_sha256 m')
     \/ (key = NewKey TypeRFC822 (m_rfc822_sha256 m')
         /\ exists data, content s key = Some data /\ sha256 data = m_rfc822_sha256 m')) ->
  sound s db -> sound s db'.
Proof.
  intros H Hs id m' key Hm Hk. destruct (H id m' key Hm Hk) as [(id0 & m & H0 & H1 & H2)|H']; [|done].
  destruct (Hs id0 m key H0 H1) as (-> & Hd). by rewrite H2 in *.
Qed.

Lemma sound_same s db db' : messages db' = messages db -> sound s db -> sound s db'.
Proof. intros E Hs id m key. rewrite E. apply Hs. Qed.

Lemma AttachBody_messages id digest size key db mid m' :
  rows (messages (exec (AttachBody id digest size key) db)) !! mid = Some m' ->
  rows (messages db) !! mid = Some m' \/ (m_rfc822_sha256 m' = digest /\ m_blob_key m' = Some key).
Proof.
  unfold exec, AttachBody, InTx, mbind, sql_bind, wrap_err, map_err, gets, modify, load_for_attach.
  destruct (rows (mailbox_messages db) !! id) as [r|]; [|by left].
  destruct (rows (messages db) !! mm_message_id r) as [m|] eqn:Em; [|by left]. cbv beta iota.
  destruct (find_row _ _) as [[eid e]|].
  - cbn [snd]. db_simpl. rewrite Schema.lookup_delete_Some. intros [H _]. by left.
  - unfold record_body. rewrite Em. destruct (negb _); [by left|]. destruct (size <? 0); [by left|].
    cbn [snd]. db_simpl. rewrite lookup_update_Some. intros (m0 & Hm0 & ->).
    destruct (id_is _ _ _); [by right|by left].
Qed.

Lemma AttachBody_sound id data size s db :
  content s (NewKey TypeRFC822 (sha256 data)) = Some data ->
  sound s db -> sound s (exec (AttachBody id (sha256 data) size (NewKey TypeRFC822 (sha256 data))) db).
Proof.
  intros Hc. apply sound_messages. intros mid m' key Hm Hk.
  apply AttachBody_messages in Hm as [Hm|[E1 E2]]; [left; eauto|]. right.
  rewrite E2 in Hk. injection Hk as <-. rewrite E1. split; [done|]. eauto.
Qed.

Lemma exec_for_each_messages (f : MIMEPart -> sql unit) l db :
  (forall p db, messages (exec (f p) db) = messages db) -> messages (exec (for_each f l) db) = messages db.
Proof.
  intros Hf. revert db. induction l as [|p l IH]; intros db; [done|]. cbn [for_each]. unfold exec, mbind, sql_bind in *.
  specialize (Hf p db). destruct (f p db) as [[e|[]] db1]; [done|]. cbn [snd] in Hf. by rewrite IH.
Qed.

Lemma save_part_messages id p db : messages (exec (save_part id p) db) = messages db.
Proof.
  unfold exec, save_part, wrap_err. destruct (_ <? 0); [done|]. destruct (rows _ !! _); [|done].
  by destruct (find_row _ _) as [[pid r]|].
Qed.

Lemma SaveParsedContent_messages id c ps db :
  messages (exec (SaveParsedContent id c ps) db) = messages db
  \/ messages (exec (SaveParsedContent id c ps) db) = update_where (id_is id) (apply_parsed c) (messages db).
Proof.
  unfold exec, SaveParsedContent, InTx, mbind, sql_bind, modify. cbv beta iota.
  match goal with |- context [for_each (save_part id) ps ?d] =>
    pose proof (exec_for_each_messages (save_part id) ps d (save_part_messages id)) as E; unfold exec in E;
    destruct (for_each (save_part id) ps d) as [[e|[]] db2]; [by left|right; exact E] end.
Qed.

Lemma SaveParsedContent_sound id c ps s db : sound s db -> sound s (exec (SaveParsedContent id c ps) db).
Proof.
  apply sound_messages. intros mid m' key. destruct (SaveParsedContent_messages id c ps db) as [->| ->].
  - intros Hm Hk. left. eauto.
  - rewrite lookup_update_Some. intros (m & Hm & ->) Hk. left. exists mid, m. split; [done|].
    by destruct (id_is id mid m).
Qed.

(** ** What happens to the other messages *)

(** Every message but [mid] still has the body it had. *)
Definition keeps_bodies (mid : Z) (db db' : DB) : Prop :=
  forall eid e, eid <> mid -> rows (messages db) !! eid = Some e ->
  exists e', rows (messages db') !! eid = Some e'
    /\ m_rfc822_sha256 e' = m_rfc822_sha256 e /\ m_blob_key e' = m_blob_key e.

Lemma keeps_bodies_trans mid db1 db2 db3 : keeps_bodies mid db1 db2 -> keeps_bodies mid db2 db3 -> keeps_bodies mid db1 db3.
Proof.
  intros H1 H2 eid e Hne He. destruct (H1 eid e Hne He) as (e1 & He1 & Es & Ek).
  destruct (H2 eid e1 Hne He1) as (e2 & He2 & Es' & Ek'). exists e2. split_and!; congruence.
Qed.

Lemma AttachBody_keeps id digest size key db r : rows (mailbox_messages db) !! id = Some r ->
  keeps_bodies (mm_message_id r) db (exec (AttachBody id digest size key) db).
Proof.
  intros Hr eid e Hne He. exists e. split; [|done].
  unfold exec, AttachBody, InTx, mbind, sql_bind, wrap_err, map_err, gets, modify, load_for_attach. rewrite Hr.
  destruct (rows (messages db) !! mm_message_id r) as [m|] eqn:Em; [|done]. cbv beta iota.
  destruct (find_row _ _) as [[fid f]|].
  - cbn [snd]. db_simpl. rewrite lookup_delete_where, He. simpl. by rewrite (proj2 (Z.eqb_neq _ _) Hne).
  - unfold record_body. rewrite Em. destruct (negb _); [done|]. destruct (size <? 0); [done|].
    cbn [snd]. db_simpl. by rewrite update_id_lookup, decide_False by done.
Qed.

Lemma SaveParsedContent_keeps mid id c ps db : keeps_bodies mid db (exec (SaveParsedContent id c ps) db).
Proof.
  intros eid e _ He. destruct (SaveParsedContent_messages id c ps db) as [->| ->]; [by exists e|].
  rewrite update_id_lookup. case_decide; [|by exists e]. rewrite He. by exists (apply_parsed c e).
Qed.

Lemma part_records_sound ps s db : sound s db -> sound (part_records ps s).2 db.
Proof.
  revert s. induction ps as [|p ps IH]; intros s Hs; [done|]. cbn [part_records]. unfold part_record.
  destruct (IsAttachment p && _).
  - pose proof (Put_sound TypeMIMEPart (pt_Content p) s db Hs) as Hp.
    destruct (Put TypeMIMEPart (pt_Content p) s) as [[e|info] s1]; cbn [snd] in Hp;
      specialize (IH s1 Hp); by destruct (part_records ps s1).
  - specialize (IH s Hs). by destruct (part_records ps s).
Qed.

(** ** The handler and the batch *)

Context (env : BodyEnv) (message_Read : bytes -> ReadResult) (err_bytes : err -> bytes).
(** Other workers and processes keep the property too. *)
Context (Hothers : forall n s db, sound s db -> sound s (be_others env n db)).

Definition sound_world (w : BodyWorld S) : Prop := sound (b_blobs w) (b_db w).

Lemma body_call_sound {A} (m : sql A) w :
  (forall db, sound (b_blobs w) db -> sound (b_blobs w) (exec m db)) -> sound_world w -> sound_world (body_call env m w).2.
Proof.
  unfold sound_world, body_call. intros Hm Hw. apply (Hothers (b_calls w)) in Hw. specialize (Hm _ Hw). unfold exec in Hm.
  destruct (be_fault env (b_calls w)); [|done|done]. by destruct (m _).
Qed.
Lemma mark_failed_sound claim e w : sound_world w -> sound_world (mark_failed env claim e w).2.
Proof.
  intros Hw. unfold mark_failed.
  pose proof (body_call_sound (MarkBodyFailed (pb_MailboxMessageID claim) e (be_maxAttempts env)) w) as H.
  destruct (body_call env _ w) as [[e'|x] w']; (apply H; [|done]); intros db; by apply sound_same.
Qed.

Lemma put_call_sound t data w :
  sound_world w -> sound_world (put_call env t data w).2
  /\ (forall info w', put_call env t data w = (inr info, w') ->
        Type_Valid t = true /\ in_Key info = NewKey t (sha256 data) /\ in_SHA256 info = sha256 data
        /\ content (b_blobs w') (NewKey t (sha256 data)) = Some data).
Proof.
  unfold sound_world, put_call. intros Hw. destruct (be_put env (b_calls w)); [by split|].
  pose proof (Put_sound t data (b_blobs w) (b_db w) Hw) as Hp. split; [by destruct (Put t data (b_blobs w))|].
  intros info w'. destruct (Type_Valid t) eqn:Ht.
  - destruct (put_ok sha256 t data (b_blobs w) Ht) as (s' & -> & Hc & _). by intros [= <- <-].
  - by rewrite (put_refused sha256 t data (b_blobs w) Ht).
Qed.

Lemma ingest_call_sound mid raw w : sound_world w -> sound_world (ingest_call env message_Read err_bytes mid raw w).
Proof.
  unfold sound_world, ingest_call, Ingest. intros Hw. apply (Hothers (b_calls w)) in Hw.
  set (parsed := Parse message_Read err_bytes raw).
  pose proof (part_records_sound (pm_Parts parsed) (b_blobs w) _ Hw) as Hp.
  destruct (part_records (pm_Parts parsed) (b_blobs w)) as [parts s']. cbn [snd] in Hp.
  pose proof (SaveParsedContent_sound mid (parsed_content parsed) parts s' _ Hp) as Hs. unfold exec in Hs.
  destruct (SaveParsedContent mid (parsed_content parsed) parts _) as [[e|x] db']; by destruct (be_fault env (b_calls w)).
Qed.

Lemma handle_body_sound mb uid size body w :
  sound_world w -> sound_world (handle_body env message_Read err_bytes mb uid size body w).2.
Proof.
  intros Hw. unfold handle_body. destruct (SyncMeta.take mb uid (b_claims w)) as [[claim|] t]; [|done].
  set (w1 := set_claims t w). assert (sound_world w1) as Hw1 by exact Hw. clearbody w1. clear Hw.
  destruct (be_read env (b_calls w1)); [by apply mark_failed_sound|].
  destruct (put_call_sound TypeRFC822 body w1 Hw1) as [H2 Hinfo].
  destruct (put_call env TypeRFC822 body w1) as [[e|info] w2]; [by apply mark_failed_sound|]. cbn [snd] in H2.
  destruct (Hinfo info w2 eq_refl) as (_ & Ek & Es & Hc). rewrite Ek, Es.
  pose proof (body_call_sound (AttachBody (pb_MailboxMessageID claim) (sha256 body) (in_Size info)
    (NewKey TypeRFC822 (sha256 body))) w2 ltac:(intros db; by apply AttachBody_sound) H2) as H3.
  destruct (body_call env (AttachBody _ _ _ _) w2) as [[e|x] w3]; [done|]. cbn [snd] in H3.
  pose proof (body_call_sound (MessageIDForMailboxMessage (pb_MailboxMessageID claim)) w3) as H4.
  destruct (body_call env (MessageIDForMailboxMessage _) w3) as [[e|mid] w4]; cbn [snd] in *;
    (specialize (H4 ltac:(intros db; unfold exec, MessageIDForMailboxMessage; by destruct (rows _ !! _)) H3)); [done|].
  exact (ingest_call_sound mid body w4 H4).
Qed.

(** What a handler keeps, downloading a batch keeps. *)
Lemma FetchBodies_keeps (P : BodyWorld S -> Prop) maxSize h before after rem msgs close poisoned w :
  (forall u n d w, P w -> P (h u n d w).2) -> P w ->
  P (FetchBodies maxSize h before after rem msgs close poisoned w).2.
Proof.
  intros Hh Hw.
  assert (forall items st, P (bs_world st) -> P (bs_world (fold_left (handle_item maxSize h) items st))) as Hitems.
  { intros items. induction items as [|i items IH]; intros st Hst; [done|]. apply IH.
    destruct i as [u|n|[d|]]; cbn; try done. destruct (_ && _); [done|].
    specialize (Hh (bs_uid st) (literal_size d) d (bs_world st) Hst). by destruct (h _ _ _ _). }
  assert (forall msgs w, P w -> P (fetch_loop maxSize h msgs w).2) as Hloop.
  { intros ms. induction ms as [|m ms IH]; intros w0 Hw0; [done|]. cbn [fetch_loop]. unfold handleBodyMessage.
    specialize (Hitems m (mk_body_state 0 0 false None 0 w0) Hw0). destruct (_ && _); [by apply IH|].
    destruct (bs_err _); [done|by apply IH]. }
  unfold FetchBodies. destruct (checkUsable poisoned); [done|]. destruct before; [done|].
  specialize (Hloop msgs w Hw). destruct (fetch_loop maxSize h msgs w) as [e w']. cbn [snd] in Hloop.
  destruct e as [e|]; [|destruct close]; destruct after; done.
Qed.

Lemma mark_too_large_sound mb batch : forall w, sound_world w -> sound_world (mark_too_large env mb batch w).2.
Proof.
  induction batch as [|m batch IH]; intros w Hw; [done|]. cbn [mark_too_large].
  destruct (SyncMeta.take mb (UID m) (b_claims w)) as [[claim|] t]; [|by apply IH].
  pose proof (body_call_sound (MarkBodyTooLarge (pb_MailboxMessageID claim)) (set_claims t w)) as H.
  destruct (body_call env _ (set_claims t w)) as [[e|x] w']; cbn [snd] in H;
    (specialize (H ltac:(intros db; by apply sound_same) Hw)); [done|by apply IH].
Qed.

Lemma release_claims_sound mb e batch : forall w, sound_world w -> sound_world (release_claims env mb e batch w).
Proof.
  induction batch as [|m batch IH]; intros w Hw; [done|]. cbn [release_claims].
  destruct (SyncMeta.take mb (UID m) (b_claims w)) as [[claim|] t]; [|by apply IH].
  apply IH. by apply mark_failed_sound.
Qed.

Lemma fetchBatch_sound mb batch rs w :
  sound_world w -> sound_world (fetchBatch env message_Read err_bytes mb batch rs w).2.
Proof.
  intros Hw. unfold fetchBatch.
  pose proof (FetchBodies_keeps sound_world (be_maxSize env) (handle_body env message_Read err_bytes mb)
    (rs_before rs) (rs_after rs) (rs_remaining rs) (rs_messages rs) (rs_close rs) (rs_poisoned rs) w
    ltac:(intros; by apply handle_body_sound) Hw) as H.
  destruct (FetchBodies _ _ _ _ _ _ _ _ w) as [[e p] w']. cbn [snd] in H.
  assert (sound_world (count_command w')) as Hc by exact H. destruct e as [e|]; [|done].
  destruct (err_is e ErrMessageTooLarge); [|by apply release_claims_sound].
  pose proof (mark_too_large_sound mb batch (count_command w') Hc) as Ht.
  by destruct (mark_too_large env mb batch (count_command w')).
Qed.
End sound.

(** [C8] No message ever claims a body the object store does not have.  Whatever the
    server sends, whichever calls of the database fail before or after committing,
    whichever Puts fail and whatever happens elsewhere meanwhile: after a batch,
    every message with a blob key has under that key content with its digest. *)
Theorem fetchBatch_blobs_sound {S : Type} (sha256 : bytes -> list Z) `{BlobStoreLaws sha256 S} (env : BodyEnv)
    (message_Read : bytes -> ReadResult) (err_bytes : err -> bytes) (mb : Z) (batch : list SizedUID)
    (rs : Response) (w : BodyWorld S) :
  (forall d, length (sha256 d) = 32%nat /\ is_bytes (sha256 d)) ->
  (forall n s db, blobs_sound sha256 s db -> blobs_sound sha256 s (be_others env n db)) ->
  blobs_sound sha256 (b_blobs w) (b_db w) ->
  let w' := (fetchBatch env message_Read err_bytes mb batch rs w).2 in
  blobs_sound sha256 (b_blobs w') (b_db w').
Proof. intros Hsha Hothers Hw. by apply fetchBatch_sound. Qed.

Lemma ex_db_no_bodies : map_Forall (fun _ m => m_blob_key m = None) (rows (messages ex_db)).
Proof. apply (bool_decide_eq_true_1 (map_Forall (fun _ m => m_blob_key m = None) (rows (messages ex_db)))). by vm_compute. Qed.
Lemma ex_db_sound s : @blobs_sound MemStore ex_sha (Mem_BlobStore ex_sha) s ex_db.
Proof. intros id m key Hm Hk. by rewrite (ex_db_no_bodies id m Hm) in Hk. Qed.

Definition ex_claim : PendingBody := mk_PendingBody 1 1 11 100 0.
Definition ex_body_env : BodyEnv := mk_BodyEnv (fun _ => NoFault) (fun _ db => db) (fun _ => None) (fun _ => None) 3 1000.
Definition ex_body_world : BodyWorld MemStore :=
  mk_BodyWorld NewMemStore ex_db {[ (1, 11) := ex_claim ]} (newProgress 1) 0 0 0.
Definition ex_response : Response :=
  mk_Response None None "" [[ItemUID 11; ItemBodySection (Some ["a"; "b"]%char)]] None false.
Definition ex_fetchBatch : BodyWorld MemStore :=
  (@fetchBatch MemStore (Mem_BlobStore ex_sha) ex_body_env ex_read (fun _ => []) 1 [mkSized 11 100] ex_response ex_body_world).2.

Lemma fetchBatch_blobs_sound_witness :
  @blobs_sound MemStore ex_sha (Mem_BlobStore ex_sha) (b_blobs ex_fetchBatch) (b_db ex_fetchBatch)
  /\ (m_blob_key <$> rows (messages (b_db ex_fetchBatch)) !! 1) = Some (Some (NewKey TypeRFC822 (repeat 2 32))).
Proof.
  split; [|by vm_compute].
  exact (@fetchBatch_blobs_sound MemStore ex_sha (Mem_BlobStore ex_sha) (Mem_laws ex_sha) ex_body_env ex_read (fun _ => []) 1
    [mkSized 11 100] ex_response ex_body_world ex_sha_ok (fun _ _ _ H => H) (ex_db_sound NewMemStore)).
Defined.

(** * A delivered body ends up stored *)

(** Nothing fails and nobody else writes. *)
Definition calm_bodies (env : BodyEnv) : Prop :=
  (forall n, be_fault env n = NoFault) /\ (forall n db, be_others env n db = db)
  /\ (forall n, be_put env n = None) /\ (forall n, be_read env n = None).

Lemma NewKey_types d d' : NewKey TypeRFC822 d <> NewKey TypeMIMEPart d'.
Proof. done. Qed.

Section delivery.
Context {S : Type} (sha256 : bytes -> list Z) `{HB : BlobStore S} `{HL : !BlobStoreLaws sha256 S}.
Context (env : BodyEnv) (message_Read : bytes -> ReadResult) (err_bytes : err -> bytes).
Context (Hcalm : calm_bodies env).

Lemma body_call_calm {A} (m : sql A) (w : BodyWorld S) :
  body_call env m w = ((m (b_db w)).1, set_stores (b_blobs w) (m (b_db w)).2 w).
Proof.
  destruct Hcalm as (Hf & Ho & _). unfold body_call. rewrite Hf, Ho. by destruct (m (b_db w)).
Qed.

Lemma ingest_call_ok mid raw (w : BodyWorld S) m :
  rows (messages (b_db w)) !! mid = Some m -> table_wf (mime_parts (b_db w)) ->
  exists s' db', ingest_call env message_Read err_bytes mid raw w = set_stores s' db' w
    /\ rows (messages db') !! mid = Some (apply_parsed (parsed_content (Parse message_Read err_bytes raw)) m)
    /\ mailbox_messages db' = mailbox_messages (b_db w)
    /\ (forall d, content s' (NewKey TypeRFC822 d) = content (b_blobs w) (NewKey TypeRFC822 d))
    /\ (db_wf (b_db w) -> db_wf db') /\ forall eid, keeps_bodies eid (b_db w) db'.
Proof.
  intros Hm Hwf. destruct (Ingest_ok sha256 message_Read err_bytes raw mid m (b_blobs w) (b_db w) Hm Hwf)
    as (s' & db' & Hi & H1 & H2 & H3).
  exists s', db'. destruct Hcalm as (Hf & Ho & _). unfold ingest_call. rewrite Ho, Hf, Hi.
  assert (exists id c ps, db' = exec (SaveParsedContent id c ps) (b_db w)) as (id & c & ps & ->).
  { unfold Ingest in Hi. destruct (part_records _ _) as [ps s0]. exists mid, (parsed_content (Parse message_Read err_bytes raw)), ps.
    cbv zeta in Hi. unfold exec. destruct (SaveParsedContent _ _ _ _) as [[e|u] d]; [done|]. by injection Hi. }
  split_and!; [done..| | |].
  - intros d. apply H3. intros d'. apply NewKey_types.
  - by apply SaveParsedContent_wf.
  - intros eid. apply SaveParsedContent_keeps.
Qed.

(** What a row stands for once its body is [data]. *)
Definition holds_body (w : BodyWorld S) (id : Z) (data : bytes) : Prop :=
  exists r m, rows (mailbox_messages (b_db w)) !! id = Some r /\ mm_body_state r = BodyStored
    /\ rows (messages (b_db w)) !! mm_message_id r = Some m
    /\ m_rfc822_sha256 m = sha256 data /\ m_blob_key m = Some (NewKey TypeRFC822 (sha256 data))
    /\ Get (NewKey TypeRFC822 (sha256 data)) (b_blobs w) = inr data.

Lemma handle_body_stores (Hsha : forall d, length (sha256 d) = 32%nat /\ is_bytes (sha256 d))
    (w : BodyWorld S) mb uid size data claim r m :
  db_wf (b_db w) -> blobs_sound sha256 (b_blobs w) (b_db w) -> content_digest (sha256 data) ->
  b_claims w !! (mb, uid) = Some claim ->
  rows (mailbox_messages (b_db w)) !! pb_MailboxMessageID claim = Some r ->
  rows (messages (b_db w)) !! mm_message_id r = Some m ->
  exists w', handle_body env message_Read err_bytes mb uid size data w = (None, w')
    /\ holds_body w' (pb_MailboxMessageID claim) data
    /\ b_claims w' = delete (mb, uid) (b_claims w)
    /\ b_fetched w' = i64 (b_fetched w + 1) /\ b_bytes w' = i64 (b_bytes w + Z.of_nat (length data))
    /\ (forall id, id <> pb_MailboxMessageID claim ->
          rows (mailbox_messages (b_db w')) !! id = rows (mailbox_messages (b_db w)) !! id)
    /\ db_wf (b_db w') /\ keeps_bodies (mm_message_id r) (b_db w) (b_db w')
    /\ (forall d, sha256 d <> sha256 data ->
          content (b_blobs w') (NewKey TypeRFC822 (sha256 d)) = content (b_blobs w) (NewKey TypeRFC822 (sha256 d))).
Proof.
  intros Hwf Hs Hdig Hc Hr Hm. destruct (Hsha data) as [Hlen Hbytes]. destruct Hcalm as (_ & _ & Hput & Hread).
  unfold handle_body, SyncMeta.take. rewrite Hc. cbn [b_calls set_claims]. rewrite Hread.
  set (w1 := set_claims _ w). unfold put_call. rewrite Hput.
  destruct (put_ok sha256 TypeRFC822 data (b_blobs w1) eq_refl) as (s1 & Hp & Hc1 & Hold).
  pose proof (Put_sound sha256 Hsha TypeRFC822 data (b_blobs w) (b_db w) Hs) as Hs1.
  change (b_blobs w1) with (b_blobs w) in *. rewrite Hp in *. cbn [snd] in Hs1. cbv beta iota.
  set (w2 := set_stores s1 (b_db w1) w1). rewrite body_call_calm. cbn [in_SHA256 in_Size in_Key].
  destruct (AttachBody_attaches (b_db w) (pb_MailboxMessageID claim) (sha256 data) (Z.of_nat (length data))
    (NewKey TypeRFC822 (sha256 data)) r m Hwf Hdig Hlen ltac:(lia) Hr Hm) as (db2 & Ha & Hatt & Hother & _).
  pose proof (AttachBody_wf (pb_MailboxMessageID claim) (sha256 data) (Z.of_nat (length data))
    (NewKey TypeRFC822 (sha256 data)) Hdig (b_db w) Hwf) as Hwf2.
  pose proof (AttachBody_sound sha256 (pb_MailboxMessageID claim) data (Z.of_nat (length data)) s1 (b_db w) Hc1 Hs1) as Hs2.
  pose proof (AttachBody_keeps (pb_MailboxMessageID claim) (sha256 data) (Z.of_nat (length data)) (NewKey TypeRFC822 (sha256 data)) _ r Hr) as Hk2.
  unfold exec in Hwf2, Hs2, Hk2. change (b_db w2) with (b_db w). rewrite Ha in *. cbn [fst snd] in *.
  destruct Hatt as (r' & m' & Hr' & Hst & _ & _ & Hm' & _ & Hd' & [key Hkey] & _).
  rewrite body_call_calm. cbn [b_db set_stores]. unfold MessageIDForMailboxMessage. rewrite Hr'. cbn [fst snd].
  set (w4 := set_stores _ db2 _).
  destruct (ingest_call_ok (mm_message_id r') data w4 m' Hm' (wf_seq_parts _ Hwf2)) as (s' & db' & Hi & Hm2 & Hmms & Hblobs & Hwf' & Hk').
  rewrite Hi. eexists. split; [done|].
  destruct (Hs2 _ _ _ Hm' Hkey) as [Ek _]. rewrite Hd' in Ek.
  split_and!; try done.
  - exists r', (apply_parsed (parsed_content (Parse message_Read err_bytes data)) m'). cbn [b_db b_blobs count_body set_stores].
    split_and!; [by rewrite Hmms|done..|by rewrite <- Ek|].
    apply (get_content sha256); [by apply NewKey_valid|]. by rewrite Hblobs.
  - intros id Hid. cbn [b_db count_body set_stores]. rewrite Hmms. by apply Hother.
  - by apply Hwf'.
  - by eapply keeps_bodies_trans.
  - intros d Hd. cbn [b_blobs count_body set_stores]. rewrite Hblobs. apply Hold.
    intros [_ E]%(NewKey_inj TypeRFC822 TypeRFC822 _ _ eq_refl eq_refl (proj2 (Hsha d)) Hbytes). done.
Qed.
End delivery.

(** [C13] A body the server delivers ends up stored: when nothing fails, the handler
    of a claimed message puts its bytes in the object store, marks its row stored
    with a message whose key gives exactly those bytes back, uses up the claim,
    counts it, and touches no other row. *)
Theorem delivered_body_is_stored {S : Type} (sha256 : bytes -> list Z) `{BlobStoreLaws sha256 S} (env : BodyEnv)
    (message_Read : bytes -> ReadResult) (err_bytes : err -> bytes) (w : BodyWorld S) (mb uid size : Z) (data : bytes)
    (claim : PendingBody) (r : mm_row) (m : message_row) :
  (forall d, length (sha256 d) = 32%nat /\ is_bytes (sha256 d)) -> calm_bodies env ->
  db_wf (b_db w) -> blobs_sound sha256 (b_blobs w) (b_db w) -> content_digest (sha256 data) ->
  b_claims w !! (mb, uid) = Some claim ->
  rows (mailbox_messages (b_db w)) !! pb_MailboxMessageID claim = Some r ->
  rows (messages (b_db w)) !! mm_message_id r = Some m ->
  exists w', handle_body env message_Read err_bytes mb uid size data w = (None, w')
    /\ holds_body sha256 w' (pb_MailboxMessageID claim) data
    /\ b_claims w' = delete (mb, uid) (b_claims w)
    /\ b_fetched w' = i64 (b_fetched w + 1) /\ b_bytes w' = i64 (b_bytes w + Z.of_nat (length data))
    /\ (forall id, id <> pb_MailboxMessageID claim ->
          rows (mailbox_messages (b_db w')) !! id = rows (mailbox_messages (b_db w)) !! id).
Proof.
  intros Hsha Hcalm Hwf Hs Hd Hc Hr Hm.
  destruct (handle_body_stores sha256 env message_Read err_bytes Hcalm Hsha w mb uid size data claim r m)
    as (w' & E & H1 & H2 & H3 & H4 & H5 & _); [done..|]. by exists w'.
Qed.

Definition ex_handled : BodyWorld MemStore :=
  (@handle_body MemStore (Mem_BlobStore ex_sha) ex_body_env ex_read (fun _ => []) 1 11 100 ["a"; "b"]%char ex_body_world).2.
Lemma delivered_body_is_stored_witness :
  @holds_body MemStore ex_sha (Mem_BlobStore ex_sha) ex_handled 1 ["a"; "b"]%char /\ b_fetched ex_handled = 1.
Proof.
  destruct (rows (mailbox_messages ex_db) !! 1) as [r|] eqn:Er; [|by vm_compute in Er].
  destruct (wf_mm_message _ ex_db_wf 1 r _ Er eq_refl) as [m Em].
  destruct (@delivered_body_is_stored MemStore ex_sha (Mem_BlobStore ex_sha) (Mem_laws ex_sha) ex_body_env ex_read (fun _ => [])
    ex_body_world 1 11 100 ["a"; "b"]%char ex_claim r m ex_sha_ok
    (conj (fun _ => eq_refl) (conj (fun _ _ => eq_refl) (conj (fun _ => eq_refl) (fun _ => eq_refl))))
    ex_db_wf (ex_db_sound NewMemStore) ltac:(by vm_compute) ltac:(by vm_compute) Er Em) as (w' & E & H1 & _ & H2 & _).
  unfold ex_handled. rewrite E. exact (conj H1 H2).
Defined.

(** * What a retry of a failed batch can do *)

Section retry.
Context {S : Type} `{HB : BlobStore S}.
Context (env : BodyEnv) (message_Read : bytes -> ReadResult) (err_bytes : err -> bytes) (mb : Z).
Notation BW := (BodyWorld S).

(** No message of the batch is claimed any more. *)
Definition released (batch : list SizedUID) (w : BW) : Prop :=
  forall msg, In msg batch -> b_claims w !! (mb, UID msg) = None.

Lemma take_releases uid (t : claimTable) : (SyncMeta.take mb uid t).2 !! (mb, uid) = None.
Proof.
  unfold SyncMeta.take. destruct (t !! (mb, uid)) eqn:E; [|done]. apply lookup_delete_eq.
Qed.
Lemma take_keeps_released uid k (t : claimTable) : t !! k = None -> (SyncMeta.take mb uid t).2 !! k = None.
Proof.
  unfold SyncMeta.take. intros Hk. destruct (t !! (mb, uid)) eqn:E; [|done]. cbn [snd].
  destruct (decide (k = (mb, uid))) as [->|]; [apply lookup_delete_eq|]. etransitivity; [by apply lookup_delete_ne|done].
Qed.

Lemma mark_failed_claims claim e (w : BW) : b_claims (mark_failed env claim e w).2 = b_claims w.
Proof.
  unfold mark_failed, body_call. by destruct (be_fault env (b_calls w)).
Qed.

Lemma release_claims_keeps k e batch : forall w : BW, b_claims w !! k = None -> b_claims (release_claims env mb e batch w) !! k = None.
Proof.
  induction batch as [|msg batch IH]; intros w Hw; [done|]. cbn [release_claims].
  pose proof (take_keeps_released (UID msg) k (b_claims w) Hw) as Ht.
  destruct (SyncMeta.take mb (UID msg) (b_claims w)) as [[claim|] t]; apply IH; [by rewrite mark_failed_claims|done].
Qed.

Lemma release_claims_releases e batch : forall w : BW, released batch (release_claims env mb e batch w).
Proof.
  induction batch as [|msg batch IH]; intros w m [].
  - subst m. cbn [release_claims]. pose proof (take_releases (UID msg) (b_claims w)) as Ht.
    destruct (SyncMeta.take mb (UID msg) (b_claims w)) as [[claim|] t]; apply release_claims_keeps;
      [by rewrite mark_failed_claims|done].
  - cbn [release_claims]. destruct (SyncMeta.take mb (UID msg) (b_claims w)) as [[claim|] t]; by apply IH.
Qed.

Lemma released_claims_stay e batch : forall w : BW, released batch w -> release_claims env mb e batch w = w.
Proof.
  induction batch as [|msg batch IH]; intros w Hw; [done|]. cbn [release_claims]. unfold SyncMeta.take.
  rewrite (Hw msg) by (by left). replace (set_claims (b_claims w) w) with w by (by destruct w).
  apply IH. intros m Hm. apply Hw. by right.
Qed.
Lemma released_too_large batch : forall w : BW, released batch w -> mark_too_large env mb batch w = (None, w).
Proof.
  induction batch as [|msg batch IH]; intros w Hw; [done|]. cbn [mark_too_large]. unfold SyncMeta.take.
  rewrite (Hw msg) by (by left). replace (set_claims (b_claims w) w) with w by (by destruct w).
  apply IH. intros m Hm. apply Hw. by right.
Qed.

Lemma mark_too_large_calm (Hcalm : calm_bodies env) batch : forall w : BW, (mark_too_large env mb batch w).1 = None.
Proof.
  induction batch as [|msg batch IH]; intros w; [done|]. cbn [mark_too_large].
  destruct (SyncMeta.take mb (UID msg) (b_claims w)) as [[claim|] t]; [|apply IH].
  rewrite (body_call_calm env Hcalm). apply IH.
Qed.

(** The server answers for messages of the batch only. *)
Definition answers (batch : list SizedUID) (rs : Response) : Prop :=
  Forall (fun items => exists msg d, items = [ItemUID (UID msg); ItemBodySection d] /\ In msg batch) (rs_messages rs).

Lemma unclaimed_fetch batch msgs (w : BW) maxSize :
  Forall (fun items => exists msg d, items = [ItemUID (UID msg); ItemBodySection d] /\ In msg batch) msgs ->
  released batch w -> (fetch_loop maxSize (handle_body env message_Read err_bytes mb) msgs w).2 = w.
Proof.
  intros Hms Hw. induction Hms as [|items ms (msg & d & -> & Hin) _ IH]; [done|].
  cbn [fetch_loop]. unfold handleBodyMessage. cbn [fold_left handle_item bs_uid bs_size bs_world].
  destruct d as [d|]; [|exact IH]. destruct ((0 <? maxSize) && _); [reflexivity|]. unfold handle_body, SyncMeta.take. by rewrite (Hw msg Hin).
Qed.

Lemma fetchBatch_failed (Hcalm : calm_bodies env) batch rs (w : BW) e p w' :
  fetchBatch env message_Read err_bytes mb batch rs w = (Some e, p, w') -> released batch w'.
Proof.
  unfold fetchBatch. destruct (FetchBodies _ _ _ _ _ _ _ _ w) as [[[e0|] p0] w0]; [|intros [=]].
  destruct (err_is e0 ErrMessageTooLarge).
  - pose proof (mark_too_large_calm Hcalm batch (count_command w0)) as Ht.
    destruct (mark_too_large env mb batch (count_command w0)). cbn [fst] in Ht. subst. intros [=].
  - intros [= <- <- <-]. apply release_claims_releases.
Qed.

Lemma fetchBatch_released batch rs (w : BW) :
  released batch w -> answers batch rs -> (fetchBatch env message_Read err_bytes mb batch rs w).2 = count_command w.
Proof.
  intros Hw Hrs. unfold fetchBatch, FetchBodies.
  destruct (checkUsable _); [|destruct (rs_before rs)].
  3: { pose proof (unclaimed_fetch batch (rs_messages rs) w (be_maxSize env) Hrs Hw) as E.
       destruct (fetch_loop _ _ _ w) as [e w0]. cbn [snd] in E. subst w0.
       destruct (withDeadline _ _ _ _ _) as [[e1|[]] p1]; [|done].
       assert (released batch (count_command w)) as Hc by exact Hw.
       destruct (err_is e1 _); [by rewrite released_too_large|by apply released_claims_stay]. }
  all: assert (released batch (count_command w)) as Hc by exact Hw.
  all: destruct (err_is _ _); [by rewrite released_too_large|by apply released_claims_stay].
Qed.
End retry.

(** Retrying a failed batch stores nothing.  A failure releases every claim of
    the batch, so when the session runs the same batch again on a new connection,
    whatever bodies come back are read and thrown away: neither the database nor
    the object store changes, and the messages wait for a later claim. *)
Theorem retried_batch_stores_nothing {S : Type} `{BlobStore S} (env : BodyEnv)
    (message_Read : bytes -> ReadResult) (err_bytes : err -> bytes) (mb : Z) (batch : list SizedUID)
    (rs rs' : Response) (w w' : BodyWorld S) (e : err) (p : bool) :
  calm_bodies env -> answers batch rs' ->
  fetchBatch env message_Read err_bytes mb batch rs w = (Some e, p, w') ->
  released mb batch w'
  /\ (fetchBatch env message_Read err_bytes mb batch rs' w').2 = count_command w'.
Proof.
  intros Hcalm Hrs E. assert (released mb batch w') as Hr by (by eapply fetchBatch_failed).
  split; [done|]. by apply fetchBatch_released.
Qed.

(** The connection drops before the first message, then delivers it. *)
Definition ex_dropped : Response := mk_Response (Some ErrEOF) None "" [] None false.
Lemma ex_answers : answers [mkSized 11 100] ex_response.
Proof. constructor; [|constructor]. exists (mkSized 11 100), (Some ["a"; "b"]%char). split; [done|by left]. Qed.
Lemma retried_batch_stores_nothing_witness :
  let fetch rs w := @fetchBatch MemStore (Mem_BlobStore ex_sha) ex_body_env ex_read (fun _ => []) 1 [mkSized 11 100] rs w in
  b_blobs (fetch ex_response (fetch ex_dropped ex_body_world).2).2 = NewMemStore
  /\ (mm_body_state <$> rows (mailbox_messages (b_db (fetch ex_response (fetch ex_dropped ex_body_world).2).2)) !! 1) = Some BodyPending.
Proof.
  cbv zeta.
  destruct (@fetchBatch MemStore (Mem_BlobStore ex_sha) ex_body_env ex_read (fun _ => []) 1 [mkSized 11 100] ex_dropped ex_body_world)
    as [[[e|] p] w'] eqn:E; [|by vm_compute in E].
  destruct (@retried_batch_stores_nothing MemStore (Mem_BlobStore ex_sha) ex_body_env ex_read (fun _ => []) 1 [mkSized 11 100]
    ex_dropped ex_response ex_body_world w' e p
    (conj (fun _ => eq_refl) (conj (fun _ _ => eq_refl) (conj (fun _ => eq_refl) (fun _ => eq_refl))))
    ex_answers E) as [_ H2].
  cbn [snd]. rewrite H2. apply (f_equal snd) in E. cbn [snd] in E. subst w'. split; by vm_compute.
Defined.

(** * When the pass can stand still *)

(** Workers end only once the producer has closed the channel. *)
Definition pool_inv (c : pool) : Prop := forall e, W_Done e ∈ c.2 -> exists e', c.1 = P_Done e'.

Lemma elem_of_swap {A} (l1 l2 : list A) x y z : z ∈ l1 ++ x :: l2 -> z <> x -> z ∈ l1 ++ y :: l2.
Proof. rewrite !elem_of_app, !elem_of_cons. naive_solver. Qed.

Lemma pool_inv_step cancelled c c' : pool_step cancelled c c' -> pool_inv c -> pool_inv c'.
Proof.
  unfold pool_inv. intros Hs Hd e He. destruct Hs; cbn [fst snd] in *; eauto.
  all: try (eapply elem_of_swap in He; [|discriminate]; by destruct (Hd e He) as [e' E]; (discriminate E || exists e')).
  all: by destruct (Hd e He).
Qed.

Lemma pool_reaches_inv cancelled n c : rtc (pool_step cancelled) (pool_start n) c -> pool_inv c.
Proof.
  assert (forall x y, rtc (pool_step cancelled) x y -> pool_inv x -> pool_inv y) as H.
  { induction 1; eauto using pool_inv_step. }
  intros Hr. apply (H _ _ Hr). intros e He. apply elem_of_replicate in He as [[=] _].
Qed.

(** A worker that could not open its mailbox. *)
Definition gone_worker (w : worker) : Prop := exists e, w = Failed_open e.

(** Any worker still running can take a step. *)
Lemma worker_moves cancelled p ws w : (exists b bs, p = Sending (b :: bs)) \/ (exists e, p = P_Done e) ->
  w ∈ ws -> worker_done w = false -> exists c', pool_step cancelled (p, ws) c'.
Proof.
  intros Hp (l1 & l2 & ->)%list_elem_of_split Hw.
  destruct Hp as [(b & bs & ->)|[e0 ->]]; destruct w; try discriminate Hw;
    eexists; (by constructor) || (apply (step_closed _ _ None); by auto).
Qed.

Lemma not_all_done ws : forallb worker_done ws = false -> exists w, w ∈ ws /\ worker_done w = false.
Proof.
  induction ws as [|w ws IH]; [done|]. cbn [forallb]. destruct (worker_done w) eqn:E.
  - intros (w' & H1 & H2)%IH. exists w'. split; [by right|done].
  - intros _. exists w. split; [by left|done].
Qed.

(** An unfinished pass can move unless it is offering a batch to workers that are
    all gone. *)
Lemma pool_moves cancelled p ws : pool_inv (p, ws) -> ~ pool_finished (p, ws) ->
  (exists c', pool_step cancelled (p, ws) c') \/ (exists b bs, p = Sending (b :: bs) /\ Forall gone_worker ws).
Proof.
  intros Hinv Hunf. destruct p as [|[|b bs]|e].
  - left. eexists. apply step_poll.
  - left. eexists. apply step_sent.
  - destruct (forallb worker_done ws) eqn:E.
    + right. exists b, bs. split; [done|]. apply Forall_forall. intros w Hw.
      rewrite forallb_forall in E. specialize (E w (proj1 (list_elem_of_In _ _) Hw)).
      destruct w as [|e| | | |e]; try discriminate E; [by exists e|]. by destruct (Hinv e Hw).
    + left. destruct (not_all_done ws E) as (w & H1 & H2). apply (worker_moves _ _ _ w); eauto.
  - left. destruct (forallb worker_done ws) eqn:E; [destruct Hunf; split; [by exists e|done]|].
    destruct (not_all_done ws E) as (w & H1 & H2). apply (worker_moves _ _ _ w); eauto.
Qed.

(** Every way to be stuck: all workers gone, the channel never read again. *)
Lemma gone_is_stuck b bs ws : Forall gone_worker ws -> forall c', ~ pool_step None (Sending (b :: bs), ws) c'.
Proof.
  intros Hg c' Hs. rewrite Forall_forall in Hg.
  assert (forall x, x ∈ ws -> worker_done x = true) as Hd by (intros x Hx; by destruct (Hg x Hx) as [e ->]).
  inversion Hs; subst; try discriminate.
  all: match goal with H : forall x, x ∈ ?l1 ++ ?y :: ?l2 -> _ |- _ =>
    specialize (H y ltac:(rewrite elem_of_app, elem_of_cons; by right; left)); discriminate H end.
Qed.

Lemma all_fail_to_open cancelled p n m :
  rtc (pool_step cancelled) (p, replicate m (Failed_open None) ++ replicate n Opening) (p, replicate (m + n) (Failed_open None)).
Proof.
  revert m. induction n as [|n IH]; intros m.
  - rewrite Nat.add_0_r, app_nil_r. apply rtc_refl.
  - eapply rtc_l; [apply (step_open_fails _ None)|].
    replace (m + S n)%nat with (S m + n)%nat by lia. specialize (IH (S m)).
    by rewrite replicate_S_end, <- (assoc_L (++)) in IH.
Qed.

(** [C19] The body pass stands still in exactly one situation.  From any reachable
    state that is not finished, no step is possible (short of the run's context
    ending) if and only if the producer is offering a batch and every worker failed
    to open the mailbox: a worker that fails a batch goes on draining, but one that
    fails to start returns without draining.  Such a state is reachable with any
    number of workers as soon as there is work, and the end of the context always
    gets the pass going again. *)
Theorem bodyPass_blocks_iff (n : nat) (p : producer) (ws : list worker) :
  (forall c, rtc (pool_step None) (pool_start n) c -> c = (p, ws) -> ~ pool_finished c ->
     (forall c', ~ pool_step None c c') <-> exists b bs, p = Sending (b :: bs) /\ Forall gone_worker ws)
  /\ (forall b bs, rtc (pool_step None) (pool_start n) (Sending (b :: bs), replicate n (Failed_open None))
        /\ ~ pool_finished (Sending (b :: bs), replicate n (Failed_open None))
        /\ forall c', ~ pool_step None (Sending (b :: bs), replicate n (Failed_open None)) c')
  /\ (forall c e, rtc (pool_step (Some e)) (pool_start n) c -> ~ pool_finished c -> exists c', pool_step (Some e) c c').
Proof.
  split_and!.
  - intros c Hr -> Hunf. split.
    + intros Hstuck. destruct (pool_moves None p ws) as [[c' Hc]|H]; [by eapply pool_reaches_inv|done|by destruct (Hstuck c')|done].
    + intros (b & bs & -> & Hg). by apply gone_is_stuck.
  - intros b bs. split_and!.
    + eapply rtc_l; [by apply (step_claim _ (b :: bs))|]. apply (all_fail_to_open None _ n 0).
    + by intros [[e [=]] _].
    + apply gone_is_stuck, Forall_replicate. by exists None.
  - intros [p0 ws0] e Hr Hunf. destruct (pool_moves (Some e) p0 ws0) as [H|(b & bs & -> & _)]; [by eapply pool_reaches_inv|done..|].
    eexists. by apply step_cancel.
Qed.

(** * A message that turns out too large *)

Section too_large.
Context {S : Type} `{HB : BlobStore S}.
Context (env : BodyEnv) (message_Read : bytes -> ReadResult) (err_bytes : err -> bytes) (mb : Z).
Context (Hcalm : calm_bodies env).
Notation BW := (BodyWorld S).
Notation state_of w id := (mm_body_state <$> rows (mailbox_messages (b_db w)) !! id).

Lemma MarkBodyTooLarge_state id id' db :
  mm_body_state <$> rows (mailbox_messages (exec (MarkBodyTooLarge id) db)) !! id'
  = if decide (id' = id) then const BodyTooLarge <$> rows (mailbox_messages db) !! id'
    else mm_body_state <$> rows (mailbox_messages db) !! id'.
Proof.
  unfold exec, MarkBodyTooLarge, modify. cbn [snd]. db_simpl. rewrite update_id_lookup.
  case_decide; [|done]. by destruct (rows (mailbox_messages db) !! id').
Qed.

Lemma mark_too_large_stays id batch : forall w : BW, state_of w id = Some BodyTooLarge ->
  state_of (mark_too_large env mb batch w).2 id = Some BodyTooLarge.
Proof.
  induction batch as [|msg batch IH]; intros w Hw; [done|]. cbn [mark_too_large].
  destruct (SyncMeta.take mb (UID msg) (b_claims w)) as [[claim|] t]; [|by apply IH].
  rewrite (body_call_calm env Hcalm). apply IH. cbn [b_db set_stores set_claims].
  change (MarkBodyTooLarge _ (b_db w)).2 with (exec (MarkBodyTooLarge (pb_MailboxMessageID claim)) (b_db w)).
  rewrite MarkBodyTooLarge_state. case_decide; [|done].
  by destruct (rows (mailbox_messages (b_db w)) !! id).
Qed.

(** Every message of the batch that still has its claim is marked. *)
Lemma mark_too_large_marks batch : forall (w : BW) msg claim, In msg batch ->
  b_claims w !! (mb, UID msg) = Some claim ->
  is_Some (rows (mailbox_messages (b_db w)) !! pb_MailboxMessageID claim) ->
  state_of (mark_too_large env mb batch w).2 (pb_MailboxMessageID claim) = Some BodyTooLarge.
Proof.
  induction batch as [|m batch IH]; intros w msg claim Hin Hc Hr; [done|]. cbn [mark_too_large].
  destruct (decide (UID m = UID msg)) as [E|Hne].
  - unfold SyncMeta.take. rewrite E, Hc, (body_call_calm env Hcalm). apply mark_too_large_stays. cbn [b_db set_stores set_claims].
    change (MarkBodyTooLarge _ (b_db w)).2 with (exec (MarkBodyTooLarge (pb_MailboxMessageID claim)) (b_db w)).
    rewrite MarkBodyTooLarge_state, decide_True by done. by destruct Hr as [r ->].
  - destruct Hin as [->|Hin]; [done|]. unfold SyncMeta.take.
    destruct (b_claims w !! (mb, UID m)) as [c'|]; [|by apply (IH _ msg)].
    rewrite (body_call_calm env Hcalm). apply (IH _ msg); [done| |].
    + cbn [b_claims set_stores set_claims]. etransitivity; [apply lookup_delete_ne; congruence|done].
    + cbn [b_db set_stores set_claims].
      apply (fmap_is_Some mm_body_state).
      change (MarkBodyTooLarge _ (b_db w)).2 with (exec (MarkBodyTooLarge (pb_MailboxMessageID c')) (b_db w)).
      rewrite MarkBodyTooLarge_state. destruct Hr as [r ->]. case_decide; by eexists.
Qed.

Lemma oversized_first (batch : list SizedUID) rs (w : BW) uid data more :
  rs_messages rs = [ItemUID uid; ItemBodySection (Some data)] :: more ->
  rs_before rs = None -> rs_after rs = None -> rs_poisoned rs = false ->
  0 < be_maxSize env < Z.of_nat (length data) ->
  exists p, fetchBatch env message_Read err_bytes mb batch rs w
    = (None, p, (mark_too_large env mb batch (count_command w)).2).
Proof.
  intros Hms Hb Ha Hp Hsz. unfold fetchBatch, FetchBodies. rewrite Hms, Hb, Ha, Hp. cbn [checkUsable fetch_loop].
  unfold handleBodyMessage. cbn [fold_left handle_item bs_uid bs_size bs_world].
  assert ((0 <? be_maxSize env) && (be_maxSize env <? literal_size data) = true) as ->.
  { apply andb_true_intro. unfold literal_size. split; apply Z.ltb_lt; lia. }
  cbn [bs_handled bs_err negb andb bs_world]. cbn [withDeadline]. eexists.
  pose proof (mark_too_large_calm env mb Hcalm batch (count_command w)) as Ht.
  change (err_is (ErrWrap "" ErrMessageTooLarge (": " ++ Itoa (literal_size data) ++ " bytes")) ErrMessageTooLarge) with true.
  cbv beta iota.
  destruct (mark_too_large env mb batch (count_command w)) as [e w']. cbn [fst snd] in *. by subst.
Qed.
End too_large.

(** One oversized body gives up its whole batch.  When the first body of a
    response exceeds the maximum, the batch reports success and every message of it
    that is still claimed - of whatever size - is marked too large, a state no claim
    and no reaper ever leaves. *)
Theorem oversized_gives_up_batch {S : Type} `{BlobStore S} (env : BodyEnv) (message_Read : bytes -> ReadResult)
    (err_bytes : err -> bytes) (mb : Z) (batch : list SizedUID) (rs : Response) (w : BodyWorld S)
    (uid : Z) (data : bytes) (more : list (list fetch_item)) (msg : SizedUID) (claim : PendingBody) :
  calm_bodies env -> rs_messages rs = [ItemUID uid; ItemBodySection (Some data)] :: more ->
  rs_before rs = None -> rs_after rs = None -> rs_poisoned rs = false ->
  0 < be_maxSize env < Z.of_nat (length data) ->
  In msg batch -> b_claims w !! (mb, UID msg) = Some claim ->
  is_Some (rows (mailbox_messages (b_db w)) !! pb_MailboxMessageID claim) ->
  exists p w' r, fetchBatch env message_Read err_bytes mb batch rs w = (None, p, w')
    /\ rows (mailbox_messages (b_db w')) !! pb_MailboxMessageID claim = Some r /\ mm_body_state r = BodyTooLarge
    /\ (forall mailboxID maxAttempts, claimable mailboxID maxAttempts (pb_MailboxMessageID claim) r = false)
    /\ (forall now older, stale_claim now older (pb_MailboxMessageID claim) r = false).
Proof.
  intros Hcalm Hms Hb Ha Hp Hsz Hin Hc Hr.
  destruct (oversized_first env message_Read err_bytes mb Hcalm batch rs w uid data more Hms Hb Ha Hp Hsz) as [p E].
  pose proof (mark_too_large_marks env mb Hcalm batch (count_command w) msg claim Hin Hc Hr) as Hst.
  set (w' := (mark_too_large env mb batch (count_command w)).2) in *.
  destruct (rows (mailbox_messages (b_db w')) !! pb_MailboxMessageID claim) as [r|] eqn:Er; [|done]. simpl in Hst. injection Hst as Hst.
  exists p, w', r. split_and!; [done..| |].
  - intros mailboxID maxAttempts. unfold claimable. rewrite Hst. by rewrite andb_false_r.
  - intros now older. unfold stale_claim. by rewrite Hst.
Qed.

(** A batch of two: the server's first literal is longer than announced. *)
Definition ex_two_claims : BodyWorld MemStore :=
  mk_BodyWorld NewMemStore ex_db {[ (1, 11) := ex_claim; (1, 12) := mk_PendingBody 2 2 12 100 0 ]} (newProgress 1) 0 0 0.
Definition ex_tight_env : BodyEnv := mk_BodyEnv (fun _ => NoFault) (fun _ db => db) (fun _ => None) (fun _ => None) 3 1.
Lemma oversized_gives_up_batch_witness :
  exists p w' r, @fetchBatch MemStore (Mem_BlobStore ex_sha) ex_tight_env ex_read (fun _ => []) 1 [mkSized 11 100; mkSized 12 100]
      ex_response ex_two_claims = (None, p, w')
    /\ rows (mailbox_messages (b_db w')) !! 2 = Some r /\ mm_body_state r = BodyTooLarge.
Proof.
  destruct (@oversized_gives_up_batch MemStore (Mem_BlobStore ex_sha) ex_tight_env ex_read (fun _ => []) 1 [mkSized 11 100; mkSized 12 100]
    ex_response ex_two_claims 11 ["a"; "b"]%char [] (mkSized 12 100) (mk_PendingBody 2 2 12 100 0)
    (conj (fun _ => eq_refl) (conj (fun _ _ => eq_refl) (conj (fun _ => eq_refl) (fun _ => eq_refl))))
    eq_refl eq_refl eq_refl eq_refl ltac:(by vm_compute) ltac:(right; by left) ltac:(by vm_compute)
    ltac:(by apply (bool_decide_eq_true_1 (is_Some (rows (mailbox_messages ex_db) !! 2))); vm_compute))
    as (p & w' & r & E & H1 & H2 & _).
  exists p, w', r. exact (conj E (conj H1 H2)).
Defined.
