(* ===== verification/Producer.v ===== *)
(** The producer of the body pass (internal/syncer/mailbox.go: bodyPass): one round of
    claiming work, planning it and remembering who claimed what, against the database and
    the claim table the workers share. *)
From S2P Require Import Prelude NumSet Planner GoStrings Retry Schema StoreMailboxes StoreMessages StoreInvariant StoreSteps StoreProps Upstream Commands Blob Mailstore SyncMeta SyncPass BodyPass BodyPassProps.
From Stdlib Require Import String.
From stdpp Require Import strings gmap list.
Open Scope list_scope.
Open Scope Z_scope.

Section producer.
Context {S : Type} `{BlobStore S}.
Variable env : BodyEnv.
Notation BW := (BodyWorld S).

Definition set_progress (p : Progress) (w : BW) : BW :=
  mk_BodyWorld (b_blobs w) (b_db w) (b_claims w) p (b_fetched w) (b_bytes w) (b_calls w).
(** How many bodies are left, for the progress shown; an error leaves the figure as it was. *)
Definition show_pending (accountID : Z) (w : BW) : BW :=
  match body_call env (CountPendingBodiesForAccount accountID) w with
  | (inr n, w) => set_progress (setPendingBodies n (b_progress w)) w
  | (inl _, w) => w
  end.

Definition claim_limit (BodyBatchMaxMsgs workers : Z) : Z := i64 (i64 (BodyBatchMaxMsgs * workers) * 2).
Definition sized (claimed : list PendingBody) : list SizedUID :=
  map (fun c => mkSized (u32 (pb_UpstreamUID c)) (pb_Size c)) claimed.

(** What a round comes to: the pass ends with an error; there is nothing to claim; or
    these batches are sent, in this order. *)
Inductive round := RoundFails (e : err) | NothingClaimed | Sends (batches : list (list SizedUID)).
Definition produce (now : Z) (locked : Z -> bool) (returning : list PendingBody -> list PendingBody)
    (accountID mailboxID limit : Z) (budget : BatchBudget) (cancelled : option err) (w : BW) : round * BW :=
  match cancelled with
  | Some e => (RoundFails e, w)
  | None =>
      match body_call env (ClaimPendingBodies now locked returning mailboxID limit (be_maxAttempts env)) w with
      | (inl e, w) => (RoundFails e, w)
      | (inr [], w) => (NothingClaimed, w)
      | (inr claimed, w) =>
          let w := show_pending accountID w in
          let w := set_claims (remember mailboxID (by_uid claimed) (b_claims w)) w in
          (Sends (PlanBatches (sized claimed) budget), w)
      end
  end.

(** [bodyPass] counts what is pending before its first round. *)
Definition start_pass (accountID : Z) (w : BW) : BW := show_pending accountID w.
End producer.

(** * What a round leaves *)

Section props.
Context {S : Type} `{BlobStore S}.
Variable env : BodyEnv.

(** The UIDs still to be downloaded are 32-bit numbers. *)
Definition uids_are_u32 (mailboxID : Z) (db : DB) : Prop := forall id r uid, rows (mailbox_messages db) !! id = Some r ->
  mm_mailbox_id r = mailboxID -> mm_body_state r = BodyPending -> mm_upstream_uid r = Some uid -> is_u32 uid.

Lemma NoDup_map_inj {A B} (f : A -> B) l x y : NoDup (map f l) -> x ∈ l -> y ∈ l -> f x = f y -> x = y.
Proof.
  intros Hnd [i Hi]%list_elem_of_lookup_1 [j Hj]%list_elem_of_lookup_1 E.
  assert (i = j) as ->; [|congruence]. eapply (NoDup_lookup (map f l)); [done|by rewrite list_lookup_fmap, Hi|by rewrite list_lookup_fmap, Hj, E].
Qed.
Lemma claimable_mailbox mailboxID maxAttempts id r : claimable mailboxID maxAttempts id r = true ->
  mm_mailbox_id r = mailboxID /\ mm_body_state r = BodyPending.
Proof. unfold claimable. rewrite !andb_true_iff, bool_decide_eq_true. by intros [[[Hm%Z.eqb_eq ?] _] _]. Qed.

Lemma show_pending_claims accountID (w : BodyWorld S) : b_claims (show_pending env accountID w) = b_claims w.
Proof. unfold show_pending, body_call. destruct (be_fault env (b_calls w)); [|done..]. by destruct (CountPendingBodiesForAccount accountID _) as [[e|n] db]. Qed.

Lemma PlanBatches_nonempty msgs budget : Forall (fun b => b <> []) (PlanBatches msgs budget).
Proof.
  assert (forall p, Forall (fun b => b <> []) (batches p) -> Forall (fun b => b <> []) (batches (PlanBatches_flush p))) as Hflush.
  { intros [bs [|m c] n] Hp; [done|]. apply Forall_app. split; [done|by repeat constructor]. }
  unfold PlanBatches. destruct msgs as [|m msgs]; [constructor|]. apply Hflush. generalize (m :: msgs). set (b := if _ <? 1 then _ else _).
  assert (forall l p, Forall (fun b => b <> []) (batches p) -> Forall (fun b => b <> []) (batches (fold_left (PlanBatches_step b) l p))) as Hfold;
    [|intros l; apply Hfold; constructor].
  induction l as [|x l IH]; intros p Hp; [done|]. cbn [fold_left]. apply IH. unfold PlanBatches_step.
  repeat case_match; cbn [batches]; repeat (apply Forall_app; split); try done; try (by repeat constructor); by apply Hflush.
Qed.

(** The UIDs of a claim are those of different rows. *)
Lemma claimed_uids now locked returning mailboxID limit maxAttempts db0 db1 claimed :
  db_wf db0 -> uids_are_u32 mailboxID db0 -> 0 <= limit -> (forall l, returning l ≡ₚ l) ->
  ClaimPendingBodies now locked returning mailboxID limit maxAttempts db0 = (inr claimed, db1) ->
  NoDup (map (fun c => u32 (pb_UpstreamUID c)) claimed)
  /\ (forall id r r', rows (mailbox_messages db0) !! id = Some r -> rows (mailbox_messages db1) !! id = Some r' -> r' <> r ->
      exists c, c ∈ claimed /\ pb_MailboxMessageID c = id /\ mm_upstream_uid r = Some (u32 (pb_UpstreamUID c))).
Proof.
  intros Hwf Hu Hlim Hret E.
  destruct (ClaimPendingBodies_claims now locked returning mailboxID limit maxAttempts db0 Hwf Hlim Hret)
    as (out & db' & E' & _ & Hnd & Hrow & Hdb & _). rewrite E in E'. injection E' as <- <-.
  assert (forall c, c ∈ claimed -> exists r, rows (mailbox_messages db0) !! pb_MailboxMessageID c = Some r /\ mm_mailbox_id r = mailboxID
    /\ mm_upstream_uid r = Some (pb_UpstreamUID c) /\ u32 (pb_UpstreamUID c) = pb_UpstreamUID c) as Hc.
  { intros c Hin. destruct (Hrow c Hin) as (r & Hr & Hcl & _ & Hup & _). apply claimable_mailbox in Hcl as [Hmb Hst].
    exists r. split_and!; [done..|]. apply u32_id. by eapply Hu. }
  split.
  - apply NoDup_fmap_2_strong; [|by eapply NoDup_fmap_1].
    intros c1 c2 H1 H2 Heq. destruct (Hc c1 H1) as (r1 & Hr1 & Hm1 & Hu1 & E1). destruct (Hc c2 H2) as (r2 & Hr2 & Hm2 & Hu2 & E2).
    assert (pb_MailboxMessageID c1 = pb_MailboxMessageID c2) as Hid.
    { refine (wf_upstream_index _ Hwf _ _ _ _ (mailboxID, pb_UpstreamUID c1) Hr1 Hr2 _ _); unfold upstream_index; rewrite ?Hu1, ?Hu2, ?Hm1, ?Hm2; [done|].
      cbn. congruence. }
    by eapply (NoDup_map_inj pb_MailboxMessageID).
  - intros id r r' H0 H1 Hne. rewrite Hdb in H1. destruct (decide (id ∈ map pb_MailboxMessageID claimed)) as [Hin|]; [|congruence].
    apply list_elem_of_fmap in Hin as (c & -> & Hin). exists c. split_and!; [done..|]. destruct (Hc c Hin) as (r0 & Hr0 & _ & Hup & ->). congruence.
Qed.

(** [C22] Nothing that a round claims gets lost before it is fetched.  When a round sends
    batches, every row it has marked as being fetched is in exactly one of them, by its
    UID, and its claim is in the table for the worker that will take it; no batch is
    empty.  A round that fails, or finds nothing, sends nothing and leaves the table
    as it was. *)
Theorem round_loses_nothing (now : Z) (locked : Z -> bool) (returning : list PendingBody -> list PendingBody)
    (accountID mailboxID limit : Z) (budget : BatchBudget) (cancelled : option err) (w w' : BodyWorld S) (r : round) :
  let db0 := be_others env (b_calls w) (b_db w) in
  db_wf db0 -> uids_are_u32 mailboxID db0 -> 0 <= limit -> (forall l, returning l ≡ₚ l) ->
  produce env now locked returning accountID mailboxID limit budget cancelled w = (r, w') ->
  match r with
  | Sends batches =>
      exists claimed db1, ClaimPendingBodies now locked returning mailboxID limit (be_maxAttempts env) db0 = (inr claimed, db1)
        /\ claimed <> [] /\ NoDup (map UID (concat batches)) /\ Forall (fun b => b <> []) batches
        /\ forall id row row', rows (mailbox_messages db0) !! id = Some row -> rows (mailbox_messages db1) !! id = Some row' -> row' <> row ->
             exists uid c, mm_upstream_uid row = Some uid /\ uid ∈ map UID (concat batches)
               /\ (SyncMeta.take mailboxID uid (b_claims w')).1 = Some c /\ pb_MailboxMessageID c = id
  | _ => b_claims w' = b_claims w
  end.
Proof.
  intros db0 Hwf Hu Hlim Hret. unfold produce. destruct cancelled as [e|]; [by intros [= <- <-]|].
  assert (forall x, (body_call env (ClaimPendingBodies now locked returning mailboxID limit (be_maxAttempts env)) w) = x ->
    b_claims x.2 = b_claims w /\ forall claimed, x.1 = inr claimed -> exists db1,
      ClaimPendingBodies now locked returning mailboxID limit (be_maxAttempts env) db0 = (inr claimed, db1)) as Hcall.
  { intros x <-. unfold body_call, db0. destruct (be_fault env (b_calls w)); [|split; done..].
    destruct (ClaimPendingBodies _ _ _ _ _ _ _) as [o db1]. split; [done|]. intros claimed [= ->]. by exists db1. }
  destruct (body_call _ _ w) as [[e|claimed] w1] eqn:Ec; destruct (Hcall _ eq_refl) as [Hcl Hdb]; cbn [fst snd] in *.
  { by intros [= <- <-]. }
  destruct claimed as [|c0 claimed]; [by intros [= <- <-]|]. set (l := c0 :: claimed) in *.
  intros [<- <-]%pair_eq. destruct (Hdb l eq_refl) as [db1 E]. exists l, db1.
  destruct (claimed_uids now locked returning mailboxID limit _ db0 db1 l Hwf Hu Hlim Hret E) as [Hnd Hrows].
  assert (map UID (concat (PlanBatches (sized l) budget)) = map (fun c => u32 (pb_UpstreamUID c)) l) as Euids.
  { rewrite PlanBatches_concat. unfold sized. by rewrite map_map. }
  split; [done|]. split; [done|]. split; [by rewrite Euids|]. split; [by apply PlanBatches_nonempty|].
  intros id row row' H0 H1 Hne. destruct (Hrows id row row' H0 H1 Hne) as (c & Hc & Hid & Hup).
  exists (u32 (pb_UpstreamUID c)), c. split_and!; [done|rewrite Euids; by apply (list_elem_of_fmap_2 (fun c => u32 (pb_UpstreamUID c)))| |done].
  cbn [b_claims set_claims]. rewrite show_pending_claims.
  assert (u32 (pb_UpstreamUID c) ∈ map (fun c => u32 (pb_UpstreamUID c)) l) as Hin by by apply (list_elem_of_fmap_2 (fun c => u32 (pb_UpstreamUID c))).
  destruct (by_uid_lookup l (u32 (pb_UpstreamUID c))) as [Hof Hsome]. destruct (Hsome Hin) as [c' Hc'].
  unfold SyncMeta.take. rewrite remember_lookup, decide_True, Hc' by done. cbn. f_equal.
  destruct (Hof c' Hc') as [Hin' Eu]. by eapply (NoDup_map_inj (fun c => u32 (pb_UpstreamUID c))).
Qed.
End props.

Definition ex_world : BodyWorld MemStore := mk_BodyWorld NewMemStore ex_db newClaimTable (newProgress 1) 0 0 0.
Definition ex_produce : round * BodyWorld MemStore :=
  @produce MemStore ex_body_env 5 (fun _ => false) (fun l => l) 1 1 2 (mkBudget 4096 50 0) None ex_world.
Example ex_round : ex_produce.1 = Sends [[mkSized 13 1300; mkSized 12 1200]] /\ p_pendingBodies (b_progress ex_produce.2) = 3.
Proof. split; vm_compute; reflexivity. Qed.

Lemma ex_uids : uids_are_u32 1 ex_db.
Proof.
  assert (map_Forall (fun _ r => match mm_upstream_uid r with Some uid => bool_decide (0 <= uid < 4294967296) | None => true end = true)
    (rows (mailbox_messages ex_db))) as Hu by (refine (bool_decide_unpack _ _); vm_compute; exact I).
  intros id r uid Hr _ _ Hup. specialize (Hu id r Hr). cbn beta in Hu. rewrite Hup in Hu. by apply bool_decide_eq_true in Hu.
Qed.
Lemma round_loses_nothing_witness : exists uid c, uid ∈ [13; 12] /\ (SyncMeta.take 1 uid (b_claims ex_produce.2)).1 = Some c /\ pb_MailboxMessageID c = 2.
Proof.
  assert (ex_produce = (ex_produce.1, ex_produce.2)) as E by (by destruct ex_produce).
  pose proof (@round_loses_nothing MemStore ex_body_env 5 (fun _ => false) (fun l => l) 1 1 2 (mkBudget 4096 50 0) None ex_world
    ex_produce.2 ex_produce.1 ex_db_wf) as Hall.
  assert (ex_produce.1 = Sends [[mkSized 13 1300; mkSized 12 1200]]) as Er by (vm_compute; reflexivity). rewrite Er in Hall, E.
  destruct Hall as (claimed & db1 & Ec & _ & _ & _ & Hrows); [|lia|done|exact E|].
  - exact ex_uids.
  - assert (db1 = (ClaimPendingBodies 5 (fun _ => false) (fun l => l) 1 2 3 ex_db).2) as -> by (symmetry; exact (f_equal snd Ec)).
    assert (exists row row', rows (mailbox_messages ex_db) !! 2 = Some row
      /\ rows (mailbox_messages (ClaimPendingBodies 5 (fun _ => false) (fun l => l) 1 2 3 ex_db).2) !! 2 = Some row' /\ row' <> row)
      as (row & row' & H0 & H1 & Hne).
    { eexists _, _. split; [vm_compute; reflexivity|]. split; [vm_compute; reflexivity|]. intros Heq. apply (f_equal mm_body_state) in Heq. discriminate Heq. }
    destruct (Hrows 2 row row' H0 H1 Hne) as (uid & c & _ & Hin & Ht & Hid). exists uid, c. split; [exact Hin|]. split; [exact Ht|exact Hid].
Defined.
