(* ===== verification/ImapText.v ===== *)
(** What the IMAP server makes of stored messages (internal/imapsrv/fetch.go and
    list.go): header and body sections, partial ranges, reconstructed headers,
    flag arithmetic, addresses, envelopes and mailbox patterns. *)
From S2P Require Import Prelude GoStrings Retry Schema StoreMailboxes StoreMessages StoreBrowse Commands Blob Text Mailstore.
From Stdlib Require Import String.
From stdpp Require Import strings list.
Open Scope list_scope.
Open Scope Z_scope.

(** * Sections of a message *)

Definition CR : ascii := byte 13.
Definition LF : ascii := byte 10.
Definition CRLF : bytes := [CR; LF].

(** [strings.Index] *)
Fixpoint Index (sub s : bytes) : option nat :=
  if prefixb sub s then Some O
  else match s with [] => None | _ :: s => S <$> Index sub s end.

Definition headerBytes (raw : bytes) : bytes :=
  match Index (CRLF ++ CRLF) raw with
  | Some idx => take (idx + 4) raw
  | None => match Index [LF; LF] raw with Some idx => take (idx + 2) raw | None => raw end
  end.

Definition textBytes (raw : bytes) : bytes :=
  match Index (CRLF ++ CRLF) raw with
  | Some idx => drop (idx + 4) raw
  | None => match Index [LF; LF] raw with Some idx => drop (idx + 2) raw | None => [] end
  end.

Record SectionPartial := mk_SectionPartial { sp_Offset : Z; sp_Size : Z }.

(** The offset comes from the wire as an unsigned number. *)
Definition applyPartial (content : bytes) (partial : SectionPartial) : bytes :=
  if Z.of_nat (length content) <=? sp_Offset partial then [] else
  let content := drop (Z.to_nat (sp_Offset partial)) content in
  if (0 <? sp_Size partial) && (sp_Size partial <? Z.of_nat (length content))
  then take (Z.to_nat (sp_Size partial)) content else content.

(** [strings.Split(s, "\r\n")]; [cur] is the piece being read, reversed. *)
Fixpoint split_lines (s cur : bytes) : list bytes :=
  match s with
  | [] => [rev cur]
  | c :: s' =>
      match s' with
      | d :: s'' => if Ascii.eqb c CR && Ascii.eqb d LF then rev cur :: split_lines s'' [] else split_lines s' (c :: cur)
      | [] => split_lines s' (c :: cur)
      end
  end.
Definition SplitLines (s : bytes) : list bytes := split_lines s [].

(** [strings.Cut] at a byte. *)
Fixpoint cut_at (c : ascii) (s : bytes) : option (bytes * bytes) :=
  match s with
  | [] => None
  | d :: s => if Ascii.eqb d c then Some ([], s) else (fun p => (d :: p.1, p.2)) <$> cut_at c s
  end.

Fixpoint drop_spaces (rs : list bytes) : list bytes :=
  match rs with [] => [] | r :: rs' => if is_space r then drop_spaces rs' else rs end.
(** [strings.TrimSpace] *)
Definition TrimSpace (s : bytes) : bytes := concat (rev (drop_spaces (rev (drop_spaces (runes s))))).

Definition lower (s : bytes) : bytes := map lower_ascii s.

Definition field_name (line : bytes) : option bytes := (fun p => lower (TrimSpace p.1)) <$> cut_at ":"%char line.

Definition is_continuation (line : bytes) : bool :=
  match line with c :: _ => Ascii.eqb c " "%char || Ascii.eqb c (byte 9) | [] => false end.

(** One line of the header: what is written and whether continuations are kept. *)
Definition select_line (wanted : list bytes) (exclude : bool) (st : bytes * bool) (line : bytes) : bytes * bool :=
  let '(out, keep) := st in
  if bool_decide (line = []) then st
  else if is_continuation line then (if keep : bool then out ++ line ++ CRLF else out, keep)
  else match field_name line with
    | None => st
    | Some name =>
        let keep := negb (Bool.eqb (bool_decide (name ∈ wanted)) exclude) in
        (if keep then out ++ line ++ CRLF else out, keep)
    end.

Definition selectHeaderFields (header : bytes) (fields : list bytes) (exclude : bool) : bytes :=
  (fold_left (select_line (map lower fields) exclude) (SplitLines header) ([], false)).1 ++ CRLF.

(** * Dates *)

(** The day number, the month and the year of a day counted from 1970-01-01. *)
Definition civil_from_days (days : Z) : Z * Z * Z :=
  let z := days + 719468 in
  let era := z / 146097 in
  let doe := z mod 146097 in
  let yoe := (doe - doe / 1460 + doe / 36524 - doe / 146096) / 365 in
  let doy := doe - (365 * yoe + yoe / 4 - yoe / 100) in
  let mp := (5 * doy + 2) / 153 in
  let d := doy - (153 * mp + 2) / 5 + 1 in
  let m := if mp <? 10 then mp + 3 else mp - 9 in
  (yoe + era * 400 + (if m <=? 2 then 1 else 0), m, d).

Definition two_digits (n : Z) : string := ((if (n <? 10)%Z then "0" else "") ++ Itoa n)%string.
Definition four_digits (n : Z) : string :=
  ((if (n <? 10)%Z then "000" else if (n <? 100)%Z then "00" else if (n <? 1000)%Z then "0" else "") ++ Itoa n)%string.
Definition weekdays : list string := ["Sun"; "Mon"; "Tue"; "Wed"; "Thu"; "Fri"; "Sat"]%string.
Definition months : list string :=
  ["Jan"; "Feb"; "Mar"; "Apr"; "May"; "Jun"; "Jul"; "Aug"; "Sep"; "Oct"; "Nov"; "Dec"]%string.

(** [Format(time.RFC1123Z)] of an instant in microseconds, years 0 to 9999, at an
    offset of [zone] seconds. *)
Definition RFC1123Z (zone t : Z) : string :=
  let secs := t / 1000000 + zone in
  let days := secs / 86400 in
  let s := secs mod 86400 in
  let '(y, m, d) := civil_from_days days in
  let hh := two_digits (s / 3600) in
  let mm := two_digits (s / 60 mod 60) in
  let ss := two_digits (s mod 60) in
  let sign := if zone <? 0 then "-" else "+" in
  let offset := Z.abs zone / 60 in
  (nth (Z.to_nat ((days + 4) mod 7)) weekdays "" ++ ", " ++ two_digits d ++ " "
  ++ nth (Z.to_nat (m - 1)) months "" ++ " " ++ four_digits y ++ " "
  ++ hh ++ ":" ++ mm ++ ":" ++ ss ++ " "
  ++ sign ++ two_digits (offset / 60)%Z ++ two_digits (offset mod 60)%Z)%string.

Definition headerDate (m : MessageSummary) : option Z := COALESCE_opt (ms_SentDate m) (ms_InternalDate m).

(** * Headers of a message not downloaded yet *)

Definition BodyState_string (s : BodyState) : string :=
  match s with
  | BodyPending => "pending" | BodyFetching => "fetching" | BodyStored => "stored"
  | BodyTooLarge => "too_large" | BodyFailed => "failed"
  end.

Definition HasSuffix (s suffix : string) : bool :=
  prefixb (rev (list_ascii_of_string suffix)) (rev (list_ascii_of_string s)).
Definition angled (id : string) : string :=
  if HasPrefix id "<" && HasSuffix id ">" then id else ("<" ++ id ++ ">")%string.

Definition header_line (name value : string) : bytes := lit name ++ lit ": " ++ lit value ++ CRLF.
Definition writeAddressList (name : string) (values : list string) : bytes :=
  match values with [] => [] | _ => header_line name (GoStrings.Join values ", ") end.

Definition synthesiseHeader (zone : Z -> Z) (m : MessageSummary) : bytes :=
  writeAddressList "From" (ms_From m) ++ writeAddressList "To" (ms_To m) ++ writeAddressList "Cc" (ms_Cc m)
  ++ (if String.eqb (ms_Subject m) "" then [] else header_line "Subject" (ms_Subject m))
  ++ (if String.eqb (ms_MessageIDHdr m) "" then [] else header_line "Message-ID" (angled (ms_MessageIDHdr m)))
  ++ (match headerDate m with None => [] | Some t => header_line "Date" (RFC1123Z (zone t) t) end)
  ++ header_line "X-Imapped-Body-State" (BodyState_string (ms_BodyState m)) ++ CRLF.

(** * [writeSection] *)

Inductive PartSpecifier := PartSpecifierNone | PartSpecifierHeader | PartSpecifierText | PartSpecifierMIME.
Record BodySection := mk_BodySection {
  bs_Specifier : PartSpecifier;
  bs_HeaderFields : list bytes;
  bs_HeaderFieldsNot : list bytes;
  bs_Partial : option SectionPartial
}.

(** The content written for a section. *)
Definition writeSection (zone : Z -> Z) (section : BodySection) (raw : bytes) (summary : MessageSummary) : bytes :=
  let content :=
    match bs_Specifier section with
    | PartSpecifierHeader =>
        let content := headerBytes raw in
        let content := match content with [] => synthesiseHeader zone summary | _ => content end in
        match bs_HeaderFields section, bs_HeaderFieldsNot section with
        | _ :: _, _ => selectHeaderFields content (bs_HeaderFields section) false
        | [], _ :: _ => selectHeaderFields content (bs_HeaderFieldsNot section) true
        | [], [] => content
        end
    | PartSpecifierText => textBytes raw
    | _ => raw
    end in
  match bs_Partial section with Some p => applyPartial content p | None => content end.

(** * Flags *)

Inductive StoreFlagsOp := StoreFlagsSet | StoreFlagsAdd | StoreFlagsDel.
Record StoreFlags := mk_StoreFlags { sf_Op : StoreFlagsOp; sf_Silent : bool; sf_Flags : list string }.

Definition ContainsFold (l : list string) (x : string) : bool := existsb (fun y => EqualFold y x) l.

Definition dedupe (values : list string) : list string :=
  fold_left (fun out value => if ContainsFold out value then out else out ++ [value]) values [].

Definition applyFlagChange (current : list string) (change : StoreFlags) : list string :=
  match sf_Op change with
  | StoreFlagsSet => dedupe (sf_Flags change)
  | StoreFlagsAdd => dedupe (current ++ sf_Flags change)
  | StoreFlagsDel => filter (fun flag => ContainsFold (sf_Flags change) flag = false) current
  end.

(** * Mailbox patterns *)

(** The code points of a text; a byte that is no rune stands for itself. *)
Definition rune_value (r : bytes) : Z :=
  match map code r with
  | [a] => if a <? 128 then a else 1114112 + a
  | [a; b] => (a mod 32) * 64 + b mod 64
  | [a; b; c] => ((a mod 16) * 64 + b mod 64) * 64 + c mod 64
  | [a; b; c; d] => (((a mod 8) * 64 + b mod 64) * 64 + c mod 64) * 64 + d mod 64
  | _ => 0
  end.
Definition code_points (s : string) : list Z := map rune_value (runes (lit s)).

Definition delimiter : Z := 47.
Definition ch_star : Z := 42.
Definition ch_percent : Z := 37.
Definition ch_question : Z := 63.
Definition ch_open : Z := 91.
Definition ch_close : Z := 93.
Definition ch_caret : Z := 94.
Definition ch_dash : Z := 45.
Definition ch_backslash : Z := 92.

(** [path.Match]: [getEsc], one end of a range in a character class. *)
Definition getEsc (p : list Z) : option (Z * list Z) :=
  match p with
  | [] => None
  | c :: p =>
      if (c =? ch_dash) || (c =? ch_close) then None
      else if c =? ch_backslash then match p with l :: p' => match p' with [] => None | _ => Some (l, p') end | [] => None end
      else match p with [] => None | _ => Some (c, p) end
  end.

(** The ranges of a class up to the closing bracket: does [r] fall in one, and the
    rest of the pattern.  [None]: malformed. *)
Fixpoint class_ranges (n : nat) (p : list Z) (r : Z) (matched some : bool) : option (bool * list Z) :=
  match n with
  | O => None
  | S n =>
      if some && bool_decide (head p = Some ch_close) then Some (matched, tail p)
      else match getEsc p with
        | None => None
        | Some (lo, p) =>
            let range := if bool_decide (head p = Some ch_dash) then getEsc (tail p) else Some (lo, p) in
            match range with
            | None => None
            | Some (hi, p) => class_ranges n p r (matched || ((lo <=? r) && (r <=? hi))) true
            end
        end
  end.
Definition char_class (p : list Z) (r : Z) : option (bool * list Z) :=
  if bool_decide (head p = Some ch_caret)
  then (fun x => (negb x.1, x.2)) <$> class_ranges (length p) (tail p) r false false
  else class_ranges (S (length p)) p r false false.

(** [path.Match] without its error: a malformed pattern matches nothing here, and
    the caller treats the error as no match.  Every pattern character uses up fuel. *)
Fixpoint glob (n : nat) (p s : list Z) : bool :=
  match n with
  | O => false
  | S n =>
      match p with
      | [] => bool_decide (s = [])
      | c :: p =>
          if c =? ch_star then
            (fix star (s : list Z) : bool :=
               glob n p s || match s with r :: s => negb (r =? delimiter) && star s | [] => false end) s
          else match s with
            | [] => false
            | r :: s =>
                if c =? ch_question then negb (r =? delimiter) && glob n p s
                else if c =? ch_open then
                  match char_class p r with Some (matched, p) => matched && glob n p s | None => false end
                else if c =? ch_backslash then
                  match p with l :: p => (l =? r) && glob n p s | [] => false end
                else (c =? r) && glob n p s
            end
      end
  end.
Definition path_Match (pattern name : list Z) : bool := glob (S (length pattern)) pattern name.

Definition Count (c : Z) (s : list Z) : nat := length (filter (fun x => x = c) s).

(** [matchPattern], with [EqualFold] on the texts and the rest on code points. *)
Definition match_points (name pattern : list Z) : bool :=
  if negb (bool_decide (ch_star ∈ pattern)) then
    path_Match (map (fun c => if c =? ch_percent then ch_star else c) pattern) name
    && (Count delimiter name =? Count delimiter pattern)%nat
  else path_Match pattern name.

Definition matchPattern (name pattern : string) : bool :=
  if String.eqb pattern "*" then true
  else let p := code_points pattern in
    if negb (bool_decide (ch_star ∈ p)) && negb (bool_decide (ch_percent ∈ p)) then EqualFold name pattern
    else match_points (code_points name) p.

Definition TrimSlash (s : string) : string :=
  match rev (list_ascii_of_string s) with
  | c :: s' => if Ascii.eqb c "/"%char then string_of_list_ascii (rev s') else s
  | [] => s
  end.

Definition matchesAny (name ref : string) (patterns : list string) : bool :=
  let full := if String.eqb ref "" then name else (TrimSlash ref ++ "/" ++ name)%string in
  existsb (matchPattern full) patterns.

Example glob1 : matchPattern "Archive/2024" "Archive/%" = true. Proof. reflexivity. Qed.
Example glob2 : matchPattern "Archive/2024/May" "Archive/%" = false. Proof. reflexivity. Qed.
Example glob3 : matchPattern "Archive/2024" "Arch*" = false. Proof. reflexivity. Qed.
Example glob4 : matchPattern "Note-b" "Note-[a-c]*" = true. Proof. reflexivity. Qed.
Example date1 : RFC1123Z 0 0 = "Thu, 01 Jan 1970 00:00:00 +0000"%string. Proof. reflexivity. Qed.
Example date2 : RFC1123Z (-7200) 1709210096000000 = "Thu, 29 Feb 2024 10:34:56 -0200"%string. Proof. reflexivity. Qed.

(** * Addresses and envelopes *)

(** [strings.LastIndex] of a byte. *)
Definition LastIndex (c : ascii) (s : bytes) : option nat :=
  match Index [c] (rev s) with Some i => Some (length s - 1 - i)%nat | None => None end.

Definition splitAddress (value : bytes) : bytes * bytes :=
  match LastIndex "<"%char value, LastIndex ">"%char value with
  | Some start, Some stop =>
      if (start <? stop)%nat then (TrimSpace (take start value), take (stop - (start + 1)) (drop (start + 1) value))
      else ([], TrimSpace value)
  | _, _ => ([], TrimSpace value)
  end.

Definition str (b : bytes) : string := string_of_list_ascii b.

Definition toAddress (value : bytes) : Address :=
  let '(name, addr) := splitAddress value in
  match cut_at "@"%char addr with
  | Some (mailbox, host) => mk_Address (str name) (str mailbox) (str host)
  | None => mk_Address (str name) (str addr) ""
  end.
Definition toAddresses (values : list string) : list Address := map (fun v => toAddress (lit v)) values.

Definition attributesFor (box : mailbox_row) : list string :=
  (match mb_special_use box with Some s => if String.eqb s "" then [] else [s] | None => [] end)
  ++ ["\HasNoChildren"%string].

Section envelope.
Context (message_Read : bytes -> ReadResult) (err_bytes : err -> bytes).

Definition bracketed (id : bytes) : string := ("<" ++ str id ++ ">")%string.

Definition envelopeFor (summary : MessageSummary) (raw : bytes) : Envelope :=
  match raw with
  | _ :: _ =>
      let parsed := Parse message_Read err_bytes raw in
      {| en_Date := match pm_Date parsed with Some d => Some d | None => headerDate summary end;
         en_Subject := match pm_Subject parsed with [] => ms_Subject summary | s => str s end;
         en_From := map toAddress (pm_From parsed); en_Sender := [];
         en_ReplyTo := map toAddress (pm_ReplyTo parsed);
         en_To := map toAddress (pm_To parsed); en_Cc := map toAddress (pm_Cc parsed); en_Bcc := [];
         en_InReplyTo := match pm_InReplyTo parsed with [] => [] | id => [bracketed id] end;
         en_MessageID := match pm_MessageID parsed with [] => ""%string | id => bracketed id end |}
  | [] =>
      {| en_Date := headerDate summary; en_Subject := ms_Subject summary;
         en_From := toAddresses (ms_From summary); en_Sender := []; en_ReplyTo := [];
         en_To := toAddresses (ms_To summary); en_Cc := toAddresses (ms_Cc summary); en_Bcc := [];
         en_InReplyTo := [];
         en_MessageID := if String.eqb (ms_MessageIDHdr summary) "" then ""%string else angled (ms_MessageIDHdr summary) |}
  end.
End envelope.

(** The single text part reported; size and lines. *)
Record BodyStructure := mk_BodyStructure { by_Size : Z; by_NumLines : Z }.
Definition bodyStructureFor (raw : bytes) (size : Z) : BodyStructure :=
  let size := if size <=? 0 then Z.of_nat (length raw) else size in
  mk_BodyStructure (u32 size) (Z.of_nat (length (filter (fun c => c = LF) raw))).
