(* ===== verification/ImapTextProps.v ===== *)
(** Properties of what the IMAP server serves: sections split and reassemble,
    header fields are selected exactly, flag changes are the set operations they
    name, wildcards match one level, addresses survive storage. *)
From S2P Require Import Prelude GoStrings Retry Schema StoreMailboxes StoreMessages StoreBrowse Commands Blob Text Mailstore SyncMeta ImapText.
From Stdlib Require Import String.
From stdpp Require Import strings pretty list.
Open Scope list_scope.
Open Scope Z_scope.

(** * Sections *)

Lemma header_text raw : headerBytes raw ++ textBytes raw = raw.
Proof.
  unfold headerBytes, textBytes. destruct (Index (CRLF ++ CRLF) raw); [apply take_drop|].
  destruct (Index [LF; LF] raw); [apply take_drop|]. apply app_nil_r.
Qed.

Lemma prefixb_app p s : prefixb p (p ++ s) = true.
Proof. induction p as [|c p IH]; [by destruct s|]. cbn. by rewrite Ascii.eqb_refl, IH. Qed.

(** ** Ranges *)

Lemma applyPartial_slice content off len : 0 <= off -> 0 < len ->
  applyPartial content (mk_SectionPartial off len) = take (Z.to_nat len) (drop (Z.to_nat off) content).
Proof.
  intros Hoff Hlen. unfold applyPartial. cbn [sp_Offset sp_Size].
  destruct (Z.leb_spec (Z.of_nat (length content)) off).
  - rewrite drop_ge by lia. by rewrite take_nil.
  - destruct (Z.ltb_spec 0 len); [|lia]. cbn [andb].
    destruct (Z.ltb_spec len (Z.of_nat (length (drop (Z.to_nat off) content)))); [done|].
    by rewrite take_ge by lia.
Qed.

(** The windows a client asks for, [n] bytes each. *)
Fixpoint windows (content : bytes) (n : Z) (k : nat) (off : Z) : bytes :=
  match k with
  | O => []
  | S k => applyPartial content (mk_SectionPartial off n) ++ windows content n k (off + n)
  end.

Lemma windows_take content n k off : 0 <= off -> 0 < n ->
  windows content n k off = take (k * Z.to_nat n) (drop (Z.to_nat off) content).
Proof.
  intros Hoff Hn. revert off Hoff. induction k as [|k IH]; intros off Hoff; [done|]. cbn [windows].
  rewrite applyPartial_slice, IH by lia. replace (Z.to_nat (off + n)) with (Z.to_nat off + Z.to_nat n)%nat by lia.
  rewrite <- drop_drop. by rewrite take_take_drop.
Qed.

(** A message served in pieces is the message: however it is cut into windows,
    the pieces of BODY[]<offset.size> put together are the content asked for, and
    header and text together are the raw message. *)
Theorem sections_reassemble (raw : bytes) (n : Z) (k : nat) :
  0 < n -> Z.of_nat (length raw) <= Z.of_nat k * n ->
  windows raw n k 0 = raw /\ headerBytes raw ++ textBytes raw = raw.
Proof.
  intros Hn Hk. split; [|apply header_text]. rewrite windows_take by lia. apply take_ge. nia.
Qed.
Lemma sections_reassemble_witness :
  windows (lit "abcdefg") 3 3 0 = lit "abcdefg"
  /\ applyPartial (lit "abcdefg") (mk_SectionPartial 3 3) = lit "def".
Proof. split; [|reflexivity]. exact (proj1 (sections_reassemble (lit "abcdefg") 3 3 ltac:(lia) ltac:(by vm_compute))). Defined.

(** * Flags *)

Lemma ContainsFold_iff l x : ContainsFold l x = true <-> exists y, In y l /\ eq_fold y x.
Proof. unfold ContainsFold. rewrite existsb_exists. by setoid_rewrite EqualFold_iff. Qed.
#[export] Instance ContainsFold_proper : Proper (eq ==> eq_fold ==> eq) ContainsFold.
Proof.
  intros l ? <- x y E. apply eq_iff_eq_true. rewrite !ContainsFold_iff.
  split; intros (z & H & E'); exists z; (split; [done|]); by rewrite E' || (rewrite E', E) || (rewrite E', <- E).
Qed.
Lemma ContainsFold_app l l' x : ContainsFold (l ++ l') x = ContainsFold l x || ContainsFold l' x.
Proof. apply existsb_app. Qed.

(** No flag occurs twice, in whatever case. *)
Definition distinct_fold (l : list string) : Prop := NoDup (map ToLower l).

Lemma ContainsFold_lower l x : ContainsFold l x = true <-> ToLower x ∈ map ToLower l.
Proof.
  rewrite ContainsFold_iff, list_elem_of_fmap. split.
  - intros (y & H & E). exists y. split; [by symmetry|by apply list_elem_of_In].
  - intros (y & E & H). exists y. split; [by apply list_elem_of_In|by symmetry].
Qed.

Lemma dedupe_from values : forall out, distinct_fold out ->
  let l := fold_left (fun out value => if ContainsFold out value then out else out ++ [value]) values out in
  distinct_fold l /\ (forall x, ContainsFold l x = ContainsFold out x || ContainsFold values x)
  /\ exists l', l = out ++ l' /\ l' `sublist_of` values.
Proof.
  induction values as [|v values IH]; intros out Hout.
  { cbn. split_and!; [done|intros; by rewrite orb_false_r|exists []; by rewrite app_nil_r]. }
  cbn [fold_left]. destruct (ContainsFold out v) eqn:E.
  - destruct (IH out Hout) as (H1 & H2 & l' & H3 & H4). split_and!; [done| |exists l'; split; [done|by constructor]].
    intros x. rewrite H2. cbn [ContainsFold existsb]. destruct (EqualFold v x) eqn:Ev; [|done].
    assert (ContainsFold out x = true) as -> by (by rewrite <- E; apply ContainsFold_proper; [done|symmetry; apply EqualFold_iff]).
    done.
  - destruct (IH (out ++ [v])) as (H1 & H2 & l' & H3 & H4).
    { unfold distinct_fold in *. rewrite map_app. apply NoDup_app. split_and!; [done| |apply NoDup_singleton].
      intros y Hy ->%list_elem_of_singleton. apply ContainsFold_lower in Hy. congruence. }
    split_and!; [done| |exists (v :: l'); split; [by rewrite H3, <- app_assoc|by constructor]].
    intros x. rewrite H2, ContainsFold_app. cbn [ContainsFold existsb]. by rewrite orb_false_r, orb_assoc.
Qed.

Lemma dedupe_spec values : distinct_fold (dedupe values) /\ (forall x, ContainsFold (dedupe values) x = ContainsFold values x)
  /\ dedupe values `sublist_of` values.
Proof.
  destruct (dedupe_from values [] (NoDup_nil_2)) as (H1 & H2 & l' & H3 & H4). split_and!; [done|done|].
  unfold dedupe. by rewrite H3.
Qed.

(** What the client's operation means. *)
Definition flag_wanted (op : StoreFlagsOp) (had asked : bool) : bool :=
  match op with StoreFlagsSet => asked | StoreFlagsAdd => had || asked | StoreFlagsDel => had && negb asked end.

(** STORE does to the flags what its operation says: replacing, adding and
    removing are set equality, union and difference up to letter case; no flag comes
    out twice when replacing or adding; only flags that were there or asked for come
    out, and repeating the command changes nothing. *)
Theorem applyFlagChange_spec (current : list string) (change : StoreFlags) :
  (forall x, ContainsFold (applyFlagChange current change) x
     = flag_wanted (sf_Op change) (ContainsFold current x) (ContainsFold (sf_Flags change) x))
  /\ (sf_Op change <> StoreFlagsDel \/ distinct_fold current -> distinct_fold (applyFlagChange current change))
  /\ applyFlagChange current change `sublist_of` current ++ sf_Flags change
  /\ forall x, ContainsFold (applyFlagChange (applyFlagChange current change) change) x
             = ContainsFold (applyFlagChange current change) x.
Proof.
  assert (forall cur x, ContainsFold (applyFlagChange cur change) x
     = flag_wanted (sf_Op change) (ContainsFold cur x) (ContainsFold (sf_Flags change) x)) as Hmem.
  { intros cur x. unfold applyFlagChange. destruct (sf_Op change); cbn [flag_wanted].
    - by rewrite (proj1 (proj2 (dedupe_spec _))).
    - by rewrite (proj1 (proj2 (dedupe_spec _))), ContainsFold_app.
    - apply eq_iff_eq_true. rewrite andb_true_iff, negb_true_iff, !ContainsFold_iff. split.
      + intros (y & Hy & E). apply list_elem_of_In, list_elem_of_filter in Hy as [Hn Hy]. rewrite <- E. split; [|done].
        exists y. split; [by apply list_elem_of_In|done].
      + intros [(y & Hy & E) Hn]. exists y. split; [|done]. apply list_elem_of_In, list_elem_of_filter.
        split; [by rewrite E|by apply list_elem_of_In]. }
  split_and!; [apply Hmem| | |].
  - unfold applyFlagChange. destruct (sf_Op change); [intros _; apply dedupe_spec..|].
    intros [[]|Hd]; [done|]. unfold distinct_fold in *.
    eapply sublist_NoDup; [exact Hd|]. apply fmap_sublist, sublist_filter.
  - unfold applyFlagChange. destruct (sf_Op change).
    + etransitivity; [apply dedupe_spec|]. apply sublist_inserts_l. done.
    + apply dedupe_spec.
    + etransitivity; [apply sublist_filter|]. apply sublist_inserts_r. done.
  - intros x. rewrite !Hmem. by destruct (sf_Op change), (ContainsFold current x), (ContainsFold (sf_Flags change) x).
Qed.

(** * Header fields *)

(** A header field: its name, the rest of its line, and its continuation lines. *)
Record Field := mk_Field { f_name : bytes; f_rest : bytes; f_conts : list bytes }.
Definition field_lines (f : Field) : list bytes := (f_name f ++ ":"%char :: f_rest f) :: f_conts f.
Definition field_bytes (f : Field) : bytes := concat (map (fun l => l ++ CRLF) (field_lines f)).
(** A header block as it is transmitted. *)
Definition header_block (fs : list Field) : bytes := concat (map field_bytes fs) ++ CRLF.

Definition no_crlf (l : bytes) : Prop := CR ∉ l /\ LF ∉ l.
Record field_ok (f : Field) : Prop := mk_field_ok {
  fo_name : f_name f <> [] /\ ":"%char ∉ f_name f /\ is_continuation (f_name f) = false;
  fo_lines : Forall no_crlf (field_lines f);
  fo_conts : Forall (fun l => is_continuation l = true) (f_conts f)
}.

Definition chosen (wanted : list bytes) (exclude : bool) (f : Field) : bool :=
  negb (Bool.eqb (bool_decide (lower (TrimSpace (f_name f)) ∈ map lower wanted)) exclude).

Lemma split_lines_piece l s cur : no_crlf l ->
  split_lines (l ++ CRLF ++ s) cur = (rev cur ++ l) :: split_lines s [].
Proof.
  intros [Hcr Hlf]. revert cur. induction l as [|c l IH]; intros cur.
  - cbn. by rewrite app_nil_r.
  - apply not_elem_of_cons in Hcr as [Hc Hcr]. apply not_elem_of_cons in Hlf as [_ Hlf].
    assert (forall t, split_lines (c :: t) cur = split_lines t (c :: cur)) as E.
    { intros [|d t]; [done|]. cbn [split_lines]. by destruct (Ascii.eqb_spec c CR). }
    cbn [app]. rewrite E, IH by done. cbn [rev]. by rewrite <- app_assoc.
Qed.

Lemma SplitLines_lines ls : Forall no_crlf ls ->
  SplitLines (concat (map (fun l => l ++ CRLF) ls) ++ CRLF) = ls ++ [[]; []].
Proof.
  unfold SplitLines. induction 1 as [|l ls Hl _ IH]; [done|].
  cbn [map concat]. rewrite <- !app_assoc, split_lines_piece by done. cbn [rev app]. f_equal. by rewrite IH.
Qed.

Lemma cut_at_first c a b : c ∉ a -> cut_at c (a ++ c :: b) = Some (a, b).
Proof.
  induction a as [|d a IH]; cbn; [by rewrite Ascii.eqb_refl|].
  intros [Hd Ha]%not_elem_of_cons. destruct (Ascii.eqb_spec d c) as [->|]; [done|]. by rewrite IH.
Qed.

Lemma select_conts wanted excl conts out keep : Forall (fun l => is_continuation l = true) conts ->
  fold_left (select_line wanted excl) conts (out, keep)
  = (if keep : bool then out ++ concat (map (fun l => l ++ CRLF) conts) else out, keep).
Proof.
  intros H. revert out. induction H as [|l ls Hl _ IH]; intros out; cbn [fold_left map concat].
  - destruct keep; [by rewrite app_nil_r|done].
  - unfold select_line at 2. rewrite bool_decide_false by (by intros ->). rewrite Hl, IH.
    destruct keep; [|done]. by rewrite <- !app_assoc.
Qed.

Lemma select_field wanted excl f out keep : field_ok f ->
  exists keep', fold_left (select_line (map lower wanted) excl) (field_lines f) (out, keep)
    = (if chosen wanted excl f then out ++ field_bytes f else out, keep').
Proof.
  intros [(Hne & Hcol & Hcont) _ Hconts]. unfold field_lines. cbn [fold_left].
  unfold select_line at 2. rewrite bool_decide_false by (by destruct (f_name f)).
  assert (is_continuation (f_name f ++ ":"%char :: f_rest f) = false) as -> by (by destruct (f_name f)).
  unfold field_name. rewrite cut_at_first by done. cbn [fmap option_fmap option_map fst].
  fold (chosen wanted excl f). rewrite select_conts by done. exists (chosen wanted excl f).
  destruct (chosen wanted excl f); [|done]. unfold field_bytes, field_lines. cbn [map concat]. by rewrite <- !app_assoc.
Qed.

Lemma select_fields wanted excl fs : forall out keep, Forall field_ok fs ->
  exists keep', fold_left (select_line (map lower wanted) excl) (concat (map field_lines fs)) (out, keep)
    = (out ++ concat (map field_bytes (filter (fun f => chosen wanted excl f = true) fs)), keep').
Proof.
  induction fs as [|f fs IH]; intros out keep Hok; [exists keep; by rewrite app_nil_r|].
  inversion_clear Hok as [|? ? Hf Hfs]. cbn [map concat]. rewrite fold_left_app.
  destruct (select_field wanted excl f out keep Hf) as [k ->]. rewrite filter_cons.
  destruct (IH (if chosen wanted excl f then out ++ field_bytes f else out) k Hfs) as [k' ->]. exists k'.
  destruct (chosen wanted excl f); [|by rewrite decide_False].
  rewrite decide_True by done. cbn [map concat]. by rewrite app_assoc.
Qed.

Lemma header_block_lines fs : header_block fs = concat (map (fun l => l ++ CRLF) (concat (map field_lines fs))) ++ CRLF.
Proof.
  unfold header_block, field_bytes. f_equal. induction fs as [|f fs IH]; [done|].
  cbn [map concat]. by rewrite map_app, concat_app, IH.
Qed.

Lemma selectHeaderFields_block fs wanted excl : Forall field_ok fs ->
  selectHeaderFields (header_block fs) wanted excl = header_block (filter (fun f => chosen wanted excl f = true) fs).
Proof.
  intros Hok. unfold selectHeaderFields. rewrite header_block_lines, SplitLines_lines.
  - rewrite fold_left_app. destruct (select_fields wanted excl fs [] false Hok) as [k ->]. done.
  - apply Forall_concat, Forall_map. eapply Forall_impl; [exact Hok|]. intros f Hf. apply Hf.
Qed.

(** A request for some header fields gets exactly those fields of a well-formed
    header, in order, with their continuation lines and the closing blank line; the
    NOT form gets exactly the others. *)
Theorem selectHeaderFields_exact (fs : list Field) (wanted : list bytes) (exclude : bool) :
  Forall field_ok fs ->
  selectHeaderFields (header_block fs) wanted exclude
  = header_block (filter (fun f => negb (Bool.eqb (bool_decide (lower (TrimSpace (f_name f)) ∈ map lower wanted)) exclude) = true) fs).
Proof. apply selectHeaderFields_block. Qed.

Definition ex_fields : list Field :=
  [mk_Field (lit "From") (lit " a@b") []; mk_Field (lit "SUBJECT") (lit " one") [lit " two"]; mk_Field (lit "To") (lit " c@d") []].
#[export] Instance no_crlf_dec l : Decision (no_crlf l).
Proof. unfold no_crlf. apply _. Defined.
Definition field_okb (f : Field) : bool :=
  bool_decide (f_name f <> []) && bool_decide (":"%char ∉ f_name f) && negb (is_continuation (f_name f))
  && bool_decide (Forall no_crlf (field_lines f)) && bool_decide (Forall (fun l => is_continuation l = true) (f_conts f)).
Lemma field_okb_ok f : field_okb f = true -> field_ok f.
Proof.
  unfold field_okb. intros H. bool_to_prop. repeat match goal with H : bool_decide _ = true |- _ => apply bool_decide_eq_true in H end.
  by constructor.
Qed.
Lemma fields_okb_ok fs : forallb field_okb fs = true -> Forall field_ok fs.
Proof. intros H. apply Forall_forall. intros f Hf. apply field_okb_ok. rewrite forallb_forall in H. by apply H, list_elem_of_In. Qed.

Lemma selectHeaderFields_exact_witness :
  selectHeaderFields (header_block ex_fields) [lit "subject"] false
  = lit "SUBJECT: one" ++ CRLF ++ lit " two" ++ CRLF ++ CRLF.
Proof. rewrite (selectHeaderFields_exact ex_fields [lit "subject"] false (fields_okb_ok ex_fields eq_refl)). reflexivity. Defined.

(** * The header of a message not downloaded yet *)

Definition text_ok (s : string) : Prop := no_crlf (lit s).

Lemma lit_app a b : lit (a ++ b)%string = lit a ++ lit b.
Proof. apply list_ascii_app. Qed.

Lemma no_crlf_app a b : no_crlf a -> no_crlf b -> no_crlf (a ++ b).
Proof. unfold no_crlf. rewrite !elem_of_app. tauto. Qed.
Lemma text_ok_app a b : text_ok a -> text_ok b -> text_ok (a ++ b)%string.
Proof. unfold text_ok. rewrite lit_app. apply no_crlf_app. Qed.
Lemma text_ok_dec s : bool_decide (no_crlf (lit s)) = true -> text_ok s.
Proof. apply bool_decide_eq_true. Qed.

(** Decimal numbers contain no line breaks. *)
Lemma pretty_N_char_ok x : text_ok (String (pretty_N_char x) "").
Proof. unfold pretty_N_char. repeat case_match; by apply text_ok_dec. Qed.
Lemma pretty_N_go_ok x : forall s, text_ok s -> text_ok (pretty_N_go x s).
Proof.
  induction (N.lt_wf_0 x) as [x _ IH]. intros s Hs. destruct (decide (x = 0%N)) as [->|Hx]; [by rewrite pretty_N_go_0|].
  rewrite pretty_N_go_step by lia. apply IH; [apply N.div_lt; lia|].
  apply (text_ok_app (String _ "") s); [apply pretty_N_char_ok|done].
Qed.
Lemma Itoa_ok n : text_ok (Itoa n).
Proof.
  assert (forall x : N, text_ok (pretty x)) as HN.
  { intros x. unfold pretty, pretty_N. case_decide; [by apply text_ok_dec|]. by apply pretty_N_go_ok, text_ok_dec. }
  unfold Itoa, pretty, pretty_Z. destruct n as [|p|p]; [by apply text_ok_dec|apply HN|].
  apply (text_ok_app "-"); [by apply text_ok_dec|apply HN].
Qed.
#[export] Hint Resolve text_ok_app Itoa_ok : imapped.

Ltac text_ok := repeat first [apply text_ok_app | apply Itoa_ok | (by apply text_ok_dec)].

Lemma two_digits_ok n : text_ok (two_digits n).
Proof. unfold two_digits. destruct (_ <? _); text_ok. Qed.
Lemma four_digits_ok n : text_ok (four_digits n).
Proof. unfold four_digits. repeat destruct (_ <? _); text_ok. Qed.
Lemma nth_ok l n : Forall text_ok l -> text_ok (nth n l "").
Proof. intros H. revert n. induction H; intros [|n]; cbn; try done; by apply text_ok_dec. Qed.

Lemma RFC1123Z_ok zone t : text_ok (RFC1123Z zone t).
Proof.
  unfold RFC1123Z. destruct (civil_from_days _) as [[y m] d]. cbv zeta.
  repeat first [apply two_digits_ok | apply four_digits_ok | apply text_ok_app | (by apply text_ok_dec)
    | (by destruct (zone <? 0); apply text_ok_dec) | (apply nth_ok; repeat constructor; by apply text_ok_dec)].
Qed.

(** Everything a summary contributes to a header is free of line breaks. *)
Record summary_ok (m : MessageSummary) : Prop := mk_summary_ok {
  so_subject : text_ok (ms_Subject m);
  so_id : text_ok (ms_MessageIDHdr m);
  so_from : Forall text_ok (ms_From m);
  so_to : Forall text_ok (ms_To m);
  so_cc : Forall text_ok (ms_Cc m)
}.

Definition text_field (name value : string) : Field := mk_Field (lit name) (" "%char :: lit value) [].
Definition list_field (name : string) (values : list string) : list Field :=
  match values with [] => [] | _ => [text_field name (GoStrings.Join values ", ")] end.
Definition optional_field (name value : string) (shown : string) : list Field :=
  if String.eqb value "" then [] else [text_field name shown].

(** The fields served for a message whose body is missing. *)
Definition summary_fields (zone : Z -> Z) (m : MessageSummary) : list Field :=
  list_field "From" (ms_From m) ++ list_field "To" (ms_To m) ++ list_field "Cc" (ms_Cc m)
  ++ optional_field "Subject" (ms_Subject m) (ms_Subject m)
  ++ optional_field "Message-ID" (ms_MessageIDHdr m) (angled (ms_MessageIDHdr m))
  ++ match headerDate m with None => [] | Some t => [text_field "Date" (RFC1123Z (zone t) t)] end
  ++ [text_field "X-Imapped-Body-State" (BodyState_string (ms_BodyState m))].

Lemma header_line_field name value : header_line name value = field_bytes (text_field name value).
Proof. unfold header_line, field_bytes, field_lines, text_field. cbn. by rewrite app_nil_r, <- !app_assoc. Qed.

Lemma synthesiseHeader_block zone m : synthesiseHeader zone m = header_block (summary_fields zone m).
Proof.
  unfold synthesiseHeader, header_block, summary_fields, writeAddressList, list_field, optional_field.
  rewrite !map_app, !concat_app, <- !app_assoc.
  destruct (ms_From m), (ms_To m), (ms_Cc m), (String.eqb (ms_Subject m) ""), (String.eqb (ms_MessageIDHdr m) ""), (headerDate m);
    cbn [map concat]; by rewrite ?header_line_field, ?app_nil_r, <- ?app_assoc.
Qed.

Lemma Join_ok l sep : text_ok sep -> Forall text_ok l -> text_ok (GoStrings.Join l sep).
Proof.
  intros Hs H. induction H as [|x l Hx Hl IH]; [by apply text_ok_dec|]. destruct l; [done|].
  change (GoStrings.Join (x :: s :: l) sep) with (x ++ sep ++ GoStrings.Join (s :: l) sep)%string. by auto using text_ok_app.
Qed.

Lemma text_field_ok name value : bool_decide (":"%char ∉ lit name) && negb (is_continuation (lit name))
    && bool_decide (lit name <> []) && bool_decide (no_crlf (lit name)) = true ->
  text_ok value -> field_ok (text_field name value).
Proof.
  intros H Hv. bool_to_prop. repeat match goal with H : bool_decide _ = true |- _ => apply bool_decide_eq_true in H end.
  constructor; [done| |constructor]. constructor; [|constructor].
  apply (no_crlf_app (lit name)); [done|]. apply (no_crlf_app [":"%char; " "%char]); [|done]. by apply (text_ok_dec ": ").
Qed.

Lemma angled_ok id : text_ok id -> text_ok (angled id).
Proof. unfold angled. destruct (_ && _); [done|]. intros H. repeat apply text_ok_app; done || by apply text_ok_dec. Qed.

Lemma summary_fields_ok zone m : summary_ok m -> Forall field_ok (summary_fields zone m).
Proof.
  intros [H1 H2 H3 H4 H5]. unfold summary_fields, list_field, optional_field.
  repeat apply Forall_app_2.
  - destruct (ms_From m) eqn:E; constructor; [|constructor]. apply text_field_ok; [done|]. rewrite <- E in *. apply Join_ok; [by apply text_ok_dec|done].
  - destruct (ms_To m) eqn:E; constructor; [|constructor]. apply text_field_ok; [done|]. rewrite <- E in *. apply Join_ok; [by apply text_ok_dec|done].
  - destruct (ms_Cc m) eqn:E; constructor; [|constructor]. apply text_field_ok; [done|]. rewrite <- E in *. apply Join_ok; [by apply text_ok_dec|done].
  - destruct (String.eqb _ _); constructor; [|constructor]. by apply text_field_ok.
  - destruct (String.eqb _ _); constructor; [|constructor]. apply text_field_ok; [done|]. by apply angled_ok.
  - destruct (headerDate m); constructor; [|constructor]. apply text_field_ok; [done|]. apply RFC1123Z_ok.
  - constructor; [|constructor]. apply text_field_ok; [done|]. destruct (ms_BodyState m); by apply text_ok_dec.
Qed.

(** A message not downloaded yet lists correctly: whatever header fields a
    client asks for, it gets exactly those among From, To, Cc, Subject, Message-ID,
    Date and the body-state marker, drawn from the stored metadata, provided no
    stored value contains a line break. *)
Theorem undownloaded_header_served (zone : Z -> Z) (m : MessageSummary) (f : bytes) (fields : list bytes) :
  summary_ok m ->
  writeSection zone (mk_BodySection PartSpecifierHeader (f :: fields) [] None) [] m
  = header_block (filter (fun x => chosen (f :: fields) false x = true) (summary_fields zone m))
  /\ writeSection zone (mk_BodySection PartSpecifierHeader [] (f :: fields) None) [] m
  = header_block (filter (fun x => chosen (f :: fields) true x = true) (summary_fields zone m))
  /\ writeSection zone (mk_BodySection PartSpecifierHeader [] [] None) [] m = header_block (summary_fields zone m).
Proof.
  intros Hm. unfold writeSection. cbn [bs_Specifier bs_HeaderFields bs_HeaderFieldsNot bs_Partial headerBytes].
  change (headerBytes []) with (@nil ascii). cbv iota.
  rewrite synthesiseHeader_block, !selectHeaderFields_block by (by apply summary_fields_ok). done.
Qed.

Definition ex_summary : MessageSummary :=
  mk_MessageSummary 1 1 7 11 "Hello" ["Ann <ann@example.org>"%string] [] [] "" (Some 0) None "m1@example.org" 100 [] BodyPending false.
Lemma ex_summary_ok : summary_ok ex_summary.
Proof. constructor; repeat constructor; by apply text_ok_dec. Qed.
Lemma undownloaded_header_served_witness :
  writeSection (fun _ => 0) (mk_BodySection PartSpecifierHeader [lit "date"; lit "Subject"] [] None) [] ex_summary
  = lit "Subject: Hello" ++ CRLF ++ lit "Date: Thu, 01 Jan 1970 00:00:00 +0000" ++ CRLF ++ CRLF.
Proof.
  rewrite (proj1 (undownloaded_header_served (fun _ => 0) ex_summary (lit "date") [lit "Subject"] ex_summary_ok)). by vm_compute.
Defined.

(** A stored line break becomes a header of its own. *)
Example subject_injects :
  writeSection (fun _ => 0) (mk_BodySection PartSpecifierHeader [lit "Bcc"] [] None) []
    (mk_MessageSummary 1 1 7 11 ("x" ++ str CRLF ++ "Bcc: eve") [] [] [] "" None None "" 100 [] BodyPending false)
  = lit "Bcc: eve" ++ CRLF ++ CRLF.
Proof. by vm_compute. Qed.

(** * Mailbox patterns *)

(** RFC 3501's wildcards: an asterisk matches anything, a percent sign anything
    without a hierarchy delimiter. *)
Inductive imap_match : list Z -> list Z -> Prop :=
| im_nil : imap_match [] []
| im_char c p s : c <> ch_star -> c <> ch_percent -> imap_match p s -> imap_match (c :: p) (c :: s)
| im_star_end p s : imap_match p s -> imap_match (ch_star :: p) s
| im_star p x s : imap_match (ch_star :: p) s -> imap_match (ch_star :: p) (x :: s)
| im_percent_end p s : imap_match p s -> imap_match (ch_percent :: p) s
| im_percent p x s : x <> delimiter -> imap_match (ch_percent :: p) s -> imap_match (ch_percent :: p) (x :: s).

(** Characters that mean themselves to [path.Match]. *)
Definition plain (c : Z) : Prop := c <> ch_question /\ c <> ch_open /\ c <> ch_backslash.

Definition to_glob (p : list Z) : list Z := map (fun c => if c =? ch_percent then ch_star else c) p.

Lemma imap_percent_iff p s : imap_match (ch_percent :: p) s
  <-> exists a b, s = a ++ b /\ delimiter ∉ a /\ imap_match p b.
Proof.
  split.
  - remember (ch_percent :: p) as q eqn:Eq. intros H. induction H as [|c q s H1 H2 H3 IH|q s H IH|q x s H IH|q s H IH|q x s Hx H IH];
      try discriminate Eq.
    + injection Eq as -> ->. done.
    + injection Eq as ->. exists [], s. split_and!; [done|apply not_elem_of_nil|done].
    + injection Eq as ->. destruct (IH eq_refl) as (a & b & -> & Ha & Hb). exists (x :: a), b.
      split_and!; [done| |done]. apply not_elem_of_cons. split; [congruence|done].
  - intros (a & b & -> & Ha & Hb). induction a as [|x a IH]; [by constructor|].
    apply not_elem_of_cons in Ha as [Hx Ha]. cbn. constructor; [congruence|by apply IH].
Qed.

Definition star_loop (f : list Z -> bool) := fix star (s : list Z) : bool :=
  f s || match s with r :: s => negb (r =? delimiter) && star s | [] => false end.
Lemma star_loop_iff f s : star_loop f s = true <-> exists a b, s = a ++ b /\ delimiter ∉ a /\ f b = true.
Proof.
  induction s as [|r s IH]; cbn [star_loop]; rewrite orb_true_iff.
  - split; [intros [H|[=]]; exists [], []; split_and!; [done|apply not_elem_of_nil|done]|].
    intros (a & b & E & _ & H). left. by destruct a, b.
  - rewrite andb_true_iff, negb_true_iff, Z.eqb_neq, IH. split.
    + intros [H|(Hr & a & b & -> & Ha & Hb)]; [exists [], (r :: s); split_and!; [done|apply not_elem_of_nil|done]|].
      exists (r :: a), b. split_and!; [done| |done]. apply not_elem_of_cons. split; [congruence|done].
    + intros ([|x a] & b & E & Ha & Hb); [left; cbn in E; by rewrite E|]. injection E as -> ->.
      apply not_elem_of_cons in Ha as [Hx Ha]. right. split; [congruence|]. by exists a, b.
Qed.

Lemma glob_star n p s : glob (S n) (ch_star :: p) s = star_loop (glob n p) s.
Proof. reflexivity. Qed.
Lemma glob_plain n c p s : plain c -> c <> ch_star ->
  glob (S n) (c :: p) s = match s with r :: s => (c =? r) && glob n p s | [] => false end.
Proof.
  intros (H1 & H2 & H3) H4. cbn [glob]. rewrite (proj2 (Z.eqb_neq _ _) H4).
  destruct s as [|r s]; [done|]. by rewrite (proj2 (Z.eqb_neq _ _) H1), (proj2 (Z.eqb_neq _ _) H2), (proj2 (Z.eqb_neq _ _) H3).
Qed.

Lemma glob_percent p : forall n s, Forall plain p -> ch_star ∉ p -> (length p < n)%nat ->
  glob n (to_glob p) s = true <-> imap_match p s.
Proof.
  induction p as [|c p IH]; intros [|n] s Hp Hs Hn; try (cbn in Hn; lia).
  - cbn. rewrite bool_decide_eq_true. split; [intros ->; constructor|by inversion 1].
  - inversion_clear Hp as [|? ? Hc Hp']. apply not_elem_of_cons in Hs as [Hcs Hs]. cbn [to_glob map]. fold (to_glob p).
    cbn [length] in Hn. destruct (Z.eqb_spec c ch_percent) as [->|Hne].
    + rewrite glob_star, star_loop_iff, imap_percent_iff.
      split; intros (a & b & H1 & H2 & H3); exists a, b; (split_and!; [done|done|]); [rewrite <- IH|rewrite IH]; eauto; lia.
    + rewrite glob_plain by done. destruct s as [|r s]; [split; [done|by inversion 1]|].
      rewrite andb_true_iff, Z.eqb_eq, IH by (done || lia). split.
      * intros [<- H]. by constructor.
      * inversion 1; subst; done.
Qed.

Lemma imap_match_count p s : imap_match p s -> ch_star ∉ p -> Count delimiter s = Count delimiter p.
Proof.
  unfold Count. induction 1 as [|c p s H1 H2 H IH|p s H IH|p x s H IH|p s H IH|p x s Hx H IH]; intros Hs;
    try (apply not_elem_of_cons in Hs as [Hc Hs]); try done.
  - rewrite !filter_cons. specialize (IH Hs). destruct (decide (c = delimiter)); cbn; lia.
  - rewrite IH by done. rewrite filter_cons. by destruct (decide (ch_percent = delimiter)).
  - rewrite filter_cons, decide_False by done. rewrite IH by (by apply not_elem_of_cons). done.
Qed.

(** A LIST pattern with percent signs matches as IMAP defines it: for patterns
    without an asterisk and without a character special to path.Match, the
    implementation accepts exactly the names RFC 3501's rules accept, case being
    significant. *)
Theorem percent_patterns_match (name pattern : list Z) :
  Forall plain pattern -> ch_star ∉ pattern ->
  match_points name pattern = true <-> imap_match pattern name.
Proof.
  intros Hp Hs. unfold match_points. rewrite bool_decide_false by done. cbn [negb].
  fold (to_glob pattern). rewrite andb_true_iff. unfold path_Match.
  assert (length (to_glob pattern) = length pattern) as -> by apply length_map.
  rewrite glob_percent by (done || lia). split; [by intros [H _]|]. intros H. split; [done|].
  apply Nat.eqb_eq. by apply imap_match_count.
Qed.

Lemma percent_patterns_match_witness :
  imap_match (code_points "Archive/%") (code_points "Archive/2024")
  /\ ~ imap_match (code_points "Archive/%") (code_points "Archive/2024/May").
Proof.
  assert (Forall plain (code_points "Archive/%")) as Hp by (repeat constructor; done).
  assert (ch_star ∉ code_points "Archive/%") as Hs by (apply (bool_decide_eq_true_1 (ch_star ∉ code_points "Archive/%")); by vm_compute).
  split; [|intros H]; [apply (percent_patterns_match _ _ Hp Hs); by vm_compute|].
  apply (percent_patterns_match _ _ Hp Hs) in H. by vm_compute in H.
Defined.

Lemma glob_no_delimiter p : forall n s, Forall plain p -> delimiter ∉ p -> glob n p s = true -> delimiter ∉ s.
Proof.
  induction p as [|c p IH]; intros [|n] s Hp Hd; try done.
  - cbn. rewrite bool_decide_eq_true. intros ->. apply not_elem_of_nil.
  - inversion_clear Hp as [|? ? Hc Hp']. apply not_elem_of_cons in Hd as [Hcd Hd].
    destruct (decide (c = ch_star)) as [->|Hne].
    + rewrite glob_star, star_loop_iff. intros (a & b & -> & Ha & Hb). apply not_elem_of_app. split; [done|]. by apply (IH n).
    + rewrite glob_plain by done. destruct s as [|r s]; [done|]. rewrite andb_true_iff, Z.eqb_eq. intros [<- H].
      apply not_elem_of_cons. split; [done|]. by apply (IH n).
Qed.

Lemma imap_match_prefix q s : Forall (fun c => c <> ch_star /\ c <> ch_percent) q -> imap_match (q ++ [ch_star]) (q ++ s).
Proof.
  induction 1 as [|c q [H1 H2] _ IH]; [|by constructor].
  cbn. induction s as [|x s IHs]; [apply im_star_end; constructor|by constructor].
Qed.

(** A LIST pattern with an asterisk stops at the hierarchy delimiter, although
    IMAP's asterisk does not: no pattern other than a lone asterisk matches a name
    with more levels than it spells out, so the children of a prefix are not listed. *)
Theorem star_patterns_miss_children (prefix rest : list Z) :
  prefix <> [] -> Forall plain prefix -> Forall (fun c => c <> ch_star /\ c <> ch_percent) prefix -> delimiter ∉ prefix ->
  imap_match (prefix ++ [ch_star]) (prefix ++ delimiter :: rest)
  /\ match_points (prefix ++ delimiter :: rest) (prefix ++ [ch_star]) = false.
Proof.
  intros Hne Hp Hw Hd. split; [by apply imap_match_prefix|].
  unfold match_points. rewrite bool_decide_true by set_solver. cbn [negb].
  destruct (path_Match _ _) eqn:E; [|done]. exfalso.
  apply glob_no_delimiter in E; [set_solver| |].
  - apply Forall_app. split; [done|]. constructor; [done|constructor].
  - apply not_elem_of_app. split; [done|]. by apply not_elem_of_cons; split; [|apply not_elem_of_nil].
Qed.
Lemma star_patterns_miss_children_witness : matchPattern "INBOX/Work" "INBOX*" = false.
Proof.
  exact (proj2 (star_patterns_miss_children (code_points "INBOX") (code_points "Work") ltac:(done) ltac:(repeat constructor; done)
    ltac:(repeat constructor; done) ltac:(apply (bool_decide_eq_true_1 (delimiter ∉ code_points "INBOX")); by vm_compute))).
Defined.

(** * Addresses *)

Lemma Index_single c s i : Index [c] s = Some i <-> (exists a b, s = a ++ c :: b /\ c ∉ a /\ length a = i).
Proof.
  revert i. induction s as [|d s IH]; intros i.
  - cbn. split; [done|]. intros (a & b & E & _). by destruct a.
  - cbn. destruct (Ascii.eqb_spec c d) as [->|Hne]; cbn.
    + split; [intros [= <-]; exists [], s; split_and!; [done|apply not_elem_of_nil|done]|].
      intros ([|x a] & b & E & Ha & <-); [done|]. injection E as -> ->. apply not_elem_of_cons in Ha as [[]_]. done.
    + destruct (Index [c] s) as [j|] eqn:Ej; cbn.
      * destruct (proj1 (IH j) eq_refl) as (a & b & -> & Ha & <-). split.
        -- intros [= <-]. exists (d :: a), b. split_and!; [done|by apply not_elem_of_cons|done].
        -- intros ([|x a'] & b' & E & Ha' & <-); [cbn in E; congruence|]. injection E as -> E. apply not_elem_of_cons in Ha' as [_ Ha'].
           specialize (proj2 (IH (length a')) ltac:(by exists a', b')). by intros [= ->].
      * split; [done|]. intros ([|x a'] & b' & E & Ha' & <-); [cbn in E; congruence|]. injection E as -> E.
        apply not_elem_of_cons in Ha' as [_ Ha']. specialize (proj2 (IH (length a')) ltac:(by exists a', b')). done.
Qed.

Lemma LastIndex_app c a b : c ∉ b -> LastIndex c (a ++ c :: b) = Some (length a).
Proof.
  intros Hb. unfold LastIndex. rewrite rev_app_distr. cbn [rev]. rewrite <- app_assoc.
  rewrite (proj2 (Index_single c _ (length b))).
  - f_equal. rewrite length_app. cbn. lia.
  - exists (rev b), (rev a). cbn. split_and!; [done|by rewrite <- rev_alt || (intros H; apply Hb; apply list_elem_of_In, in_rev; by apply list_elem_of_In in H)|apply length_rev].
Qed.

Lemma runes_valid_app x s : valid_utf8 x = true -> runes (x ++ s) = runes x ++ runes s.
Proof.
  intros H. unfold valid_utf8 in H. rewrite <- (concat_runes x) at 1. revert H. generalize (runes x) as cs.
  induction cs as [|c cs IH]; [done|]. cbn [forallb concat]. intros [Hc Hcs]%andb_true_iff.
  by rewrite <- app_assoc, runes_app, IH by done.
Qed.

Lemma drop_spaces_end rs r : is_space r = true ->
  drop_spaces (rs ++ [r]) = match drop_spaces rs with [] => [] | l => l ++ [r] end.
Proof.
  intros Hr. induction rs as [|x rs IH]; cbn; [by rewrite Hr|]. destruct (is_space x); [exact IH|done].
Qed.

Lemma TrimSpace_space x : valid_utf8 x = true -> TrimSpace (x ++ [space]) = TrimSpace x.
Proof.
  intros Hx. unfold TrimSpace. rewrite runes_valid_app by done. change (runes [space]) with [[space]].
  rewrite drop_spaces_end by done. destruct (drop_spaces (runes x)); [done|]. by rewrite rev_app_distr.
Qed.

Lemma TrimSpace_quoted x : valid_utf8 x = true -> TrimSpace (quote_mark :: x ++ [quote_mark]) = quote_mark :: x ++ [quote_mark].
Proof.
  intros Hx. unfold TrimSpace. change (quote_mark :: x ++ [quote_mark]) with ([quote_mark] ++ x ++ [quote_mark]).
  rewrite runes_app by done. rewrite runes_valid_app by done. change (runes [quote_mark]) with [[quote_mark]].
  cbn [drop_spaces]. change (is_space [quote_mark]) with false. cbv iota. cbn [rev]. rewrite rev_app_distr. cbn [rev app drop_spaces].
  change (is_space [quote_mark]) with false. cbv iota. cbn [rev]. rewrite rev_app_distr, rev_involutive. cbn [rev app concat].
  rewrite concat_app. cbn. by rewrite concat_runes.
Qed.

(** A display name the quoting leaves alone. *)
Definition plain_name (name : bytes) : bool := forallb (fun c => negb (bool_decide (c ∈ specials))) name.
Definition free_of (cs s : bytes) : Prop := forall c, c ∈ cs -> c ∉ s.

(** How an address is served once it went through the database. *)
Lemma splitAddress_angled n a :
  valid_utf8 n = true -> "<"%char ∉ a -> ">"%char ∉ a ->
  splitAddress (n ++ lit " <" ++ a ++ lit ">") = (TrimSpace n, a).
Proof.
  intros Hn H1 H2. unfold splitAddress.
  replace (n ++ lit " <" ++ a ++ lit ">") with ((n ++ [space]) ++ "<"%char :: (a ++ [">"%char]))
    by (change (lit " <") with ([space] ++ ["<"%char]); by rewrite <- !app_assoc).
  rewrite LastIndex_app by (rewrite elem_of_app, list_elem_of_singleton; by intros [?|?]).
  replace ((n ++ [space]) ++ "<"%char :: (a ++ [">"%char])) with (((n ++ [space]) ++ "<"%char :: a) ++ ">"%char :: [])
    by (by rewrite <- !app_assoc).
  rewrite LastIndex_app by apply not_elem_of_nil. rewrite (length_app (n ++ [space])). cbn [length].
  destruct (Nat.ltb_spec (length (n ++ [space])) (length (n ++ [space]) + S (length a))); [|lia].
  rewrite <- (app_assoc (n ++ [space])), take_app_length, TrimSpace_space by done. f_equal.
  rewrite drop_app_ge by lia. replace (length (n ++ [space]) + 1 - length (n ++ [space]))%nat with 1%nat by lia. cbn [app drop].
  replace (length (n ++ [space]) + S (length a) - (length (n ++ [space]) + 1))%nat with (length a) by lia.
  apply take_app_length.
Qed.

Lemma quoted_trimmed name : valid_utf8 name = true -> TrimSpace name = name ->
  TrimSpace (quoteDisplayName name) = quoteDisplayName name /\ valid_utf8 (quoteDisplayName name) = true.
Proof.
  intros Hv Ht. unfold quoteDisplayName. destruct (forallb _ name); [done|].
  assert (valid_utf8 (Replace escapes name) = true).
  { apply valid_utf8_concat in Hv as (cs & Hcs & ->). by apply replace_escapes_valid. }
  split; [by apply TrimSpace_quoted|]. apply (valid_utf8_app [quote_mark]); [done|]. by apply valid_utf8_app.
Qed.

Lemma quoted_differs name : plain_name name = false -> quoteDisplayName name <> name.
Proof.
  intros Hp. assert (name <> quoteDisplayName name) as H; [|congruence]. intros E.
  apply (f_equal length) in E. unfold quoteDisplayName in E. unfold plain_name in Hp. rewrite Hp in E.
  rewrite !length_app in E. cbn in E.
  assert (forall n s, (length s <= n)%nat -> (length s <= length (replace_fuel escapes n s))%nat) as Hlen.
  { clear. induction n as [|n IH]; intros [|a s] Hn; cbn in *; try lia.
    destruct (Ascii.eqb_spec backslash a) as [<-|]; [cbn; specialize (IH s ltac:(lia)); rewrite drop_0; lia|].
    cbn [andb]. destruct (Ascii.eqb_spec quote_mark a) as [<-|]; [cbn; specialize (IH s ltac:(lia)); rewrite drop_0; lia|].
    cbn. specialize (IH s ltac:(lia)). lia. }
  specialize (Hlen (length name) name ltac:(lia)). unfold Replace in E. lia.
Qed.

Lemma sanitiseText_id s : storable_text s -> sanitiseText s = s.
Proof.
  unfold storable_text, sanitiseText. intros H. rewrite sanitise_id by done. apply string_of_list_ascii_of_string.
Qed.

Lemma str_lit s : str (lit s) = s.
Proof. apply string_of_list_ascii_of_string. Qed.

Lemma lit_str b : lit (str b) = b.
Proof. apply list_ascii_of_string_of_list_ascii. Qed.

(** An address as metadata delivers it, with storable text. *)
Record address_ok (a : Address) : Prop := mk_address_ok {
  ao_name : storable_text (ad_Name a) /\ ad_Name a <> ""%string /\ TrimSpace (lit (ad_Name a)) = lit (ad_Name a);
  ao_mailbox : storable_text (ad_Mailbox a) /\ ad_Mailbox a <> ""%string /\ free_of ["<"%char; ">"%char; "@"%char] (lit (ad_Mailbox a));
  ao_host : storable_text (ad_Host a) /\ ad_Host a <> ""%string /\ free_of ["<"%char; ">"%char] (lit (ad_Host a))
}.

(** An address served from stored metadata is the address upstream reported,
    with one exception: a display name that needed quoting comes back with its
    quotes and escapes as part of the name. *)
Theorem address_survives_storage (a : Address) :
  address_ok a ->
  toAddress (lit (render_address a)) = mk_Address (quote_name (ad_Name a)) (ad_Mailbox a) (ad_Host a)
  /\ (plain_name (lit (ad_Name a)) = true -> toAddress (lit (render_address a)) = a)
  /\ (plain_name (lit (ad_Name a)) = false -> ad_Name (toAddress (lit (render_address a))) <> ad_Name a).
Proof.
  intros [(N1 & N2 & N3) (M1 & M2 & M3) (H1 & H2 & H3)].
  assert (toAddress (lit (render_address a)) = mk_Address (quote_name (ad_Name a)) (ad_Mailbox a) (ad_Host a)) as E.
  { unfold render_address, Addr.
    rewrite (proj2 (String.eqb_neq _ _) M2), (proj2 (String.eqb_neq _ _) H2). cbn [orb].
    rewrite (sanitiseText_id (ad_Name a) N1).
    assert (storable_text (ad_Mailbox a ++ "@" ++ ad_Host a)%string) as Hs by (repeat apply storable_app; done).
    rewrite (sanitiseText_id _ Hs). clear Hs.
    rewrite (proj2 (String.eqb_neq _ _) N2). rewrite !lit_app.
    change (quote_name (ad_Name a)) with (str (quoteDisplayName (lit (ad_Name a)))). rewrite lit_str.
    unfold storable_text in N1. apply storable_iff in N1 as [Hv _].
    destruct (quoted_trimmed (lit (ad_Name a)) Hv N3) as [Ht Hq]. unfold toAddress.
    rewrite splitAddress_angled; [|exact Hq| |].
    - rewrite Ht. change (lit (ad_Mailbox a) ++ lit "@" ++ lit (ad_Host a)) with (lit (ad_Mailbox a) ++ "@"%char :: lit (ad_Host a)).
      rewrite cut_at_first by (apply M3; set_solver). by rewrite !str_lit.
    - rewrite !elem_of_app. intros [H|[H|H]]; [by apply (M3 "<"%char); [set_solver|]|by apply list_elem_of_singleton in H|by apply (H3 "<"%char); [set_solver|]].
    - rewrite !elem_of_app. intros [H|[H|H]]; [by apply (M3 ">"%char); [set_solver|]|by apply list_elem_of_singleton in H|by apply (H3 ">"%char); [set_solver|]]. }
  split; [done|]. rewrite E. split.
  - intros Hp. unfold quote_name, quoteDisplayName. unfold plain_name, lit in Hp. rewrite Hp, str_lit. by destruct a.
  - cbn. unfold quote_name. intros Hp Eq. apply (quoted_differs _ Hp). apply (f_equal list_ascii_of_string) in Eq.
    by rewrite list_ascii_of_string_of_list_ascii in Eq.
Qed.

Definition ex_quoted : Address := mk_Address "Doe, Ann" "ann" "example.org".
Lemma free_of_dec cs s : bool_decide (Forall (fun c => c ∉ s) cs) = true -> free_of cs s.
Proof. intros H%bool_decide_eq_true c Hc. rewrite Forall_forall in H. by apply H. Qed.
Lemma ex_quoted_ok : address_ok ex_quoted.
Proof.
  constructor; (split; [by vm_compute|split; [done|]]); [by vm_compute|..]; apply free_of_dec; by vm_compute.
Qed.
Lemma address_survives_storage_witness :
  ad_Name (toAddress (lit (render_address ex_quoted))) = (dquote ++ "Doe, Ann" ++ dquote)%string
  /\ ad_Mailbox (toAddress (lit (render_address ex_quoted))) = "ann"%string.
Proof. rewrite (proj1 (address_survives_storage ex_quoted ex_quoted_ok)). split; by vm_compute. Defined.
