(* ===== verification/ImapSearch.v ===== *)
(** SEARCH (internal/imapsrv/search.go, and the criteria of
    third_party/go-imap/search.go): evaluating a criteria tree on the snapshot. *)
From S2P Require Import Prelude NumSet GoStrings Schema StoreMailboxes StoreMessages StoreBrowse.
From Stdlib Require Import String.
From stdpp Require Import strings list.
Open Scope list_scope.
Open Scope Z_scope.

(** * Criteria *)

(** [imap.SearchCriteria] without the CONDSTORE field; a zero time is [None]. *)
Inductive SearchCriteria := mk_SearchCriteria {
  sc_SeqNum : list (list Range);
  sc_UID : list (list Range);
  sc_Since : option Z;
  sc_Before : option Z;
  sc_SentSince : option Z;
  sc_SentBefore : option Z;
  sc_Header : list (string * string);
  sc_Body : list string;
  sc_Text : list string;
  sc_Flag : list string;
  sc_NotFlag : list string;
  sc_Larger : Z;
  sc_Smaller : Z;
  sc_Not : list SearchCriteria;
  sc_Or : list (SearchCriteria * SearchCriteria)
}.

Definition intersectSince (t1 t2 : option Z) : option Z :=
  match t1, t2 with
  | None, _ => t2
  | _, None => t1
  | Some a, Some b => if b <? a then t1 else t2
  end.
Definition intersectBefore (t1 t2 : option Z) : option Z :=
  match t1, t2 with
  | None, _ => t2
  | _, None => t1
  | Some a, Some b => if a <? b then t1 else t2
  end.

(** [And]: the decoder folds each further search key into the criteria with it. *)
Definition And (c d : SearchCriteria) : SearchCriteria :=
  {| sc_SeqNum := sc_SeqNum c ++ sc_SeqNum d; sc_UID := sc_UID c ++ sc_UID d;
     sc_Since := intersectSince (sc_Since c) (sc_Since d);
     sc_Before := intersectBefore (sc_Before c) (sc_Before d);
     sc_SentSince := intersectSince (sc_SentSince c) (sc_SentSince d);
     sc_SentBefore := intersectBefore (sc_SentBefore c) (sc_SentBefore d);
     sc_Header := sc_Header c ++ sc_Header d; sc_Body := sc_Body c ++ sc_Body d; sc_Text := sc_Text c ++ sc_Text d;
     sc_Flag := sc_Flag c ++ sc_Flag d; sc_NotFlag := sc_NotFlag c ++ sc_NotFlag d;
     sc_Larger := if (sc_Larger c =? 0) || (sc_Larger c <? sc_Larger d) then sc_Larger d else sc_Larger c;
     sc_Smaller := if (sc_Smaller c =? 0) || (sc_Smaller d <? sc_Smaller c) then sc_Smaller d else sc_Smaller c;
     sc_Not := sc_Not c ++ sc_Not d; sc_Or := sc_Or c ++ sc_Or d |}.

Definition no_criteria : SearchCriteria := mk_SearchCriteria [] [] None None None None [] [] [] [] [] 0 0 [] [].

(** * Matching *)

Definition containsFold (haystack needle : string) : bool :=
  if String.eqb needle "" then true else Contains (ToLower haystack) (ToLower needle).
Definition hasFlag (flags : list string) (want : string) : bool := existsb (fun flag => EqualFold flag want) flags.
Definition dateAtLeast (date : option Z) (bound : Z) : bool := match date with Some d => bound <=? d | None => false end.
Definition dateBefore (date : option Z) (bound : Z) : bool := match date with Some d => d <? bound | None => false end.

Definition headerMatches (m : MessageSummary) (key value : string) : bool :=
  let k := ToLower key in
  if String.eqb k "subject" then containsFold (ms_Subject m) value
  else if String.eqb k "from" then containsFold (GoStrings.Join (ms_From m) " ") value
  else false.

Definition text_matches (m : MessageSummary) (text : string) : bool :=
  containsFold (ms_Subject m) text || containsFold (ms_Preview m) text
  || containsFold (GoStrings.Join (ms_From m) " ") text.

Definition bounded (b : option Z) (test : Z -> bool) : bool := match b with Some b => test b | None => true end.

(** The conditions of one level, besides Not and Or. *)
Definition level_matches (m : MessageSummary) (seqNum : Z) (c : SearchCriteria) : bool :=
  forallb (fun set => Set_Contains set seqNum) (sc_SeqNum c)
  && forallb (fun set => Set_Contains set (u32 (ms_LocalUID m))) (sc_UID c)
  && forallb (hasFlag (ms_Flags m)) (sc_Flag c)
  && forallb (fun flag => negb (hasFlag (ms_Flags m) flag)) (sc_NotFlag c)
  && negb ((0 <? sc_Larger c) && (ms_Size m <=? sc_Larger c))
  && negb ((0 <? sc_Smaller c) && (sc_Smaller c <=? ms_Size m))
  && bounded (sc_Since c) (dateAtLeast (ms_InternalDate m))
  && bounded (sc_Before c) (dateBefore (ms_InternalDate m))
  && forallb (fun h => headerMatches m h.1 h.2) (sc_Header c)
  && forallb (containsFold (ms_Preview m)) (sc_Body c)
  && forallb (text_matches m) (sc_Text c).

Fixpoint matchesCriteria (m : MessageSummary) (seqNum : Z) (c : SearchCriteria) : bool :=
  level_matches m seqNum c
  && forallb (fun n => negb (matchesCriteria m seqNum n)) (sc_Not c)
  && forallb (fun o => matchesCriteria m seqNum o.1 || matchesCriteria m seqNum o.2) (sc_Or c).

(** * [Search] *)

Inductive NumKind := NumKindSeq | NumKindUID.

Record SearchData := mk_SearchData { sd_All : list Range; sd_Min : Z; sd_Max : Z; sd_Count : Z }.

(** The matching messages with their sequence numbers. *)
Fixpoint matching (c : SearchCriteria) (i : Z) (snapshot : list MessageSummary) : list (Z * MessageSummary) :=
  match snapshot with
  | [] => []
  | m :: snapshot =>
      let rest := matching c (i + 1) snapshot in
      if matchesCriteria m (u32 (i + 1)) c then (u32 (i + 1), m) :: rest else rest
  end.

Definition search_snapshot (kind : NumKind) (c : SearchCriteria) (snapshot : list MessageSummary) : SearchData :=
  let found := matching c 0 snapshot in
  let seqNums := map fst found in
  let uids := map (fun x => u32 (ms_LocalUID x.2)) found in
  {| sd_All := match kind with NumKindUID => Set_AddNum [] uids | NumKindSeq => Set_AddNum [] seqNums end;
     sd_Min := hd 0 seqNums; sd_Max := List.last seqNums 0;
     sd_Count := u32 (Z.of_nat (length seqNums)) |}.

(** * The criteria tree *)

Lemma matchesCriteria_unfold m n c : matchesCriteria m n c = level_matches m n c
  && forallb (fun x => negb (matchesCriteria m n x)) (sc_Not c)
  && forallb (fun o => matchesCriteria m n o.1 || matchesCriteria m n o.2) (sc_Or c).
Proof. by destruct c. Qed.

(** Sizes on the wire are not negative. *)
Definition sizes_ok (c : SearchCriteria) : Prop := 0 <= sc_Larger c /\ 0 <= sc_Smaller c.

Lemma larger_and a b size : 0 <= a -> 0 <= b ->
  let l := if (a =? 0) || (a <? b) then b else a in
  negb ((0 <? l) && (size <=? l)) = negb ((0 <? a) && (size <=? a)) && negb ((0 <? b) && (size <=? b)).
Proof.
  intros Ha Hb l. apply eq_iff_eq_true. unfold l. destruct (Z.eqb_spec a 0), (Z.ltb_spec a b); cbn [orb];
    rewrite !andb_true_iff, !negb_true_iff, !andb_false_iff, !Z.ltb_ge, !Z.leb_gt; lia.
Qed.
Lemma smaller_and a b size : 0 <= a -> 0 <= b -> (a = 0 \/ 0 < b) ->
  let l := if (a =? 0) || (b <? a) then b else a in
  negb ((0 <? l) && (l <=? size)) = negb ((0 <? a) && (a <=? size)) && negb ((0 <? b) && (b <=? size)).
Proof.
  intros Ha Hb Hab l. apply eq_iff_eq_true. unfold l. destruct (Z.eqb_spec a 0), (Z.ltb_spec b a); cbn [orb];
    rewrite !andb_true_iff, !negb_true_iff, !andb_false_iff, !Z.ltb_ge, !Z.leb_gt; lia.
Qed.

Lemma since_and a b d : bounded (intersectSince a b) (dateAtLeast d) = bounded a (dateAtLeast d) && bounded b (dateAtLeast d).
Proof.
  destruct a as [a|], b as [b|]; cbn; rewrite ?andb_true_r; try done.
  destruct d as [d|]; [|by destruct (b <? a)]. destruct (Z.ltb_spec b a); cbn; apply eq_iff_eq_true;
    rewrite andb_true_iff, !Z.leb_le; lia.
Qed.
Lemma before_and a b d : bounded (intersectBefore a b) (dateBefore d) = bounded a (dateBefore d) && bounded b (dateBefore d).
Proof.
  destruct a as [a|], b as [b|]; cbn; rewrite ?andb_true_r; try done.
  destruct d as [d|]; [|by destruct (a <? b)]. destruct (Z.ltb_spec a b); cbn; apply eq_iff_eq_true;
    rewrite andb_true_iff, !Z.ltb_lt; lia.
Qed.

Lemma level_and m n c d : sizes_ok c -> sizes_ok d -> (sc_Smaller c = 0 \/ 0 < sc_Smaller d) ->
  level_matches m n (And c d) = level_matches m n c && level_matches m n d.
Proof.
  intros [Hc1 Hc2] [Hd1 Hd2] Hs. unfold level_matches, And.
  cbn [sc_SeqNum sc_UID sc_Since sc_Before sc_Header sc_Body sc_Text sc_Flag sc_NotFlag sc_Larger sc_Smaller].
  rewrite !forallb_app, larger_and, smaller_and, since_and, before_and by done.
  apply eq_iff_eq_true. rewrite !andb_true_iff. tauto.
Qed.

(** The decoder's folding of search keys is a conjunction: for criteria of any
    shape, a message matches the folded criteria exactly when it matches both, unless
    the first bounds the size from above and the second does not; then the bound is
    dropped, and a message of any size can match. *)
Theorem search_keys_conjoin (m : MessageSummary) (n : Z) (c d : SearchCriteria) :
  sizes_ok c -> sizes_ok d ->
  ((sc_Smaller c = 0 \/ 0 < sc_Smaller d) ->
     matchesCriteria m n (And c d) = matchesCriteria m n c && matchesCriteria m n d)
  /\ (0 < sc_Smaller c -> sc_Smaller d = 0 -> sc_Smaller (And c d) = 0).
Proof.
  intros Hc Hd. split.
  - intros Hs. rewrite !matchesCriteria_unfold, level_and by done. unfold And. cbn [sc_Not sc_Or].
    rewrite !forallb_app. apply eq_iff_eq_true. rewrite !andb_true_iff. tauto.
  - intros H1 H2. unfold And. cbn [sc_Smaller]. rewrite H2. destruct (Z.ltb_spec 0 (sc_Smaller c)); [|lia].
    by rewrite orb_true_r.
Qed.

Definition smaller_than (n : Z) : SearchCriteria := mk_SearchCriteria [] [] None None None None [] [] [] [] [] 0 n [] [].
Definition since (t : Z) : SearchCriteria := mk_SearchCriteria [] [] (Some t) None None None [] [] [] [] [] 0 0 [] [].
Definition ex_big : MessageSummary := mk_MessageSummary 1 1 7 11 "s" [] [] [] "" (Some 50) None "" 9000 [] BodyStored false.
(** SMALLER 5000 SINCE ...: the message of 9000 octets does not match SMALLER 5000,
    yet matches both together. *)
Lemma search_keys_conjoin_witness :
  matchesCriteria ex_big 1 (And (since 10) (smaller_than 5000)) = false
  /\ matchesCriteria ex_big 1 (And (smaller_than 5000) (since 10)) = true.
Proof.
  assert (sizes_ok (since 10) /\ sizes_ok (smaller_than 5000)) as [H1 H2] by (unfold sizes_ok; cbn; lia).
  split; [|by vm_compute].
  rewrite (proj1 (search_keys_conjoin ex_big 1 (since 10) (smaller_than 5000) H1 H2) (or_introl eq_refl)). by vm_compute.
Defined.

(** The dates of the message's own Date header are never looked at: whatever
    SENTSINCE and SENTBEFORE say, a criteria matches the same messages. *)
Theorem sent_dates_ignored (m : MessageSummary) (n : Z) (c : SearchCriteria) (since before : option Z) :
  matchesCriteria m n (mk_SearchCriteria (sc_SeqNum c) (sc_UID c) (sc_Since c) (sc_Before c) since before (sc_Header c)
    (sc_Body c) (sc_Text c) (sc_Flag c) (sc_NotFlag c) (sc_Larger c) (sc_Smaller c) (sc_Not c) (sc_Or c))
  = matchesCriteria m n c.
Proof. by destruct c. Qed.

(** * The result *)

Lemma elem_of_matching c i snapshot n m : Z.of_nat (length snapshot) + i < 4294967296 -> 0 <= i ->
  (n, m) ∈ matching c i snapshot <-> exists k, snapshot !! k = Some m /\ n = i + 1 + Z.of_nat k
    /\ matchesCriteria m n c = true.
Proof.
  revert i. induction snapshot as [|x snapshot IH]; intros i Hlen Hi.
  { cbn. split; [by intros ?%elem_of_nil|]. by intros (k & Hk & _). }
  cbn [length] in Hlen. cbn [matching]. assert (u32 (i + 1) = i + 1) as Hu by (apply u32_id; unfold is_u32; lia). rewrite Hu.
  assert ((n, m) ∈ matching c (i + 1) snapshot <-> exists k, (x :: snapshot) !! S k = Some m /\ n = i + 1 + Z.of_nat (S k)
    /\ matchesCriteria m n c = true) as IH'.
  { rewrite IH by lia. cbn. split; intros (k & H1 & -> & H3); exists k; (split_and!; [done|lia|]); revert H3;
      replace (i + 1 + 1 + Z.of_nat k) with (i + 1 + Z.of_nat (S k)) by lia; done. }
  destruct (matchesCriteria x (i + 1) c) eqn:E.
  - rewrite elem_of_cons, IH'. split.
    + intros [[= -> ->]|(k & H)]; [exists O; split_and!; [done|lia|done]|by exists (S k)].
    + intros ([|k] & H1 & H2 & H3); [left; injection H1 as ->; f_equal; lia|right; by exists k].
  - rewrite IH'. split; [intros (k & H); by exists (S k)|].
    intros ([|k] & H1 & H2 & H3); [|by exists k]. injection H1 as ->.
    replace n with (i + 1) in H3 by lia. congruence.
Qed.

Lemma matching_seqs_sorted c i snapshot : Z.of_nat (length snapshot) + i < 4294967296 -> 0 <= i ->
  StronglySorted Z.lt (map fst (matching c i snapshot)) /\ Forall (fun n => i < n < 4294967296) (map fst (matching c i snapshot)).
Proof.
  revert i. induction snapshot as [|x snapshot IH]; intros i Hlen Hi; [split; constructor|].
  cbn [length] in Hlen. cbn [matching]. assert (u32 (i + 1) = i + 1) as -> by (apply u32_id; unfold is_u32; lia).
  destruct (IH (i + 1)) as [H1 H2]; [lia..|].
  destruct (matchesCriteria x (i + 1) c); cbn [map].
  - split; constructor; cbn; [done|eapply Forall_impl; [exact H2|cbn; lia]|lia|eapply Forall_impl; [exact H2|cbn; lia]].
  - split; [done|]. eapply Forall_impl; [exact H2|cbn; lia].
Qed.

(** UIDs as the store gives them out. *)
Definition uids_ok (snapshot : list MessageSummary) : Prop :=
  Forall (fun m => 0 < ms_LocalUID m < 4294967296) snapshot.

Lemma sorted_NoDup (l : list Z) : StronglySorted Z.lt l -> NoDup l.
Proof.
  induction 1 as [|x l _ IH Hx]; constructor; [|done]. intros H. rewrite Forall_forall in Hx. specialize (Hx x H). lia.
Qed.
Lemma last_sorted_max (l : list Z) x : StronglySorted Z.lt l -> x ∈ l -> x <= List.last l 0 /\ List.last l 0 ∈ l.
Proof.
  intros Hs. revert x. induction Hs as [|y l Hs IH Hy]; intros x; [by intros ?%elem_of_nil|].
  destruct l as [|z l]; [intros ->%list_elem_of_singleton; cbn; split; [lia|left]|].
  change (List.last (y :: z :: l) 0) with (List.last (z :: l) 0). rewrite elem_of_cons. intros [->|Hx].
  - destruct (IH z ltac:(left)) as [H1 H2]. apply Forall_cons in Hy as [Hy _]. split; [lia|by right].
  - destruct (IH x Hx) as [H1 H2]. split; [done|by right].
Qed.
Lemma hd_sorted_min (l : list Z) x : StronglySorted Z.lt l -> x ∈ l -> hd 0 l <= x /\ hd 0 l ∈ l.
Proof.
  intros Hs Hx. destruct Hs as [|y l Hs Hy]; [by apply elem_of_nil in Hx|]. cbn. split; [|left].
  apply elem_of_cons in Hx as [->|Hx]; [lia|]. rewrite Forall_forall in Hy. specialize (Hy x Hx). lia.
Qed.

(** [C31] SEARCH returns exactly the matching messages: the set contains a sequence
    number (or, for UID SEARCH, a UID) if and only if the message there matches the
    criteria, and COUNT is the number of matches.  MIN and MAX are the first and last
    matching sequence numbers - also for UID SEARCH, where they should be UIDs. *)
Theorem search_exact (kind : NumKind) (c : SearchCriteria) (snapshot : list MessageSummary) :
  uids_ok snapshot -> Z.of_nat (length snapshot) < 4294967296 ->
  let hit k m := snapshot !! k = Some m /\ matchesCriteria m (1 + Z.of_nat k) c = true in
  let d := search_snapshot kind c snapshot in
  (forall q, 0 < q < 4294967296 -> Set_Contains (sd_All d) q = true <-> exists k m, hit k m
     /\ q = match kind with NumKindSeq => 1 + Z.of_nat k | NumKindUID => ms_LocalUID m end)
  /\ (exists l : list Z, NoDup l /\ sd_Count d = Z.of_nat (length l)
        /\ forall n, n ∈ l <-> exists k m, hit k m /\ n = 1 + Z.of_nat k)
  /\ (forall k m, hit k m -> sd_Min d <= 1 + Z.of_nat k <= sd_Max d
        /\ (exists k1 m1, hit k1 m1 /\ sd_Min d = 1 + Z.of_nat k1) /\ (exists k2 m2, hit k2 m2 /\ sd_Max d = 1 + Z.of_nat k2)).
Proof.
  intros Hu Hlen hit d. set (found := matching c 0 snapshot).
  assert (forall n m, (n, m) ∈ found <-> exists k, hit k m /\ n = 1 + Z.of_nat k) as Hfound.
  { intros n m. unfold found, hit. rewrite elem_of_matching by lia.
    split; [intros (k & H1 & -> & H3)|intros (k & [H1 H3] & ->)]; exists k; split_and!; try done;
      by replace (0 + 1 + Z.of_nat k) with (1 + Z.of_nat k) in * by lia. }
  destruct (matching_seqs_sorted c 0 snapshot ltac:(lia) ltac:(lia)) as [Hsort Hrange]. fold found in Hsort, Hrange.
  assert (forall n, n ∈ map fst found <-> exists k m, hit k m /\ n = 1 + Z.of_nat k) as Hseqs.
  { intros n. rewrite list_elem_of_fmap. split.
    - intros ([n' m] & -> & H). apply Hfound in H as (k & H1 & H2). by exists k, m.
    - intros (k & m & H1 & H2). exists (n, m). split; [done|]. apply Hfound. by exists k. }
  assert (Forall is_u32 (map fst found)) as Hu1 by (eapply Forall_impl; [exact Hrange|unfold is_u32; cbn; lia]).
  assert (Forall is_u32 (map (fun x => u32 (ms_LocalUID x.2)) found)) as Hu2.
  { apply Forall_forall. intros x (y & -> & _)%list_elem_of_fmap. apply u32_range. }
  split_and!.
  - intros q Hq. unfold d, search_snapshot. cbn [sd_All]. fold found.
    destruct kind.
    + destruct (Set_AddNum_spec _ [] I Hu1) as [Hw Hin]. rewrite Set_Contains_spec by (done || unfold is_u32; lia).
      rewrite value_nz, Hin by (unfold is_u32; lia). rewrite in_set_nil, Hseqs. split; [tauto|split; [lia|tauto]].
    + destruct (Set_AddNum_spec _ [] I Hu2) as [Hw Hin]. rewrite Set_Contains_spec by (done || unfold is_u32; lia).
      rewrite value_nz, Hin by (unfold is_u32; lia). rewrite in_set_nil, list_elem_of_fmap. split.
      * intros [_ [[]|([n m] & -> & H)]]. apply Hfound in H as (k & H1 & H2). exists k, m. split; [done|]. cbn.
        apply u32_id. pose proof (Forall_lookup_1 _ _ _ _ Hu (proj1 H1)) as Hm. cbn in Hm. unfold is_u32. lia.
      * intros (k & m & H1 & ->). split; [lia|]. right. exists (1 + Z.of_nat k, m). split.
        -- cbn. symmetry. apply u32_id. unfold is_u32. lia.
        -- apply Hfound. by exists k.
  - exists (map fst found). split_and!; [by apply sorted_NoDup| |done].
    unfold d, search_snapshot. cbn [sd_Count]. fold found. apply u32_id. unfold is_u32.
    assert (forall l i, (length (matching c i l) <= length l)%nat) as Hl.
    { induction l as [|x l IH]; intros i; cbn; [lia|]. destruct (matchesCriteria _ _ _); cbn; specialize (IH (i + 1)); lia. }
    specialize (Hl snapshot 0). rewrite length_map. fold found in Hl. lia.
  - intros k m Hk. assert (1 + Z.of_nat k ∈ map fst found) as Hin by (apply Hseqs; by exists k, m).
    destruct (hd_sorted_min _ _ Hsort Hin) as [H1 H2]. destruct (last_sorted_max _ _ Hsort Hin) as [H3 H4].
    unfold d, search_snapshot. cbn [sd_Min sd_Max]. fold found. split; [lia|].
    apply Hseqs in H2 as (k1 & m1 & H2 & E1). apply Hseqs in H4 as (k2 & m2 & H4 & E2).
    split; [by exists k1, m1|by exists k2, m2].
Qed.

Definition ex_snapshot : list MessageSummary :=
  [mk_MessageSummary 1 1 7 11 "Hello" [] [] [] "" None None "" 10 [] BodyStored false;
   mk_MessageSummary 2 2 9 12 "World" [] [] [] "" None None "" 10 [] BodyStored false].
Definition subject (s : string) : SearchCriteria := mk_SearchCriteria [] [] None None None None [("Subject"%string, s)] [] [] [] [] 0 0 [] [].
Lemma search_exact_witness :
  Set_Contains (sd_All (search_snapshot NumKindUID (subject "world") ex_snapshot)) 9 = true
  /\ Set_Contains (sd_All (search_snapshot NumKindUID (subject "world") ex_snapshot)) 7 = false
  /\ sd_Min (search_snapshot NumKindUID (subject "world") ex_snapshot) = 2.
Proof.
  assert (uids_ok ex_snapshot) as Hu by (repeat constructor; cbn; lia).
  pose proof (proj1 (search_exact NumKindUID (subject "world") ex_snapshot Hu ltac:(by vm_compute))) as H. cbv beta in H.
  split; [|split; [|by vm_compute]].
  - apply (H 9); [lia|]. exists 1%nat. eexists. split; [split; [reflexivity|by vm_compute]|reflexivity].
  - destruct (Set_Contains _ 7) eqn:E; [|done]. apply (H 7) in E as (k & m & [Hk Hm] & Eq); [|lia].
    destruct k as [|[|k]]; [|injection Hk as <-; discriminate Eq|done]. injection Hk as <-. by vm_compute in Hm.
Defined.
