(* ===== verification/Crypto.v ===== *)
(** Password hashes and sealed credentials (internal/crypto).

    Argon2, HKDF and AES-GCM are libraries: the key derivation is the argument
    [IDKey], the authenticated cipher an instance of [AEAD].  Random bytes are
    arguments too. *)
From S2P Require Import Prelude GoStrings Retry Text GoParse.
From Stdlib Require Import String.
From stdpp Require Import strings pretty list.
Open Scope list_scope.
Open Scope Z_scope.

(** * encoding/base64, RawStdEncoding *)

Definition b64_char (n : Z) : ascii :=
  byte (Z.to_nat (if n <? 26 then 65 + n else if n <? 52 then 71 + n else if n <? 62 then n - 4 else if n =? 62 then 43 else 47)).
Definition b64_value (c : ascii) : option Z :=
  let n := code c in
  if (65 <=? n) && (n <=? 90) then Some (n - 65)
  else if (97 <=? n) && (n <=? 122) then Some (n - 71)
  else if (48 <=? n) && (n <=? 57) then Some (n + 4)
  else if n =? 43 then Some 62 else if n =? 47 then Some 63 else None.

Fixpoint EncodeToString (data : bytes) : bytes :=
  match data with
  | [] => []
  | [a] => [b64_char (code a / 4); b64_char (code a mod 4 * 16)]
  | [a; b] => [b64_char (code a / 4); b64_char (code a mod 4 * 16 + code b / 16); b64_char (code b mod 16 * 4)]
  | a :: b :: c :: data =>
      b64_char (code a / 4) :: b64_char (code a mod 4 * 16 + code b / 16)
      :: b64_char (code b mod 16 * 4 + code c / 64) :: b64_char (code c mod 64) :: EncodeToString data
  end.

(** The sextets of the text; line breaks are skipped, other characters refused. *)
Fixpoint sextets (s : bytes) : option (list Z) :=
  match s with
  | [] => Some []
  | c :: s =>
      if bool_decide (c ∈ [byte 13; byte 10]) then sextets s
      else v ← b64_value c; (fun l => v :: l) <$> sextets s
  end.
Definition zbyte (n : Z) : ascii := byte (Z.to_nat n).
(** A last group of two or three sextets drops its spare bits; one alone is an error. *)
Fixpoint unpack (l : list Z) : option bytes :=
  match l with
  | [] => Some []
  | [_] => None
  | [a; b] => Some [zbyte (a * 4 + b / 16)]
  | [a; b; c] => Some [zbyte (a * 4 + b / 16); zbyte (b mod 16 * 16 + c / 4)]
  | a :: b :: c :: d :: l =>
      (fun r => zbyte (a * 4 + b / 16) :: zbyte (b mod 16 * 16 + c / 4) :: zbyte (c mod 4 * 64 + d) :: r) <$> unpack l
  end.
Definition DecodeString (s : bytes) : option bytes := l ← sextets s; unpack l.

(** * Text parsing *)

(** [strings.Split] at a byte. *)
Fixpoint split_at (c : ascii) (s : bytes) : list bytes :=
  match s with
  | [] => [[]]
  | d :: s =>
      if Ascii.eqb d c then [] :: split_at c s
      else match split_at c s with x :: l => (d :: x) :: l | [] => [[d]] end
  end.

(** The longest run of digits and its value. *)
Fixpoint digits (s : bytes) (acc : Z) : Z * bytes :=
  match s with
  | c :: s' => match digit c with Some d => digits s' (acc * 10 + d) | None => (acc, s) end
  | [] => (acc, [])
  end.
Fixpoint skip_blanks (s : bytes) : bytes :=
  match s with c :: s' => if bool_decide (c ∈ [" "%char; byte 9]) then skip_blanks s' else s | [] => [] end.

(** [fmt.Sscanf]'s [%d] into an unsigned integer of [bits] bits and into an int.
    An overflow is an error. *)
Definition scan_uint (bits : Z) (s : bytes) : option (Z * bytes) :=
  match skip_blanks s with
  | c :: s' =>
      d ← digit c;
      let '(n, rest) := digits (c :: s') 0 in
      if n <? 2 ^ bits then Some (n, rest) else None
  | [] => None
  end.
Definition scan_int (s : bytes) : option (Z * bytes) :=
  let s := skip_blanks s in
  let '(sign, s) := match s with
    | c :: s' => if Ascii.eqb c "-"%char then (-1, s') else if Ascii.eqb c "+"%char then (1, s') else (1, s)
    | [] => (1, s) end in
  match s with
  | c :: s' =>
      d ← digit c;
      let '(n, rest) := digits (c :: s') 0 in
      let v := sign * n in
      if (-9223372036854775808 <=? v) && (v <? 9223372036854775808) then Some (v, rest) else None
  | [] => None
  end.
(** A literal of the format. *)
Definition scan_lit (l : string) (s : bytes) : option bytes :=
  if prefixb (lit l) s then Some (drop (length (lit l)) s) else None.

(** * Passwords *)

Definition argonTime : Z := 1.
Definition argonMemory : Z := 64 * 1024.
Definition argonThreads : Z := 4.
Definition argonKeyLen : Z := 32.
Definition argonSaltLen : Z := 16.
(** [argon2.Version] *)
Definition argonVersion : Z := 19.

Definition ErrInvalidHash : err := ErrText "invalid password hash".

Record argonParams := mk_argonParams { memory : Z; time : Z; threads : Z }.

Definition decodeHash (encoded : bytes) : err + (argonParams * bytes * bytes) :=
  match split_at "$"%char encoded with
  | [_; p1; p2; p3; p4; p5] =>
      if negb (bool_decide (p1 = lit "argon2id")) then inl ErrInvalidHash else
      match (r ← scan_lit "v=" p2; scan_int r) with
      | None => inl ErrInvalidHash
      | Some (version, _) =>
          if negb (version =? argonVersion)
          then inl (ErrWrap "" ErrInvalidHash (": unsupported argon2 version " ++ Itoa version)) else
          match (r ← scan_lit "m=" p3; '(m, r) ← scan_uint 32 r; r ← scan_lit ",t=" r; '(t, r) ← scan_uint 32 r;
                 r ← scan_lit ",p=" r; '(p, _) ← scan_uint 8 r; Some (mk_argonParams m t p)) with
          | None => inl ErrInvalidHash
          | Some params =>
              match DecodeString p4, DecodeString p5 with
              | Some salt, Some key => inr (params, salt, key)
              | _, _ => inl ErrInvalidHash
              end
          end
      end
  | _ => inl ErrInvalidHash
  end.

Section passwords.
(** [argon2.IDKey] password salt time memory threads keyLen *)
Variable IDKey : bytes -> bytes -> Z -> Z -> Z -> Z -> bytes.

(** [HashPassword] with the salt that was drawn, or the error of drawing it. *)
Definition HashPassword (salt : err + bytes) (password : bytes) : err + bytes :=
  match salt with
  | inl e => inl (ErrWrap "generating salt: " e "")
  | inr salt =>
      let key := IDKey password salt argonTime argonMemory argonThreads argonKeyLen in
      inr (lit "$argon2id$v=" ++ lit (Itoa argonVersion) ++ lit "$m=" ++ lit (Itoa argonMemory)
        ++ lit ",t=" ++ lit (Itoa argonTime) ++ lit ",p=" ++ lit (Itoa argonThreads)
        ++ lit "$" ++ EncodeToString salt ++ lit "$" ++ EncodeToString key)
  end.

Definition VerifyPassword (password encoded : bytes) : err + bool :=
  match decodeHash encoded with
  | inl e => inl e
  | inr (params, salt, want) =>
      let got := IDKey password salt (time params) (memory params) (threads params) (u32 (Z.of_nat (length want))) in
      inr (bool_decide (got = want))
  end.
End passwords.

(** * Sealing *)

(** [cipher.AEAD], with its documented law. *)
Class AEAD (K : Type) := {
  NonceSize : K -> nat;
  aead_Seal : K -> bytes -> bytes -> bytes;              (* nonce, plaintext *)
  aead_Open : K -> bytes -> bytes -> err + bytes         (* nonce, ciphertext *)
}.
Class AEADLaws (K : Type) `{AEAD K} := {
  open_seal : forall k nonce p, length nonce = NonceSize k -> aead_Open k nonce (aead_Seal k nonce p) = inr p
}.

Section sealing.
Context {K : Type} `{AEAD K}.
(** HKDF-SHA256 of the master key under a purpose, and AES-GCM over its output. *)
Variable derive : bytes -> bytes -> err + K.

Definition ErrNoKey : err := ErrText "no encryption master key configured".
Definition purpose : bytes := lit "imapped upstream credentials v1".

Definition NewSealer (masterKey : bytes) : err + K :=
  match masterKey with [] => inl ErrNoKey | _ => derive masterKey purpose end.

(** [Seal] with the nonce that was drawn; [SealString] is the same on bytes. *)
Definition Seal (k : K) (nonce : err + bytes) (plaintext : bytes) : err + bytes :=
  match nonce with
  | inl e => inl (ErrWrap "generating nonce: " e "")
  | inr nonce => inr (nonce ++ aead_Seal k nonce plaintext)
  end.
Definition SealString (k : K) (nonce : err + bytes) (plaintext : string) : err + bytes := Seal k nonce (lit plaintext).

Definition Open (k : K) (ciphertext : bytes) : err + bytes :=
  let nonceSize := NonceSize k in
  if (length ciphertext <? nonceSize)%nat then inl (ErrText "ciphertext is too short to contain a nonce") else
  match aead_Open k (take nonceSize ciphertext) (drop nonceSize ciphertext) with
  | inl e => inl (ErrWrap "decrypting credential (wrong master key, or the stored value was corrupted): " e "")
  | inr p => inr p
  end.
Definition OpenString (k : K) (ciphertext : bytes) : err + string :=
  match Open k ciphertext with inl e => inl e | inr p => inr (string_of_list_ascii p) end.
End sealing.

Example b64_1 : EncodeToString (lit "hello") = lit "aGVsbG8". Proof. reflexivity. Qed.
Example b64_2 : DecodeString (lit "aGVsbG8") = Some (lit "hello"). Proof. reflexivity. Qed.

(** * Base64 round trip *)

Lemma code_range a : 0 <= code a < 256.
Proof. unfold code. pose proof (nat_ascii_bounded a). lia. Qed.
Lemma zbyte_code a n : n = code a -> zbyte n = a.
Proof. intros ->. unfold zbyte, byte, code. by rewrite Nat2Z.id, ascii_nat_embedding. Qed.

Definition is_sextet (n : Z) : Prop := 0 <= n < 64.

Lemma sextet_cases (P : Z -> Prop) : (forall k, (k < 64)%nat -> P (Z.of_nat k)) -> forall n, is_sextet n -> P n.
Proof. intros H n Hn. unfold is_sextet in Hn. rewrite <- (Z2Nat.id n) by lia. apply H. lia. Qed.

Lemma b64_char_ok n : is_sextet n ->
  b64_value (b64_char n) = Some n /\ b64_char n ∉ [byte 13; byte 10; "$"%char].
Proof.
  revert n. apply sextet_cases. intros k Hk.
  assert (bool_decide (b64_value (b64_char (Z.of_nat k)) = Some (Z.of_nat k)
    /\ b64_char (Z.of_nat k) ∉ [byte 13; byte 10; "$"%char]) = true) as H; [|by apply bool_decide_eq_true in H].
  do 64 (destruct k as [|k]; [reflexivity|]). lia.
Qed.

Lemma sextets_encoded l : Forall is_sextet l -> sextets (map b64_char l) = Some l.
Proof.
  induction 1 as [|n l Hn _ IH]; [done|]. cbn [map sextets]. destruct (b64_char_ok n Hn) as [Hv Hc].
  rewrite bool_decide_false by set_solver. rewrite Hv. cbn. by rewrite IH.
Qed.

(** The sextets of a text. *)
Fixpoint pack (data : bytes) : list Z :=
  match data with
  | [] => []
  | [a] => [code a / 4; code a mod 4 * 16]
  | [a; b] => [code a / 4; code a mod 4 * 16 + code b / 16; code b mod 16 * 4]
  | a :: b :: c :: data => code a / 4 :: code a mod 4 * 16 + code b / 16 :: code b mod 16 * 4 + code c / 64 :: code c mod 64 :: pack data
  end.

Lemma bytes_ind3 (P : bytes -> Prop) : P [] -> (forall a, P [a]) -> (forall a b, P [a; b]) ->
  (forall a b c l, P l -> P (a :: b :: c :: l)) -> forall l, P l.
Proof.
  intros H0 H1 H2 H3. fix IH 1. intros [|a [|b [|c l]]]; [exact H0|apply H1|apply H2|]. apply H3, IH.
Qed.

Lemma EncodeToString_pack data : EncodeToString data = map b64_char (pack data).
Proof. induction data as [| | |a b c l IH] using bytes_ind3; try done. cbn [EncodeToString pack map]. by rewrite IH. Qed.

Lemma pack_sextets data : Forall is_sextet (pack data).
Proof.
  induction data as [|a|a b|a b c l IH] using bytes_ind3; cbn [pack]; [constructor|..].
  - pose proof (code_range a). repeat apply Forall_cons_2; try apply Forall_nil_2; unfold is_sextet; Z.to_euclidean_division_equations; lia.
  - pose proof (code_range a). pose proof (code_range b).
    repeat apply Forall_cons_2; try apply Forall_nil_2; unfold is_sextet; Z.to_euclidean_division_equations; lia.
  - pose proof (code_range a). pose proof (code_range b). pose proof (code_range c).
    repeat apply Forall_cons_2; try exact IH; unfold is_sextet; Z.to_euclidean_division_equations; lia.
Qed.

Lemma unpack_pack data : unpack (pack data) = Some data.
Proof.
  induction data as [|a|a b|a b c l IH] using bytes_ind3; cbn [pack unpack]; [done| | |].
  - pose proof (code_range a). do 2 f_equal. apply zbyte_code. Z.to_euclidean_division_equations; lia.
  - pose proof (code_range a). pose proof (code_range b).
    rewrite (zbyte_code a), (zbyte_code b); [done|..]; Z.to_euclidean_division_equations; lia.
  - pose proof (code_range a). pose proof (code_range b). pose proof (code_range c). rewrite IH. cbn.
    rewrite (zbyte_code a), (zbyte_code b), (zbyte_code c); [done|..]; Z.to_euclidean_division_equations; lia.
Qed.

Lemma Decode_Encode data : DecodeString (EncodeToString data) = Some data.
Proof.
  unfold DecodeString. rewrite EncodeToString_pack, sextets_encoded by apply pack_sextets. apply unpack_pack.
Qed.

Lemma encoded_no_dollar data : "$"%char ∉ EncodeToString data.
Proof.
  rewrite EncodeToString_pack. intros (n & E & Hn)%list_elem_of_fmap.
  pose proof (pack_sextets data) as Hs. rewrite Forall_forall in Hs. destruct (b64_char_ok n (Hs n Hn)) as [_ H]. rewrite <- E in H. set_solver.
Qed.

(** * Passwords and credentials *)

Lemma split_at_piece c a s : c ∉ a -> split_at c (a ++ c :: s) = a :: split_at c s.
Proof.
  induction a as [|d a IH]; cbn; [by rewrite Ascii.eqb_refl|]. intros [Hd Ha]%not_elem_of_cons.
  destruct (Ascii.eqb_spec d c); [congruence|]. by rewrite IH.
Qed.
Lemma split_at_last c a : c ∉ a -> split_at c a = [a].
Proof.
  induction a as [|d a IH]; cbn; [done|]. intros [Hd Ha]%not_elem_of_cons.
  destruct (Ascii.eqb_spec d c); [congruence|]. by rewrite IH.
Qed.

Lemma decode_hash_of salt key :
  decodeHash (lit "$argon2id$v=" ++ lit (Itoa argonVersion) ++ lit "$m=" ++ lit (Itoa argonMemory)
    ++ lit ",t=" ++ lit (Itoa argonTime) ++ lit ",p=" ++ lit (Itoa argonThreads)
    ++ lit "$" ++ EncodeToString salt ++ lit "$" ++ EncodeToString key)
  = inr (mk_argonParams argonMemory argonTime argonThreads, salt, key).
Proof.
  assert (lit (Itoa argonVersion) = lit "19" /\ lit (Itoa argonMemory) = lit "65536"
    /\ lit (Itoa argonTime) = lit "1" /\ lit (Itoa argonThreads) = lit "4") as (-> & -> & -> & ->) by (split_and!; by vm_compute).
  change (lit "$argon2id$v=" ++ ?s) with ([] ++ "$"%char :: lit "argon2id" ++ "$"%char :: lit "v=" ++ s).
  change (lit "$" ++ ?s) with ("$"%char :: s). change (lit "$m=" ++ ?s) with ("$"%char :: lit "m=" ++ s).
  match goal with |- decodeHash ?x = _ => replace x with ([] ++ "$"%char :: lit "argon2id" ++ "$"%char :: lit "v=19"
    ++ "$"%char :: lit "m=65536,t=1,p=4" ++ "$"%char :: EncodeToString salt ++ "$"%char :: EncodeToString key) by reflexivity end.
  unfold decodeHash.
  rewrite split_at_piece by apply not_elem_of_nil.
  rewrite (split_at_piece _ (lit "argon2id")) by (apply (bool_decide_eq_true_1 ("$"%char ∉ lit "argon2id")); reflexivity).
  rewrite (split_at_piece _ (lit "v=19")) by (apply (bool_decide_eq_true_1 ("$"%char ∉ lit "v=19")); reflexivity).
  rewrite (split_at_piece _ (lit "m=65536,t=1,p=4")) by (apply (bool_decide_eq_true_1 ("$"%char ∉ lit "m=65536,t=1,p=4")); reflexivity).
  rewrite split_at_piece by apply encoded_no_dollar. rewrite split_at_last by apply encoded_no_dollar.
  rewrite !Decode_Encode. reflexivity.
Qed.

(** What is written into the hash text is what a password is verified against. *)
Definition hash_of (IDKey : bytes -> bytes -> Z -> Z -> Z -> Z -> bytes) (salt password : bytes) : bytes :=
  lit "$argon2id$v=" ++ lit (Itoa argonVersion) ++ lit "$m=" ++ lit (Itoa argonMemory)
    ++ lit ",t=" ++ lit (Itoa argonTime) ++ lit ",p=" ++ lit (Itoa argonThreads)
    ++ lit "$" ++ EncodeToString salt ++ lit "$" ++ EncodeToString (IDKey password salt argonTime argonMemory argonThreads argonKeyLen).
Lemma VerifyPassword_hashed IDKey salt password other :
  (forall p s t m th n, 0 <= n -> Z.of_nat (length (IDKey p s t m th n)) = n) ->
  VerifyPassword IDKey other (hash_of IDKey salt password)
  = inr (bool_decide (IDKey other salt 1 65536 4 32 = IDKey password salt 1 65536 4 32)).
Proof.
  intros Hlen. unfold VerifyPassword, hash_of. rewrite decode_hash_of. cbn [time memory threads].
  by rewrite Hlen by done.
Qed.

(** A stored password hash verifies the password it was made from, whatever the
    salt, and verifies another password only if Argon2 derives the same key from it:
    parameters, salt and key survive being written into the hash text. *)
Theorem password_hash_roundtrip (IDKey : bytes -> bytes -> Z -> Z -> Z -> Z -> bytes) (salt password : bytes) :
  (forall p s t m th n, 0 <= n -> Z.of_nat (length (IDKey p s t m th n)) = n) ->
  exists h, HashPassword IDKey (inr salt) password = inr h
    /\ decodeHash h = inr (mk_argonParams 65536 1 4, salt, IDKey password salt 1 65536 4 32)
    /\ VerifyPassword IDKey password h = inr true
    /\ forall other, VerifyPassword IDKey other h
         = inr (bool_decide (IDKey other salt 1 65536 4 32 = IDKey password salt 1 65536 4 32)).
Proof.
  intros Hlen. exists (hash_of IDKey salt password). split; [done|]. split; [apply decode_hash_of|].
  split; [|intros other; by apply VerifyPassword_hashed]. by rewrite VerifyPassword_hashed, bool_decide_true.
Qed.
(** A derivation for the example: the password itself, cut or padded. *)
Definition ex_IDKey (p _ : bytes) (_ _ _ n : Z) : bytes := take (Z.to_nat n) (p ++ repeat "."%char (Z.to_nat n)).
Lemma ex_IDKey_length p s t m th n : 0 <= n -> Z.of_nat (length (ex_IDKey p s t m th n)) = n.
Proof. intros Hn. unfold ex_IDKey. rewrite length_take, length_app, repeat_length. lia. Qed.
Lemma password_hash_roundtrip_witness :
  exists h, HashPassword ex_IDKey (inr (lit "0123456789abcdef")) (lit "secret") = inr h
  /\ VerifyPassword ex_IDKey (lit "secret") h = inr true
  /\ VerifyPassword ex_IDKey (lit "Secret") h = inr false.
Proof.
  destruct (password_hash_roundtrip ex_IDKey (lit "0123456789abcdef") (lit "secret") ex_IDKey_length) as (h & H1 & _ & H2 & H3).
  exists h. split; [exact H1|]. split; [exact H2|]. rewrite (H3 (lit "Secret")). reflexivity.
Defined.

(** A sealed credential opens to what was sealed, for every nonce of the
    cipher's size; a text shorter than a nonce is refused, and without a master key
    nothing is ever sealed. *)
Theorem sealed_credential_roundtrip {K : Type} `{AEADLaws K} (derive : bytes -> bytes -> err + K) (k : K) (nonce plaintext short : bytes) :
  length nonce = NonceSize k -> (length short < NonceSize k)%nat ->
  (exists sealed, Seal k (inr nonce) plaintext = inr sealed /\ Open k sealed = inr plaintext)
  /\ (exists e, Open k short = inl e)
  /\ NewSealer derive [] = inl ErrNoKey.
Proof.
  intros Hn Hs. split_and!; [|unfold Open; destruct (Nat.ltb_spec (length short) (NonceSize k)); [by eexists|lia]|done].
  eexists. split; [reflexivity|]. unfold Open. rewrite length_app, Hn.
  destruct (Nat.ltb_spec (NonceSize k + length (aead_Seal k nonce plaintext)) (NonceSize k)); [lia|].
  by rewrite <- Hn, take_app_length, drop_app_length, open_seal.
Qed.

(** A cipher for the example: the text itself behind a tag of the nonce. *)
#[local] Instance ex_aead : AEAD unit := {
  NonceSize _ := 2%nat;
  aead_Seal _ nonce p := nonce ++ p;
  aead_Open _ nonce c := if bool_decide (take 2 c = nonce) then inr (drop 2 c) else inl (ErrText "cipher: message authentication failed")
}.
#[local] Instance ex_aead_laws : AEADLaws unit.
Proof.
  constructor. intros [] nonce p Hn. cbn in *. destruct nonce as [|a [|b [|c nonce]]]; try discriminate Hn. cbn.
  by rewrite bool_decide_true.
Qed.
Lemma sealed_credential_roundtrip_witness :
  exists sealed, Seal tt (inr (lit "no")) (lit "pw") = inr sealed /\ Open tt sealed = inr (lit "pw").
Proof.
  exact (proj1 (sealed_credential_roundtrip (fun _ _ => inr tt) tt (lit "no") (lit "pw") [] eq_refl ltac:(by cbn; lia))).
Defined.
