(* ===== verification/Effects.v ===== *)
(** Programs that thread a state and may stop early: a state monad over a sum,
    the combinators the handlers are written with, and two ways to reason about
    them: triples, and the relations every run respects. *)
From S2P Require Import Prelude.
From stdpp Require Import base list relations.

Definition SE (E W A : Type) : Type := W -> (E + A) * W.
#[export] Instance SE_ret E W : MRet (SE E W) := fun _ x w => (inr x, w).
#[export] Instance SE_bind E W : MBind (SE E W) := fun _ _ f m w =>
  match m w with (inl e, w) => (inl e, w) | (inr x, w) => f x w end.

Section effects.
Context {E W : Type}.
Notation M := (SE E W).

Definition stop {A} (e : E) : M A := fun w => (inl e, w).
Definition look {A} (f : W -> A) : M A := fun w => (inr (f w), w).
Definition updates (f : W -> W) : M unit := fun w => (inr tt, f w).
(** Carry on with the result, be it an error. *)
Definition attempt {A} (m : M A) : M (E + A) := fun w => let '(r, w) := m w in (inr r, w).
Definition map_stop {A} (f : E -> E) (m : M A) : M A := fun w =>
  match m w with (inl e, w) => (inl (f e), w) | r => r end.
Definition guard_with {A} (b : bool) (e : E) (m : M A) : M A := if b then m else stop e.
Fixpoint for_each {A} (f : A -> M unit) (l : list A) : M unit :=
  match l with
  | [] => mret tt
  | x :: l => f x ≫= fun _ => for_each f l
  end.

(** * Triples *)

(** From a state satisfying [P] the program ends in [Q]; [X] is what holds when
    it stops early. *)
Definition triple {A} (P : W -> Prop) (m : M A) (Q : A -> W -> Prop) (X : E -> W -> Prop) : Prop :=
  forall w, P w -> match m w with (inr x, w') => Q x w' | (inl e, w') => X e w' end.

Lemma triple_ret {A} (x : A) (P : W -> Prop) X : triple P (mret x) (fun y w => y = x /\ P w) X.
Proof. intros w H. by split. Qed.
Lemma triple_bind {A B} P (m : M A) (f : A -> M B) R Q X :
  triple P m R X -> (forall x, triple (R x) (f x) Q X) -> triple P (m ≫= f) Q X.
Proof.
  intros Hm Hf w Hw. unfold mbind, SE_bind. specialize (Hm w Hw). destruct (m w) as [[e|x] w'].
  - exact Hm.
  - by apply Hf.
Qed.
Lemma triple_conseq {A} P P' (m : M A) Q Q' X X' : triple P' m Q' X' ->
  (forall w, P w -> P' w) -> (forall x w, Q' x w -> Q x w) -> (forall e w, X' e w -> X e w) -> triple P m Q X.
Proof. intros H HP HQ HX w Hw. specialize (H w (HP w Hw)). destruct (m w) as [[e|x] w']; auto. Qed.

(** * Relations between the states before and after *)

Section respects.
Variable R : W -> W -> Prop.
Context `{!PreOrder R}.

Definition respects {A} (m : M A) : Prop := forall w, R w (m w).2.

Lemma respects_ret {A} (x : A) : respects (mret x).
Proof. intros w. reflexivity. Qed.
Lemma respects_stop {A} e : respects (stop (A := A) e).
Proof. intros w. reflexivity. Qed.
Lemma respects_look {A} (f : W -> A) : respects (look f).
Proof. intros w. reflexivity. Qed.
Lemma respects_bind {A B} (m : M A) (f : A -> M B) : respects m -> (forall x, respects (f x)) -> respects (m ≫= f).
Proof.
  intros Hm Hf w. unfold mbind, SE_bind. specialize (Hm w). destruct (m w) as [[e|x] w']; [exact Hm|].
  etransitivity; [exact Hm|apply Hf].
Qed.
Lemma respects_attempt {A} (m : M A) : respects m -> respects (attempt m).
Proof. intros H w. unfold attempt. specialize (H w). by destruct (m w). Qed.
Lemma respects_map_stop {A} g (m : M A) : respects m -> respects (map_stop g m).
Proof. intros H w. unfold map_stop. specialize (H w). by destruct (m w) as [[?|?] ?]. Qed.
Lemma respects_for_each {A} (f : A -> M unit) l : (forall x, x ∈ l -> respects (f x)) -> respects (for_each f l).
Proof.
  induction l as [|x l IH]; intros H; [apply respects_ret|]. cbn [for_each].
  apply respects_bind; [apply H; left|]. intros _. apply IH. intros y Hy. apply H. by right.
Qed.
End respects.
End effects.

#[export] Hint Resolve respects_ret respects_stop respects_look respects_attempt respects_map_stop : respects.

(** Walks through a program that is built from the combinators, leaving the
    calls that are not known to respect the relation. *)
Ltac respects_steps :=
  repeat first
    [ progress intros
    | solve [eauto with respects typeclass_instances]
    | apply respects_bind; [typeclasses eauto| |]
    | apply respects_attempt | apply respects_map_stop
    | apply respects_for_each; [typeclasses eauto|]
    | match goal with
      | |- respects _ (match ?x with _ => _ end) => destruct x eqn:?
      | |- respects _ (let '_ := ?x in _) => destruct x eqn:?
      end ].
