(* ===== verification/ImapSession.v ===== *)
(** A mail client's session (internal/imapsrv: session.go, and the handlers of
    list.go, fetch.go and search.go), with the writers of the server library it
    answers through (third_party/go-imap/imapserver: status.go, list.go, fetch.go).

    A handler runs while the mirror is being changed by others, any of its store
    calls may fail, and so may what it writes.  It can also end the connection: by
    a panic, which the library recovers by closing it, or by never returning. *)
From S2P Require Import Prelude NumSet GoStrings Retry Upstream Commands Schema StoreMailboxes StoreMessages StoreMutations StoreAccounts StoreBrowse Blob Text Mailstore Crypto SyncMeta SyncPass ImapText ImapSearch Effects.
From Stdlib Require Import String.
From stdpp Require Import strings gmap list.
Open Scope list_scope.
Open Scope Z_scope.

(** * What goes over the connection *)

Record StatusOptions := mk_StatusOptions {
  so_NumMessages : bool; so_UIDNext : bool; so_UIDValidity : bool; so_NumUnseen : bool; so_NumDeleted : bool;
  so_Size : bool; so_AppendLimit : bool; so_DeletedStorage : bool; so_NumRecent : bool
}.
(** The numbers behind pointers are options. *)
Record StatusData := mk_StatusData {
  st_Mailbox : string; st_NumMessages : option Z; st_UIDNext : Z; st_UIDValidity : Z; st_NumUnseen : option Z;
  st_NumDeleted : option Z; st_Size : option Z; st_AppendLimit : option Z; st_DeletedStorage : option Z;
  st_NumRecent : option Z
}.
Record ListData := mk_ListData { ld_Mailbox : string; ld_Attrs : list string; ld_Status : option StatusData }.
Record SelectData := mk_SelectData {
  se_NumMessages : Z; se_UIDNext : Z; se_UIDValidity : Z; se_Flags : list string; se_PermanentFlags : list string
}.
Record FetchOptions := mk_FetchOptions {
  fo_UID : bool; fo_Flags : bool; fo_InternalDate : bool; fo_RFC822Size : bool; fo_Envelope : bool;
  fo_BodyStructure : bool; fo_BodySection : list BodySection
}.
Inductive FetchItem :=
| ItemUID (uid : Z) | ItemFlags (flags : list string) | ItemInternalDate (date : option Z) | ItemSize (size : Z)
| ItemEnvelope (e : Envelope) | ItemBodyStructure (b : BodyStructure) | ItemSection (s : BodySection) (content : bytes).

Inductive Reply :=
| NumExists (n : Z)
| Listed (mailbox : string) (attrs : list string)
| Status_ (mailbox : string) (items : list (string * option Z))
| Fetched (seqNum : Z) (items : list FetchItem)
| Found (kind : NumKind) (data : SearchData)
| Selected_ (data : SelectData)
| Namespace_ (prefix : string)
| ClosedMailbox
| Tagged (type code : string)
| Bye.

(** Why a command stops short: an error to report, a panic, or a lock that is
    never released. *)
Inductive stopped := Error (e : err) | Panic | Deadlock.

(** * The session and its surroundings *)

Record session := mk_session {
  ss_user : option User;
  ss_account : option Account;
  ss_mailbox : option Mailbox;
  ss_readOnly : bool;
  ss_snapshot : list MessageSummary
}.
Definition NewSession : session := mk_session None None None false [].

Record ClientEnv := mk_ClientEnv {
  ce_fault : nat -> store_fault;       (* what a store call does *)
  ce_others : nat -> DB -> DB;         (* what others commit before it *)
  ce_now : nat -> Z;
  ce_get : nat -> option err;          (* reading the object store fails *)
  ce_write : nat -> option err;        (* sending the n-th reply fails *)
  ce_in_section : nat -> bool          (* and that shows while a body section is written *)
}.

(** The connection's state for the library, the session, the stores, the number of
    calls so far, the replies sent, and whether the response encoder is taken. *)
Inductive ConnState := NotAuthenticated | Authenticated | Selected | Logout.
Record Client (S : Type) := mk_Client {
  cl_state : ConnState;
  cl_session : session;
  cl_db : DB;
  cl_blobs : S;
  cl_calls : nat;
  cl_out : list Reply;
  cl_encMutex : bool
}.
Arguments mk_Client {S}.
Arguments cl_state {S}.
Arguments cl_session {S}.
Arguments cl_db {S}.
Arguments cl_blobs {S}.
Arguments cl_calls {S}.
Arguments cl_out {S}.
Arguments cl_encMutex {S}.

Section client.
Context {S : Type} `{BlobStore S}.
Variable env : ClientEnv.
Variable IDKey : bytes -> bytes -> Z -> Z -> Z -> Z -> bytes.
Variable sha256_hex : string -> string.
Variable zone : Z -> Z.
Variable message_Read : bytes -> ReadResult.
Variable err_bytes : err -> bytes.

Notation CL := (Client S).
Notation CM := (SE stopped CL).

Definition on_session (f : session -> session) : CM unit := updates (fun w =>
  mk_Client (cl_state w) (f (cl_session w)) (cl_db w) (cl_blobs w) (cl_calls w) (cl_out w) (cl_encMutex w)).
Definition set_mailbox (m : option Mailbox) (s : session) : session :=
  mk_session (ss_user s) (ss_account s) m (ss_readOnly s) (ss_snapshot s).
Definition set_readOnly (b : bool) (s : session) : session :=
  mk_session (ss_user s) (ss_account s) (ss_mailbox s) b (ss_snapshot s).
Definition set_snapshot (l : list MessageSummary) (s : session) : session :=
  mk_session (ss_user s) (ss_account s) (ss_mailbox s) (ss_readOnly s) l.
Definition sign_in (u : User) (a : Account) (s : session) : session :=
  mk_session (Some u) (Some a) (ss_mailbox s) (ss_readOnly s) (ss_snapshot s).

Definition fails {A} (e : err) : CM A := stop (Error e).
Definition called (db : DB) (w : CL) : CL :=
  mk_Client (cl_state w) (cl_session w) db (cl_blobs w) (Datatypes.S (cl_calls w)) (cl_out w) (cl_encMutex w).
Definition lift {A} (r : err + A) : stopped + A := match r with inl e => inl (Error e) | inr x => inr x end.

Definition db_call {A} (m : Z -> sql A) : CM A := fun w =>
  let n := cl_calls w in
  let db := ce_others env n (cl_db w) in
  match ce_fault env n with
  | NoFault => let '(r, db) := m (ce_now env n) db in (lift r, called db w)
  | FailBefore e => (inl (Error e), called db w)
  | FailAfter e => (inl (Error e), called (exec (m (ce_now env n)) db) w)
  end.

(** [blobs.Get] and reading it through. *)
Definition blob_read (key : string) : CM bytes := fun w =>
  match ce_get env (cl_calls w) with
  | Some e => (inl (Error e), called (cl_db w) w)
  | None => (lift (Get key (cl_blobs w)), called (cl_db w) w)
  end.

(** ** Writers of the library *)

Definition set_encMutex (b : bool) : CM unit := updates (fun w =>
  mk_Client (cl_state w) (cl_session w) (cl_db w) (cl_blobs w) (cl_calls w) (cl_out w) b).
(** [newResponseEncoder] takes the lock, [end] gives it back. *)
Definition newResponseEncoder : CM unit :=
  taken ← look cl_encMutex;
  if taken : bool then stop Deadlock else set_encMutex true.
Definition send (r : Reply) : CM unit := fun w =>
  match ce_write env (length (cl_out w)) with
  | Some e => (inl (Error e), w)
  | None => (inr tt, mk_Client (cl_state w) (cl_session w) (cl_db w) (cl_blobs w) (cl_calls w)
                       (cl_out w ++ [r]) (cl_encMutex w))
  end.
(** A reply written by a function that defers [enc.end]. *)
Definition write (r : Reply) : CM unit :=
  newResponseEncoder ≫= fun _ =>
  sent ← attempt (send r);
  set_encMutex false ≫= fun _ =>
  match sent with inl e => stop e | inr _ => mret tt end.

(** [writeStatus]: an item asked for whose pointer is nil is dereferenced. *)
Definition pointed (asked : bool) (name : string) (v : option Z) : option (list (string * option Z)) :=
  if asked then match v with Some n => Some [(name, Some n)] | None => None end else Some [].
Definition valued (asked : bool) (name : string) (v : option Z) : list (string * option Z) :=
  if asked then [(name, v)] else [].

Definition status_items (d : StatusData) (o : StatusOptions) : option (list (string * option Z)) :=
  a ← pointed (so_NumMessages o) "MESSAGES" (st_NumMessages d);
  b ← pointed (so_NumUnseen o) "UNSEEN" (st_NumUnseen d);
  c ← pointed (so_NumDeleted o) "DELETED" (st_NumDeleted d);
  e ← pointed (so_Size o) "SIZE" (st_Size d);
  f ← pointed (so_DeletedStorage o) "DELETED-STORAGE" (st_DeletedStorage d);
  g ← pointed (so_NumRecent o) "RECENT" (st_NumRecent d);
  Some (a ++ valued (so_UIDNext o) "UIDNEXT" (Some (st_UIDNext d))
    ++ valued (so_UIDValidity o) "UIDVALIDITY" (Some (st_UIDValidity d)) ++ b ++ c ++ e
    ++ valued (so_AppendLimit o) "APPENDLIMIT" (st_AppendLimit d) ++ f ++ g).

Definition writeStatus (d : StatusData) (o : StatusOptions) : CM unit :=
  match status_items d o with
  | None => stop Panic
  | Some items => write (Status_ (st_Mailbox d) items)
  end.

(** [WriteList]: the status follows the list response, but not for LSUB. *)
Definition WriteList (lsub : bool) (returnStatus : option StatusOptions) (d : ListData) : CM unit :=
  write (Listed (ld_Mailbox d) (ld_Attrs d)) ≫= fun _ =>
  match (if lsub then None else returnStatus), ld_Status d with
  | Some o, Some s => writeStatus s o
  | _, _ => mret tt
  end.

(** ** Signing in *)

Definition authFailed : err := ErrImap "NO" "AUTHENTICATIONFAILED" "invalid credentials".
Definition internalError (e : err) : err := ErrImap "NO" "SERVERBUG" (err_text e).
Definition internally {A} (m : CM A) : CM A :=
  map_stop (fun s => match s with Error e => Error (internalError e) | s => s end) m.
Definition noAccounts : err := ErrImap "NO" "" "this user has no mail accounts configured yet".
Definition notAuthenticated : err := ErrImap "NO" "" "not authenticated".
Definition noMailbox : err := ErrImap "BAD" "" "no mailbox is selected".
Definition noSuchMailbox : err := ErrImap "NO" "NONEXISTENT" "no such mailbox".
Definition openReadOnly : err := ErrImap "NO" "" "the mailbox is open read-only".

(** The password and its hash are bytes of Go strings. *)
Definition Login (username password : string) : CM unit :=
  looked ← attempt (db_call (fun _ => UserByEmail username));
  match looked with
  | inl (Error _) => fails authFailed
  | inl s => stop s
  | inr user =>
      if negb (User_Active user) then fails authFailed else
      match VerifyPassword IDKey (lit password) (lit (us_password_hash user.2)) with
      | inr true =>
          accounts ← internally (db_call (fun _ => ListAccountsForUser user.1));
          match accounts with
          | [] => fails noAccounts
          | account :: _ => on_session (sign_in user account)
          end
      | _ => fails authFailed
      end
  end.

Definition requireAuth : CM Account :=
  s ← look cl_session;
  match ss_user s, ss_account s with
  | Some _, Some account => mret account
  | _, _ => fails notAuthenticated
  end.

Definition requireMailbox : CM (Account * Mailbox) :=
  account ← requireAuth;
  s ← look cl_session;
  match ss_mailbox s with
  | Some m => mret (account, m)
  | None => fails noMailbox
  end.

(** ** Opening a mailbox *)

Definition uidValidity (m : Mailbox) : Z :=
  Z.lxor (Z.lxor (u32 (i64 (Z.shiftl m.1 8))) (u32 (mb_sync_generation m.2))) 2654435769.

Definition standardFlags : list string := ["\Seen"; "\Answered"; "\Flagged"; "\Deleted"; "\Draft"]%string.

Definition refreshSnapshot (mailboxID : Z) : CM unit :=
  listed ← db_call (fun _ => ListMessagesByUID mailboxID 0 0);
  on_session (set_snapshot listed.1).

Definition named (mailbox : string) (m : Mailbox) : bool := EqualFold (mb_name m.2) mailbox.

Definition Select (mailbox : string) (readOnly : bool) : CM SelectData :=
  account ← requireAuth;
  boxes ← internally (db_call (fun _ => ListMailboxes account.1));
  match List.find (named mailbox) boxes with
  | None => fails noSuchMailbox
  | Some found =>
      on_session (fun s => set_readOnly readOnly (set_mailbox (Some found) s)) ≫= fun _ =>
      internally (refreshSnapshot found.1) ≫= fun _ =>
      snapshot ← look (fun w => ss_snapshot (cl_session w));
      mret (mk_SelectData (u32 (Z.of_nat (length snapshot))) (u32 (mb_local_uidnext found.2))
        (uidValidity found) standardFlags standardFlags)
  end.

Definition Unselect : CM unit := on_session (fun s => set_snapshot [] (set_mailbox None s)).

(** ** Changes seen while a mailbox is open *)

Definition report_count (before : nat) : CM unit :=
  snapshot ← look (fun w => ss_snapshot (cl_session w));
  if (length snapshot =? before)%nat then mret tt else write (NumExists (u32 (Z.of_nat (length snapshot)))).

Definition Poll : CM unit :=
  s ← look cl_session;
  match ss_mailbox s with
  | None => mret tt
  | Some m =>
      internally (refreshSnapshot m.1) ≫= fun _ => report_count (length (ss_snapshot s))
  end.

(** [Idle] over the events its select receives; the answer says whether it has
    returned. *)
Inductive IdleEvent := Tick | Stop | Timeout.
Fixpoint Idle (events : list IdleEvent) : CM bool :=
  match events with
  | [] => mret false
  | Tick :: events => Poll ≫= fun _ => Idle events
  | _ :: _ => mret true
  end.

(** ** Commands not implemented *)

Definition unsupported {A} (command : string) : CM A := fails (ErrImap "NO" ""
  (command ++ " is not supported: this mailbox mirrors an upstream server and is read-only")%string).
Definition Create : CM unit := unsupported "CREATE".
Definition Delete_ : CM unit := unsupported "DELETE".
Definition Rename : CM unit := unsupported "RENAME".
Definition Subscribe : CM unit := mret tt.
Definition Unsubscribe : CM unit := mret tt.
Definition Append : CM unit := unsupported "APPEND".
Definition Expunge : CM unit := unsupported "EXPUNGE".
Definition Copy : CM unit := unsupported "COPY".

(** ** Listing *)

Definition statusFor (box : Mailbox) (o : option StatusOptions) : StatusData :=
  let data msgs unseen next valid := mk_StatusData (mb_name box.2) msgs next valid unseen None None None None None in
  match o with
  | None => data None None 0 0
  | Some o => data
      (if so_NumMessages o then Some (u32 (mb_exists_count box.2)) else None)
      (if so_NumUnseen o then Some (u32 (mb_unseen_count box.2)) else None)
      (if so_UIDNext o then u32 (mb_local_uidnext box.2) else 0)
      (if so_UIDValidity o then uidValidity box else 0)
  end.

Definition List_ (lsub : bool) (ref : string) (patterns : list string) (returnStatus : option StatusOptions) : CM unit :=
  account ← requireAuth;
  boxes ← internally (db_call (fun _ => ListMailboxes account.1));
  for_each (fun box : Mailbox =>
    if matchesAny (mb_name box.2) ref patterns
    then WriteList lsub returnStatus (mk_ListData (mb_name box.2) (attributesFor box.2)
           (match returnStatus with Some o => Some (statusFor box (Some o)) | None => None end))
    else mret tt) boxes.

Definition Status (mailbox : string) (o : StatusOptions) : CM StatusData :=
  account ← requireAuth;
  boxes ← internally (db_call (fun _ => ListMailboxes account.1));
  match List.find (named mailbox) boxes with
  | Some box => mret (statusFor box (Some o))
  | None => fails noSuchMailbox
  end.

Definition Namespace : CM string := requireAuth ≫= fun _ => mret ""%string.

(** ** Searching and fetching *)

Definition Search (kind : NumKind) (c : SearchCriteria) : CM SearchData :=
  requireMailbox ≫= fun _ =>
  snapshot ← look (fun w => ss_snapshot (cl_session w));
  mret (search_snapshot kind c snapshot).

Inductive NumSet_ := SeqSet (set : list Range) | UIDSet (set : list Range).

Fixpoint resolve_from (i : Z) (numSet : NumSet_) (snapshot : list MessageSummary) : list (Z * MessageSummary) :=
  match snapshot with
  | [] => []
  | m :: snapshot =>
      let seqNum := u32 (i + 1) in
      let hit := match numSet with
                 | SeqSet set => Set_Contains set seqNum
                 | UIDSet set => Set_Contains set (u32 (ms_LocalUID m))
                 end in
      if hit then (seqNum, m) :: resolve_from (i + 1) numSet snapshot else resolve_from (i + 1) numSet snapshot
  end.
Definition resolve (numSet : NumSet_) (snapshot : list MessageSummary) : list (Z * MessageSummary) :=
  resolve_from 0 numSet snapshot.

Definition loadRaw (mailboxMessageID : Z) : CM bytes :=
  found ← db_call (fun _ => RawMessage mailboxMessageID);
  blob_read found.1.

Definition missing (e : err) : bool := err_is e ErrNotFound || err_is e ErrBlobNotFound.

Definition needsRaw (o : FetchOptions) : bool :=
  fo_Envelope o || fo_BodyStructure o || negb (bool_decide (fo_BodySection o = [])).

(** The items of one FETCH response, in the order they are written. *)
Definition fetch_items (o : FetchOptions) (m : MessageSummary) (raw : bytes) : list FetchItem :=
  (if fo_UID o then [ItemUID (u32 (ms_LocalUID m))] else [])
  ++ (if fo_Flags o then [ItemFlags (ms_Flags m)] else [])
  ++ (if fo_InternalDate o then [ItemInternalDate (headerDate m)] else [])
  ++ (if fo_RFC822Size o then [ItemSize (ms_Size m)] else [])
  ++ (if fo_Envelope o then [ItemEnvelope (envelopeFor message_Read err_bytes m raw)] else [])
  ++ (if fo_BodyStructure o then [ItemBodyStructure (bodyStructureFor raw (ms_Size m))] else [])
  ++ map (fun s => ItemSection s (writeSection zone s raw m)) (fo_BodySection o).

(** [CreateMessage] takes the encoder, and only [Close] gives it back: an error of
    [loadRaw] returns in between, and so does a section that cannot be written. *)
Definition writeMessage (o : FetchOptions) (item : Z * MessageSummary) : CM unit :=
  newResponseEncoder ≫= fun _ =>
  loaded ← (if needsRaw o then attempt (loadRaw (ms_MailboxMessageID item.2)) else mret (inr []));
  raw ← (match loaded with
         | inr raw => mret raw
         | inl (Error e) => if missing e then mret [] else stop (Error e)
         | inl s => stop s
         end);
  n ← look (fun w => length (cl_out w));
  sent ← attempt (send (Fetched item.1 (fetch_items o item.2 raw)));
  match sent with
  | inr _ => set_encMutex false
  | inl e =>
      if negb (bool_decide (fo_BodySection o = [])) && ce_in_section env n then stop e
      else set_encMutex false ≫= fun _ => stop e
  end.

Definition Fetch (numSet : NumSet_) (o : FetchOptions) : CM unit :=
  requireMailbox ≫= fun _ =>
  snapshot ← look (fun w => ss_snapshot (cl_session w));
  for_each (writeMessage o) (resolve numSet snapshot).

(** ** Flags *)

Definition store_message (account : Account) (mailbox : Mailbox) (flags : StoreFlags)
    (item : Z * MessageSummary) : CM unit :=
  let updated := applyFlagChange (ms_Flags item.2) flags in
  internally (db_call (fun _ => SetFlags (ms_MailboxMessageID item.2) updated)) ≫= fun _ =>
  internally (db_call (fun now => EnqueueMutation sha256_hex now account.1 mailbox.1 MutationStoreFlags
    (mk_FlagPayload (ms_UpstreamUID item.2) (mb_name mailbox.2) updated))) ≫= fun _ =>
  if sf_Silent flags then mret tt
  else write (Fetched item.1 [ItemUID (u32 (ms_LocalUID item.2)); ItemFlags updated]).

Definition Store (numSet : NumSet_) (flags : StoreFlags) : CM unit :=
  am ← requireMailbox;
  s ← look cl_session;
  if ss_readOnly s then fails openReadOnly else
  for_each (store_message am.1 am.2 flags) (resolve numSet (ss_snapshot s)) ≫= fun _ =>
  refreshSnapshot am.2.1.
End client.
