(* ===== verification/ImapConn.v ===== *)
(** A mail client's connection: the server library's command loop
    (third_party/go-imap/imapserver: conn.go, login.go, select.go, ...) over the
    session.  Commands come parsed; a connection answers one after the other. *)
From S2P Require Import Prelude NumSet GoStrings Retry Schema StoreMailboxes StoreMessages StoreMutations StoreAccounts StoreBrowse Blob Text Mailstore Crypto SyncPass ImapText ImapSearch Effects ImapSession.
From Stdlib Require Import String.
From stdpp Require Import strings gmap list.
Open Scope list_scope.
Open Scope Z_scope.

(** The commands of [readCommand]; IDLE comes with what happens until it ends. *)
Inductive Command :=
| CmdNoop | CmdLogout
| CmdLogin (username password : string)
| CmdCreate | CmdDelete | CmdRename | CmdSubscribe | CmdUnsubscribe
| CmdStatus (mailbox : string) (o : StatusOptions)
| CmdList (ref : string) (patterns : list string) (returnStatus : option StatusOptions)
| CmdLSub (ref pattern : string)
| CmdNamespace
| CmdIdle (events : list IdleEvent)
| CmdSelect (mailbox : string) (readOnly : bool)
| CmdUnselect (expunge : bool)          (* CLOSE when true *)
| CmdAppend
| CmdFetch (numSet : NumSet_) (o : FetchOptions)
| CmdExpunge
| CmdStore (numSet : NumSet_) (flags : StoreFlags)
| CmdCopy | CmdMove
| CmdSearch (kind : NumKind) (c : SearchCriteria)
| CmdUnknown.

Section conn.
Context {S : Type} `{BlobStore S}.
Variable env : ClientEnv.
Variable canAuth : bool.
Variable IDKey : bytes -> bytes -> Z -> Z -> Z -> Z -> bytes.
Variable sha256_hex : string -> string.
Variable zone : Z -> Z.
Variable message_Read : bytes -> ReadResult.
Variable err_bytes : err -> bytes.

Notation CL := (Client S).
Notation CM := (SE stopped CL).
Notation write := (write env).

Definition ConnState_string (s : ConnState) : string :=
  match s with
  | NotAuthenticated => "not authenticated" | Authenticated => "authenticated"
  | Selected => "selected" | Logout => "logout"
  end.
#[export] Instance ConnState_eq_dec : EqDecision ConnState.
Proof. solve_decision. Defined.

Definition newClientBugError (text : string) : err := ErrImap "BAD" "CLIENTBUG" text.

Definition checkState (state : ConnState) : CM unit :=
  s ← look cl_state;
  if bool_decide (state = Authenticated) && bool_decide (s = Selected) then mret tt
  else if bool_decide (s = state) then mret tt
  else fails (newClientBugError ("This command is only valid in the " ++ ConnState_string state ++ " state")).

Definition set_state (s : ConnState) : CM unit := updates (fun w =>
  mk_Client s (cl_session w) (cl_db w) (cl_blobs w) (cl_calls w) (cl_out w) (cl_encMutex w)).

(** * The handlers; the answer says whether the loop still owes an OK *)

Definition handleLogin (username password : string) : CM unit :=
  checkState NotAuthenticated ≫= fun _ =>
  if negb canAuth then fails (ErrImap "NO" "PRIVACYREQUIRED" "TLS is required to authenticate") else
  Login env IDKey username password ≫= fun _ =>
  set_state Authenticated ≫= fun _ =>
  write (Tagged "OK" "CAPABILITY").

Definition close_selected : CM unit :=
  s ← look cl_state;
  if bool_decide (s = Selected)
  then Unselect ≫= fun _ => set_state Authenticated ≫= fun _ => write ClosedMailbox
  else mret tt.

Definition handleSelect (mailbox : string) (readOnly : bool) : CM unit :=
  checkState Authenticated ≫= fun _ =>
  close_selected ≫= fun _ =>
  data ← Select env mailbox readOnly;
  write (Selected_ data) ≫= fun _ =>
  set_state Selected ≫= fun _ =>
  write (Tagged "OK" (if readOnly then "READ-ONLY" else "READ-WRITE")).

Definition handleUnselect (expunge : bool) : CM unit :=
  checkState Selected ≫= fun _ =>
  (if expunge then Expunge else mret tt) ≫= fun _ =>
  Unselect ≫= fun _ =>
  set_state Authenticated.

(** [poll]; the session ignores whether expunges may be reported. *)
Definition poll : CM unit :=
  s ← look cl_state;
  match s with Authenticated | Selected => Poll env | _ => mret tt end.

Definition handleIdle (events : list IdleEvent) : CM unit :=
  checkState Authenticated ≫= fun _ =>
  Idle env events ≫= fun _ => mret tt.

Definition handle (c : Command) : CM bool :=
  let ok (m : CM unit) : CM bool := m ≫= fun _ => mret true in
  let answered (m : CM unit) : CM bool := m ≫= fun _ => mret false in
  let authenticated (m : CM unit) : CM bool := ok (checkState Authenticated ≫= fun _ => m) in
  let selected (m : CM unit) : CM bool := ok (checkState Selected ≫= fun _ => m) in
  match c with
  | CmdNoop => mret true
  | CmdLogout => ok (set_state Logout ≫= fun _ => write Bye)
  | CmdLogin username password => answered (handleLogin username password)
  | CmdCreate => authenticated Create
  | CmdDelete => authenticated Delete_
  | CmdRename => authenticated Rename
  | CmdSubscribe => authenticated Subscribe
  | CmdUnsubscribe => authenticated Unsubscribe
  | CmdStatus mailbox o => authenticated (d ← Status env mailbox o; writeStatus env d o)
  | CmdList ref patterns ret => authenticated (List_ env false ref patterns ret)
  | CmdLSub ref pattern => authenticated (List_ env true ref [pattern] None)
  | CmdNamespace => authenticated (prefix ← Namespace; write (Namespace_ prefix))
  | CmdIdle events => ok (handleIdle events)
  | CmdSelect mailbox readOnly => answered (handleSelect mailbox readOnly)
  | CmdUnselect expunge => ok (handleUnselect expunge)
  | CmdAppend => answered (checkState Authenticated ≫= fun _ => Append)
  | CmdFetch numSet o => selected (Fetch env zone message_Read err_bytes numSet o)
  | CmdExpunge => selected Expunge
  | CmdStore numSet flags => selected (Store env sha256_hex numSet flags)
  | CmdCopy => answered (checkState Selected ≫= fun _ => Copy)
  | CmdMove => selected (fails (newClientBugError "MOVE is not supported"))
  | CmdSearch kind c => selected (data ← Search kind c; write (Found kind data))
  | CmdUnknown =>
      (* one unknown command before signing in ends the connection *)
      s ← look cl_state;
      (if bool_decide (s = NotAuthenticated) then set_state Logout else mret tt) ≫= fun _ =>
      fails (ErrImap "BAD" "" "Unknown command")
  end.

(** * One command and the loop *)

Fixpoint imap_type (e : err) : string :=
  match e with
  | ErrImap type _ _ => type
  | ErrUpstream _ _ e | ErrWrap _ e _ => imap_type e
  | ErrWrap2 _ e1 _ e2 => match as_imap e1 with Some _ => imap_type e1 | None => imap_type e2 end
  | _ => ""
  end.
Definition status_reply (e : err) : Reply :=
  match as_imap e with
  | Some (code, _) => Tagged (imap_type e) code
  | None => Tagged "NO" "SERVERBUG"
  end.

Definition answer (done : stopped + bool) : CM unit :=
  match done with
  | inl (Error e) => write (status_reply e)
  | inl s => stop s
  | inr true => poll ≫= fun _ => write (Tagged "OK" "")
  | inr false => mret tt
  end.

(** [defer c.Bye("Unknown command")] *)
Definition farewell (c : Command) : CM unit :=
  s ← look cl_state;
  match c, s with
  | CmdUnknown, Logout => attempt (write Bye) ≫= fun _ => mret tt
  | _, _ => mret tt
  end.

Definition readCommand (c : Command) : CM unit :=
  done ← attempt (handle c);
  answered ← attempt (answer done);
  farewell c ≫= fun _ =>
  match answered with inl s => stop s | inr _ => mret tt end.

(** What becomes of the connection: it waits for the next command, it is closed,
    or its goroutine is stuck and never closes it. *)
Inductive Fate := Open_ | Closed | Stuck.

Definition after_command (r : stopped + unit) (w : CL) : Fate :=
  match r with
  | inr _ => match cl_state w with Logout => Closed | _ => Open_ end
  | inl Deadlock => Stuck
  | inl _ => Closed
  end.

Fixpoint serve (commands : list Command) (w : CL) : Fate * CL :=
  match commands with
  | [] => (Open_, w)
  | c :: commands =>
      let '(r, w) := readCommand c w in
      match after_command r w with
      | Open_ => serve commands w
      | f => (f, w)
      end
  end.

Definition accept (db : DB) (blobs : S) : CL := mk_Client NotAuthenticated NewSession db blobs 0 [] false.
End conn.
