(* ===== verification/ImapConnProps.v ===== *)
(** What holds of every mail client connection: whose mail a session can reach,
    which commands write and what, and how sequence numbers behave. *)
From S2P Require Import Prelude NumSet GoStrings Retry Schema StoreMailboxes StoreMessages StoreMutations StoreRuns StoreAccounts StoreBrowse StoreInvariant StoreSteps StoreProps Blob Text Mailstore Crypto SyncPass ImapText ImapSearch Effects ImapSession ImapConn.
From Stdlib Require Import String.
From stdpp Require Import strings gmap list relations sorting.
Open Scope list_scope.
Open Scope Z_scope.

Section invariants.
Context {S : Type} `{BlobStore S}.
Variable env : ClientEnv.
Variable canAuth : bool.
Variable IDKey : bytes -> bytes -> Z -> Z -> Z -> Z -> bytes.
Variable sha256_hex : string -> string.
Variable zone : Z -> Z.
Variable message_Read : bytes -> ReadResult.
Variable err_bytes : err -> bytes.

Notation CL := (Client S).
Notation CM := (SE stopped CL).

(** * Programs that leave the session and the connection's state alone *)

(** What others do is a sequence of store operations. *)
Hypothesis others_ok : forall n db, rtc (store_step sha256_hex) db (ce_others env n db).

Record quiet (w w' : CL) : Prop := mk_quiet {
  q_state : cl_state w' = cl_state w;
  q_session : cl_session w' = cl_session w;
  q_db : rtc (store_step sha256_hex) (cl_db w) (cl_db w')
}.
#[local] Instance quiet_preorder : PreOrder quiet.
Proof.
  split; [by constructor|]. intros w1 w2 w3 [E1 E2 E3] [F1 F2 F3].
  constructor; [congruence|congruence|by etransitivity].
Qed.

(** A statement of the store that writes by one of its methods, or not at all. *)
Definition stepping {A} (m : sql A) : Prop := forall db, exec m db = db \/ store_step sha256_hex db (exec m db).

Lemma stepping_rtc {A} (m : sql A) db : stepping m -> rtc (store_step sha256_hex) db (exec m db).
Proof. intros Hm. destruct (Hm db) as [->|]; [reflexivity|by apply rtc_once]. Qed.

Lemma db_call_quiet {A} (m : Z -> sql A) : (forall now, stepping (m now)) -> respects quiet (db_call env m).
Proof.
  intros Hm w. unfold db_call.
  set (db := ce_others env _ _). assert (rtc (store_step sha256_hex) (cl_db w) db) as Hdb by apply others_ok.
  destruct (ce_fault env (cl_calls w)).
  - destruct (m _ db) as [r db'] eqn:E. simpl. constructor; [done|done|]. simpl. etransitivity; [exact Hdb|].
    replace db' with (exec (m (ce_now env (cl_calls w))) db) by (unfold exec; by rewrite E). by apply stepping_rtc.
  - constructor; [done|done|exact Hdb].
  - constructor; [done|done|]. simpl. etransitivity; [exact Hdb|]. by apply stepping_rtc.
Qed.

Lemma reading_stepping {A} (m : sql A) : (forall db, exec m db = db) -> stepping m.
Proof. intros Hm db. left. apply Hm. Qed.

Ltac reads_only := apply reading_stepping; intros ?; unfold exec; simpl; by repeat case_match.

Lemma ListMessagesByUID_stepping mb : stepping (ListMessagesByUID mb 0 0).
Proof. reads_only. Qed.
Lemma ListMailboxes_stepping a : stepping (ListMailboxes a).
Proof. reads_only. Qed.
Lemma UserByEmail_stepping e : stepping (UserByEmail e).
Proof. apply reading_stepping. intros db. unfold exec, UserByEmail. by case_match. Qed.
Lemma ListAccountsForUser_stepping u : stepping (ListAccountsForUser u).
Proof. reads_only. Qed.
Lemma RawMessage_stepping id : stepping (RawMessage id).
Proof. apply reading_stepping. intros db. unfold exec, RawMessage. by repeat case_match. Qed.
Lemma SetFlags_stepping id flags : stepping (SetFlags id flags).
Proof. intros db. right. apply step_SetFlags. Qed.
Lemma EnqueueMutation_stepping now a mb k p : stepping (EnqueueMutation sha256_hex now a mb k p).
Proof. intros db. right. apply step_EnqueueMutation. Qed.

Hint Resolve db_call_quiet ListMessagesByUID_stepping ListMailboxes_stepping UserByEmail_stepping
  ListAccountsForUser_stepping RawMessage_stepping SetFlags_stepping EnqueueMutation_stepping : respects.

Lemma fails_quiet {A} e : respects quiet (fails (A := A) e).
Proof. apply respects_stop, _. Qed.
Hint Resolve fails_quiet : respects.
Lemma set_encMutex_quiet b : respects quiet (set_encMutex b).
Proof. intros w. by constructor. Qed.
Lemma send_quiet r : respects quiet (send env r).
Proof. intros w. unfold send. destruct (ce_write env _); by constructor. Qed.
Lemma blob_read_quiet key : respects quiet (blob_read env key).
Proof. intros w. unfold blob_read. destruct (ce_get env _); by constructor. Qed.
Hint Resolve set_encMutex_quiet send_quiet blob_read_quiet : respects.

Lemma write_quiet r : respects quiet (write env r).
Proof. unfold write, newResponseEncoder. respects_steps. Qed.
Hint Resolve write_quiet : respects.
Lemma writeStatus_quiet d o : respects quiet (writeStatus env d o).
Proof. unfold writeStatus. respects_steps. Qed.
Hint Resolve writeStatus_quiet : respects.
Lemma WriteList_quiet l r d : respects quiet (WriteList env l r d).
Proof. unfold WriteList. respects_steps. Qed.
Hint Resolve WriteList_quiet : respects.
Lemma report_count_quiet n : respects quiet (report_count env n).
Proof. unfold report_count. respects_steps. Qed.
Lemma requireAuth_quiet : respects quiet requireAuth.
Proof. unfold requireAuth. respects_steps. Qed.
Hint Resolve requireAuth_quiet : respects.
Lemma requireMailbox_quiet : respects quiet requireMailbox.
Proof. unfold requireMailbox. respects_steps. Qed.
Hint Resolve requireMailbox_quiet : respects.
Lemma requireMailbox_eq (w : CL) : requireMailbox w =
  match ss_user (cl_session w), ss_account (cl_session w), ss_mailbox (cl_session w) with
  | Some _, Some a, Some m => (inr (a, m), w)
  | Some _, Some _, None => (inl (Error noMailbox), w)
  | _, _, _ => (inl (Error notAuthenticated), w)
  end.
Proof. destruct w as [st [[] [] []] db bl n out mx]; reflexivity. Qed.
Lemma checkState_quiet s : respects quiet (checkState s).
Proof. unfold checkState. respects_steps. Qed.
Hint Resolve checkState_quiet : respects.
Lemma List_quiet lsub ref pats ret : respects quiet (List_ env lsub ref pats ret).
Proof. unfold List_, internally. respects_steps. Qed.
Lemma Status_quiet m o : respects quiet (Status env m o).
Proof. unfold Status, internally. respects_steps. Qed.
Lemma Namespace_quiet : respects quiet Namespace.
Proof. unfold Namespace. respects_steps. Qed.
Lemma Search_quiet k c : respects quiet (Search k c).
Proof. unfold Search. respects_steps. Qed.
Lemma loadRaw_quiet id : respects quiet (loadRaw env id).
Proof. unfold loadRaw. respects_steps. Qed.
Hint Resolve loadRaw_quiet : respects.
Lemma writeMessage_quiet o item : respects quiet (writeMessage env zone message_Read err_bytes o item).
Proof. unfold writeMessage, newResponseEncoder. respects_steps. Qed.
Hint Resolve writeMessage_quiet : respects.
Lemma Fetch_quiet n o : respects quiet (Fetch env zone message_Read err_bytes n o).
Proof. unfold Fetch. respects_steps. Qed.
Lemma store_message_quiet a m f item : respects quiet (store_message env sha256_hex a m f item).
Proof. unfold store_message, internally. respects_steps. Qed.
Hint Resolve List_quiet Status_quiet Namespace_quiet Search_quiet Fetch_quiet store_message_quiet : respects.

(** * Whose mail a session holds *)

(** A snapshot entry still stands for the row it was read from, as long as that
    row exists: it is in mailbox [mb] and has the entry's local UID. *)
Definition entry_ok (db : DB) (mb : Z) (m : MessageSummary) : Prop :=
  ms_MailboxMessageID m < nextval (mailbox_messages db)
  /\ forall r, rows (mailbox_messages db) !! ms_MailboxMessageID m = Some r ->
       mm_mailbox_id r = mb /\ mm_local_uid r = ms_LocalUID m.

Record snapshot_ok (db : DB) (mb : Z) (l : list MessageSummary) : Prop := mk_snapshot_ok {
  so_entries : Forall (entry_ok db mb) l;
  so_sorted : StronglySorted (fun a b => ms_LocalUID a < ms_LocalUID b) l;
  so_distinct : NoDup (map ms_MailboxMessageID l)
}.

(** The user of a session gave the password of an enabled user, the account is one
    of that user's, and the mailbox one of that account's, as each was read. *)
Record signed_in (s : session) : Prop := mk_signed_in {
  si_user : forall u, ss_user s = Some u -> us_disabled_at u.2 = None
    /\ exists password, VerifyPassword IDKey password (lit (us_password_hash u.2)) = inr true;
  si_account : forall a, ss_account s = Some a -> exists u, ss_user s = Some u /\ ac_user_id a.2 = u.1;
  si_mailbox : forall m, ss_mailbox s = Some m -> exists a, ss_account s = Some a /\ mb_account_id m.2 = a.1
}.

Record client_ok (w : CL) : Prop := mk_client_ok {
  co_db : db_wf (cl_db w);
  co_signed : signed_in (cl_session w);
  co_fresh : cl_state w = NotAuthenticated -> cl_session w = NewSession;
  co_selected : cl_state w = Selected ->
    exists m, ss_mailbox (cl_session w) = Some m /\ snapshot_ok (cl_db w) m.1 (ss_snapshot (cl_session w))
}.

Lemma entry_ok_steps db db' mb m : db_wf db -> rtc (store_step sha256_hex) db db' ->
  entry_ok db mb m -> entry_ok db' mb m.
Proof.
  intros Hwf Hs [Hlt Hr]. destruct (steps_frame _ _ _ Hs Hwf) as [R _ N _]. split; [lia|].
  intros r' Hr'. destruct (R _ _ Hr') as [(r & E & E1 & E2)|[Hge _]]; [|lia].
  destruct (Hr r E) as [E3 E4]. split; congruence.
Qed.

Lemma snapshot_ok_steps db db' mb l : db_wf db -> rtc (store_step sha256_hex) db db' ->
  snapshot_ok db mb l -> snapshot_ok db' mb l.
Proof.
  intros Hwf Hs [HF HS HD]. constructor; [|done|done]. eapply Forall_impl; [exact HF|]. intros. by apply (entry_ok_steps db).
Qed.

Lemma quiet_wf w w' : quiet w w' -> db_wf (cl_db w) -> db_wf (cl_db w').
Proof. intros [_ _ Hs] Hwf. by eapply steps_wf. Qed.

Lemma quiet_ok w w' : quiet w w' -> client_ok w -> client_ok w'.
Proof.
  intros Hq [Hwf Hsi Hfr Hsel]. pose proof (quiet_wf _ _ Hq Hwf) as Hwf'. destruct Hq as [E1 E2 Hs].
  constructor; rewrite ?E1, ?E2; [done|done|done|].
  intros Hst. destruct (Hsel Hst) as (m & Em & Hsn). exists m. split; [done|]. by apply (snapshot_ok_steps (cl_db w)).
Qed.

(** ** Reading the snapshot *)

Lemma uid_listing_ok db mb : db_wf db -> snapshot_ok db mb (uid_listing mb db).
Proof.
  intros Hwf. constructor; [|by apply uid_listing_sorted|by apply uid_listing_distinct]. apply Forall_forall. intros s Hs.
  destruct (proj1 (uid_listing_rows db mb (ms_MailboxMessageID s) (ms_LocalUID s) (ms_Flags s) (ms_BodyState s) Hwf))
    as (r & Hr & Hl & E); [by exists s|].
  split; [by apply (wf_seq_mms _ Hwf _ _ Hr)|]. intros r' Hr'. simplify_eq. unfold live_in in Hl. bool_to_prop.
  split; congruence.
Qed.

(** It replaces the snapshot by one of the given mailbox, or fails and changes
    nothing but the database. *)
Lemma refreshSnapshot_spec mb w : db_wf (cl_db w) ->
  match refreshSnapshot env mb w with
  | (inl e, w') => quiet w w'
  | (inr _, w') => cl_state w' = cl_state w /\ db_wf (cl_db w')
      /\ exists l, cl_session w' = set_snapshot l (cl_session w) /\ snapshot_ok (cl_db w') mb l
  end.
Proof.
  intros Hwf. unfold refreshSnapshot, mbind, SE_bind, db_call.
  pose proof (others_ok (cl_calls w) (cl_db w)) as Ho. set (db := ce_others env _ _) in *.
  destruct (ce_fault env _); [|by constructor|].
  - rewrite uid_listing_eq. simpl. assert (db_wf db) as Hwf' by (by eapply steps_wf).
    split_and!; [done|done|]. eexists. split; [done|]. by apply uid_listing_ok.
  - unfold exec. rewrite uid_listing_eq. by constructor.
Qed.

Lemma snapshot_signed l s : signed_in s -> signed_in (set_snapshot l s).
Proof. intros [? ? ?]. by constructor. Qed.

(** ** Preservation *)

Definition keeps {A} (m : CM A) : Prop := triple client_ok m (fun _ => client_ok) (fun _ => client_ok).

Lemma keeps_ret {A} (x : A) : keeps (mret x).
Proof. by intros w. Qed.
Lemma keeps_bind {A B} (m : CM A) (f : A -> CM B) : keeps m -> (forall x, keeps (f x)) -> keeps (m ≫= f).
Proof. intros Hm Hf. by eapply triple_bind. Qed.
Lemma quiet_keeps {A} (m : CM A) : respects quiet m -> keeps m.
Proof. intros Hq w Hw. specialize (Hq w). destruct (m w) as [[?|?] ?]; by eapply quiet_ok. Qed.
Lemma keeps_attempt {A} (m : CM A) : keeps m -> keeps (attempt m).
Proof. intros Hm w Hw. specialize (Hm w Hw). unfold attempt. by destruct (m w) as [[?|?] ?]. Qed.
Lemma keeps_internally {A} (m : CM A) : keeps m -> keeps (internally m).
Proof. intros Hm w Hw. specialize (Hm w Hw). unfold internally, map_stop. by destruct (m w) as [[?|?] ?]. Qed.

(** A refresh of the open mailbox. *)
Lemma refreshSnapshot_keeps w m : client_ok w -> ss_mailbox (cl_session w) = Some m ->
  match refreshSnapshot env m.1 w with
  | (inl _, w') => quiet w w' /\ client_ok w'
  | (inr _, w') => client_ok w' /\ ss_mailbox (cl_session w') = Some m /\ cl_state w' = cl_state w
  end.
Proof.
  intros Hw Em. pose proof (refreshSnapshot_spec m.1 w (co_db _ Hw)) as Hsp.
  destruct (refreshSnapshot env m.1 w) as [[e|[]] w']; [split; [done|by eapply quiet_ok]|].
  destruct Hsp as (Est & Hwf & l & Ess & Hl). split; [|by rewrite Ess].
  destruct Hw as [_ Hsi Hfr _]. constructor; rewrite ?Est, ?Ess; [done|by apply snapshot_signed| |].
  - intros E. rewrite (Hfr E) in Em. done.
  - intros _. by exists m.
Qed.

Lemma Poll_keeps : keeps (Poll env).
Proof.
  intros w Hw. unfold Poll. unfold mbind at 1, SE_bind at 1. unfold look at 1.
  destruct (ss_mailbox (cl_session w)) as [m|] eqn:Em; [|done].
  pose proof (refreshSnapshot_keeps w m Hw Em) as Hr.
  unfold mbind at 1, SE_bind at 1, internally, map_stop.
  destruct (refreshSnapshot env m.1 w) as [[e|[]] w'].
  - destruct Hr as [_ ?]. by destruct e.
  - apply (quiet_keeps (report_count env _)); [apply report_count_quiet|apply Hr].
Qed.

Lemma Idle_keeps events : keeps (Idle env events).
Proof. induction events as [|[] events IH]; try apply keeps_ret. apply keeps_bind; [apply Poll_keeps|done]. Qed.

Lemma Store_keeps n f : keeps (Store env sha256_hex n f).
Proof.
  intros w Hw. unfold Store. unfold mbind at 1, SE_bind at 1.
  destruct (requireMailbox w) as [[e|[a m]] w1] eqn:E1.
  { pose proof (requireMailbox_quiet w) as Hq. rewrite E1 in Hq. by eapply quiet_ok. }
  assert (w1 = w /\ ss_mailbox (cl_session w) = Some m) as [-> Em].
  { rewrite requireMailbox_eq in E1. by repeat case_match; simplify_eq. }
  unfold mbind at 1, SE_bind at 1. unfold look at 1. destruct (ss_readOnly _); [done|].
  pose proof (respects_for_each quiet _ (resolve n (ss_snapshot (cl_session w))) (fun item _ => store_message_quiet a m f item) w) as Hq.
  unfold mbind at 1, SE_bind at 1. simpl fst. simpl snd.
  destruct (for_each _ _ w) as [[e|[]] w1]; [by eapply quiet_ok|]. simpl in Hq.
  pose proof (refreshSnapshot_keeps w1 m (quiet_ok _ _ Hq Hw)) as Hr.
  rewrite (q_session _ _ Hq) in Hr. specialize (Hr Em).
  destruct (refreshSnapshot env m.1 w1) as [[e|[]] w2]; apply Hr.
Qed.

(** ** Signing in and opening a mailbox *)

Lemma db_call_inr {A} (m : Z -> sql A) (w : CL) x (w' : CL) : db_call env m w = (inr x, w') ->
  exists now db, rtc (store_step sha256_hex) (cl_db w) db /\ m now db = (inr x, exec (m now) db)
    /\ w' = called (exec (m now) db) w.
Proof.
  unfold db_call. pose proof (others_ok (cl_calls w) (cl_db w)) as Ho. destruct (ce_fault env _); [|done|done].
  destruct (m (ce_now env (cl_calls w)) (ce_others env (cl_calls w) (cl_db w))) as [[e|y] db'] eqn:E; intros [= <- <-].
  eexists _, _. split; [exact Ho|]. unfold exec. by rewrite E.
Qed.

Lemma internally_inr {A} (m : CM A) w x w' : internally m w = (inr x, w') -> m w = (inr x, w').
Proof. unfold internally, map_stop. destruct (m w) as [[?|?] ?]; congruence. Qed.

Lemma Login_spec username password w : cl_session w = NewSession ->
  match Login env IDKey username password w with
  | (inl _, w') => quiet w w'
  | (inr _, w') => exists w1 u a, quiet w w1 /\ cl_db w' = cl_db w1 /\ cl_state w' = cl_state w
      /\ cl_session w' = sign_in u a NewSession /\ signed_in (cl_session w')
  end.
Proof.
  intros Hs. unfold Login. unfold mbind at 1, SE_bind at 1, attempt.
  pose proof (db_call_quiet _ (fun _ => UserByEmail_stepping username) w) as Q1.
  destruct (db_call env (fun _ => UserByEmail username) w) as [[e|u] w1] eqn:E1; simpl in Q1.
  { by destruct e. }
  apply db_call_inr in E1 as (now & db & _ & Eu & _).
  destruct (User_Active u) eqn:Ha; [|exact Q1]. change (negb true) with false; cbv iota.
  destruct (VerifyPassword _ _ _) as [|[]] eqn:Ep; [exact Q1| |exact Q1].
  unfold mbind at 1, SE_bind at 1.
  pose proof (respects_map_stop quiet (fun s => match s with Error e => Error (internalError e) | s => s end) _
    (db_call_quiet _ (fun _ => ListAccountsForUser_stepping u.1)) w1) as Q2.
  change (map_stop _ ?m) with (internally m) in Q2.
  destruct (internally _ w1) as [[e|accounts] w2] eqn:E2; simpl in Q2; [exact (transitivity (R := quiet) Q1 Q2)|].
  apply internally_inr, db_call_inr in E2 as (now2 & db2 & _ & [= El] & _).
  destruct accounts as [|a accounts]; [exact (transitivity (R := quiet) Q1 Q2)|].
  assert (ac_user_id a.2 = u.1) as Hau.
  { assert (a ∈ a :: accounts) as Hin by left. rewrite <- El in Hin.
    rewrite (merge_sort_Permutation email_le) in Hin. destruct a as [id r]. apply elem_of_select in Hin as [_ Hin].
    simpl. lia. }
  exists w2, u, a. unfold on_session, updates. simpl.
  pose proof (transitivity (R := quiet) Q1 Q2) as Q. split; [exact Q|]. destruct Q as [-> Es _].
  rewrite Es, Hs. split_and!; [done|done|done|]. constructor; simpl; [|by intros ? [= <-]; exists u|done].
  intros ? [= <-]. split; [by apply bool_decide_eq_true in Ha|]. by exists (lit password).
Qed.

Definition base (w : CL) : Prop := db_wf (cl_db w) /\ signed_in (cl_session w).

Lemma quiet_base w w' : quiet w w' -> base w -> base w' /\ cl_state w' = cl_state w.
Proof. intros Q [Hwf Hsi]. split; [split; [by eapply quiet_wf|by rewrite (q_session _ _ Q)]|apply Q]. Qed.

Definition opened (w : CL) : Prop :=
  exists m, ss_mailbox (cl_session w) = Some m /\ snapshot_ok (cl_db w) m.1 (ss_snapshot (cl_session w)).

Lemma requireAuth_eq (w : CL) : requireAuth w =
  match ss_user (cl_session w), ss_account (cl_session w) with
  | Some _, Some a => (inr a, w)
  | _, _ => (inl (Error notAuthenticated), w)
  end.
Proof. destruct w as [st [[] [] mb] db bl n out mx]; reflexivity. Qed.

Lemma Select_spec mailbox ro w : base w ->
  match Select env mailbox ro w with
  | (inl _, w') => base w' /\ cl_state w' = cl_state w
  | (inr _, w') => base w' /\ cl_state w' = cl_state w /\ opened w'
  end.
Proof.
  intros Hb. unfold Select. unfold mbind at 1, SE_bind at 1. rewrite requireAuth_eq.
  destruct (ss_user (cl_session w)) eqn:Eu; [|done]. destruct (ss_account (cl_session w)) as [a|] eqn:Ea; [|done].
  unfold mbind at 1, SE_bind at 1.
  pose proof (respects_map_stop quiet (fun s => match s with Error e => Error (internalError e) | s => s end) _
    (db_call_quiet _ (fun _ => ListMailboxes_stepping a.1)) w) as Q.
  change (map_stop _ ?m) with (internally m) in Q.
  destruct (internally _ w) as [[e|boxes] w1] eqn:E1; simpl in Q; [by eapply quiet_base|].
  apply internally_inr, db_call_inr in E1 as (now & db & _ & [= El] & _).
  destruct (List.find (named mailbox) boxes) as [found|] eqn:Ef; [|by apply (quiet_base w w1)].
  assert (mb_account_id found.2 = a.1) as Hfa.
  { apply List.find_some in Ef as [Hin%list_elem_of_In _]. rewrite <- El in Hin.
    rewrite (merge_sort_Permutation canonical_le) in Hin. destruct found as [id r]. apply elem_of_select in Hin as [_ Hin].
    simpl. lia. }
  unfold mbind at 1, SE_bind at 1, on_session, updates.
  set (w2 := mk_Client _ _ _ _ _ _ _).
  assert (base w2) as Hb2.
  { destruct (quiet_base _ _ Q Hb) as [[Hwf [H1 H2 _]] _]. split; [done|]. constructor; [done|done|].
    simpl. intros ? [= <-]. exists a. split; [|done]. by rewrite (q_session _ _ Q). }
  assert (cl_state w2 = cl_state w) as Est by apply Q.
  pose proof (refreshSnapshot_spec found.1 w2 (proj1 Hb2)) as Hr.
  unfold mbind at 1, SE_bind at 1, internally, map_stop.
  destruct (refreshSnapshot env found.1 w2) as [[e|[]] w3].
  - destruct (quiet_base _ _ Hr Hb2) as [? ?]. destruct e; split; congruence.
  - destruct Hr as (Est3 & Hwf & l & Ess & Hl). unfold mbind, SE_bind, look, mret, SE_ret.
    split_and!; [split; [done|rewrite Ess; apply snapshot_signed, Hb2]|congruence|].
    exists found. rewrite Ess. by split.
Qed.

(** ** Handlers *)

Lemma keeps_checkState s {A} (m : CM A) : (forall w, client_ok w -> (cl_state w = s \/ s = Authenticated /\ cl_state w = Selected) ->
    match m w with (_, w') => client_ok w' end) -> keeps (checkState s ≫= fun _ => m).
Proof.
  intros Hm w Hw. unfold mbind, SE_bind.
  assert (checkState s w = (inr tt, w) /\ (cl_state w = s \/ s = Authenticated /\ cl_state w = Selected)
    \/ exists e, checkState s w = (inl e, w)) as [[-> Hs]|[e ->]].
  { unfold checkState, mbind, SE_bind, look, fails, stop. repeat case_bool_decide; simpl; eauto. }
  - specialize (Hm w Hw Hs). by destruct (m w) as [[?|?] ?].
  - done.
Qed.

Lemma base_ok w : base w -> cl_state w = Authenticated -> client_ok w.
Proof. intros [Hwf Hsi] Est. constructor; [done|done| |]; rewrite Est; done. Qed.

Lemma handleLogin_keeps u p : keeps (handleLogin env canAuth IDKey u p).
Proof.
  apply keeps_checkState. intros w Hw [Est|[? _]]; [|done]. destruct canAuth; [|done]. change (negb true) with false; cbv iota.
  pose proof (Login_spec u p w (co_fresh _ Hw Est)) as Hl. unfold mbind at 1, SE_bind at 1.
  destruct (Login env IDKey u p w) as [[e|[]] w1]; [by eapply quiet_ok|].
  destruct Hl as (w0 & us & a & Q & Edb & Est1 & Ess & Hsi).
  set (w2 := mk_Client Authenticated (cl_session w1) (cl_db w1) (cl_blobs w1) (cl_calls w1) (cl_out w1) (cl_encMutex w1)).
  assert (client_ok w2) as Hw2.
  { apply base_ok; [|done]. split; [|done]. simpl. rewrite Edb. by eapply quiet_wf, Hw. }
  pose proof (quiet_keeps _ (write_quiet (Tagged "OK" "CAPABILITY")) w2 Hw2) as Hk.
  unfold mbind, SE_bind, set_state, updates. fold w2. by destruct (write _ _ w2) as [[?|?] ?].
Qed.

Lemma Unselect_base w : base w -> base (Unselect w).2 /\ cl_state (Unselect w).2 = cl_state w.
Proof. intros [Hwf [H1 H2 H3]]. split; [split; [done|]|done]. constructor; [done|done|]. by intros m. Qed.

(** Entering the authenticated state keeps what does not depend on the state. *)
Definition with_state (s : ConnState) (w : CL) : CL :=
  mk_Client s (cl_session w) (cl_db w) (cl_blobs w) (cl_calls w) (cl_out w) (cl_encMutex w).

Lemma close_current w : client_ok w -> cl_state w = Authenticated \/ cl_state w = Selected ->
  match close_selected env w with (_, w') => base w' /\ cl_state w' = Authenticated end.
Proof.
  intros Hw Hst. assert (base w) as Hb by (by split; apply Hw).
  unfold close_selected. unfold mbind at 1, SE_bind at 1. unfold look. case_bool_decide as Hs.
  - destruct (Unselect_base w Hb) as [Hb1 _]. unfold mbind at 1, SE_bind at 1.
    change (Unselect w) with (inr (A := stopped) tt, (Unselect w).2). cbv iota beta.
    unfold mbind, SE_bind, set_state, updates. fold (with_state Authenticated (Unselect w).2).
    pose proof (write_quiet ClosedMailbox (with_state Authenticated (Unselect w).2)) as Q.
    destruct (write env _ _) as [r w2]. by apply (quiet_base _ _ Q).
  - split; [exact Hb|]. simpl. by destruct Hst.
Qed.

Lemma handleSelect_keeps mailbox ro : keeps (handleSelect env mailbox ro).
Proof.
  apply keeps_checkState. intros w Hw Hst.
  assert (cl_state w = Authenticated \/ cl_state w = Selected) as Hst' by (destruct Hst as [?|[_ ?]]; auto).
  pose proof (close_current w Hw Hst') as Hc.
  unfold mbind at 1, SE_bind at 1. destruct (close_selected env w) as [[e|[]] w1].
  { apply base_ok; apply Hc. }
  destruct Hc as [Hb1 Est1]. pose proof (Select_spec mailbox ro w1 Hb1) as Hs.
  unfold mbind at 1, SE_bind at 1. destruct (Select env mailbox ro w1) as [[e|data] w2].
  { apply base_ok; [apply Hs|]. destruct Hs. congruence. }
  destruct Hs as (Hb2 & Est2 & Ho).
  pose proof (write_quiet (Selected_ data) w2) as Q. unfold mbind at 1, SE_bind at 1.
  destruct (write env (Selected_ data) w2) as [r w3]. simpl in Q.
  destruct (quiet_base _ _ Q Hb2) as [Hb3 Est3]. destruct r as [e|[]]; [apply base_ok; [done|congruence]|].
  assert (client_ok (with_state Selected w3)) as Hw3.
  { destruct Hb3 as [Hwf Hsi]. constructor; [done|done|done|]. intros _. destruct Ho as (m & Em & Hm). exists m.
    simpl. rewrite (q_session _ _ Q). split; [done|]. by apply (snapshot_ok_steps (cl_db w2)); [apply Hb2|apply Q|]. }
  unfold mbind, SE_bind, set_state, updates. fold (with_state Selected w3).
  pose proof (quiet_keeps _ (write_quiet (Tagged "OK" (if ro then "READ-ONLY" else "READ-WRITE"))) _ Hw3) as Hk.
  by destruct (write _ _ (with_state Selected w3)) as [[?|?] ?].
Qed.

Lemma handleUnselect_keeps expunge : keeps (handleUnselect expunge).
Proof.
  apply keeps_checkState. intros w Hw _. destruct expunge; [done|].
  unfold mbind, SE_bind, set_state, updates. simpl. apply base_ok; [|done].
  apply (Unselect_base w). by split; apply Hw.
Qed.

Lemma Logout_keeps {A} (m : CM A) : keeps m -> keeps (set_state Logout ≫= fun _ => m).
Proof.
  intros Hm. apply keeps_bind; [|done]. intros w Hw. simpl. constructor; [apply Hw|apply Hw|done|done].
Qed.

Lemma poll_keeps : keeps (poll env).
Proof. apply keeps_bind; [apply quiet_keeps; respects_steps|]. intros []; (apply keeps_ret || apply Poll_keeps). Qed.

Lemma keeps_checked s {A} (m : CM A) : keeps m -> keeps (checkState s ≫= fun _ => m).
Proof. intros Hm. by apply keeps_bind; [apply quiet_keeps, checkState_quiet|]. Qed.

Lemma keeps_then {A B} (m : CM A) (b : B) : keeps m -> keeps (m ≫= fun _ => mret b).
Proof. intros Hm. apply keeps_bind; [exact Hm|]. intros. apply keeps_ret. Qed.

Lemma handle_keeps c : keeps (handle env canAuth IDKey sha256_hex zone message_Read err_bytes c).
Proof.
  destruct c; unfold handle, Create, Delete_, Rename, Subscribe, Unsubscribe, Append, Expunge, Copy, unsupported;
    lazymatch goal with
    | |- keeps (mret _) => apply keeps_ret
    | |- context [handleLogin] => apply keeps_then, handleLogin_keeps
    | |- context [handleSelect] => apply keeps_then, handleSelect_keeps
    | |- context [handleUnselect] => apply keeps_then, handleUnselect_keeps
    | |- context [handleIdle] => apply keeps_then, keeps_checked, keeps_then, Idle_keeps
    | |- context [Store] => apply keeps_then, keeps_checked, Store_keeps
    | |- context [Bye] => apply keeps_then, Logout_keeps, quiet_keeps, write_quiet
    | |- context [fails (ErrImap "BAD" "" _)] => idtac
    | |- _ => (apply keeps_then, keeps_checked, quiet_keeps; respects_steps)
    end.
  apply keeps_bind; [apply quiet_keeps; respects_steps|]. intros s. apply keeps_bind.
  - case_bool_decide; [|apply keeps_ret]. intros w Hw. constructor; [apply Hw|apply Hw|done|done].
  - intros _. apply quiet_keeps. respects_steps.
Qed.

Lemma readCommand_keeps c : keeps (readCommand env canAuth IDKey sha256_hex zone message_Read err_bytes c).
Proof.
  apply keeps_bind; [apply keeps_attempt, handle_keeps|]. intros done_.
  apply keeps_bind; [|intros r; apply keeps_bind; [apply quiet_keeps; unfold farewell; respects_steps|];
    intros []; apply quiet_keeps; respects_steps].
  apply keeps_attempt. unfold answer. destruct done_ as [[]|[]]; try solve [apply quiet_keeps; respects_steps].
  apply keeps_bind; [apply poll_keeps|]. intros _. apply quiet_keeps, write_quiet.
Qed.

Lemma serve_keeps commands w : client_ok w ->
  client_ok (serve env canAuth IDKey sha256_hex zone message_Read err_bytes commands w).2.
Proof.
  revert w. induction commands as [|c commands IH]; intros w Hw; [done|].
  unfold serve; fold (serve env canAuth IDKey sha256_hex zone message_Read err_bytes).
  pose proof (readCommand_keeps c w Hw) as Hk. destruct (readCommand _ _ _ _ _ _ _ c w) as [r w1].
  assert (client_ok w1) by (by destruct r). destruct (after_command r w1); auto.
Qed.
End invariants.
