(* ===== verification/ImapTheorems.v ===== *)
(** Theorems about mail client connections. *)
From S2P Require Import Prelude NumSet GoStrings Retry Schema StoreMailboxes StoreMessages StoreMutations StoreRuns StoreAccounts StoreBrowse StoreInvariant StoreSteps StoreProps Blob Text Mailstore Crypto SyncPass ImapText ImapSearch Effects ImapSession ImapConn ImapConnProps.
From Stdlib Require Import String.
From stdpp Require Import strings gmap list relations sorting.
Open Scope list_scope.
Open Scope Z_scope.

(** * An example: a mailbox with three messages, a client that signs in *)

Definition ex_password_hash : string :=
  match HashPassword ex_IDKey (inr (lit "0123456789abcdef")) (lit "secret") with inr h => str h | inl _ => "" end.
Definition ex_user_db : DB := exec (CreateUser 0 "alice@example.org" ex_password_hash false) empty_db.
Definition ex_mail_db : DB := exec (UpsertMetadataBatch (map ex_meta [11; 12; 13])) (exec ex_mailbox (exec ex_account ex_user_db)).

Lemma ex_mail_db_reachable hash : reachable hash ex_mail_db.
Proof.
  eapply rtc_r; [|apply step_UpsertMetadataBatch]. eapply rtc_r; [|apply step_UpsertMailbox].
  eapply rtc_r; [|apply step_CreateAccount]. eapply rtc_r; [|apply step_CreateUser]. apply rtc_refl.
Qed.
Lemma ex_mail_db_wf : db_wf ex_mail_db.
Proof. eapply (steps_wf (fun s => s)); [apply ex_mail_db_reachable|apply empty_db_wf]. Qed.

(** Nothing fails and nobody else writes. *)
Definition calm : ClientEnv := mk_ClientEnv (fun _ => NoFault) (fun _ db => db) (fun _ => 100) (fun _ => None)
  (fun _ => None) (fun _ => false).
Lemma calm_ok hash n db : rtc (store_step hash) db (ce_others calm n db).
Proof. apply rtc_refl. Qed.

Definition ex_serve (env : ClientEnv) (commands : list Command) (db : DB) : Fate * Client MemStore :=
  @serve MemStore (Mem_BlobStore ex_sha) env true ex_IDKey ex_hash (fun _ => 0) ex_read (fun _ => []) commands
    (accept db NewMemStore).
Definition ex_open : list Command :=
  [CmdLogin "Alice@example.org" "secret"; CmdSelect "inbox" false].

(** * Whose mail a connection reaches *)

(** [C5] A connection only ever reaches its own user's mail.  Whatever commands it
    gets, whatever calls fail and whatever else happens to the database meanwhile:
    nothing is signed in before a correct password of an enabled user, the account
    is one of that user's, the mailbox one of that account's, and every message of
    the snapshot that still exists is the message of that mailbox with that UID. *)
Theorem connection_isolated {S : Type} `{BlobStore S} (env : ClientEnv) (canAuth : bool)
    (IDKey : bytes -> bytes -> Z -> Z -> Z -> Z -> bytes) (sha256_hex : string -> string) (zone : Z -> Z)
    (message_Read : bytes -> ReadResult) (err_bytes : err -> bytes) (commands : list Command) (db : DB) (blobs : S) :
  (forall n db, rtc (store_step sha256_hex) db (ce_others env n db)) -> db_wf db ->
  let w := (serve env canAuth IDKey sha256_hex zone message_Read err_bytes commands (accept db blobs)).2 in
  let s := cl_session w in
  (cl_state w = NotAuthenticated -> ss_user s = None /\ ss_account s = None /\ ss_mailbox s = None)
  /\ (forall u, ss_user s = Some u -> us_disabled_at u.2 = None
       /\ exists password, VerifyPassword IDKey password (lit (us_password_hash u.2)) = inr true)
  /\ (forall a, ss_account s = Some a -> exists u, ss_user s = Some u /\ ac_user_id a.2 = u.1)
  /\ (forall m, ss_mailbox s = Some m -> exists a, ss_account s = Some a /\ mb_account_id m.2 = a.1)
  /\ (cl_state w = Selected -> exists m, ss_mailbox s = Some m
       /\ forall e r, e ∈ ss_snapshot s -> rows (mailbox_messages (cl_db w)) !! ms_MailboxMessageID e = Some r ->
            mm_mailbox_id r = m.1 /\ mm_local_uid r = ms_LocalUID e).
Proof.
  intros Ho Hwf w s. assert (client_ok IDKey w) as [_ [H1 H2 H3] Hfr Hsel].
  { apply serve_keeps; [exact Ho|]. by constructor; [|constructor| |]. }
  split_and!; [intros E; specialize (Hfr E)|done|done|done|].
  - unfold s. by rewrite Hfr.
  - intros E. destruct (Hsel E) as (m & Em & [HF _ _]). exists m. split; [done|]. intros e r He Hr.
    rewrite Forall_forall in HF. by apply HF.
Qed.

Lemma connection_isolated_witness :
  let w := (ex_serve calm ex_open ex_mail_db).2 in
  cl_state w = Selected /\ map ms_LocalUID (ss_snapshot (cl_session w)) = [1; 2; 3]
  /\ forall a, ss_account (cl_session w) = Some a -> exists u, ss_user (cl_session w) = Some u /\ ac_user_id a.2 = u.1.
Proof.
  split; [by vm_compute|]. split; [by vm_compute|].
  apply (@connection_isolated MemStore (Mem_BlobStore ex_sha) calm true ex_IDKey ex_hash (fun _ => 0) ex_read (fun _ => [])
    ex_open ex_mail_db NewMemStore (calm_ok ex_hash) ex_mail_db_wf).
Defined.
