(* ===== verification/ImapStore.v ===== *)
(** What a mail client can change: only STORE writes, and only flags of the
    messages it addresses, with the change queued for the upstream server. *)
From S2P Require Import Prelude NumSet GoStrings Retry Schema StoreMailboxes StoreMessages StoreMutations StoreRuns StoreAccounts StoreBrowse StoreInvariant StoreSteps StoreProps Blob Text Mailstore Crypto SyncPass ImapText ImapTextProps ImapSearch Effects ImapSession ImapConn ImapConnProps ImapTheorems.
From Stdlib Require Import String.
From stdpp Require Import strings gmap list relations sorting.
Open Scope list_scope.
Open Scope Z_scope.

Section writes.
Context {S : Type} `{BlobStore S}.
Variable env : ClientEnv.
Variable canAuth : bool.
Variable IDKey : bytes -> bytes -> Z -> Z -> Z -> Z -> bytes.
Variable sha256_hex : string -> string.
Variable zone : Z -> Z.
Variable message_Read : bytes -> ReadResult.
Variable err_bytes : err -> bytes.

Notation CL := (Client S).
Notation CM := (SE stopped CL).

(** Nobody else writes meanwhile. *)
Hypothesis alone : forall n db, ce_others env n db = db.

(** * Commands that only read *)

Definition same_db (w w' : CL) : Prop := cl_db w' = cl_db w.
#[local] Instance same_db_preorder : PreOrder same_db.
Proof. split; [done|]. intros ???. unfold same_db. congruence. Qed.

Lemma db_call_same {A} (m : Z -> sql A) : (forall now db, exec (m now) db = db) -> respects same_db (db_call env m).
Proof.
  intros Hm w. unfold db_call, same_db. rewrite alone. destruct (ce_fault env _); simpl; [|done|by rewrite Hm].
  destruct (m _ _) as [r db] eqn:E. specialize (Hm (ce_now env (cl_calls w)) (cl_db w)).
  unfold exec in Hm. by rewrite E in Hm.
Qed.
Lemma ListMessagesByUID_same (_ : Z) mb db : exec (ListMessagesByUID mb 0 0) db = db.
Proof. done. Qed.
Lemma RawMessage_same (_ : Z) id db : exec (RawMessage id) db = db.
Proof. unfold exec, RawMessage. by repeat case_match. Qed.
Lemma UserByEmail_same (_ : Z) e db : exec (UserByEmail e) db = db.
Proof. unfold exec, UserByEmail. by case_match. Qed.
Lemma updates_same f : (forall w : CL, cl_db (f w) = cl_db w) -> respects same_db (updates f : CM unit).
Proof. intros Hf w. apply Hf. Qed.
Lemma send_same r : respects same_db (send env r).
Proof. intros w. unfold send, same_db. by destruct (ce_write env _). Qed.
Lemma blob_read_same key : respects same_db (blob_read env key).
Proof. intros w. unfold blob_read, same_db. by destruct (ce_get env _). Qed.
Hint Resolve send_same blob_read_same ListMessagesByUID_same RawMessage_same UserByEmail_same : respects.
Hint Extern 2 (respects _ (updates _)) => (apply updates_same; done) : respects.
Hint Extern 2 (respects _ (db_call _ _)) => (apply db_call_same; solve [done | eauto with respects]) : respects.

Ltac walk := unfold newResponseEncoder, internally, fails, on_session, set_encMutex, set_state; respects_steps.

Lemma write_same r : respects same_db (write env r).
Proof. unfold write. walk. Qed.
Hint Resolve write_same : respects.
Lemma Poll_same : respects same_db (Poll env).
Proof. unfold Poll, refreshSnapshot, report_count. walk. Qed.
Hint Resolve Poll_same : respects.
Lemma Idle_same events : respects same_db (Idle env events).
Proof. induction events as [|[] events IH]; cbn [Idle]; walk. Qed.
Hint Resolve Idle_same : respects.
Lemma writeStatus_same d o : respects same_db (writeStatus env d o).
Proof. unfold writeStatus. walk. Qed.
Hint Resolve writeStatus_same : respects.
Lemma requireAuth_same : respects same_db requireAuth.
Proof. unfold requireAuth. walk. Qed.
Lemma requireMailbox_same : respects same_db requireMailbox.
Proof. unfold requireMailbox, requireAuth. walk. Qed.
Lemma checkState_same s : respects same_db (checkState s).
Proof. unfold checkState. walk. Qed.
Hint Resolve requireAuth_same requireMailbox_same checkState_same : respects.
Lemma Fetch_same n o : respects same_db (Fetch env zone message_Read err_bytes n o).
Proof. unfold Fetch, writeMessage, loadRaw. walk. Qed.
Lemma Login_same u p : respects same_db (Login env IDKey u p).
Proof. unfold Login. walk. Qed.
Lemma Select_same m ro : respects same_db (Select env m ro).
Proof. unfold Select, refreshSnapshot. walk. Qed.
Hint Resolve Fetch_same Login_same Select_same : respects.

Definition writes (c : Command) : bool := match c with CmdStore _ _ => true | _ => false end.

Lemma handle_same c : writes c = false ->
  respects same_db (handle env canAuth IDKey sha256_hex zone message_Read err_bytes c).
Proof.
  intros Hc. destruct c; try done; unfold handle, handleLogin, handleSelect, close_selected, handleUnselect, handleIdle,
    Status, List_, WriteList, Namespace, Search, Unselect, Create, Delete_, Rename, Subscribe, Unsubscribe, Append, Expunge,
    Copy, unsupported; walk.
Qed.

(** * What STORE writes *)

(** From [db] to [db'] only flags of the rows [ids] change, and the queue of
    changes only gets rows of this account and mailbox, or has rows put back to
    pending. *)
Record store_frame (ids : list Z) (account mailbox : Z) (db db' : DB) : Prop := mk_store_frame {
  sf_rest : db' = set_pending_mutations (pending_mutations db') (set_mailbox_messages (mailbox_messages db') db);
  sf_rows : forall id, exists flags,
    rows (mailbox_messages db') !! id = set_mm_flags flags <$> rows (mailbox_messages db) !! id
    /\ (id ∉ ids -> rows (mailbox_messages db') !! id = rows (mailbox_messages db) !! id);
  sf_queue : forall id, match rows (pending_mutations db) !! id, rows (pending_mutations db') !! id with
    | Some q, o => o = Some q \/ o = Some (requeue q)
    | None, Some q' => pm_account_id q' = account /\ pm_mailbox_id q' = Some mailbox
    | None, None => True
    end
}.

Lemma set_mm_flags_same r : set_mm_flags (mm_flags r) r = r.
Proof. by destruct r. Qed.
Lemma requeue_idemp q : requeue (requeue q) = requeue q.
Proof. done. Qed.

Lemma same_rows (ids : list Z) (mms : table mm_row) id : exists flags,
  rows mms !! id = set_mm_flags flags <$> rows mms !! id /\ (id ∉ ids -> rows mms !! id = rows mms !! id).
Proof.
  destruct (rows mms !! id) as [r|]; [|by exists []]. exists (mm_flags r). simpl. by rewrite set_mm_flags_same.
Qed.

Lemma store_frame_refl ids a mb db : store_frame ids a mb db db.
Proof. constructor; [by destruct db|apply same_rows|]. intros id. destruct (rows _ !! id); auto. Qed.

Lemma store_frame_trans ids a mb db1 db2 db3 :
  store_frame ids a mb db1 db2 -> store_frame ids a mb db2 db3 -> store_frame ids a mb db1 db3.
Proof.
  intros [E1 R1 Q1] [E2 R2 Q2]. constructor.
  - rewrite E2 at 1. rewrite E1. by destruct db1.
  - intros id. destruct (R1 id) as (f1 & F1 & H1). destruct (R2 id) as (f2 & F2 & H2). exists f2. split.
    + rewrite F2, F1. by destruct (rows (mailbox_messages db1) !! id).
    + intros Hn. by rewrite H2, H1.
  - intros id. specialize (Q1 id). specialize (Q2 id).
    destruct (rows (pending_mutations db1) !! id) as [q1|].
    + destruct Q1 as [E|E]; rewrite E in Q2; destruct Q2 as [->| ->]; rewrite ?requeue_idemp; auto.
    + destruct (rows (pending_mutations db2) !! id) as [q2|]; [|done]. destruct Q2 as [->| ->]; exact Q1.
Qed.

Lemma SetFlags_frame ids a mb id flags db : id ∈ ids -> store_frame ids a mb db (exec (SetFlags id flags) db).
Proof.
  intros Hid. constructor.
  - by destruct db.
  - intros k. destruct (decide (k = id)) as [->|Hne].
    + exists flags. split; [|done]. change (rows (update_where (id_is id) (set_mm_flags flags) (mailbox_messages db)) !! id
        = set_mm_flags flags <$> rows (mailbox_messages db) !! id).
      rewrite lookup_update_where. unfold id_is. by rewrite Z.eqb_refl.
    + assert (rows (mailbox_messages (exec (SetFlags id flags) db)) !! k = rows (mailbox_messages db) !! k) as ->; [|apply same_rows].
      change (rows (update_where (id_is id) (set_mm_flags flags) (mailbox_messages db)) !! k = rows (mailbox_messages db) !! k).
      rewrite lookup_update_where. unfold id_is. apply Z.eqb_neq in Hne as ->. by destruct (rows _ !! k).
  - intros k. change (pending_mutations (exec (SetFlags id flags) db)) with (pending_mutations db).
    destruct (rows (pending_mutations db) !! k); auto.
Qed.

Lemma EnqueueMutation_frame ids now a mb k p db : table_wf (pending_mutations db) ->
  store_frame ids a mb db (exec (EnqueueMutation sha256_hex now a mb k p) db).
Proof.
  intros Hwf. unfold exec, EnqueueMutation, wrap_err.
  destruct (rows (mail_accounts db) !! a); [|apply store_frame_refl].
  destruct (rows (mailboxes db) !! mb); [|apply store_frame_refl].
  destruct (find_row _ _) as [[id q]|]; cbn [snd]; (constructor; [by destruct db|apply same_rows|]); intros i.
  - unfold update_mutations. simpl. rewrite map_lookup_imap. destruct (rows (pending_mutations db) !! i) as [q'|]; [|done].
    simpl. destruct (id_is id i q'); auto.
  - simpl. destruct (decide (i = nextval (pending_mutations db))) as [->|Hne].
    + rewrite lookup_insert_eq, table_wf_fresh by done. done.
    + rewrite lookup_insert_ne by done. destruct (rows (pending_mutations db) !! i); auto.
Qed.

Definition store_writes (ids : list Z) (a mb : Z) (w w' : CL) : Prop :=
  db_wf (cl_db w) -> db_wf (cl_db w') /\ store_frame ids a mb (cl_db w) (cl_db w').
#[local] Instance store_writes_preorder ids a mb : PreOrder (store_writes ids a mb).
Proof.
  split; [intros w; split; [done|apply store_frame_refl]|]. intros w1 w2 w3 H12 H23 Hwf.
  destruct (H12 Hwf) as [Hwf2 F12]. destruct (H23 Hwf2) as [Hwf3 F23]. split; [done|by eapply store_frame_trans].
Qed.

Lemma same_db_writes ids a mb {A} (m : CM A) : respects same_db m -> respects (store_writes ids a mb) m.
Proof. intros Hm w Hwf. rewrite (Hm w). split; [done|apply store_frame_refl]. Qed.

Lemma db_call_writes ids a mb {A} (m : Z -> sql A) :
  (forall now db, db_wf db -> db_wf (exec (m now) db) /\ store_frame ids a mb db (exec (m now) db)) ->
  respects (store_writes ids a mb) (db_call env m).
Proof.
  intros Hm w Hwf. unfold db_call. rewrite alone. destruct (ce_fault env _); simpl; [|split; [done|apply store_frame_refl]|by apply Hm].
  specialize (Hm (ce_now env (cl_calls w)) (cl_db w) Hwf). unfold exec in Hm. by destruct (m _ _) as [r db].
Qed.

Lemma store_message_writes ids account mailbox f item : ms_MailboxMessageID item.2 ∈ ids ->
  respects (store_writes ids account.1 mailbox.1) (store_message env sha256_hex account mailbox f item).
Proof.
  intros Hid. unfold store_message.
  assert (respects (store_writes ids account.1 mailbox.1)
    (db_call env (fun _ => SetFlags (ms_MailboxMessageID item.2) (applyFlagChange (ms_Flags item.2) f)))) as H1.
  { apply db_call_writes. intros _ db Hwf. split; [by apply SetFlags_wf|by apply SetFlags_frame]. }
  assert (forall p, respects (store_writes ids account.1 mailbox.1)
    (db_call env (fun now => EnqueueMutation sha256_hex now account.1 mailbox.1 MutationStoreFlags p))) as H2.
  { intros p. apply db_call_writes. intros now db Hwf. split; [by apply EnqueueMutation_wf|].
    by apply EnqueueMutation_frame, wf_seq_mutations. }
  pose proof (fun r => same_db_writes ids account.1 mailbox.1 _ (write_same r)) as H3. unfold internally. respects_steps.
Qed.

Lemma Store_writes n f w a m : ss_account (cl_session w) = Some a -> ss_mailbox (cl_session w) = Some m ->
  store_writes (map (fun item => ms_MailboxMessageID item.2) (resolve n (ss_snapshot (cl_session w)))) a.1 m.1 w
    (Store env sha256_hex n f w).2.
Proof.
  intros Ea Em. set (ids := map _ _). unfold Store. unfold mbind at 1, SE_bind at 1. rewrite requireMailbox_eq, Ea, Em.
  destruct (ss_user _); [|intros ?; split; [done|apply store_frame_refl]].
  unfold mbind at 1, SE_bind at 1. unfold look at 1.
  destruct (ss_readOnly _); [intros ?; split; [done|apply store_frame_refl]|].
  apply respects_bind; [apply _| |].
  - apply respects_for_each; [apply _|]. intros item Hin. apply (store_message_writes ids a m). by apply (list_elem_of_fmap_2 (fun item => ms_MailboxMessageID item.2)).
  - intros _. apply same_db_writes. unfold refreshSnapshot. walk.
Qed.

(** ** As a command *)

Lemma readCommand_db c w :
  cl_db (readCommand env canAuth IDKey sha256_hex zone message_Read err_bytes c w).2
  = cl_db (handle env canAuth IDKey sha256_hex zone message_Read err_bytes c w).2.
Proof.
  unfold readCommand. unfold mbind at 1, SE_bind at 1, attempt at 1.
  destruct (handle _ _ _ _ _ _ _ c w) as [r w1]. revert w1.
  change (respects same_db (answered ← attempt (answer env r); farewell env c ≫= fun _ =>
    match answered with inl s => stop s | inr _ => mret tt end)).
  unfold answer, farewell, poll. walk.
Qed.

Lemma checkState_cases s (w : CL) : checkState s w = (inr tt, w) \/ exists e, checkState s w = (inl e, w).
Proof. unfold checkState, mbind, SE_bind, look, fails, stop. repeat case_match; eauto. Qed.

Lemma handle_store_db n f w : (handle env canAuth IDKey sha256_hex zone message_Read err_bytes (CmdStore n f) w).2 = w
  \/ (handle env canAuth IDKey sha256_hex zone message_Read err_bytes (CmdStore n f) w).2 = (Store env sha256_hex n f w).2.
Proof.
  unfold handle. unfold mbind, SE_bind. destruct (checkState_cases Selected w) as [-> | [e ->]]; [|by left].
  right. by destruct (Store env sha256_hex n f w) as [[?|?] ?].
Qed.

Lemma store_refused n f w : cl_state w <> Selected \/ ss_readOnly (cl_session w) = true ->
  (handle env canAuth IDKey sha256_hex zone message_Read err_bytes (CmdStore n f) w).2 = w.
Proof.
  intros [Hs|Hr].
  - unfold handle. unfold mbind, SE_bind, checkState, mbind, SE_bind, look, fails, stop.
    rewrite (bool_decide_false (Selected = Authenticated)) by done. simpl. by rewrite bool_decide_false.
  - destruct (handle_store_db n f w) as [->| ->]; [done|]. unfold Store. unfold mbind at 1, SE_bind at 1.
    rewrite requireMailbox_eq. destruct (ss_user (cl_session w)), (ss_account (cl_session w)), (ss_mailbox (cl_session w)); try done.
    unfold mbind at 1, SE_bind at 1, look. by rewrite Hr.
Qed.

(** * A STORE that nothing interrupts *)

Hypothesis no_fault : forall n, ce_fault env n = NoFault.
Hypothesis writable : forall n, ce_write env n = None.

Definition queued (key : string) (db : DB) : Prop := exists i q, rows (pending_mutations db) !! i = Some q
  /\ pm_idempotency_key q = key /\ pm_status q = MutPending /\ pm_attempts q = 0.

Lemma EnqueueMutation_ok now a mb p db : is_Some (rows (mail_accounts db) !! a) -> is_Some (rows (mailboxes db) !! mb) ->
  table_wf (pending_mutations db) ->
  let m := EnqueueMutation sha256_hex now a mb MutationStoreFlags p in
  m db = (inr tt, exec m db)
  /\ mailbox_messages (exec m db) = mailbox_messages db
  /\ mail_accounts (exec m db) = mail_accounts db /\ mailboxes (exec m db) = mailboxes db
  /\ queued (IdempotencyKey sha256_hex a mb MutationStoreFlags (FlagPayload_json p)) (exec m db)
  /\ forall key, queued key db -> queued key (exec m db).
Proof.
  intros [? Ha] [? Hmb] Hwf m. unfold exec, m, EnqueueMutation, wrap_err. rewrite Ha, Hmb.
  set (key := IdempotencyKey _ _ _ _ _). destruct (find_row (mutation_key key) _) as [[id q]|] eqn:Ef; split_and!; try done.
  - apply find_row_Some in Ef as [Hq Hk]. exists id, (requeue q). unfold mutation_key in Hk. apply String.eqb_eq in Hk.
    split_and!; [|done|done|done]. cbn [snd]. unfold update_mutations. simpl. rewrite map_lookup_imap, Hq. simpl.
    unfold id_is. by rewrite Z.eqb_refl.
  - intros k (i & q' & Hi & Hk & Hp & Ha'). exists i, (if id_is id i q' then requeue q' else q').
    split_and!; [|by destruct (id_is id i q')..].
    cbn [snd]. unfold update_mutations. simpl. by rewrite map_lookup_imap, Hi.
  - eexists (nextval (pending_mutations db)), _. split; [simpl; by rewrite lookup_insert_eq|done].
  - intros k (i & q' & Hi & Hq'). exists i, q'. split; [|done]. simpl. rewrite lookup_insert_ne; [done|].
    intros <-. by rewrite table_wf_fresh in Hi.
Qed.

Definition reply_for (f : StoreFlags) (item : Z * MessageSummary) : Reply :=
  Fetched item.1 [ItemUID (u32 (ms_LocalUID item.2)); ItemFlags (applyFlagChange (ms_Flags item.2) f)].
Definition key_for (a : Account) (m : Mailbox) (f : StoreFlags) (item : Z * MessageSummary) : string :=
  IdempotencyKey sha256_hex a.1 m.1 MutationStoreFlags
    (FlagPayload_json (mk_FlagPayload (ms_UpstreamUID item.2) (mb_name m.2) (applyFlagChange (ms_Flags item.2) f))).

(** Ready for a STORE on account [a] and mailbox [m]. *)
Record ready (a : Account) (m : Mailbox) (w : CL) : Prop := mk_ready {
  rd_db : db_wf (cl_db w);
  rd_account : is_Some (rows (mail_accounts (cl_db w)) !! a.1);
  rd_mailbox : is_Some (rows (mailboxes (cl_db w)) !! m.1);
  rd_encoder : cl_encMutex w = false
}.

Lemma db_call_calm {A} (m : Z -> sql A) (w : CL) :
  db_call env m w = (lift (m (ce_now env (cl_calls w)) (cl_db w)).1, called (exec (m (ce_now env (cl_calls w))) (cl_db w)) w).
Proof. unfold db_call, exec. rewrite no_fault, alone. by destruct (m _ _). Qed.

Lemma write_calm r (w : CL) : cl_encMutex w = false -> write env r w = (inr tt,
  mk_Client (cl_state w) (cl_session w) (cl_db w) (cl_blobs w) (cl_calls w) (cl_out w ++ [r]) false).
Proof.
  intros E. unfold write, newResponseEncoder, mbind, SE_bind, look, set_encMutex, updates, attempt, send. rewrite E.
  simpl. by rewrite writable.
Qed.

Lemma store_message_calm a m f item w : ready a m w ->
  exists w', store_message env sha256_hex a m f item w = (inr tt, w') /\ ready a m w'
    /\ cl_session w' = cl_session w
    /\ mailbox_messages (cl_db w') = update_where (id_is (ms_MailboxMessageID item.2))
         (set_mm_flags (applyFlagChange (ms_Flags item.2) f)) (mailbox_messages (cl_db w))
    /\ queued (key_for a m f item) (cl_db w')
    /\ (forall key, queued key (cl_db w) -> queued key (cl_db w'))
    /\ cl_out w' = cl_out w ++ (if sf_Silent f then [] else [reply_for f item]).
Proof.
  intros [Hwf Ha Hm He]. unfold store_message. unfold mbind at 1, SE_bind at 1, internally, map_stop.
  rewrite db_call_calm. cbn [lift fst].
  set (db1 := exec (SetFlags (ms_MailboxMessageID item.2) (applyFlagChange (ms_Flags item.2) f)) (cl_db w)).
  change (SetFlags _ _ (cl_db w)).1 with (inr (A := err) tt). cbn [lift].
  unfold mbind at 1, SE_bind at 1. rewrite db_call_calm. cbn [called cl_db cl_calls].
  assert (db_wf db1) as Hwf1 by by apply SetFlags_wf.
  set (mq := EnqueueMutation _ _ _ _ _ _).
  destruct (EnqueueMutation_ok (ce_now env (Datatypes.S (cl_calls w))) a.1 m.1
    (mk_FlagPayload (ms_UpstreamUID item.2) (mb_name m.2) (applyFlagChange (ms_Flags item.2) f)) db1)
    as (E1 & E2 & E3 & E4 & Hq & Hqs); [done|done|by apply wf_seq_mutations|]. fold mq in E1, E2, E3, E4, Hq, Hqs.
  rewrite E1. cbn [fst lift]. set (db2 := exec mq db1) in *.
  assert (db_wf db2) as Hwf2 by by apply EnqueueMutation_wf.
  assert (forall k, queued k (cl_db w) -> queued k db2) as Hqs' by (intros k Hk; by apply Hqs).
  destruct (sf_Silent f) eqn:Es.
  - eexists. split; [reflexivity|]. split_and!; try done; [|by rewrite app_nil_r].
    constructor; cbn; [done|by rewrite E3|by rewrite E4|done].
  - rewrite write_calm by done. eexists. split; [reflexivity|]. split_and!; try done.
    constructor; cbn; [done|by rewrite E3|by rewrite E4|done].
Qed.

Lemma store_all_calm a m f items w : ready a m w -> NoDup (map (fun item => ms_MailboxMessageID item.2) items) ->
  exists w', for_each (store_message env sha256_hex a m f) items w = (inr tt, w') /\ ready a m w'
    /\ cl_session w' = cl_session w
    /\ (forall item r, item ∈ items -> rows (mailbox_messages (cl_db w)) !! ms_MailboxMessageID item.2 = Some r ->
         rows (mailbox_messages (cl_db w')) !! ms_MailboxMessageID item.2
           = Some (set_mm_flags (applyFlagChange (ms_Flags item.2) f) r))
    /\ (forall id, id ∉ map (fun item => ms_MailboxMessageID item.2) items ->
         rows (mailbox_messages (cl_db w')) !! id = rows (mailbox_messages (cl_db w)) !! id)
    /\ (forall item, item ∈ items -> queued (key_for a m f item) (cl_db w'))
    /\ (forall key, queued key (cl_db w) -> queued key (cl_db w'))
    /\ cl_out w' = cl_out w ++ (if sf_Silent f then [] else map (reply_for f) items).
Proof.
  revert w. induction items as [|x items IH]; intros w Hr Hd.
  { exists w. split_and!; try done; [by intros ?? ?%elem_of_nil|by intros ? ?%elem_of_nil|].
    destruct (sf_Silent f); by rewrite app_nil_r. }
  cbn [map] in Hd. apply NoDup_cons in Hd as [Hx Hd].
  destruct (store_message_calm a m f x w Hr) as (w1 & E1 & Hr1 & Es1 & Emm & Hq & Hqs & Eo).
  destruct (IH w1 Hr1 Hd) as (w2 & E2 & Hr2 & Es2 & Hrows & Hkeep & Hq2 & Hqs2 & Eo2).
  exists w2. cbn [for_each]. unfold mbind, SE_bind. rewrite E1. split_and!; [done|done|congruence|..].
  - intros item r Hin Hrow. apply elem_of_cons in Hin as [->|Hin].
    + rewrite Hkeep by done. rewrite Emm, lookup_update_where, Hrow. unfold id_is. simpl. by rewrite Z.eqb_refl.
    + apply Hrows; [done|]. rewrite Emm, lookup_update_where, Hrow. simpl. unfold id_is.
      destruct (Z.eqb_spec (ms_MailboxMessageID item.2) (ms_MailboxMessageID x.2)) as [E|]; [|done].
      exfalso. apply Hx. rewrite <- E. by apply (list_elem_of_fmap_2 (fun item => ms_MailboxMessageID item.2)).
  - cbn [map]. intros id [Hne Hn]%not_elem_of_cons. rewrite Hkeep, Emm, lookup_update_where by done.
    unfold id_is. apply Z.eqb_neq in Hne as ->. by destruct (rows _ !! id).
  - intros item [->|Hin]%elem_of_cons; auto.
  - auto.
  - rewrite Eo2, Eo. destruct (sf_Silent f); by rewrite <- app_assoc.
Qed.
End writes.

(** * Addressing *)

Definition hit (n : NumSet_) (seqNum : Z) (m : MessageSummary) : bool :=
  match n with SeqSet set => Set_Contains set seqNum | UIDSet set => Set_Contains set (u32 (ms_LocalUID m)) end.

Lemma resolve_from_sublist i n l : sublist (map snd (resolve_from i n l)) l.
Proof.
  revert i. induction l as [|m l IH]; intros i; [constructor|]. cbn [resolve_from].
  case_match; cbn [map snd]; [by apply sublist_skip|by apply sublist_cons].
Qed.

Lemma resolve_distinct n l : NoDup (map ms_MailboxMessageID l) ->
  NoDup (map (fun item => ms_MailboxMessageID item.2) (resolve n l)).
Proof.
  intros Hd. eapply sublist_NoDup; [exact Hd|]. rewrite <- (map_map snd ms_MailboxMessageID).
  apply fmap_sublist, resolve_from_sublist.
Qed.

Lemma elem_of_resolve_from i n l k m : 0 <= i -> i + Z.of_nat (length l) < 4294967296 ->
  (k, m) ∈ resolve_from i n l <-> i < k /\ l !! Z.to_nat (k - i - 1) = Some m /\ hit n k m = true.
Proof.
  revert i. induction l as [|x l IH]; intros i Hi Hlen; cbn [resolve_from length] in *.
  { split; [by intros ?%elem_of_nil|]. by intros (_ & ? & _). }
  assert (u32 (i + 1) = i + 1) as E by (apply u32_id; unfold is_u32; lia).
  fold (hit n (u32 (i + 1)) x). rewrite E.
  assert ((k, m) ∈ (if hit n (i + 1) x then (i + 1, x) :: resolve_from (i + 1) n l else resolve_from (i + 1) n l)
    <-> (k = i + 1 /\ m = x /\ hit n k x = true) \/ (k, m) ∈ resolve_from (i + 1) n l) as ->.
  { destruct (hit n (i + 1) x) eqn:Hh.
    - rewrite elem_of_cons. split; (intros [Ex|?]; [left|by right]); [by injection Ex as -> ->|].
      by destruct Ex as (-> & -> & _).
    - split; [by right|]. intros [(-> & -> & Hh')|?]; [congruence|done]. }
  rewrite IH by lia. split.
  - intros [(-> & -> & Hh)|(Hk & Hl & Hh)].
    + replace (Z.to_nat (i + 1 - i - 1)) with 0%nat by lia. split_and!; [lia|done|done].
    + replace (Z.to_nat (k - i - 1)) with (Datatypes.S (Z.to_nat (k - (i + 1) - 1))) by lia. split_and!; [lia|done|done].
  - intros (Hk & Hl & Hh). destruct (decide (k = i + 1)) as [->|Hne].
    + left. replace (Z.to_nat (i + 1 - i - 1)) with 0%nat in Hl by lia. cbn in Hl. by simplify_eq.
    + right. replace (Z.to_nat (k - i - 1)) with (Datatypes.S (Z.to_nat (k - (i + 1) - 1))) in Hl by lia.
      split_and!; [lia|done|done].
Qed.

Lemma single_Contains k j : 0 < k -> 0 < j -> Set_Contains [mkRange k k] j = true <-> j = k.
Proof.
  intros Hk Hj. unfold Set_Contains, Set_search. cbn -[Z.eqb Z.ltb Z.leb]. unfold Range_Less, Range_Contains. simpl.
  destruct (Z.eqb_spec j 0); [lia|]. destruct (Z.eqb_spec k 0); [lia|]. simpl.
  destruct (Z.ltb_spec k j); simpl; [split; [done|lia]|].
  destruct (Z.leb_spec k j), (Z.leb_spec j k); simpl; split; intros; try done; lia.
Qed.

(** [C39] Both ways of addressing mean the same messages: a sequence set stands for
    the positions of the snapshot it contains, a UID set for the messages whose UID
    it contains; what is addressed by UID can be addressed by its position, and
    each message at most once. *)
Theorem resolve_exact (n : NumSet_) (snapshot : list MessageSummary) (k : Z) (m : MessageSummary) :
  Z.of_nat (length snapshot) < 4294967296 ->
  ((k, m) ∈ resolve n snapshot <-> 0 < k /\ snapshot !! Z.to_nat (k - 1) = Some m
     /\ match n with SeqSet set => Set_Contains set k = true | UIDSet set => Set_Contains set (u32 (ms_LocalUID m)) = true end)
  /\ ((k, m) ∈ resolve n snapshot -> forall j m', (j, m') ∈ resolve (SeqSet [mkRange k k]) snapshot <-> j = k /\ m' = m)
  /\ (NoDup (map ms_MailboxMessageID snapshot) -> NoDup (map (fun item => ms_MailboxMessageID item.2) (resolve n snapshot))).
Proof.
  intros Hlen.
  assert (forall n k m, (k, m) ∈ resolve n snapshot <-> 0 < k /\ snapshot !! Z.to_nat (k - 1) = Some m /\ hit n k m = true) as Hin.
  { intros n' k' m'. unfold resolve. rewrite elem_of_resolve_from by lia. by replace (k' - 0 - 1) with (k' - 1) by lia. }
  split_and!; [rewrite Hin; by destruct n| |apply resolve_distinct].
  rewrite Hin. intros (Hk & Hm & _) j m'. rewrite Hin. cbn [hit]. split.
  - intros (Hj & Hm' & ->%single_Contains); [|lia..]. split; [done|congruence].
  - intros [-> ->]. split_and!; [done|done|]. by apply single_Contains.
Qed.

Lemma resolve_exact_witness :
  resolve (UIDSet [mkRange 2 3]) (ss_snapshot (cl_session (ex_serve calm ex_open ex_mail_db).2)) <> []
  /\ NoDup (map (fun item => ms_MailboxMessageID item.2)
       (resolve (UIDSet [mkRange 2 3]) (ss_snapshot (cl_session (ex_serve calm ex_open ex_mail_db).2)))).
Proof.
  split; [by vm_compute|].
  set (w := (ex_serve calm ex_open ex_mail_db).2).
  assert (ss_snapshot (cl_session w) = uid_listing 1 ex_mail_db) as E by by vm_compute. rewrite E.
  apply (resolve_exact (UIDSet [mkRange 2 3]) _ 1 (hd ex_big (uid_listing 1 ex_mail_db))); [by vm_compute|].
  apply uid_listing_distinct, ex_mail_db_wf.
Defined.

(** * Theorems about changes *)


(** A connection with the mailbox open. *)
Definition ex_opened : Client MemStore := (ex_serve calm ex_open ex_mail_db).2.
Definition ex_answer (c : Command) : (stopped + unit) * Client MemStore :=
  @readCommand MemStore (Mem_BlobStore ex_sha) calm true ex_IDKey ex_hash (fun _ => 0) ex_read (fun _ => []) c ex_opened.
Definition ex_read_command (c : Command) : Client MemStore := (ex_answer c).2.
Definition ex_flag : StoreFlags := mk_StoreFlags StoreFlagsAdd true ["\Flagged"%string].

Lemma ex_opened_db : cl_db ex_opened = ex_mail_db.
Proof. by vm_compute. Qed.


(** [C9] A STORE that nothing interrupts does what it says: every addressed message
    gets the flags its operation computes from the snapshot, every other message
    keeps its own, each change is queued for the upstream server, pending and with
    no attempt made, the client is told the new flags unless it asked for silence,
    and afterwards the snapshot is the mailbox as it then is. *)
Theorem store_applies {S : Type} `{BlobStore S} (env : ClientEnv) (IDKey : bytes -> bytes -> Z -> Z -> Z -> Z -> bytes)
    (sha256_hex : string -> string) (w : Client S) (a : Account) (m : Mailbox) (n : NumSet_) (f : StoreFlags) :
  (forall n db, ce_others env n db = db) -> (forall n, ce_fault env n = NoFault) -> (forall n, ce_write env n = None) ->
  client_ok IDKey w -> cl_state w = Selected -> ss_user (cl_session w) <> None ->
  ss_account (cl_session w) = Some a -> ss_mailbox (cl_session w) = Some m -> ss_readOnly (cl_session w) = false ->
  ready a m w ->
  let addressed := resolve n (ss_snapshot (cl_session w)) in
  exists w', Store env sha256_hex n f w = (inr tt, w')
    /\ (forall k e r, (k, e) ∈ addressed -> rows (mailbox_messages (cl_db w)) !! ms_MailboxMessageID e = Some r ->
         rows (mailbox_messages (cl_db w')) !! ms_MailboxMessageID e
           = Some (set_mm_flags (applyFlagChange (ms_Flags e) f) r))
    /\ (forall id, id ∉ map (fun item => ms_MailboxMessageID item.2) addressed ->
         rows (mailbox_messages (cl_db w')) !! id = rows (mailbox_messages (cl_db w)) !! id)
    /\ (forall item, item ∈ addressed -> queued (key_for sha256_hex a m f item) (cl_db w'))
    /\ ss_snapshot (cl_session w') = uid_listing m.1 (cl_db w')
    /\ cl_out w' = cl_out w ++ (if sf_Silent f then [] else map (reply_for f) addressed).
Proof.
  intros Halone Hnf Hw Hok Est Hu Ea Em Ero Hr addressed. destruct (co_selected _ _ Hok Est) as (m' & Em' & [_ _ Hd]).
  destruct (store_all_calm env sha256_hex Halone Hnf Hw a m f addressed w Hr (resolve_distinct n _ Hd))
    as (w1 & E1 & Hr1 & Es & Hrows & Hkeep & Hq & _ & Eo).
  unfold Store. unfold mbind at 1, SE_bind at 1. rewrite requireMailbox_eq, Ea, Em.
  destruct (ss_user (cl_session w)); [|done]. unfold mbind at 1, SE_bind at 1. unfold look at 1. rewrite Ero.
  unfold mbind at 1, SE_bind at 1. cbn [fst snd]. fold addressed. rewrite E1.
  unfold refreshSnapshot, mbind, SE_bind. rewrite (db_call_calm env Halone Hnf), uid_listing_eq. cbn [fst lift].
  eexists. split; [reflexivity|]. cbn. split_and!; try done.
  intros k e r Hin. apply (Hrows (k, e) r Hin).
Qed.

Lemma store_applies_witness :
  exists w', Store calm ex_hash (UIDSet [mkRange 2 3]) ex_flag ex_opened = (inr tt, w')
    /\ ss_snapshot (cl_session w') = uid_listing 1 (cl_db w')
    /\ map ms_Flags (ss_snapshot (cl_session w')) = [[]; ["\Flagged"]; ["\Flagged"]]%string.
Proof.
  assert (exists a m, ss_account (cl_session ex_opened) = Some a /\ ss_mailbox (cl_session ex_opened) = Some m
    /\ a.1 = 1 /\ m.1 = 1 /\ ss_user (cl_session ex_opened) <> None)
    as (a & m & Ea & Em & Ia & Im & Hu) by (vm_compute; do 2 eexists; split_and!; done).
  assert (client_ok ex_IDKey ex_opened) as Hok.
  { refine (serve_keeps calm true ex_IDKey ex_hash (fun _ => 0) ex_read (fun _ => []) (calm_ok ex_hash) ex_open _ _).
    constructor; [apply ex_mail_db_wf|by constructor|done|done]. }
  assert (ready a m ex_opened) as Hr.
  { constructor; rewrite ?ex_opened_db, ?Ia, ?Im; [apply ex_mail_db_wf|eexists; vm_compute; reflexivity..|by vm_compute]. }
  assert (cl_state ex_opened = Selected) as Est by by vm_compute.
  assert (ss_readOnly (cl_session ex_opened) = false) as Ero by by vm_compute.
  destruct (@store_applies MemStore (Mem_BlobStore ex_sha) calm ex_IDKey ex_hash ex_opened a m (UIDSet [mkRange 2 3]) ex_flag
    (fun _ _ => eq_refl) (fun _ => eq_refl) (fun _ => eq_refl) Hok Est Hu Ea Em Ero Hr) as (w' & E & _ & _ & _ & Hsn & _).
  exists w'. rewrite Im in Hsn. split_and!; [exact E|exact Hsn|].
  replace w' with (Store calm ex_hash (UIDSet [mkRange 2 3]) ex_flag ex_opened).2 by by rewrite E. by vm_compute.
Defined.
