(* ===== verification/ImapFaults.v ===== *)
(** How commands end: which are answered, which close the connection and which
    block it; what SELECT, NOOP and FETCH report. *)
From S2P Require Import Prelude NumSet GoStrings Retry Schema StoreMailboxes StoreMessages StoreMutations StoreRuns StoreAccounts StoreBrowse StoreInvariant StoreSteps StoreProps Blob Text Mailstore Crypto SyncPass ImapText ImapTextProps ImapSearch Effects ImapSession ImapConn ImapConnProps ImapTheorems ImapStore.
From Stdlib Require Import String.
From stdpp Require Import strings gmap list relations sorting.
Open Scope list_scope.
Open Scope Z_scope.

Section endings.
Context {S : Type} `{BlobStore S}.
Variable env : ClientEnv.
Variable canAuth : bool.
Variable IDKey : bytes -> bytes -> Z -> Z -> Z -> Z -> bytes.
Variable sha256_hex : string -> string.
Variable zone : Z -> Z.
Variable message_Read : bytes -> ReadResult.
Variable err_bytes : err -> bytes.

Notation CL := (Client S).
Notation CM := (SE stopped CL).

(** * Programs that give the encoder back *)

(** Started with the encoder free, it ends with the encoder free, and does not
    block. *)
Definition releases {A} (m : CM A) : Prop :=
  triple (fun w => cl_encMutex w = false) m (fun _ w => cl_encMutex w = false)
    (fun s w => cl_encMutex w = false /\ s <> Deadlock).

Lemma releases_ret {A} (x : A) : releases (mret x).
Proof. by intros w. Qed.
Lemma releases_fails {A} e : releases (fails (A := A) e).
Proof. by intros w. Qed.
Lemma releases_stop {A} s : s <> Deadlock -> releases (stop (A := A) s).
Proof. by intros Hs w Hw. Qed.
Lemma releases_look {A} (f : CL -> A) : releases (look f).
Proof. by intros w. Qed.
Lemma releases_on_session f : releases (on_session f).
Proof. by intros w. Qed.
Lemma releases_set_state s : releases (set_state s).
Proof. by intros w. Qed.
Lemma releases_bind {A B} (m : CM A) (f : A -> CM B) : releases m -> (forall x, releases (f x)) -> releases (m ≫= f).
Proof. intros Hm Hf. by eapply triple_bind. Qed.
Lemma releases_db_call {A} (m : Z -> sql A) : releases (db_call env m).
Proof.
  intros w Hw. unfold db_call. destruct (ce_fault env _); [|done|done].
  destruct (m _ _) as [[e|x] db]; simpl; [by split|done].
Qed.
Lemma releases_internally {A} (m : CM A) : releases m -> releases (internally m).
Proof. intros Hm w Hw. specialize (Hm w Hw). unfold internally, map_stop. destruct (m w) as [[[]|] ?]; naive_solver. Qed.
Lemma releases_for_each {A} (f : A -> CM unit) l : (forall x, releases (f x)) -> releases (for_each f l).
Proof. intros Hf. induction l; [apply releases_ret|by apply releases_bind]. Qed.
(** What is done with the result of an attempt only sees results other than a
    blocked one. *)
Lemma releases_attempt {A B} (m : CM A) (f : stopped + A -> CM B) : releases m ->
  (forall r, r <> inl Deadlock -> releases (f r)) -> releases (attempt m ≫= f).
Proof.
  intros Hm Hf w Hw. specialize (Hm w Hw). unfold mbind, SE_bind, attempt. destruct (m w) as [[s|x] w1].
  - destruct Hm as [Hw1 Hs]. by apply Hf; [congruence|].
  - by apply Hf.
Qed.
Lemma releases_write r : releases (write env r).
Proof.
  intros w Hw. unfold write, newResponseEncoder, mbind, SE_bind, look, set_encMutex, updates, attempt, send. rewrite Hw.
  simpl. by destruct (ce_write env _).
Qed.
Hint Resolve releases_ret releases_fails releases_look releases_on_session releases_set_state releases_db_call
  releases_write : releases.

Ltac walk := repeat first
  [ progress intros
  | solve [eauto with releases]
  | apply releases_attempt | apply releases_bind | apply releases_internally | apply releases_for_each
  | apply releases_stop; congruence
  | match goal with |- releases (match ?x with _ => _ end) => destruct x eqn:? end ].

Lemma releases_Poll : releases (Poll env).
Proof. unfold Poll, refreshSnapshot, report_count. walk. Qed.
Hint Resolve releases_Poll : releases.
Lemma releases_Idle events : releases (Idle env events).
Proof. induction events as [|[] events IH]; cbn [Idle]; walk. Qed.
Lemma releases_writeStatus d o : releases (writeStatus env d o).
Proof. unfold writeStatus. walk. Qed.
Hint Resolve releases_Idle releases_writeStatus : releases.
Lemma releases_requireAuth : releases requireAuth.
Proof. unfold requireAuth. walk. Qed.
Lemma releases_requireMailbox : releases requireMailbox.
Proof. unfold requireMailbox, requireAuth. walk. Qed.
Lemma releases_checkState s : releases (checkState s).
Proof. unfold checkState. walk. Qed.
Hint Resolve releases_requireAuth releases_requireMailbox releases_checkState : releases.
Lemma releases_Login u p : releases (Login env IDKey u p).
Proof. unfold Login. walk. Qed.
Lemma releases_Store n f : releases (Store env sha256_hex n f).
Proof. unfold Store, store_message, refreshSnapshot. walk. Qed.
Lemma releases_Select m ro : releases (Select env m ro).
Proof. unfold Select, refreshSnapshot. walk. Qed.
Hint Resolve releases_Login releases_Store releases_Select : releases.

Definition fetches (c : Command) : bool := match c with CmdFetch _ _ => true | _ => false end.

Lemma releases_handle c : fetches c = false ->
  releases (handle env canAuth IDKey sha256_hex zone message_Read err_bytes c).
Proof.
  intros Hc. destruct c; try done; unfold handle, handleLogin, handleSelect, close_selected, handleUnselect, handleIdle,
    Status, List_, WriteList, Namespace, Search, Unselect, Create, Delete_, Rename, Subscribe, Unsubscribe, Append, Expunge,
    Copy, unsupported; walk.
Qed.

Lemma releases_readCommand c : releases (handle env canAuth IDKey sha256_hex zone message_Read err_bytes c) ->
  releases (readCommand env canAuth IDKey sha256_hex zone message_Read err_bytes c).
Proof.
  intros Hh. unfold readCommand, answer, farewell, poll. apply releases_attempt; [exact Hh|]. walk.
Qed.

(** * What is sent *)

Definition grows (w w' : CL) : Prop := exists new, cl_out w' = cl_out w ++ new.
Definition tells (w w' : CL) : Prop := exists new type code, cl_out w' = cl_out w ++ new /\ Tagged type code ∈ new.
#[local] Instance grows_preorder : PreOrder grows.
Proof.
  split; [intros w; exists []; by rewrite app_nil_r|]. intros w1 w2 w3 [n1 E1] [n2 E2]. exists (n1 ++ n2).
  by rewrite E2, E1, app_assoc.
Qed.
Lemma grows_tells w1 w2 w3 : grows w1 w2 -> tells w2 w3 -> tells w1 w3.
Proof.
  intros [n1 E1] (n2 & ty & code & E2 & Hin). exists (n1 ++ n2), ty, code. rewrite E2, E1, app_assoc. split; [done|].
  apply elem_of_app. by right.
Qed.
Lemma tells_grows w1 w2 w3 : tells w1 w2 -> grows w2 w3 -> tells w1 w3.
Proof.
  intros (n1 & ty & code & E1 & Hin) [n2 E2]. exists (n1 ++ n2), ty, code. rewrite E2, E1, app_assoc. split; [done|].
  apply elem_of_app. by left.
Qed.

Lemma same_out (f : CL -> CL) : (forall w, cl_out (f w) = cl_out w) -> respects grows (updates f : CM unit).
Proof. intros Hf w. exists []. simpl. by rewrite Hf, app_nil_r. Qed.
Lemma db_call_grows {A} (m : Z -> sql A) : respects grows (db_call env m).
Proof.
  intros w. exists []. rewrite app_nil_r. unfold db_call. destruct (ce_fault env _); [|done|done]. by destruct (m _ _).
Qed.
Lemma blob_read_grows key : respects grows (blob_read env key).
Proof. intros w. exists []. rewrite app_nil_r. unfold blob_read. by destruct (ce_get env _). Qed.
Lemma send_grows r : respects grows (send env r).
Proof. intros w. unfold send. destruct (ce_write env _); [exists []; by rewrite app_nil_r|by exists [r]]. Qed.
Hint Resolve db_call_grows blob_read_grows send_grows : respects.
Hint Extern 2 (respects grows (updates _)) => (apply same_out; done) : respects.

Ltac grow := unfold writeStatus, Unselect, refreshSnapshot, report_count, requireMailbox, requireAuth, write,
  newResponseEncoder, internally, fails, on_session, set_encMutex, set_state; respects_steps.

Lemma Poll_grows : respects grows (Poll env).
Proof. unfold Poll. grow. Qed.
Hint Resolve Poll_grows : respects.
Lemma Idle_grows events : respects grows (Idle env events).
Proof. induction events as [|[] events IH]; cbn [Idle]; grow. Qed.
Lemma write_grows r : respects grows (write env r).
Proof. grow. Qed.
Hint Resolve Idle_grows write_grows : respects.

Lemma handle_grows c : respects grows (handle env canAuth IDKey sha256_hex zone message_Read err_bytes c).
Proof.
  destruct c; unfold handle, handleLogin, Login, handleSelect, close_selected, Select, handleUnselect, handleIdle,
    Status, List_, WriteList, Namespace, Search, Fetch, writeMessage, loadRaw, Store, store_message, Create, Delete_, Rename,
    Subscribe, Unsubscribe, Append, Expunge, Copy, unsupported, checkState; grow.
Qed.

Lemma write_tells ty code w w' : write env (Tagged ty code) w = (inr tt, w') -> tells w w'.
Proof.
  unfold write, newResponseEncoder, mbind, SE_bind, look, set_encMutex, updates, attempt, send.
  destruct (cl_encMutex w); [done|]. simpl. destruct (ce_write env _); [done|]. intros [= <-].
  exists [Tagged ty code], ty, code. split; [done|]. by left.
Qed.


(** Whenever it gets to its end, a tagged reply has been sent. *)
Definition told {A} (m : CM A) : Prop := forall w, match m w with (inr _, w') => tells w w' | (inl _, _) => True end.
Lemma told_fails {A} e : told (fails (A := A) e).
Proof. done. Qed.
Lemma told_stop {A} s : told (stop (A := A) s).
Proof. done. Qed.
Lemma told_write ty code : told (write env (Tagged ty code)).
Proof. intros w. destruct (write env _ w) as [[|[]] w'] eqn:E; [done|]. by apply write_tells in E. Qed.
Lemma told_write_reply e : told (write env (status_reply e)).
Proof. unfold status_reply. destruct (as_imap e) as [[]|]; apply told_write. Qed.
Lemma told_later {A B} (m : CM A) (f : A -> CM B) : respects grows m -> (forall x, told (f x)) -> told (m ≫= f).
Proof.
  intros Hm Hf w. unfold mbind, SE_bind. specialize (Hm w). destruct (m w) as [[|x] w1]; [done|].
  specialize (Hf x w1). destruct (f x w1) as [[|y] w2]; [done|]. by eapply grows_tells.
Qed.
Lemma told_before {A B} (m : CM A) (f : A -> CM B) : told m -> (forall x, respects grows (f x)) -> told (m ≫= f).
Proof.
  intros Hm Hf w. unfold mbind, SE_bind. specialize (Hm w). destruct (m w) as [[|x] w1]; [done|].
  specialize (Hf x w1). destruct (f x w1) as [[|y] w2]; [done|]. by eapply tells_grows.
Qed.

Lemma handle_answered c w w' :
  handle env canAuth IDKey sha256_hex zone message_Read err_bytes c w = (inr false, w') -> tells w w'.
Proof.
  assert (forall m : CM unit, (m ≫= fun _ => mret true) w = (inr false, w') -> False) as Hok.
  { intros m. unfold mbind, SE_bind. by destruct (m w) as [[?|?] ?]. }
  assert (forall m : CM unit, told m -> (m ≫= fun _ => mret false) w = (inr false, w') -> tells w w') as Hans.
  { intros m Hm E. assert (told (m ≫= fun _ => mret false)) as Ht by (apply told_before; [done|grow]).
    specialize (Ht w). by rewrite E in Ht. }
  destruct c; unfold handle; intros E; try done; try (exfalso; by eapply Hok); try (eapply Hans; [|exact E]); clear Hok Hans.
  - unfold handleLogin. apply told_later; [unfold checkState; grow|]. intros _. destruct (negb canAuth); [apply told_fails|].
    apply told_later; [unfold Login; grow|]. intros _. apply told_later; [grow|]. intros _. apply told_write.
  - unfold handleSelect. apply told_later; [unfold checkState; grow|]. intros _.
    apply told_later; [unfold close_selected; grow|]. intros _. apply told_later; [unfold Select; grow|]. intros d.
    apply told_later; [grow|]. intros _. apply told_later; [grow|]. intros _. apply told_write.
  - apply told_later; [unfold checkState; grow|]. intros _. apply told_fails.
  - apply told_later; [unfold checkState; grow|]. intros _. apply told_fails.
  - unfold mbind, SE_bind, look in E. by case_bool_decide.
Qed.

Lemma readCommand_told c w w' :
  readCommand env canAuth IDKey sha256_hex zone message_Read err_bytes c w = (inr tt, w') -> tells w w'.
Proof.
  unfold readCommand. unfold mbind at 1, SE_bind at 1, attempt at 1.
  pose proof (handle_grows c w) as Hg. pose proof (handle_answered c w) as Ha.
  destruct (handle _ _ _ _ _ _ _ c w) as [r w1]. simpl in Hg.
  assert (match answer env r w1 with (inr _, w2) => tells w w2 | (inl _, w2) => True end) as Hans.
  { unfold answer. destruct r as [[e| |]|[]]; [| | | |by apply Ha].
    - pose proof (told_write_reply e w1) as Ht. destruct (write env _ w1) as [[|] w2]; [done|]. by eapply grows_tells.
    - done.
    - done.
    - pose proof (told_later (poll env) (fun _ => write env (Tagged "OK" "")) ltac:(unfold poll; grow)
        (fun _ => told_write _ _) w1) as Ht.
      destruct ((poll env ≫= _) w1) as [[|] w2]; [done|]. by eapply grows_tells. }
  unfold mbind at 1, SE_bind at 1, attempt at 1. destruct (answer env r w1) as [[s|[]] w2].
  - unfold mbind, SE_bind. by destruct (farewell env c w2) as [[?|?] ?].
  - assert (respects grows (farewell env c)) as Hf by (unfold farewell; grow). specialize (Hf w2).
    unfold mbind, SE_bind. destruct (farewell env c w2) as [[?|?] w3]; [done|]. intros [= <-]. by eapply tells_grows.
Qed.
End endings.

(** * Theorems *)

(** [C20] Every command other than FETCH is answered: started with the response
    encoder free it does not block, leaves the encoder free for the next command,
    and if the connection survives it has sent a tagged reply, whatever store calls
    and writes fail. *)
Theorem commands_answered {S : Type} `{BlobStore S} (env : ClientEnv) (canAuth : bool)
    (IDKey : bytes -> bytes -> Z -> Z -> Z -> Z -> bytes) (sha256_hex : string -> string) (zone : Z -> Z)
    (message_Read : bytes -> ReadResult) (err_bytes : err -> bytes) (c : Command) (w : Client S) :
  fetches c = false -> cl_encMutex w = false ->
  let '(r, w') := readCommand env canAuth IDKey sha256_hex zone message_Read err_bytes c w in
  r <> inl Deadlock /\ cl_encMutex w' = false
  /\ (r = inr tt -> exists new type code, cl_out w' = cl_out w ++ new /\ Tagged type code ∈ new).
Proof.
  intros Hc Hw.
  pose proof (releases_readCommand env canAuth IDKey sha256_hex zone message_Read err_bytes c
    (releases_handle env canAuth IDKey sha256_hex zone message_Read err_bytes c Hc) w Hw) as Hr.
  pose proof (readCommand_told env canAuth IDKey sha256_hex zone message_Read err_bytes c w) as Ht.
  destruct (readCommand _ _ _ _ _ _ _ c w) as [[s|[]] w'].
  - destruct Hr as [? ?]. split_and!; [congruence|done|done].
  - split_and!; [done|done|]. intros _. by apply Ht.
Qed.

Lemma commands_answered_witness :
  exists new type code, cl_out (ex_read_command CmdNoop) = cl_out ex_opened ++ new /\ Tagged type code ∈ new.
Proof.
  pose proof (@commands_answered MemStore (Mem_BlobStore ex_sha) calm true ex_IDKey ex_hash (fun _ => 0) ex_read (fun _ => [])
    CmdNoop ex_opened eq_refl ltac:(by vm_compute)) as Ha.
  fold (ex_answer CmdNoop) in Ha. unfold ex_read_command. assert ((ex_answer CmdNoop).1 = inr tt) as E by by vm_compute.
  destruct (ex_answer CmdNoop) as [r w']. by apply Ha.
Defined.

Lemma checkState_ok {S : Type} s (w : Client S) : cl_state w = s -> checkState s w = (inr tt, w).
Proof.
  intros E. unfold checkState, mbind, SE_bind, look. rewrite E. rewrite (bool_decide_true (s = s)) by done.
  by destruct (bool_decide _ && _).
Qed.

(** [C24] A FETCH that cannot load a message hangs the connection for good: when the
    database fails to say where the message is (a timeout, a lost connection), the
    response already begun keeps the encoder, the error reply waits for it for ever,
    and the client never hears again, neither a reply nor the connection closing. *)
Theorem failed_fetch_hangs {S : Type} `{BlobStore S} (env : ClientEnv) (canAuth : bool)
    (IDKey : bytes -> bytes -> Z -> Z -> Z -> Z -> bytes) (sha256_hex : string -> string) (zone : Z -> Z)
    (message_Read : bytes -> ReadResult) (err_bytes : err -> bytes) (w : Client S)
    (n : NumSet_) (o : FetchOptions) (first : Z * MessageSummary) (rest : list (Z * MessageSummary)) (e : err)
    (later : list Command) :
  cl_state w = Selected -> cl_encMutex w = false ->
  ss_user (cl_session w) <> None -> ss_account (cl_session w) <> None -> ss_mailbox (cl_session w) <> None ->
  resolve n (ss_snapshot (cl_session w)) = first :: rest -> needsRaw o = true ->
  ce_fault env (cl_calls w) = FailBefore e -> missing e = false ->
  let '(fate, w') := serve env canAuth IDKey sha256_hex zone message_Read err_bytes (CmdFetch n o :: later) w in
  fate = Stuck /\ cl_out w' = cl_out w.
Proof.
  intros Est Henc Hu Ha Hm Hres Hraw Hf Hmiss. cbn [serve].
  assert (exists w1, Fetch env zone message_Read err_bytes n o w = (inl (Error e), w1)
    /\ cl_encMutex w1 = true /\ cl_out w1 = cl_out w /\ cl_state w1 = Selected) as (w1 & E1 & Henc1 & Eo & Est1).
  { unfold Fetch. unfold mbind at 1, SE_bind at 1. rewrite requireMailbox_eq.
    destruct (ss_user (cl_session w)), (ss_account (cl_session w)), (ss_mailbox (cl_session w)); try done.
    unfold mbind at 1, SE_bind at 1, look at 1. rewrite Hres. cbn [for_each].
    unfold writeMessage, newResponseEncoder, loadRaw, db_call, mbind, SE_bind, look, attempt, set_encMutex, updates.
    rewrite Henc, Hraw. cbn. rewrite Hf, Hmiss. eexists. split; [reflexivity|]. by cbn. }
  unfold readCommand. unfold mbind at 1, SE_bind at 1, attempt at 1.
  assert (handle env canAuth IDKey sha256_hex zone message_Read err_bytes (CmdFetch n o) w = (inl (Error e), w1)) as ->.
  { unfold handle. unfold mbind, SE_bind. rewrite checkState_ok by done. by rewrite E1. }
  unfold mbind at 1, SE_bind at 1, attempt at 1. unfold answer, write, newResponseEncoder, mbind, SE_bind, look, stop, farewell.
  rewrite Henc1. by destruct w1.
Qed.

(** The database fails once, at the next call. *)
Definition ex_flaky (n : nat) : ClientEnv := mk_ClientEnv
  (fun k => if (k =? n)%nat then FailBefore ErrDeadlineExceeded else NoFault) (fun _ db => db) (fun _ => 100) (fun _ => None)
  (fun _ => None) (fun _ => false).
Definition ex_whole : FetchOptions := mk_FetchOptions true true false false false false
  [mk_BodySection PartSpecifierNone [] [] None].

Lemma failed_fetch_hangs_witness :
  (ex_serve (ex_flaky 4) (ex_open ++ [CmdFetch (SeqSet [mkRange 1 1]) ex_whole; CmdNoop]) ex_mail_db).1 = Stuck
  /\ (@serve MemStore (Mem_BlobStore ex_sha) (ex_flaky (cl_calls ex_opened)) true ex_IDKey ex_hash (fun _ => 0) ex_read (fun _ => [])
       [CmdFetch (SeqSet [mkRange 1 1]) ex_whole; CmdNoop] ex_opened).1 = Stuck.
Proof.
  split; [by vm_compute|].
  pose proof (@failed_fetch_hangs MemStore (Mem_BlobStore ex_sha) (ex_flaky (cl_calls ex_opened)) true ex_IDKey ex_hash (fun _ => 0)
    ex_read (fun _ => []) ex_opened (SeqSet [mkRange 1 1]) ex_whole (1, hd ex_big (ss_snapshot (cl_session ex_opened))) []
    ErrDeadlineExceeded [CmdNoop]) as Ht.
  destruct (serve _ _ _ _ _ _ _ _ ex_opened) as [fate w']. apply Ht; try (by vm_compute); done.
Defined.
