(* ===== verification/ImapReports.v ===== *)
(** What a mail client is told: STATUS, CLOSE, NOOP, SELECT, UIDVALIDITY and the
    content of messages. *)
From S2P Require Import Prelude NumSet GoStrings Retry Schema StoreMailboxes StoreMessages StoreMutations StoreRuns StoreAccounts StoreBrowse StoreInvariant StoreSteps StoreProps Blob Text Mailstore Crypto SyncPass ImapText ImapTextProps ImapSearch Effects ImapSession ImapConn ImapConnProps ImapTheorems ImapStore ImapFaults.
From Stdlib Require Import String.
From stdpp Require Import strings gmap list relations sorting.
Open Scope list_scope.
Open Scope Z_scope.

(** * STATUS *)

Definition unanswerable (o : StatusOptions) : bool :=
  so_NumDeleted o || so_Size o || so_DeletedStorage o || so_NumRecent o.

Lemma status_items_spec box o : status_items (statusFor box (Some o)) o = None <-> unanswerable o = true.
Proof.
  destruct o as [a b c d e f g h i]. unfold status_items, statusFor, unanswerable, pointed. cbn -[u32 uidValidity].
  by destruct a, d, e, f, h, i.
Qed.

(** STATUS drops the connection for half of what a client may ask: a request
    for RECENT, DELETED, SIZE or DELETED-STORAGE of an existing mailbox reads a
    number the server never set, and the connection closes without a reply; a
    request for anything else can be answered. *)
Theorem status_closes_connection {S : Type} `{BlobStore S} (env : ClientEnv) (canAuth : bool)
    (IDKey : bytes -> bytes -> Z -> Z -> Z -> Z -> bytes) (sha256_hex : string -> string) (zone : Z -> Z)
    (message_Read : bytes -> ReadResult) (err_bytes : err -> bytes) (w : Client S) (mailbox : string) (o : StatusOptions)
    (a : Account) (boxes : list Mailbox) (box : Mailbox) (later : list Command) :
  cl_state w = Authenticated \/ cl_state w = Selected -> ss_user (cl_session w) <> None ->
  ss_account (cl_session w) = Some a -> ce_fault env (cl_calls w) = NoFault ->
  (ListMailboxes a.1 (ce_others env (cl_calls w) (cl_db w))).1 = inr boxes -> List.find (named mailbox) boxes = Some box ->
  let '(fate, w') := serve env canAuth IDKey sha256_hex zone message_Read err_bytes (CmdStatus mailbox o :: later) w in
  (unanswerable o = true -> fate = Closed /\ cl_out w' = cl_out w)
  /\ (unanswerable o = false -> exists items, status_items (statusFor box (Some o)) o = Some items).
Proof.
  intros Est Hu Ha Hf Hb Hfind.
  assert (unanswerable o = false -> exists items, status_items (statusFor box (Some o)) o = Some items) as Hans.
  { intros Hn. destruct (status_items _ _) eqn:E; [eauto|]. apply status_items_spec in E. congruence. }
  destruct (serve _ _ _ _ _ _ _ _ w) as [fate w'] eqn:Es. split; [|exact Hans]. intros Hp.
  revert Es. cbn [serve]. unfold readCommand. unfold mbind at 1, SE_bind at 1, attempt at 1.
  set (w1 := called (ce_others env (cl_calls w) (cl_db w)) w).
  assert (handle env canAuth IDKey sha256_hex zone message_Read err_bytes (CmdStatus mailbox o) w = (inl Panic, w1)) as ->.
  { unfold handle. unfold mbind, SE_bind. assert (checkState Authenticated w = (inr tt, w)) as ->.
    { destruct Est as [E|E]; unfold checkState, mbind, SE_bind, look; rewrite E; reflexivity. }
    unfold Status, mbind, SE_bind. rewrite requireAuth_eq. destruct (ss_user _); [|done]. rewrite Ha.
    unfold internally, map_stop, db_call. rewrite Hf. 
    assert (ListMailboxes a.1 (ce_others env (cl_calls w) (cl_db w)) = (inr boxes, ce_others env (cl_calls w) (cl_db w))) as ->.
    { unfold ListMailboxes, gets in *. cbn in Hb. congruence. }
    cbv beta iota delta [lift]. rewrite Hfind. cbv beta iota delta [mret SE_ret]. unfold writeStatus. by rewrite (proj2 (status_items_spec box o) Hp). }
  unfold mbind, SE_bind, attempt, answer, stop, farewell, look, mret, SE_ret. intros [= <- <-]. by split.
Qed.

Definition ex_recent : StatusOptions := mk_StatusOptions true true true true false false false false true.
Lemma status_closes_connection_witness :
  (ex_serve calm (ex_open ++ [CmdStatus "INBOX" ex_recent]) ex_mail_db).1 = Closed
  /\ (@serve MemStore (Mem_BlobStore ex_sha) calm true ex_IDKey ex_hash (fun _ => 0) ex_read (fun _ => [])
       [CmdStatus "INBOX" ex_recent] ex_opened).1 = Closed.
Proof.
  split; [by vm_compute|].
  assert (exists a boxes box, ss_account (cl_session ex_opened) = Some a
    /\ (ListMailboxes a.1 (ce_others calm (cl_calls ex_opened) (cl_db ex_opened))).1 = inr boxes
    /\ List.find (named "INBOX") boxes = Some box) as (a & boxes & box & Ea & Eb & Ef)
    by (vm_compute; do 3 eexists; split_and!; [reflexivity..]).
  pose proof (@status_closes_connection MemStore (Mem_BlobStore ex_sha) calm true ex_IDKey ex_hash (fun _ => 0) ex_read (fun _ => [])
    ex_opened "INBOX" ex_recent a boxes box [] (or_intror (eq_refl : cl_state ex_opened = Selected))
    ltac:(by vm_compute) Ea eq_refl Eb Ef) as Ht.
  destruct (serve _ _ _ _ _ _ _ _ ex_opened) as [fate w']. by apply Ht.
Defined.

(** * CLOSE *)

(** CLOSE never closes: it asks the session to expunge, which the session
    refuses, so the client gets NO and the mailbox stays selected; UNSELECT does
    close it. *)
Theorem close_is_refused {S : Type} `{BlobStore S} (env : ClientEnv) (canAuth : bool)
    (IDKey : bytes -> bytes -> Z -> Z -> Z -> Z -> bytes) (sha256_hex : string -> string) (zone : Z -> Z)
    (message_Read : bytes -> ReadResult) (err_bytes : err -> bytes) (w : Client S) :
  cl_state w = Selected -> cl_encMutex w = false -> (forall n, ce_write env n = None) ->
  let run c := readCommand env canAuth IDKey sha256_hex zone message_Read err_bytes c w in
  (exists w', run (CmdUnselect true) = (inr tt, w') /\ cl_out w' = cl_out w ++ [Tagged "NO" ""]
     /\ cl_state w' = Selected /\ cl_session w' = cl_session w)
  /\ (exists w', run (CmdUnselect false) = (inr tt, w') /\ cl_out w' = cl_out w ++ [Tagged "OK" ""]
     /\ cl_state w' = Authenticated /\ ss_mailbox (cl_session w') = None).
Proof.
  intros Est Henc Hw run. unfold run, readCommand. split.
  - unfold mbind at 1, SE_bind at 1, attempt at 1.
    assert (handle env canAuth IDKey sha256_hex zone message_Read err_bytes (CmdUnselect true) w
      = (inl (Error (ErrImap "NO" "" "EXPUNGE is not supported: this mailbox mirrors an upstream server and is read-only")), w)) as ->.
    { unfold handle, handleUnselect. unfold mbind, SE_bind. by rewrite checkState_ok. }
    unfold mbind at 1, SE_bind at 1, attempt at 1, answer. rewrite (write_calm env Hw) by done.
    eexists. split; [reflexivity|]. by split_and!.
  - unfold mbind at 1, SE_bind at 1, attempt at 1.
    assert (handle env canAuth IDKey sha256_hex zone message_Read err_bytes (CmdUnselect false) w
      = (inr true, with_state Authenticated (Unselect w).2)) as ->.
    { unfold handle, handleUnselect. unfold mbind, SE_bind. by rewrite checkState_ok. }
    unfold mbind at 1, SE_bind at 1, attempt at 1, answer. unfold mbind at 1, SE_bind at 1.
    change (poll env (with_state Authenticated (Unselect w).2)) with (inr (A := stopped) tt, with_state Authenticated (Unselect w).2).
    cbv beta iota. rewrite (write_calm env Hw) by done. eexists. split; [reflexivity|]. by split_and!.
Qed.
Lemma close_is_refused_witness :
  let out := map (fun r => match r with Tagged ty code => ty | _ => "" end) (cl_out (ex_read_command (CmdUnselect true))) in
  last out = Some "NO"%string /\ cl_state (ex_read_command (CmdUnselect true)) = Selected.
Proof.
  split; [by vm_compute|].
  destruct (proj1 (@close_is_refused MemStore (Mem_BlobStore ex_sha) calm true ex_IDKey ex_hash (fun _ => 0) ex_read (fun _ => [])
    ex_opened eq_refl eq_refl (fun _ => eq_refl))) as (w' & E & _ & Est & _).
  unfold ex_read_command, ex_answer. rewrite E. exact Est.
Defined.

(** * NOOP *)

(** After a NOOP, or any other command that succeeds, sequence numbers stand
    for the mailbox as it is at that moment, and all a client is told is the number
    of messages, and that only if it changed: deletions are never reported, so when
    as many messages arrived as vanished every number silently means another
    message. *)
Theorem poll_tells_count_only {S : Type} `{BlobStore S} (env : ClientEnv) (w : Client S) (m : Mailbox) :
  ss_mailbox (cl_session w) = Some m -> cl_encMutex w = false -> (forall n, ce_write env n = None) ->
  ce_fault env (cl_calls w) = NoFault ->
  let now := uid_listing m.1 (ce_others env (cl_calls w) (cl_db w)) in
  exists w', Poll env w = (inr tt, w') /\ ss_snapshot (cl_session w') = now
    /\ cl_out w' = cl_out w ++ (if (length now =? length (ss_snapshot (cl_session w)))%nat then []
                                else [NumExists (u32 (Z.of_nat (length now)))]).
Proof.
  intros Em Henc Hw Hf now. unfold Poll. unfold mbind at 1, SE_bind at 1, look at 1. rewrite Em.
  unfold mbind at 1, SE_bind at 1, internally, map_stop, refreshSnapshot, mbind at 1, SE_bind at 1, db_call. rewrite Hf.
  rewrite uid_listing_eq. fold now. cbv beta iota delta [lift fst on_session updates].
  unfold report_count, mbind, SE_bind, look. cbn [cl_session called set_snapshot ss_snapshot].
  destruct (length now =? length (ss_snapshot (cl_session w)))%nat.
  - eexists. split; [reflexivity|]. split; [done|]. by rewrite app_nil_r.
  - rewrite (write_calm env Hw) by done. eexists. split; [reflexivity|]. by split.
Qed.

(** Between two commands the first message goes and another one comes. *)
Definition ex_swap : ClientEnv := mk_ClientEnv (fun _ => NoFault)
  (fun _ db => exec (UpsertMetadata (ex_meta 14)) (exec (DeleteMissingUIDs 1 (Some [12; 13])) db))
  (fun _ => 100) (fun _ => None) (fun _ => None) (fun _ => false).
Lemma poll_tells_count_only_witness :
  exists w', Poll ex_swap ex_opened = (inr tt, w') /\ cl_out w' = cl_out ex_opened
    /\ map ms_LocalUID (ss_snapshot (cl_session ex_opened)) = [1; 2; 3]
    /\ map ms_LocalUID (ss_snapshot (cl_session w')) = [2; 3; 4].
Proof.
  assert (exists m, ss_mailbox (cl_session ex_opened) = Some m /\ m.1 = 1) as (m & Em & Im) by (vm_compute; eexists; done).
  destruct (@poll_tells_count_only MemStore (Mem_BlobStore ex_sha) ex_swap ex_opened m Em eq_refl (fun _ => eq_refl) eq_refl)
    as (w' & E & Es & Eo). rewrite Im in Es, Eo.
  exists w'. split; [exact E|]. rewrite Eo, Es. split_and!; [|by vm_compute|by vm_compute].
  assert (length (uid_listing 1 (ce_others ex_swap (cl_calls ex_opened) (cl_db ex_opened))) = 3%nat) as -> by by vm_compute.
  assert (length (ss_snapshot (cl_session ex_opened)) = 3%nat) as -> by by vm_compute. apply app_nil_r.
Defined.

(** * SELECT *)

(** SELECT reports the mailbox it opened: a mailbox of the account whose name
    matches regardless of case, all its live messages in order of UID, their number,
    and a UIDNEXT above each of their UIDs, provided nothing arrives between its two
    queries. *)
Theorem select_reports {S : Type} `{BlobStore S} (env : ClientEnv) (w : Client S) (a : Account) (mailbox : string)
    (readOnly : bool) (found : Mailbox) :
  (forall n db, ce_others env n db = db) -> (forall n, ce_fault env n = NoFault) -> db_wf (cl_db w) ->
  ss_user (cl_session w) <> None -> ss_account (cl_session w) = Some a ->
  List.find (named mailbox) (merge_sort canonical_le (select (fun _ r => mb_account_id r =? a.1) (mailboxes (cl_db w)))) = Some found ->
  0 <= mb_local_uidnext found.2 < 4294967296 ->
  let l := uid_listing found.1 (cl_db w) in
  exists w', Select env mailbox readOnly w = (inr (mk_SelectData (u32 (Z.of_nat (length l))) (mb_local_uidnext found.2)
      (uidValidity found) standardFlags standardFlags), w')
    /\ cl_session w' = mk_session (ss_user (cl_session w)) (Some a) (Some found) readOnly l
    /\ EqualFold (mb_name found.2) mailbox = true /\ mb_account_id found.2 = a.1
    /\ (forall e, e ∈ l -> 1 <= ms_LocalUID e < mb_local_uidnext found.2)
    /\ (forall id r, rows (mailbox_messages (cl_db w)) !! id = Some r -> live_in found.1 id r = true ->
         exists e, e ∈ l /\ ms_MailboxMessageID e = id /\ ms_LocalUID e = mm_local_uid r).
Proof.
  intros Halone Hnf Hwf Hu Ea Hfind Hnext l.
  assert (rows (mailboxes (cl_db w)) !! found.1 = Some found.2 /\ mb_account_id found.2 = a.1) as [Hrow Hacc].
  { apply List.find_some in Hfind as [Hin%list_elem_of_In _]. rewrite (merge_sort_Permutation canonical_le) in Hin.
    destruct found as [id r]. apply elem_of_select in Hin as [Hin Hac]. simpl in *. split; [done|lia]. }
  unfold Select. unfold mbind at 1, SE_bind at 1. rewrite requireAuth_eq, Ea. destruct (ss_user _) as [u|] eqn:Eu; [|done].
  unfold mbind at 1, SE_bind at 1, internally, map_stop. rewrite (db_call_calm env Halone Hnf).
  set (boxes := merge_sort _ _) in Hfind.
  change (ListMailboxes a.1 (cl_db w)).1 with (inr (A := err) boxes).
  change (exec (ListMailboxes a.1) (cl_db w)) with (cl_db w). cbv beta iota delta [lift]. rewrite Hfind.
  unfold mbind, SE_bind, refreshSnapshot, on_session, updates, mbind, SE_bind.
  rewrite (db_call_calm env Halone Hnf), uid_listing_eq. cbn -[u32 uidValidity uid_listing].
  rewrite (u32_id (mb_local_uidnext found.2)) by (unfold is_u32; lia).
  eexists. split; [reflexivity|]. split; [unfold set_snapshot, set_readOnly, set_mailbox; cbn; f_equal; congruence|]. split_and!.
  - by apply List.find_some in Hfind as [_ ?].
  - done.
  - intros e He. destruct (proj1 (uid_listing_rows (cl_db w) found.1 (ms_MailboxMessageID e) (ms_LocalUID e) (ms_Flags e) (ms_BodyState e) Hwf))
      as (r & Hr & Hl & E); [by exists e|]. injection E as Euid _ _.
    unfold live_in in Hl. bool_to_prop. assert (mm_mailbox_id r = found.1) as Hmb by lia.
    pose proof (wf_uids _ Hwf _ r found.2 Hr) as Hb. rewrite Hmb in Hb. specialize (Hb Hrow). lia.
  - intros id r Hr Hl. destruct (proj2 (uid_listing_rows (cl_db w) found.1 id (mm_local_uid r) (mm_flags r) (mm_body_state r) Hwf))
      as (e & He & E); [by exists r|]. exists e. simplify_eq. done.
Qed.

Lemma select_reports_witness :
  exists data w', Select calm "inbox" true ex_opened = (inr data, w')
    /\ se_NumMessages data = 3 /\ se_UIDNext data = 4 /\ map ms_LocalUID (ss_snapshot (cl_session w')) = [1; 2; 3].
Proof.
  assert (exists a found, ss_account (cl_session ex_opened) = Some a
    /\ List.find (named "inbox") (merge_sort canonical_le (select (fun _ r => mb_account_id r =? a.1) (mailboxes (cl_db ex_opened))))
        = Some found /\ found.1 = 1 /\ mb_local_uidnext found.2 = 4)
    as (a & found & Ea & Ef & If & Nf) by (vm_compute; do 2 eexists; split_and!; reflexivity).
  assert (db_wf (cl_db ex_opened)) as Hwf by (rewrite ex_opened_db; apply ex_mail_db_wf).
  destruct (@select_reports MemStore (Mem_BlobStore ex_sha) calm ex_opened a "inbox" true found (fun _ _ => eq_refl)
    (fun _ => eq_refl) Hwf ltac:(by vm_compute) Ea Ef ltac:(lia)) as (w' & E & Es & _).
  rewrite If, ex_opened_db in *. eexists _, w'. split; [exact E|]. rewrite Es, Nf. split_and!; [by vm_compute..].
Defined.

(** A message that arrives between the two queries of SELECT is in the snapshot but
    not below UIDNEXT. *)
Definition ex_arrival : ClientEnv := mk_ClientEnv (fun _ => NoFault)
  (fun n db => if (n =? 3)%nat then exec (UpsertMetadata (ex_meta 14)) db else db)
  (fun _ => 100) (fun _ => None) (fun _ => None) (fun _ => false).
Example uidnext_behind :
  let w := (ex_serve ex_arrival ex_open ex_mail_db).2 in
  map ms_LocalUID (ss_snapshot (cl_session w)) = [1; 2; 3; 4]
  /\ exists d, Selected_ d ∈ cl_out w /\ se_UIDNext d = 4.
Proof. vm_compute. split; [done|]. eexists. split; [right; left|done]. Qed.

(** * UIDVALIDITY *)

Lemma lxor_cancel a b c : Z.lxor a c = Z.lxor b c -> a = b.
Proof.
  intros E. rewrite <- (Z.lxor_0_r a), <- (Z.lxor_0_r b), <- (Z.lxor_nilpotent c), <- !Z.lxor_assoc. by rewrite E.
Qed.
Lemma lxor_u32 a b : is_u32 a -> is_u32 b -> is_u32 (Z.lxor a b).
Proof.
  unfold is_u32. intros Ha Hb. assert (0 <= Z.lxor a b) as Hp by (apply Z.lxor_nonneg; lia). split; [done|].
  destruct (Z.eq_dec (Z.lxor a b) 0) as [->|Hne]; [lia|]. apply (Z.log2_lt_pow2 _ 32); [lia|].
  pose proof (Z.log2_lxor a b ltac:(lia) ltac:(lia)).
  assert (forall x, 0 <= x < 4294967296 -> Z.log2 x < 32) as Hlog.
  { intros x Hx. destruct (Z.eq_dec x 0) as [->|]; [done|]. apply Z.log2_lt_pow2; [lia|]. change (2 ^ 32) with 4294967296. lia. }
  pose proof (Hlog a Ha). pose proof (Hlog b Hb). lia.
Qed.

(** UIDVALIDITY is a 32-bit number that tells two generations of a mailbox
    apart, so recovering from an upstream UIDVALIDITY change makes every client drop
    its cache, although that recovery leaves every message's local UID as it was. *)
Theorem uidvalidity_follows_generation (m m' : Mailbox) (db : DB) (r : mailbox_row) (newUIDValidity : Z) :
  is_u32 (uidValidity m)
  /\ (m.1 = m'.1 -> (uidValidity m = uidValidity m' <-> u32 (mb_sync_generation m.2) = u32 (mb_sync_generation m'.2)))
  /\ (rows (mailboxes db) !! m.1 = Some r ->
       let db' := exec (ResetForUIDValidityChange m.1 newUIDValidity) db in
       exists r', rows (mailboxes db') !! m.1 = Some r' /\ uidValidity (m.1, r') <> uidValidity (m.1, r)
         /\ forall id, (mm_local_uid <$> rows (mailbox_messages db') !! id) = (mm_local_uid <$> rows (mailbox_messages db) !! id)).
Proof.
  assert (forall id r1 r2, uidValidity (id, r1) = uidValidity (id, r2)
    <-> u32 (mb_sync_generation r1) = u32 (mb_sync_generation r2)) as Hiff.
  { intros id r1 r2. unfold uidValidity. cbn [fst snd]. split; [|by intros ->].
    intros E%lxor_cancel. rewrite !(Z.lxor_comm (u32 (i64 _))) in E. by apply lxor_cancel in E. }
  split_and!.
  - unfold uidValidity. apply lxor_u32; [apply lxor_u32; apply u32_range|by split].
  - destruct m as [id r1], m' as [id' r2]. cbn. intros ->. apply Hiff.
  - intros Hr db'. exists (reset_checkpoint newUIDValidity r).
    change (mailboxes db') with (update_where (id_is m.1) (reset_checkpoint newUIDValidity) (mailboxes db)).
    change (mailbox_messages db') with (update_where (in_mailbox m.1) clear_upstream (mailbox_messages db)).
    split_and!.
    + rewrite lookup_update_where, Hr. unfold id_is. simpl. by rewrite Z.eqb_refl.
    + rewrite Hiff. unfold u32. cbn [reset_checkpoint mb_sync_generation set_mb_uidvalidity set_mb_highestmodseq
        set_mb_metadata_synced_through_uid set_mb_resync_required set_mb_sync_generation].
      intros E. Z.to_euclidean_division_equations; lia.
    + intros id. rewrite lookup_update_where. destruct (rows (mailbox_messages db) !! id) as [x|]; [|done]. simpl.
      by destruct (in_mailbox m.1 id x).
Qed.

(** Not every value is allowed: this mailbox would report zero. *)
Definition ex_generation (g : Z) : mailbox_row := set_mb_sync_generation g
  (new_mailbox (mk_UpsertMailboxParams 1 "INBOX" "inbox" (Some "/"%string) [] None)).
Example uidvalidity_zero : uidValidity (10368889, ex_generation 185) = 0.
Proof. reflexivity. Qed.

Lemma uidvalidity_follows_generation_witness :
  uidValidity (1, ex_generation 0) <> uidValidity (1, ex_generation 1)
  /\ mm_local_uid <$> rows (mailbox_messages (exec (ResetForUIDValidityChange 1 99) ex_mail_db)) !! 3 = Some 3.
Proof.
  destruct (uidvalidity_follows_generation (1, ex_generation 0) (1, ex_generation 1) ex_mail_db
    (default (ex_generation 0) (rows (mailboxes ex_mail_db) !! 1)) 99) as (_ & H1 & H2).
  split; [rewrite (H1 eq_refl); by vm_compute|].
  destruct (H2 ltac:(by vm_compute)) as (_ & _ & _ & Hu). cbn [fst] in Hu. rewrite Hu. by vm_compute.
Defined.

(** * FETCH *)

Section fetching.
Variable sha256 : bytes -> list Z.
Context {S : Type} `{!BlobStore S} `{!BlobStoreLaws sha256 S}.
Variable env : ClientEnv.
Variable zone : Z -> Z.
Variable message_Read : bytes -> ReadResult.
Variable err_bytes : err -> bytes.
Hypothesis alone : forall n db, ce_others env n db = db.
Hypothesis no_fault : forall n, ce_fault env n = NoFault.
Hypothesis writable : forall n, ce_write env n = None.
Hypothesis readable : forall n, ce_get env n = None.

(** The stored bytes of a message, if it has any. *)
Definition stored_raw (db : DB) (blobs : S) (m : MessageSummary) : option bytes :=
  match (RawMessage (ms_MailboxMessageID m) db).1 with inr (key, _) => content blobs key | inl _ => None end.

Definition key_ok (db : DB) (m : MessageSummary) : Prop :=
  forall key size, (RawMessage (ms_MailboxMessageID m) db).1 = inr (key, size) -> Key_Valid key = true.

Lemma loadRaw_calm (w : Client S) m : key_ok (cl_db w) m ->
  exists r w', loadRaw env (ms_MailboxMessageID m) w = (r, w')
    /\ cl_db w' = cl_db w /\ cl_blobs w' = cl_blobs w /\ cl_session w' = cl_session w /\ cl_out w' = cl_out w
    /\ cl_encMutex w' = cl_encMutex w /\ cl_state w' = cl_state w
    /\ match r with
       | inr raw => stored_raw (cl_db w) (cl_blobs w) m = Some raw
       | inl (Error e) => missing e = true /\ stored_raw (cl_db w) (cl_blobs w) m = None
       | inl _ => False
       end.
Proof.
  intros Hk. unfold loadRaw, stored_raw, key_ok in *. unfold mbind, SE_bind. rewrite (db_call_calm env alone no_fault).
  rewrite RawMessage_same by exact 0. unfold RawMessage in *.
  destruct (rows (mailbox_messages (cl_db w)) !! ms_MailboxMessageID m ≫= _) as [x|] eqn:Ex; cbn in *.
  2: { eexists _, _. split; [reflexivity|]. by split_and!. }
  destruct (m_blob_key x) as [key|] eqn:Ek; cbn in *.
  2: { eexists _, _. split; [reflexivity|]. by split_and!. }
  specialize (Hk _ _ eq_refl). unfold blob_read. rewrite readable. cbn [called cl_blobs].
  destruct (content (cl_blobs w) key) as [d|] eqn:Ec.
  - rewrite (get_content sha256 key _ d Hk Ec). eexists _, _. split; [reflexivity|]. by split_and!.
  - rewrite (proj1 (get_missing sha256 key _ Hk Ec)). eexists _, _. split; [reflexivity|]. by split_and!.
Qed.

Lemma fetch_items_raw o m raw raw' : needsRaw o = false ->
  fetch_items zone message_Read err_bytes o m raw = fetch_items zone message_Read err_bytes o m raw'.
Proof.
  unfold needsRaw, fetch_items. destruct (fo_Envelope o), (fo_BodyStructure o); try done. cbn.
  case_bool_decide as E; [|done]. by rewrite E.
Qed.

Definition fetch_reply (db : DB) (blobs : S) (o : FetchOptions) (item : Z * MessageSummary) : Reply :=
  Fetched item.1 (fetch_items zone message_Read err_bytes o item.2 (default [] (stored_raw db blobs item.2))).

Record unmoved (w w' : Client S) : Prop := mk_unmoved {
  um_db : cl_db w' = cl_db w; um_blobs : cl_blobs w' = cl_blobs w; um_session : cl_session w' = cl_session w;
  um_encoder : cl_encMutex w' = false
}.

Lemma writeMessage_calm o item (w : Client S) : cl_encMutex w = false -> key_ok (cl_db w) item.2 ->
  exists w', writeMessage env zone message_Read err_bytes o item w = (inr tt, w') /\ unmoved w w'
    /\ cl_out w' = cl_out w ++ [fetch_reply (cl_db w) (cl_blobs w) o item].
Proof.
  intros Henc Hk. unfold writeMessage. unfold mbind at 1, SE_bind at 1.
  set (w1 := mk_Client (cl_state w) (cl_session w) (cl_db w) (cl_blobs w) (cl_calls w) (cl_out w) true).
  assert (newResponseEncoder w = (inr tt, w1)) as ->.
  { unfold newResponseEncoder, mbind, SE_bind, look. by rewrite Henc. }
  unfold mbind at 1, SE_bind at 1. unfold fetch_reply. destruct (needsRaw o) eqn:Hn.
  - destruct (loadRaw_calm w1 item.2 Hk) as (r & w2 & E & Edb & Ebl & Ess & Eo & _ & Est & Hr).
    unfold attempt at 1. rewrite E. cbn [w1 cl_db cl_blobs cl_session cl_out cl_state] in *.
    unfold mbind at 1, SE_bind at 1.
    assert (exists raw, (match r with
         | inr raw => mret raw
         | inl (Error e) => if missing e then mret [] else stop (Error e)
         | inl s => stop s
         end : SE stopped (Client S) bytes) w2 = (inr raw, w2) /\ default [] (stored_raw (cl_db w) (cl_blobs w) item.2) = raw) as (raw & -> & ->).
    { destruct r as [[e| |]|raw]; [|done|done|exists raw; by rewrite Hr]. destruct Hr as [-> ->]. by exists []. }
    unfold mbind, SE_bind, look, attempt, send, set_encMutex, updates. rewrite writable.
    eexists. split; [reflexivity|]. cbn. rewrite Eo. by split.
  - unfold mret at 1, SE_ret at 1. unfold mbind, SE_bind, mret, SE_ret, look, attempt, send, set_encMutex, updates. rewrite writable.
    eexists. split; [reflexivity|]. cbn. split; [done|]. by rewrite (fetch_items_raw o _ [] (default [] (stored_raw (cl_db w) (cl_blobs w) item.2))).
Qed.

Lemma writeMessages_calm o items (w : Client S) : cl_encMutex w = false -> (forall item, item ∈ items -> key_ok (cl_db w) item.2) ->
  exists w', for_each (writeMessage env zone message_Read err_bytes o) items w = (inr tt, w') /\ unmoved w w'
    /\ cl_out w' = cl_out w ++ map (fetch_reply (cl_db w) (cl_blobs w) o) items.
Proof.
  revert w. induction items as [|x items IH]; intros w Henc Hk.
  { exists w. split; [done|]. split; [done|]. by rewrite app_nil_r. }
  destruct (writeMessage_calm o x w Henc) as (w1 & E1 & [U1 U2 U3 U4] & Eo1); [apply Hk; left|].
  destruct (IH w1 U4) as (w2 & E2 & [V1 V2 V3 V4] & Eo2); [intros item Hin; rewrite U1; apply Hk; by right|].
  exists w2. cbn [for_each map]. unfold mbind, SE_bind. rewrite E1. split; [done|].
  split; [constructor; congruence|]. rewrite Eo2, Eo1, U1, U2. by rewrite <- app_assoc.
Qed.
End fetching.


(** The first message has been downloaded. *)
Definition ex_raw : bytes := lit "Subject: hi" ++ CRLF ++ CRLF ++ lit "yo".
Definition ex_raw_key : string := NewKey TypeRFC822 (ex_sha ex_raw).
Definition ex_downloaded : Client MemStore :=
  mk_Client Selected (cl_session ex_opened) (exec (AttachBody 1 (ex_sha ex_raw) 17 ex_raw_key) ex_mail_db)
    {[ ex_raw_key := ex_raw ]} 0 [] false.
Definition ex_text : FetchOptions := mk_FetchOptions false false false false false false
  [mk_BodySection PartSpecifierText [] [] None].
