(* ===== verification/SyncRun.v ===== *)
(** One sync run (internal/syncer/engine.go, mailbox.go: syncMailbox): the account
    lock, the run's row, the connection and its replacement, the mailboxes one
    after the other, the heartbeat. *)
From S2P Require Import Prelude NumSet Planner GoStrings Retry Upstream Commands Crypto Schema StoreMailboxes StoreMessages StoreRuns StoreAccounts SyncMeta SyncPass Effects.
From Stdlib Require Import String.
From stdpp Require Import strings gmap list.
Open Scope list_scope.
Open Scope Z_scope.

(** * The world of a run *)

(** [upstream.Account] *)
Record UpAccount := mk_UpAccount {
  ua_Host : string;
  ua_Port : Z;
  ua_TLSMode : string;
  ua_Username : string;
  ua_Password : string
}.

(** A connection: which of the run's connections it is, and its capabilities. *)
Record Conn := mk_Conn { cn_id : nat; cn_caps : list string }.

(** What a run does on the network, and the mailboxes it has dealt with. *)
Inductive event :=
| Opened (k : nat) | Closed (k : nat) | Selected (k : nat) (name : string)
| Visited (name : string) (outcome : option err).

(** The body pass of one mailbox runs beside the metadata pass, on its own
    connections: what it does to the counters before and after the metadata pass
    ends, and what it returns.  Its work on the database is that of the other
    processes of [ev_others]. *)
Record Bodies := mk_Bodies {
  bd_during : Progress -> Progress;
  bd_after : Progress -> Progress;
  bd_fetched : Z;
  bd_bytes : Z;
  bd_err : option err
}.

Record RunEnv (K : Type) := mk_RunEnv {
  rv_calls : Env;                                     (* store calls, commands of the passes, ctx *)
  rv_sealer : option K;
  rv_prefer_condstore : bool;
  rv_attempts : Z;                                    (* RetryMaxAttempts *)
  rv_base : Z;
  rv_max : Z;
  rv_rand : Z -> Z;
  rv_connect : nat -> UpAccount -> err + list string; (* each dial *)
  rv_sleep : nat -> option err;                       (* the wait after each failed dial *)
  rv_list : nat -> err + list MailboxInfo;
  rv_select : nat -> nat -> string -> err + SelectedMailbox;
  rv_bodies : nat -> Bodies;
  rv_session : err + Z;                               (* the session the pool hands out for the lock *)
  rv_lock_others : Lock.state -> Lock.state           (* what other sessions do to the locks meanwhile *)
}.
Arguments rv_calls {K}.
Arguments rv_sealer {K}.
Arguments rv_prefer_condstore {K}.
Arguments rv_attempts {K}.
Arguments rv_base {K}.
Arguments rv_max {K}.
Arguments rv_rand {K}.
Arguments rv_connect {K}.
Arguments rv_sleep {K}.
Arguments rv_list {K}.
Arguments rv_select {K}.
Arguments rv_bodies {K}.
Arguments rv_session {K}.
Arguments rv_lock_others {K}.
Arguments mk_RunEnv {K}.

Record Run := mk_Run {
  r_world : World;
  r_dials : nat;
  r_trace : list event;                (* latest last *)
  r_locks : Lock.state;
  r_live : option Z;                   (* the account this run is registered under *)
  r_others : gmap Z Progress           (* the registry's other entries *)
}.

Definition set_world (w : World) (r : Run) : Run :=
  mk_Run w (r_dials r) (r_trace r) (r_locks r) (r_live r) (r_others r).
Definition record (e : event) (r : Run) : Run :=
  mk_Run (r_world r) (r_dials r) (r_trace r ++ [e]) (r_locks r) (r_live r) (r_others r).
Definition set_dials (n : nat) (r : Run) : Run :=
  mk_Run (r_world r) n (r_trace r) (r_locks r) (r_live r) (r_others r).
Definition set_locks (st : Lock.state) (r : Run) : Run :=
  mk_Run (r_world r) (r_dials r) (r_trace r) st (r_live r) (r_others r).
(** [progress.Store] and [progress.Delete] *)
Definition register (accountID : Z) (r : Run) : Run :=
  mk_Run (r_world r) (r_dials r) (r_trace r) (r_locks r) (Some accountID) (delete accountID (r_others r)).
Definition unregister (accountID : Z) (r : Run) : Run :=
  mk_Run (r_world r) (r_dials r) (r_trace r) (r_locks r) None (delete accountID (r_others r)).

(** The registry holds pointers: the entry of this run shows its live counters. *)
Definition registry (r : Run) : gmap Z Progress :=
  match r_live r with
  | Some id => <[id := w_progress (r_world r)]> (r_others r)
  | None => r_others r
  end.
Definition ProgressFor (accountID : Z) (r : Run) : option Progress := registry r !! accountID.
Definition RunningAccounts (r : Run) : list Z := map fst (map_to_list (registry r)).

Definition R (A : Type) : Type := SE err Run A.

(** A step of the passes within the run. *)
Definition lift {A} (m : SyncPass.M A) : R A := fun r =>
  let '(x, w) := m (r_world r) in (x, set_world w r).
Definition counting (f : Progress -> Progress) : R unit := lift (local (on_progress f)).
(** An error that is only logged. *)
Definition warned {A} (m : R A) : R unit := attempt m ≫= fun _ => mret tt.

Record Result := mk_Result {
  MailboxesSynced : Z;
  MessagesNew : Z;
  BodiesFetched : Z;
  BytesFetched : Z;
  Skipped : bool
}.
Definition no_result : Result := mk_Result 0 0 0 0 false.

Record mailboxResult := mk_mailboxResult { mr_MessagesNew : Z; mr_BodiesFetched : Z; mr_BytesFetched : Z }.

Definition capabilityNames (caps : list string) : list string := caps.

(** * Credentials *)

Definition column (l : list Z) : bytes := map zbyte l.

Definition credentials {K : Type} `{AEAD K} (sealer : option K) (account : Account) : err + UpAccount :=
  match sealer with
  | None => inl (ErrText "no encryption master key configured, so stored credentials cannot be read")
  | Some k =>
      match OpenString k (column (ac_encrypted_username account.2)) with
      | inl e => inl (ErrWrap "decrypting username: " e "")
      | inr username =>
          match OpenString k (column (ac_encrypted_secret account.2)) with
          | inl e => inl (ErrWrap "decrypting password: " e "")
          | inr password =>
              inr (mk_UpAccount (ac_upstream_host account.2) (ac_upstream_port account.2)
                     (ac_upstream_tls_mode account.2) username password)
          end
      end
  end.

Section engine.
Context {K : Type} `{AEAD K}.
Variable env : RunEnv K.

Notation calls := (rv_calls env).
Definition call {A} (m : Z -> sql A) : R A := lift (store_call calls m).

(** * Connections *)

Definition returns {A} (x : err + A) : R A := fun r => (x, r).

(** [connect.Connect]: a failed attempt leaves no connection behind. *)
Definition dial (creds : UpAccount) : R Conn := fun r =>
  let k := r_dials r in
  match rv_connect env k creds with
  | inl e => (inl e, set_dials (S k) r)
  | inr caps => (inr (mk_Conn k caps), record (Opened k) (set_dials (S k) r))
  end.
Definition close (c : Conn) : R unit := updates (record (Closed (cn_id c))).

(** The closure [Retry] runs keeps its connection in [replacement]. *)
Definition dial_once (creds : UpAccount) (s : Run * option Conn) : (Run * option Conn) * option err :=
  match dial creds s.1 with
  | (inl e, r) => ((r, s.2), Some e)
  | (inr c, r) => ((r, Some c), None)
  end.
Definition run_ctx (s : Run * option Conn) : option err := ev_ctx calls (w_calls (r_world s.1)).
Definition run_sleep (_ : Z) (s : Run * option Conn) : (Run * option Conn) * option err :=
  (s, rv_sleep env (r_dials s.1)).

Definition redial (creds : UpAccount) : R Conn := fun r =>
  match Retry run_ctx run_sleep (rv_rand env) (rv_base env) (rv_max env) (dial_once creds)
          (rv_attempts env) (r, None) with
  | ((r, _), Some e) => (inl e, r)
  | ((r, Some c), None) => (inr c, r)
  | ((r, None), None) => (inl (ErrText "unreachable: Retry succeeded without a connection"), r)
  end.

Definition reconnect (account : Account) (old : Conn) : R Conn :=
  close old ≫= fun _ =>
  creds ← returns (credentials (rv_sealer env) account);
  redial creds.

(** * One mailbox *)

Definition mailbox_params (account : Account) (box : MailboxInfo) : UpsertMailboxParams :=
  {| up_AccountID := account.1; up_Name := mi_Name box; up_CanonicalName := ToLower (mi_Name box);
     up_Delimiter := (fun c => String c EmptyString) <$> mi_Delimiter box;
     up_Attributes := attributeNames (mi_Attributes box);
     up_SpecialUse := if String.eqb (SpecialUse box) "" then None else Some (SpecialUse box) |}.

Definition select_box (client : Conn) (name : string) : R SelectedMailbox :=
  updates (record (Selected (cn_id client) name)) ≫= fun _ =>
  lift (SyncPass.command (fun n => rv_select env n (cn_id client) name)).

Definition renumbered (mailbox : Mailbox) (selected : SelectedMailbox) : bool :=
  match mb_uidvalidity mailbox.2 with
  | Some v => negb (v =? sm_UIDValidity selected)
  | None => false
  end.

(** Up to the point where the two passes start. *)
Definition open_mailbox (client : Conn) (account : Account) (box : MailboxInfo)
    : R (Mailbox * SelectedMailbox) :=
  counting (setMailbox (mi_Name box)) ≫= fun _ =>
  counting (setPhase ("metadata: " ++ mi_Name box)%string) ≫= fun _ =>
  mailbox ← call (fun _ => UpsertMailbox (mailbox_params account box));
  counting (addCommands 1) ≫= fun _ =>
  selected ← select_box client (mi_Name box);
  if renumbered mailbox selected then
    call (fun _ => ResetForUIDValidityChange mailbox.1 (sm_UIDValidity selected)) ≫= fun _ =>
    mailbox ← call (fun _ => GetMailbox mailbox.1);
    mret (mailbox, selected)
  else mret (mailbox, selected).

(** The environment of the pass on this connection. *)
Definition pass_env (client : Conn) : Env :=
  let condstore := rv_prefer_condstore env && bool_decide (("CONDSTORE" : string) ∈ cn_caps client) in
  mk_Env (ev_fault calls) (ev_others calls) (ev_now calls) (ev_ctx calls) condstore (ev_batch calls)
    (ev_fetch calls) (ev_search calls).

Definition syncMailbox (client : Conn) (account : Account) (box : MailboxInfo)
    : R (mailboxResult * option err) :=
  opened ← attempt (open_mailbox client account box);
  match opened with
  | inl e => mret (mk_mailboxResult 0 0 0, Some e)
  | inr (mailbox, selected) =>
      bodies ← look (fun r => rv_bodies env (w_calls (r_world r)));
      metaErr ← attempt (lift (metadataPass (pass_env client) account.1 mailbox selected));
      newMessages ← look (fun r => w_new (r_world r));
      counting (bd_during bodies) ≫= fun _ =>
      counting recordMetadataComplete ≫= fun _ =>
      counting (setPhase ("bodies: " ++ mi_Name box)%string) ≫= fun _ =>
      counting (bd_after bodies) ≫= fun _ =>
      let result := mk_mailboxResult newMessages (bd_fetched bodies) (bd_bytes bodies) in
      match metaErr with
      | inl e => mret (result, Some e)
      | inr _ =>
          match bd_err bodies with
          | Some e => mret (result, Some e)
          | None =>
              warned (call (fun _ => RefreshMailboxCounts mailbox.1)) ≫= fun _ =>
              mret (result, None)
          end
      end
  end.

(** * All mailboxes *)

(** The locals of the loop: the result so far, the failures, the first of them. *)
Record Tally := mk_Tally {
  t_result : Result;
  t_errors : Z;
  t_rootCause : option (string * err)
}.
Definition fold_in (m : mailboxResult) (t : Tally) : Tally :=
  let r := t_result t in
  mk_Tally (mk_Result (MailboxesSynced r) (i64 (MessagesNew r + mr_MessagesNew m))
              (i64 (BodiesFetched r + mr_BodiesFetched m)) (i64 (BytesFetched r + mr_BytesFetched m)) (Skipped r))
    (t_errors t) (t_rootCause t).
Definition count_failure (name : string) (e : err) (t : Tally) : Tally :=
  mk_Tally (t_result t) (t_errors t + 1)
    (match t_rootCause t with Some c => Some c | None => Some (name, e) end).
Definition count_synced (t : Tally) : Tally :=
  let r := t_result t in
  mk_Tally (mk_Result (MailboxesSynced r + 1) (MessagesNew r) (BodiesFetched r) (BytesFetched r) (Skipped r))
    (t_errors t) (t_rootCause t).

Definition reconnect_failed (name : string) (e connErr : err) : err :=
  ErrWrap2 (name ++ " failed (")%string e "), and reconnecting to continue failed: " connErr.

(** The loop ends with the connection the deferred close will see, the tally, and
    the error that stopped it, if one did. *)
Fixpoint sync_boxes (account : Account) (boxes : list MailboxInfo) (client : Conn) (t : Tally)
    : R (Conn * Tally * option err) :=
  match boxes with
  | [] => mret (client, t, None)
  | box :: boxes =>
      ctx ← look (fun r => ev_ctx calls (w_calls (r_world r)));
      match ctx with
      | Some e => mret (client, t, Some e)
      | None =>
          if negb (Selectable box) then
            counting mailboxDone ≫= fun _ => sync_boxes account boxes client t
          else
            visit ← syncMailbox client account box;
            let '(mailboxResult, failed) := (visit : mailboxResult * option err) in
            updates (record (Visited (mi_Name box) failed)) ≫= fun _ =>
            let t := fold_in mailboxResult t in
            match failed with
            | None => counting mailboxDone ≫= fun _ => sync_boxes account boxes client (count_synced t)
            | Some e =>
                if bool_decide (SeverityOf e = FatalAccount) then mret (client, t, Some e) else
                let t := count_failure (mi_Name box) e t in
                replacement ← attempt (reconnect account client);
                match replacement with
                | inl connErr => mret (client, t, Some (reconnect_failed (mi_Name box) e connErr))
                | inr client => counting mailboxDone ≫= fun _ => sync_boxes account boxes client t
                end
            end
      end
  end.

Definition all_failed (errors total : Z) (root : string * err) : err :=
  ErrWrap ("every mailbox failed to sync (" ++ Itoa errors ++ " of " ++ Itoa total ++ "); root cause was "
           ++ root.1 ++ ": ")%string root.2 "".

(** After the loop. *)
Definition conclude (total : Z) (t : Tally) : R (option err) :=
  match t_rootCause t with
  | Some root =>
      if (0 <? t_errors t) && (MailboxesSynced (t_result t) =? 0)
      then mret (Some (all_failed (t_errors t) total root))
      else counting (setPhase "done") ≫= fun _ => mret None
  | None => counting (setPhase "done") ≫= fun _ => mret None
  end.

Definition sync_connected (account : Account) (client : Conn) : R (Conn * Result * option err) :=
  warned (call (fun _ => SetAccountCapabilities account.1 (capabilityNames (cn_caps client)))) ≫= fun _ =>
  counting (setPhase "listing mailboxes") ≫= fun _ =>
  listed ← attempt (lift (SyncPass.command (rv_list env)));
  match listed with
  | inl e => mret (client, no_result, Some e)
  | inr boxes =>
      let boxes := prioritise boxes in
      counting (setMailboxTotal (Z.of_nat (length boxes))) ≫= fun _ =>
      let keep := match boxes with [] => None | _ => Some (map (fun b => ToLower (mi_Name b)) boxes) end in
      warned (call (fun _ => DeleteMailboxesExcept account.1 keep)) ≫= fun _ =>
      looped ← sync_boxes account boxes client (mk_Tally no_result 0 None);
      let '(client, t, stopped) := (looped : Conn * Tally * option err) in
      match stopped with
      | Some e => mret (client, t_result t, Some e)
      | None =>
          failed ← conclude (Z.of_nat (length boxes)) t;
          mret (client, t_result t, failed)
      end
  end.

Definition syncAccountLocked (accountID : Z) : R (Result * option err) :=
  loaded ← attempt (call (fun _ => GetAccount accountID));
  match loaded with
  | inl e => mret (no_result, Some e)
  | inr account =>
      if negb (Account_Active account) then mret (no_result, None) else
      match credentials (rv_sealer env) account with
      | inl e => mret (no_result, Some e)
      | inr creds =>
          counting (setPhase "connecting") ≫= fun _ =>
          connected ← attempt (dial creds);
          match connected with
          | inl e =>
              mret (no_result, Some (ErrWrap ("connecting to " ++ ac_upstream_host account.2 ++ ": ")%string e ""))
          | inr client =>
              ended ← sync_connected account client;
              let '(client, result, failed) := (ended : Conn * Result * option err) in
              close client ≫= fun _ => mret (result, failed)
          end
      end
  end.

(** * The run *)

Definition run_status (syncErr : option err) : string :=
  match syncErr with
  | None => "succeeded"
  | Some e => if err_is e ErrCanceled || err_is e ErrDeadlineExceeded then "cancelled" else "failed"
  end.
Definition auth_failed (syncErr : option err) : bool :=
  match syncErr with Some e => bool_decide (SeverityOf e = FatalAccount) | None => false end.

Definition record_outcome (accountID runID : Z) (syncErr : option err) : R unit :=
  p ← look (fun r => snapshot (w_progress (r_world r)));
  warned (call (fun now => FinishSyncRun now runID (run_status syncErr) syncErr p)) ≫= fun _ =>
  warned (call (fun now => SetAccountSyncResult now accountID syncErr (auth_failed syncErr))).

(** With the lock held, up to its release. *)
Definition run_locked (accountID : Z) (trigger : string) : R (Result * option err) :=
  started ← attempt (call (fun now => StartSyncRun now accountID trigger));
  match started with
  | inl e => mret (no_result, Some e)
  | inr runID =>
      counting (fun _ => newProgress accountID) ≫= fun _ =>
      updates (register accountID) ≫= fun _ =>
      done ← syncAccountLocked accountID;
      let '(result, syncErr) := (done : Result * option err) in
      record_outcome accountID runID syncErr ≫= fun _ =>
      updates (unregister accountID) ≫= fun _ =>
      mret (result, syncErr)
  end.

(** The call never stops early: its error is part of what it returns. *)
Definition SyncAccount (accountID : Z) (trigger : string) (r : Run) : Result * option err * Run :=
  match rv_session env with
  | inl e => (no_result, Some (ErrWrap ("locking account " ++ Itoa accountID ++ ": ")%string e ""), r)
  | inr session =>
      match Lock.TryLockAccount session accountID (r_locks r) with
      | (None, st) => (mk_Result 0 0 0 0 true, None, set_locks st r)
      | (Some lock, st) =>
          match run_locked accountID trigger (set_locks st r) with
          | (out, r) =>
              let r := set_locks (Lock.Release (Some lock) (rv_lock_others env (r_locks r))).2 r in
              match out with
              | inr (result, e) => (result, e, r)
              | inl e => (no_result, Some e, r)
              end
          end
      end
  end.
End engine.

(** * The heartbeat *)

(** What the goroutine's select sees: the run's context or its end, or a tick with
    the snapshot it writes and what becomes of the statement. *)
Inductive tick := CtxDone | Finished | Tick (now : Z) (p : SyncProgress) (fault : store_fault).

Definition beat_once (runID now : Z) (p : SyncProgress) (f : store_fault) (db : DB) : option err * DB :=
  match f with
  | NoFault => (None, exec (Heartbeat now runID p) db)
  | FailBefore e => (Some e, db)
  | FailAfter e => (Some e, exec (Heartbeat now runID p) db)
  end.

(** True when the loop has cancelled the run. *)
Fixpoint startHeartbeat (runID failures : Z) (ticks : list tick) (db : DB) : bool * DB :=
  match ticks with
  | [] | CtxDone :: _ | Finished :: _ => (false, db)
  | Tick now p f :: ticks =>
      match beat_once runID now p f db with
      | (None, db) => startHeartbeat runID 0 ticks db
      | (Some _, db) =>
          let failures := failures + 1 in
          if 3 <=? failures then (true, db) else startHeartbeat runID failures ticks db
      end
  end.
