(* ===== verification/SyncRunProps.v ===== *)
(** Properties of a sync run: its outcome is recorded and its lock released, it
    never has two connections at once, it visits the mailboxes the server lists. *)
From S2P Require Import Prelude NumSet Planner GoStrings Retry Upstream Commands Crypto Schema StoreMailboxes StoreMessages StoreRuns StoreAccounts StoreInvariant StoreSteps SyncMeta SyncPass Effects SyncRun.
From Stdlib Require Import String.
From stdpp Require Import strings gmap list relations.
Open Scope list_scope.
Open Scope Z_scope.
#[local] Remove Hints SE_bind SE_ret : typeclass_instances.

(** * What every call of a run preserves *)

(** Runs and accounts do not disappear, and what a finished run says is final. *)
Definition final_run (r r' : run_row) : Prop :=
  sr_account_id r' = sr_account_id r
  /\ (sr_finished_at r <> None ->
        sr_status r' = sr_status r /\ sr_error r' = sr_error r /\ sr_finished_at r' = sr_finished_at r).
Record keeps (db db' : DB) : Prop := mk_keeps {
  ks_runs : forall id r, rows (sync_runs db) !! id = Some r ->
    exists r', rows (sync_runs db') !! id = Some r' /\ final_run r r';
  ks_accounts : forall id, is_Some (rows (mail_accounts db) !! id) -> is_Some (rows (mail_accounts db') !! id)
}.

#[export] Instance keeps_preorder : PreOrder keeps.
Proof.
  split.
  - intros db. constructor; [|done]. intros id r Hr. exists r. by split_and!.
  - intros a b c [R1 A1] [R2 A2]. constructor; [|eauto].
    intros id r (r1 & H1 & E1 & F1)%R1. destruct (R2 _ _ H1) as (r2 & H2 & E2 & F2). exists r2.
    split; [done|]. split; [congruence|]. intros Hf. destruct (F1 Hf) as (S1 & T1 & U1).
    destruct F2 as (S2 & T2 & U2); [by rewrite U1|]. split_and!; congruence.
Qed.

Lemma keeps_refl db : keeps db db.
Proof. reflexivity. Qed.

Lemma keeps_same db db' : sync_runs db' = sync_runs db ->
  (forall id, is_Some (rows (mail_accounts db) !! id) -> is_Some (rows (mail_accounts db') !! id)) -> keeps db db'.
Proof. intros E A. constructor; [|done]. rewrite E. intros id r Hr. exists r. by split_and!. Qed.

(** A statement that leaves both tables alone. *)
Definition apart {A} (m : sql A) : Prop :=
  forall db, sync_runs (exec m db) = sync_runs db /\ mail_accounts (exec m db) = mail_accounts db.
Definition sql_keeps {A} (m : sql A) : Prop := forall db, keeps db (exec m db).

Lemma apart_keeps {A} (m : sql A) : apart m -> sql_keeps m.
Proof. intros H db. destruct (H db) as [E1 E2]. apply keeps_same; [done|]. by rewrite E2. Qed.
Lemma apart_ret {A} (x : A) : apart (mret x).
Proof. by intros db. Qed.
Lemma apart_gets {A} (f : DB -> A) : apart (gets f).
Proof. by intros db. Qed.
Lemma apart_wrap {A} s (m : sql A) : apart m -> apart (wrap_err s m).
Proof. intros H db. specialize (H db). unfold exec, wrap_err in *. by destruct (m db) as [[]]. Qed.
Lemma apart_InTx {A} (m : sql A) : apart m -> apart (InTx m).
Proof. intros H db. specialize (H db). unfold exec, InTx in *. by destruct (m db) as [[]]. Qed.
Lemma apart_bind {A B} (m : sql A) (f : A -> sql B) : apart m -> (forall x, apart (f x)) -> apart (m ≫= f).
Proof.
  intros H1 H2 db. specialize (H1 db). unfold exec, mbind, sql_bind in *.
  destruct (m db) as [[e|x] db1]; [exact H1|]. cbn in *. destruct H1 as [E1 E2]. destruct (H2 x db1) as [E3 E4].
  unfold exec in *. by rewrite E3, E4.
Qed.
Ltac apart_cases := let db := fresh "db" in intros db; unfold exec; sql_cases; auto.

Lemma UpsertMailbox_apart p : apart (UpsertMailbox p).
Proof. apply apart_wrap. apart_cases. Qed.
Lemma ResetForUIDValidityChange_apart id v : apart (ResetForUIDValidityChange id v).
Proof. by intros db. Qed.
Lemma GetMailbox_apart id : apart (GetMailbox id).
Proof. unfold GetMailbox. apart_cases. Qed.
Lemma RefreshMailboxCounts_apart id : apart (RefreshMailboxCounts id).
Proof. by intros db. Qed.
Lemma DeleteMailboxesExcept_apart a k : apart (DeleteMailboxesExcept a k).
Proof. unfold DeleteMailboxesExcept. apart_cases. Qed.
Lemma UpdateFlags_apart mb uid flags modseq : apart (UpdateFlags mb uid flags modseq).
Proof. by intros db. Qed.
Lemma SaveCheckpoint_apart now id c : apart (SaveCheckpoint now id c).
Proof. by intros db. Qed.
Lemma DeleteMissingUIDs_apart mb l : apart (DeleteMissingUIDs mb l).
Proof. by intros db. Qed.
Lemma upsertMetadataTx_apart m : apart (upsertMetadataTx m).
Proof.
  unfold upsertMetadataTx. apply apart_bind; [apply apart_wrap; unfold upsert_message; apart_cases|].
  intros id. apply apart_wrap. unfold upsert_mailbox_message. apart_cases.
Qed.
Lemma upsert_all_apart l : forall n, apart (upsert_all l n).
Proof.
  induction l as [|m l IH]; intros n; [apply apart_ret|]. cbn [upsert_all].
  apply apart_bind; [apply upsertMetadataTx_apart|]. intros [? c]. apply IH.
Qed.
Lemma UpsertMetadataBatch_apart l : apart (UpsertMetadataBatch l).
Proof. destruct l; [apply apart_ret|]. apply apart_InTx, upsert_all_apart. Qed.
Lemma GetAccount_apart id : apart (GetAccount id).
Proof. unfold GetAccount. apart_cases. Qed.

#[export] Hint Resolve apart_keeps apart_gets UpsertMailbox_apart ResetForUIDValidityChange_apart GetMailbox_apart
  RefreshMailboxCounts_apart DeleteMailboxesExcept_apart UpdateFlags_apart SaveCheckpoint_apart
  DeleteMissingUIDs_apart UpsertMetadataBatch_apart GetAccount_apart : respects.

Lemma keeps_update_accounts id f db : keeps db (update_accounts id f db).
Proof.
  apply keeps_same; [done|]. intros id' [a Ha]. db_simpl. rewrite lookup_update_where, Ha. by eexists.
Qed.
Lemma SetAccountCapabilities_keeps id caps : sql_keeps (SetAccountCapabilities id caps).
Proof. intros db. apply keeps_update_accounts. Qed.
#[export] Hint Resolve SetAccountCapabilities_keeps : respects.

(** * Handlers that always answer

    The steps of a run report their errors in what they return. *)

Definition returning {A} (m : R A) : Prop := forall r, exists x r', m r = (inr x, r').
Lemma returning_ret {A} (x : A) : returning (SE_ret err Run A x).
Proof. intros r. by eexists _, _. Qed.
Lemma returning_look {A} (f : Run -> A) : returning (look f).
Proof. intros r. by eexists _, _. Qed.
Lemma returning_updates f : returning (updates f).
Proof. intros r. by eexists _, _. Qed.
Lemma returning_counting f : returning (counting f).
Proof. intros r. by eexists _, _. Qed.
Lemma returning_attempt {A} (m : R A) : returning (attempt m).
Proof. intros r. unfold attempt. destruct (m r) as [x r']. by eexists _, _. Qed.
Lemma returning_bind {A B} (m : R A) (f : A -> R B) :
  returning m -> (forall x, returning (f x)) -> returning (SE_bind err Run A B f m).
Proof. intros Hm Hf r. unfold SE_bind. destruct (Hm r) as (x & r1 & ->). apply Hf. Qed.
Lemma returning_warned {A} (m : R A) : returning (warned m).
Proof. apply returning_bind; [apply returning_attempt|]. intros _. apply returning_ret. Qed.
Ltac returning_step := first
  [ match goal with |- forall _, returning _ => intro end | progress cbv zeta
  | apply returning_ret | apply returning_look | apply returning_updates | apply returning_counting
  | apply returning_attempt | apply returning_warned | apply returning_bind
  | match goal with |- returning (match ?x with _ => _ end) => destruct x end ].


(** * A run keeps the runs and accounts *)

Section run.
Context {K : Type} `{AEAD K}.
Variable env : RunEnv K.
Notation calls := (rv_calls env).

(** Other processes keep them too. *)
Definition others_keep (e : Env) : Prop := forall n db, keeps db (ev_others e n db).

Definition world_keeps (w w' : World) : Prop := keeps (w_db w) (w_db w').
Definition run_keeps (r r' : Run) : Prop := world_keeps (r_world r) (r_world r') /\ r_locks r' = r_locks r.
#[export] Instance world_keeps_preorder : PreOrder world_keeps.
Proof.
  split; unfold world_keeps; [intros w; reflexivity|].
  intros x y z H1 H2. exact (transitivity (R := keeps) H1 H2).
Qed.
#[export] Instance run_keeps_preorder : PreOrder run_keeps.
Proof.
  split; unfold run_keeps; [intros r; split; reflexivity|].
  intros x y z [H1 E1] [H2 E2]. split; [exact (transitivity (R := world_keeps) H1 H2)|congruence].
Qed.

Section pass.
Variable penv : Env.
Context (Hothers : others_keep penv).
Notation stays := (respects world_keeps).

Lemma stays_store {A} (m : Z -> sql A) : (forall now, sql_keeps (m now)) -> stays (store_call penv m).
Proof.
  intros Hm w. unfold store_call, world_keeps. pose proof (Hothers (w_calls w) (w_db w)) as Ho.
  specialize (Hm (ev_now penv (w_calls w)) (ev_others penv (w_calls w) (w_db w))). unfold exec in Hm.
  destruct (ev_fault penv (w_calls w)); cbn; [|done|].
  - destruct (m _ _) as [x db]. by etransitivity.
  - by etransitivity.
Qed.
Lemma stays_local f : (forall w, w_db (f w) = w_db w) -> stays (local f).
Proof. intros Hf w. unfold world_keeps. cbn. rewrite Hf. exact (keeps_refl _). Qed.
Lemma stays_read {A} (f : World -> A) : stays (read f).
Proof. intros w. exact (keeps_refl _). Qed.
Lemma stays_command {A} (m : nat -> err + A) : stays (SyncPass.command m).
Proof. intros w. exact (keeps_refl _). Qed.
Lemma stays_ctx : stays (ctx_Err penv).
Proof. intros w. unfold ctx_Err. destruct (ev_ctx penv _); exact (keeps_refl _). Qed.
Lemma stays_bind {A B} (m : M A) (f : A -> M B) : stays m -> (forall x, stays (f x)) -> stays (m ≫= f).
Proof. apply (respects_bind world_keeps). Qed.
Lemma stays_wrapping {A} s (m : M A) : stays m -> stays (wrapping s m).
Proof. intros Hm w. specialize (Hm w). unfold wrapping. destruct (m w) as [[]]; exact Hm. Qed.
Lemma stays_logged (m : M unit) : stays m -> stays (logged m).
Proof. intros Hm w. exact (Hm w). Qed.
Lemma stays_each {A} (f : A -> M unit) l : (forall x, stays (f x)) -> stays (each f l).
Proof. intros Hf. induction l as [|x l IH]; [intros w; exact (keeps_refl _)|]. cbn [each]. by apply stays_bind. Qed.

Ltac stays_step := first
  [ match goal with |- forall _, respects _ _ => intro end | assumption | solve [intros w; exact (keeps_refl _)]
  | apply stays_store; solve [eauto with respects]
  | match goal with |- respects _ (local _) => apply stays_local; intros w; cbv beta; by repeat case_match end
  | apply stays_read | apply stays_command | apply stays_ctx | apply stays_wrapping
  | match goal with |- respects _ (logged _) => apply stays_logged end | apply stays_each | apply stays_bind
  | match goal with |- respects _ (match ?x with _ => _ end) => destruct x end ].

Lemma collect_stays a mb known cs metas : forall batch, stays (collect_batch penv a mb known cs metas batch).
Proof.
  induction metas as [|m metas IH]; intros batch; cbn [collect_batch]; unfold update_flags; repeat stays_step; apply IH.
Qed.
Lemma chunks_stays a mb sel known cs total chunks : forall i,
  stays (sync_chunks penv a mb sel known cs total i chunks).
Proof.
  induction chunks as [|c chunks IH]; intros i; cbn [sync_chunks]; [intros w; exact (keeps_refl _)|].
  apply stays_bind; [|intros _; apply IH]. unfold sync_chunk, addCommands1, FetchMetadata, save_checkpoint.
  repeat first [apply collect_stays|stays_step].
Qed.

Lemma metadataPass_stays a mb sel : stays (metadataPass penv a mb sel).
Proof.
  unfold metadataPass, check_unchanged, changed_flags, enumerate, addCommands1, FetchMetadata, SearchAllUIDs,
    update_flags, reconcileDeletions, save_checkpoint, SearchAllUIDs, CountMailboxMessages, ExistingUpstreamUIDs.
  repeat first [apply chunks_stays|stays_step].
Qed.
End pass.

(** ** The run's own steps *)

Context (Hothers : others_keep calls).
Notation kept := (respects (E := err) run_keeps).

Lemma kept_lift {A} (m : SyncPass.M A) : respects world_keeps m -> kept (lift m).
Proof. intros Hm r. specialize (Hm (r_world r)). unfold lift. destruct (m (r_world r)) as [x w]. by split. Qed.
Lemma kept_counting f : kept (counting f).
Proof. apply kept_lift, stays_local. done. Qed.
Lemma kept_call {A} (m : Z -> sql A) : (forall now, sql_keeps (m now)) -> kept (call env m).
Proof. intros Hm. by apply kept_lift, stays_store. Qed.
Lemma kept_updates f : (forall r, r_world (f r) = r_world r /\ r_locks (f r) = r_locks r) -> kept (updates f).
Proof. intros Hf r. unfold run_keeps. cbn. destruct (Hf r) as [-> ->]. split; [exact (keeps_refl _)|done]. Qed.
Lemma kept_warned {A} (m : R A) : kept m -> kept (warned m).
Proof. intros Hm. apply respects_bind; [apply _|apply respects_attempt, Hm|]. intros _. apply respects_ret; apply _. Qed.
Lemma kept_dial creds : kept (dial env creds).
Proof. intros r. unfold dial. destruct (rv_connect env _ _); (split; [exact (keeps_refl _)|done]). Qed.

(** What holds of the state before every attempt, and what a success leaves. *)
Lemma Retry_rule {W} (P Q : W -> Prop) ctx_err sleep rand base max (fn : W -> W * option err) attempts w :
  (forall w, P w -> match fn w with (w', Some _) => P w' | (w', None) => Q w' end) ->
  (forall d w, P w -> P (sleep d w).1) -> P w ->
  match Retry ctx_err sleep rand base max fn attempts w with (w', Some _) => P w' | (w', None) => Q w' end.
Proof.
  intros Hfn Hsleep. unfold Retry. generalize (if attempts <? 1 then 1 else attempts) as k. intros k.
  generalize (ErrText "") as last, 1 as attempt. generalize (Z.to_nat k) as n.
  intros n. revert w. induction n as [|n IH]; intros w last attempt Hw; cbn [Retry_loop]; [exact Hw|].
  destruct (ctx_err w); [exact Hw|]. specialize (Hfn w Hw). destruct (fn w) as [w1 [e|]]; [|exact Hfn].
  destruct (bool_decide _); [exact Hfn|]. destruct (attempt =? k); [exact Hfn|].
  specialize (Hsleep (Backoff rand attempt base max) w1 Hfn).
  destruct (sleep _ w1) as [w2 [e'|]]; [exact Hsleep|]. by apply IH.
Qed.

Lemma kept_redial creds : kept (redial env creds).
Proof.
  intros r. unfold redial.
  pose proof (Retry_rule (fun s => run_keeps r s.1) (fun s => run_keeps r s.1) (run_ctx env) (run_sleep env)
    (rv_rand env) (rv_base env) (rv_max env) (dial_once env creds) (rv_attempts env) (r, None)) as HR.
  destruct (Retry _ _ _ _ _ _ _ _) as [[r' c] o].
  assert (run_keeps r r'); [|by destruct c, o].
  destruct o; apply HR; try done; clear HR; try (intros [s c'] Hs; unfold dial_once; cbn [fst] in *;
    pose proof (kept_dial creds s) as Hd; destruct (dial env creds s) as [[e'|x] s']; exact (transitivity Hs Hd));
    (split; [exact (keeps_refl _)|done]).
Qed.

Ltac kept_step := first
  [ match goal with |- forall _, respects _ _ => intro end
  | apply respects_ret; apply _ | apply respects_look; apply _
  | apply kept_counting | apply kept_dial | apply kept_redial | apply kept_warned
  | apply kept_call; solve [eauto with respects]
  | apply kept_updates; done
  | apply kept_lift, stays_command
  | apply respects_attempt
  | apply respects_bind; [apply _| |]
  | match goal with |- respects _ (match ?x with _ => _ end) => destruct x end ].

Lemma kept_reconnect account old : kept (reconnect env account old).
Proof.
  unfold reconnect, close. repeat kept_step.
Qed.
Lemma kept_open_mailbox client account box : kept (open_mailbox env client account box).
Proof. unfold open_mailbox, select_box. repeat kept_step. Qed.

Lemma kept_syncMailbox client account box : kept (syncMailbox env client account box).
Proof.
  unfold syncMailbox. repeat first [apply kept_open_mailbox|apply kept_lift, metadataPass_stays; exact Hothers|kept_step].
Qed.
Lemma kept_sync_boxes account boxes : forall client t, kept (sync_boxes env account boxes client t).
Proof.
  induction boxes as [|box boxes IH]; intros client t; cbn [sync_boxes];
    repeat first [apply kept_syncMailbox|apply kept_reconnect|apply IH|kept_step].
Qed.
Lemma kept_syncAccountLocked accountID : kept (syncAccountLocked env accountID).
Proof.
  unfold syncAccountLocked, sync_connected, conclude, close.
  repeat first [apply kept_sync_boxes|kept_step].
Qed.

(** ** The outcome *)

Notation db_of r := (w_db (r_world r)).
Notation calls_of r := (w_calls (r_world r)).

Lemma call_result {A} (m : Z -> sql A) r :
  exists db, keeps (db_of r) db /\ calls_of (call env m r).2 = S (calls_of r)
    /\ match (call env m r).1 with
       | inr x => m (ev_now calls (calls_of r)) db = (inr x, db_of (call env m r).2)
       | inl _ => True
       end
    /\ (ev_fault calls (calls_of r) = NoFault -> call env m r =
          ((m (ev_now calls (calls_of r)) db).1, set_world (with_db (m (ev_now calls (calls_of r)) db).2 (r_world r)) r)).
Proof.
  unfold call, lift, store_call. eexists. split; [apply Hothers|].
  destruct (ev_fault calls (calls_of r)).
  - destruct (m _ _) as [[e|x] db] eqn:E; split_and!; try done; cbn; by rewrite E.
  - by split_and!.
  - by split_and!.
Qed.

Lemma started_run accountID trigger r runID r' :
  call env (fun now => StartSyncRun now accountID trigger) r = (inr runID, r') ->
  (exists row, rows (sync_runs (db_of r')) !! runID = Some row /\ sr_account_id row = accountID)
  /\ is_Some (rows (mail_accounts (db_of r')) !! accountID).
Proof.
  intros E. destruct (call_result (fun now => StartSyncRun now accountID trigger) r) as (db & _ & _ & H1 & _).
  rewrite E in H1. cbn [fst snd] in H1. unfold StartSyncRun, wrap_err in H1.
  destruct (negb _); [done|]. destruct (rows (mail_accounts db) !! accountID) as [a|] eqn:Ea; [|done].
  destruct (insert_row _ _) as [id t] eqn:Ei. injection H1 as <- <-. unfold insert_row in Ei. injection Ei as <- <-.
  db_simpl. cbn [rows]. rewrite lookup_insert_eq, Ea. split; [|by eexists]. eexists. split; [done|]. done.
Qed.

(** What the run's row and the account's say when the run is over. *)
Definition run_says (accountID runID : Z) (e : option err) (db : DB) : Prop :=
  exists row, rows (sync_runs db) !! runID = Some row /\ sr_account_id row = accountID
    /\ sr_status row = run_status e /\ sr_error row = err_text <$> e /\ sr_finished_at row <> None.
Definition account_says (accountID : Z) (e : option err) (db : DB) : Prop :=
  exists acc, rows (mail_accounts db) !! accountID = Some acc /\ ac_last_sync_error acc = err_text <$> e
    /\ ac_auth_state acc = (if auth_failed e then "auth_failed" else "ok")%string.

Lemma run_says_keeps accountID runID e db db' :
  keeps db db' -> run_says accountID runID e db -> run_says accountID runID e db'.
Proof.
  intros [Hk _] (row & Hr & H1 & H2 & H3 & H4). destruct (Hk _ _ Hr) as (row' & Hr' & E1 & E2).
  destruct (E2 H4) as (F1 & F2 & F3). exists row'. split_and!; [done|congruence..].
Qed.

Lemma run_status_valid e : bool_decide (run_status e ∈ ["running"; "succeeded"; "failed"; "cancelled"]%string) = true.
Proof. destruct e as [e|]; cbn [run_status]; [destruct (_ || _)|]; reflexivity. Qed.

Lemma finish_says now accountID runID e p db row :
  rows (sync_runs db) !! runID = Some row -> sr_account_id row = accountID ->
  exists db', FinishSyncRun now runID (run_status e) e p db = (inr tt, db') /\ run_says accountID runID e db'.
Proof.
  intros Hr Ha. unfold FinishSyncRun. rewrite run_status_valid. cbn [negb andb]. eexists. split; [done|].
  eexists. unfold update_runs. db_simpl. rewrite lookup_update_where, Hr. unfold id_is. rewrite Z.eqb_refl.
  split; [done|]. cbn. by split_and!.
Qed.

Lemma call_accounts {A} (m : Z -> sql A) r id :
  (forall now db, mail_accounts (exec (m now) db) = mail_accounts db) ->
  is_Some (rows (mail_accounts (db_of r)) !! id) -> is_Some (rows (mail_accounts (db_of (call env m r).2)) !! id).
Proof.
  intros Hm Hs. apply (ks_accounts _ _ (Hothers (calls_of r) (db_of r))) in Hs.
  specialize (Hm (ev_now calls (calls_of r)) (ev_others calls (calls_of r) (db_of r))). unfold exec in Hm.
  unfold call, lift, store_call. destruct (ev_fault calls (calls_of r)); cbn; [|done|].
  - destruct (m _ _) as [x db]. cbn in *. by rewrite Hm.
  - unfold exec. by rewrite Hm.
Qed.

Lemma record_outcome_says accountID runID e r row :
  rows (sync_runs (db_of r)) !! runID = Some row -> sr_account_id row = accountID ->
  is_Some (rows (mail_accounts (db_of r)) !! accountID) ->
  exists r', record_outcome env accountID runID e r = (inr tt, r') /\ calls_of r' = S (S (calls_of r))
    /\ (ev_fault calls (calls_of r) = NoFault -> run_says accountID runID e (db_of r'))
    /\ (ev_fault calls (S (calls_of r)) = NoFault -> account_says accountID e (db_of r')).
Proof.
  intros Hr Ha Hacc. set (p := snapshot (w_progress (r_world r))).
  set (m1 := fun now => FinishSyncRun now runID (run_status e) e p).
  set (m2 := fun now => SetAccountSyncResult now accountID e (auth_failed e)).
  destruct (call_result m1 r) as (db1 & K1 & C1 & _ & N1).
  destruct (call_result m2 (call env m1 r).2) as (db2 & K2 & C2 & _ & N2).
  exists (call env m2 (call env m1 r).2).2. split; [|split; [|split]].
  - change (record_outcome env accountID runID e r)
      with (SE_bind err Run _ _ (fun _ => warned (call env m2)) (warned (call env m1)) r).
    unfold warned, attempt. cbv beta iota delta [mbind SE_bind mret SE_ret].
    destruct (call env m1 r) as [x1 r1]. cbn [snd]. destruct (call env m2 r1) as [x2 r2]. done.
  - rewrite C2, C1. done.
  - intros F1. specialize (N1 F1).
    destruct (ks_runs _ _ K1 _ _ Hr) as (row1 & Hr1 & Ha1 & _).
    destruct (finish_says (ev_now calls (calls_of r)) accountID runID e p db1 row1 Hr1) as (db1' & Ef & Hs); [congruence|].
    assert (run_says accountID runID e (db_of (call env m1 r).2)) as Hs1.
    { rewrite N1. unfold m1. rewrite Ef. exact Hs. }
    apply (run_says_keeps _ _ _ (db_of (call env m1 r).2)); [|exact Hs1].
    apply (kept_call m2). intros now. intros db. apply keeps_update_accounts.
  - intros F2. rewrite C1 in N2. specialize (N2 F2). rewrite N2. cbn [snd set_world r_world].
    assert (is_Some (rows (mail_accounts db2) !! accountID)) as [acc Ha2].
    { apply (ks_accounts _ _ K2), call_accounts; [|exact Hacc].
      intros now db. unfold m1, FinishSyncRun, exec. by destruct (_ && _). }
    eexists. unfold m2, SetAccountSyncResult, modify, update_accounts. cbn [snd with_db w_db]. db_simpl.
    rewrite lookup_update_where, Ha2. unfold id_is. rewrite Z.eqb_refl. split; [done|]. done.
Qed.

Lemma syncMailbox_returns client account box : returning (syncMailbox env client account box).
Proof. unfold syncMailbox. repeat returning_step. Qed.
Lemma sync_boxes_returns account boxes : forall client t, returning (sync_boxes env account boxes client t).
Proof.
  induction boxes as [|box boxes IH]; intros client t; cbn [sync_boxes];
    repeat first [apply IH|apply syncMailbox_returns|returning_step].
Qed.
Lemma sync_connected_returns account client : returning (sync_connected env account client).
Proof. unfold sync_connected, conclude. repeat first [apply sync_boxes_returns|returning_step]. Qed.
Lemma syncAccountLocked_returns accountID r :
  exists result e r', syncAccountLocked env accountID r = (inr (result, e), r').
Proof.
  assert (returning (syncAccountLocked env accountID)) as Hr.
  { unfold syncAccountLocked, close. repeat first [apply sync_connected_returns|returning_step]. }
  destruct (Hr r) as ([result e] & r' & E). eauto.
Qed.

Lemma call_locks {A} (m : Z -> sql A) r : r_locks (call env m r).2 = r_locks r.
Proof. unfold call, lift. by destruct (store_call _ _ _). Qed.
Lemma record_outcome_locks accountID runID e r : r_locks (record_outcome env accountID runID e r).2 = r_locks r.
Proof.
  unfold record_outcome, warned, attempt, look. cbv beta iota delta [mbind SE_bind mret SE_ret].
  set (p := snapshot _). pose proof (call_locks (fun now => FinishSyncRun now runID (run_status e) e p) r) as H1.
  destruct (call env (fun now => FinishSyncRun now runID (run_status e) e p) r) as [x1 r1]. cbn [snd] in H1.
  pose proof (call_locks (fun now => SetAccountSyncResult now accountID e (auth_failed e)) r1) as H2.
  destruct (call env (fun now => SetAccountSyncResult now accountID e (auth_failed e)) r1) as [x2 r2]. cbn in *. congruence.
Qed.

(** The run once its row exists. *)
Lemma run_locked_started accountID trigger r runID r1 :
  call env (fun now => StartSyncRun now accountID trigger) r = (inr runID, r1) ->
  exists result e r', run_locked env accountID trigger r = (inr (result, e), r')
    /\ exists n, calls_of r' = S (S n)
        /\ (ev_fault calls n = NoFault -> run_says accountID runID e (db_of r'))
        /\ (ev_fault calls (S n) = NoFault -> account_says accountID e (db_of r')).
Proof.
  intros E. destruct (started_run _ _ _ _ _ E) as [(row & Hr & Ha) Hacc].
  set (r2 := register accountID (set_world (on_progress (fun _ => newProgress accountID) (r_world r1)) r1)).
  pose proof (kept_syncAccountLocked accountID r2) as [[Kr Ka] _].
  change (w_db (r_world r2)) with (db_of r1) in Kr, Ka.
  assert (exists result e r3, syncAccountLocked env accountID r2 = (inr (result, e), r3)) as (result & e & r3 & E3).
  { apply syncAccountLocked_returns. }
  rewrite E3 in Kr, Ka. cbn [snd] in Kr, Ka. destruct (Kr _ _ Hr) as (row3 & Hr3 & Ha3 & _). apply Ka in Hacc.
  destruct (record_outcome_says accountID runID e r3 row3 Hr3 (eq_trans Ha3 Ha) Hacc) as (r4 & E4 & C4 & S4 & A4).
  exists result, e, (unregister accountID r4). split.
  - unfold run_locked, attempt, counting, lift, local, updates.
    cbv beta iota delta [mbind SE_bind mret SE_ret]. rewrite E.
    cbv beta iota. fold r2. rewrite E3. cbv beta iota. by rewrite E4.
  - exists (calls_of r3). by split_and!.
Qed.

Lemma kept_run_locked_locks accountID trigger r :
  r_locks (run_locked env accountID trigger r).2 = r_locks r.
Proof.
  destruct (call env (fun now => StartSyncRun now accountID trigger) r) as [[e1|runID] r2] eqn:E;
    assert (r_locks r2 = r_locks r) as E2 by
      (pose proof (call_locks (fun now => StartSyncRun now accountID trigger) r) as Hl; by rewrite E in Hl).
  - unfold run_locked, attempt. cbv beta iota delta [mbind SE_bind mret SE_ret]. by rewrite E.
  - unfold run_locked, attempt, counting, updates. cbv beta iota delta [mbind SE_bind mret SE_ret]. rewrite E. cbv beta iota.
    unfold lift at 1, local. cbv beta iota. set (r3 := register accountID _).
    pose proof (kept_syncAccountLocked accountID r3) as [_ K3]. change (r_locks r3) with (r_locks r2) in K3.
    destruct (syncAccountLocked_returns accountID r3) as (res & e & r4 & E4). rewrite E4 in K3 |- *. cbn [snd] in K3.
    cbv beta iota.
    pose proof (record_outcome_locks accountID runID e r4) as Hl.
    destruct (record_outcome env accountID runID e r4) as [[e5|[]] r5]; cbn in *; congruence.
Qed.
End run.
