(* ===== verification/SyncRunNet.v ===== *)
(** What a sync run does on the network: one connection at a time, closed in the
    end, and the mailboxes it visits. *)
From S2P Require Import Prelude NumSet Planner GoStrings Retry Upstream Commands Crypto Schema StoreMailboxes StoreMessages StoreRuns StoreAccounts SyncMeta SyncPass Effects SyncRun SyncRunProps.
From Stdlib Require Import String.
From stdpp Require Import strings gmap list relations.
Open Scope list_scope.
Open Scope Z_scope.

(** * The discipline of connections *)

(** Replaying what a run did: the connection that is open afterwards, or nothing
    when a connection was opened beside another, used after it was closed, or the
    wrong one was closed. *)
Fixpoint play (open : option nat) (t : list event) : option (option nat) :=
  match t with
  | [] => Some open
  | Opened k :: t => match open with None => play (Some k) t | Some _ => None end
  | Closed k :: t => if bool_decide (open = None \/ open = Some k) then play None t else None
  | Selected k _ :: t => if bool_decide (open = Some k) then play open t else None
  | Visited _ _ :: t => play open t
  end.
Definition visits (t : list event) : list (string * option err) :=
  omap (fun e => match e with Visited name o => Some (name, o) | _ => None end) t.

Lemma play_app t1 t2 : forall o, play o (t1 ++ t2) = match play o t1 with Some o => play o t2 | None => None end.
Proof.
  induction t1 as [|e t1 IH]; intros o; [done|]. destruct e; cbn [play app].
  - destruct o; [done|apply IH].
  - destruct (bool_decide _); [apply IH|done].
  - destruct (bool_decide _); [apply IH|done].
  - apply IH.
Qed.

Definition holds (o : option nat) (vs : list (string * option err)) (r : Run) : Prop :=
  play None (r_trace r) = Some o /\ visits (r_trace r) = vs.

Section net.
Context {K : Type} `{AEAD K}.
Variable env : RunEnv K.
Notation calls := (rv_calls env).

(** A step the trace does not show. *)
Definition silent {A} (m : R A) : Prop := forall r, r_trace (m r).2 = r_trace r.

Lemma silent_lift {A} (m : SyncPass.M A) : silent (lift m).
Proof. intros r. unfold lift. by destruct (m (r_world r)). Qed.
Lemma silent_ret {A} (x : A) : silent (SE_ret err Run A x).
Proof. by intros r. Qed.
Lemma silent_look {A} (f : Run -> A) : silent (look f).
Proof. by intros r. Qed.
Lemma silent_attempt {A} (m : R A) : silent m -> silent (attempt m).
Proof. intros Hm r. specialize (Hm r). unfold attempt. by destruct (m r). Qed.
Lemma silent_bind {A B} (m : R A) (f : A -> R B) :
  silent m -> (forall x, silent (f x)) -> silent (SE_bind err Run A B f m).
Proof.
  intros Hm Hf r. unfold SE_bind. specialize (Hm r). destruct (m r) as [[e|x] r1]; [exact Hm|].
  cbn in Hm. by rewrite <- Hm, Hf.
Qed.
Lemma silent_warned {A} (m : R A) : silent m -> silent (warned m).
Proof. intros Hm. apply silent_bind; [by apply silent_attempt|]. intros _. apply silent_ret. Qed.

(** ** Triples over the trace *)

Notation ok := (triple (E := err) (W := Run)).

Lemma silent_ok {A} o vs (m : R A) : silent m -> ok (holds o vs) m (fun _ => holds o vs) (fun _ => holds o vs).
Proof.
  intros Hm r Hr. specialize (Hm r). unfold holds in *. destruct (m r) as [[e|x] r1]; cbn in Hm; by rewrite Hm.
Qed.
Lemma record_ok o o' vs vs' e : play o [e] = Some o' -> vs' = vs ++ visits [e] ->
  ok (holds o vs) (updates (record e)) (fun _ => holds o' vs') (fun _ _ => False).
Proof.
  intros Hp -> r [H1 H2]. unfold holds. cbn [updates record r_trace]. rewrite play_app, H1. split; [done|].
  unfold visits. by rewrite omap_app, <- H2.
Qed.
Lemma any_stop {A} P (m : R A) Q (X X' : err -> Run -> Prop) :
  ok P m Q X -> (forall e r, X e r -> X' e r) -> ok P m Q X'.
Proof. intros Hm HX. eapply triple_conseq; [exact Hm|auto..]. Qed.

Lemma dial_ok vs creds :
  ok (holds None vs) (dial env creds) (fun c => holds (Some (cn_id c)) vs) (fun _ => holds None vs).
Proof.
  intros r [H1 H2]. unfold dial. destruct (rv_connect env _ _) as [e|caps]; [done|].
  unfold holds. cbn. rewrite play_app, H1. split; [done|]. unfold visits. rewrite omap_app, <- H2. apply app_nil_r.
Qed.
Lemma dial_trace creds r : match dial env creds r with (inl _, r') => r_trace r' = r_trace r | _ => True end.
Proof. unfold dial. by destruct (rv_connect env _ _). Qed.
Lemma close_ok o vs c : o = None \/ o = Some (cn_id c) ->
  ok (holds o vs) (close c) (fun _ => holds None vs) (fun _ _ => False).
Proof.
  intros Ho. apply record_ok; [|by rewrite app_nil_r]. cbn. by rewrite bool_decide_eq_true_2.
Qed.

Lemma redial_ok vs creds :
  ok (holds None vs) (redial env creds) (fun c => holds (Some (cn_id c)) vs) (fun _ => holds None vs).
Proof.
  intros r Hr. unfold redial.
  pose proof (Retry_rule (fun s => holds None vs s.1)
    (fun s => match s.2 with Some c => holds (Some (cn_id c)) vs s.1 | None => False end)
    (run_ctx env) (run_sleep env) (rv_rand env) (rv_base env) (rv_max env) (dial_once env creds)
    (rv_attempts env) (r, None)) as HR.
  assert (forall s, holds None vs s.1 -> match dial_once env creds s with
    | (s', Some _) => holds None vs s'.1
    | (s', None) => match s'.2 with Some c => holds (Some (cn_id c)) vs s'.1 | None => False end end) as Hd.
  { intros [s c] Hs. unfold dial_once. pose proof (dial_ok vs creds s Hs) as Hd. cbn [fst].
    by destruct (dial env creds s) as [[e|c'] s']. }
  destruct (Retry _ _ _ _ _ _ _ _) as [[r' [c|]] [e|]]; try exact (HR Hd (fun _ _ Hs => Hs) Hr).
  by destruct (HR Hd (fun _ _ Hs => Hs) Hr).
Qed.

Lemma reconnect_ok vs account old :
  ok (holds (Some (cn_id old)) vs) (reconnect env account old)
    (fun c => holds (Some (cn_id c)) vs) (fun _ => holds None vs).
Proof.
  unfold reconnect. eapply triple_bind.
  { eapply any_stop; [apply close_ok; by right|done]. }
  intros u0. eapply triple_bind; [apply silent_ok; by intros r|]. intros creds. apply redial_ok.
Qed.

Lemma open_mailbox_ok vs client account box :
  let h := holds (Some (cn_id client)) vs in
  ok h (open_mailbox env client account box) (fun _ => h) (fun _ => h).
Proof.
  intros h. unfold open_mailbox.
  eapply triple_bind; [apply silent_ok, silent_lift|]. intros ?.
  eapply triple_bind; [apply silent_ok, silent_lift|]. intros ?.
  eapply triple_bind; [apply silent_ok, silent_lift|]. intros mailbox.
  eapply triple_bind; [apply silent_ok, silent_lift|]. intros ?.
  eapply triple_bind.
  { unfold select_box. eapply triple_bind; [|intros ?; apply silent_ok, silent_lift].
    eapply any_stop; [apply record_ok|done]; [cbn; by rewrite bool_decide_eq_true_2|by rewrite app_nil_r]. }
  intros selected. apply silent_ok. destruct (renumbered mailbox selected); [|apply silent_ret].
  apply silent_bind; [apply silent_lift|]. intros ?. apply silent_bind; [apply silent_lift|]. intros m. apply silent_ret.
Qed.

Lemma attempt_ok {A} P (m : R A) (Q : Run -> Prop) :
  ok P m (fun _ => Q) (fun _ => Q) -> ok P (attempt m) (fun _ => Q) (fun _ _ => False).
Proof. intros Hm r Hr. specialize (Hm r Hr). unfold attempt. by destruct (m r) as [[e|x] r1]. Qed.

Ltac silent_step := first
  [ match goal with |- forall _, silent _ => intro end | progress cbv zeta
  | apply silent_ret | apply silent_look | apply silent_lift | apply silent_attempt | apply silent_warned
  | apply silent_bind
  | match goal with |- silent (match ?x with _ => _ end) => destruct x end ].

Lemma syncMailbox_ok vs client account box :
  let h := holds (Some (cn_id client)) vs in
  ok h (syncMailbox env client account box) (fun _ => h) (fun _ => h).
Proof.
  intros h. unfold syncMailbox. eapply triple_bind.
  { eapply any_stop; [apply attempt_ok, open_mailbox_ok|done]. }
  intros opened. apply silent_ok. unfold counting, call. repeat silent_step.
Qed.

(** ** The loop over the mailboxes *)

Definition selectable (boxes : list MailboxInfo) : list MailboxInfo := filter (fun b => Selectable b = true) boxes.
Definition succeeded (vs : list (string * option err)) : Z := Z.of_nat (length (filter (fun v => v.2 = None) vs)).
Definition failures (vs : list (string * option err)) : Z := Z.of_nat (length (filter (fun v => v.2 <> None) vs)).

(** Why the loop stops before the last mailbox: the run's context; the account
    itself was refused; a mailbox failed and so did the reconnection. *)
Definition stops (vs : list (string * option err)) (e : err) : Prop :=
  (exists n, ev_ctx calls n = Some e)
  \/ (exists vs' name, vs = vs' ++ [(name, Some e)] /\ SeverityOf e = FatalAccount)
  \/ (exists vs' name e1 e2, vs = vs' ++ [(name, Some e1)] /\ SeverityOf e1 <> FatalAccount
        /\ e = reconnect_failed name e1 e2).

Definition open_or_lost (client : Conn) (vs : list (string * option err)) (r : Run) : Prop :=
  holds (Some (cn_id client)) vs r \/ holds None vs r.

Definition root_ok (t : Tally) : Prop := 0 < t_errors t -> t_rootCause t <> None.

(** What the loop has done when it ends, from a tally [t] and visits [vs0] on. *)
Record looped (boxes : list MailboxInfo) (vs0 : list (string * option err)) (t : Tally)
    (client' : Conn) (t' : Tally) (stopped : option err) (r' : Run) : Prop := mk_looped {
  lo_visits : exists vs, open_or_lost client' (vs0 ++ vs) r'
    /\ vs.*1 `prefix_of` map mi_Name (selectable boxes)
    /\ MailboxesSynced (t_result t') = MailboxesSynced (t_result t) + succeeded vs
    /\ match stopped with
       | None => vs.*1 = map mi_Name (selectable boxes) /\ t_errors t' = t_errors t + failures vs
       | Some e => stops (vs0 ++ vs) e
       end;
  lo_root : root_ok t'
}.

Lemma looped_cons box boxes vs0 v t t1 client' t' stopped r' :
  Selectable box = true -> v.1 = mi_Name box ->
  MailboxesSynced (t_result t1) = MailboxesSynced (t_result t) + succeeded [v] ->
  t_errors t1 = t_errors t + failures [v] ->
  looped boxes (vs0 ++ [v]) t1 client' t' stopped r' -> looped (box :: boxes) vs0 t client' t' stopped r'.
Proof.
  intros Hb Hv Hs He [(vs & Ho & Hp & Hs' & Hstop) Hr]. constructor; [|done]. exists (v :: vs).
  rewrite <- app_assoc in Ho, Hstop. unfold selectable in *. rewrite filter_cons_True by done. cbn [fmap list_fmap map].
  assert (forall l, succeeded (v :: l) = succeeded [v] + succeeded l) as Es.
  { intros l. unfold succeeded. rewrite !filter_cons. destruct (decide _); cbn; lia. }
  assert (forall l, failures (v :: l) = failures [v] + failures l) as Ef.
  { intros l. unfold failures. rewrite !filter_cons. destruct (decide _); cbn; lia. }
  split_and!; [exact Ho|rewrite Hv; by apply prefix_cons|rewrite Hs', Hs, (Es vs); lia|].
  destruct stopped as [e|]; [exact Hstop|]. destruct Hstop as [E1 E2]. rewrite Hv, (Ef vs). split; [by f_equal|lia].
Qed.

(** The loop stops at once. *)
Lemma looped_stop box boxes vs0 v t t' client e r' :
  Selectable box = true -> v.1 = mi_Name box -> v.2 <> None ->
  MailboxesSynced (t_result t') = MailboxesSynced (t_result t) ->
  open_or_lost client (vs0 ++ [v]) r' -> stops (vs0 ++ [v]) e -> root_ok t' ->
  looped (box :: boxes) vs0 t client t' (Some e) r'.
Proof.
  intros Hb Hv Hf Hs Ho Hstop Hr. constructor; [|done]. exists [v]. unfold selectable. rewrite filter_cons_True by done.
  split_and!; [done|cbn; rewrite Hv; apply prefix_cons, prefix_nil| |done].
  unfold succeeded. rewrite filter_cons_False by done. cbn. lia.
Qed.

Lemma visited_ok o vs name failed r :
  holds o vs r -> holds o (vs ++ [(name, failed)]) (record (Visited name failed) r).
Proof.
  intros Hr. pose proof (record_ok o o vs (vs ++ [(name, failed)]) (Visited name failed) eq_refl eq_refl r Hr) as Hok.
  exact Hok.
Qed.

Lemma sync_boxes_ok account boxes : forall client t vs0 r,
  holds (Some (cn_id client)) vs0 r -> 0 <= t_errors t -> root_ok t ->
  match sync_boxes env account boxes client t r with
  | (inr (client', t', stopped), r') => looped boxes vs0 t client' t' stopped r'
  | (inl _, _) => False
  end.
Proof.
  induction boxes as [|box boxes IH]; intros client t vs0 r Hr Ht Hroot; cbn [sync_boxes].
  { constructor; [|done]. exists []. rewrite app_nil_r. split_and!; [by left|done|unfold succeeded; cbn; lia|done|unfold failures; cbn; lia]. }
  unfold look, counting, lift, local, updates. cbv beta iota delta [mbind SE_bind mret SE_ret].
  destruct (ev_ctx calls (w_calls (r_world r))) as [e|] eqn:Ec.
  { constructor; [|done]. exists []. rewrite app_nil_r.
    split_and!; [by left|apply prefix_nil|unfold succeeded; cbn; lia|left; by eexists]. }
  destruct (Selectable box) eqn:Hb.
  2: { cbn [negb]. cbv iota. specialize (IH client t vs0 (set_world (on_progress mailboxDone (r_world r)) r) Hr Ht Hroot).
    destruct (sync_boxes _ _ _ _ _ _) as [[e|[[client' t'] stopped]] r']; [done|].
    assert (selectable (box :: boxes) = selectable boxes) as E by (unfold selectable; by rewrite filter_cons_False by by rewrite Hb).
    destruct IH as [Hv Hr']. constructor; [|done]. by rewrite E. }
  change (negb true) with false. cbv iota.
  pose proof (syncMailbox_ok vs0 client account box r Hr) as H1.
  destruct (syncMailbox_returns env client account box r) as ([m failed] & r1 & E1). rewrite E1 in H1 |- *.
  cbv beta iota zeta. pose proof (visited_ok _ _ (mi_Name box) failed r1 H1) as H2.
  destruct failed as [e|].
  2: { specialize (IH client (count_synced (fold_in m t)) _
         (set_world (on_progress mailboxDone (r_world (record (Visited (mi_Name box) None) r1))) _) H2 Ht Hroot).
    destruct (sync_boxes _ _ _ _ _ _) as [[e|[[client' t'] stopped]] r']; [done|].
    eapply looped_cons; [done| | | |exact IH]; try done.
    change (failures _) with 0. cbn. lia. }
  assert (root_ok (count_failure (mi_Name box) e (fold_in m t))) as Hroot'.
  { unfold root_ok. cbn. by destruct (t_rootCause t). }
  destruct (bool_decide (SeverityOf e = FatalAccount)) eqn:Es.
  { apply bool_decide_eq_true in Es. eapply (looped_stop _ _ _ (mi_Name box, Some e)); try done; [by left|].
    right. left. by eexists _, _. }
  apply bool_decide_eq_false in Es. unfold attempt.
  pose proof (reconnect_ok _ account client _ H2) as H3.
  destruct (reconnect env account client _) as [[c|client'] r3].
  { eapply (looped_stop _ _ _ (mi_Name box, Some e)); try done; [by right|].
    right. right. by eexists _, _, _, _. }
  specialize (IH client' (count_failure (mi_Name box) e (fold_in m t)) _
    (set_world (on_progress mailboxDone (r_world r3)) r3) H3 ltac:(cbn; lia) Hroot').
  destruct (sync_boxes _ _ _ _ _ _) as [[e'|[[client'' t'] stopped]] r']; [done|].
  eapply looped_cons; [done| | | |exact IH]; try done.
  change (succeeded _) with 0. cbn. lia.
Qed.

(** ** The run *)

(** What the visits [vs] of a run over [boxes], its result and its error have to do
    with each other. *)
Definition visited_all (boxes : list MailboxInfo) (vs : list (string * option err)) (synced : Z) (e : option err) : Prop :=
  let names := map mi_Name (selectable boxes) in
  vs.*1 `prefix_of` names /\ synced = succeeded vs
  /\ match e with
     | None => vs.*1 = names /\ (vs <> [] -> 0 < succeeded vs)
     | Some e => stops vs e
         \/ (vs.*1 = names /\ succeeded vs = 0 /\ exists root, e = all_failed (failures vs) (Z.of_nat (length boxes)) root)
     end.

Lemma outcomes_sum vs : succeeded vs + failures vs = Z.of_nat (length vs).
Proof.
  unfold succeeded, failures. induction vs as [|v vs IH]; [done|]. rewrite !filter_cons.
  destruct (decide (v.2 = None)), (decide (v.2 <> None)); cbn [length] in *; try done; lia.
Qed.

Lemma conclude_ok boxes client t r vs :
  open_or_lost client vs r -> vs.*1 = map mi_Name (selectable boxes) ->
  MailboxesSynced (t_result t) = succeeded vs -> t_errors t = failures vs -> root_ok t ->
  exists e r', conclude (Z.of_nat (length boxes)) t r = (inr e, r')
    /\ open_or_lost client vs r' /\ visited_all boxes vs (MailboxesSynced (t_result t)) e.
Proof.
  intros Ho Hv Hs He Hroot. pose proof (outcomes_sum vs) as Hsum.
  assert (forall r', r_trace r' = r_trace r -> open_or_lost client vs r') as Hsame.
  { intros r' E. unfold open_or_lost, holds in *. by rewrite E. }
  assert (failures vs = 0 \/ succeeded vs <> 0 -> vs <> [] -> 0 < succeeded vs) as Hpos.
  { intros [E|E] Hne; [|unfold succeeded in *; lia]. assert (length vs <> 0%nat) by by destruct vs. lia. }
  unfold conclude, counting, lift, local. cbv beta iota delta [mbind SE_bind mret SE_ret].
  destruct (t_rootCause t) as [root|] eqn:Er.
  - destruct ((0 <? t_errors t) && (MailboxesSynced (t_result t) =? 0)) eqn:Eb; eexists _, _; (split; [reflexivity|]).
    + split; [by apply Hsame|]. bool_to_prop. split_and!; [by rewrite Hv|done|]. right. split; [done|]. split; [congruence|].
      exists root. by rewrite He.
    + split; [by apply Hsame|]. split_and!; [by rewrite Hv|done|done|]. apply Hpos.
      apply andb_false_iff in Eb as [Eb|Eb]; [left; unfold failures in *; lia|right; lia].
  - eexists _, _. split; [reflexivity|]. split; [by apply Hsame|]. split_and!; [by rewrite Hv|done|done|]. apply Hpos. left.
    unfold root_ok in Hroot. destruct (Z.eq_dec (t_errors t) 0) as [E|E]; [congruence|].
    destruct Hroot; [unfold failures in He; lia|done].
Qed.

(** What a connected run has done: it could not list the mailboxes, or it went
    through the list. *)
Definition connected_run (vs : list (string * option err)) (synced : Z) (e : option err) : Prop :=
  exists n, match rv_list env n with
            | inl err => vs = [] /\ e = Some err
            | inr boxes => visited_all (prioritise boxes) vs synced e
            end.

Lemma sync_connected_ok account client r :
  holds (Some (cn_id client)) [] r ->
  exists client' result e r' vs, sync_connected env account client r = (inr (client', result, e), r')
    /\ open_or_lost client' vs r' /\ connected_run vs (MailboxesSynced result) e.
Proof.
  intros Hr. unfold sync_connected.
  assert (silent (warned (call env (fun _ => SetAccountCapabilities account.1 (capabilityNames (cn_caps client)))))) as S1
    by apply silent_warned, silent_lift.
  pose proof (silent_ok _ _ _ S1 r Hr) as H1.
  destruct (returning_warned (call env (fun _ => SetAccountCapabilities account.1 (capabilityNames (cn_caps client)))) r)
    as ([] & r1 & E1).
  unfold counting, lift, local, attempt, SyncPass.command. cbv beta iota delta [mbind SE_bind mret SE_ret].
  rewrite E1 in H1 |- *. cbv beta iota. cbn [set_world r_world on_progress w_cmds].
  destruct (rv_list env _) as [e|boxes] eqn:El; cbv beta iota.
  { eexists client, no_result, (Some e), _, []. split; [done|]. split; [by left|]. eexists. rewrite El. done. }
  match goal with |- context [warned ?m ?r2] => set (r2' := r2);
    assert (silent (warned m)) as S2 by apply silent_warned, silent_lift;
    pose proof (silent_ok _ _ _ S2 r2' H1) as H2; destruct (returning_warned m r2') as ([] & r3 & E3) end.
  rewrite E3 in H2 |- *. cbv beta iota.
  pose proof (sync_boxes_ok account (prioritise boxes) client (mk_Tally no_result 0 None) [] r3 H2 ltac:(done)
    ltac:(done)) as H3.
  destruct (sync_boxes _ _ _ _ _ _) as [[e|[[client' t'] stopped]] r4]; [done|].
  destruct H3 as [(vs & Ho & Hp & Hs & Hstop) Hroot]. cbn [app] in Ho, Hstop. cbn in Hs.
  destruct stopped as [e|].
  - exists client', (t_result t'), (Some e), r4, vs. split; [done|]. split; [done|]. eexists. rewrite El.
    split_and!; [done|lia|by left].
  - destruct Hstop as [Hv He]. cbn in He.
    destruct (conclude_ok (prioritise boxes) client' t' r4 vs) as (e & r5 & E5 & Ho5 & Hall); [done|done|lia|lia|done|].
    rewrite E5. exists client', (t_result t'), e, r5, vs. split; [done|]. split; [done|]. eexists. by rewrite El.
Qed.

Lemma syncAccountLocked_ok accountID r : r_trace r = [] ->
  exists result e r' vs, syncAccountLocked env accountID r = (inr (result, e), r') /\ holds None vs r'
    /\ ((vs = [] /\ r_trace r' = []) \/ connected_run vs (MailboxesSynced result) e).
Proof.
  intros Hr.
  assert (forall result e r', r_trace r' = [] -> exists result0 e0 r0 vs,
    (inr (result, e), r') = (inr (result0, e0), r0) :> (err + (Result * option err)) * Run /\ holds None vs r0
    /\ ((vs = [] /\ r_trace r0 = []) \/ connected_run vs (MailboxesSynced result0) e0)) as Hnone.
  { intros result e r' E. eexists _, _, _, []. split; [done|]. unfold holds. rewrite E. split; [done|]. by left. }
  unfold syncAccountLocked, attempt, counting. cbv beta iota delta [mbind SE_bind mret SE_ret].
  pose proof (silent_lift (store_call calls (fun _ => GetAccount accountID)) r) as S1.
  change (lift _) with (call env (fun _ => GetAccount accountID)) in S1.
  destruct (call env (fun _ => GetAccount accountID) r) as [[e|account] r1]; cbn [snd] in S1; rewrite Hr in S1;
    [by apply Hnone|].
  destruct (negb (Account_Active account)); [by apply Hnone|].
  destruct (credentials (rv_sealer env) account) as [e|creds]; [by apply Hnone|].
  unfold lift at 1, local. cbv beta iota. set (r2 := set_world _ r1).
  assert (r_trace r2 = []) as S2 by done.
  pose proof (dial_ok [] creds r2 ltac:(unfold holds; by rewrite S2)) as H2.
  pose proof (dial_trace creds r2) as Hd.
  destruct (dial env creds r2) as [[e|client] r3]; [apply Hnone; by rewrite Hd|].
  destruct (sync_connected_ok account client r3 H2) as (client' & result & e & r4 & vs & -> & Ho & Hc).
  cbv beta iota. eexists _, _, _, vs. split; [unfold close, updates; reflexivity|]. split; [|by right].
  destruct Ho as [Ho|Ho]; [apply (close_ok _ vs client' ltac:(by right) _ Ho)|apply (close_ok _ vs client' ltac:(by left) _ Ho)].
Qed.

Lemma record_outcome_returns accountID runID e : returning (record_outcome env accountID runID e).
Proof. unfold record_outcome. repeat returning_step. Qed.

Lemma record_outcome_trace accountID runID e r : r_trace (record_outcome env accountID runID e r).2 = r_trace r.
Proof.
  assert (silent (record_outcome env accountID runID e)) as Hs by (unfold record_outcome, call; repeat silent_step).
  apply Hs.
Qed.

(** A run starts with nothing done on the network. *)
Lemma SyncAccount_net accountID trigger r result e r' :
  r_trace r = [] -> SyncAccount env accountID trigger r = (result, e, r') ->
  exists vs, holds None vs r' /\ ((vs = [] /\ r_trace r' = []) \/ connected_run vs (MailboxesSynced result) e).
Proof.
  intros Hr. assert (forall r1 : Run, r_trace r1 = [] -> holds None [] r1) as Hnil by (intros r1 E; unfold holds; by rewrite E).
  unfold SyncAccount. destruct (rv_session env) as [e0|session]; [intros [= _ _ <-]; exists []; auto|].
  destruct (Lock.TryLockAccount session accountID (r_locks r)) as [[lock|] st]; [|intros [= _ _ <-]; exists []; auto].
  unfold run_locked, attempt, counting, updates. cbv beta iota delta [mbind SE_bind mret SE_ret].
  set (r1 := set_locks st r).
  pose proof (silent_lift (store_call calls (fun now => StartSyncRun now accountID trigger)) r1) as S1.
  change (lift _) with (call env (fun now => StartSyncRun now accountID trigger)) in S1.
  destruct (call env (fun now => StartSyncRun now accountID trigger) r1) as [[e1|runID] r2]; cbn [snd] in S1.
  { intros [= _ _ <-]. exists []. change (r_trace r2 = r_trace r) in S1. rewrite Hr in S1. auto. }
  unfold lift at 1, local. cbv beta iota. set (r3 := register accountID _).
  assert (r_trace r3 = []) as S3 by (change (r_trace r2 = []); by rewrite S1).
  destruct (syncAccountLocked_ok accountID r3 S3) as (res & e1 & r4 & vs & -> & Hv & Hc). cbv beta iota.
  pose proof (record_outcome_trace accountID runID e1 r4) as S4.
  destruct (record_outcome_returns accountID runID e1 r4) as ([] & r5 & E5).
  rewrite E5 in S4 |- *. cbn [snd] in S4. cbv beta iota. intros [= <- <- <-].
  exists vs. unfold holds in *. cbn [unregister set_locks r_trace]. rewrite S4. auto.
Qed.
End net.
