(* ===== verification/SyncRunTheorems.v ===== *)
(** What a sync run promises: its outcome is recorded, its lock released and its
    connections closed; every mailbox gets its turn; a failing heartbeat ends it. *)
From S2P Require Import Prelude NumSet Planner GoStrings Retry Upstream Commands Crypto Schema StoreMailboxes StoreMessages StoreRuns StoreAccounts StoreInvariant StoreSteps SyncMeta SyncPass Effects SyncRun SyncRunProps SyncRunNet.
From Stdlib Require Import String.
From stdpp Require Import strings gmap list relations.
Open Scope list_scope.
Open Scope Z_scope.

Notation db_of r := (w_db (r_world r)).
Notation calls_of r := (w_calls (r_world r)).

(** * A run on a small account, for the witnesses *)

(** A cipher whose key is a nonce length: the nonce, twice, then the text. *)
#[local] Instance plain_aead : AEAD nat := {
  NonceSize n := n;
  aead_Seal _ nonce p := (nonce ++ p)%list;
  aead_Open n nonce c := if bool_decide (take n c = nonce) then inr (drop n c) else inl (ErrText "cipher: message authentication failed")
}.

(** The user name is "u" and the password "p". *)
Definition ex_run_account : sql Account := CreateAccount
  (mk_CreateAccountParams 1 "Alice" "alice@example.org" "imap.example.org" 993 "tls"
     [110; 111; 110; 111; 117] [110; 111; 110; 111; 112]).
Definition ex_run_db : DB := exec ex_run_account (exec ex_user empty_db).

Definition ex_calls : Env :=
  mk_Env (fun _ => NoFault) (fun _ db => db) (fun n => 100 + Z.of_nat n) (fun _ => None) false 500
    (fun _ _ _ _ => inr []) (fun _ => inr []).
Definition ex_boxes : list MailboxInfo :=
  [mk_MailboxInfo "Old" (Some "/"%char) ["\Archive"%string]; mk_MailboxInfo "Shared" None ["\Noselect"%string];
   mk_MailboxInfo "Broken" None []; mk_MailboxInfo "INBOX" None []].
Definition gone : err := ErrUpstream FatalMailbox "NONEXISTENT" (ErrImap "NO" "NONEXISTENT" "no such mailbox").
Definition refused : err := ErrUpstream FatalAccount "AUTHENTICATIONFAILED" (ErrImap "NO" "AUTHENTICATIONFAILED" "bye").
Definition ex_select (_ _ : nat) (name : string) : err + SelectedMailbox :=
  if String.eqb name "Broken" then inl gone else inr (mk_SelectedMailbox name 0 7 1 0 true).
(** [logins k] is the outcome of the [k]-th dial. *)
Definition ex_run_env (logins : nat -> err + list string) : RunEnv nat :=
  mk_RunEnv ex_calls (Some 2%nat) true 3 1000 8000 (fun n => n / 2) (fun k _ => logins k) (fun _ => None)
    (fun _ => inr ex_boxes) ex_select (fun _ => mk_Bodies id id 0 0 None) (inr 9) (fun st => st).
Definition ex_start : Run :=
  mk_Run (mk_World ex_run_db (newProgress 0) 0 0 0 0) 0 [] (Lock.mk_state ∅ ∅ ∅) None ∅.
Definition logs_in (_ : nat) : err + list string := inr ["IMAP4rev1"%string].
Definition ex_out : Result * option err * Run := SyncAccount (ex_run_env logs_in) 1 "manual" ex_start.

Example ex_run_trace : r_trace ex_out.2 =
  [Opened 0; Selected 0 "INBOX"; Visited "INBOX" None; Selected 0 "Broken"; Visited "Broken" (Some gone); Closed 0;
   Opened 1; Selected 1 "Old"; Visited "Old" None; Closed 1].
Proof. vm_compute. reflexivity. Qed.
Example ex_run_result : ex_out.1 = (mk_Result 2 0 0 0 false, None).
Proof. vm_compute. reflexivity. Qed.

Section run.
Context {K : Type} `{AEAD K}.
Variable env : RunEnv K.
Notation calls := (rv_calls env).

(** [C15] A run that starts is always recorded: whatever fails on the way (the database,
    the network, the server, its context), once the row of the run exists and its
    last but one store call goes through, the row says how the run ended, with the
    error the caller gets; and if the last one does too, so does the account. *)
Theorem run_recorded (accountID : Z) (trigger : string) (r r' : Run) (result : Result) (e : option err) (n : nat) :
  others_keep calls -> SyncAccount env accountID trigger r = (result, e, r') ->
  (S (calls_of r) < calls_of r')%nat ->
  calls_of r' = S (S n) -> ev_fault calls n = NoFault ->
  exists runID, run_says accountID runID e (db_of r')
    /\ (ev_fault calls (S n) = NoFault -> account_says accountID e (db_of r')).
Proof.
  intros Hothers.
  unfold SyncAccount. destruct (rv_session env) as [e0|session]; [intros [= _ _ <-]; lia|].
  destruct (Lock.TryLockAccount session accountID (r_locks r)) as [[lock|] st]; [|intros [= _ _ <-]; cbn; lia].
  set (r1 := set_locks st r). destruct (call env (fun now => StartSyncRun now accountID trigger) r1) as [[e1|runID] r2] eqn:E.
  - assert (run_locked env accountID trigger r1 = (inr (no_result, Some e1), r2)) as E'.
    { unfold run_locked, attempt. cbv beta iota delta [mbind SE_bind mret SE_ret]. by rewrite E. }
    rewrite E'. intros [= _ _ <-]. cbn.
    destruct (call_result env Hothers (fun now => StartSyncRun now accountID trigger) r1) as (_ & _ & C & _).
    rewrite E in C. cbn [snd] in C. rewrite C. cbn. lia.
  - destruct (run_locked_started env Hothers _ _ _ _ _ E) as (res & e1 & r3 & E3 & m & C3 & S3 & A3). rewrite E3.
    intros [= <- <- <-] _ Hn Hf. cbn in Hn. rewrite C3 in Hn. injection Hn as ->.
    exists runID. split; [exact (S3 Hf)|exact A3].
Qed.

End run.

Lemma run_recorded_witness :
  others_keep ex_calls /\ calls_of ex_out.2 = 17%nat
  /\ exists runID, run_says 1 runID None (db_of ex_out.2) /\ (ev_fault ex_calls 16 = NoFault -> account_says 1 None (db_of ex_out.2)).
Proof.
  assert (others_keep ex_calls) as Ho by (intros n db; exact (keeps_refl db)).
  assert (calls_of ex_out.2 = 17%nat) as Hc by (vm_compute; reflexivity).
  split; [exact Ho|]. split; [exact Hc|].
  apply (run_recorded (ex_run_env logs_in) 1 "manual" ex_start ex_out.2 ex_out.1.1 None 15 Ho);
    [|rewrite Hc; cbn; lia|exact Hc|reflexivity].
  vm_compute. reflexivity.
Defined.


(** * The lock *)

(** The session holds no lock. *)
Definition session_free (session : Z) (st : Lock.state) : Prop :=
  forall k c n, Lock.holder st !! k = Some (c, n) -> c <> session.

Lemma release_free session accountID st :
  (forall k c n, Lock.holder st !! k = Some (c, n) -> c = session -> k = Lock.lock_key accountID /\ n = 1) ->
  session_free session (Lock.Release (Some (Lock.mk_AccountLock session accountID false)) st).2.
Proof.
  intros Hst k c n. unfold Lock.Release, Lock.pg_advisory_unlock. cbn.
  destruct (Lock.holder st !! Lock.lock_key accountID) as [[c' n']|] eqn:E.
  - destruct (Z.eqb_spec c' session) as [->|Hne].
    + destruct (Hst _ _ _ E eq_refl) as [_ ->]. cbn.
      intros Hk Hc. apply fin_maps.lookup_delete_Some in Hk as [Hk Hl]. destruct (Hst _ _ _ Hl Hc). congruence.
    + cbn. intros Hk Hc. destruct (Hst _ _ _ Hk Hc) as [-> _]. congruence.
  - cbn. intros Hk Hc. destruct (Hst _ _ _ Hk Hc) as [-> _]. congruence.
Qed.


(** * The heartbeat *)

Definition misses (t : tick) : bool := match t with Tick _ _ (FailBefore _ | FailAfter _) => true | _ => false end.
Definition beats (t : tick) : bool := match t with Tick _ _ _ => true | _ => false end.

(** Three misses in a row, with only beats before them. *)
Definition misses_thrice (ticks : list tick) : Prop :=
  exists pre a b c post, ticks = pre ++ [a; b; c] ++ post /\ Forall (fun t => beats t = true) pre
    /\ Forall (fun t => misses t = true) [a; b; c].

Lemma misses_beats t : misses t = true -> beats t = true.
Proof. by destruct t. Qed.
Lemma misses_thrice_cons t ticks : beats t = true -> misses_thrice ticks -> misses_thrice (t :: ticks).
Proof. intros Ht (pre & a & b & c & post & -> & Hp & Hm). exists (t :: pre), a, b, c, post. split_and!; [done|by constructor|done]. Qed.

Lemma heartbeat_step runID failures t ticks db : beats t = true ->
  exists db', startHeartbeat runID failures (t :: ticks) db =
    if misses t then (if 3 <=? failures + 1 then (true, db') else startHeartbeat runID (failures + 1) ticks db')
    else startHeartbeat runID 0 ticks db'.
Proof. destruct t as [| |now p [|e|e]]; intros; try done; by eexists. Qed.

(** With [failures] misses behind it, the loop is one long enough row of misses, or
    three misses anywhere, away from cancelling. *)
Definition will_cancel (failures : Z) (ticks : list tick) : Prop :=
  (exists miss post, ticks = miss ++ post /\ Z.of_nat (length miss) = 3 - failures /\ Forall (fun t => misses t = true) miss)
  \/ misses_thrice ticks.

Lemma will_cancel_0 ticks : will_cancel 0 ticks <-> misses_thrice ticks.
Proof.
  split; [|by right]. intros [(miss & post & -> & Hl & Hm)|?]; [|done].
  destruct miss as [|a [|b [|c [|d miss]]]]; try (cbn in Hl; lia). by exists [], a, b, c, post.
Qed.

Lemma will_cancel_miss f t ticks : 0 <= f < 3 -> misses t = true ->
  will_cancel f (t :: ticks) <-> 3 <= f + 1 \/ will_cancel (f + 1) ticks.
Proof.
  intros Hf Ht. split.
  - intros [(miss & post & E & Hl & Hm)|(pre & a & b & c & post & E & Hp & Hm)].
    + destruct miss as [|x miss]; [cbn in Hl; lia|]. injection E as <- ->. apply Forall_cons in Hm as [_ Hm].
      right. left. exists miss, post. split_and!; [done| |done]. cbn in Hl. lia.
    + destruct pre as [|x pre]; injection E as <- ->.
      * apply Forall_cons in Hm as [_ Hm]. destruct (Z.eq_dec f 2) as [->|]; [left; lia|]. right. left.
        destruct (Z.eq_dec f 0) as [->|]; [by exists [b; c], post|].
        assert (f = 1) as -> by lia. exists [b], (c :: post). apply Forall_cons in Hm as [Hb _].
        split_and!; [done|done|by repeat constructor].
      * apply Forall_cons in Hp as [_ Hp]. right. right. by exists pre, a, b, c, post.
  - intros [H3|[(miss & post & -> & Hl & Hm)|Hm]].
    + left. exists [t], ticks. split_and!; [done|cbn; lia|by repeat constructor].
    + left. exists (t :: miss), post. split_and!; [done|cbn; lia|by constructor].
    + right. apply misses_thrice_cons; [by apply misses_beats|done].
Qed.

Lemma will_cancel_ok f t ticks : 0 <= f < 3 -> beats t = true -> misses t = false ->
  will_cancel f (t :: ticks) <-> will_cancel 0 ticks.
Proof.
  intros Hf Hb Ht. rewrite will_cancel_0. split.
  - intros [(miss & post & E & Hl & Hm)|(pre & a & b & c & post & E & Hp & Hm)].
    + destruct miss as [|x miss]; [cbn in Hl; lia|]. injection E as <- ->. apply Forall_cons in Hm as [Hm _]. congruence.
    + destruct pre as [|x pre]; injection E as <- ->; [apply Forall_cons in Hm as [Hm _]; congruence|].
      apply Forall_cons in Hp as [_ Hp]. by exists pre, a, b, c, post.
  - intros Hm. right. by apply misses_thrice_cons.
Qed.

Lemma will_cancel_stop f t ticks : 0 <= f < 3 -> beats t = false -> ~ will_cancel f (t :: ticks).
Proof.
  intros Hf Hb [(miss & post & E & Hl & Hm)|(pre & a & b & c & post & E & Hp & Hm)].
  - destruct miss as [|x miss]; [cbn in Hl; lia|]. injection E as <- _. apply Forall_cons in Hm as [Hm _].
    apply misses_beats in Hm. congruence.
  - destruct pre as [|x pre]; injection E as <- _.
    + apply Forall_cons in Hm as [Hm _]. apply misses_beats in Hm. congruence.
    + apply Forall_cons in Hp as [Hp _]. congruence.
Qed.

Lemma heartbeat_will_cancel runID ticks : forall f db, 0 <= f < 3 ->
  (startHeartbeat runID f ticks db).1 = true <-> will_cancel f ticks.
Proof.
  induction ticks as [|t ticks IH]; intros f db Hf.
  { split; [done|]. intros [(miss & post & E & Hl & _)|(pre & a & b & c & post & E & _)].
    - destruct miss; [cbn in Hl; lia|done].
    - by destruct pre. }
  destruct (beats t) eqn:Hb.
  2: { split; [by destruct t|]. intros Hc. by destruct (will_cancel_stop f t ticks Hf Hb). }
  destruct (heartbeat_step runID f t ticks db Hb) as [db' ->]. destruct (misses t) eqn:Em.
  - rewrite will_cancel_miss by done. destruct (Z.leb_spec 3 (f + 1)) as [H3|H3].
    + split; [by left|done].
    + rewrite (IH (f + 1) db') by lia. split; [by right|]. intros [?|?]; [lia|done].
  - rewrite will_cancel_ok by done. apply IH. lia.
Qed.

(** The heartbeat cancels the run exactly when three beats in a row fail while
    the run lasts: fewer failures, or failures with a success in between, never do,
    and nothing after the run's end counts. *)
Theorem heartbeat_cancels (runID : Z) (ticks : list tick) (db : DB) :
  (startHeartbeat runID 0 ticks db).1 = true <->
  exists pre a b c post, ticks = pre ++ [a; b; c] ++ post /\ Forall (fun t => beats t = true) pre
    /\ Forall (fun t => misses t = true) [a; b; c].
Proof. rewrite heartbeat_will_cancel by lia. apply will_cancel_0. Qed.

Example heartbeat_1 :
  let p := snapshot (newProgress 1) in
  let miss := Tick 5 p (FailBefore ErrEOF) in
  let ok := Tick 6 p NoFault in
  (startHeartbeat 1 0 [miss; miss; ok; miss; Finished; miss; miss] ex_run_db).1 = false
  /\ (startHeartbeat 1 0 [miss; ok; miss; miss; miss; ok] ex_run_db).1 = true.
Proof. split; vm_compute; reflexivity. Qed.

(** * What a run makes of the account's state *)

Lemma GetAccount_call {K : Type} `{AEAD K} (env : RunEnv K) accountID acc r :
  ev_fault (rv_calls env) (calls_of r) = NoFault ->
  rows (mail_accounts (ev_others (rv_calls env) (calls_of r) (db_of r))) !! accountID = Some acc ->
  exists w, call env (fun _ => GetAccount accountID) r = (inr (accountID, acc), set_world w r)
    /\ w_db w = ev_others (rv_calls env) (calls_of r) (db_of r).
Proof.
  intros Hf Ha. unfold call, lift, store_call. rewrite Hf. unfold GetAccount. rewrite Ha. by eexists.
Qed.

(** A run of an account that is not in the rotation (paused, disabled, or refused
    by its server) does nothing on the network, yet it is recorded as a success: it
    clears the account's error and puts it back into the state in which the
    scheduler tries its credentials again. *)
Theorem inactive_account_reset {K : Type} `{AEAD K} (env : RunEnv K) (accountID session : Z) (trigger : string)
    (lock : Lock.AccountLock) (st : Lock.state) (acc : account_row) (r : Run) :
  rv_session env = inr session -> Lock.TryLockAccount session accountID (r_locks r) = (Some lock, st) ->
  (forall n, ev_fault (rv_calls env) n = NoFault) ->
  (forall n db, mail_accounts (ev_others (rv_calls env) n db) = mail_accounts db) -> others_keep (rv_calls env) ->
  bool_decide (trigger ∈ ["scheduled"; "manual"; "startup"]%string) = true ->
  rows (mail_accounts (db_of r)) !! accountID = Some acc -> Account_Active (accountID, acc) = false ->
  exists r', SyncAccount env accountID trigger r = (no_result, None, r')
    /\ r_trace r' = r_trace r /\ account_says accountID None (db_of r').
Proof.
  intros Hs Hlock Hfault Hothers Hkeep Htr Hacc Hinact. unfold SyncAccount. rewrite Hs, Hlock.
  set (r0 := set_locks st r).
  assert (exists runID w, call env (fun now => StartSyncRun now accountID trigger) r0 = (inr runID, set_world w r0)
    /\ mail_accounts (w_db w) = mail_accounts (db_of r)) as (runID & w1 & E1 & A1).
  { unfold call, lift, store_call. rewrite Hfault. unfold StartSyncRun, wrap_err. rewrite Htr. cbn [negb].
    rewrite Hothers. change (w_db (r_world r0)) with (db_of r). rewrite Hacc. eexists _, _. split; [reflexivity|].
    cbn [with_db w_db]. db_simpl. apply Hothers. }
  destruct (run_locked_started env Hkeep accountID trigger r0 runID _ E1) as (res & e & r' & E & n & Hn & _ & Ha).
  rewrite E. specialize (Ha (Hfault _)).
  revert E. unfold run_locked, attempt. cbv beta iota delta [mbind SE_bind mret SE_ret]. rewrite E1. cbv beta iota.
  unfold counting, lift at 1, local, updates. cbv beta iota. set (r2 := register accountID _).
  assert (mail_accounts (db_of r2) = mail_accounts (db_of r)) as A2 by exact A1.
  destruct (GetAccount_call env accountID acc r2 (Hfault _)) as (w3 & E3 & _); [by rewrite Hothers, A2|].
  unfold syncAccountLocked, attempt. cbv beta iota delta [mbind SE_bind mret SE_ret]. rewrite E3. cbv beta iota.
  rewrite Hinact. cbn [negb]. cbv iota.
  pose proof (record_outcome_trace env accountID runID None (set_world w3 r2)) as Ht.
  destruct (record_outcome env accountID runID None (set_world w3 r2)) as [[e5|[]] r5]; [done|].
  intros [= <- <- <-]. eexists. split; [reflexivity|]. split; [exact Ht|exact Ha].
Qed.

(** An account its server has refused. *)
Definition ex_refused_db : DB := exec (SetAccountSyncResult 50 1 (Some refused) true) ex_run_db.
Definition ex_refused : Run :=
  mk_Run (mk_World ex_refused_db (newProgress 0) 0 0 0 0) 0 [] (Lock.mk_state ∅ ∅ ∅) None ∅.

Lemma inactive_account_reset_witness :
  (exists acc, rows (mail_accounts ex_refused_db) !! 1 = Some acc /\ ac_auth_state acc = "auth_failed"%string)
  /\ exists r', SyncAccount (ex_run_env logs_in) 1 "manual" ex_refused = (no_result, None, r')
    /\ r_trace r' = [] /\ account_says 1 None (db_of r').
Proof.
  split; [eexists; split; [vm_compute; reflexivity|reflexivity]|].
  eapply (inactive_account_reset (ex_run_env logs_in) 1 9 "manual" _ _ _ ex_refused); [reflexivity| | | | | | | ].
  - vm_compute. reflexivity.
  - done.
  - done.
  - intros n db. exact (keeps_refl db).
  - reflexivity.
  - vm_compute. reflexivity.
  - vm_compute. reflexivity.
Defined.

(** When the reconnection after a failed mailbox is refused, the severity of the
    error the run ends with is the mailbox's, if that has one: the account is then
    recorded as in order although its credentials were refused. *)
Lemma auth_failed_reconnect name e c :
  auth_failed (Some (reconnect_failed name e c)) =
    match as_upstream e with Some s => bool_decide (s = FatalAccount) | None => auth_failed (Some c) end.
Proof. unfold auth_failed, SeverityOf. cbn. by destruct (as_upstream e). Qed.

(** The server takes the first login and refuses the second. *)
Definition ex_hidden : Result * option err * Run :=
  SyncAccount (ex_run_env (fun k => match k with O => inr [] | _ => inl refused end)) 1 "manual" ex_start.
Theorem refused_reconnection_hidden :
  ex_hidden.1.2 = Some (reconnect_failed "Broken" gone refused) /\ SeverityOf refused = FatalAccount
  /\ exists acc, rows (mail_accounts (db_of ex_hidden.2)) !! 1 = Some acc /\ ac_auth_state acc = "ok"%string.
Proof. split; [vm_compute; reflexivity|]. split; [reflexivity|]. eexists. split; [vm_compute; reflexivity|reflexivity]. Qed.
