(* ===== verification/Replay.v ===== *)
(** Replaying queued local changes upstream (internal/syncer/mutations.go): claim a
    batch, apply each change on the session, record the outcome, until nothing is
    due. *)
From S2P Require Import Prelude NumSet Planner GoStrings Retry Upstream Crypto Schema StoreMailboxes StoreMessages StoreMutations StoreAccounts SyncPass Effects SyncRun.
From Stdlib Require Import String.
From stdpp Require Import strings gmap list.
Open Scope list_scope.
Open Scope Z_scope.

Definition maxMutationAttempts : Z := 8.
Definition batch_size : Z := 50.

(** A [time.Duration] as the interval the database adds: whole microseconds. *)
Definition interval (d : Z) : Z := d / 1000.

(** What the database, the clock and the context do ([rp_env], as in a sync pass),
    which rows other transactions have locked, and the order RETURNING lists. *)
Record ReplayEnv (K : Type) := mk_ReplayEnv {
  rp_env : Env;
  rp_locked : nat -> Z -> bool;
  rp_returning : nat -> list Mutation -> list Mutation;
  rp_sealer : option K;
  rp_rand : Z -> Z;
  rp_base : Z;
  rp_max : Z;
  rp_attempts : Z;                     (* RetryMaxAttempts, of the session *)
  rp_worker : string
}.
Arguments mk_ReplayEnv {K}.
Arguments rp_env {K}.
Arguments rp_locked {K}.
Arguments rp_returning {K}.
Arguments rp_sealer {K}.
Arguments rp_rand {K}.
Arguments rp_base {K}.
Arguments rp_max {K}.
Arguments rp_attempts {K}.
Arguments rp_worker {K}.

Record Replay (W C : Type) := mk_Replay {
  rp_db : DB;
  rp_calls : nat;
  rp_net : W;
  rp_session : Session C;
  rp_selectedMailbox : string;
  rp_tried : list (Z * option err)     (* the changes tried so far and what came of them *)
}.
Arguments mk_Replay {W C}.
Arguments rp_db {W C}.
Arguments rp_calls {W C}.
Arguments rp_net {W C}.
Arguments rp_session {W C}.
Arguments rp_selectedMailbox {W C}.
Arguments rp_tried {W C}.

Section replay.
Context {K : Type} `{AEAD K}.
(** The network, with the account's credentials. *)
Context {W C : Type} `{Connection W C}.
Variable store_flags : C -> Z -> list string -> W -> (err + unit) * W.
Variable env : ReplayEnv K.

Notation RW := (Replay W C).
Notation calls := (rp_env env).

Definition with_store (db : DB) (r : RW) : RW :=
  mk_Replay db (S (rp_calls r)) (rp_net r) (rp_session r) (rp_selectedMailbox r) (rp_tried r).
Definition with_session (s : Session C) (w : W) (r : RW) : RW :=
  mk_Replay (rp_db r) (rp_calls r) w s (rp_selectedMailbox r) (rp_tried r).
Definition with_selected (name : string) (r : RW) : RW :=
  mk_Replay (rp_db r) (rp_calls r) (rp_net r) (rp_session r) name (rp_tried r).
Definition with_tried (id : Z) (o : option err) (r : RW) : RW :=
  mk_Replay (rp_db r) (rp_calls r) (rp_net r) (rp_session r) (rp_selectedMailbox r) (rp_tried r ++ [(id, o)]).

(** The pass ends early with the number of changes applied and the error. *)
Definition P (A : Type) : Type := SE (Z * err) RW A.

(** A store call at which the pass gives up when it fails. *)
Definition store (applied : Z) {A} (m : Z -> sql A) : P A := fun r =>
  let n := rp_calls r in
  let db := ev_others calls n (rp_db r) in
  match ev_fault calls n with
  | NoFault =>
      match m (ev_now calls n) db with
      | (inl e, db) => (inl (applied, e), with_store db r)
      | (inr x, db) => (inr x, with_store db r)
      end
  | FailBefore e => (inl (applied, e), with_store db r)
  | FailAfter e => (inl (applied, e), with_store (exec (m (ev_now calls n)) db) r)
  end.

(** A command of the session. *)
Definition on_session {A} (m : Session C -> W -> (err + A) * Session C * W) : P (err + A) := fun r =>
  let '(x, s, w) := m (rp_session r) (rp_net r) in (inr x, with_session s w r).

Definition applyMutation (mutation : Mutation) : P (option err) :=
  let payload := mu_Payload mutation in
  if fp_UpstreamUID payload =? 0 then mret None else
  selected ← look rp_selectedMailbox;
  opened ← (if String.eqb selected (fp_Mailbox payload) then mret None else
    answer ← on_session (Session_Select (rp_rand env) (rp_base env) (rp_max env) (rp_attempts env)
                           (fp_Mailbox payload) false);
    match answer with
    | inl e => mret (Some e)
    | inr _ => updates (with_selected (fp_Mailbox payload)) ≫= fun _ => mret None
    end);
  match opened with
  | Some e => mret (Some e)
  | None =>
      answer ← on_session (Do (rp_rand env) (rp_base env) (rp_max env) "store flags"
        (fun c => store_flags c (u32 (fp_UpstreamUID payload)) (fp_Flags payload)) (rp_attempts env));
      match answer with inl e => mret (Some e) | inr _ => mret None end
  end.

Definition retry_delay (mutation : Mutation) : Z :=
  interval (Backoff (rp_rand env) (mu_Attempts mutation) (rp_base env) (rp_max env)).

(** One change of the batch; the result is the number applied so far. *)
Definition replay_one (applied : Z) (mutation : Mutation) : P Z :=
  failed ← applyMutation mutation;
  updates (with_tried (mu_ID mutation) failed) ≫= fun _ =>
  match failed with
  | None => store applied (fun _ => MutationSucceeded (mu_ID mutation)) ≫= fun _ => mret (applied + 1)
  | Some e =>
      store applied (fun now => MutationFailed now (mu_ID mutation) e (retry_delay mutation) maxMutationAttempts)
      ≫= fun _ =>
      if bool_decide (SeverityOf e = FatalAccount) then stop (applied, e) else mret applied
  end.

Fixpoint replay_batch (applied : Z) (batch : list Mutation) : P Z :=
  match batch with
  | [] => mret applied
  | mutation :: batch => applied ← replay_one applied mutation; replay_batch applied batch
  end.

(** The outer loop, at most [fuel] batches; no result when that was not enough. *)
Fixpoint replay_loop (fuel : nat) (accountID : Z) (applied : Z) : P (option Z) :=
  match fuel with
  | O => mret None
  | S fuel =>
      ctx ← look (fun r => ev_ctx calls (rp_calls r));
      match ctx with
      | Some e => stop (applied, e)
      | None =>
          n ← look rp_calls;
          batch ← store applied (fun now => ClaimDueMutations now (rp_locked env n) (rp_returning env n)
                                   accountID batch_size (rp_worker env));
          match batch with
          | [] => mret (Some applied)
          | _ => applied ← replay_batch applied batch; replay_loop fuel accountID applied
          end
      end
  end.

(** [None] when the fuel ran out; otherwise the number applied, and the error. *)
Definition ReplayMutations (fuel : nat) (accountID : Z) (r : RW) : option (Z * option err) * RW :=
  let body : P (option Z) :=
    pending ← store 0 (fun _ => CountPendingMutations accountID);
    if pending =? 0 then mret (Some 0) else
    account ← store 0 (fun _ => GetAccount accountID);
    if negb (Account_Active account) then mret (Some 0) else
    match credentials (rp_sealer env) account with
    | inl e => stop (0, e)
    | inr _ =>
        replay_loop fuel accountID 0
    end in
  let '(out, r) := body (with_session NewSession (rp_net r) (with_selected "" r)) in
  let '(s, w) := Close (rp_session r) (rp_net r) in
  (match out with
   | inl (applied, e) => Some (applied, Some e)
   | inr (Some applied) => Some (applied, None)
   | inr None => None
   end, with_session s w r).
End replay.
