(* ===== verification/ReplayProps.v ===== *)
(** Properties of replaying queued changes: every due change is tried exactly once
    and its outcome recorded, and the pass ends if the delays outlast it. *)
From S2P Require Import Prelude NumSet Planner GoStrings Retry Upstream Crypto Schema StoreMailboxes StoreMessages StoreMutations StoreRuns StoreAccounts StoreInvariant StoreSteps StoreProps SyncPass Effects SyncRun Replay.
From Stdlib Require Import String.
From stdpp Require Import strings gmap list.
Open Scope list_scope.
Open Scope Z_scope.

(** * Claims *)

Notation queue db := (rows (pending_mutations db)).

Lemma due_rows_spec now locked a limit db : 0 < limit ->
  NoDup (due_rows now locked a limit db).*1
  /\ (forall id r, (id, r) ∈ due_rows now locked a limit db -> queue db !! id = Some r /\ due now a id r = true)
  /\ (due_rows now locked a limit db = [] -> forall id r, queue db !! id = Some r -> locked id = false -> due now a id r = false).
Proof.
  intros Hlim. unfold due_rows. set (l := filter _ _).
  assert (NoDup l.*1) as Hnd.
  { eapply sublist_NoDup; [apply (NoDup_select (due now a) (pending_mutations db))|].
    apply fmap_sublist, sublist_filter. }
  pose proof (merge_sort_Permutation oldest_first l) as Hp. split; [|split].
  - eapply sublist_NoDup; [|unfold LIMIT; apply fmap_sublist, sublist_take]. by rewrite Hp.
  - intros id r Hin. apply elem_of_select.
    assert ((id, r) ∈ l) as Hl; [|by apply list_elem_of_filter in Hl as [_ Hl]].
    rewrite <- Hp. eapply elem_of_sublist; [exact Hin|apply sublist_take].
  - intros E id r Hr Hfree. destruct (due now a id r) eqn:Ed; [|done]. exfalso.
    assert ((id, r) ∈ l) as Hl by (apply list_elem_of_filter; split; [done|by apply elem_of_select]).
    rewrite <- Hp in Hl. unfold LIMIT in E. destruct (merge_sort oldest_first l) as [|x l']; [by apply elem_of_nil in Hl|].
    destruct (Z.to_nat limit) as [|n] eqn:En; [lia|done].
Qed.

(** What a claim does to a row, and the ids of the batch. *)
Lemma claim_spec now locked returning a limit worker db batch db' : 0 < limit ->
  (forall l, returning l ≡ₚ l) ->
  ClaimDueMutations now locked returning a limit worker db = (inr batch, db') ->
  NoDup (map mu_ID batch)
  /\ (forall id, id ∈ map mu_ID batch -> exists r, queue db !! id = Some r /\ due now a id r = true)
  /\ (forall id, queue db' !! id =
        (fun r => if bool_decide (id ∈ map mu_ID batch) then take_mutation now worker r else r) <$> queue db !! id)
  /\ (batch = [] -> forall id r, queue db !! id = Some r -> locked id = false -> due now a id r = false).
Proof.
  intros Hlim Hret [= <- <-]. set (claimed := due_rows now locked a limit db).
  destruct (due_rows_spec now locked a limit db Hlim) as (Hnd & Hin & Hnil). fold claimed in Hnd, Hin, Hnil.
  set (batch := map _ claimed). assert (map mu_ID (returning batch) ≡ₚ claimed.*1) as Hids.
  { rewrite (Hret batch). unfold batch. rewrite map_map. done. }
  split_and!.
  - by rewrite Hids.
  - intros id. rewrite Hids. intros ([id' r] & -> & Hr)%list_elem_of_fmap. exists r. by apply Hin.
  - intros id. unfold update_mutations. db_simpl. rewrite lookup_update_where. destruct (queue db !! id); [|done]. cbn.
    by rewrite (bool_decide_ext (id ∈ map mu_ID (returning batch)) (id ∈ claimed.*1)) by by rewrite Hids.
  - intros E id r. apply Hnil. assert (batch = []) as Eb; [|by destruct claimed].
    apply Permutation_nil. by rewrite <- (Hret batch), E.
Qed.

(** * One pass *)

Section replay.
Context {K : Type} `{AEAD K}.
Context {W C : Type} `{Connection W C}.
Variable store_flags : C -> Z -> list string -> W -> (err + unit) * W.
Variable env : ReplayEnv K.
Notation calls := (rp_env env).
Notation RW := (Replay W C).

(** Every time of the pass lies between [T0] and [T], and every delay leads beyond
    [T]; nobody else touches the queue, and no row is locked. *)
Record calm (T0 T : Z) : Prop := mk_calm {
  ca_now : forall n, T0 <= ev_now calls n <= T;
  ca_delay : forall n mutation, T < ev_now calls n + retry_delay env mutation;
  ca_others : forall n db, pending_mutations (ev_others calls n db) = pending_mutations db
    /\ mail_accounts (ev_others calls n db) = mail_accounts db;
  ca_locked : forall n id, rp_locked env n id = false;
  ca_returning : forall n l, rp_returning env n l ≡ₚ l
}.

(** ** The steps of the pass *)

Lemma store_ok applied {A} (m : Z -> sql A) (r r' : RW) x :
  store env applied m r = (inr x, r') ->
  exists db, db = ev_others calls (rp_calls r) (rp_db r)
    /\ m (ev_now calls (rp_calls r)) db = (inr x, rp_db r') /\ r' = with_store (rp_db r') r.
Proof.
  unfold store. intros E. eexists. split; [reflexivity|]. destruct (ev_fault calls (rp_calls r)); [|done|done].
  destruct (m _ _) as [[e|y] db]; [done|]. by injection E as -> <-.
Qed.

Lemma store_fails applied {A} (m : Z -> sql A) (r r' : RW) x :
  store env applied m r = (inl x, r') -> exists e, x = (applied, e).
Proof.
  unfold store. destruct (ev_fault calls (rp_calls r)); [|by intros [= <- _]; eexists|by intros [= <- _]; eexists].
  destruct (m _ _) as [[e|y] db]; intros [= <- _]; by eexists.
Qed.

(** Applying a change concerns the network only. *)
Lemma applyMutation_frame mutation (r : RW) :
  exists o r', applyMutation store_flags env mutation r = (inr o, r')
    /\ rp_db r' = rp_db r /\ rp_calls r' = rp_calls r /\ rp_tried r' = rp_tried r.
Proof.
  unfold applyMutation. destruct (_ =? 0); [by eexists _, _|]. unfold look, updates, on_session.
  cbv beta iota delta [mbind SE_bind mret SE_ret].
  destruct (String.eqb _ _).
  - destruct (Do _ _ _ _ _ _ _ _) as [[[e|u] s] w]; by eexists _, _.
  - destruct (Session_Select _ _ _ _ _ _ _ _) as [[[e|u] s] w]; [by eexists _, _|].
    destruct (Do _ _ _ _ _ _ _ _) as [[[e'|u'] s'] w']; by eexists _, _.
Qed.

(** What the row of a change says after it was tried. *)
Definition says (T : Z) (o : option err) (row : mutation_row) : Prop :=
  match o with
  | None => pm_status row = MutSucceeded
  | Some e => (pm_status row = MutPending \/ pm_status row = MutFailed) /\ pm_last_error row = Some (err_text e)
      /\ exists t, pm_next_attempt_at row = Some t /\ T < t
  end.

Lemma says_not_due T o now a id row : says T o row -> now <= T -> due now a id row = false.
Proof.
  intros Hs Hn. unfold due. destruct o as [e|]; cbn in Hs.
  - destruct Hs as (_ & _ & t & -> & Ht). rewrite (proj2 (Z.leb_gt t now)) by lia. apply andb_false_r.
  - rewrite Hs. rewrite bool_decide_eq_false_2 by by intros []. by rewrite andb_false_r.
Qed.

(** One change: its row is settled, no other row moves. *)
Lemma replay_one_ok T0 T applied mutation (r r' : RW) applied' :
  calm T0 T -> replay_one store_flags env applied mutation r = (inr applied', r') ->
  exists o, rp_tried r' = rp_tried r ++ [(mu_ID mutation, o)]
    /\ applied' = applied + (match o with None => 1 | Some _ => 0 end)
    /\ (forall id, id <> mu_ID mutation -> queue (rp_db r') !! id = queue (rp_db r) !! id)
    /\ (is_Some (queue (rp_db r) !! mu_ID mutation) ->
          exists row, queue (rp_db r') !! mu_ID mutation = Some row /\ says T o row).
Proof.
  intros Hc. unfold replay_one. cbv beta iota delta [mbind SE_bind mret SE_ret].
  destruct (applyMutation_frame mutation r) as (o & r1 & -> & D1 & N1 & T1). unfold updates. cbv beta iota.
  assert (forall (m : Z -> sql unit) f x r2, (forall now, m now = modify (update_mutations (id_is (mu_ID mutation)) (f now))) ->
    (forall n row, says T o (f (ev_now calls n) row)) ->
    store env applied m (with_tried (mu_ID mutation) o r1) = (inr x, r2) ->
    rp_tried r2 = rp_tried r ++ [(mu_ID mutation, o)]
    /\ (forall id, id <> mu_ID mutation -> queue (rp_db r2) !! id = queue (rp_db r) !! id)
    /\ (is_Some (queue (rp_db r) !! mu_ID mutation) ->
          exists row, queue (rp_db r2) !! mu_ID mutation = Some row /\ says T o row)) as Hmark.
  { intros m f x r2 Hm Hf E. apply store_ok in E as (db & -> & E & Er). rewrite Hm in E.
    unfold modify in E. injection E as _ E. cbn [rp_calls rp_db with_tried] in E.
    assert (forall id, queue (rp_db r2) !! id = (fun row => if id_is (mu_ID mutation) id row
      then f (ev_now calls (rp_calls r1)) row else row) <$> queue (rp_db r) !! id) as Hq.
    { intros id. rewrite <- E. unfold update_mutations. db_simpl. rewrite lookup_update_where, (proj1 (ca_others _ _ Hc _ _)). by rewrite D1. }
    split; [rewrite Er; cbn; by rewrite T1|]. split.
    - intros id Hid. rewrite Hq. unfold id_is. rewrite (proj2 (Z.eqb_neq _ _)) by done. by destruct (queue _ !! id).
    - intros [row Hrow]. rewrite Hq, Hrow. cbn. unfold id_is. rewrite Z.eqb_refl. eexists. split; [done|]. apply Hf. }
  destruct o as [e|].
  - destruct (store env applied _ _) as [[?|u] r2] eqn:E; [done|]. eapply Hmark in E as (E1 & E2 & E3); [|reflexivity|].
    + destruct (bool_decide _); [done|]. intros [= <- <-]. exists (Some e). split_and!; [done|lia|done|done].
    + intros n row. cbn. split_and!; [by destruct (_ <=? _); [right|left]|done|]. eexists. split; [done|].
      apply (ca_delay _ _ Hc).
  - destruct (store env applied _ _) as [[?|u] r2] eqn:E; [done|]. eapply Hmark in E as (E1 & E2 & E3); [|reflexivity|done].
    intros [= <- <-]. exists None. by split_and!.
Qed.

(** ** Batches *)

Definition applied_of (tried : list (Z * option err)) : Z := Z.of_nat (length (filter (fun x => x.2 = None) tried)).

Lemma applied_of_cons x l : applied_of (x :: l) = (match x.2 with None => 1 | Some _ => 0 end) + applied_of l.
Proof.
  unfold applied_of. rewrite filter_cons. destruct x as [id [e|]]; cbn [snd];
    (destruct (decide _) as [E|E]; [try done|try by destruct E]); cbn [length]; lia.
Qed.

(** Every change tried once, and its row says what came of it. *)
Definition settled (T : Z) (r : RW) : Prop :=
  NoDup (rp_tried r).*1
  /\ forall id o, (id, o) ∈ rp_tried r -> exists row, queue (rp_db r) !! id = Some row /\ says T o row.

Lemma replay_batch_ok T0 T batch : calm T0 T -> forall applied (r r' : RW) applied',
  replay_batch store_flags env applied batch r = (inr applied', r') ->
  settled T r -> NoDup ((rp_tried r).*1 ++ map mu_ID batch) ->
  (forall id, id ∈ map mu_ID batch -> is_Some (queue (rp_db r) !! id)) ->
  exists outs, rp_tried r' = rp_tried r ++ outs /\ outs.*1 = map mu_ID batch
    /\ applied' = applied + applied_of outs /\ settled T r'
    /\ (forall id, id ∉ map mu_ID batch -> queue (rp_db r') !! id = queue (rp_db r) !! id).
Proof.
  intros Hc. induction batch as [|mu batch IH]; intros applied r r' applied'.
  { intros [= <- <-] Hs _ _. exists []. rewrite app_nil_r. split_and!; try done. unfold applied_of. cbn. lia. }
  cbn [replay_batch]. cbv beta iota delta [mbind SE_bind].
  destruct (replay_one store_flags env applied mu r) as [[x|a1] r1] eqn:E1; [done|]. intros E [Hnd Hsays] Hfresh Hrows.
  destruct (replay_one_ok T0 T applied mu r r1 a1 Hc E1) as (o & Ht & Ha & Hother & Hrow).
  destruct Hrow as (row & Hrow & Ho); [apply Hrows; left|].
  assert (mu_ID mu ∉ (rp_tried r).*1 /\ mu_ID mu ∉ map mu_ID batch /\ NoDup ((rp_tried r1).*1 ++ map mu_ID batch))
    as (Hn1 & Hn2 & Hnd1).
  { rewrite Ht, fmap_app. cbn. rewrite <- app_assoc. cbn. split_and!; [| |exact Hfresh].
    - apply NoDup_app in Hfresh as (_ & Hd & _). intros Hin. apply (Hd _ Hin). left.
    - apply NoDup_app in Hfresh as (_ & _ & Hd). by apply NoDup_cons in Hd as [Hd _]. }
  destruct (IH a1 r1 r' applied' E) as (outs & Ht' & Hids & Ha' & Hs' & Hq'); [|done| |].
  - split; [by apply NoDup_app in Hnd1 as [? _]|]. rewrite Ht. intros id o' [Hin|[= -> ->]%list_elem_of_singleton]%elem_of_app.
    + rewrite Hother; [by apply Hsays|]. intros ->. apply Hn1. by apply (list_elem_of_fmap_2 fst _ _ Hin).
    + by exists row.
  - intros id Hin. rewrite Hother by congruence. apply Hrows. by right.
  - exists ((mu_ID mu, o) :: outs). rewrite Ht', Ht, <- app_assoc. split_and!; [done|by cbn; rewrite Hids| |done|].
    + rewrite Ha', Ha, applied_of_cons. cbn [snd]. lia.
    + intros id Hin. apply not_elem_of_cons in Hin as [Hne Hin]. by rewrite Hq', Hother.
Qed.

(** ** The loop *)

Lemma due_later now now' a id row : due now a id row = true -> now <= now' -> due now' a id row = true.
Proof.
  unfold due. intros Hd Hn. apply andb_true_iff in Hd as [-> Hd]. destruct (pm_next_attempt_at row); [|done]. cbn. lia.
Qed.

Lemma due_taken now now' worker a id row : due now a id (take_mutation now' worker row) = false.
Proof. unfold due. rewrite (bool_decide_eq_false_2 (_ \/ _)) by by intros []. by rewrite andb_false_r. Qed.

(** A claim and the batch it starts. *)
Lemma claim_ok T0 T a applied (r r1 : RW) batch : calm T0 T ->
  store env applied (fun now => ClaimDueMutations now (rp_locked env (rp_calls r)) (rp_returning env (rp_calls r))
    a batch_size (rp_worker env)) r = (inr batch, r1) ->
  settled T r ->
  rp_tried r1 = rp_tried r /\ settled T r1 /\ NoDup ((rp_tried r1).*1 ++ map mu_ID batch)
  /\ (forall id, id ∈ map mu_ID batch -> exists row, queue (rp_db r) !! id = Some row /\ due T a id row = true)
  /\ (forall id, id ∈ map mu_ID batch -> is_Some (queue (rp_db r1) !! id))
  /\ (forall id, id ∉ map mu_ID batch -> queue (rp_db r1) !! id = queue (rp_db r) !! id)
  /\ (batch = [] -> forall id row, queue (rp_db r) !! id = Some row -> due T0 a id row = false).
Proof.
  intros Hc E [Hnd Hsays]. apply store_ok in E as (db & -> & E & Er).
  set (n := rp_calls r) in *. set (now := ev_now calls n) in *.
  pose proof (ca_now _ _ Hc n) as Hnow. fold now in Hnow.
  pose proof (proj1 (ca_others _ _ Hc n (rp_db r))) as Hq.
  apply claim_spec in E as (Hb & Hdue & Hrow & Hnil); [|done|apply (ca_returning _ _ Hc)].
  rewrite Hq in Hdue, Hnil. assert (forall id, id ∈ map mu_ID batch -> id ∉ (rp_tried r).*1) as Hnew.
  { intros id (row & Hr & Hd)%Hdue ([id' o] & -> & Hin)%list_elem_of_fmap. destruct (Hsays _ _ Hin) as (row' & Hr' & Hs).
    cbn in Hr. rewrite Hr in Hr'. injection Hr' as <-. cbn in Hd. rewrite (says_not_due _ _ _ _ _ _ Hs) in Hd; [done|lia]. }
  assert (forall id, id ∉ map mu_ID batch -> queue (rp_db r1) !! id = queue (rp_db r) !! id) as Hkeep.
  { intros id Hin. rewrite Hrow, bool_decide_eq_false_2, Hq by done. by destruct (queue _ !! id). }
  assert (rp_tried r1 = rp_tried r) as Ht by by rewrite Er.
  split; [done|]. split; [|split; [|split; [|split; [|split; [done|]]]]].
  - unfold settled. rewrite Ht. split; [done|]. intros id o Hin. rewrite Hkeep; [by apply Hsays|].
    intros Hb'. apply (Hnew _ Hb'). by apply (list_elem_of_fmap_2 fst _ _ Hin).
  - rewrite Ht. apply NoDup_app. split_and!; [done| |done]. intros id Hin Hin'. by apply (Hnew id).
  - intros id (row & Hr & Hd)%Hdue. exists row. split; [done|]. eapply due_later; [exact Hd|lia].
  - intros id Hin. rewrite Hrow, Hq. destruct (Hdue _ Hin) as (row & -> & _). by eexists.
  - intros -> id row Hr. destruct (due T0 a id row) eqn:Ed; [|done].
    assert (due now a id row = false) as Ef by (eapply Hnil; [done|exact Hr|apply (ca_locked _ _ Hc)]).
    rewrite (due_later _ now _ _ _ Ed) in Ef; [done|lia].
Qed.

Lemma replay_loop_ok T0 T a fuel : calm T0 T -> forall applied (r r' : RW) applied',
  replay_loop store_flags env fuel a applied r = (inr (Some applied'), r') -> settled T r ->
  exists outs, rp_tried r' = rp_tried r ++ outs /\ applied' = applied + applied_of outs /\ settled T r'
    /\ (forall id row, queue (rp_db r) !! id = Some row -> due T0 a id row = true -> id ∈ outs.*1)
    /\ (forall id, id ∉ outs.*1 -> queue (rp_db r') !! id = queue (rp_db r) !! id).
Proof.
  intros Hc. induction fuel as [|fuel IH]; intros applied r r' applied' E Hs; [done|]. cbn [replay_loop] in E. revert E.
  unfold look. cbv beta iota delta [mbind SE_bind mret SE_ret].
  destruct (ev_ctx calls (rp_calls r)); [done|].
  destruct (store env applied _ r) as [[x|batch] r1] eqn:E1; [done|].
  destruct (claim_ok T0 T a applied r r1 batch Hc E1 Hs) as (Ht1 & Hs1 & Hnd & Hdue & Hin & Hkeep & Hnil).
  destruct batch as [|mu batch].
  { intros [= <- <-]. exists []. rewrite app_nil_r, Ht1. split_and!; [done|unfold applied_of; cbn; lia|done| |].
    - intros id row Hr Hd. by rewrite (Hnil eq_refl id row Hr) in Hd.
    - intros id _. apply Hkeep. cbn. apply not_elem_of_nil. }
  set (b := mu :: batch) in *. destruct (replay_batch store_flags env applied b r1) as [[x|a2] r2] eqn:E2; [done|].
  intros E. destruct (replay_batch_ok T0 T b Hc applied r1 r2 a2 E2 Hs1 Hnd Hin) as (outs1 & Ht2 & Hids & Ha2 & Hs2 & Hkeep2).
  destruct (IH a2 r2 r' applied' E Hs2) as (outs2 & Ht3 & Ha3 & Hs3 & Hall & Hkeep3).
  exists (outs1 ++ outs2). rewrite fmap_app, Hids. split_and!.
  - by rewrite Ht3, Ht2, Ht1, app_assoc.
  - rewrite Ha3, Ha2. unfold applied_of. rewrite filter_app, length_app. lia.
  - done.
  - intros id row Hr Hd. destruct (decide (id ∈ map mu_ID b)) as [?|Hno]; [by apply elem_of_app; left|].
    apply elem_of_app. right. apply (Hall id row); [|done]. by rewrite Hkeep2, Hkeep.
  - intros id [Hn1 Hn2]%not_elem_of_app. by rewrite Hkeep3, Hkeep2, Hkeep.
Qed.

(** ** Termination *)

Definition due_ids (T a : Z) (db : DB) : gset Z := dom (filter (fun kr => due T a kr.1 kr.2 = true) (queue db)).

Lemma elem_of_due_ids T a db id : id ∈ due_ids T a db <-> exists row, queue db !! id = Some row /\ due T a id row = true.
Proof.
  unfold due_ids. rewrite elem_of_dom. split.
  - intros [row [Hr Hd]%map_lookup_filter_Some]. by exists row.
  - intros (row & Hr & Hd). exists row. by apply map_lookup_filter_Some.
Qed.

Lemma replay_loop_ends T0 T a fuel : calm T0 T -> forall applied (r : RW),
  (size (due_ids T a (rp_db r)) < fuel)%nat -> settled T r ->
  forall r', replay_loop store_flags env fuel a applied r <> (inr None, r').
Proof.
  intros Hc. induction fuel as [|fuel IH]; intros applied r Hf Hs r'; [lia|]. cbn [replay_loop].
  unfold look, stop. cbv beta iota delta [mbind SE_bind mret SE_ret].
  destruct (ev_ctx calls (rp_calls r)); [done|].
  destruct (store env applied _ r) as [[x|batch] r1] eqn:E1; [done|].
  destruct (claim_ok T0 T a applied r r1 batch Hc E1 Hs) as (Ht1 & Hs1 & Hnd & Hdue & Hin & Hkeep & Hnil).
  destruct batch as [|mu batch]; [done|]. set (b := mu :: batch) in *.
  destruct (replay_batch store_flags env applied b r1) as [[x|a2] r2] eqn:E2; [done|].
  destruct (replay_batch_ok T0 T b Hc applied r1 r2 a2 E2 Hs1 Hnd Hin) as (outs1 & Ht2 & Hids & Ha2 & Hs2 & Hkeep2).
  apply IH; [|done]. enough (size (due_ids T a (rp_db r2)) < size (due_ids T a (rp_db r)))%nat by lia.
  apply subset_size.
  assert (forall id, id ∈ map mu_ID b -> id ∉ due_ids T a (rp_db r2)) as Hgone.
  { intros id Hb (row & Hr & Hd)%elem_of_due_ids. rewrite <- Hids in Hb.
    apply list_elem_of_fmap in Hb as ([id' o] & -> & Hin'). destruct Hs2 as [_ Hs2].
    destruct (Hs2 id' o) as (row' & Hr' & Hso); [rewrite Ht2; apply elem_of_app; by right|].
    cbn in Hr, Hd. rewrite Hr in Hr'. injection Hr' as <-. rewrite (says_not_due T o T a _ _ Hso) in Hd; [done|lia]. }
  split.
  - intros id Hid. destruct (decide (id ∈ map mu_ID b)) as [Hb|Hb]; [by destruct (Hgone id Hb)|].
    apply elem_of_due_ids in Hid. apply elem_of_due_ids. by rewrite Hkeep2, Hkeep in Hid.
  - intros Hsub. assert (mu_ID mu ∈ map mu_ID b) as Hb by left.
    apply (Hgone _ Hb), Hsub, elem_of_due_ids. by apply Hdue.
Qed.

(** ** The pass *)

Lemma get_ok T0 T {A} (f : DB -> A) (r r' : RW) x : calm T0 T ->
  store env 0 (fun _ => gets f) r = (inr x, r') ->
  x = f (ev_others calls (rp_calls r) (rp_db r)) /\ rp_tried r' = rp_tried r
  /\ pending_mutations (rp_db r') = pending_mutations (rp_db r) /\ mail_accounts (rp_db r') = mail_accounts (rp_db r).
Proof.
  intros Hc E. apply store_ok in E as (db & -> & E & Er). unfold gets in E. injection E as <- Ed.
  destruct (ca_others _ _ Hc (rp_calls r) (rp_db r)) as [E1 E2]. rewrite <- Ed, E1, E2. by rewrite Er.
Qed.

Lemma account_ok T0 T a (r r' : RW) account : calm T0 T ->
  store env 0 (fun _ => GetAccount a) r = (inr account, r') ->
  account.1 = a /\ rows (mail_accounts (rp_db r)) !! a = Some account.2 /\ rp_tried r' = rp_tried r
  /\ pending_mutations (rp_db r') = pending_mutations (rp_db r).
Proof.
  intros Hc E. apply store_ok in E as (db & -> & E & Er). unfold GetAccount in E.
  destruct (ca_others _ _ Hc (rp_calls r) (rp_db r)) as [E1 E2]. rewrite E2 in E.
  destruct (rows (mail_accounts (rp_db r)) !! a) as [acc|]; [|done]. injection E as <- <-. by rewrite Er.
Qed.

Definition pass_start (r : RW) : RW := with_session NewSession (rp_net r) (with_selected "" r).
End replay.
