(* ===== verification/ReplayTheorems.v ===== *)
(** Replaying on concrete servers: the witnesses of the pass's properties, a change
    lost to a stale selection, and a pass that never ends. *)
From S2P Require Import Prelude NumSet Planner GoStrings Retry Upstream Crypto Schema StoreMailboxes StoreMessages StoreMutations StoreAccounts StoreInvariant StoreSteps SyncPass Effects SyncRun SyncRunTheorems Replay ReplayProps.
From Stdlib Require Import String.
From stdpp Require Import strings gmap list.
Open Scope list_scope.
Open Scope Z_scope.

(** * A small server and a small queue *)

(** The server of [Upstream], whose world is the mailbox that is open: it has INBOX
    only, and a failed SELECT leaves nothing open. *)
Definition not_selected : err := ErrUpstream Retryable "" (ErrImap "BAD" "" "no mailbox selected").
Definition tiny_store (_ : unit) (uid : Z) (flags : list string) (w : option string) : (err + unit) * option string :=
  match w with Some _ => (inr tt, w) | None => (inl not_selected, w) end.

Definition ex_change (now : Z) (mailbox : string) (uid : Z) : sql unit :=
  EnqueueMutation (fun s => s) now 1 1 MutationStoreFlags (mk_FlagPayload uid mailbox ["\Seen"%string]).
Definition ex_queue_db : DB :=
  exec (ex_change 3 "INBOX" 12) (exec (ex_change 2 "Gone" 5) (exec (ex_change 1 "INBOX" 11)
    (exec ex_mailbox ex_run_db))).

Definition ex_times : Env :=
  mk_Env (fun _ => NoFault) (fun _ db => db) (fun _ => 100) (fun _ => None) false 500
    (fun _ _ _ _ => inr []) (fun _ => inr []).
Definition ex_replay_env : ReplayEnv nat :=
  mk_ReplayEnv ex_times (fun _ _ => false) (fun _ l => l) (Some 2%nat) (fun n => n - 1) 1000000000 300000000000 3 "host/1".
Definition ex_replay_start : Replay (option string) unit := mk_Replay ex_queue_db 0 None NewSession "" [].

Definition ex_replay : option (Z * option err) * Replay (option string) unit :=
  ReplayMutations (H:=plain_aead) (H0:=tiny_server) tiny_store ex_replay_env 4 1 ex_replay_start.

Lemma ex_replay_calm : calm ex_replay_env 100 100.
Proof.
  constructor; cbn; try done. intros _ m. unfold retry_delay, interval. cbn.
  unfold Backoff. set (n := Z.to_nat _).
  pose proof (Backoff_loop_bounds n 1000000000 300000000000 ltac:(lia) ltac:(lia) ltac:(lia)) as Hb.
  set (b := Backoff_loop n _ _) in *. set (c := if b >? 300000000000 then 300000000000 else b).
  assert (1000000000 <= c <= 300000000000) by (unfold c; rewrite Z.gtb_ltb; destruct (Z.ltb_spec 300000000000 b); lia).
  destruct (Z.leb_spec c 0); [lia|]. rewrite i64_id by (unfold is_i64; lia).
  replace (c - 1 + 1) with c by lia. pose proof (Z.div_le_lower_bound c 1000 1). lia.
Qed.

(** The third change is for the mailbox that was open before the second failed to
    open its own: the pass believes it still is, and the server refuses the change. *)
Theorem stale_selection_fails_next :
  ex_replay.1 = Some (1, None)
  /\ (rp_tried ex_replay.2).*1 = [1; 2; 3]
  /\ (rp_tried ex_replay.2) !! 2%nat = Some (3, Some not_selected).
Proof. split_and!; vm_compute; reflexivity. Qed.

(** * What a pass promises *)

Section replay.
Context {K : Type} `{AEAD K}.
Context {W C : Type} `{Connection W C}.
Variable store_flags : C -> Z -> list string -> W -> (err + unit) * W.
Variable env : ReplayEnv K.
Notation calls := (rp_env env).
Notation RW := (Replay W C).


(** [C40] The pass ends: as long as every delay leads beyond the end of the pass, one
    more batch than there are due changes is enough, whatever the database and the
    network do. *)
Theorem replay_terminates (T0 T a : Z) (fuel : nat) (r : RW) :
  calm env T0 T -> rp_tried r = [] -> (size (due_ids T a (rp_db r)) < fuel)%nat ->
  exists out r', ReplayMutations store_flags env fuel a r = (Some out, r').
Proof.
  intros Hc Ht Hf. unfold ReplayMutations. fold (pass_start r). set (r0 := pass_start r).
  unfold stop. cbv beta iota zeta delta [mbind SE_bind mret SE_ret].
  destruct (store env 0 _ r0) as [[[n e]|pending] r1] eqn:E1; [destruct (Close _ _); by eexists _, _|].
  destruct (get_ok env T0 T _ _ _ _ Hc E1) as (-> & Ht1 & Q1 & A1).
  destruct (_ =? 0); [destruct (Close _ _); by eexists _, _|].
  destruct (store env 0 _ r1) as [[[n e]|account] r2] eqn:E2; [destruct (Close _ _); by eexists _, _|].
  destruct (account_ok env T0 T a _ _ _ Hc E2) as (_ & _ & Ht2 & Q2).
  destruct (negb _); [destruct (Close _ _); by eexists _, _|].
  destruct (credentials (rp_sealer env) account) as [e|creds]; [destruct (Close _ _); by eexists _, _|].
  assert (rp_tried r2 = []) as Ht2' by (rewrite Ht2, Ht1; exact Ht).
  assert (settled T r2) as Hs2 by (split; rewrite Ht2'; [constructor|by intros ?? ?%elem_of_nil]).
  assert (due_ids T a (rp_db r2) = due_ids T a (rp_db r)) as Ed by (unfold due_ids; by rewrite Q2, Q1).
  pose proof (replay_loop_ends store_flags env T0 T a fuel Hc 0 r2 ltac:(by rewrite Ed) Hs2) as Hend.
  destruct (replay_loop store_flags env fuel a 0 r2) as [[[n e]|[n|]] r3]; destruct (Close _ _); try by eexists _, _.
  by destruct (Hend r3).
Qed.
End replay.

Lemma replay_terminates_witness :
  exists out r', ReplayMutations (H:=plain_aead) (H0:=tiny_server) tiny_store ex_replay_env 4 1 ex_replay_start = (Some out, r').
Proof.
  apply (replay_terminates (H:=plain_aead) (H0:=tiny_server) tiny_store ex_replay_env 100 100 1 4 ex_replay_start
    ex_replay_calm eq_refl).
  apply (bool_decide_eq_true_1 (size (due_ids 100 1 (rp_db ex_replay_start)) < 4)%nat). vm_compute. reflexivity.
Defined.

(** * A pass that never ends

    One change, a server that refuses it every time, and batches that take longer
    than the delay. *)

Definition no_flags : err := ErrUpstream Retryable "" (ErrImap "NO" "" "flags are read-only here").
Definition stubborn_server : Connection unit unit := {|
  connect w := (inr tt, w);
  select_mailbox _ name ro w := (inr (mk_SelectedMailbox name 0 1 1 0 ro), w);
  poisoned _ _ := false;
  close_client _ w := w;
  ctx_err _ := None;
  wait _ w := (true, w)
|}.
Definition stubborn_store (_ : unit) (_ : Z) (_ : list string) (w : unit) : (err + unit) * unit := (inl no_flags, w).
Definition slow_times : Env :=
  mk_Env (fun _ => NoFault) (fun _ db => db) (fun n => 10000000 * (Z.of_nat n + 1)) (fun _ => None) false 500
    (fun _ _ _ _ => inr []) (fun _ => inr []).
Definition slow_env : ReplayEnv nat :=
  mk_ReplayEnv slow_times (fun _ _ => false) (fun _ l => l) (Some 2%nat) (fun n => n - 1) 1000000000 1000000000 3 "host/1".
Definition slow_start : Replay unit unit :=
  mk_Replay (exec (ex_change 1 "INBOX" 11) (exec ex_mailbox ex_run_db)) 0 tt NewSession "" [].

Lemma stubborn_Do {A} op (fn : unit -> unit -> (err + A) * unit) (s : Session unit) :
  (forall e w, fn tt tt = (inl e, w) -> recoverable e = false) ->
  exists s', Do (H:=stubborn_server) (rp_rand slow_env) (rp_base slow_env) (rp_max slow_env) op fn
    (rp_attempts slow_env) s tt = ((fn tt tt).1, s', tt).
Proof.
  intros Hr. unfold Do. change (Z.to_nat _) with 3%nat. cbn [Do_loop ctx_err stubborn_server].
  assert (exists s1, ensureConnected (H:=stubborn_server) s tt = (inr tt, s1, tt)) as [s1 E1].
  { destruct s as [[[]|] sel ro]; [by eexists|]. unfold ensureConnected, Upstream.dial. cbn. destruct (String.eqb sel ""); by eexists. }
  rewrite E1. destruct (fn tt tt) as [[e|x] []] eqn:Ef; [rewrite (Hr e tt eq_refl)|]; by eexists.
Qed.

Lemma stubborn_apply mu (r : Replay unit unit) : fp_UpstreamUID (mu_Payload mu) <> 0 ->
  exists r', applyMutation (H0:=stubborn_server) stubborn_store slow_env mu r = (inr (Some no_flags), r')
    /\ rp_db r' = rp_db r /\ rp_calls r' = rp_calls r.
Proof.
  intros Hu. unfold applyMutation. rewrite (proj2 (Z.eqb_neq _ _) Hu). unfold look, updates, on_session.
  cbv beta iota zeta delta [mbind SE_bind mret SE_ret]. destruct r as [db n [] s sel tried]. cbn [rp_selectedMailbox].
  assert (forall s, exists s', Do (H:=stubborn_server) (rp_rand slow_env) (rp_base slow_env) (rp_max slow_env) "store flags"
    (fun c => stubborn_store c (u32 (fp_UpstreamUID (mu_Payload mu))) (fp_Flags (mu_Payload mu))) (rp_attempts slow_env) s tt
    = (inl no_flags, s', tt)) as Hdo by (intros s0; apply stubborn_Do; intros e w; by intros [= <- _]).
  cbn [rp_session rp_net]. destruct (String.eqb sel (fp_Mailbox (mu_Payload mu))).
  - cbn [rp_session rp_net]. destruct (Hdo s) as [s' ->]. by eexists.
  - unfold Session_Select. cbn [rp_session rp_net].
    destruct (stubborn_Do ("select " ++ fp_Mailbox (mu_Payload mu))%string
      (fun c => select_mailbox (Connection:=stubborn_server) c (fp_Mailbox (mu_Payload mu)) false) s) as [s1 ->]; [done|].
    cbn [fst select_mailbox stubborn_server rp_session rp_net with_session with_selected].
    destruct (Hdo (mk_Session (se_client s1) (fp_Mailbox (mu_Payload mu)) false)) as [s' ->]. by eexists.
Qed.

(** ** The queue with its one row *)

Definition only (row : mutation_row) (db : DB) : Prop := queue db = {[1 := row]}.

Lemma only_update row (p : Z -> mutation_row -> bool) (f : mutation_row -> mutation_row) db : only row db -> only (if p 1 row then f row else row) (update_mutations p f db).
Proof.
  unfold only, update_mutations. intros E. db_simpl. apply map_eq. intros id. rewrite lookup_update_where, E.
  destruct (decide (id = 1)) as [->|]; [by rewrite !lookup_singleton_eq|]. by rewrite !lookup_singleton_ne.
Qed.

Lemma only_claim row now worker db : only row db -> due now 1 1 row = true ->
  exists db', ClaimDueMutations now (fun _ => false) (fun l => l) 1 batch_size worker db
    = (inr [scan_mutation (1, take_mutation now worker row)], db') /\ only (take_mutation now worker row) db'.
Proof.
  intros E Hd. assert (due_rows now (fun _ => false) 1 batch_size db = [(1, row)]) as Er.
  { unfold due_rows, select. rewrite E, map_to_list_singleton.
    rewrite filter_cons_True, filter_nil by done. rewrite filter_cons_True, filter_nil by done. done. }
  unfold ClaimDueMutations. rewrite Er. eexists. split; [done|].
  pose proof (only_update row (fun id _ => bool_decide (id ∈ [(1, row)].*1)) (take_mutation now worker) db E) as Hu.
  cbv beta in Hu. rewrite bool_decide_eq_true_2 in Hu by left. exact Hu.
Qed.

Lemma slow_delay mu : retry_delay slow_env mu <= 1000000.
Proof.
  unfold retry_delay, interval. assert (Backoff (fun n => n - 1) (mu_Attempts mu) 1000000000 1000000000 <= 1000000000) as Hb.
  { unfold Backoff. set (b := Backoff_loop _ _ _). rewrite Z.gtb_ltb. destruct (Z.ltb_spec 1000000000 b) as [Hlt|Hge].
    - cbn. by rewrite i64_id by (unfold is_i64; lia).
    - destruct (Z.leb_spec b 0); [lia|]. rewrite i64_id by (unfold is_i64; lia). lia. }
  change (Backoff (rp_rand slow_env) (mu_Attempts mu) (rp_base slow_env) (rp_max slow_env))
    with (Backoff (fun n => n - 1) (mu_Attempts mu) 1000000000 1000000000).
  apply Z.div_le_upper_bound; lia.
Qed.

(** What holds before every claim. *)
Definition refused_so_far (r : Replay unit unit) : Prop :=
  exists row, only row (rp_db r) /\ fp_UpstreamUID (pm_payload row) <> 0
    /\ due (ev_now slow_times (rp_calls r)) 1 1 row = true.

Lemma stubborn_loop fuel : forall applied r, refused_so_far r ->
  exists r', replay_loop (H0:=stubborn_server) stubborn_store slow_env fuel 1 applied r = (inr None, r').
Proof.
  induction fuel as [|fuel IH]; intros applied r (row & Ho & Hu & Hd); [by eexists|]. cbn [replay_loop].
  unfold look, store at 1. cbv beta iota delta [mbind SE_bind mret SE_ret]. cbn [rp_env slow_env ev_ctx slow_times ev_others ev_fault].
  destruct (only_claim row _ "host/1" (rp_db r) Ho Hd) as (db1 & E1 & O1).
  cbn [rp_locked rp_returning rp_worker slow_env]. rewrite E1. cbv beta iota. cbn [replay_batch].
  unfold replay_one. cbv beta iota delta [mbind SE_bind mret SE_ret].
  set (now := ev_now slow_times (rp_calls r)) in *. set (mu := scan_mutation _).
  destruct (stubborn_apply mu (with_store db1 r)) as (r2 & -> & D2 & N2); [exact Hu|].
  unfold updates, store. cbv beta iota. cbn [rp_env slow_env ev_others ev_fault slow_times rp_calls rp_db with_tried].
  unfold MutationFailed, modify. cbv beta iota.
  change (bool_decide (SeverityOf no_flags = FatalAccount)) with false. cbv iota. apply IH.
  rewrite D2, N2. cbn [rp_calls rp_db with_store with_tried].
  eexists. split; [apply only_update; exact O1|]. change (id_is (mu_ID mu) 1 _) with true. cbv iota. split; [exact Hu|].
  unfold due in Hd |- *. apply andb_true_iff in Hd as [Hd _]. apply andb_true_iff in Hd as [Ha _].
  apply andb_true_iff. split; [apply andb_true_iff; split; [exact Ha|]|].
  - apply bool_decide_eq_true_2. cbn. destruct (_ <=? _); [by right|by left].
  - cbn [pm_next_attempt_at set_pm_status set_pm_next_attempt_at set_pm_last_error unlock]. apply Z.leb_le.
    pose proof (slow_delay mu) as Hdl. cbn [ev_now slow_times rp_calls with_store with_tried]. rewrite N2. cbn. lia.
Qed.

(** A pass need not end: against a server that keeps refusing a change, with
    batches that take longer than the delay of the next attempt, no number of batches
    is enough; the bound on the attempts only renames the change's state. *)
Theorem replay_need_not_end (fuel : nat) :
  exists r', ReplayMutations (H:=plain_aead) (H0:=stubborn_server) stubborn_store slow_env fuel 1 slow_start = (None, r').
Proof.
  set (r0 := pass_start slow_start). set (m1 := store slow_env 0 (fun _ => CountPendingMutations 1) r0).
  set (m2 := store slow_env 0 (fun _ => GetAccount 1) m1.2).
  assert (m1 = (inr 1, m1.2)) as E1 by (vm_compute; reflexivity).
  assert (exists account creds, m2 = (inr account, m2.2) /\ Account_Active account = true
    /\ credentials (H:=plain_aead) (Some 2%nat) account = inr creds) as (account & creds & E2 & Ea & Ec).
  { eexists _, _. split; [vm_compute; reflexivity|]. split; vm_compute; reflexivity. }
  assert (refused_so_far m2.2) as Hr.
  { exists (new_mutation 1 1 1 MutationStoreFlags (mk_FlagPayload 11 "INBOX" ["\Seen"%string])
      (IdempotencyKey (fun s => s) 1 1 MutationStoreFlags
         (FlagPayload_json (mk_FlagPayload 11 "INBOX" ["\Seen"%string])))).
    split; [vm_compute; reflexivity|]. split; [done|]. vm_compute. reflexivity. }
  destruct (stubborn_loop fuel 0 m2.2 Hr) as [r3 E3].
  unfold ReplayMutations. fold (pass_start slow_start). fold r0.
  cbv beta iota zeta delta [mbind SE_bind mret SE_ret]. fold m1. rewrite E1. cbv beta iota.
  change (1 =? 0) with false. cbv beta iota. fold m2. rewrite E2. cbv beta iota. rewrite Ea. cbn [negb]. cbv iota.
  change (rp_sealer slow_env) with (Some 2%nat). rewrite Ec. rewrite E3. destruct (Close _ _). by eexists.
Qed.
