(* ===== verification/Config.v ===== *)
(** The configuration (internal/config/config.go, validate.go): its fields, its
    defaults, and the validation that reports every problem at once. *)
From S2P Require Import Prelude GoStrings Retry.
From Stdlib Require Import String.
From stdpp Require Import strings gmap list.
Open Scope list_scope.
Open Scope Z_scope.

(** Durations are nanoseconds, byte sizes bytes; both are 64-bit integers. *)
Definition Second : Z := 1000000000.
Definition Minute : Z := 60 * Second.
Definition Hour : Z := 60 * Minute.
Definition MiB (n : Z) : Z := n * 2 ^ 20.

Record IMAP := mk_IMAP {
  PlaintextBind : string; TLSBind : string; TLSCertPath : string; TLSKeyPath : string;
  IdleTimeout : Z; IMAP_CommandTimeout : Z; MaxLiteralSize : Z
}.
Record HTTP := mk_HTTP {
  Bind : string; MetricsBind : string; ReadTimeout : Z; WriteTimeout : Z; ShutdownTimeout : Z
}.
Record DBConfig := mk_DBConfig {
  URL : string; MaxConns : Z; MinConns : Z; ConnMaxLifetime : Z; ConnectTimeout : Z; StatementTimeout : Z; AutoMigrate : bool
}.
Record Storage := mk_Storage {
  Path : string; S3Endpoint : string; S3Bucket : string; S3AccessKeyID : string; S3SecretKey : string;
  S3Region : string; S3ForcePathStyle : bool
}.
Record UpstreamConfig := mk_UpstreamConfig {
  DialTimeout : Z; TLSHandshakeTimeout : Z; GreetingTimeout : Z; IOIdleTimeout : Z; CommandTimeout : Z;
  FetchMetadataTimeout : Z; FetchBodyTimeout : Z; TCPUserTimeout : Z; TCPKeepAlive : Z;
  RetryMaxAttempts : Z; RetryBaseDelay : Z; RetryMaxDelay : Z;
  PreferQResync : bool; PreferCondStore : bool; InsecureSkipVerify : bool
}.
Record SyncConfig := mk_SyncConfig {
  Sync_Enabled : bool; Interval : Z; AccountsConcurrent : Z; ConnectionsPerAccount : Z; MetadataBatchUIDs : Z;
  MetadataBatchMessages : Z; BodyBatchBytes : Z; BodyBatchMaxMsgs : Z; BodyMaxInlineBytes : Z; BodyMaxAttempts : Z;
  DeletionScanEvery : Z; MaxRunDuration : Z; ClaimReapAfter : Z; HeartbeatInterval : Z
}.
Record WebConfig := mk_WebConfig { Web_Enabled : bool; SessionTTL : Z; SecureCookies : bool; PProf : bool }.
Record SearchConfig := mk_SearchConfig { Backend : string; Language : string; MaxIndexedBodyBytes : Z }.
Record Limits := mk_Limits {
  MaxMessageSize : Z; DefaultAccountQuota : Z; LoginRateLimitFailures : Z; LoginRateLimitLockout : Z
}.
Record Bootstrap := mk_Bootstrap { Boot_Email : string; Boot_Password : string }.

Record Config := mk_Config {
  AppEnv : string; AppBaseURL : string; LogLevel : string; LogFormat : string; EncryptionMasterKey : string;
  c_IMAP : IMAP; c_HTTP : HTTP; c_DB : DBConfig; c_Storage : Storage; c_Upstream : UpstreamConfig;
  c_Sync : SyncConfig; c_Web : WebConfig; c_Search : SearchConfig; c_Limits : Limits; c_Bootstrap : Bootstrap
}.

Definition Default : Config := {|
  AppEnv := "development"; AppBaseURL := "http://localhost:8080"; LogLevel := "info"; LogFormat := "json";
  EncryptionMasterKey := "";
  c_IMAP := mk_IMAP "0.0.0.0:1143" "" "" "" (29 * Minute) (5 * Minute) (MiB 50);
  c_HTTP := mk_HTTP "0.0.0.0:8080" "" (30 * Second) 0 (20 * Second);
  c_DB := mk_DBConfig "" 20 2 Hour (10 * Second) (30 * Second) true;
  c_Storage := mk_Storage "./data/blob" "" "" "" "" "auto" true;
  c_Upstream := mk_UpstreamConfig (10 * Second) (10 * Second) (15 * Second) (60 * Second) (30 * Second)
    (10 * Minute) (10 * Minute) (60 * Second) (30 * Second) 6 Second (5 * Minute) true true false;
  c_Sync := mk_SyncConfig true (15 * Minute) 4 4 20000 500 (MiB 4) 50 (MiB 32) 5 10 (2 * Hour) (15 * Minute) (15 * Second);
  c_Web := mk_WebConfig true (30 * 24 * Hour) true false;
  c_Search := mk_SearchConfig "postgres" "english" 900000;
  c_Limits := mk_Limits (MiB 100) (10 * 2 ^ 30) 5 Minute;
  c_Bootstrap := mk_Bootstrap "" ""
|}.

Definition IsProduction (c : Config) : bool := String.eqb (AppEnv c) "production".
Definition UseS3 (c : Config) : bool :=
  negb (String.eqb (S3Bucket (c_Storage c)) "") && negb (String.eqb (S3Endpoint (c_Storage c)) "").

(** * Durations as text ([time.Duration.String]) *)

Fixpoint zeros (n : nat) : string := match n with O => "" | S n => String "0" (zeros n) end.
Fixpoint strip_zeros (l : list ascii) : list ascii :=
  match l with "0"%char :: l => strip_zeros l | _ => l end.
(** [fmtFrac]: the last [prec] digits as a fraction, without trailing zeros. *)
Definition fraction (prec : nat) (v : Z) : string :=
  let digits := Itoa (v mod 10 ^ Z.of_nat prec) in
  let padded := (zeros (prec - String.length digits) ++ digits)%string in
  match rev (strip_zeros (rev (list_ascii_of_string padded))) with
  | [] => ""
  | l => String "." (string_of_list_ascii l)
  end.
Definition micro : string := String (ascii_of_nat 194) (String (ascii_of_nat 181) "s").
Definition positive_duration (u : Z) : string :=
  if u =? 0 then "0s"
  else if (u <? 1000)%Z then (Itoa u ++ "ns")%string
  else if (u <? 1000000)%Z then (Itoa (u / 1000) ++ fraction 3 u ++ micro)%string
  else if (u <? Second)%Z then (Itoa (u / 1000000) ++ fraction 6 u ++ "ms")%string
  else
    let secs := u / Second in
    let minutes := secs / 60 in
    let hours := minutes / 60 in
    let s := (Itoa (secs mod 60) ++ fraction 9 u ++ "s")%string in
    if minutes =? 0 then s else
    let m := (Itoa (minutes mod 60) ++ "m" ++ s)%string in
    if hours =? 0 then m else (Itoa hours ++ "h" ++ m)%string.
Definition Duration_String (d : Z) : string :=
  if (d <? 0)%Z then String "-" (positive_duration (- d)) else positive_duration d.

Example duration_1 : Duration_String (2 * Hour + 3 * Second + 500000000) = "2h0m3.5s"%string.
Proof. reflexivity. Qed.
Example duration_2 : Duration_String (15 * Second) = "15s"%string /\ Duration_String 1500000 = "1.5ms"%string.
Proof. split; reflexivity. Qed.

(** Sizes ([ByteSize.String]) *)
Definition ByteSize_String (b : Z) : string :=
  if (2 ^ 30 <=? b)%Z && (b mod 2 ^ 30 =? 0) then (Itoa (b / 2 ^ 30) ++ "GiB")%string
  else if (2 ^ 20 <=? b)%Z && (b mod 2 ^ 20 =? 0) then (Itoa (b / 2 ^ 20) ++ "MiB")%string
  else if (2 ^ 10 <=? b)%Z && (b mod 2 ^ 10 =? 0) then (Itoa (b / 2 ^ 10) ++ "KiB")%string
  else Itoa b.

(** * Addresses to listen on *)

Definition has (c : ascii) (l : list ascii) : bool := bool_decide (c ∈ l).
Fixpoint index_of (c : ascii) (l : list ascii) : option nat :=
  match l with
  | [] => None
  | x :: l => if Ascii.eqb x c then Some O else S <$> index_of c l
  end.
Definition last_index (c : ascii) (l : list ascii) : option nat :=
  (fun i => length l - 1 - i)%nat <$> index_of c (rev l).

(** [net.SplitHostPort]; its errors are only tested for. *)
Definition SplitHostPort (hostport : string) : option (list ascii * list ascii) :=
  let l := list_ascii_of_string hostport in
  match last_index ":" l with
  | None => None
  | Some i =>
      match l with
      | "["%char :: rest =>
          match index_of "]" rest with
          | None => None
          | Some e =>
              (* "]" is at position e + 1; the last colon must follow it *)
              if (e + 2 =? i)%nat then
                if has "[" rest || has "]" (drop (e + 2) l) then None
                else Some (take e rest, drop (i + 1) l)
              else None
          end
      | _ =>
          let host := take i l in
          if has ":" host || has "[" l || has "]" l then None else Some (host, drop (i + 1) l)
      end
  end.

Definition ContainsAny (s : list ascii) (chars : list ascii) : bool := existsb (fun c => has c chars) s.

(** * Validation *)

(** The insertion sort of the source: [sift_left] moves the next name left past the
    greater ones; the part already sorted is kept last name first. *)
Fixpoint sift_left (s : string) (before : list string) : list string :=
  match before with
  | t :: before' => if String.ltb s t then t :: sift_left s before' else s :: before
  | [] => [s]
  end.
Definition sorted (l : list string) : list string := rev (fold_left (fun before s => sift_left s before) l []).

Definition ExampleMasterKey : string := "change-me-32-bytes-minimum-secret".
Definition MinMasterKeyLen : Z := 32.
Definition errNoDatabase : err := ErrText "db.url (DATABASE_URL) is required".
Definition len (s : string) : Z := Z.of_nat (String.length s).
Definition eqs (s t : string) : bool := String.eqb s t.
Definition one_of (s : string) (l : list string) : bool := existsb (String.eqb s) l.

Section validation.
(** Whether a text is an IP address, [os.Stat], and the order in which Go visits the
    entries of a map. *)
Variable ParseIP : list ascii -> bool.
Variable stat : string -> option err.
Variable visit : forall A : Type, list A -> list A.

Definition validateBind (name value : string) : list err :=
  if eqs value "" then [] else
  match SplitHostPort value with
  | None => [ErrText (name ++ " is " ++ Quote value ++ ": want host:port, e.g. 0.0.0.0:1143")]
  | Some (host, port) =>
      match port with
      | [] => [ErrText (name ++ " is " ++ Quote value ++ ": port is missing")]
      | _ =>
          if negb (bool_decide (host = [])) && negb (ParseIP host)
             && ContainsAny host [" "%char; ascii_of_nat 9; "/"%char]
          then [ErrText (name ++ " has an invalid host " ++ Quote (string_of_list_ascii host))]
          else []
      end
  end%string.

(** A problem unless the condition holds. *)
Definition unless (b : bool) (text : string) : list err := if b then [] else [ErrText text].

Definition validate_app (c : Config) : list err :=
  unless (one_of (AppEnv c) ["development"; "staging"; "production"])
    ("app_env (APP_ENV) is " ++ Quote (AppEnv c) ++ ": want development, staging or production")
  ++ unless (one_of (ToLower (LogLevel c)) ["debug"; "info"; "warn"; "error"])
    ("log_level (LOG_LEVEL) is " ++ Quote (LogLevel c) ++ ": want debug, info, warn or error")
  ++ unless (one_of (ToLower (LogFormat c)) ["json"; "text"])
    ("log_format (LOG_FORMAT) is " ++ Quote (LogFormat c) ++ ": want json or text").

Definition validate_db (d : DBConfig) : list err :=
  (if eqs (URL d) "" then [errNoDatabase] else [])
  ++ unless (1 <=? MaxConns d)%Z ("db.max_conns must be at least 1, got " ++ Itoa (MaxConns d))
  ++ unless (negb ((MinConns d <? 0)%Z || (MaxConns d <? MinConns d)%Z))
    ("db.min_conns must be between 0 and db.max_conns (" ++ Itoa (MaxConns d) ++ "), got " ++ Itoa (MinConns d)).

Definition validate_key (c : Config) : list err :=
  let key := EncryptionMasterKey c in
  if eqs key "" then
    unless (negb (IsProduction c)) "encryption_master_key (ENCRYPTION_MASTER_KEY) is required in production"
  else if (len key <? MinMasterKeyLen)%Z then
    [ErrText ("encryption_master_key must be at least " ++ Itoa MinMasterKeyLen ++ " bytes, got " ++ Itoa (len key))]
  else unless (negb (eqs key ExampleMasterKey && IsProduction c))
    "encryption_master_key is still the example value; generate one with `openssl rand -hex 32`".

Definition missing_file (entry : string * string) : list err :=
  match stat entry.2 with Some e => [ErrText (entry.1 ++ ": " ++ err_text e)] | None => [] end.

Definition validate_listeners (c : Config) : list err :=
  let i := c_IMAP c in
  validateBind "imap.plaintext_bind" (PlaintextBind i) ++ validateBind "imap.tls_bind" (TLSBind i)
  ++ validateBind "http.bind" (Bind (c_HTTP c)) ++ validateBind "http.metrics_bind" (MetricsBind (c_HTTP c))
  ++ unless (negb (eqs (PlaintextBind i) "" && eqs (TLSBind i) "" && eqs (Bind (c_HTTP c)) ""))
    "no listeners configured: set at least one of imap.plaintext_bind, imap.tls_bind or http.bind"
  ++ (if eqs (TLSBind i) "" then []
      else if eqs (TLSCertPath i) "" || eqs (TLSKeyPath i) ""
      then [ErrText "imap.tls_bind is set but imap.tls_cert_path and imap.tls_key_path are not both configured"]
      else flat_map missing_file
        (visit _ [("imap.tls_cert_path"%string, TLSCertPath i); ("imap.tls_key_path"%string, TLSKeyPath i)])).

Definition s3Fields (s : Storage) : list (string * string) :=
  [("storage.s3_endpoint"%string, S3Endpoint s); ("storage.s3_bucket"%string, S3Bucket s);
   ("storage.s3_access_key_id"%string, S3AccessKeyID s); ("storage.s3_secret_access_key"%string, S3SecretKey s)].
Definition s3_missing (l : list (string * string)) : list string := map fst (List.filter (fun e => eqs e.2 "") l).
Definition s3_set (l : list (string * string)) : list string := map fst (List.filter (fun e => negb (eqs e.2 "")) l).

Definition validate_storage (s : Storage) : list err :=
  let fields := visit _ (s3Fields s) in
  let s3Set := s3_set fields in
  let s3Missing := s3_missing fields in
  unless (bool_decide (s3Set = []) || bool_decide (s3Missing = []))
    ("storage is partially configured for S3: set " ++ GoStrings.Join (sorted s3Missing) ", " ++ " or clear "
     ++ GoStrings.Join (sorted s3Set) ", " ++ " to use local disk")
  ++ unless (negb (bool_decide (s3Set = []) && eqs (Path s) ""))
    "storage.path (OBJECT_STORE_PATH) is required when S3 is not configured".

Definition timeouts (c : Config) : list (string * Z) :=
  let u := c_Upstream c in
  [("upstream.dial_timeout", DialTimeout u); ("upstream.tls_handshake_timeout", TLSHandshakeTimeout u);
   ("upstream.greeting_timeout", GreetingTimeout u); ("upstream.io_idle_timeout", IOIdleTimeout u);
   ("upstream.command_timeout", CommandTimeout u); ("upstream.fetch_metadata_timeout", FetchMetadataTimeout u);
   ("upstream.fetch_body_timeout", FetchBodyTimeout u); ("sync.max_run_duration", MaxRunDuration (c_Sync c));
   ("sync.claim_reap_after", ClaimReapAfter (c_Sync c)); ("sync.heartbeat_interval", HeartbeatInterval (c_Sync c));
   ("db.connect_timeout", ConnectTimeout (c_DB c))]%string.
Definition validate_timeout (entry : string * Z) : list err :=
  unless (0 <? entry.2)%Z (entry.1 ++ " must be greater than zero (a zero timeout means wait forever)").

Definition at_least_1 (name : string) (n : Z) : list err :=
  unless (1 <=? n)%Z (name ++ " must be at least 1, got " ++ Itoa n).

Definition validate_sync (s : SyncConfig) : list err :=
  at_least_1 "sync.accounts_concurrent" (AccountsConcurrent s)
  ++ unless ((1 <=? ConnectionsPerAccount s)%Z && (ConnectionsPerAccount s <=? 16)%Z)
    ("sync.connections_per_account must be between 1 and 16, got " ++ Itoa (ConnectionsPerAccount s))
  ++ at_least_1 "sync.metadata_batch_messages" (MetadataBatchMessages s)
  ++ at_least_1 "sync.body_batch_max_msgs" (BodyBatchMaxMsgs s)
  ++ unless (1 <=? BodyBatchBytes s)%Z "sync.body_batch_bytes must be greater than zero"
  ++ at_least_1 "sync.body_max_attempts" (BodyMaxAttempts s)
  ++ at_least_1 "sync.deletion_scan_every" (DeletionScanEvery s)
  ++ unless (negb (Sync_Enabled s && (Interval s <=? 0)%Z)) "sync.interval must be greater than zero when sync is enabled"
  ++ unless (negb ((0 <? HeartbeatInterval s)%Z && (0 <? MaxRunDuration s)%Z && (MaxRunDuration s <=? HeartbeatInterval s)%Z))
    ("sync.heartbeat_interval (" ++ Duration_String (HeartbeatInterval s) ++ ") must be shorter than sync.max_run_duration ("
     ++ Duration_String (MaxRunDuration s) ++ ")").

Definition validate_retry (u : UpstreamConfig) : list err :=
  at_least_1 "upstream.retry_max_attempts" (RetryMaxAttempts u)
  ++ unless (RetryBaseDelay u <=? RetryMaxDelay u)%Z
    ("upstream.retry_base_delay (" ++ Duration_String (RetryBaseDelay u) ++ ") must not exceed upstream.retry_max_delay ("
     ++ Duration_String (RetryMaxDelay u) ++ ")").

Definition validate_limits (c : Config) : list err :=
  unless (1 <=? MaxMessageSize (c_Limits c))%Z "limits.max_message_size must be greater than zero"
  ++ unless (BodyMaxInlineBytes (c_Sync c) <=? MaxMessageSize (c_Limits c))%Z
    ("sync.body_max_inline_bytes (" ++ ByteSize_String (BodyMaxInlineBytes (c_Sync c))
     ++ ") must not exceed limits.max_message_size (" ++ ByteSize_String (MaxMessageSize (c_Limits c)) ++ ")").

Definition validate_rest (c : Config) : list err :=
  unless (eqs (Backend (c_Search c)) "postgres")
    ("search.backend is " ++ Quote (Backend (c_Search c)) ++ ": only " ++ Quote "postgres" ++ " is implemented")
  ++ unless (1 <=? MaxIndexedBodyBytes (c_Search c))%Z "search.max_indexed_body_bytes must be greater than zero"
  ++ unless (negb (Web_Enabled (c_Web c) && eqs (Bind (c_HTTP c)) "")) "web.enabled is true but http.bind is empty"
  ++ unless (0 <? SessionTTL (c_Web c))%Z "web.session_ttl must be greater than zero"
  ++ unless (eqs (Boot_Email (c_Bootstrap c)) "" || negb (eqs (Boot_Password (c_Bootstrap c)) ""))
    "bootstrap.email is set but bootstrap.password is empty"
  ++ unless (eqs (Boot_Password (c_Bootstrap c)) "" || negb (eqs (Boot_Email (c_Bootstrap c)) ""))
    "bootstrap.password is set but bootstrap.email is empty".

(** Every problem, in the order of the checks. *)
Definition problems (c : Config) : list err :=
  validate_app c ++ validate_db (c_DB c) ++ validate_key c ++ validate_listeners c ++ validate_storage (c_Storage c)
  ++ unless (negb (InsecureSkipVerify (c_Upstream c) && IsProduction c))
       "upstream.insecure_skip_verify must not be enabled in production"
  ++ flat_map validate_timeout (visit _ (timeouts c))
  ++ validate_sync (c_Sync c) ++ validate_retry (c_Upstream c) ++ validate_limits c ++ validate_rest c.

(** No error, or the [ValidationError] with its problems. *)
Definition Validate (c : Config) : option (list err) := match problems c with [] => None | ps => Some ps end.
End validation.

Definition plural (n : nat) (one many : string) : string := if (n =? 1)%nat then one else many.
Definition newline : string := String (ascii_of_nat 10) "".
Definition ValidationError_Error (ps : list err) : string :=
  ("invalid configuration (" ++ Itoa (Z.of_nat (length ps)) ++ " " ++ plural (length ps) "problem" "problems" ++ "):"
   ++ String.concat "" (map (fun p => newline ++ "  - " ++ err_text p) ps))%string.

Definition IsMissingDatabase (ps : list err) : bool := existsb (fun e => err_is e errNoDatabase) ps.
