(* ===== verification/ConfigProps.v ===== *)
(** What validation promises: it accepts exactly the sane configurations, reports
    all problems whatever order Go visits its maps in, and what a validated
    configuration means for the components it configures. *)
From S2P Require Import Prelude NumSet Planner GoStrings Retry Config.
From Stdlib Require Import String OrderedTypeEx.
From stdpp Require Import strings gmap list sorting.
Open Scope list_scope.
Open Scope Z_scope.

(** * Problems *)

Lemma unless_nil b text : unless b text = [] <-> b = true.
Proof. by destruct b. Qed.
Lemma app_nil_iff {A} (l1 l2 : list A) : l1 ++ l2 = [] <-> l1 = [] /\ l2 = [].
Proof. apply app_nil. Qed.
Lemma flat_map_nil {A B} (f : A -> list B) l : flat_map f l = [] <-> Forall (fun x => f x = []) l.
Proof. induction l as [|x l IH]; cbn; [by split|]. by rewrite app_nil_iff, Forall_cons, IH. Qed.
Lemma flat_map_perm {A B} (f : A -> list B) l1 l2 : l1 ≡ₚ l2 -> flat_map f l1 ≡ₚ flat_map f l2.
Proof.
  induction 1 as [|x l1 l2 _ IH|x y l|l1 l2 l3 _ IH1 _ IH2]; cbn; [done|by rewrite IH| |by rewrite IH1].
  by rewrite !app_assoc, (Permutation_app_comm (f y)).
Qed.
Lemma filter_perm {A} (p : A -> bool) l1 l2 : l1 ≡ₚ l2 -> List.filter p l1 ≡ₚ List.filter p l2.
Proof.
  induction 1 as [|x l1 l2 _ IH|x y l|l1 l2 l3 _ IH1 _ IH2]; cbn; [done| | |by rewrite IH1].
  - destruct (p x); [by rewrite IH|done].
  - destruct (p x), (p y); try done. apply perm_swap.
Qed.

(** * The order of names, and the insertion sort *)

Definition name_ge (s t : string) : Prop := String.ltb s t = false.

Lemma ltb_lt s t : String.ltb s t = true <-> OrderedTypeEx.String_as_OT.lt s t.
Proof.
  unfold String.ltb. rewrite <- OrderedTypeEx.String_as_OT.cmp_lt.
  change OrderedTypeEx.String_as_OT.cmp with String.compare. by destruct (String.compare s t).
Qed.
Lemma ltb_trans s t u : String.ltb s t = true -> String.ltb t u = true -> String.ltb s u = true.
Proof. rewrite !ltb_lt. apply OrderedTypeEx.String_as_OT.lt_trans. Qed.
Lemma ltb_total s t : String.ltb s t = false -> String.ltb t s = false -> s = t.
Proof.
  unfold String.ltb. rewrite (String.compare_antisym t s).
  destruct (String.compare s t) eqn:E; cbn; try done. intros _ _. by apply String.compare_eq_iff.
Qed.
Lemma ltb_asym s t : String.ltb s t = true -> String.ltb t s = false.
Proof.
  unfold String.ltb. rewrite (String.compare_antisym t s). by destruct (String.compare s t).
Qed.

#[export] Instance name_ge_trans : Transitive name_ge.
Proof.
  intros s t u Hst Htu. unfold name_ge in *. destruct (String.ltb s u) eqn:Hsu; [|done]. exfalso.
  destruct (String.ltb u t) eqn:Hut; [|by rewrite (ltb_total u t Hut Htu), Hst in Hsu].
  by rewrite (ltb_trans s u t Hsu Hut) in Hst.
Qed.
#[export] Instance name_ge_antisymm : AntiSymm (=) name_ge.
Proof. intros s t Hst Hts. by apply ltb_total. Qed.

Lemma sift_left_perm s l : sift_left s l ≡ₚ s :: l.
Proof.
  induction l as [|t l IH]; cbn; [done|]. destruct (String.ltb s t); [|done].
  rewrite IH. apply perm_swap.
Qed.
Lemma sift_left_sorted s l : StronglySorted name_ge l -> StronglySorted name_ge (sift_left s l).
Proof.
  induction 1 as [|t l Hl IH Ht]; cbn; [by repeat constructor|].
  destruct (String.ltb s t) eqn:Hst.
  - constructor; [done|]. rewrite sift_left_perm. constructor; [by apply ltb_asym|done].
  - constructor; [by constructor|]. constructor; [done|].
    eapply Forall_impl; [exact Ht|]. intros u. by apply (transitivity (R := name_ge)).
Qed.
Lemma sorted_fold l before :
  StronglySorted name_ge before ->
  StronglySorted name_ge (fold_left (fun before s => sift_left s before) l before) /\
  fold_left (fun before s => sift_left s before) l before ≡ₚ l ++ before.
Proof.
  revert before. induction l as [|s l IH]; intros before Hb; cbn; [done|].
  destruct (IH (sift_left s before)) as [Hs Hp]; [by apply sift_left_sorted|]. split; [done|].
  rewrite Hp, sift_left_perm. by rewrite Permutation_middle.
Qed.

(** The sorted list depends on the names alone, not on the order they came in. *)
Lemma sorted_canonical l1 l2 : l1 ≡ₚ l2 -> sorted l1 = sorted l2.
Proof.
  intros Hp. unfold sorted. f_equal.
  destruct (sorted_fold l1 []) as [Hs1 Hp1]; [constructor|].
  destruct (sorted_fold l2 []) as [Hs2 Hp2]; [constructor|].
  apply (StronglySorted_unique name_ge); [done..|]. by rewrite Hp1, Hp2, Hp.
Qed.

(** * What a sane configuration is *)

Section sane.
Variable ParseIP : list ascii -> bool.
Variable stat : string -> option err.

(** An address to listen on: a host (possibly empty) and a port; a host that is
    not an IP address holds no space, tab or slash. *)
Definition good_bind (value : string) : Prop :=
  value = ""%string \/
  exists host port, SplitHostPort value = Some (host, port) /\ port <> [] /\
    (host = [] \/ ParseIP host = true \/ ContainsAny host [" "%char; ascii_of_nat 9; "/"%char] = false).

Record sane (c : Config) : Prop := {
  sane_env : AppEnv c = "development"%string \/ AppEnv c = "staging"%string \/ AppEnv c = "production"%string;
  sane_level : ToLower (LogLevel c) ∈ ["debug"; "info"; "warn"; "error"]%string;
  sane_format : ToLower (LogFormat c) ∈ ["json"; "text"]%string;
  sane_url : URL (c_DB c) <> ""%string;
  sane_conns : 0 <= MinConns (c_DB c) <= MaxConns (c_DB c) /\ 1 <= MaxConns (c_DB c);
  sane_key : EncryptionMasterKey c <> ""%string -> 32 <= len (EncryptionMasterKey c);
  sane_production : AppEnv c = "production"%string ->
    EncryptionMasterKey c <> ""%string /\ EncryptionMasterKey c <> ExampleMasterKey /\
    InsecureSkipVerify (c_Upstream c) = false;
  sane_binds : Forall good_bind [PlaintextBind (c_IMAP c); TLSBind (c_IMAP c); Bind (c_HTTP c); MetricsBind (c_HTTP c)];
  sane_listener : PlaintextBind (c_IMAP c) <> ""%string \/ TLSBind (c_IMAP c) <> ""%string \/ Bind (c_HTTP c) <> ""%string;
  sane_tls : TLSBind (c_IMAP c) <> ""%string ->
    Forall (fun path => path <> ""%string /\ stat path = None) [TLSCertPath (c_IMAP c); TLSKeyPath (c_IMAP c)];
  sane_storage : Forall (fun v => v <> ""%string) (map snd (s3Fields (c_Storage c))) \/
    (Forall (fun v => v = ""%string) (map snd (s3Fields (c_Storage c))) /\ Path (c_Storage c) <> ""%string);
  sane_timeouts : Forall (fun d => 0 < d) (map snd (timeouts c));
  sane_heartbeat : HeartbeatInterval (c_Sync c) < MaxRunDuration (c_Sync c);
  sane_sync : Forall (fun n => 1 <= n) [AccountsConcurrent (c_Sync c); ConnectionsPerAccount (c_Sync c);
    MetadataBatchMessages (c_Sync c); BodyBatchMaxMsgs (c_Sync c); BodyBatchBytes (c_Sync c); BodyMaxAttempts (c_Sync c);
    DeletionScanEvery (c_Sync c); RetryMaxAttempts (c_Upstream c); MaxMessageSize (c_Limits c);
    MaxIndexedBodyBytes (c_Search c); SessionTTL (c_Web c)] /\ ConnectionsPerAccount (c_Sync c) <= 16;
  sane_interval : Sync_Enabled (c_Sync c) = true -> 0 < Interval (c_Sync c);
  sane_delays : RetryBaseDelay (c_Upstream c) <= RetryMaxDelay (c_Upstream c);
  sane_inline : BodyMaxInlineBytes (c_Sync c) <= MaxMessageSize (c_Limits c);
  sane_backend : Backend (c_Search c) = "postgres"%string;
  sane_web : Web_Enabled (c_Web c) = true -> Bind (c_HTTP c) <> ""%string;
  sane_bootstrap : Boot_Email (c_Bootstrap c) = ""%string <-> Boot_Password (c_Bootstrap c) = ""%string
}.
End sane.

(** * The checks, one by one *)

Lemma eqs_eq s t : eqs s t = true <-> s = t.
Proof. apply String.eqb_eq. Qed.
Lemma eqs_neq s t : eqs s t = false <-> s <> t.
Proof. apply String.eqb_neq. Qed.
Lemma one_of_elem s l : one_of s l = true <-> s ∈ l.
Proof.
  unfold one_of. rewrite existsb_exists. split.
  - intros (t & Hin & E). apply String.eqb_eq in E as ->. by apply list_elem_of_In.
  - intros Hin. exists s. rewrite String.eqb_refl. by rewrite <- list_elem_of_In.
Qed.

Section checks.
Variable ParseIP : list ascii -> bool.
Variable stat : string -> option err.
Variable visit : forall A : Type, list A -> list A.
Hypothesis visit_perm : forall A (l : list A), visit A l ≡ₚ l.

Lemma validateBind_nil name value : validateBind ParseIP name value = [] <-> good_bind ParseIP value.
Proof.
  unfold validateBind, good_bind. destruct (eqs value "") eqn:Ev; [apply eqs_eq in Ev; tauto|].
  apply eqs_neq in Ev.
  destruct (SplitHostPort value) as [[host port]|]; [|split; [done|intros [?|(?&?&?&?)]; done]].
  destruct port as [|p port]; [split; [done|intros [?|(?&?&?&?&?)]; [done|congruence]]|].
  destruct (negb (bool_decide (host = [])) && _ && _) eqn:E.
  - rewrite !andb_true_iff, negb_true_iff, negb_true_iff, bool_decide_eq_false in E. destruct E as [[Eh Ep] Ec].
    split; [done|]. intros [?|(h & q & Hs & _ & Hc)]; [done|]. simplify_eq. destruct Hc as [?|[?|?]]; congruence.
  - rewrite !andb_false_iff, negb_false_iff, negb_false_iff, bool_decide_eq_true in E.
    split; [|done]. intros _. right. exists host, (p :: port). split_and!; [done|done|tauto].
Qed.

Lemma timeouts_nil c : flat_map validate_timeout (visit _ (timeouts c)) = [] <-> Forall (fun d => 0 < d) (map snd (timeouts c)).
Proof.
  rewrite flat_map_nil, (visit_perm _ _), Forall_map. apply Forall_iff. intros e.
  unfold validate_timeout. by rewrite unless_nil, Z.ltb_lt.
Qed.

Lemma visited (P : string -> Prop) l : Forall P (map snd (visit (string * string) l)) <-> Forall P (map snd l).
Proof. by rewrite !Forall_map, (visit_perm _ l). Qed.
Lemma s3_set_nil l : s3_set l = [] <-> Forall (fun v => v = ""%string) (map snd l).
Proof.
  unfold s3_set. induction l as [|[n v] l IH]; cbn -[eqs]; [by split|]. rewrite Forall_cons.
  destruct (eqs v "") eqn:E; cbn.
  - apply eqs_eq in E as ->. rewrite IH. tauto.
  - apply eqs_neq in E. split; [done|intros [? _]; done].
Qed.
Lemma s3_missing_nil l : s3_missing l = [] <-> Forall (fun v => v <> ""%string) (map snd l).
Proof.
  unfold s3_missing. induction l as [|[n v] l IH]; cbn -[eqs]; [by split|]. rewrite Forall_cons.
  destruct (eqs v "") eqn:E; cbn.
  - apply eqs_eq in E as ->. split; [done|intros [? _]; done].
  - apply eqs_neq in E. rewrite IH. tauto.
Qed.

Lemma storage_nil s : validate_storage visit s = [] <->
  Forall (fun v => v <> ""%string) (map snd (s3Fields s)) \/
  (Forall (fun v => v = ""%string) (map snd (s3Fields s)) /\ Path s <> ""%string).
Proof.
  unfold validate_storage. cbv zeta.
  rewrite app_nil_iff.
  rewrite !unless_nil.
  rewrite negb_true_iff, andb_false_iff, orb_true_iff, !bool_decide_eq_true, bool_decide_eq_false, eqs_neq.
  rewrite !s3_set_nil, !s3_missing_nil, !visited.
  assert (Forall (fun v => v <> ""%string) (map snd (s3Fields s)) ->
          Forall (fun v => v = ""%string) (map snd (s3Fields s)) -> False) as Hne.
  { intros H1 H2. inversion H1; inversion H2; congruence. }
  tauto.
Qed.

Lemma app_nil_app c : validate_app c = [] <->
  AppEnv c ∈ ["development"; "staging"; "production"]%string /\
  ToLower (LogLevel c) ∈ ["debug"; "info"; "warn"; "error"]%string /\ ToLower (LogFormat c) ∈ ["json"; "text"]%string.
Proof. unfold validate_app. by rewrite !app_nil_iff, !unless_nil, !one_of_elem. Qed.

Lemma db_nil d : validate_db d = [] <->
  URL d <> ""%string /\ 1 <= MaxConns d /\ 0 <= MinConns d <= MaxConns d.
Proof.
  unfold validate_db. rewrite !app_nil_iff, !unless_nil, negb_true_iff, orb_false_iff, Z.leb_le, !Z.ltb_ge.
  destruct (eqs (URL d) "") eqn:E; [apply eqs_eq in E|apply eqs_neq in E]; naive_solver lia.
Qed.

Lemma key_nil c : validate_key c = [] <->
  (EncryptionMasterKey c <> ""%string -> 32 <= len (EncryptionMasterKey c)) /\
  (AppEnv c = "production"%string -> EncryptionMasterKey c <> ""%string /\ EncryptionMasterKey c <> ExampleMasterKey).
Proof.
  unfold validate_key, IsProduction. cbv zeta.
  destruct (eqs (EncryptionMasterKey c) "") eqn:E; [apply eqs_eq in E|apply eqs_neq in E].
  - rewrite unless_nil, negb_true_iff, String.eqb_neq. rewrite E. split; [|tauto]. done.
  - unfold MinMasterKeyLen. destruct (len (EncryptionMasterKey c) <? 32)%Z eqn:El.
    + split; [done|]. intros [H _]. specialize (H E). lia.
    + rewrite unless_nil, negb_true_iff, andb_false_iff, eqs_neq, String.eqb_neq.
      destruct (decide (AppEnv c = "production"%string)); destruct (decide (EncryptionMasterKey c = ExampleMasterKey));
        split; intros; [tauto| | |..]; try (split; [lia|]); tauto.
Qed.

Lemma missing_nil l : flat_map (missing_file stat) (visit _ l) = [] <-> Forall (fun path => stat path = None) (map snd l).
Proof.
  rewrite flat_map_nil, (visit_perm _ _), Forall_map. apply Forall_iff. intros e.
  unfold missing_file. cbn. by destruct (stat e.2).
Qed.

Lemma listeners_nil c : validate_listeners ParseIP stat visit c = [] <->
  Forall (good_bind ParseIP) [PlaintextBind (c_IMAP c); TLSBind (c_IMAP c); Bind (c_HTTP c); MetricsBind (c_HTTP c)] /\
  (PlaintextBind (c_IMAP c) <> ""%string \/ TLSBind (c_IMAP c) <> ""%string \/ Bind (c_HTTP c) <> ""%string) /\
  (TLSBind (c_IMAP c) <> ""%string ->
   Forall (fun path => path <> ""%string /\ stat path = None) [TLSCertPath (c_IMAP c); TLSKeyPath (c_IMAP c)]).
Proof.
  unfold validate_listeners. cbv zeta.
  rewrite !app_nil_iff, !validateBind_nil, unless_nil, negb_true_iff, !andb_false_iff, !eqs_neq, !Forall_cons, !Forall_nil.
  destruct (eqs (TLSBind (c_IMAP c)) "") eqn:Et; [apply eqs_eq in Et|apply eqs_neq in Et]; [tauto|].
  destruct (eqs (TLSCertPath (c_IMAP c)) "" || eqs (TLSKeyPath (c_IMAP c)) "") eqn:Ef.
  - apply orb_true_iff in Ef. rewrite !eqs_eq in Ef. split; [by intros (_ & _ & _ & _ & _ & ?)|tauto].
  - apply orb_false_iff in Ef. rewrite !eqs_neq in Ef. rewrite missing_nil. cbn [map snd].
    rewrite !Forall_cons, !Forall_nil. tauto.
Qed.

Lemma sync_nil s : validate_sync s = [] <->
  (Forall (fun n => 1 <= n) [AccountsConcurrent s; ConnectionsPerAccount s; MetadataBatchMessages s; BodyBatchMaxMsgs s;
     BodyBatchBytes s; BodyMaxAttempts s; DeletionScanEvery s] /\ ConnectionsPerAccount s <= 16) /\
  (Sync_Enabled s = true -> 0 < Interval s) /\
  (0 < HeartbeatInterval s -> 0 < MaxRunDuration s -> HeartbeatInterval s < MaxRunDuration s).
Proof.
  unfold validate_sync, at_least_1.
  rewrite !app_nil_iff, !unless_nil. rewrite !negb_true_iff, !andb_true_iff, !andb_false_iff.
  rewrite !Z.leb_le, !Z.leb_gt, !Z.ltb_ge, !Forall_cons, !Forall_nil.
  destruct (Sync_Enabled s); split; intros; destruct_and?; split_and?; intuition lia.
Qed.

Lemma retry_nil u : validate_retry u = [] <-> 1 <= RetryMaxAttempts u /\ RetryBaseDelay u <= RetryMaxDelay u.
Proof. unfold validate_retry, at_least_1. by rewrite app_nil_iff, !unless_nil, !Z.leb_le. Qed.
Lemma limits_nil c : validate_limits c = [] <->
  1 <= MaxMessageSize (c_Limits c) /\ BodyMaxInlineBytes (c_Sync c) <= MaxMessageSize (c_Limits c).
Proof. unfold validate_limits. by rewrite app_nil_iff, !unless_nil, !Z.leb_le. Qed.
Lemma rest_nil c : validate_rest c = [] <->
  Backend (c_Search c) = "postgres"%string /\ 1 <= MaxIndexedBodyBytes (c_Search c) /\
  (Web_Enabled (c_Web c) = true -> Bind (c_HTTP c) <> ""%string) /\ 0 < SessionTTL (c_Web c) /\
  (Boot_Email (c_Bootstrap c) = ""%string <-> Boot_Password (c_Bootstrap c) = ""%string).
Proof.
  unfold validate_rest. rewrite !app_nil_iff, !unless_nil. rewrite !orb_true_iff, !negb_true_iff, andb_false_iff.
  rewrite !eqs_eq, !eqs_neq, Z.leb_le, Z.ltb_lt.
  destruct (Web_Enabled (c_Web c)), (decide (Boot_Email (c_Bootstrap c) = ""%string)),
    (decide (Boot_Password (c_Bootstrap c) = ""%string)); split; intros; destruct_and?; split_and?; intuition congruence.
Qed.
End checks.

Lemma elem_of_3 {A} (x a b c : A) : x ∈ [a; b; c] <-> x = a \/ x = b \/ x = c.
Proof. rewrite !elem_of_cons, elem_of_nil. tauto. Qed.

(** * Properties *)

Lemma Validate_sane (ParseIP : list ascii -> bool) (stat : string -> option err)
    (visit : forall A : Type, list A -> list A) (c : Config) :
  (forall A (l : list A), visit A l ≡ₚ l) ->
  Validate ParseIP stat visit c = None <-> sane ParseIP stat c.
Proof.
  intros Hv. unfold Validate. transitivity (problems ParseIP stat visit c = []).
  { by destruct (problems _ _ _ _). }
  unfold problems. rewrite !app_nil_iff, app_nil_app, db_nil, key_nil, listeners_nil, storage_nil, unless_nil,
    timeouts_nil, sync_nil, retry_nil, limits_nil, rest_nil by done.
  rewrite negb_true_iff, andb_false_iff. unfold IsProduction. rewrite String.eqb_neq, !Forall_cons, !Forall_nil.
  split.
  - intros. destruct_and?.
    match goal with H : AppEnv c ∈ _ |- _ => rewrite elem_of_3 in H end.
    match goal with H : Forall _ (map snd (timeouts c)) |- _ => pose proof H as Ht; cbn in Ht; rewrite !Forall_cons in Ht end.
    destruct_and?.
    constructor; rewrite ?Forall_cons, ?Forall_nil; try done; try (intuition lia); try (intuition congruence).
  - intros []. rewrite !Forall_cons, !Forall_nil in *. destruct_and?.
    rewrite elem_of_3. split_and?; try done; try tauto; try lia; try (intros; lia).
    + destruct (decide (AppEnv c = "production"%string)); [left; by apply sane_production0|by right].
Qed.

(** [C30] Validation accepts exactly the sane configurations: no address, timeout,
    size, key or combination outside [sane] passes, and nothing sane is refused,
    whatever order Go visits its maps in. *)
Theorem validate_iff (ParseIP : list ascii -> bool) (stat : string -> option err)
    (visit : forall A : Type, list A -> list A) (c : Config) :
  (forall A (l : list A), visit A l ≡ₚ l) ->
  Validate ParseIP stat visit c = None <-> sane ParseIP stat c.
Proof. apply Validate_sane. Qed.

(** A production configuration with every field set, and surroundings in which its
    files exist. *)
Definition ex_config : Config :=
  let d := Default in {|
  AppEnv := "production"; AppBaseURL := AppBaseURL d; LogLevel := "INFO"; LogFormat := "json";
  EncryptionMasterKey := "0123456789abcdef0123456789abcdef";
  c_IMAP := mk_IMAP "0.0.0.0:1143" "[::]:1993" "/tls/cert" "/tls/key" (IdleTimeout (c_IMAP d))
              (IMAP_CommandTimeout (c_IMAP d)) (MaxLiteralSize (c_IMAP d));
  c_HTTP := c_HTTP d;
  c_DB := mk_DBConfig "postgres://db" 20 2 Hour (10 * Second) (30 * Second) true;
  c_Storage := c_Storage d; c_Upstream := c_Upstream d; c_Sync := c_Sync d; c_Web := c_Web d;
  c_Search := c_Search d; c_Limits := c_Limits d; c_Bootstrap := mk_Bootstrap "admin@example.org" "secret" |}.

Lemma ex_config_sane : sane (fun _ => true) (fun _ => None) ex_config.
Proof.
  apply (proj1 (Validate_sane (fun _ => true) (fun _ => None) (fun A => @rev A) ex_config
    (fun A l => Permutation_sym (Permutation_rev l)))). vm_compute. reflexivity.
Qed.
Lemma validate_iff_witness :
  sane (fun _ => true) (fun _ => None) ex_config.
Proof.
  apply (proj1 (validate_iff (fun _ => true) (fun _ => None) (fun A => @rev A) ex_config
    (fun A l => Permutation_sym (Permutation_rev l)))). vm_compute. reflexivity.
Defined.

(** Go visits the entries of a map in an unspecified order. Whatever the two
    orders, validation reports the same problems, at most in another order, and the
    message about a half-configured S3 backend, which lists fields, is the same text. *)
Theorem problems_any_order (ParseIP : list ascii -> bool) (stat : string -> option err)
    (visit1 visit2 : forall A : Type, list A -> list A) (c : Config) :
  (forall A (l : list A), visit1 A l ≡ₚ l) -> (forall A (l : list A), visit2 A l ≡ₚ l) ->
  problems ParseIP stat visit1 c ≡ₚ problems ParseIP stat visit2 c /\
  validate_storage visit1 (c_Storage c) = validate_storage visit2 (c_Storage c).
Proof.
  intros H1 H2.
  assert (Hv : forall A (l : list A), visit1 A l ≡ₚ visit2 A l) by (intros; by rewrite H1, H2).
  assert (Hs : validate_storage visit1 (c_Storage c) = validate_storage visit2 (c_Storage c)).
  { unfold validate_storage. cbv zeta.
    pose proof (Hv _ (s3Fields (c_Storage c))) as Hp.
    assert (Hm : s3_missing (visit1 _ (s3Fields (c_Storage c))) ≡ₚ s3_missing (visit2 _ (s3Fields (c_Storage c))))
      by (unfold s3_missing; by rewrite (filter_perm _ _ _ Hp)).
    assert (Ht : s3_set (visit1 _ (s3Fields (c_Storage c))) ≡ₚ s3_set (visit2 _ (s3Fields (c_Storage c))))
      by (unfold s3_set; by rewrite (filter_perm _ _ _ Hp)).
    rewrite (sorted_canonical _ _ Hm), (sorted_canonical _ _ Ht). do 2 f_equal.
    - f_equal; apply bool_decide_ext; split; intros E; rewrite E in *;
        first [by apply Permutation_nil | by apply Permutation_nil_r in Hm | by apply Permutation_nil_r in Ht].
    - do 2 f_equal. apply bool_decide_ext; split; intros E; rewrite E in *;
        first [by apply Permutation_nil | by apply Permutation_nil_r in Ht]. }
  split; [|done]. unfold problems. rewrite Hs.
  rewrite (flat_map_perm _ _ _ (Hv _ (timeouts c))).
  assert (Hl : validate_listeners ParseIP stat visit1 c ≡ₚ validate_listeners ParseIP stat visit2 c).
  { unfold validate_listeners. cbv zeta. do 5 f_equiv.
    destruct (eqs (TLSBind (c_IMAP c)) ""); [done|]. destruct (_ || _); [done|].
    apply flat_map_perm, Hv. }
  by rewrite Hl.
Qed.

(** A backend of which only half the fields are set: one message, whatever the order. *)
Definition half_s3 : Config :=
  let d := ex_config in {|
  AppEnv := AppEnv d; AppBaseURL := AppBaseURL d; LogLevel := LogLevel d; LogFormat := LogFormat d;
  EncryptionMasterKey := EncryptionMasterKey d; c_IMAP := c_IMAP d; c_HTTP := c_HTTP d; c_DB := c_DB d;
  c_Storage := mk_Storage "./data/blob" "https://s3" "bucket" "" "" "auto" true; c_Upstream := c_Upstream d;
  c_Sync := c_Sync d; c_Web := c_Web d; c_Search := c_Search d; c_Limits := c_Limits d; c_Bootstrap := c_Bootstrap d |}.
Lemma problems_any_order_witness :
  Validate (fun _ => true) (fun _ => None) (fun A => @rev A) half_s3 = Some [ErrText
    "storage is partially configured for S3: set storage.s3_access_key_id, storage.s3_secret_access_key or clear storage.s3_bucket, storage.s3_endpoint to use local disk"] /\
  problems (fun _ => true) (fun _ => None) (fun A => @rev A) half_s3
    ≡ₚ problems (fun _ => true) (fun _ => None) (fun A (l : list A) => l) half_s3.
Proof.
  split; [vm_compute; reflexivity|].
  exact (proj1 (problems_any_order (fun _ => true) (fun _ => None) (fun A => @rev A) (fun A (l : list A) => l) half_s3
    (fun A l => Permutation_sym (Permutation_rev l)) (fun A l => Permutation_refl l))).
Defined.

Definition with_url (url : string) (c : Config) : Config := {|
  AppEnv := AppEnv c; AppBaseURL := AppBaseURL c; LogLevel := LogLevel c; LogFormat := LogFormat c;
  EncryptionMasterKey := EncryptionMasterKey c; c_IMAP := c_IMAP c; c_HTTP := c_HTTP c;
  c_DB := mk_DBConfig url (MaxConns (c_DB c)) (MinConns (c_DB c)) (ConnMaxLifetime (c_DB c)) (ConnectTimeout (c_DB c))
            (StatementTimeout (c_DB c)) (AutoMigrate (c_DB c));
  c_Storage := c_Storage c; c_Upstream := c_Upstream c; c_Sync := c_Sync c; c_Web := c_Web c; c_Search := c_Search c;
  c_Limits := c_Limits c; c_Bootstrap := c_Bootstrap c |}.

(** The defaults lack the database and nothing else: with a database address they
    validate, without one the missing database is the only problem, and it is the one
    the server recognises to explain what to do. *)
Theorem default_needs_only_a_database (ParseIP : list ascii -> bool) (stat : string -> option err)
    (visit : forall A : Type, list A -> list A) (url : string) :
  (forall A (l : list A), visit A l ≡ₚ l) ->
  Validate ParseIP stat visit (with_url url Default) = (if eqs url "" then Some [errNoDatabase] else None) /\
  IsMissingDatabase [errNoDatabase] = true.
Proof.
  intros Hv. split; [|reflexivity]. unfold Validate, problems.
  assert (flat_map validate_timeout (visit _ (timeouts (with_url url Default))) = []) as ->.
  { apply (timeouts_nil visit Hv). cbn. repeat constructor. }
  assert (validate_storage visit (c_Storage (with_url url Default)) = []) as ->.
  { apply (storage_nil stat visit Hv). right. split; [repeat constructor|done]. }
  assert (validate_listeners ParseIP stat visit (with_url url Default) = []) as ->.
  { vm_compute. by destruct (ParseIP _). }
  unfold validate_db. change (URL (c_DB (with_url url Default))) with url.
  destruct (eqs url ""); vm_compute; reflexivity.
Qed.

Lemma default_needs_only_a_database_witness :
  Validate (fun _ => false) (fun _ => None) (fun _ l => l) (with_url "" Default) = Some [errNoDatabase] /\
  Validate (fun _ => false) (fun _ => None) (fun _ l => l) (with_url "postgres://db" Default) = None.
Proof.
  split.
  - exact (proj1 (default_needs_only_a_database (fun _ => false) (fun _ => None) (fun _ l => l) "" (fun _ _ => Permutation_refl _))).
  - exact (proj1 (default_needs_only_a_database (fun _ => false) (fun _ => None) (fun _ l => l) "postgres://db"
      (fun _ _ => Permutation_refl _))).
Defined.

(** The budget the body pass hands to the batch planner. *)
Definition body_budget (c : Config) : BatchBudget :=
  mkBudget (BodyBatchBytes (c_Sync c)) (BodyBatchMaxMsgs (c_Sync c)) (BodyMaxInlineBytes (c_Sync c)).

(** [C26] What validation buys the body pass: under a validated configuration every
    batch it plans holds at least one message and at most [BodyBatchMaxMsgs] (the
    planner never has to fall back to one), stays within [BodyBatchBytes] unless it is
    a single message, and a message above [BodyMaxInlineBytes] travels alone; no
    message is left out. *)
Theorem validated_batches (ParseIP : list ascii -> bool) (stat : string -> option err)
    (visit : forall A : Type, list A -> list A) (c : Config) (msgs : list SizedUID) :
  (forall A (l : list A), visit A l ≡ₚ l) ->
  Validate ParseIP stat visit c = None ->
  Forall (fun m => 0 <= Planner.Size m) msgs -> Planner.total msgs < 9223372036854775808 ->
  Forall (fun b =>
    1 <= Z.of_nat (length b) <= BodyBatchMaxMsgs (c_Sync c) /\
    (length b = 1%nat \/ Planner.total b <= BodyBatchBytes (c_Sync c)) /\
    (forall m, m ∈ b -> 0 < BodyMaxInlineBytes (c_Sync c) < Planner.Size m -> b = [m]))
  (PlanBatches msgs (body_budget c)).
Proof.
  intros Hv Hok Hn Ht.
  assert (validate_sync (c_Sync c) = []) as Hs.
  { unfold Validate in Hok. destruct (problems _ _ _ _) eqn:E; [|done]. unfold problems in E.
    rewrite !app_nil_iff in E. tauto. }
  apply sync_nil in Hs as ((H & _) & _). rewrite !Forall_cons in H. destruct_and?.
  eapply Forall_impl; [by apply PlanBatches_obey|]. unfold batch_ok, body_budget. cbn. intros b (Hb & Hl & Hbytes & Halone).
  split_and!; [destruct b; [done|cbn; lia]|lia|apply Hbytes; lia|].
  intros m Hm Hsize. apply Halone; [done|lia|lia].
Qed.

Lemma validated_batches_witness :
  PlanBatches [mkSized 4 3000; mkSized 3 (MiB 33); mkSized 2 10] (body_budget ex_config)
    = [[mkSized 4 3000]; [mkSized 3 (MiB 33)]; [mkSized 2 10]] /\
  Forall (fun b =>
    1 <= Z.of_nat (length b) <= 50 /\ (length b = 1%nat \/ Planner.total b <= MiB 4) /\
    (forall m, m ∈ b -> 0 < MiB 32 < Planner.Size m -> b = [m]))
  (PlanBatches [mkSized 4 3000; mkSized 3 (MiB 33); mkSized 2 10] (body_budget ex_config)).
Proof.
  split; [reflexivity|].
  apply (validated_batches (fun _ => true) (fun _ => None) (fun _ l => l) ex_config); [done|vm_compute; reflexivity| |].
  - repeat constructor; vm_compute; discriminate.
  - vm_compute; reflexivity.
Defined.

Definition with_base_delay (base : Z) (c : Config) : Config :=
  let u := c_Upstream c in {|
  AppEnv := AppEnv c; AppBaseURL := AppBaseURL c; LogLevel := LogLevel c; LogFormat := LogFormat c;
  EncryptionMasterKey := EncryptionMasterKey c; c_IMAP := c_IMAP c; c_HTTP := c_HTTP c; c_DB := c_DB c; c_Storage := c_Storage c;
  c_Upstream := mk_UpstreamConfig (DialTimeout u) (TLSHandshakeTimeout u) (GreetingTimeout u) (IOIdleTimeout u)
    (CommandTimeout u) (FetchMetadataTimeout u) (FetchBodyTimeout u) (TCPUserTimeout u) (TCPKeepAlive u)
    (RetryMaxAttempts u) base (RetryMaxDelay u) (PreferQResync u) (PreferCondStore u) (InsecureSkipVerify u);
  c_Sync := c_Sync c; c_Web := c_Web c; c_Search := c_Search c; c_Limits := c_Limits c; c_Bootstrap := c_Bootstrap c |}.

(** Validation bounds the delay before a retry from above only: setting the base
    delay of a valid configuration to zero leaves it valid, and an upstream call that
    fails is then retried without any wait, whatever the attempt. *)
Theorem zero_base_delay_validates (ParseIP : list ascii -> bool) (stat : string -> option err)
    (visit : forall A : Type, list A -> list A) (c : Config) (rand : Z -> Z) (attempt : Z) :
  Validate ParseIP stat visit c = None -> 0 <= RetryMaxDelay (c_Upstream c) ->
  Validate ParseIP stat visit (with_base_delay 0 c) = None /\
  Backoff rand attempt (RetryBaseDelay (c_Upstream (with_base_delay 0 c))) (RetryMaxDelay (c_Upstream c)) = 0.
Proof.
  intros Hok Hmax. split.
  - unfold Validate in *. destruct (problems ParseIP stat visit c) eqn:E; [|done].
    unfold problems in E. rewrite !app_nil_iff in E. destruct_and?.
    match goal with H : validate_retry _ = [] |- _ => apply retry_nil in H as [? _] end.
    assert (problems ParseIP stat visit (with_base_delay 0 c) = []) as ->; [|done].
    unfold problems. rewrite !app_nil_iff. split_and?; try done. by apply retry_nil.
  - unfold Backoff. cbn [RetryBaseDelay c_Upstream with_base_delay].
    assert (forall n, Backoff_loop n 0 (RetryMaxDelay (c_Upstream c)) = 0) as ->.
    { induction n as [|n IH]; cbn [Backoff_loop]; [done|]. by destruct (_ <? _). }
    by destruct (0 >? _)%Z eqn:E; [lia|].
Qed.

Lemma zero_base_delay_validates_witness :
  Validate (fun _ => true) (fun _ => None) (fun _ l => l) (with_base_delay 0 ex_config) = None /\
  Backoff (fun n => n - 1) 6 0 (5 * Minute) = 0.
Proof.
  apply (zero_base_delay_validates (fun _ => true) (fun _ => None) (fun _ l => l) ex_config (fun n => n - 1) 6);
    vm_compute; [reflexivity|discriminate].
Defined.
