(* ===== verification/Network.v ===== *)
(** Reaching an upstream server (internal/upstream/dial.go, client.go, deadlineconn.go): the
    dialler and its socket option, the TLS settings, the deadline of every phase of opening
    a connection, and how long opening one can take.  What the peer and the TLS library do
    is an argument; times are nanoseconds since the connection was asked for. *)
From S2P Require Import Prelude GoStrings Retry Upstream Commands Config ConfigProps.
From Stdlib Require Import String.
From stdpp Require Import strings list.
Open Scope list_scope.
Open Scope Z_scope.

(** * The socket *)

Definition ENOPROTOOPT : err := ErrText "protocol not available".
Definition EINVAL : err := ErrText "invalid argument".
Definition ENOTSUP : err := ErrText "operation not supported".
Definition isUnsupportedSockopt (e : err) : bool := err_is e ENOPROTOOPT || err_is e EINVAL || err_is e ENOTSUP.

(** [socketControl]: [control] is whether the raw socket could be had, [SetsockoptInt] what
    setting TCP_USER_TIMEOUT to so many milliseconds answers. *)
Definition socketControl (TCPUserTimeout : Z) (control : option err) (SetsockoptInt : Z -> option err) : option err :=
  if TCPUserTimeout <=? 0 then None else
  match control with
  | Some e => Some e
  | None =>
      match SetsockoptInt (TCPUserTimeout / 1000000) with
      | Some e => if isUnsupportedSockopt e then None else Some e
      | None => None
      end
  end.

(** * Calls that take time *)

(** What a peer does: when it answers, if it ever does, and what. *)
Record answer (A : Type) := mk_answer { an_at : option Z; an_result : err + A }.
Arguments mk_answer {A}.
Arguments an_at {A}.
Arguments an_result {A}.

(** A call under [context.WithTimeout(ctx, timeout)]: when it returns, and how.  The
    connection is closed when the context fires, which ends the call. *)
Definition remaining : string := "0s remaining".
Definition within {A} (timeout : Z) (a : answer A) : Z * call A :=
  if timeout <=? 0 then (0, mk_call (Some ErrDeadlineExceeded) None remaining (an_result a))
  else match an_at a with
       | Some t => if t <? timeout then (t, answered (an_result a))
                   else (timeout, mk_call None (Some ErrDeadlineExceeded) remaining (inl ErrNetClosed))
       | None => (timeout, mk_call None (Some ErrDeadlineExceeded) remaining (inl ErrNetClosed))
       end.

(** [net.Dialer] gives up after its timeout; zero is no timeout at all. *)
Definition dial_timeout : err := ErrNet "i/o timeout".
Definition dial (timeout : Z) (control : option err) (a : answer unit) : option Z * option err :=
  match control with
  | Some e => (Some 0, Some e)
  | None =>
      let result := match an_result a with inl e => Some e | inr _ => None end in
      if timeout =? 0 then (an_at a, result)
      else if timeout <? 0 then (Some 0, Some dial_timeout)
      else match an_at a with
           | Some t => if t <? timeout then (Some t, result) else (Some timeout, Some dial_timeout)
           | None => (Some timeout, Some dial_timeout)
           end
  end.

(** [deadlineConn.Write]: every write has the whole window to itself, from its own start;
    without a window it takes as long as the peer does. *)
Definition deadlineConn_Write (idle : Z) (a : answer Z) : option Z * (err + Z) :=
  if idle <=? 0 then (an_at a, an_result a)
  else match an_at a with
       | Some t => if t <? idle then (Some t, an_result a) else (Some idle, inl dial_timeout)
       | None => (Some idle, inl dial_timeout)
       end.

(** * TLS *)

Definition VersionTLS12 : Z := 771.
Record TLSConfig := mk_TLSConfig { ServerName : string; tc_InsecureSkipVerify : bool; MinVersion : Z }.
Definition tlsConfig (u : UpstreamConfig) (host : string) : TLSConfig :=
  mk_TLSConfig host (InsecureSkipVerify u) VersionTLS12.

(** [handshakeTLS]: a failed handshake closes the connection; the context's error is
    reported as itself. *)
Definition handshakeTLS (timeout : Z) (a : answer unit) : Z * option err :=
  let '(t, c) := within timeout a in
  (t, match c_before c, c_after c, c_result c with
      | Some e, _, _ => Some e
      | None, Some e, _ => Some e
      | None, None, inl e => Some e
      | None, None, inr _ => None
      end).

(** * Opening a connection *)

(** The peer: its socket, its handshakes under the settings they are made with, and its
    answers. *)
Record Network := mk_Network {
  nw_control : option err;
  nw_setsockopt : Z -> option err;
  nw_dial : answer unit;
  nw_handshake : TLSConfig -> answer unit;
  nw_greeting : answer unit;
  nw_starttls : TLSConfig -> answer unit;
  nw_login : answer unit;
  nw_caps : list string;
  nw_capability : answer (list string);
  nw_logout : answer unit
}.

Definition greeting (u : UpstreamConfig) (host tls_mode : string) (n : Network) : answer unit :=
  if String.eqb tls_mode "starttls" then nw_starttls n (tlsConfig u host) else nw_greeting n.
Definition dialled (u : UpstreamConfig) (n : Network) : option Z * option err :=
  dial (DialTimeout u) (socketControl (TCPUserTimeout u) (nw_control n) (nw_setsockopt n)) (nw_dial n).
(** What [Connect] meets, every phase under its own deadline. *)
Definition environment (u : UpstreamConfig) (host tls_mode : string) (n : Network) : connect_env :=
  mk_connect_env (dialled u n).2
    (handshakeTLS (TLSHandshakeTimeout u) (nw_handshake n (tlsConfig u host))).2
    (within (GreetingTimeout u) (greeting u host tls_mode n)).2
    (within (CommandTimeout u) (nw_login n)).2
    (nw_caps n)
    (within (CommandTimeout u) (nw_capability n)).2.
Definition open_connection (u : UpstreamConfig) (host addr username tls_mode : string) (n : Network)
    : (err + Client) * bool * list conn_event :=
  Connect host addr username tls_mode (environment u host tls_mode n).

#[export] Instance conn_event_eq_dec : EqDecision conn_event.
Proof. solve_decision. Defined.

(** How long each thing that was done took. *)
Definition logout_timeout : Z := 5 * Second.
Definition event_time (u : UpstreamConfig) (host tls_mode : string) (n : Network) (e : conn_event) : Z :=
  match e with
  | LoginSent => (within (CommandTimeout u) (nw_login n)).1
  | CapabilitySent => (within (CommandTimeout u) (nw_capability n)).1
  | LogoutSent => (within logout_timeout (nw_logout n)).1
  | _ => 0
  end.
Definition sum (l : list Z) : Z := foldr Z.add 0 l.
(** When [Connect] returns; [None] when it never does.  The dial, the handshake and the
    greeting come first, and take their time whether they succeed or not. *)
Definition opened_at (u : UpstreamConfig) (host addr username tls_mode : string) (n : Network) : option Z :=
  match (dialled u n).1 with
  | None => None
  | Some d =>
      let '(_, _, trace) := open_connection u host addr username tls_mode n in
      let handshake := if bool_decide (Dialled ∈ trace) && String.eqb tls_mode "tls"
        then (handshakeTLS (TLSHandshakeTimeout u) (nw_handshake n (tlsConfig u host))).1 else 0 in
      let greet := if bool_decide (Dialled ∈ trace) && (negb (String.eqb tls_mode "tls") || bool_decide (Handshake ∈ trace))
        then (within (GreetingTimeout u) (greeting u host tls_mode n)).1 else 0 in
      Some (d + handshake + greet + sum (map (event_time u host tls_mode n) trace))
  end.

(** * How long it can take *)

Lemma within_bound {A} timeout (a : answer A) : 0 < timeout -> (within timeout a).1 <= timeout.
Proof.
  intros Ht. unfold within. destruct (Z.leb_spec timeout 0); [lia|]. destruct (an_at a) as [t|]; [|cbn; lia].
  destruct (Z.ltb_spec t timeout); cbn; lia.
Qed.
Lemma handshake_bound timeout a : 0 < timeout -> (handshakeTLS timeout a).1 <= timeout.
Proof. intros Ht. unfold handshakeTLS. pose proof (within_bound timeout a Ht). by destruct (within timeout a). Qed.
Lemma dial_bound timeout control a : 0 < timeout -> exists t, (dial timeout control a).1 = Some t /\ t <= timeout.
Proof.
  intros Ht. unfold dial. destruct control; [exists 0; split; [done|lia]|].
  rewrite (proj2 (Z.eqb_neq timeout 0)), (proj2 (Z.ltb_ge timeout 0)) by lia.
  destruct (an_at a) as [t|]; [|exists timeout; split; [done|lia]].
  destruct (Z.ltb_spec t timeout); eexists; (split; [done|]); lia.
Qed.

(** What [Connect] does, in order: one login and one capability command at most, and one
    logout only when one of them has failed. *)
Lemma Connect_trace host addr username tls_mode env r open trace :
  Connect host addr username tls_mode env = (r, open, trace) ->
  exists pre tail, trace = pre ++ tail /\ Forall (fun e => e <> LoginSent /\ e <> CapabilitySent /\ e <> LogoutSent) pre
    /\ tail ∈ [[]; [LoginSent]; [LoginSent; LogoutSent]; [LoginSent; CapabilitySent]; [LoginSent; CapabilitySent; LogoutSent]].
Proof.
  unfold Connect. intros E.
  assert (forall l, Forall (fun e => e <> LoginSent /\ e <> CapabilitySent /\ e <> LogoutSent) l -> exists pre tail, l = pre ++ tail
    /\ Forall (fun e => e <> LoginSent /\ e <> CapabilitySent /\ e <> LogoutSent) pre
    /\ tail ∈ [[]; [LoginSent]; [LoginSent; LogoutSent]; [LoginSent; CapabilitySent]; [LoginSent; CapabilitySent; LogoutSent]]) as Hnone
    by (intros l Hl; exists l, []; rewrite app_nil_r; by repeat constructor).
  destruct (ce_dial env); [injection E as <- <- <-; by apply Hnone|].
  destruct (if String.eqb tls_mode "tls" then _ else _); [injection E as <- <- <-; apply Hnone; by repeat constructor|].
  set (l := Dialled :: (if String.eqb tls_mode "tls" then [Handshake] else [])) in *.
  assert (Forall (fun e => e <> LoginSent /\ e <> CapabilitySent /\ e <> LogoutSent) l) as Hl
    by (unfold l; destruct (String.eqb tls_mode "tls"); by repeat constructor).
  destruct (under_deadline (ce_greeting env) false) as [[e|[]] p]; [injection E as <- <- <-; by apply Hnone|].
  assert (Forall (fun e => e <> LoginSent /\ e <> CapabilitySent /\ e <> LogoutSent)
    (l ++ Greeting :: (if String.eqb tls_mode "starttls" then [StartTLSUpgrade] else []))) as Hl'
    by (apply Forall_app; split; [done|]; destruct (String.eqb tls_mode "starttls"); by repeat constructor).
  set (pre := l ++ _) in *. clearbody pre. clear Hl l. cbv zeta in E.
  assert (forall tail, trace = pre ++ tail ->
    tail ∈ [[]; [LoginSent]; [LoginSent; LogoutSent]; [LoginSent; CapabilitySent]; [LoginSent; CapabilitySent; LogoutSent]] ->
    exists pre tail, trace = pre ++ tail
    /\ Forall (fun e => e <> LoginSent /\ e <> CapabilitySent /\ e <> LogoutSent) pre
    /\ tail ∈ [[]; [LoginSent]; [LoginSent; LogoutSent]; [LoginSent; CapabilitySent]; [LoginSent; CapabilitySent; LogoutSent]]) as Hend
    by (intros tail -> Ht; by exists pre, tail).
  destruct (authenticate username (ce_login env) p) as [[e|[]] p'].
  { injection E as <- <- <-. apply (Hend (LoginSent :: Client_Close p') eq_refl). unfold Client_Close. destruct p'; rewrite !elem_of_cons; tauto. }
  destruct (refreshCaps _ _ p') as [[[e|caps] p''] asked] eqn:Er.
  - injection E as <- <- <-. apply (Hend (LoginSent :: CapabilitySent :: Client_Close p'')); [by rewrite <- app_assoc|].
    unfold Client_Close. destruct p''; rewrite !elem_of_cons; tauto.
  - injection E as <- <- <-. apply (Hend (LoginSent :: if asked then [CapabilitySent] else [])); [by rewrite <- app_assoc|].
    destruct asked; rewrite !elem_of_cons; tauto.
Qed.

Lemma sum_app l l' : sum (l ++ l') = sum l + sum l'.
Proof. unfold sum. induction l as [|x l IH]; cbn; [done|]. rewrite IH. lia. Qed.
Lemma sum_zero {A} (f : A -> Z) l : Forall (fun x => f x = 0) l -> sum (map f l) = 0.
Proof. induction 1 as [|x l Hx Hl IH]; [done|]. cbn. fold (sum (map f l)). lia. Qed.

Section time.
Context (ParseIP : list ascii -> bool) (stat : string -> option err).

Lemma sane_upstream c : sane ParseIP stat c -> let u := c_Upstream c in
  0 < DialTimeout u /\ 0 < TLSHandshakeTimeout u /\ 0 < GreetingTimeout u /\ 0 < CommandTimeout u.
Proof.
  intros Hs. pose proof (sane_timeouts _ _ _ Hs) as Ht. unfold timeouts in Ht. cbn [map snd] in Ht.
  rewrite !Forall_cons in Ht. destruct_and?. done.
Qed.

End time.

(** * Who gets the password *)

Section identity.
Context (ParseIP : list ascii -> bool) (stat : string -> option err).
(** The peer holds a certificate for this name that the system trusts. *)
Variable authentic : string -> Prop.
Variable n : Network.
(** What the TLS library promises, for the handshake of a new connection and for the
    upgrade of an open one: unless told to skip it, it verifies who it talks to. *)
Hypothesis verified : forall tc, tc_InsecureSkipVerify tc = false ->
  (an_result (nw_handshake n tc) = inr tt \/ an_result (nw_starttls n tc) = inr tt) -> authentic (ServerName tc).

Lemma within_answered {A} timeout (a : answer A) x p p' : under_deadline (within timeout a).2 p = (inr x, p') -> an_result a = inr x.
Proof.
  unfold under_deadline, within. destruct (timeout <=? 0); [done|]. destruct (an_at a) as [t|]; [destruct (t <? timeout)|]; cbn; try done.
  unfold withDeadline. cbn. destruct (an_result a); intros [= H]; by subst.
Qed.
Lemma handshake_answered timeout a : (handshakeTLS timeout a).2 = None -> an_result a = inr tt.
Proof.
  unfold handshakeTLS, within. destruct (timeout <=? 0); [done|]. destruct (an_at a) as [t|]; [destruct (t <? timeout)|]; cbn; try done.
  by destruct (an_result a) as [|[]].
Qed.

(** [C27] In production a password goes to nobody but the server it is for: under a
    validated production configuration and an account that asks for TLS, from the start or
    by STARTTLS, the login is only sent when the peer has proved to be the account's host;
    any failure before that, a timeout included, ends the attempt with the connection
    closed. *)
Theorem password_reaches_only_its_server (c : Config) (host addr username tls_mode : string) :
  sane ParseIP stat c -> AppEnv c = "production"%string -> tls_mode ∈ ["tls"; "starttls"]%string ->
  let '(r, open, trace) := open_connection (c_Upstream c) host addr username tls_mode n in
  (LoginSent ∈ trace -> authentic host) /\ (~ authentic host -> open = false /\ exists e, r = inl e).
Proof.
  intros Hs Hp Hm. destruct (sane_production _ _ _ Hs Hp) as (_ & _ & Hv). set (u := c_Upstream c) in *.
  destruct (open_connection u host addr username tls_mode n) as [[r open] trace] eqn:E.
  enough (authentic host \/ LoginSent ∉ trace /\ open = false /\ exists e, r = inl e) as Hx.
  { destruct Hx as [Hx|(Hx & Ho & Hr)]; [by split|]. by split. }
  unfold open_connection, Connect, environment in E. cbn [ce_dial ce_handshake ce_greeting ce_login ce_cached_caps ce_capability] in E.
  destruct (dialled u n).2. { injection E as <- <- <-. right. split; [by apply not_elem_of_nil|]. split; [done|by eexists]. }
  rewrite !elem_of_cons, elem_of_nil in Hm. destruct Hm as [->|[->|[]]]; cbn [String.eqb] in E.
  - destruct (handshakeTLS _ _).2 as [e|] eqn:Eh; cbn in E.
    + injection E as <- <- <-. right. split; [rewrite !elem_of_cons, elem_of_nil; intuition discriminate|]. split; [done|by eexists].
    + left. apply handshake_answered in Eh. apply (verified (tlsConfig u host) Hv). by left.
  - cbn in E. destruct (under_deadline _ false) as [[e|[]] p] eqn:Eg.
    + injection E as <- <- <-. right. split; [rewrite !elem_of_cons, elem_of_nil; intuition discriminate|]. split; [done|by eexists].
    + left. apply within_answered in Eg. apply (verified (tlsConfig u host) Hv). by right.
Qed.
End identity.

(** * A server that answers, and one that does not *)

Definition after_ms {A} (ms : Z) (r : err + A) : answer A := mk_answer (Some (ms * 1000000)) r.
Definition never {A} (r : err + A) : answer A := mk_answer None r.
(** [names] are the hosts the peer has certificates for. *)
Definition peer (names : list string) (login : answer unit) : Network :=
  let tls tc := after_ms 40 (if tc_InsecureSkipVerify tc || bool_decide (ServerName tc ∈ names) then inr tt
    else inl (ErrText "x509: certificate is not valid for the name")) in
  mk_Network None (fun _ => Some ENOPROTOOPT) (after_ms 10 (inr tt)) tls (after_ms 20 (inr tt)) tls login [] (after_ms 5 (inr ["IMAP4rev1"%string]))
    (after_ms 1 (inr tt)).
Definition connect_to (names : list string) (login : answer unit) (tls_mode : string) :=
  open_connection (c_Upstream ex_config) "mail.example.org" "mail.example.org:993" "ana" tls_mode (peer names login).

Example connect_ok : connect_to ["mail.example.org"%string] (after_ms 30 (inr tt)) "tls"
  = (inr (mk_Client ["IMAP4rev1"%string] false), true, [Dialled; Handshake; Greeting; LoginSent; CapabilitySent])
  /\ opened_at (c_Upstream ex_config) "mail.example.org" "mail.example.org:993" "ana" "tls"
    (peer ["mail.example.org"%string] (after_ms 30 (inr tt))) = Some (105 * 1000000).
Proof. split; vm_compute; reflexivity. Qed.
Example connect_impostor : (connect_to ["evil.example"%string] (after_ms 30 (inr tt)) "starttls").2 = [Dialled].
Proof. vm_compute. reflexivity. Qed.
Example connect_silent : exists e, connect_to ["mail.example.org"%string] (never (inr tt)) "tls" = (inl e, false, [Dialled; Handshake; Greeting; LoginSent])
  /\ opened_at (c_Upstream ex_config) "mail.example.org" "mail.example.org:993" "ana" "tls" (peer ["mail.example.org"%string] (never (inr tt)))
    = Some (30 * Second + 70 * 1000000).
Proof. eexists. split; vm_compute; reflexivity. Qed.


Lemma password_reaches_only_its_server_witness :
  (LoginSent ∈ (connect_to ["evil.example"%string] (after_ms 30 (inr tt)) "starttls").2 -> False)
  /\ (LoginSent ∈ (connect_to ["mail.example.org"%string] (after_ms 30 (inr tt)) "starttls").2 -> True).
Proof.
  assert (forall names, let '(r, open, trace) := connect_to names (after_ms 30 (inr tt)) "starttls" in
    (LoginSent ∈ trace -> "mail.example.org"%string ∈ names) /\ (~ "mail.example.org"%string ∈ names -> open = false /\ exists e, r = inl e)) as Hall.
  { intros names. apply (password_reaches_only_its_server (fun _ => true) (fun _ => None) (fun name => name ∈ names)
      (peer names (after_ms 30 (inr tt)))); [|exact ex_config_sane|reflexivity|right; left].
    intros tc Hv H. cbn in H. rewrite Hv in H. cbn [orb] in H. destruct (bool_decide_reflect (ServerName tc ∈ names)) as [Hin|]; [exact Hin|].
    destruct H as [H|H]; discriminate H. }
  split; [|done]. specialize (Hall ["evil.example"%string]). destruct (connect_to _ _ _) as [[r open] trace]. cbn [snd]. intros Hl.
  apply (proj1 Hall) in Hl. rewrite elem_of_cons, elem_of_nil in Hl. by destruct Hl as [Hl|[]].
Defined.
