(* ===== verification/ConfigLoad.v ===== *)
(** Loading the configuration (internal/config/load.go, internal/cli/config_cmd.go):
    defaults, then the file, then the environment, and for every field where its value
    came from, with the secrets shown as fingerprints. *)
From S2P Require Import Prelude GoStrings Retry Text GoParse Blob Config.
From Stdlib Require Import String.
From stdpp Require Import strings gmap list.
Open Scope list_scope.
Open Scope Z_scope.

(** * The fields, as reflection sees them *)

(** A field of a configuration struct with its two tags and how its value prints: a
    value, or a section (no section of the source carries an env tag). *)
Inductive tree :=
| Leaf (toml env : string) (show : Config -> string)
| Struct (toml : string) (fields : list tree).

(** [%v], or [String()] where the type has one. *)
Definition text (get : Config -> string) : Config -> string := get.
Definition number (get : Config -> Z) : Config -> string := fun c => Itoa (get c).
Definition flag (get : Config -> bool) : Config -> string := fun c => if get c then "true"%string else "false"%string.
Definition duration (get : Config -> Z) : Config -> string := fun c => Duration_String (get c).
Definition size (get : Config -> Z) : Config -> string := fun c => ByteSize_String (get c).

Section tags.
#[local] Open Scope string_scope.
#[local] Open Scope list_scope.
Definition IMAP_fields : list tree :=
  [Leaf "plaintext_bind" "IMAP_PLAINTEXT_BIND" (text (PlaintextBind ∘ c_IMAP));
   Leaf "tls_bind" "IMAP_TLS_BIND" (text (TLSBind ∘ c_IMAP));
   Leaf "tls_cert_path" "IMAP_TLS_CERT_PATH" (text (TLSCertPath ∘ c_IMAP));
   Leaf "tls_key_path" "IMAP_TLS_KEY_PATH" (text (TLSKeyPath ∘ c_IMAP));
   Leaf "idle_timeout" "IMAP_IDLE_TIMEOUT" (duration (IdleTimeout ∘ c_IMAP));
   Leaf "command_timeout" "IMAP_COMMAND_TIMEOUT" (duration (IMAP_CommandTimeout ∘ c_IMAP));
   Leaf "max_literal_size" "IMAP_MAX_LITERAL_SIZE" (size (MaxLiteralSize ∘ c_IMAP))].
Definition HTTP_fields : list tree :=
  [Leaf "bind" "HTTP_BIND" (text (Bind ∘ c_HTTP));
   Leaf "metrics_bind" "HTTP_METRICS_BIND" (text (MetricsBind ∘ c_HTTP));
   Leaf "read_timeout" "HTTP_READ_TIMEOUT" (duration (ReadTimeout ∘ c_HTTP));
   Leaf "write_timeout" "HTTP_WRITE_TIMEOUT" (duration (WriteTimeout ∘ c_HTTP));
   Leaf "shutdown_timeout" "HTTP_SHUTDOWN_TIMEOUT" (duration (ShutdownTimeout ∘ c_HTTP))].
Definition DB_fields : list tree :=
  [Leaf "url" "DATABASE_URL" (text (URL ∘ c_DB));
   Leaf "max_conns" "DB_MAX_CONNS" (number (MaxConns ∘ c_DB));
   Leaf "min_conns" "DB_MIN_CONNS" (number (MinConns ∘ c_DB));
   Leaf "conn_max_lifetime" "DB_CONN_MAX_LIFETIME" (duration (ConnMaxLifetime ∘ c_DB));
   Leaf "connect_timeout" "DB_CONNECT_TIMEOUT" (duration (ConnectTimeout ∘ c_DB));
   Leaf "statement_timeout" "DB_STATEMENT_TIMEOUT" (duration (StatementTimeout ∘ c_DB));
   Leaf "auto_migrate" "DB_AUTO_MIGRATE" (flag (AutoMigrate ∘ c_DB))].
Definition Storage_fields : list tree :=
  [Leaf "path" "OBJECT_STORE_PATH" (text (Path ∘ c_Storage));
   Leaf "s3_endpoint" "S3_ENDPOINT" (text (S3Endpoint ∘ c_Storage));
   Leaf "s3_bucket" "S3_BUCKET" (text (S3Bucket ∘ c_Storage));
   Leaf "s3_access_key_id" "S3_ACCESS_KEY_ID" (text (S3AccessKeyID ∘ c_Storage));
   Leaf "s3_secret_access_key" "S3_SECRET_ACCESS_KEY" (text (S3SecretKey ∘ c_Storage));
   Leaf "s3_region" "S3_REGION" (text (S3Region ∘ c_Storage));
   Leaf "s3_force_path_style" "S3_FORCE_PATH_STYLE" (flag (S3ForcePathStyle ∘ c_Storage))].
Definition Upstream_fields : list tree :=
  [Leaf "dial_timeout" "UPSTREAM_DIAL_TIMEOUT" (duration (DialTimeout ∘ c_Upstream));
   Leaf "tls_handshake_timeout" "UPSTREAM_TLS_HANDSHAKE_TIMEOUT" (duration (TLSHandshakeTimeout ∘ c_Upstream));
   Leaf "greeting_timeout" "UPSTREAM_GREETING_TIMEOUT" (duration (GreetingTimeout ∘ c_Upstream));
   Leaf "io_idle_timeout" "UPSTREAM_IO_IDLE_TIMEOUT" (duration (IOIdleTimeout ∘ c_Upstream));
   Leaf "command_timeout" "UPSTREAM_COMMAND_TIMEOUT" (duration (CommandTimeout ∘ c_Upstream));
   Leaf "fetch_metadata_timeout" "UPSTREAM_FETCH_METADATA_TIMEOUT" (duration (FetchMetadataTimeout ∘ c_Upstream));
   Leaf "fetch_body_timeout" "UPSTREAM_FETCH_BODY_TIMEOUT" (duration (FetchBodyTimeout ∘ c_Upstream));
   Leaf "tcp_user_timeout" "UPSTREAM_TCP_USER_TIMEOUT" (duration (TCPUserTimeout ∘ c_Upstream));
   Leaf "tcp_keepalive" "UPSTREAM_TCP_KEEPALIVE" (duration (TCPKeepAlive ∘ c_Upstream));
   Leaf "retry_max_attempts" "UPSTREAM_RETRY_MAX_ATTEMPTS" (number (RetryMaxAttempts ∘ c_Upstream));
   Leaf "retry_base_delay" "UPSTREAM_RETRY_BASE_DELAY" (duration (RetryBaseDelay ∘ c_Upstream));
   Leaf "retry_max_delay" "UPSTREAM_RETRY_MAX_DELAY" (duration (RetryMaxDelay ∘ c_Upstream));
   Leaf "prefer_qresync" "UPSTREAM_PREFER_QRESYNC" (flag (PreferQResync ∘ c_Upstream));
   Leaf "prefer_condstore" "UPSTREAM_PREFER_CONDSTORE" (flag (PreferCondStore ∘ c_Upstream));
   Leaf "insecure_skip_verify" "UPSTREAM_INSECURE_SKIP_VERIFY" (flag (InsecureSkipVerify ∘ c_Upstream))].
Definition Sync_fields : list tree :=
  [Leaf "enabled" "SYNC_ENABLED" (flag (Sync_Enabled ∘ c_Sync));
   Leaf "interval" "SYNC_INTERVAL" (duration (Interval ∘ c_Sync));
   Leaf "accounts_concurrent" "SYNC_ACCOUNTS_CONCURRENT" (number (AccountsConcurrent ∘ c_Sync));
   Leaf "connections_per_account" "SYNC_CONNECTIONS_PER_ACCOUNT" (number (ConnectionsPerAccount ∘ c_Sync));
   Leaf "metadata_batch_uids" "SYNC_METADATA_BATCH_UIDS" (number (MetadataBatchUIDs ∘ c_Sync));
   Leaf "metadata_batch_messages" "SYNC_METADATA_BATCH_MESSAGES" (number (MetadataBatchMessages ∘ c_Sync));
   Leaf "body_batch_bytes" "SYNC_BODY_BATCH_BYTES" (size (BodyBatchBytes ∘ c_Sync));
   Leaf "body_batch_max_msgs" "SYNC_BODY_BATCH_MAX_MSGS" (number (BodyBatchMaxMsgs ∘ c_Sync));
   Leaf "body_max_inline_bytes" "SYNC_BODY_MAX_INLINE_BYTES" (size (BodyMaxInlineBytes ∘ c_Sync));
   Leaf "body_max_attempts" "SYNC_BODY_MAX_ATTEMPTS" (number (BodyMaxAttempts ∘ c_Sync));
   Leaf "deletion_scan_every" "SYNC_DELETION_SCAN_EVERY" (number (DeletionScanEvery ∘ c_Sync));
   Leaf "max_run_duration" "SYNC_MAX_RUN_DURATION" (duration (MaxRunDuration ∘ c_Sync));
   Leaf "claim_reap_after" "SYNC_CLAIM_REAP_AFTER" (duration (ClaimReapAfter ∘ c_Sync));
   Leaf "heartbeat_interval" "SYNC_HEARTBEAT_INTERVAL" (duration (HeartbeatInterval ∘ c_Sync))].
Definition Web_fields : list tree :=
  [Leaf "enabled" "WEB_ENABLED" (flag (Web_Enabled ∘ c_Web));
   Leaf "session_ttl" "WEB_SESSION_TTL" (duration (SessionTTL ∘ c_Web));
   Leaf "secure_cookies" "WEB_SECURE_COOKIES" (flag (SecureCookies ∘ c_Web));
   Leaf "pprof" "WEB_PPROF" (flag (PProf ∘ c_Web))].
Definition Search_fields : list tree :=
  [Leaf "backend" "SEARCH_BACKEND" (text (Backend ∘ c_Search));
   Leaf "language" "SEARCH_LANGUAGE" (text (Language ∘ c_Search));
   Leaf "max_indexed_body_bytes" "SEARCH_MAX_INDEXED_BODY_BYTES" (size (MaxIndexedBodyBytes ∘ c_Search))].
Definition Limits_fields : list tree :=
  [Leaf "max_message_size" "MAX_MESSAGE_SIZE" (size (MaxMessageSize ∘ c_Limits));
   Leaf "default_account_quota" "DEFAULT_ACCOUNT_QUOTA" (size (DefaultAccountQuota ∘ c_Limits));
   Leaf "login_rate_limit_failures" "LOGIN_RATE_LIMIT_FAILURES" (number (LoginRateLimitFailures ∘ c_Limits));
   Leaf "login_rate_limit_lockout" "LOGIN_RATE_LIMIT_LOCKOUT" (duration (LoginRateLimitLockout ∘ c_Limits))].
Definition Bootstrap_fields : list tree :=
  [Leaf "email" "BOOTSTRAP_EMAIL" (text (Boot_Email ∘ c_Bootstrap));
   Leaf "password" "BOOTSTRAP_PASSWORD" (text (Boot_Password ∘ c_Bootstrap))].
Definition config_tree : list tree :=
  [Leaf "app_env" "APP_ENV" (text AppEnv);
   Leaf "app_base_url" "APP_BASE_URL" (text AppBaseURL);
   Leaf "log_level" "LOG_LEVEL" (text LogLevel);
   Leaf "log_format" "LOG_FORMAT" (text LogFormat);
   Leaf "encryption_master_key" "ENCRYPTION_MASTER_KEY" (text EncryptionMasterKey);
   Struct "imap" IMAP_fields;
   Struct "http" HTTP_fields;
   Struct "db" DB_fields;
   Struct "storage" Storage_fields;
   Struct "upstream" Upstream_fields;
   Struct "sync" Sync_fields;
   Struct "web" Web_fields;
   Struct "search" Search_fields;
   Struct "limits" Limits_fields;
   Struct "bootstrap" Bootstrap_fields].
End tags.

(** * Walking the fields *)

Definition is_space (c : ascii) : bool :=
  let n := nat_of_ascii c in ((n =? 32) || ((9 <=? n) && (n <=? 13)))%nat.
Fixpoint trim_left (l : list ascii) : list ascii :=
  match l with c :: l' => if is_space c then trim_left l' else l | [] => [] end.
(** [strings.TrimSpace] and [strings.ToUpper] on the ASCII text of a tag. *)
Definition TrimSpace (s : string) : string :=
  string_of_list_ascii (rev (trim_left (rev (trim_left (list_ascii_of_string s))))).
Definition upper_ascii (c : ascii) : ascii :=
  let n := nat_of_ascii c in if ((97 <=? n) && (n <=? 122))%nat then ascii_of_nat (n - 32) else c.
Fixpoint ToUpper (s : string) : string :=
  match s with EmptyString => EmptyString | String c s => String (upper_ascii c) (ToUpper s) end.

(** The variable names of an env tag; the option words are in lower case. *)
Definition env_vars (tag : string) : list string :=
  if String.eqb tag "" then [] else
  List.filter (fun part => negb (String.eqb part "") && String.eqb (ToUpper part) part)
    (map TrimSpace (Split_comma tag "")).

Definition join_path (prefix name : string) : string :=
  if String.eqb prefix "" then name else (prefix ++ "." ++ name)%string.
Definition tagged (toml : string) : bool := negb (String.eqb toml "" || String.eqb toml "-").
Definition tag_name (toml : string) : string := hd ""%string (Split_comma toml "").

Record visited := mk_visited { v_path : string; v_env : list string; v_show : Config -> string }.
Fixpoint walk (prefix : string) (t : tree) : list visited :=
  match t with
  | Leaf toml env show =>
      if tagged toml then [mk_visited (join_path prefix (tag_name toml)) (env_vars env) show] else []
  | Struct toml fields =>
      if tagged toml then flat_map (walk (join_path prefix (tag_name toml))) fields else []
  end.
Definition walkFields : list visited := flat_map (walk "") config_tree.

(** * The environment *)

Fixpoint Cut_eq (s before : string) : option (string * string) :=
  match s with
  | EmptyString => None
  | String "=" s => Some (before, s)
  | String c s => Cut_eq s (before ++ String c "")
  end%string.

Definition envAliases : list (string * list string) :=
  [("S3_ENDPOINT", ["R2_ENDPOINT"]); ("S3_BUCKET", ["R2_BUCKET"]); ("S3_ACCESS_KEY_ID", ["R2_ACCESS_KEY_ID"]);
   ("S3_SECRET_ACCESS_KEY", ["R2_SECRET_ACCESS_KEY"]); ("S3_REGION", ["R2_REGION"])]%string.

Definition add_entry (env : gmap string string) (entry : string) : gmap string string :=
  match Cut_eq entry "" with Some (key, value) => <[key := value]> env | None => env end.
Definition snapshot (environ : list string) : gmap string string := fold_left add_entry environ ∅.

(** The first legacy name that is set stands in for a canonical name that is not. *)
Definition resolve_alias (st : gmap string string * gmap string string) (alias : string * list string)
    : gmap string string * gmap string string :=
  let '(env, aliasUsed) := st in
  let '(canonical, legacy) := alias in
  match env !! canonical with
  | Some _ => st
  | None =>
      match list_find (fun name => is_Some (env !! name)) legacy with
      | Some (_, name) =>
          match env !! name with
          | Some value => (<[canonical := value]> env, <[canonical := name]> aliasUsed)
          | None => st
          end
      | None => st
      end
  end.
(** [aliases] is [envAliases] in the order Go visits the map. *)
Definition buildEnvironment (aliases : list (string * list string)) (environ : list string)
    : gmap string string * gmap string string :=
  fold_left resolve_alias aliases (snapshot environ, ∅).

Definition alias_of (aliasUsed : gmap string string) (name : string) : string := default name (aliasUsed !! name).
(** The name a field is reported under: the first of its variables that is set, by the
    deprecated name that supplied it if one did. *)
Definition env_present (environ aliasUsed : gmap string string) (v : visited) : option string :=
  (fun p => alias_of aliasUsed p.2) <$> list_find (fun name => is_Some (environ !! name)) (v_env v).
Definition note_present (environ aliasUsed present : gmap string string) (v : visited) : gmap string string :=
  match env_present environ aliasUsed v with Some name => <[v_path v := name]> present | None => present end.
Definition envVarsPresent (environ aliasUsed : gmap string string) : gmap string string :=
  fold_left (note_present environ aliasUsed) walkFields ∅.

(** * Where each value came from *)

Inductive Source := SourceDefault | SourceFile | SourceEnv.
Record Field := mk_Field { TOMLPath : string; EnvVar : string; Value : string; f_Source : Source; Secret : bool }.
Record Result := mk_Result { r_Config : Config; Fields : list Field; FilePath : string; FileLoaded : bool }.

Definition secretTOMLPaths : list string :=
  ["encryption_master_key"; "db.url"; "storage.s3_secret_access_key"; "storage.s3_access_key_id"; "bootstrap.password"]%string.

Section load.
(** SHA-256, as bytes. *)
Variable Sum256 : string -> list Z.

Definition Fingerprint (secret : string) : string :=
  if String.eqb secret "" then "" else ("sha256:" ++ hex_encode (firstn 4 (Sum256 secret)))%string.

Definition renderValue (str : string) (secret : bool) : string :=
  if negb secret || String.eqb str "" then str else Fingerprint str.

Definition field_of (cfg : Config) (fileKeys : list string) (envSet : gmap string string) (v : visited) : Field :=
  let path := v_path v in
  let secret := one_of path secretTOMLPaths in
  let value := renderValue (v_show v cfg) secret in
  match envSet !! path with
  | Some name => mk_Field path name value SourceEnv secret
  | None => mk_Field path (hd ""%string (v_env v)) value (if one_of path fileKeys then SourceFile else SourceDefault) secret
  end.
Definition provenance (cfg : Config) (fileKeys : list string) (envSet : gmap string string) : list Field :=
  map (field_of cfg fileKeys envSet) walkFields.

(** * Loading *)

(** The operating system, the TOML decoder (the configuration, the keys of the file it
    did not use and all its keys) and the environment parser. *)
Variable stat : string -> option err.
Variable ReadFile : string -> err + string.
Variable IsNotExist : err -> bool.
Variable Decode : string -> Config -> err + (Config * list string * list string).
Variable ParseWithOptions : Config -> gmap string string -> err + Config.

Definition decodeFile (path : string) (cfg : Config) : err + (Config * list string) :=
  match ReadFile path with
  | inl e => inl e
  | inr data =>
      match Decode data cfg with
      | inl e => inl (ErrWrap ("parsing " ++ path ++ ": ") e "")
      | inr (_, (_ :: _) as undecoded, _) =>
          inl (ErrText ("parsing " ++ path ++ ": unknown configuration "
            ++ plural (length undecoded) "key" "keys" ++ ": " ++ GoStrings.Join (sorted undecoded) ", "))
      | inr (cfg, [], keys) => inr (cfg, keys)
      end
  end%string.

Definition DefaultFilePaths : list string := ["./imapped.toml"; "/etc/imapped/config.toml"]%string.
Definition exists_file (path : string) : bool := match stat path with None => true | Some _ => false end.

(** [os.IsNotExist] looks at the error itself, not at what an [fmt.Errorf] wrapper holds. *)
Definition not_exist (e : err) : bool :=
  match e with ErrWrap _ _ _ | ErrText _ => false | _ => IsNotExist e end.

(** The file to read, and whether it has to exist. *)
Definition choose_path (explicitPath : string) (IMAPPED_CONFIG : string) : string * bool :=
  if negb (String.eqb explicitPath "") then (explicitPath, true)
  else if negb (String.eqb IMAPPED_CONFIG "") then (IMAPPED_CONFIG, true)
  else (hd ""%string (List.filter exists_file DefaultFilePaths), false).

(** The configuration after the file, the keys the file set, and its path. *)
Definition after_file (path : string) (mustExist : bool) : err + (Config * list string * string * bool) :=
  if String.eqb path "" then inr (Default, [], ""%string, false) else
  match decodeFile path Default with
  | inr (cfg, keys) => inr (cfg, keys, path, true)
  | inl e => if not_exist e && negb mustExist then inr (Default, [], ""%string, false) else inl e
  end.

Definition Load (aliases : list (string * list string)) (environ : list string) (explicitPath : string) : err + Result :=
  let '(path, mustExist) := choose_path explicitPath (default ""%string (snapshot environ !! "IMAPPED_CONFIG"%string)) in
  match after_file path mustExist with
  | inl e => inl e
  | inr (cfg, fileKeys, filePath, loaded) =>
      let '(env, aliasUsed) := buildEnvironment aliases environ in
      let envSet := envVarsPresent env aliasUsed in
      match ParseWithOptions cfg env with
      | inl e => inl (ErrWrap "reading configuration from environment: " e "")
      | inr cfg => inr (mk_Result cfg (provenance cfg fileKeys envSet) filePath loaded)
      end
  end.

(** [MustLoad]: what the server starts from. *)
Definition MustLoad (ParseIP : list ascii -> bool) (visit : forall A : Type, list A -> list A)
    (aliases : list (string * list string)) (environ : list string) (explicitPath : string) : (err + list err) + Result :=
  match Load aliases environ explicitPath with
  | inl e => inl (inl e)
  | inr res => match Validate ParseIP stat visit (r_Config res) with Some ps => inl (inr ps) | None => inr res end
  end.

(** * Showing it ([imapped config show]) *)

Definition source_text (f : Field) : string :=
  match f_Source f with
  | SourceEnv => if String.eqb (EnvVar f) "" then "env" else ("env:" ++ EnvVar f)%string
  | SourceFile => "file"
  | SourceDefault => "default"
  end.
Definition is_default (s : Source) : bool := match s with SourceDefault => true | _ => false end.
Definition shown_row (f : Field) : string * string * string :=
  (TOMLPath f, if String.eqb (Value f) "" then "-"%string else Value f, source_text f).
(** [by_path] sorts the fields by path; the rows, and how many of how many. *)
Definition writeFields (by_path : list Field -> list Field) (res : Result) (showAll : bool)
    : list (string * string * string) * (nat * nat) :=
  let fields := by_path (Fields res) in
  let rows := map shown_row (List.filter (fun f => showAll || negb (is_default (f_Source f))) fields) in
  (rows, (length rows, length fields)).
End load.

Example walk_fields_count : length walkFields = 73%nat.
Proof. vm_compute. reflexivity. Qed.
