(* ===== verification/ConfigLoadProps.v ===== *)
(** What loading promises: the environment and its deprecated names resolve the same
    way in any order, every field is reported with where its value came from, and no
    secret is ever shown. *)
From S2P Require Import Prelude GoStrings Retry Blob Config ConfigLoad.
From Stdlib Require Import String.
From stdpp Require Import strings gmap list.
Open Scope list_scope.
Open Scope Z_scope.

(** * The deprecated names *)

Definition legacy_of (aliases : list (string * list string)) (name : string) : list string :=
  match list_find (fun a => a.1 = name) aliases with Some (_, a) => a.2 | None => [] end.

(** The variable that supplies a canonical name: itself, or a deprecated one. *)
Definition supplied (env : gmap string string) (legacy : list string) (name : string) : option string :=
  match env !! name with
  | Some _ => Some name
  | None => snd <$> list_find (fun l => is_Some (env !! l)) legacy
  end.

(** The aliases of a table: no name twice, and no deprecated name that is canonical. *)
Definition aliases_ok (aliases : list (string * list string)) : Prop :=
  NoDup (map fst aliases) /\ (forall l, l ∈ concat (map snd aliases) -> l ∉ map fst aliases).

Lemma envAliases_ok aliases : aliases ≡ₚ envAliases -> aliases_ok aliases.
Proof.
  intros H. unfold aliases_ok.
  assert (map fst aliases ≡ₚ map fst envAliases) as Hf by (by rewrite H).
  assert (concat (map snd aliases) ≡ₚ concat (map snd envAliases)) as Hc by (by rewrite H).
  split; [rewrite Hf; refine (bool_decide_unpack _ _); vm_compute; exact I|].
  intros l. rewrite Hf, Hc.
  assert (Forall (fun l => l ∉ map fst envAliases) (concat (map snd envAliases))) as Hall
    by (refine (bool_decide_unpack _ _); vm_compute; exact I).
  rewrite Forall_forall in Hall. apply Hall.
Qed.
Lemma legacy_of_perm aliases name : aliases ≡ₚ envAliases -> legacy_of aliases name = legacy_of envAliases name.
Proof.
  intros H. unfold legacy_of.
  assert (forall a, a ∈ aliases <-> a ∈ envAliases) as Hin by (intros; by rewrite H).
  assert (forall l a b, aliases_ok l -> a ∈ l -> b ∈ l -> a.1 = b.1 -> a = b) as Huniq.
  { clear. intros l a b [Hnd _]. induction l as [|x l IH]; [by intros ?%not_elem_of_nil|].
    cbn in Hnd. apply NoDup_cons in Hnd as [Hx Hnd]. rewrite !elem_of_cons.
    intros [->|Ha] [->|Hb] E; [done| | |by apply IH].
    - destruct Hx. rewrite E. apply list_elem_of_In, in_map_iff. exists b. by rewrite <- list_elem_of_In.
    - destruct Hx. rewrite <- E. apply list_elem_of_In, in_map_iff. exists a. by rewrite <- list_elem_of_In. }
  destruct (list_find (fun a => a.1 = name) aliases) as [[i a]|] eqn:Ea.
  - apply list_find_Some in Ea as (Ha & Hn & _). apply list_elem_of_lookup_2 in Ha.
    destruct (list_find (fun a => a.1 = name) envAliases) as [[j b]|] eqn:Eb.
    + apply list_find_Some in Eb as (Hb & Hm & _). apply list_elem_of_lookup_2 in Hb.
      f_equal. apply (Huniq envAliases); [by apply envAliases_ok|by apply Hin|done|congruence].
    + apply list_find_None in Eb. rewrite Forall_forall in Eb. destruct (Eb a); [by apply Hin|done].
  - apply list_find_None in Ea. rewrite Forall_forall in Ea.
    destruct (list_find (fun a => a.1 = name) envAliases) as [[j b]|] eqn:Eb; [|done].
    apply list_find_Some in Eb as (Hb & Hm & _). apply list_elem_of_lookup_2 in Hb.
    destruct (Ea b); [by apply Hin|done].
Qed.

(** ** What the loop leaves *)

Section resolution.
Variable env0 : gmap string string.

(** After a table of aliases, names that are no canonical name of it are as they were,
    and a canonical name has the value of the name that supplies it. *)
Definition resolved (aliases : list (string * list string)) (st : gmap string string * gmap string string) : Prop :=
  forall name,
    (forall legacy, (name, legacy) ∈ aliases ->
       st.1 !! name = (supplied env0 legacy name ≫= fun n => env0 !! n) /\
       st.2 !! name = (if decide (is_Some (env0 !! name)) then None else supplied env0 legacy name)) /\
    (name ∉ map fst aliases -> st.1 !! name = env0 !! name /\ st.2 !! name = None).

Lemma list_find_agree (env : gmap string string) legacy :
  (forall l, l ∈ legacy -> env !! l = env0 !! l) ->
  list_find (fun l => is_Some (env !! l)) legacy = list_find (fun l => is_Some (env0 !! l)) legacy.
Proof.
  induction legacy as [|l legacy IH]; intros H; cbn; [done|].
  rewrite IH by (intros; apply H; by right). rewrite (H l) by left. done.
Qed.

Lemma resolve_alias_lookup env used canonical legacy :
  env !! canonical = env0 !! canonical -> used !! canonical = None ->
  (forall l, l ∈ legacy -> env !! l = env0 !! l) ->
  let st := resolve_alias (env, used) (canonical, legacy) in
  (st.1 !! canonical = (supplied env0 legacy canonical ≫= fun n => env0 !! n) /\
   st.2 !! canonical = if decide (is_Some (env0 !! canonical)) then None else supplied env0 legacy canonical) /\
  forall name, name <> canonical -> st.1 !! name = env !! name /\ st.2 !! name = used !! name.
Proof.
  intros Hc Hu Hl. unfold resolve_alias, supplied. cbv zeta. rewrite (list_find_agree env legacy Hl), Hc.
  destruct (env0 !! canonical) as [v|] eqn:E0; cbn.
  { rewrite Hc, E0. by rewrite decide_True by by eexists. }
  rewrite decide_False by (intros [? ?]; done).
  destruct (list_find _ legacy) as [[i l]|] eqn:El; cbn; [|by rewrite Hc].
  apply list_find_Some in El as (Hin & [v Hv] & _). apply list_elem_of_lookup_2 in Hin.
  rewrite (Hl l Hin), Hv. cbn. rewrite !lookup_insert_eq. split; [done|].
  intros name Hne. by rewrite !lookup_insert_ne.
Qed.

Lemma resolve_step aliases alias st :
  aliases_ok (aliases ++ [alias]) -> resolved aliases st -> resolved (aliases ++ [alias]) (resolve_alias st alias).
Proof.
  intros [Hnd Hleg] Hst. destruct st as [env used], alias as [canonical legacy].
  rewrite map_app, NoDup_app in Hnd. destruct Hnd as (Hnd & Hdis & _).
  assert (canonical ∉ map fst aliases) as Hcan.
  { intros Hin. apply (Hdis _ Hin). cbn. by left. }
  destruct (proj2 (Hst canonical) Hcan) as [Hc Hu].
  destruct (resolve_alias_lookup env used canonical legacy Hc Hu) as [Hown Hother].
  { intros l Hin. apply (Hst l). intros Hf. apply (Hleg l).
    - rewrite map_app, concat_app, elem_of_app. right. cbn. by rewrite app_nil_r.
    - rewrite map_app, elem_of_app. by left. }
  intros name. destruct (decide (name = canonical)) as [->|Hne].
  - split; [|intros []; rewrite map_app, elem_of_app; right; by left].
    intros legacy' [Hin| ->%list_elem_of_singleton%(inj (pair canonical))]%elem_of_app; [|done].
    destruct Hcan. apply list_elem_of_In, in_map_iff. exists (canonical, legacy'). by rewrite <- list_elem_of_In.
  - destruct (Hother name Hne) as [-> ->]. split.
    + intros legacy' [Hin|[=]%list_elem_of_singleton]%elem_of_app; [by apply Hst|done].
    + intros Hn. apply Hst. intros Hin. apply Hn. rewrite map_app, elem_of_app. by left.
Qed.

Lemma resolve_all done_ aliases st :
  aliases_ok (done_ ++ aliases) -> resolved done_ st -> resolved (done_ ++ aliases) (fold_left resolve_alias aliases st).
Proof.
  revert done_ st. induction aliases as [|a aliases IH]; intros done_ st Hok Hst; cbn; [by rewrite app_nil_r|].
  rewrite cons_middle, app_assoc in *. apply IH; [done|]. apply resolve_step; [|done].
  destruct Hok as [Hnd Hleg]. rewrite map_app, NoDup_app in Hnd. destruct Hnd as (Hnd & _ & _). split; [done|].
  intros l Hl Hf. apply (Hleg l); rewrite map_app, ?concat_app, elem_of_app; by left.
Qed.
End resolution.

Lemma buildEnvironment_resolved aliases environ :
  aliases ≡ₚ envAliases -> resolved (snapshot environ) aliases (buildEnvironment aliases environ).
Proof.
  intros H. unfold buildEnvironment. apply (resolve_all _ [] aliases); [by apply envAliases_ok|].
  intros name. split; [by intros ? ?%not_elem_of_nil|done].
Qed.

(** * The table of fields *)

Lemma walk_paths : NoDup (map v_path walkFields).
Proof. refine (bool_decide_unpack _ _); vm_compute; exact I. Qed.
Lemma walk_variables : Forall (fun v => length (v_env v) = 1%nat) walkFields.
Proof. refine (bool_decide_unpack _ _); vm_compute; exact I. Qed.

Lemma legacy_of_elem name legacy :
  (name, legacy) ∈ envAliases -> legacy_of envAliases name = legacy.
Proof.
  unfold envAliases. rewrite !elem_of_cons, elem_of_nil. intros H.
  repeat (destruct H as [H|H]; [by inversion H; subst|]). done.
Qed.
Lemma legacy_of_none name : name ∉ map fst envAliases -> legacy_of envAliases name = [].
Proof.
  intros H. unfold legacy_of. destruct (list_find _ _) as [[i a]|] eqn:E; [|done].
  apply list_find_Some in E as (Ha & <- & _). destruct H. apply list_elem_of_lookup_2 in Ha.
  apply list_elem_of_In, in_map_iff. exists a. by rewrite <- list_elem_of_In.
Qed.

(** ** The environment the fields are read from *)

Definition supplier (environ : list string) (name : string) : option string :=
  supplied (snapshot environ) (legacy_of envAliases name) name.

Lemma built_lookup aliases environ name :
  aliases ≡ₚ envAliases ->
  let '(env, used) := buildEnvironment aliases environ in
  env !! name = (supplier environ name ≫= fun n => snapshot environ !! n) /\
  (is_Some (env !! name) -> Some (alias_of used name) = supplier environ name).
Proof.
  intros Hp. pose proof (buildEnvironment_resolved aliases environ Hp name) as [Hin Hout].
  destruct (buildEnvironment aliases environ) as [env used]. cbn in Hin, Hout.
  unfold supplier. assert (forall l, (name, l) ∈ aliases <-> (name, l) ∈ envAliases) as Heq by (intros; by rewrite Hp).
  destruct (decide (name ∈ map fst aliases)) as [Hc|Hc].
  - apply list_elem_of_In, in_map_iff in Hc as ([n l] & <- & Hl). apply list_elem_of_In in Hl.
    cbn [fst] in *. destruct (Hin l Hl) as [-> Hu]. rewrite (legacy_of_elem n l) by by apply Heq. split; [done|].
    unfold alias_of. rewrite Hu. unfold supplied. destruct (snapshot environ !! n) eqn:E; cbn.
    + by rewrite decide_True by by eexists.
    + rewrite decide_False by (intros [? ?]; done). destruct (list_find _ l) as [[i x]|]; cbn; [done|by intros []].
  - destruct (Hout Hc) as [-> Hu]. rewrite legacy_of_none by (by rewrite <- Hp). unfold alias_of. rewrite Hu.
    unfold supplied. cbn. destruct (snapshot environ !! name) eqn:E; cbn; [by rewrite E|by split; [|intros []]].
Qed.

Lemma supplied_is_set env legacy name n : supplied env legacy name = Some n -> is_Some (env !! n).
Proof.
  unfold supplied. destruct (env !! name) eqn:E; [intros [= <-]; by eexists|].
  destruct (list_find _ legacy) as [[i x]|] eqn:El; [|done]. cbn. intros [= <-].
  by apply list_find_Some in El as (_ & ? & _).
Qed.

Lemma env_present_supplier aliases environ v name :
  aliases ≡ₚ envAliases -> v_env v = [name] ->
  (let '(env, used) := buildEnvironment aliases environ in env_present env used v) = supplier environ name.
Proof.
  intros Hp Hv. pose proof (built_lookup aliases environ name Hp) as Hb.
  destruct (buildEnvironment aliases environ) as [env used]. destruct Hb as [Henv Hal].
  unfold env_present. rewrite Hv. cbn. destruct (decide (is_Some (env !! name))) as [Hs|Hs]; cbn.
  - by rewrite Hal.
  - destruct (supplier environ name) as [n|] eqn:E; [|done]. exfalso. apply Hs. rewrite Henv. cbn.
    by apply supplied_is_set in E.
Qed.

Lemma present_lookup env used l v m :
  NoDup (map v_path l) -> v ∈ l ->
  fold_left (note_present env used) l m !! v_path v = match env_present env used v with Some name => Some name | None => m !! v_path v end.
Proof.
  revert m. induction l as [|x l IH]; intros m Hnd; [by intros ?%not_elem_of_nil|].
  cbn in Hnd. apply NoDup_cons in Hnd as [Hx Hnd].
  assert (forall m', v_path v ∉ map v_path l -> fold_left (note_present env used) l m' !! v_path v = m' !! v_path v) as Hout.
  { clear. induction l as [|y l IH]; intros m' Hn; cbn in *; [done|]. rewrite not_elem_of_cons in Hn. destruct Hn.
    rewrite IH by done. unfold note_present. destruct (env_present env used y); [|done]. by rewrite lookup_insert_ne. }
  intros [->|Hin]%elem_of_cons; cbn.
  - rewrite Hout by done. unfold note_present. destruct (env_present env used x); [by rewrite lookup_insert_eq|done].
  - rewrite IH by done. destruct (env_present env used v); [done|]. unfold note_present.
    destruct (env_present env used x); [|done]. rewrite lookup_insert_ne; [done|].
    intros E. apply Hx. rewrite E. apply list_elem_of_In, in_map_iff. exists v. by rewrite <- list_elem_of_In.
Qed.

Lemma envVarsPresent_lookup aliases environ v name :
  aliases ≡ₚ envAliases -> v ∈ walkFields -> v_env v = [name] ->
  (let '(env, used) := buildEnvironment aliases environ in envVarsPresent env used) !! v_path v = supplier environ name.
Proof.
  intros Hp Hv Hn. pose proof (env_present_supplier aliases environ v name Hp Hn) as H.
  destruct (buildEnvironment aliases environ) as [env used].
  unfold envVarsPresent. rewrite present_lookup; [|apply walk_paths|done]. rewrite H. by destruct (supplier environ name).
Qed.

Lemma built_any_order aliases1 aliases2 environ :
  aliases1 ≡ₚ envAliases -> aliases2 ≡ₚ envAliases ->
  buildEnvironment aliases1 environ = buildEnvironment aliases2 environ.
Proof.
  intros H1 H2.
  pose proof (buildEnvironment_resolved aliases1 environ H1) as R1.
  pose proof (buildEnvironment_resolved aliases2 environ H2) as R2.
  destruct (buildEnvironment aliases1 environ) as [e1 u1], (buildEnvironment aliases2 environ) as [e2 u2].
  cbn in R1, R2.
  assert (forall name, e1 !! name = e2 !! name /\ u1 !! name = u2 !! name) as H.
  { intros name. destruct (R1 name) as [I1 O1], (R2 name) as [I2 O2].
    destruct (decide (name ∈ map fst envAliases)) as [Hc|Hc].
    - apply list_elem_of_In, in_map_iff in Hc as ([n l] & <- & Hl). apply list_elem_of_In in Hl.
      cbn [fst snd] in *. destruct (I1 l) as [-> ->]; [by rewrite H1|]. by destruct (I2 l) as [-> ->]; [by rewrite H2|].
    - cbn [fst snd] in *. destruct O1 as [-> ->]; [by rewrite H1|]. by destruct O2 as [-> ->]; [by rewrite H2|]. }
  f_equal; apply map_eq; intros name; apply H.
Qed.

Lemma length_append s t : String.length (s ++ t) = (String.length s + String.length t)%nat.
Proof. induction s as [|c s IH]; [done|]. exact (f_equal S IH). Qed.
Lemma hex_encode_length l : String.length (hex_encode l) = (2 * length l)%nat.
Proof. induction l as [|b l IH]; cbn; [done|]. rewrite IH. lia. Qed.

(** * Properties *)


Section loading.
Variable Sum256 : string -> list Z.
Variable stat : string -> option err.
Variable ReadFile : string -> err + string.
Variable IsNotExist : err -> bool.
Variable Decode : string -> Config -> err + (Config * list string * list string).
Variable ParseWithOptions : Config -> gmap string string -> err + Config.

Lemma Load_inr aliases environ explicitPath res :
  Load Sum256 stat ReadFile IsNotExist Decode ParseWithOptions aliases environ explicitPath = inr res ->
  exists keys, (FileLoaded res = false -> keys = []) /\
    Fields res = provenance Sum256 (r_Config res) keys
      (let '(env, used) := buildEnvironment aliases environ in envVarsPresent env used).
Proof.
  unfold Load. destruct (choose_path _ _ _) as [path mustExist]. cbv zeta.
  destruct (after_file _ _ _ _ _) as [e|[[[cfg keys] filePath] loaded]] eqn:Ef; [done|].
  destruct (buildEnvironment aliases environ) as [env used].
  destruct (ParseWithOptions cfg env) as [e|cfg']; [done|]. intros [= <-]. cbn. exists keys. split; [|done].
  intros ->. unfold after_file in Ef. destruct (String.eqb path ""); [by injection Ef|].
  destruct (decodeFile _ _ _ _) as [e|[? ?]]; [|done]. by destruct (_ && _); [injection Ef|].
Qed.

(** Every setting is reported once, under the variable of its own or the deprecated
    one that supplied it; it is said to come from the environment exactly when one of
    them is set (the canonical name first), and from the file only if a file was read. *)
Theorem load_reports_sources aliases environ explicitPath res :
  aliases ≡ₚ envAliases ->
  Load Sum256 stat ReadFile IsNotExist Decode ParseWithOptions aliases environ explicitPath = inr res ->
  map TOMLPath (Fields res) = map v_path walkFields /\
  forall f, f ∈ Fields res -> exists v name, v ∈ walkFields /\ TOMLPath f = v_path v /\ v_env v = [name] /\
    EnvVar f = default name (supplier environ name) /\
    (f_Source f = SourceEnv <-> is_Some (supplier environ name)) /\
    (f_Source f = SourceFile -> FileLoaded res = true).
Proof.
  intros Hp HL. apply Load_inr in HL as (keys & Hk & ->). unfold provenance. split.
  { rewrite map_map. apply map_ext. intros v. unfold field_of. by destruct (_ !! _). }
  intros f (v & <- & Hv)%list_elem_of_In%in_map_iff. apply list_elem_of_In in Hv.
  pose proof walk_variables as Hone. rewrite Forall_forall in Hone.
  specialize (Hone v Hv). destruct (v_env v) as [|name [|]] eqn:En; try done.
  pose proof (envVarsPresent_lookup aliases environ v name Hp Hv En) as Hs.
  exists v, name. unfold field_of. rewrite Hs, En.
  destruct (supplier environ name) as [n|]; cbn; split_and!; try done.
  - split; [by destruct (one_of _ _)|by intros []].
  - destruct (FileLoaded res); [done|]. by rewrite (Hk eq_refl).
Qed.


(** What is loaded does not depend on the order in which Go visits the table of
    deprecated names. *)
Theorem load_any_order aliases1 aliases2 environ explicitPath :
  aliases1 ≡ₚ envAliases -> aliases2 ≡ₚ envAliases ->
  Load Sum256 stat ReadFile IsNotExist Decode ParseWithOptions aliases1 environ explicitPath =
  Load Sum256 stat ReadFile IsNotExist Decode ParseWithOptions aliases2 environ explicitPath.
Proof. intros H1 H2. unfold Load. by rewrite (built_any_order aliases1 aliases2 environ H1 H2). Qed.

(** Which file is read, and what a missing one does: a path given on the command
    line wins over IMAPPED_CONFIG, which wins over the probed paths; a named file that
    cannot be read, or that holds a key the program does not know, stops the start; a
    probed file that vanishes is as if there were none. *)
Theorem load_file_policy aliases environ explicitPath e data cfg k ks keys :
  let IMAPPED_CONFIG := default ""%string (snapshot environ !! "IMAPPED_CONFIG"%string) in
  let named := if String.eqb explicitPath "" then IMAPPED_CONFIG else explicitPath in
  let load := Load Sum256 stat ReadFile IsNotExist Decode ParseWithOptions aliases environ explicitPath in
  (named <> ""%string -> ReadFile named = inl e -> load = inl e) /\
  (named <> ""%string -> ReadFile named = inr data -> Decode data Default = inr (cfg, k :: ks, keys) ->
     exists text, load = inl (ErrText text)) /\
  (named = ""%string -> (forall path, path ∈ DefaultFilePaths -> ReadFile path = inl e) ->
     not_exist IsNotExist e = true ->
     match load with inr res => FileLoaded res = false /\ FilePath res = ""%string | inl _ =>
       exists e', ParseWithOptions Default (buildEnvironment aliases environ).1 = inl e' end).
Proof.
  cbv zeta. unfold Load, choose_path.
  set (IC := default ""%string (snapshot environ !! "IMAPPED_CONFIG"%string)).
  assert (forall path, path <> ""%string -> ReadFile path = inl e ->
    after_file ReadFile IsNotExist Decode path true = inl e) as Hread.
  { intros path Hp Hr. unfold after_file, decodeFile. apply String.eqb_neq in Hp as ->.
    by rewrite Hr, andb_false_r. }
  assert (forall path, path <> ""%string -> ReadFile path = inr data -> Decode data Default = inr (cfg, k :: ks, keys) ->
    exists text, after_file ReadFile IsNotExist Decode path true = inl (ErrText text)) as Hkeys.
  { intros path Hp Hr Hd. unfold after_file, decodeFile. apply String.eqb_neq in Hp as ->.
    rewrite Hr, Hd. by eexists. }
  set (probed := hd ""%string (List.filter (exists_file stat) DefaultFilePaths)).
  assert ((forall path, path ∈ DefaultFilePaths -> ReadFile path = inl e) -> not_exist IsNotExist e = true ->
    after_file ReadFile IsNotExist Decode probed false = inr (Default, [], ""%string, false)) as Hprobed.
  { intros Hr He. unfold after_file, decodeFile. destruct (String.eqb probed "") eqn:Ep; [done|].
    rewrite Hr, He; [done|]. revert Ep. unfold probed, DefaultFilePaths. cbn [List.filter].
    destruct (exists_file _ _); [left|]. destruct (exists_file _ _); [right; left|done]. }
  destruct (String.eqb explicitPath "") eqn:Ee; cbn [negb]; split_and!; intros Hn.
  1-3: destruct (String.eqb IC "") eqn:Ei; cbn [negb]; [apply String.eqb_eq in Ei|apply String.eqb_neq in Ei]; try done.
  1: intros Hr; by rewrite (Hread IC).
  1: intros Hr Hd; destruct (Hkeys IC) as [t ->]; [done..|by eexists].
  1: intros Hr He; rewrite (Hprobed Hr He); destruct (buildEnvironment aliases environ) as [env used]; cbn [fst];
    destruct (ParseWithOptions Default env) as [e'|cfg']; [by eexists|done].
  - intros Hr; by rewrite (Hread explicitPath).
  - intros Hr Hd; destruct (Hkeys explicitPath) as [t ->]; [done..|by eexists].
  - by rewrite Hn in Ee.
Qed.
End loading.

(** * Witnesses *)

(** A process environment with a database, a deprecated name and a value with an equals
    sign; an environment parser that reads these two fields; a disk with one file. *)
Definition ex_environ : list string := ["DATABASE_URL=postgres://u:p=q@h/db"; "R2_BUCKET=mail"; "PATH=/bin"]%string.
Definition ex_parse (c : Config) (env : gmap string string) : err + Config :=
  let url := default (URL (c_DB c)) (env !! "DATABASE_URL"%string) in
  let s := c_Storage c in
  let c := {|
  AppEnv := AppEnv c; AppBaseURL := AppBaseURL c; LogLevel := LogLevel c; LogFormat := LogFormat c;
  EncryptionMasterKey := EncryptionMasterKey c; c_IMAP := c_IMAP c; c_HTTP := c_HTTP c;
  c_DB := mk_DBConfig url 20 2 Hour (10 * Second) (30 * Second) true;
  c_Storage := mk_Storage (Path s) (S3Endpoint s) (default (S3Bucket s) (env !! "S3_BUCKET"%string)) (S3AccessKeyID s)
                 (S3SecretKey s) (S3Region s) (S3ForcePathStyle s);
  c_Upstream := c_Upstream c; c_Sync := c_Sync c; c_Web := c_Web c; c_Search := c_Search c;
  c_Limits := c_Limits c; c_Bootstrap := c_Bootstrap c |} in inr c.
Definition ex_digest (s : string) : list Z := [Z.of_nat (String.length s); 1; 2; 3; 4].
Definition ex_read (path : string) : err + string :=
  if String.eqb path "typo.toml" then inr "[sync]"%string else inl ErrNotFound.
Definition ex_missing (e : err) : bool := bool_decide (e = ErrNotFound).
Definition ex_decode (data : string) (c : Config) : err + (Config * list string * list string) :=
  inr (c, ["sync.intervall"; "sync.enable"]%string, ["sync"]%string).
Definition ex_load (explicitPath : string) : err + Result :=
  Load ex_digest (fun _ => Some ErrNotFound) ex_read ex_missing ex_decode ex_parse envAliases ex_environ explicitPath.
Definition ex_result : Result := match ex_load "" with inr res => res | inl _ => mk_Result Default [] "" false end.

Example ex_load_shows :
  (writeFields (fun l => l) ex_result false).1 =
  [("db.url", "sha256:15010203", "env:DATABASE_URL"); ("storage.s3_bucket", "mail", "env:R2_BUCKET")]%string.
Proof. vm_compute. reflexivity. Qed.

Lemma load_reports_sources_witness :
  map TOMLPath (Fields ex_result) = map v_path walkFields /\
  forall f, f ∈ Fields ex_result -> exists v name, v ∈ walkFields /\ TOMLPath f = v_path v /\ v_env v = [name] /\
    EnvVar f = default name (supplier ex_environ name) /\
    (f_Source f = SourceEnv <-> is_Some (supplier ex_environ name)) /\
    (f_Source f = SourceFile -> FileLoaded ex_result = true).
Proof.
  apply (load_reports_sources ex_digest (fun _ => Some ErrNotFound) ex_read ex_missing ex_decode ex_parse
    envAliases ex_environ "" ex_result); [done|vm_compute; reflexivity].
Defined.

Definition ex_secret : Field := mk_Field "db.url" "DATABASE_URL" "sha256:15010203" SourceEnv true.

Lemma load_any_order_witness :
  Load ex_digest (fun _ => None) ex_read ex_missing ex_decode ex_parse (rev envAliases) ex_environ "" =
  Load ex_digest (fun _ => None) ex_read ex_missing ex_decode ex_parse envAliases ex_environ "".
Proof.
  apply load_any_order; [apply Permutation_sym, Permutation_rev|done].
Defined.

Lemma load_file_policy_witness :
  ex_load "gone.toml" = inl ErrNotFound /\
  (exists text, ex_load "typo.toml" = inl (ErrText text)) /\
  FileLoaded ex_result = false.
Proof.
  pose proof (fun p => load_file_policy ex_digest (fun _ => Some ErrNotFound) ex_read ex_missing ex_decode ex_parse
    envAliases ex_environ p ErrNotFound "[sync]" Default "sync.intervall" ["sync.enable"%string] ["sync"%string]) as H.
  split_and!.
  - apply (proj1 (H "gone.toml"%string)); [done|reflexivity].
  - apply (proj1 (proj2 (H "typo.toml"%string))); [done|reflexivity|reflexivity].
  - unfold ex_result. pose proof (proj2 (proj2 (H ""%string)) ltac:(vm_compute; reflexivity)) as H'.
    specialize (H' ltac:(intros p [->|[->|[]%not_elem_of_nil]%elem_of_cons]%elem_of_cons; reflexivity) eq_refl).
    unfold ex_load. destruct (Load _ _ _ _ _ _ _ _ _); [reflexivity|apply H'].
Defined.
