(* ===== verification/ConfigText.v ===== *)
(** Durations and sizes as text (internal/config/types.go, and [time.ParseDuration] which
    it calls): how the values of a configuration are read from its file and from the
    environment.  How they are printed is in Config. *)
From S2P Require Import Prelude GoStrings Retry Text GoParse GoFloat Config ConfigLoad.
From Stdlib Require Import String.
From stdpp Require Import strings list.
Open Scope list_scope.
Open Scope Z_scope.

(** What a float64 out of range converts to, which Go leaves to the machine. *)
Section conversions.
Context (out_of_range : float64 -> Z).

(** * time.ParseDuration *)

Definition u64 (z : Z) : Z := z mod 2 ^ 64.
Definition is_digit (c : ascii) : bool := match digit c with Some _ => true | None => false end.

(** [leadingInt]; [None] when the number is more than 2^63. *)
Fixpoint leadingInt (l : list ascii) (x : Z) : option (Z * list ascii) :=
  match l with
  | [] => Some (x, [])
  | c :: l' =>
      match digit c with
      | None => Some (x, l)
      | Some d =>
          if 2 ^ 63 / 10 <? x then None
          else if 2 ^ 63 <? x * 10 + d then None else leadingInt l' (x * 10 + d)
      end
  end.
(** [leadingFraction]: the digits that fit, and ten to the power of how many they are. *)
Fixpoint leadingFraction (l : list ascii) (x : Z) (scale : float64) (overflow : bool) : Z * float64 * list ascii :=
  match l with
  | [] => (x, scale, [])
  | c :: l' =>
      match digit c with
      | None => (x, scale, l)
      | Some d =>
          if overflow || ((2 ^ 63 - 1) / 10 <? x) then leadingFraction l' x scale true
          else if 2 ^ 63 <? x * 10 + d then leadingFraction l' x scale true
          else leadingFraction l' (x * 10 + d) (mul scale (of_Z 10)) false
      end
  end.
Fixpoint unit_text (l : list ascii) : list ascii * list ascii :=
  match l with
  | [] => ([], [])
  | c :: l' => if Ascii.eqb c "." || is_digit c then ([], l) else let '(u, r) := unit_text l' in (c :: u, r)
  end.
(** [unitMap]: microseconds are written with u, with the micro sign or with the letter mu. *)
Definition mu : string := String (ascii_of_nat 206) (String (ascii_of_nat 188) "s").
Definition unitMap (u : string) : option Z :=
  if String.eqb u "ns" then Some 1
  else if String.eqb u "us" || String.eqb u micro || String.eqb u mu then Some 1000
  else if String.eqb u "ms" then Some 1000000
  else if String.eqb u "s" then Some Second
  else if String.eqb u "m" then Some Minute
  else if String.eqb u "h" then Some Hour else None.

(** One number with its unit: its nanoseconds and what follows, or what is wrong. *)
Definition component (orig : string) (s : list ascii) : string + Z * list ascii :=
  let invalid := inl ("time: invalid duration " ++ Quote orig)%string in
  match s with
  | [] => invalid
  | c :: _ =>
      if negb (Ascii.eqb c "." || is_digit c) then invalid else
      match leadingInt s 0 with
      | None => invalid
      | Some (v, s') =>
          let pre := is_digit c in
          let '(f, scale, post, s') :=
            match s' with
            | "."%char :: t => let '(f, scale, t') := leadingFraction t 0 (of_Z 1) false in (f, scale, negb (length t =? length t')%nat, t')
            | _ => (0, of_Z 1, false, s')
            end in
          if negb pre && negb post then invalid else
          match unit_text s' with
          | ([], _) => inl ("time: missing unit in duration " ++ Quote orig)%string
          | (u, s') =>
              match unitMap (string_of_list_ascii u) with
              | None => inl ("time: unknown unit " ++ Quote (string_of_list_ascii u) ++ " in duration " ++ Quote orig)%string
              | Some unit =>
                  if 2 ^ 63 / unit <? v then invalid else
                  if 0 <? f then
                    let v := u64 (v * unit + to_Z out_of_range 0 (2 ^ 64 - 1) (mul (of_Z f) (div (of_Z unit) scale))) in
                    if 2 ^ 63 <? v then invalid else inr (v, s')
                  else inr (v * unit, s')
              end
          end
      end
  end.
(** The components one after another; [None] when [fuel] of them were not enough. *)
Fixpoint components (fuel : nat) (orig : string) (s : list ascii) (d : Z) : option (string + Z) :=
  match s with
  | [] => Some (inr d)
  | _ =>
      match fuel with
      | O => None
      | S fuel =>
          match component orig s with
          | inl e => Some (inl e)
          | inr (v, s) =>
              let d := u64 (d + v) in
              if 2 ^ 63 <? d then Some (inl ("time: invalid duration " ++ Quote orig)%string) else components fuel orig s d
          end
      end
  end.
Definition ParseDuration (s : string) : option (string + Z) :=
  let '(neg, l) := unsigned (lit s) in
  match l with
  | ["0"%char] => Some (inr 0)
  | [] => Some (inl ("time: invalid duration " ++ Quote s)%string)
  | _ =>
      match components (length l) s l 0 with
      | None => None
      | Some (inl e) => Some (inl e)
      | Some (inr d) =>
          if neg then Some (inr (- d))
          else if 2 ^ 63 - 1 <? d then Some (inl ("time: invalid duration " ++ Quote s)%string) else Some (inr d)
      end
  end.

Definition Duration_UnmarshalText (text : string) : option (err + Z) :=
  r ← ParseDuration text;
  Some match r with
       | inl e => inl (ErrText ("invalid duration " ++ Quote text ++ ": " ++ e))
       | inr d => inr d
       end.

(** * Sizes *)

Definition byteSizeUnits : list (string * Z) :=
  [("KIB", 2 ^ 10); ("MIB", 2 ^ 20); ("GIB", 2 ^ 30); ("TIB", 2 ^ 40);
   ("KB", 1000); ("MB", 1000 * 1000); ("GB", 1000 * 1000 * 1000); ("TB", 1000 * 1000 * 1000 * 1000);
   ("K", 2 ^ 10); ("M", 2 ^ 20); ("G", 2 ^ 30); ("T", 2 ^ 40); ("B", 1)]%string.

(** What stands before a suffix, as [strings.HasSuffix] finds it. *)
Definition before_suffix (s suffix : string) : option string :=
  let n := String.length s in let k := String.length suffix in
  if (k <=? n)%nat && String.eqb (substring (n - k) k s) suffix then Some (substring 0 (n - k) s) else None.

Definition size_error (raw why : string) : err := ErrText ("invalid byte size " ++ Quote raw ++ why).

Fixpoint with_unit (units : list (string * Z)) (raw upper : string) : option (err + Z) :=
  match units with
  | [] => None
  | (suffix, scale) :: units =>
      match before_suffix upper suffix with
      | None => with_unit units raw upper
      | Some num =>
          let numPart := TrimSpace num in
          if String.eqb numPart "" then with_unit units raw upper
          else Some match ParseFloat numPart with
                    | inl e => inl (size_error raw (": " ++ numError "ParseFloat" numPart e))
                    | inr value =>
                        if negative value then inl (size_error raw ": must not be negative")
                        else inr (to_Z out_of_range (- 2 ^ 63) (2 ^ 63 - 1) (mul value (of_Z scale)))
                    end
      end
  end.
Definition ByteSize_UnmarshalText (text : string) : err + Z :=
  let raw := TrimSpace text in
  if String.eqb raw "" then inl (ErrText "invalid byte size: empty") else
  let upper := ToUpper raw in
  match with_unit byteSizeUnits raw upper with
  | Some r => r
  | None =>
      match ParseInt upper with
      | None => inl (size_error raw ": want an integer or a suffixed size like 4MiB")
      | Some value => if value <? 0 then inl (size_error raw ": must not be negative") else inr value
      end
  end.
End conversions.

Definition amd64 (_ : float64) : Z := - 2 ^ 63.
(** The cases of internal/config/config_test.go. *)
Example duration_cases : Duration_UnmarshalText amd64 "30s" = Some (inr (30 * Second)) /\ Duration_UnmarshalText amd64 "2h" = Some (inr (2 * Hour))
  /\ Duration_UnmarshalText amd64 "1h30m" = Some (inr (90 * Minute)).
Proof. repeat split; vm_compute; reflexivity. Qed.
Example duration_errors : map (fun s => match Duration_UnmarshalText amd64 s with Some (inl e) => true | _ => false end) ["";"soon";"30";"-.s";"1x";"3000000h"]%string
  = [true; true; true; true; true; true].
Proof. vm_compute. reflexivity. Qed.
Example size_cases : map (ByteSize_UnmarshalText amd64) ["1024"; "4MiB"; "4mib"; "32MiB"; "10GiB"; "1MB"; "512KiB"; "900000"; " 1.5 k "]%string
  = map inr [1024; 4 * 2 ^ 20; 4 * 2 ^ 20; 32 * 2 ^ 20; 10 * 2 ^ 30; 1000000; 512 * 2 ^ 10; 900000; 1536].
Proof. vm_compute. reflexivity. Qed.
Example size_errors : map (fun s => match ByteSize_UnmarshalText amd64 s with inl _ => true | inr _ => false end) [""; "big"; "-1"; "-1MB"; "MB"; "1.5"]%string
  = [true; true; true; true; true; true].
Proof. vm_compute. reflexivity. Qed.
