(* ===== verification/ConfigTextProps.v ===== *)
(** What a configuration prints it reads back: durations and sizes. *)
From S2P Require Import Prelude GoStrings Retry Text GoParse GoFloat Config ConfigLoad ConfigText.
From Stdlib Require Import String.
From stdpp Require Import strings list.
Open Scope list_scope.
Open Scope Z_scope.

(** * Lists of digits *)

(** What follows a number: nothing, or something that is not a digit. *)
Definition ends_number (l : list ascii) : Prop := match l with [] => True | c :: _ => digit c = None end.

Lemma digit_bounds c d : digit c = Some d -> 0 <= d < 10.
Proof.
  unfold digit. destruct ((48 <=? code c) && (code c <=? 57)) eqn:E; [|done]. intros [= <-].
  apply andb_prop in E as [H1%Z.leb_le H2%Z.leb_le]. lia.
Qed.
Lemma digit_zero c : digit c = Some 0 -> c = "0"%char.
Proof.
  unfold digit, code. destruct ((48 <=? Z.of_nat (nat_of_ascii c)) && _); [|done]. intros [= E].
  rewrite <- (ascii_nat_embedding c). by replace (nat_of_ascii c) with 48%nat by lia.
Qed.
Lemma all_digits_grows l : forall x n, 0 <= x -> all_digits l x = Some n -> x * 10 ^ Z.of_nat (length l) <= n.
Proof.
  induction l as [|c l IH]; intros x n Hx; cbn [all_digits length].
  - intros [= <-]. cbn. lia.
  - destruct (digit c) as [d|] eqn:Ed; [|done]. apply digit_bounds in Ed. intros H.
    pose proof (IH (x * 10 + d) n ltac:(lia) H). rewrite Nat2Z.inj_succ, Z.pow_succ_r by lia.
    pose proof (Z.pow_pos_nonneg 10 (Z.of_nat (length l))). nia.
Qed.
Lemma all_digits_bound l : forall x n, 0 <= x -> all_digits l x = Some n -> n < (x + 1) * 10 ^ Z.of_nat (length l).
Proof.
  induction l as [|c l IH]; intros x n Hx; cbn [all_digits length].
  - intros [= <-]. cbn. lia.
  - destruct (digit c) as [d|] eqn:Ed; [|done]. apply digit_bounds in Ed. intros H.
    pose proof (IH (x * 10 + d) n ltac:(lia) H). rewrite Nat2Z.inj_succ, Z.pow_succ_r by lia.
    pose proof (Z.pow_pos_nonneg 10 (Z.of_nat (length l))). nia.
Qed.
Lemma all_digits_app a : forall b x, all_digits (a ++ b) x = all_digits a x ≫= all_digits b.
Proof. induction a as [|c a IH]; intros b x; [done|]. cbn. by destruct (digit c). Qed.
Lemma all_digits_zeros t x : all_digits (replicate t "0"%char) x = Some (x * 10 ^ Z.of_nat t).
Proof.
  revert x. induction t as [|t IH]; intros x; [cbn; f_equal; lia|]. cbn [replicate all_digits]. change (digit "0") with (Some 0). cbv iota beta.
  rewrite IH, Nat2Z.inj_succ, Z.pow_succ_r by lia. f_equal. lia.
Qed.

Lemma leadingInt_digits l rest : forall x n, 0 <= x -> all_digits l x = Some n -> n <= 2 ^ 63 -> ends_number rest ->
  leadingInt (l ++ rest) x = Some (n, rest).
Proof.
  induction l as [|c l IH]; intros x n Hx; cbn [all_digits app].
  - intros [= <-] _ Hr. destruct rest as [|c r]; [done|]. cbn in *. by rewrite Hr.
  - cbn [leadingInt]. destruct (digit c) as [d|] eqn:Ed; [|done]. apply digit_bounds in Ed. intros H Hn Hr.
    pose proof (all_digits_grows l (x * 10 + d) n ltac:(lia) H) as Hg. pose proof (Z.pow_pos_nonneg 10 (Z.of_nat (length l))).
    assert (x * 10 + d <= 2 ^ 63) as Hle by nia.
    rewrite (proj2 (Z.ltb_ge (2 ^ 63 / 10) x)) by (apply Z.div_le_lower_bound; lia).
    rewrite (proj2 (Z.ltb_ge (2 ^ 63) (x * 10 + d))) by lia. apply IH; (done || lia).
Qed.

Lemma short_pow10 k : 0 <= k <= 15 -> short (10 ^ k).
Proof. intros Hk. apply short_small. split; [apply Z.pow_pos_nonneg; lia|]. apply Z.le_lt_trans with (10 ^ 15); [|done]. apply Z.pow_le_mono_r; lia. Qed.
Lemma leadingFraction_digits l rest : forall x n k scale, 0 <= x -> all_digits l x = Some n -> n < 10 ^ 15 -> ends_number rest ->
  exactly scale (10 ^ k) -> 0 <= k -> k + Z.of_nat (length l) <= 15 ->
  exists scale', leadingFraction (l ++ rest) x scale false = (n, scale', rest) /\ exactly scale' (10 ^ (k + Z.of_nat (length l))).
Proof.
  induction l as [|c l IH]; intros x n k scale Hx; cbn [all_digits app length].
  - intros [= <-] _ Hr Hs Hk _. exists scale. rewrite Z.add_0_r. split; [|done]. destruct rest as [|c r]; [done|]. cbn in *. by rewrite Hr.
  - cbn [leadingFraction]. destruct (digit c) as [d|] eqn:Ed; [|done]. apply digit_bounds in Ed. intros H Hn Hr Hs Hk Hl.
    pose proof (all_digits_grows l (x * 10 + d) n ltac:(lia) H) as Hg. pose proof (Z.pow_pos_nonneg 10 (Z.of_nat (length l))).
    assert (x * 10 + d < 10 ^ 15) as Hlt by nia. cbn [orb].
    rewrite (proj2 (Z.ltb_ge ((2 ^ 63 - 1) / 10) x)) by (apply Z.div_le_lower_bound; lia).
    rewrite (proj2 (Z.ltb_ge (2 ^ 63) (x * 10 + d))) by lia.
    destruct (IH (x * 10 + d) n (k + 1) (mul scale (of_Z 10))) as (sc & E & Hsc); [lia|done|done|done| |lia|lia|].
    + rewrite Z.pow_add_r, Z.pow_1_r by lia. apply mul_exact; [done|by apply of_Z_exact, short_small|by apply Z.pow_pos_nonneg|lia|].
      change 10 with (10 ^ 1) at 2. rewrite <- Z.pow_add_r by lia. apply short_pow10. lia.
    + exists sc. split; [done|]. by replace (k + Z.of_nat (S (length l))) with (k + 1 + Z.of_nat (length l)) by lia.
Qed.

(** * Fractions *)

Lemma lit_append s t : lit (s ++ t) = lit s ++ lit t.
Proof. induction s as [|c s IH]; [done|]. exact (f_equal (cons c) IH). Qed.
Lemma lit_of_list l : lit (string_of_list_ascii l) = l.
Proof. apply list_ascii_of_string_of_list_ascii. Qed.
Lemma lit_zeros n : lit (zeros n) = replicate n "0"%char.
Proof. induction n as [|n IH]; [done|]. exact (f_equal (cons "0"%char) IH). Qed.
Lemma length_lit s : length (lit s) = String.length s.
Proof. induction s as [|c s IH]; [done|]. exact (f_equal S IH). Qed.

Lemma strip_zeros_spec l : exists t, l = replicate t "0"%char ++ strip_zeros l.
Proof.
  induction l as [|c l [t IH]]; [by exists O|].
  destruct (decide (c = "0"%char)) as [->|Hc]; [exists (S t); cbn; by rewrite <- IH|].
  exists O. cbn [replicate app]. destruct c as [[] [] [] [] [] [] [] []]; try reflexivity. by destruct Hc.
Qed.
Lemma rev_replicate {A} n (x : A) : rev (replicate n x) = replicate n x.
Proof.
  induction n as [|n IH]; [done|]. cbn [replicate rev]. rewrite IH. change [x] with (replicate 1 x).
  rewrite <- replicate_add. by rewrite Nat.add_comm.
Qed.

(** A number below [10^n] has at most [n] digits. *)
Lemma Itoa_length m n : 0 <= m < 10 ^ Z.of_nat n -> (0 < n)%nat -> (String.length (Itoa m) <= n)%nat.
Proof.
  intros [Hm Hb] Hn. rewrite <- length_lit. destruct (Itoa_head m Hm) as (c & l & E & [d Hd] & Hz).
  pose proof (all_digits_Itoa m Hm) as Ha. rewrite E in *. cbn [length]. destruct (decide (d = 0)) as [->|Hne].
  - apply digit_zero in Hd. rewrite (Hz Hd) in *. apply (f_equal length) in E. change (1%nat = S (length l)) in E. lia.
  - cbn in Ha. rewrite Hd in Ha. pose proof (digit_bounds _ _ Hd). apply all_digits_grows in Ha; [|lia].
    destruct (Z.lt_ge_cases (Z.of_nat (length l)) (Z.of_nat n)) as [|Hge]; [lia|].
    pose proof (Z.pow_le_mono_r 10 (Z.of_nat n) (Z.of_nat (length l)) ltac:(lia) Hge).
    pose proof (Z.pow_pos_nonneg 10 (Z.of_nat (length l))). nia.
Qed.

Lemma fraction_spec (prec : nat) u : (0 < prec)%nat -> 0 <= u ->
  let m := u mod 10 ^ Z.of_nat prec in
  (m = 0 /\ fraction prec u = ""%string) \/
  exists l f, lit (fraction prec u) = "."%char :: l /\ all_digits l 0 = Some f /\ 0 < f /\ (length l <= prec)%nat
    /\ f * 10 ^ Z.of_nat (prec - length l) = m.
Proof.
  intros Hp Hu. cbv zeta. assert (0 <= u mod 10 ^ Z.of_nat prec < 10 ^ Z.of_nat prec) as Hm
    by (apply Z.mod_pos_bound; apply Z.pow_pos_nonneg; lia).
  unfold fraction. set (m := u mod _) in *. clearbody m. cbv zeta. destruct (Z.eq_dec m 0) as [->|Hne].
  { left. split; [done|]. fold (lit (zeros (prec - String.length (Itoa 0)) ++ Itoa 0)). rewrite lit_append, lit_zeros.
    change (lit (Itoa 0)) with (replicate 1 "0"%char). rewrite <- replicate_add, rev_replicate.
    assert (forall n, strip_zeros (replicate n "0"%char) = []) as -> by (intros n; by induction n). done. }
  pose proof (Itoa_length m prec Hm Hp) as Hlen.
  fold (lit (zeros (prec - String.length (Itoa m)) ++ Itoa m)). set (padded := lit _).
  assert (length padded = prec) as Hpl by (unfold padded; rewrite lit_append, length_app, lit_zeros, length_replicate, length_lit; lia).
  assert (all_digits padded 0 = Some m) as Hd.
  { unfold padded. rewrite lit_append, lit_zeros, all_digits_app, all_digits_zeros. cbn [mbind option_bind].
    rewrite Z.mul_0_l. apply all_digits_Itoa. lia. }
  clearbody padded. destruct (strip_zeros_spec (rev padded)) as [t Et]. apply (f_equal (@rev ascii)) in Et.
  rewrite rev_involutive, rev_app_distr, rev_replicate in Et. set (l := rev (strip_zeros _)) in *. clearbody l. subst padded.
  rewrite all_digits_app in Hd. destruct (all_digits l 0) as [f|] eqn:El; [|done]. cbn [mbind option_bind] in Hd.
  rewrite all_digits_zeros in Hd. injection Hd as Hd. rewrite length_app, length_replicate in Hpl.
  pose proof (Z.pow_pos_nonneg 10 (Z.of_nat t)). destruct l as [|c l].
  - left. injection El as <-. split; [lia|done].
  - right. exists (c :: l), f. pose proof (all_digits_grows _ 0 f ltac:(lia) El).
    replace (prec - length (c :: l))%nat with t by lia. split_and!; [exact (f_equal (cons "."%char) (lit_of_list (c :: l)))|done| |lia|done].
    destruct (Z.eq_dec f 0) as [->|]; [by destruct Hne|lia].
Qed.

(** * One component *)

Lemma ends_app l r : (forall c, head l = Some c -> digit c = None) -> l <> [] -> ends_number (l ++ r).
Proof. intros Hh Hn. destruct l as [|c l]; [done|]. by apply Hh. Qed.

Definition no_number (c : ascii) : Prop := c <> "."%char /\ digit c = None.
Lemma unit_text_app u rest : Forall no_number u -> match rest with [] => True | c :: _ => ~ no_number c end -> unit_text (u ++ rest) = (u, rest).
Proof.
  intros Hu Hr. induction Hu as [|c u [Hd Hc] Hu IH]; cbn [app].
  - destruct rest as [|c r]; [done|]. cbn [unit_text]. destruct (Ascii.eqb_spec c "."); [done|]. unfold is_digit. cbn [orb].
    destruct (digit c) eqn:E; [done|]. by destruct Hr.
  - cbn [unit_text]. rewrite IH. unfold is_digit. rewrite Hc. by destruct (Ascii.eqb_spec c ".").
Qed.

Section conversions.
Context (out_of_range : float64 -> Z).

(** The text of a fraction of the unit [U], and what it is worth. *)
Definition is_fraction (U : Z) (text : list ascii) (w : Z) : Prop :=
  text = [] /\ w = 0 \/
  exists prec l f, (prec <= 9)%nat /\ U = 10 ^ Z.of_nat prec /\ text = "."%char :: l /\ all_digits l 0 = Some f /\ 0 < f
    /\ (length l <= prec)%nat /\ f * 10 ^ Z.of_nat (prec - length l) = w /\ w < U.
Lemma fraction_is prec u : (0 < prec <= 9)%nat -> 0 <= u ->
  is_fraction (10 ^ Z.of_nat prec) (lit (fraction prec u)) (u mod 10 ^ Z.of_nat prec).
Proof.
  intros Hp Hu. destruct (fraction_spec prec u ltac:(lia) Hu) as [[Em ->]|(l & f & E & Hd & Hf & Hl & Em)]; [by left|right].
  exists prec, l, f. split_and!; [lia|done..|]. apply Z.mod_pos_bound, Z.pow_pos_nonneg; lia.
Qed.

(** A whole number of a unit and a fraction of it: what they are worth, whatever follows. *)
Lemma component_reads orig (v U w : Z) (fr name rest : list ascii) :
  0 <= v -> 0 < U -> 0 <= w -> v * U + w <= 2 ^ 63 -> is_fraction U fr w ->
  Forall no_number name -> name <> [] -> unitMap (string_of_list_ascii name) = Some U ->
  match rest with [] => True | c :: _ => is_Some (digit c) end ->
  component out_of_range orig (lit (Itoa v) ++ fr ++ name ++ rest) = inr (v * U + w, rest).
Proof.
  intros Hv HU Hw Hvw Hfr Hname Hne Hunit Hrest.
  assert (v <= 2 ^ 63 / U) as Hb by (apply Z.div_le_lower_bound; lia).
  assert (v <= 2 ^ 63) as Hv63 by nia.
  destruct (Itoa_head v Hv) as (c & l & El & [d Hd] & _). pose proof (all_digits_Itoa v Hv) as Ha.
  assert (unit_text (name ++ rest) = (name, rest)) as Eunit.
  { apply unit_text_app; [done|]. destruct rest as [|c' r]; [done|]. intros [_ Hn]. rewrite Hn in Hrest. by destruct Hrest. }
  assert (ends_number (name ++ rest)) as Hend.
  { destruct name as [|c' n]; [done|]. apply Forall_cons in Hname as [[_ Hn] _]. done. }
  assert (exists n0 n1, name = n0 :: n1 /\ n0 <> "."%char) as (n0 & n1 & En & Hdot).
  { destruct name as [|n0 n1]; [done|]. exists n0, n1. split; [done|]. apply Forall_cons in Hname as [[Hn _] _]. done. }
  assert (forall tail, ends_number tail -> leadingInt (lit (Itoa v) ++ tail) 0 = Some (v, tail)) as Elead.
  { intros tail Ht. by apply leadingInt_digits. }
  destruct Hfr as [[-> ->]|(prec & fl & f & Hp & HUp & -> & Hf & Hf0 & Hl & Em & HwU)].
  - cbn [app]. pose proof (Elead _ Hend) as Hl. assert (exists t, lit (Itoa v) ++ name ++ rest = c :: t) as [t Et] by (rewrite El; by eexists).
    rewrite Et in *. unfold component. rewrite Hl. unfold is_digit. rewrite Hd, orb_true_r. cbn [negb andb].
    assert (match name ++ rest with
      | "."%char :: t => let '(f, scale, t') := leadingFraction t 0 (of_Z 1) false in (f, scale, negb (length t =? length t')%nat, t')
      | _ => (0, of_Z 1, false, name ++ rest) end = (0, of_Z 1, false, name ++ rest)) as ->.
    { rewrite En. cbn [app]. clear -Hdot. destruct n0 as [[] [] [] [] [] [] [] []]; try reflexivity. by destruct Hdot. }
    cbv iota beta. rewrite Eunit, En. cbv iota beta. rewrite <- En, Hunit. cbv iota beta.
    rewrite (proj2 (Z.ltb_ge _ _) Hb). cbn [Z.ltb Z.compare]. by rewrite Z.add_0_r.
  - assert (f < U) as HfU.
    { pose proof (Z.pow_pos_nonneg 10 (Z.of_nat (prec - length fl))). nia. }
    assert (U <= 10 ^ 9) as HU9 by (rewrite HUp; apply Z.pow_le_mono_r; lia).
    destruct (leadingFraction_digits fl (name ++ rest) 0 f 0 (of_Z 1)) as (scale & Efrac & Hscale);
      [lia|done|lia|done|by apply of_Z_exact, short_small|lia|lia|].
    pose proof (Elead ("."%char :: fl ++ name ++ rest) eq_refl) as Hl'.
    change (("."%char :: fl) ++ name ++ rest) with ("."%char :: fl ++ name ++ rest).
    assert (exists t, lit (Itoa v) ++ "."%char :: fl ++ name ++ rest = c :: t) as [t Et] by (rewrite El; by eexists).
    rewrite Et in *. unfold component. rewrite Hl'. unfold is_digit. rewrite Hd, orb_true_r. cbn [negb andb].
    cbv iota beta. rewrite Efrac. cbv iota beta. rewrite Eunit, En. cbv iota beta. rewrite <- En, Hunit. cbv iota beta.
    rewrite (proj2 (Z.ltb_ge _ _) Hb), (proj2 (Z.ltb_lt 0 f) Hf0).
    assert (to_Z out_of_range 0 (2 ^ 64 - 1) (mul (of_Z f) (div (of_Z U) scale)) = w) as ->.
    { rewrite <- Em. apply to_Z_exact; [|lia].
      apply mul_exact; [apply of_Z_exact, short_small; lia| |done|apply Z.pow_pos_nonneg; lia|rewrite Em; apply short_small; pose proof (Z.pow_pos_nonneg 10 (Z.of_nat (prec - length fl))); nia].
      apply div_exact with (10 ^ Z.of_nat (length fl)); [|exact Hscale|apply short_pow10; lia|apply Z.pow_pos_nonneg; lia].
      rewrite <- Z.pow_add_r by lia. replace (Z.of_nat (prec - length fl) + Z.of_nat (length fl)) with (Z.of_nat prec) by lia.
      rewrite HUp. apply of_Z_exact, short_pow10. lia. }
    cbv zeta. unfold u64. rewrite Z.mod_small by lia. by rewrite (proj2 (Z.ltb_ge _ _) Hvw).
Qed.

(** Components add up. *)
Lemma components_reads fuel orig (v U w d : Z) (fr name rest : list ascii) :
  0 <= v -> 0 < U -> 0 <= w -> is_fraction U fr w -> Forall no_number name -> name <> [] -> unitMap (string_of_list_ascii name) = Some U ->
  match rest with [] => True | c :: _ => is_Some (digit c) end -> 0 <= d -> d + (v * U + w) <= 2 ^ 63 ->
  components out_of_range (S fuel) orig (lit (Itoa v) ++ fr ++ name ++ rest) d
  = components out_of_range fuel orig rest (d + (v * U + w)).
Proof.
  intros Hv HU Hw Hfr Hname Hne Hunit Hrest Hd Hb. destruct (Itoa_head v Hv) as (c & l & El & _).
  assert (exists t, lit (Itoa v) ++ fr ++ name ++ rest = c :: t) as [t Et] by (rewrite El; by eexists).
  rewrite Et. cbn [components]. rewrite <- Et, (component_reads orig v U w) by (done || lia). cbv iota beta zeta. unfold u64.
  rewrite Z.mod_small by lia. by rewrite (proj2 (Z.ltb_ge _ _) Hb).
Qed.

(** What is read of a text, for every fuel from the number of its components on. *)
Definition reads (text : list ascii) (d u : Z) : Prop :=
  exists k, (2 * k <= length text)%nat /\ forall n orig, components out_of_range (k + n) orig text d = Some (inr u).
Lemma reads_nil d : reads [] d d.
Proof. exists O. split; [done|]. intros n orig. by destruct n. Qed.
Lemma reads_component v U w d u fr name rest :
  reads rest (d + (v * U + w)) u -> match rest with [] => True | c :: _ => is_Some (digit c) end ->
  0 <= v -> 0 < U -> 0 <= w -> is_fraction U fr w -> Forall no_number name -> name <> [] -> unitMap (string_of_list_ascii name) = Some U ->
  0 <= d -> d + (v * U + w) <= 2 ^ 63 ->
  reads (lit (Itoa v) ++ fr ++ name ++ rest) d u.
Proof.
  intros (k & Hk & Hall) Hrest Hv HU Hw Hfr Hname Hne Hunit Hd Hb. exists (S k). split.
  - destruct (Itoa_head v Hv) as (c & l & -> & _). destruct name; [done|]. rewrite !length_app. cbn [length]. lia.
  - intros n orig. cbn [Nat.add]. by rewrite (components_reads (k + n) orig v U w) by done.
Qed.

Lemma Itoa_starts v rest : 0 <= v -> match lit (Itoa v) ++ rest with [] => True | c :: _ => is_Some (digit c) end.
Proof. intros Hv. by destruct (Itoa_head v Hv) as (c & l & -> & Hd & _). Qed.

Lemma seconds_read (secs u d t : Z) : 0 <= secs -> 0 <= u -> 0 <= d -> t = d + (secs * Second + u mod Second) -> t <= 2 ^ 63 ->
  reads (lit (Itoa secs ++ fraction 9 u ++ "s")) d t.
Proof.
  intros Hs Hu Hd -> Hb. rewrite !lit_append. rewrite <- (app_nil_r (lit "s")).
  apply (reads_component secs Second (u mod Second)); try done; [by apply reads_nil| |by apply (fraction_is 9); [lia|]|by repeat constructor]. by apply Z.mod_pos_bound.
Qed.
(** Fractions of a second are a whole number and a fraction of a smaller unit. *)
Lemma small_reads (prec : nat) (name : string) u : 0 <= u <= 2 ^ 63 -> (0 < prec <= 9)%nat -> Forall no_number (lit name) -> lit name <> [] ->
  unitMap name = Some (10 ^ Z.of_nat prec) ->
  reads (lit (Itoa (u / 10 ^ Z.of_nat prec) ++ fraction prec u ++ name)) 0 u.
Proof.
  intros Hu Hp Hn Hne Hm. pose proof (Z.pow_pos_nonneg 10 (Z.of_nat prec) ltac:(lia) ltac:(lia)) as HU.
  pose proof (Z.div_mod u (10 ^ Z.of_nat prec) ltac:(lia)). pose proof (Z.mod_pos_bound u _ HU). pose proof (Z.div_pos u _ (proj1 Hu) HU).
  rewrite !lit_append, <- (app_nil_r (lit name)).
  eapply (reads_component (u / 10 ^ Z.of_nat prec) (10 ^ Z.of_nat prec) (u mod 10 ^ Z.of_nat prec)); try done; try lia.
  - replace (0 + _) with u by lia. apply reads_nil.
  - apply fraction_is; lia.
  - unfold lit. by rewrite string_of_list_ascii_of_string.
Qed.

Lemma positive_reads u : 0 <= u <= 2 ^ 63 -> reads (lit (positive_duration u)) 0 u.
Proof.
  intros Hu. unfold positive_duration. destruct (Z.eqb_spec u 0) as [->|Hne].
  { exists 1%nat. split; [cbn; lia|]. intros n orig. by destruct n. }
  destruct (Z.ltb_spec u 1000).
  { rewrite lit_append, <- (app_nil_l (lit "ns")), <- (app_nil_r (lit "ns")).
    apply (reads_component u 1 0); try done; try lia; [|by left|by repeat constructor]. replace (0 + _) with u by lia. apply reads_nil. }
  destruct (Z.ltb_spec u 1000000); [apply (small_reads 3); [done|lia|by repeat constructor|done|done]|].
  destruct (Z.ltb_spec u Second); [apply (small_reads 6); [done|lia|by repeat constructor|done|done]|]. cbv zeta.
  set (secs := u / Second). assert (u = secs * Second + u mod Second) as Eu by (pose proof (Z.div_mod u Second ltac:(done)); lia).
  assert (0 <= u mod Second < Second) as Hm by by apply Z.mod_pos_bound. assert (0 <= secs) as Hs by (apply Z.div_pos; lia).
  clearbody secs. destruct (Z.eqb_spec (secs / 60) 0) as [Em|Em].
  { apply Z.div_small_iff in Em; [|done]. rewrite Z.mod_small by lia. apply seconds_read; lia. }
  pose proof (Z.div_mod secs 60 ltac:(done)) as E60. pose proof (Z.mod_pos_bound secs 60 ltac:(done)) as H60.
  assert (0 <= secs / 60) as Hmin by (apply Z.div_pos; lia).
  assert (forall d minutes, 0 <= d -> 0 <= minutes -> u = d + minutes * Minute + (secs mod 60) * Second + u mod Second ->
    reads (lit (Itoa minutes ++ "m" ++ Itoa (secs mod 60) ++ fraction 9 u ++ "s")) d u) as Hmins.
  { intros d minutes Hd Hmi E. rewrite lit_append, (lit_append "m"). change (lit "m") with ([] ++ lit "m") at 1. rewrite <- app_assoc.
    apply (reads_component minutes Minute 0); try done; try (unfold Minute, Second in *; lia).
    - apply seconds_read; unfold Minute, Second in *; lia.
    - rewrite lit_append. apply Itoa_starts; lia.
    - by left.
    - by repeat constructor. }
  destruct (Z.eqb_spec (secs / 60 / 60) 0) as [Eh|Eh].
  { apply Z.div_small_iff in Eh; [|done]. rewrite (Z.mod_small (secs / 60)) by lia. apply Hmins; unfold Minute, Second in *; lia. }
  pose proof (Z.div_mod (secs / 60) 60 ltac:(done)). pose proof (Z.mod_pos_bound (secs / 60) 60 ltac:(done)).
  assert (0 <= secs / 60 / 60) as Hh by (apply Z.div_pos; lia).
  rewrite lit_append, (lit_append "h"). change (lit "h") with ([] ++ lit "h") at 1. rewrite <- app_assoc.
  apply (reads_component (secs / 60 / 60) Hour 0); try done; try (unfold Hour, Minute, Second in *; lia).
  - apply Hmins; unfold Hour, Minute, Second in *; lia.
  - rewrite lit_append. apply Itoa_starts. lia.
  - by left.
  - by repeat constructor.
Qed.

Lemma positive_starts u : 0 <= u -> exists c t, lit (positive_duration u) = c :: t /\ is_Some (digit c) /\ t <> [].
Proof.
  intros Hu. assert (forall v rest, 0 <= v -> lit rest <> [] -> exists c t, lit (Itoa v ++ rest) = c :: t /\ is_Some (digit c) /\ t <> []) as Hv.
  { intros v rest Hv Hr. destruct (Itoa_head v Hv) as (c & l & E & Hd & _). rewrite lit_append, E. exists c, (l ++ lit rest).
    split_and!; [done..|]. intros [_ ?]%app_eq_nil. done. }
  assert (forall s t, lit t <> [] -> lit (s ++ t) <> []) as Happ by (intros s t Ht; rewrite lit_append; by intros [_ ?]%app_eq_nil).
  unfold positive_duration. cbv zeta. repeat case_match; try (apply Hv; [|first [done | apply Happ; done | apply Happ, Happ; done]]);
    repeat first [apply Z.div_pos | apply Z.mod_pos_bound | done | lia].
  by eexists _, _.
Qed.

(** * Reading ends *)

Lemma leadingInt_rest l : forall x v r, leadingInt l x = Some (v, r) -> (length r <= length l)%nat.
Proof.
  induction l as [|c l IH]; intros x v r; cbn [leadingInt]; [by intros [= <- <-]|].
  repeat case_match; try done; [|by intros [= <- <-]]. intros E%IH. cbn [length]. lia.
Qed.
Lemma leadingFraction_rest l : forall x sc o v sc' r, leadingFraction l x sc o = (v, sc', r) -> (length r <= length l)%nat.
Proof.
  induction l as [|c l IH]; intros x sc o v sc' r; cbn [leadingFraction]; [by intros [= <- <- <-]|].
  repeat case_match; try (by intros [= <- <- <-]); intros E%IH; cbn [length]; lia.
Qed.
Lemma unit_text_split l : l = (unit_text l).1 ++ (unit_text l).2.
Proof. induction l as [|c l IH]; [done|]. cbn [unit_text]. case_match; [done|]. destruct (unit_text l) as [u r]. cbn in *. by f_equal. Qed.

Lemma component_shrinks orig s v s' : component out_of_range orig s = inr (v, s') -> (length s' < length s)%nat.
Proof.
  unfold component. destruct s as [|c s]; [done|]. case_match; [done|]. destruct (leadingInt (c :: s) 0) as [[n r]|] eqn:El; [|done].
  apply leadingInt_rest in El.
  destruct (match r with
    | "."%char :: t => let '(f, scale, t') := leadingFraction t 0 (of_Z 1) false in (f, scale, negb (length t =? length t')%nat, t')
    | _ => (0, of_Z 1, false, r) end) as [[[f sc] post] r'] eqn:Ef.
  assert (length r' <= length r)%nat as Hr.
  { destruct r as [|x t]; [by injection Ef as <- <- <- <-|].
    destruct (decide (x = "."%char)) as [->|Hx].
    - destruct (leadingFraction t 0 (of_Z 1) false) as [[f0 sc0] t'] eqn:Efr. injection Ef as <- <- <- <-.
      apply leadingFraction_rest in Efr. cbn [length]. lia.
    - assert ((0, of_Z 1, false, x :: t) = (f, sc, post, r')) as [= <- <- <- <-]; [|done].
      rewrite <- Ef. destruct x as [[] [] [] [] [] [] [] []]; try reflexivity. by destruct Hx. }
  destruct (negb (is_digit c) && negb post); [done|]. pose proof (unit_text_split r') as Hu. destruct (unit_text r') as [[|u0 u] r2]; [done|]. cbn [fst snd] in Hu.
  assert (length r2 < length r')%nat by (rewrite Hu, length_app; cbn; lia).
  repeat case_match; try done; intros [= _ <-]; cbn [length] in *; lia.
Qed.
Lemma u64_range z : 0 <= u64 z < 2 ^ 64.
Proof. by apply Z.mod_pos_bound. Qed.
Lemma components_end fuel orig : forall s d, (length s <= fuel)%nat -> 0 <= d <= 2 ^ 63 ->
  exists r, components out_of_range fuel orig s d = Some r /\ forall u, r = inr u -> 0 <= u <= 2 ^ 63.
Proof.
  induction fuel as [|fuel IH]; intros s d Hs Hd; (destruct s as [|c s]; [exists (inr d); split; [done|]; by intros u [= <-]|]).
  { cbn in Hs. lia. }
  cbn [components]. destruct (component out_of_range orig (c :: s)) as [e|[v s']] eqn:E; [by exists (inl e)|].
  apply component_shrinks in E. cbv zeta. destruct (Z.ltb_spec (2 ^ 63) (u64 (d + v))); [by eexists|].
  apply IH; [lia|]. pose proof (u64_range (d + v)). lia.
Qed.

Lemma ParseDuration_ends s : exists r, ParseDuration out_of_range s = Some r /\ forall v, r = inr v -> - 2 ^ 63 <= v < 2 ^ 63.
Proof.
  unfold ParseDuration. destruct (unsigned (lit s)) as [neg l].
  assert (exists r, match components out_of_range (length l) s l 0 with
    | None => None
    | Some (inl e) => Some (inl e)
    | Some (inr d) => if neg then Some (inr (- d))
        else if 2 ^ 63 - 1 <? d then Some (inl ("time: invalid duration " ++ Quote s)%string) else Some (inr d)
    end = Some r /\ forall v, r = inr v -> - 2 ^ 63 <= v < 2 ^ 63) as Hrest.
  { destruct (components_end (length l) s l 0) as (r & -> & Hr); [done|lia|]. destruct r as [e|d]; [by exists (inl e)|].
    specialize (Hr d eq_refl). destruct neg; [|destruct (Z.ltb_spec (2 ^ 63 - 1) d)]; eexists; (split; [done|]); try done;
      intros v [= <-]; lia. }
  destruct l as [|c [|c' l]]; [by eexists| |destruct Hrest as (r & E & Hr); exists r; (split; [rewrite <- E|done]);
    by destruct c as [[] [] [] [] [] [] [] []]]. destruct (decide (c = "0"%char)) as [->|Hc].
  { exists (inr 0). split; [done|]. by intros v [= <-]. }
  destruct Hrest as (r & E & Hr). exists r. split; [rewrite <- E|done]. destruct c as [[] [] [] [] [] [] [] []]; try reflexivity. by destruct Hc.
Qed.

(** * Durations are read back *)

Lemma unsigned_digit c t : is_Some (digit c) -> unsigned (c :: t) = (false, c :: t).
Proof. intros [d Hd]. destruct c as [[] [] [] [] [] [] [] []]; try reflexivity; discriminate Hd. Qed.

Lemma ParseDuration_positive (neg : bool) u : 0 <= u -> (if neg then u <= 2 ^ 63 else u < 2 ^ 63) ->
  ParseDuration out_of_range (if neg then String "-" (positive_duration u) else positive_duration u) = Some (inr (if neg then - u else u)).
Proof.
  intros Hu Hb. destruct (positive_starts u Hu) as (c & t & E & Hc & Ht).
  assert (u <= 2 ^ 63) as Hle by (destruct neg; lia). destruct (positive_reads u (conj Hu Hle)) as (k & Hk & Hall).
  assert (unsigned (lit (if neg then String "-" (positive_duration u) else positive_duration u)) = (neg, lit (positive_duration u))) as El.
  { destruct neg; [done|]. rewrite E. by apply unsigned_digit. }
  unfold ParseDuration. rewrite El. set (text := if neg then _ else _). clearbody text. clear El.
  assert (components out_of_range (length (lit (positive_duration u))) text (lit (positive_duration u)) 0 = Some (inr u)) as Ec.
  { replace (length (lit (positive_duration u))) with (k + (length (lit (positive_duration u)) - k))%nat at 1 by lia. apply Hall. }
  rewrite Ec. rewrite E. destruct t as [|c' t]; [done|].
  transitivity (if neg then Some (inr (- u)) else if 2 ^ 63 - 1 <? u then Some (inl ("time: invalid duration " ++ Quote text)%string) else Some (inr u)).
  - destruct c as [[] [] [] [] [] [] [] []]; reflexivity.
  - destruct neg; [done|]. by rewrite (proj2 (Z.ltb_ge _ _)) by lia.
Qed.

Lemma duration_read_back d : - 2 ^ 63 <= d < 2 ^ 63 -> Duration_UnmarshalText out_of_range (Duration_String d) = Some (inr d).
Proof.
  intros Hd. unfold Duration_UnmarshalText, Duration_String. destruct (Z.ltb_spec d 0).
  - rewrite (ParseDuration_positive true (- d)) by lia. cbn. do 2 f_equal. lia.
  - by rewrite (ParseDuration_positive false d) by lia.
Qed.

(** * Sizes are read back *)

Lemma substring_split s : forall i k, (i + k = String.length s)%nat -> (substring 0 i s ++ substring i k s)%string = s.
Proof.
  induction s as [|c s IH]; intros i k Hk.
  - destruct i, k; cbn in *; (done || lia).
  - destruct i as [|i]; cbn [String.length Nat.add] in Hk.
    + destruct k as [|k]; [lia|]. injection Hk as Hk. specialize (IH O k Hk). replace (substring 0 0 s) with ""%string in IH by (by destruct s).
      exact (f_equal (String c) IH).
    + injection Hk as Hk. exact (f_equal (String c) (IH i k Hk)).
Qed.
Lemma before_suffix_app s suffix p : before_suffix s suffix = Some p <-> s = (p ++ suffix)%string.
Proof.
  unfold before_suffix. split.
  - destruct (Nat.leb_spec (String.length suffix) (String.length s)) as [Hle|]; [|done].
    destruct (String.eqb_spec (substring (String.length s - String.length suffix) (String.length suffix) s) suffix) as [E|]; [|done].
    intros [= <-]. rewrite <- E at 2. by rewrite substring_split by lia.
  - intros ->. rewrite <- !length_lit, lit_append, length_app, !length_lit.
    rewrite (proj2 (Nat.leb_le _ _)) by lia. cbn [andb]. rewrite Nat.add_sub.
    pose proof (substring_split (p ++ suffix) (String.length p) (String.length suffix)) as Hs.
    rewrite <- (length_lit (p ++ suffix)), lit_append, length_app, !length_lit in Hs. specialize (Hs eq_refl).
    apply (f_equal lit) in Hs. rewrite !lit_append in Hs. apply app_inj_1 in Hs as [H1 H2].
    + apply (f_equal string_of_list_ascii) in H1, H2. unfold lit in H1, H2. rewrite !string_of_list_ascii_of_string in H1, H2.
      rewrite H2, String.eqb_refl. by rewrite H1.
    + apply (f_equal length) in Hs. rewrite !length_app in Hs. rewrite !length_lit in *.
      assert (forall s' n m, (String.length (substring n m s') <= m)%nat) as Hsub.
      { clear. induction s' as [|c s' IH]; intros n m; [by destruct n, m; cbn; lia|]. destruct n, m; cbn; try lia; [specialize (IH O m); lia|apply IH|apply IH]. }
      pose proof (Hsub (p ++ suffix)%string O (String.length p)). pose proof (Hsub (p ++ suffix)%string (String.length p) (String.length suffix)). lia.
Qed.
Lemma before_suffix_None s suffix : (forall p, s <> (p ++ suffix)%string) -> before_suffix s suffix = None.
Proof. intros H. destruct (before_suffix s suffix) eqn:E; [|done]. by apply before_suffix_app, H in E. Qed.

Definition plain (c : ascii) : Prop := is_space c = false.
Lemma TrimSpace_plain s : Forall plain (lit s) -> TrimSpace s = s.
Proof.
  intros Hs. unfold TrimSpace. fold (lit s).
  assert (forall l, Forall plain l -> trim_left l = l) as Ht by (intros l []; [done|]; cbn; by rewrite H).
  rewrite (Ht (lit s)) by done. rewrite Ht by by apply Forall_rev. rewrite rev_involutive. apply string_of_list_ascii_of_string.
Qed.
Lemma digit_plain c : is_Some (digit c) -> plain c.
Proof. intros [d Hd]. destruct c as [[] [] [] [] [] [] [] []]; try reflexivity; discriminate Hd. Qed.
Lemma upper_digit c : is_Some (digit c) -> upper_ascii c = c.
Proof. intros [d Hd]. destruct c as [[] [] [] [] [] [] [] []]; try reflexivity; discriminate Hd. Qed.
Lemma ToUpper_app s t : Forall (fun c => is_Some (digit c)) (lit s) -> ToUpper (s ++ t) = (s ++ ToUpper t)%string.
Proof.
  unfold lit. induction s as [|c s IH]; [done|]. intros [Hc Hs]%Forall_cons.
  change (String (upper_ascii c) (ToUpper (s ++ t)) = String c (s ++ ToUpper t)). by rewrite (upper_digit c Hc), IH.
Qed.

Lemma special_digit c t : is_Some (digit c) -> special (String c t) = None.
Proof. intros [d Hd]. unfold special. destruct c as [[] [] [] [] [] [] [] []]; try discriminate Hd; reflexivity. Qed.
Lemma read_mantissa_digits l : forall x us d n, all_digits l x = Some n -> Forall (fun c => is_Some (digit c)) l -> (l <> [] \/ d = true) ->
  read_mantissa false l (mk_mantissa x 0 false d us) = (mk_mantissa n 0 false true us, []).
Proof.
  induction l as [|c l IH]; intros x us d n; cbn [all_digits read_mantissa].
  - intros [= <-] _ [?| ->]; done.
  - destruct (digit c) as [v|] eqn:Ed; [|done]. intros Hn [_ Hl]%Forall_cons _.
    assert (Ascii.eqb c "_" = false /\ Ascii.eqb c "." = false) as [-> ->]
      by (split; destruct c as [[] [] [] [] [] [] [] []]; (discriminate Ed || reflexivity)).
    cbn [mant frac sawdot sawdigits GoFloat.underscores]. apply IH; [done|done|by right].
Qed.

Lemma ParseFloat_Itoa k : 0 < k < 2 ^ 53 -> exists x, ParseFloat (Itoa k) = inr x /\ exactly x k.
Proof.
  intros Hk. destruct (Itoa_head k ltac:(lia)) as (c & l & E & Hc & Hz).
  pose proof (all_digits_Itoa k ltac:(lia)) as Ha. pose proof (Itoa_digits k ltac:(lia)) as Hdig.
  assert (c <> "0"%char) as Hc0 by (intros ->; specialize (Hz eq_refl); lia).
  unfold ParseFloat. assert (special (Itoa k) = None) as ->.
  { destruct (Itoa k) as [|c' t]; [done|]. unfold lit in E. cbn in E. injection E as -> _. by apply special_digit. }
  assert (readFloat (lit (Itoa k)) = Some (false, k, 10, 0)) as ->.
  { unfold readFloat. rewrite E in *. rewrite (unsigned_digit c l Hc).
    assert (match c :: l with "0"%char :: x :: c :: l' => if is_letter x "X" then (true, c :: l') else (false, c :: l) | _ => (false, c :: l) end
      = (false, c :: l)) as Hex by (destruct c as [[] [] [] [] [] [] [] []]; try reflexivity; by destruct Hc0).
    transitivity (let '(m, l0) := read_mantissa false (c :: l) (mk_mantissa 0 0 false false false) in
      match l0 with [] => Some (false, mant m, 10, 0 - 1 * frac m) | _ => None end).
    - destruct c as [[] [] [] [] [] [] [] []]; try (by destruct Hc0);
        try (by (destruct Hc as [d Hc]; discriminate Hc)); rewrite (read_mantissa_digits _ 0 false false k Ha Hdig) by (by left); reflexivity.
    - rewrite (read_mantissa_digits _ 0 false false k Ha Hdig) by (by left). reflexivity. }
  cbn [Z.leb Z.compare]. rewrite Z.pow_0_r. pose proof (round_exact k 1 (short_small k Hk) ltac:(lia)) as Hr.
  destruct Hr as (m & e & Er & Hv). exists (Finite m e). split; [by rewrite Er|by exists m, e].
Qed.

Lemma other_suffix s u v : String.length u = String.length v -> u <> v -> before_suffix (s ++ u) v = None.
Proof.
  intros Hl Hne. apply before_suffix_None. intros p E. apply (f_equal lit) in E. rewrite !lit_append in E.
  apply app_inj_2 in E as [_ E]; [|by rewrite !length_lit]. apply Hne.
  apply (f_equal string_of_list_ascii) in E. unfold lit in E. by rewrite !string_of_list_ascii_of_string in E.
Qed.
Lemma number_not_empty k : 0 <= k -> String.eqb (Itoa k) "" = false.
Proof. intros Hk. destruct (Itoa_head k Hk) as (c & l & E & _). by destruct (Itoa k). Qed.

(** The suffixes that sizes are printed with, as they are written and in upper case. *)
Definition printed_units : list (string * string * Z) := [("KiB", "KIB", 2 ^ 10); ("MiB", "MIB", 2 ^ 20); ("GiB", "GIB", 2 ^ 30)]%string.
Lemma unit_reads k name up scale : 0 < k < 2 ^ 53 -> (name, up, scale) ∈ printed_units ->
  exists x, exactly x k /\ ByteSize_UnmarshalText out_of_range (Itoa k ++ name)
    = inr (to_Z out_of_range (- 2 ^ 63) (2 ^ 63 - 1) (mul x (of_Z scale))).
Proof.
  intros Hk Hu. pose proof (Itoa_digits k ltac:(lia)) as Hd. destruct (ParseFloat_Itoa k Hk) as (x & Ex & Hx). exists x. split; [done|].
  assert (Forall plain (lit (Itoa k))) as Hp by (eapply Forall_impl; [exact Hd|apply digit_plain]).
  assert (exists t, lit name = t /\ Forall plain t /\ ToUpper name = up /\ name <> ""%string) as (t & <- & Hpn & Hup & Hne).
  { unfold printed_units in Hu. rewrite !elem_of_cons, elem_of_nil in Hu.
    destruct Hu as [[= -> -> _]|[[= -> -> _]|[[= -> -> _]|[]]]]; eexists; (split; [done|]); by repeat constructor. }
  assert (with_unit out_of_range byteSizeUnits (Itoa k ++ name) (Itoa k ++ up)
    = Some (inr (to_Z out_of_range (- 2 ^ 63) (2 ^ 63 - 1) (mul x (of_Z scale))))) as Ew.
  { assert (forall units raw, with_unit out_of_range ((up, scale) :: units) raw (Itoa k ++ up)
      = Some (inr (to_Z out_of_range (- 2 ^ 63) (2 ^ 63 - 1) (mul x (of_Z scale))))) as Hhere.
    { intros units raw. cbn [with_unit]. rewrite (proj2 (before_suffix_app _ _ _) eq_refl).
      rewrite TrimSpace_plain, number_not_empty, Ex by (done || lia).
      destruct Hx as (m & e & -> & Hm). destruct (exactly_over m e k ltac:(lia) Hm) as [Hpos _].
      cbn [negative]. by rewrite (proj2 (Z.ltb_ge m 0)) by lia. }
    assert (forall u s units raw, String.length up = String.length u -> up <> u ->
      with_unit out_of_range ((u, s) :: units) raw (Itoa k ++ up) = with_unit out_of_range units raw (Itoa k ++ up)) as Hskip.
    { intros u s units raw Hl Hn. cbn [with_unit]. by rewrite other_suffix. }
    clear -Hu Hhere Hskip. unfold printed_units in Hu. rewrite !elem_of_cons, elem_of_nil in Hu. unfold byteSizeUnits.
    destruct Hu as [[= -> -> ->]|[[= -> -> ->]|[[= -> -> ->]|[]]]]; rewrite ?Hskip by done; apply Hhere. }
  unfold ByteSize_UnmarshalText. rewrite TrimSpace_plain by (rewrite lit_append; by apply Forall_app).
  rewrite ToUpper_app, Hup, Ew by done. cbv zeta.
  destruct (String.eqb_spec (Itoa k ++ name) "") as [E|]; [|done]. apply (f_equal lit) in E. rewrite lit_append in E.
  destruct (Itoa_head k ltac:(lia)) as (c & l & E' & _). by rewrite E' in E.
Qed.

Lemma digits_no_suffix s suffix c : Forall (fun c => is_Some (digit c)) (lit s) -> c ∈ lit suffix -> digit c = None -> before_suffix s suffix = None.
Proof.
  intros Hs Hc Hd. apply before_suffix_None. intros p ->. rewrite lit_append in Hs. apply Forall_app in Hs as [_ Hs].
  rewrite Forall_forall in Hs. apply Hs in Hc. rewrite Hd in Hc. by destruct Hc.
Qed.
Lemma bare_reads b : 0 <= b < 2 ^ 63 -> ByteSize_UnmarshalText out_of_range (Itoa b) = inr b.
Proof.
  intros Hb. pose proof (Itoa_digits b ltac:(lia)) as Hd. unfold ByteSize_UnmarshalText.
  rewrite TrimSpace_plain by (eapply Forall_impl; [exact Hd|apply digit_plain]). rewrite number_not_empty by lia. cbv zeta.
  assert (ToUpper (Itoa b) = Itoa b) as ->.
  { pose proof (ToUpper_app (Itoa b) "" Hd) as E. change (ToUpper "") with ""%string in E. rewrite str_app_nil_r in E. exact E. }
  assert (with_unit out_of_range byteSizeUnits (Itoa b) (Itoa b) = None) as ->.
  { assert (Forall (fun u => exists c, c ∈ lit u.1 /\ digit c = None) byteSizeUnits) as Hu.
    { repeat constructor; cbn [fst]; (eexists; split; [left|done]). }
    induction Hu as [|[u s] units (c & Hc & Hn) _ IH]; [done|]. cbn [with_unit]. by rewrite (digits_no_suffix (Itoa b) u c Hd Hc Hn). }
  destruct (Itoa_head b ltac:(lia)) as (c & l & E & Hc & _). pose proof (all_digits_Itoa b ltac:(lia)) as Ha.
  assert (ParseInt (Itoa b) = Some b) as ->; [|by rewrite (proj2 (Z.ltb_ge b 0)) by lia].
  unfold ParseInt. fold (lit (Itoa b)). rewrite E in *.
  transitivity (n ← all_digits (c :: l) 0; if bool_decide (is_i64 n) then Some n else None).
  - destruct Hc as [d Hc]. destruct c as [[] [] [] [] [] [] [] []]; try discriminate Hc; reflexivity.
  - rewrite Ha. cbn [mbind option_bind]. by rewrite bool_decide_true by (unfold is_i64; lia).
Qed.

Lemma size_read_back b : 0 <= b < 2 ^ 63 -> ByteSize_UnmarshalText out_of_range (ByteSize_String b) = inr b.
Proof.
  intros Hb. assert (forall j name up, 10 <= j <= 30 -> 2 ^ j <= b -> b mod 2 ^ j = 0 -> (name, up, 2 ^ j) ∈ printed_units ->
    ByteSize_UnmarshalText out_of_range (Itoa (b / 2 ^ j) ++ name) = inr b) as Hunit.
  { intros j name up Hj Hle Hmod Hin. pose proof (Z.pow_pos_nonneg 2 j ltac:(lia) ltac:(lia)) as Hp.
    pose proof (Z.div_mod b (2 ^ j) ltac:(lia)) as Eb. rewrite Hmod, Z.add_0_r, Z.mul_comm in Eb.
    assert (0 < b / 2 ^ j < 2 ^ 53) as Hk.
    { split; [by apply Z.div_str_pos; lia|]. apply Z.div_lt_upper_bound; [done|].
      apply Z.lt_le_trans with (2 ^ 10 * 2 ^ 53); [lia|]. apply Z.mul_le_mono_nonneg_r; [done|]. apply Z.pow_le_mono_r; lia. }
    destruct (unit_reads (b / 2 ^ j) name up (2 ^ j) Hk Hin) as (x & Hx & ->). f_equal. apply to_Z_exact; [|lia].
    rewrite Eb at 1. apply mul_exact; [done|apply of_Z_exact|lia|done|].
    - exists 1, j. split; [lia|]. split; [done|lia].
    - exists (b / 2 ^ j), j. split; [done|]. split; [done|lia]. }
  unfold ByteSize_String.
  destruct (Z.leb_spec (2 ^ 30) b), (Z.eqb_spec (b mod 2 ^ 30) 0); cbn [andb];
    [apply (Hunit 30 "GiB" "GIB"); [lia|done|done|by do 2 right; left]|..];
    (destruct (Z.leb_spec (2 ^ 20) b), (Z.eqb_spec (b mod 2 ^ 20) 0); cbn [andb];
      [apply (Hunit 20 "MiB" "MIB"); [lia|done|done|by right; left]|..]);
    (destruct (Z.leb_spec (2 ^ 10) b), (Z.eqb_spec (b mod 2 ^ 10) 0); cbn [andb];
      [apply (Hunit 10 "KiB" "KIB"); [lia|done|done|by left]|..]); by apply bare_reads.
Qed.

(** [C36] What the program prints of its configuration it reads back: every duration, down
    to the nanosecond and over the whole range of 64 bits, and every size, whatever unit it
    is printed in and although a suffixed size is read as a double and multiplied.  And
    reading a duration always ends, with an error or with a value of 64 bits. *)
Theorem settings_read_back (d b : Z) (text : string) :
  (- 2 ^ 63 <= d < 2 ^ 63 -> Duration_UnmarshalText out_of_range (Duration_String d) = Some (inr d))
  /\ (0 <= b < 2 ^ 63 -> ByteSize_UnmarshalText out_of_range (ByteSize_String b) = inr b)
  /\ exists r, Duration_UnmarshalText out_of_range text = Some r /\ forall v, r = inr v -> - 2 ^ 63 <= v < 2 ^ 63.
Proof.
  split; [apply duration_read_back|]. split; [apply size_read_back|].
  destruct (ParseDuration_ends text) as (r & E & Hr). unfold Duration_UnmarshalText. rewrite E. cbn [mbind option_bind].
  eexists. split; [done|]. intros v. destruct r; [done|]. intros [= <-]. by apply Hr.
Qed.

(** Only a size without a unit is checked against 64 bits: with a unit, and a value
    that does not fit, the result is whatever the machine converts the double to, and no
    error; so are an infinite number of bytes and no number at all. *)
Theorem suffixed_size_unchecked (k : Z) : 2 ^ 33 <= k < 2 ^ 53 ->
  (exists x, exactly x (k * 2 ^ 30) /\ ByteSize_UnmarshalText out_of_range (Itoa k ++ "GiB") = inr (out_of_range x))
  /\ ByteSize_UnmarshalText out_of_range "InfMB" = inr (out_of_range (Inf false))
  /\ ByteSize_UnmarshalText out_of_range "NaNB" = inr (out_of_range NaN)
  /\ (exists e, ByteSize_UnmarshalText out_of_range (Itoa (2 ^ 63)) = inl e).
Proof.
  intros Hk. split; [|split; [reflexivity|split; [reflexivity|by eexists]]].
  destruct (unit_reads k "GiB" "GIB" (2 ^ 30)) as (x & Hx & E); [lia|by do 2 right; left|].
  assert (exactly (mul x (of_Z (2 ^ 30))) (k * 2 ^ 30)) as He.
  { apply mul_exact; [done|by apply of_Z_exact, short_small|lia|done|]. exists k, 30. split; [done|]. split; [lia|done]. }
  exists (mul x (of_Z (2 ^ 30))). split; [done|]. rewrite E. f_equal. destruct He as (m & e & -> & Hv). unfold to_Z.
  assert ((if 0 <=? e then m * 2 ^ e else Z.quot m (2 ^ (- e))) = k * 2 ^ 30) as ->.
  { destruct (Z.leb_spec 0 e); [done|]. subst m. apply Z.quot_mul. pose proof (Z.pow_pos_nonneg 2 (- e)). lia. }
  rewrite (proj2 (Z.leb_gt (k * 2 ^ 30) (2 ^ 63 - 1))) by lia. by rewrite andb_false_r.
Qed.
End conversions.

Lemma settings_read_back_witness :
  Duration_UnmarshalText amd64 (Duration_String (- 2 ^ 63)) = Some (inr (- 2 ^ 63)) /\ ByteSize_UnmarshalText amd64 (ByteSize_String (3 * 2 ^ 30)) = inr (3 * 2 ^ 30).
Proof.
  split; [apply (proj1 (settings_read_back amd64 (- 2 ^ 63) 0 "")); lia|].
  apply (proj1 (proj2 (settings_read_back amd64 0 (3 * 2 ^ 30) ""))). lia.
Defined.
Lemma suffixed_size_unchecked_witness : exists x, exactly x (2 ^ 63) /\ ByteSize_UnmarshalText amd64 (Itoa (2 ^ 33) ++ "GiB") = inr (amd64 x).
Proof. exact (proj1 (suffixed_size_unchecked amd64 (2 ^ 33) ltac:(lia))). Defined.
