(* ===== verification/Display.v ===== *)
(** What the pages show of sizes, times and progress (internal/web/render.go: the functions
    of the templates; sse.go: estimateRemaining). *)
From S2P Require Import Prelude GoStrings Retry Text GoFloat Config.
From Stdlib Require Import String.
From stdpp Require Import strings list.
Open Scope list_scope.
Open Scope Z_scope.

(** * Functions of the templates *)

(** The loop that finds the unit: the divisor and the index of its letter; [None] when
    [fuel] divisions were not enough. *)
Fixpoint find_unit (fuel : nat) (size div : Z) (exp : nat) : option (Z * nat) :=
  if size <? 1024 then Some (div, exp)
  else match fuel with
       | O => None
       | S fuel => find_unit fuel (size / 1024) (i64 (div * 1024)) (S exp)
       end.
Inductive formatted := Shown (s : string) | Panics.
(** An index past the last letter panics, and the page that asked is not rendered. *)
Definition formatBytes (n : Z) : option formatted :=
  if n <? 1024 then Some (Shown (Itoa n ++ " B"))
  else
    '(d, exp) ← find_unit 7 (n / 1024) 1024 0;
    Some match lit "KMGTP" !! exp with
         | Some c => Shown (one_decimal (div (of_Z n) (of_Z d)) ++ " " ++ String c "iB")
         | None => Panics
         end.

(** [time.Duration.Minutes], [Hours] and [Seconds]: the whole units and the fraction. *)
Definition in_units (unit d : Z) : float64 := add (of_Z (Z.quot d unit)) (GoFloat.div (of_Z (Z.rem d unit)) (of_Z unit)).
Definition Minutes : Z -> float64 := in_units Minute.
Definition Hours : Z -> float64 := in_units Hour.
Definition Seconds : Z -> float64 := in_units Second.
(** [formatAgo] at [now], both in nanoseconds; [None] is no time, or the zero time. *)
Definition formatAgo (out_of_range : float64 -> Z) (t : option Z) (now : Z) : string :=
  let int := to_Z out_of_range (- 2 ^ 63) (2 ^ 63 - 1) in
  match t with
  | None => "never"
  | Some t =>
      let d := now - t in
      if (d <? Minute)%Z then "just now"
      else if (d <? Hour)%Z then (Itoa (int (Minutes d)) ++ " min ago")%string
      else if (d <? 24 * Hour)%Z then (Itoa (int (Hours d)) ++ " hours ago")%string
      else (Itoa (int (GoFloat.div (Hours d) (of_Z 24))) ++ " days ago")%string
  end.
Definition firstOr (fallback : string) (values : list string) : string :=
  match values with [] => fallback | v :: _ => if String.eqb v "" then fallback else v end.
Definition percent (done total : Z) : Z := if total <=? 0 then 0 else Z.quot (i64 (done * 100)) total.
Definition hasFlag (flags : list string) (flag : string) : bool := existsb (fun f => EqualFold f flag) flags.

(** * The projected time to finish *)

(** [time.Duration.Round] *)
Definition Duration_Round (d m : Z) : Z :=
  if m <=? 0 then d else
  let r := Z.rem d m in
  if d <? 0 then
    let r := - r in
    if r + r <? m then d + r else
    let d1 := i64 (d - m + r) in if d1 <? d then d1 else - 2 ^ 63
  else if r + r <? m then d - r
  else let d1 := i64 (d + m - r) in if d <? d1 then d1 else 2 ^ 63 - 1.

(** [estimating…] ends in a single character of three bytes. *)
Definition ellipsis : string := String (ascii_of_nat 226) (String (ascii_of_nat 128) (String (ascii_of_nat 166) "")).
Definition positive (x : float64) : bool := match x with Finite m _ => 0 <? m | Inf neg => negb neg | NaN => false end.
Definition estimateRemaining (out_of_range : float64 -> Z) (elapsed done pending : Z) : string :=
  if pending <=? 0 then ""
  else if (done <? 20) || (elapsed <? 5 * Second) then ("estimating" ++ ellipsis)%string
  else
    let rate := GoFloat.div (of_Z done) (Seconds elapsed) in
    if negb (positive rate || match rate with NaN => true | _ => false end) then ""
    else
      let remaining := i64 (to_Z out_of_range (- 2 ^ 63) (2 ^ 63 - 1) (GoFloat.div (of_Z pending) rate) * Second) in
      (Duration_String (Duration_Round remaining Second) ++ " remaining")%string.

Definition machine (_ : float64) : Z := - 2 ^ 63.
Example bytes_shown : map formatBytes [1023; 1024; 1536; 1048575; 1048576; 5368709120; 2 ^ 60 - 1; 2 ^ 60]
  = [Some (Shown "1023 B"); Some (Shown "1.0 KiB"); Some (Shown "1.5 KiB"); Some (Shown "1024.0 KiB"); Some (Shown "1.0 MiB"); Some (Shown "5.0 GiB");
     Some (Shown "1024.0 PiB"); Some Panics].
Proof. vm_compute. reflexivity. Qed.
Example estimates : estimateRemaining machine (10 * Second) 100 50 = "5s remaining"%string /\ estimateRemaining machine (90 * Second) 1000 100000 = "2h30m0s remaining"%string
  /\ estimateRemaining machine (10 * Second) 19 50 = ("estimating" ++ ellipsis)%string.
Proof. repeat split; vm_compute; reflexivity. Qed.
(** Slow enough, the product overflows: 35 million messages at twenty in two hours. *)
Example estimate_overflows : estimateRemaining machine (2 * Hour) 20 35000000 = "-1624095h34m34s remaining"%string.
Proof. vm_compute. reflexivity. Qed.
Example ages : map (fun d => formatAgo machine (Some 0) d) [-5; Minute - 1; 90 * Second; Hour - 1; 5 * Hour; 24 * Hour - 1; 24 * Hour; 800 * Hour - 1]
  = ["just now"; "just now"; "1 min ago"; "59 min ago"; "5 hours ago"; "23 hours ago"; "1 days ago"; "33 days ago"]%string.
Proof. vm_compute. reflexivity. Qed.

(** * Sizes *)

Lemma find_unit_pow fuel : forall n k, 0 <= n -> (k + fuel <= 7)%nat -> n * 1024 ^ Z.of_nat (S k) < 2 ^ 63 -> n < 1024 ^ Z.of_nat (S fuel) ->
  exists j, (k <= j <= k + fuel)%nat /\ find_unit fuel n (1024 ^ Z.of_nat (S k)) k = Some (1024 ^ Z.of_nat (S j), j)
    /\ (j = k /\ n < 1024 \/ 1024 ^ Z.of_nat (j - k) <= n < 1024 ^ Z.of_nat (S (j - k))).
Proof.
  induction fuel as [|fuel IH]; intros n k Hn Hk Hb Hlt; cbn [find_unit].
  - exists k. change (1024 ^ Z.of_nat 1) with 1024 in Hlt. rewrite (proj2 (Z.ltb_lt n 1024)) by lia. split; [lia|]. split; [done|by left].
  - destruct (Z.ltb_spec n 1024) as [H|H]; [exists k; split; [lia|]; split; [done|by left]|].
    pose proof (Z.pow_pos_nonneg 1024 (Z.of_nat k) ltac:(done) ltac:(lia)) as Hp.
    assert (1024 ^ Z.of_nat (S (S k)) = 1024 ^ Z.of_nat (S k) * 1024) as Es by (rewrite (Nat2Z.inj_succ (S k)), Z.pow_succ_r by lia; lia).
    assert (1024 ^ Z.of_nat (S (S fuel)) = 1024 ^ Z.of_nat (S fuel) * 1024) as Ef by (rewrite (Nat2Z.inj_succ (S fuel)), Z.pow_succ_r by lia; lia).
    pose proof (Z.div_mod n 1024 ltac:(done)). pose proof (Z.mod_pos_bound n 1024 ltac:(done)).
    pose proof (Z.pow_pos_nonneg 1024 (Z.of_nat (S k)) ltac:(done) ltac:(lia)) as Hp1.
    rewrite i64_id by (unfold is_i64; rewrite <- Es; nia). rewrite <- Es.
    destruct (IH (n / 1024) (S k)) as (j & Hj & E & Hor); [apply Z.div_pos; lia|lia|rewrite Es; nia|apply Z.div_lt_upper_bound; lia|].
    exists j. split; [lia|]. split; [exact E|]. right. destruct Hor as [[-> Hlt']|Hor].
    + replace (S k - k)%nat with 1%nat by lia. change (1024 ^ Z.of_nat 1) with 1024. change (1024 ^ Z.of_nat 2) with (1024 * 1024). lia.
    + replace (j - k)%nat with (S (j - S k)) by lia. rewrite (Nat2Z.inj_succ (S (j - S k))), (Nat2Z.inj_succ (j - S k)), !Z.pow_succ_r by lia.
      rewrite Nat2Z.inj_succ, Z.pow_succ_r in Hor by lia. lia.
Qed.

Lemma unit_of n : 1024 <= n < 2 ^ 63 -> exists j, (j <= 5)%nat /\ find_unit 7 (n / 1024) 1024 0 = Some (1024 ^ Z.of_nat (S j), j)
  /\ 1024 ^ Z.of_nat (S j) <= n < 1024 ^ Z.of_nat (S (S j)).
Proof.
  intros Hn. pose proof (Z.div_mod n 1024 ltac:(done)). pose proof (Z.mod_pos_bound n 1024 ltac:(done)).
  destruct (find_unit_pow 7 (n / 1024) 0) as (j & Hj & E & Hor); [apply Z.div_pos; lia|lia|change (1024 ^ Z.of_nat 1) with 1024; lia| |].
  { apply Z.div_lt_upper_bound; [done|]. apply Z.lt_trans with (2 ^ 63); [lia|done]. }
  assert (1024 ^ Z.of_nat (S j) <= n < 1024 ^ Z.of_nat (S (S j))) as Hb.
  { destruct Hor as [[-> Hlt]|Hor].
    - change (1024 ^ Z.of_nat 1) with 1024. change (1024 ^ Z.of_nat 2) with (1024 * 1024). lia.
    - rewrite Nat.sub_0_r in Hor. rewrite (Nat2Z.inj_succ (S j)), (Nat2Z.inj_succ j), !Z.pow_succ_r by lia.
      rewrite Nat2Z.inj_succ, Z.pow_succ_r in Hor by lia. lia. }
  exists j. split; [|by split]. destruct (decide (j <= 5)%nat) as [|Hj5]; [done|]. exfalso.
  assert (1024 ^ 7 <= 1024 ^ Z.of_nat (S j)) by (apply Z.pow_le_mono_r; lia). assert (2 ^ 63 < 1024 ^ 7) by done. lia.
Qed.

Lemma one_decimal_dyadic n j e : 0 < n -> 0 <= j -> e <= - j -> exists t,
  one_decimal (Finite (n * 2 ^ (- e - j)) e) = (Itoa (t / 10) ++ "." ++ Itoa (t mod 10))%string /\ 2 * Z.abs (t * 2 ^ j - 10 * n) <= 2 ^ j.
Proof.
  intros Hn Hj He. unfold one_decimal. pose proof (Z.pow_pos_nonneg 2 (- e - j) ltac:(lia) ltac:(lia)) as Hp.
  pose proof (Z.pow_pos_nonneg 2 j ltac:(lia) Hj) as Hp2.
  rewrite (proj2 (Z.ltb_ge (n * 2 ^ (- e - j)) 0)) by nia. rewrite Z.abs_eq by nia.
  assert (exists q, over (n * 2 ^ (- e - j) * 10) e = (10 * n * 2 ^ (- e - j), q) /\ q = 2 ^ (- e - j) * 2 ^ j) as (q & -> & Eq).
  { unfold over. destruct (Z.leb_spec 0 e) as [H0|H0].
    - assert (e = 0 /\ j = 0) as [-> ->] by lia. exists 1. split; [|done]. f_equal. cbn. lia.
    - exists (2 ^ (- e)). split; [f_equal; lia|]. rewrite <- Z.pow_add_r by lia. f_equal. lia. }
  eexists. split; [reflexivity|]. pose proof (round_half_even_near (10 * n * 2 ^ (- e - j)) q ltac:(nia)) as Hr.
  set (t := round_half_even _ _) in *. clearbody t. subst q. set (a := 2 ^ (- e - j)) in *. clearbody a.
  replace (t * (a * 2 ^ j) - 10 * n * a) with (a * (t * 2 ^ j - 10 * n)) in Hr by ring. rewrite Z.abs_mul, (Z.abs_eq a) in Hr by lia. nia.
Qed.

(** Sizes are shown in the largest unit they fill, to one decimal: below 2^53 bytes
    the figure is off by no more than half a tenth of its unit.  From 2^60 bytes on there
    is no letter left for the unit, and showing the size panics. *)
Theorem sizes_shown (n : Z) :
  (n < 1024 -> formatBytes n = Some (Shown (Itoa n ++ " B")))
  /\ (1024 <= n < 2 ^ 60 -> exists j c text, lit "KMGTP" !! j = Some c /\ 1024 ^ Z.of_nat (S j) <= n < 1024 ^ Z.of_nat (S (S j))
      /\ formatBytes n = Some (Shown (text ++ " " ++ String c "iB"))
      /\ (n < 2 ^ 53 -> exists t, text = (Itoa (t / 10) ++ "." ++ Itoa (t mod 10))%string
          /\ 2 * Z.abs (t * 1024 ^ Z.of_nat (S j) - 10 * n) <= 1024 ^ Z.of_nat (S j)))
  /\ (2 ^ 60 <= n < 2 ^ 63 -> formatBytes n = Some Panics).
Proof.
  split; [|split]; intros Hn; unfold formatBytes; [by rewrite (proj2 (Z.ltb_lt _ _) Hn)|..]; rewrite (proj2 (Z.ltb_ge n 1024)) by lia;
    destruct (unit_of n ltac:(lia)) as (j & Hj & -> & Hb); cbn [mbind option_bind].
  - assert (j < 5)%nat as Hj5.
    { destruct (decide (j < 5)%nat); [done|]. assert (1024 ^ 6 <= 1024 ^ Z.of_nat (S j)) by (apply Z.pow_le_mono_r; lia).
      assert (1024 ^ 6 = 2 ^ 60) by done. lia. }
    destruct (lookup_lt_is_Some_2 (lit "KMGTP") j) as [c Hc]; [cbn; lia|]. rewrite Hc. exists j, c. eexists.
    split_and!; [done|lia|lia|reflexivity|]. intros H53.
    assert (1024 ^ Z.of_nat (S j) = 2 ^ (10 * Z.of_nat (S j))) as Epow by (rewrite Z.pow_mul_r by lia; done).
    destruct (div_dyadic (of_Z n) (of_Z (1024 ^ Z.of_nat (S j))) n (10 * Z.of_nat (S j))) as (e & Ed & He);
      [by apply of_Z_exact, short_small; lia| |lia|lia|].
    { rewrite <- Epow. apply of_Z_exact, short_small. split; [apply Z.pow_pos_nonneg; lia|lia]. }
    rewrite Ed. destruct (one_decimal_dyadic n (10 * Z.of_nat (S j)) e) as (t & Et & Ht); [lia|lia|done|]. exists t. by rewrite Epow.
  - assert (j = 5)%nat as ->; [|done]. destruct (decide (j < 5)%nat); [|lia].
    assert (1024 ^ Z.of_nat (S (S j)) <= 1024 ^ 6) by (apply Z.pow_le_mono_r; lia). assert (1024 ^ 6 = 2 ^ 60) by done. lia.
Qed.
Lemma sizes_shown_witness : exists t, formatBytes 1500000 = Some (Shown ((Itoa (t / 10) ++ "." ++ Itoa (t mod 10)) ++ " MiB"))
  /\ 2 * Z.abs (t * 1048576 - 15000000) <= 1048576.
Proof.
  destruct (proj1 (proj2 (sizes_shown 1500000)) ltac:(lia)) as (j & c & text & Hc & Hb & E & Ht).
  destruct (Ht ltac:(lia)) as (t & Et & Hnear). exists t.
  assert (j = 1%nat) as ->; [|subst text; cbn in Hc; injection Hc as <-; split; [exact E|exact Hnear]].
  destruct j as [|[|j]]; [cbn in Hb; lia|reflexivity|]. assert (1024 ^ 3 <= 1024 ^ Z.of_nat (S (S (S j)))) by (apply Z.pow_le_mono_r; lia).
  cbn in H. lia.
Defined.
