(* ===== verification/Search.v ===== *)
(** Full-text search (internal/search): the query over stored messages.  How PostgreSQL
    parses, matches, ranks and highlights text is its own; the joins, the filters, the
    limit and the count are the program's. *)
From S2P Require Import Prelude GoStrings Retry Schema StoreMailboxes StoreMessages StoreBrowse ImapText.
From Stdlib Require Import String.
From stdpp Require Import strings gmap list.
Open Scope list_scope.
Open Scope Z_scope.

Record Query := mk_Query { qu_Text : string; qu_AccountID : Z; qu_MailboxID : Z; qu_Limit : Z; qu_Offset : Z }.
Record SearchResult := mk_SearchResult {
  re_MessageID : Z; re_MailboxMessageID : Z; re_MailboxID : Z; re_MailboxName : string; re_LocalUID : Z;
  re_Subject : string; re_From : list string; re_Preview : string; re_InternalDate : option Z; re_Size : Z;
  re_Flags : list string; re_Rank : Z; re_Highlight : string
}.

Definition defaultLimit : Z := 50.
Definition search_limit (limit : Z) : Z := if (limit <=? 0) || (500 <? limit) then defaultLimit else limit.

(** [NewPostgres] *)
Definition search_language (language : string) : string := if String.eqb language "" then "english"%string else language.

Section postgres.
(** [m.search_tsv @@ websearch_to_tsquery(language, text)], [ts_rank_cd] (as a number that
    orders the same) and [ts_headline]. *)
Variable tsv_matches : string -> string -> message_row -> bool.
Variable ts_rank_cd : string -> string -> message_row -> Z.
Variable ts_headline : string -> string -> message_row -> string.
Variable language : string.

Definition result_row (text : string) (mmID : Z) (mm : mm_row) (m : message_row) (mb : mailbox_row) : SearchResult :=
  let '(from, _, _) := decodeAddresses (m_addrs m) in
  {| re_MessageID := mm_message_id mm; re_MailboxMessageID := mmID; re_MailboxID := mm_mailbox_id mm;
     re_MailboxName := mb_name mb; re_LocalUID := mm_local_uid mm; re_Subject := COALESCE (m_subject m) ""%string;
     re_From := from; re_Preview := COALESCE (m_preview m) ""%string; re_InternalDate := m_internal_date m;
     re_Size := m_rfc822_size m; re_Flags := mm_flags mm; re_Rank := ts_rank_cd language text m;
     re_Highlight := ts_headline language text m |}.

(** The join: a placement that is not expunged, its message and its mailbox. *)
Definition hit (text : string) (q : Query) (db : DB) (kr : Z * mm_row) : option SearchResult :=
  m ← rows (messages db) !! mm_message_id kr.2;
  mb ← rows (mailboxes db) !! mm_mailbox_id kr.2;
  if (m_account_id m =? qu_AccountID q) && tsv_matches language text m
     && (negb (0 <? qu_MailboxID q) || (mm_mailbox_id kr.2 =? qu_MailboxID q))
  then Some (result_row text kr.1 kr.2 m mb) else None.
Definition not_expunged (_ : Z) (r : mm_row) : bool := bool_decide (mm_expunged_at r = None).
Definition hits (text : string) (q : Query) (db : DB) : list SearchResult :=
  omap (hit text q db) (select not_expunged (mailbox_messages db)).

(** [ORDER BY rank DESC, internal_date DESC NULLS LAST] *)
Definition best_first (a b : SearchResult) : Prop :=
  re_Rank b < re_Rank a \/
  (re_Rank a = re_Rank b /\
   match re_InternalDate a, re_InternalDate b with
   | Some x, Some y => y <= x
   | _, None => True
   | None, Some _ => False
   end).
#[export] Instance best_first_dec : RelDecision best_first.
Proof.
  intros a b. unfold best_first.
  destruct (re_InternalDate a), (re_InternalDate b); apply _.
Defined.

Definition Search (q : Query) : sql (list SearchResult * Z) := fun db =>
  let text := string_of_list_ascii (ImapText.TrimSpace (list_ascii_of_string (qu_Text q))) in
  if String.eqb text "" then (inr ([], 0), db) else
  if (qu_Offset q <? 0) then (inl (ErrWrap "searching messages: " (ErrText "OFFSET must not be negative") ""), db) else
  let all := merge_sort best_first (hits text q db) in
  (inr (with_total all (page (search_limit (qu_Limit q)) (qu_Offset q) all)), db).
End postgres.
