(* ===== verification/Web.v ===== *)
(** The browser interface (internal/web: auth.go, render.go, server.go): requests and
    responses, signing in and out, the check in front of every protected page, and the
    routes.  A handler runs while others change the database, and any of its store calls
    may fail. *)
From S2P Require Import Prelude GoStrings Retry Crypto Text Schema StoreMailboxes StoreMessages StoreRuns StoreAccounts StoreBrowse SyncMeta SyncPass Config ConfigLoad Search SyncRun Effects.
From Stdlib Require Import String.
From stdpp Require Import strings gmap list.
Open Scope list_scope.
Open Scope Z_scope.

(** * Requests and responses *)

(** A request as net/http hands it over: the segments of the cleaned path, the values
    [URL.Query().Get] and [FormValue] find, and whether the form could not be parsed. *)
Record Request := mk_Request {
  rq_Method : string;
  rq_Path : list string;
  rq_Query : list (string * string);
  rq_Form : list (string * string);
  rq_FormMalformed : bool;
  rq_Cookies : list (string * string);
  rq_HXRequest : bool;
  rq_CSRFHeader : string;
  rq_UserAgent : string;
  rq_RemoteAddr : string
}.

Definition value_of (name : string) (l : list (string * string)) : option string :=
  snd <$> (snd <$> list_find (fun e => e.1 = name) l).
Definition FormValue (r : Request) (name : string) : string := default ""%string (value_of name (rq_Form r)).
Definition Query_Get (r : Request) (name : string) : string := default ""%string (value_of name (rq_Query r)).
Definition Cookie_value (r : Request) (name : string) : option string := value_of name (rq_Cookies r).

Record Cookie := mk_Cookie {
  ck_Name : string; ck_Value : string; ck_Expires : Z; ck_HttpOnly : bool; ck_Secure : bool
}.

Record syncProgressView := mk_syncProgressView {
  pv_AccountID : Z; pv_AccountEmail : string; pv_Phase : string; pv_Mailbox : string;
  pv_MailboxesDone : Z; pv_MailboxesTotal : Z; pv_MessagesNew : Z; pv_BodiesFetched : Z; pv_BytesFetched : Z;
  pv_PendingBodies : Z; pv_Elapsed : string; pv_Percent : Z
}.
Record dashboardAccount := mk_dashboardAccount {
  da_Account : Account; da_Stats : AccountStats; da_Running : bool; da_Progress : option syncProgressView
}.
Record accountView := mk_accountView {
  av_Account : Account; av_Stats : AccountStats; av_Mailboxes : list Mailbox; av_Runs : list SyncRun;
  av_Running : bool; av_Progress : option syncProgressView
}.
Record mailboxView := mk_mailboxView {
  mv_Mailbox : Mailbox; mv_Messages : list MessageSummary; mv_Total : Z; mv_Page : Z; mv_PageSize : Z;
  mv_HasNext : bool; mv_HasPrev : bool
}.
Record searchView := mk_searchView { sv_Query : string; sv_Results : list SearchResult; sv_Total : Z; sv_Ran : bool }.
Record runRow := mk_runRow { rr_Account : Account; rr_Run : SyncRun; rr_Stale : bool }.

Inductive Content :=
| NoContent
| Dashboard (accounts : list dashboardAccount)
| Accounts (accounts : list Account)
| AccountPage (view : accountView)
| MailboxPage (view : mailboxView)
| MessagePage (message : MessageDetail)
| SearchPage (view : searchView)
| RunsPage (rows : list runRow)
| SettingsPage (fields : list Field)
| SyncPage (views : list syncProgressView).

Record pageData := mk_pageData {
  pd_Title : string; pd_User : option User; pd_CSRF : string; pd_Flash : string; pd_Error : string;
  pd_Content : Content; pd_Fragment : string
}.
Definition page_of (title : string) (content : Content) : pageData := mk_pageData title None "" "" "" content "".
Definition error_page (title text : string) : pageData := mk_pageData title None "" "" text NoContent "".

Inductive Body :=
| Text_ (text : string)                          (* http.Error, http.NotFound *)
| Page (template : string) (data : pageData)     (* an executed template *)
| Content_ (bytes : list ascii)                  (* an object of the blob store *)
| Stream (chunks : list (list ascii))            (* what was written of an event stream *)
| Nothing.                                       (* a redirect *)
Record Response := mk_Response { rs_Status : Z; rs_Headers : list (string * string); rs_Body : Body }.

Definition http_Error (text : string) (status : Z) : Response :=
  mk_Response status [("Content-Type", "text/plain; charset=utf-8"); ("X-Content-Type-Options", "nosniff")]%string (Text_ text).
Definition NotFound : Response := http_Error "404 page not found" 404.
Definition Redirect (location : string) : Response := mk_Response 303 [("Location"%string, location)] Nothing.

(** * The surroundings *)

(** What wakes an event stream: the client is gone, the ticker or the heartbeat fires;
    writing to the client may fail. *)
Inductive Tick := Gone | ProgressDue (written : bool) | HeartbeatDue (written : bool).

Record WebEnv := mk_WebEnv {
  we_fault : nat -> store_fault;                 (* what a store call does *)
  we_others : nat -> DB -> DB;                   (* what others commit before it *)
  we_now : nat -> Z;                             (* the clock, in microseconds *)
  we_rand : nat -> nat -> err + list ascii;      (* so many random bytes, at the n-th draw *)
  we_progress : nat -> Z -> option (Progress * Z);    (* a running sync, and for how many nanoseconds *)
  we_blob : nat -> option err;                   (* reading an object fails *)
  we_template : string -> pageData -> err + list ascii;   (* executing a template *)
  we_first : bool;                               (* whether a stream's first event is written *)
  we_ticks : list Tick                           (* and what wakes it after that *)
}.

(** Nobody else commits anything meanwhile. *)
Definition undisturbed (env : WebEnv) : Prop := forall n db, we_others env n db = db.

(** And every store call succeeds. *)
Definition faultless (env : WebEnv) : Prop := undisturbed env /\ forall n, we_fault env n = NoFault.

(** The state of a request: the database, the calls and draws so far, the cookies set,
    and the syncs started in the background. *)
Record Web := mk_Web {
  wb_db : DB; wb_calls : nat; wb_draws : nat; wb_cookies : list Cookie; wb_started : list (Z * string)
}.

(** A handler; it stops early with the response it has written. *)
Definition H (A : Type) : Type := SE Response Web A.
(** The response of a handler, however it ended, and the state after it. *)
Definition answer (m : H Response) (w : Web) : Response * Web :=
  match m w with (inl r, w') | (inr r, w') => (r, w') end.

Section web.
Context {K : Type} `{AEAD K}.
Variable env : WebEnv.
Variable cfg : Config.
(** SHA-256, and argon2. *)
Variable Sum256 : list ascii -> list Z.
Variable IDKey : list ascii -> list ascii -> Z -> Z -> Z -> Z -> list ascii.

Definition with_db (db : DB) (w : Web) : Web := mk_Web db (S (wb_calls w)) (wb_draws w) (wb_cookies w) (wb_started w).
Definition SetCookie (c : Cookie) : H unit :=
  updates (fun w => mk_Web (wb_db w) (wb_calls w) (wb_draws w) (wb_cookies w ++ [c]) (wb_started w)).
(** [startSync]: the sync runs on its own, after the response. *)
Definition startSync (accountID : Z) (trigger : string) : H unit :=
  updates (fun w => mk_Web (wb_db w) (wb_calls w) (wb_draws w) (wb_cookies w) (wb_started w ++ [(accountID, trigger)])).

(** A store call, whose error the handler looks at. *)
Definition query {A} (m : Z -> sql A) : H (err + A) := fun w =>
  let n := wb_calls w in
  let db := we_others env n (wb_db w) in
  match we_fault env n with
  | NoFault => let '(r, db) := m (we_now env n) db in (inr r, with_db db w)
  | FailBefore e => (inr (inl e), with_db db w)
  | FailAfter e => (inr (inl e), with_db (exec (m (we_now env n)) db) w)
  end.
Definition clock : H Z := look (fun w => we_now env (wb_calls w)).
Definition draw (n : nat) : H (err + list ascii) := fun w =>
  (inr (we_rand env (wb_draws w) n), mk_Web (wb_db w) (wb_calls w) (S (wb_draws w)) (wb_cookies w) (wb_started w)).

(** * Rendering *)

Definition csrfCookie : string := "imapped_csrf".
Definition sessionCookie : string := "imapped_session".
Definition csrfField : string := "csrf_token".

(** [render]; [user] is what the request's context holds, [written] the status already
    sent, after which headers no longer count. *)
Definition render (r : Request) (user : option User) (written : option Z) (name : string) (data : pageData) : H Response :=
  let csrf := default (pd_CSRF data) (Cookie_value r csrfCookie) in
  let target := if rq_HXRequest r then name else "layout.html"%string in
  let fragment := if rq_HXRequest r then pd_Fragment data else name in
  let data := mk_pageData (pd_Title data) (match user with Some u => Some u | None => pd_User data end) csrf (pd_Flash data)
                (pd_Error data) (pd_Content data) fragment in
  mret match we_template env target data with
  | inl _ =>
      let answer := http_Error "the page could not be rendered" 500 in
      match written with
      | Some status => mk_Response status [] (rs_Body answer)
      | None => answer
      end
  | inr _ =>
      match written with
      | Some status => mk_Response status [] (Page target data)
      | None => mk_Response 200 [("Content-Type", "text/html; charset=utf-8")]%string (Page target data)
      end
  end.

(** [fail]: the cause goes to the log only. *)
Definition fail {A} (r : Request) (user : option User) (doing : string) : H A :=
  response ← render r user (Some 500) "error.html"
    (error_page "Something went wrong" ("Something went wrong while " ++ doing ++ "."));
  stop response.
Definition succeed_or_fail {A} (r : Request) (user : option User) (doing : string) (result : err + A) : H A :=
  match result with inr x => mret x | inl _ => fail r user doing end.

(** * Signing in and out *)

Definition url_char (c : ascii) : ascii :=
  if Ascii.eqb c "+" then "-"%char else if Ascii.eqb c "/" then "_"%char else c.
(** [newToken]: 32 random bytes in base64.RawURLEncoding. *)
Definition newToken : H (err + string) :=
  drawn ← draw 32;
  mret match drawn with
  | inl e => inl e
  | inr buf => inr (string_of_list_ascii (map url_char (EncodeToString buf)))
  end.
Definition hashToken (token : string) : list Z := Sum256 (list_ascii_of_string token).

Definition cookie (name value : string) (expires : Z) : Cookie :=
  mk_Cookie name value expires true (SecureCookies (c_Web cfg)).
Definition errInvalidCredentials : err := ErrText "that email address and password do not match".

(** The lifetime of a session, in microseconds. *)
Definition session_ttl : Z := SessionTTL (c_Web cfg) / 1000.

Definition signIn (r : Request) (email password : string) : H (option err) :=
  found ← query (fun _ => UserByEmail email);
  match found with
  | inl e =>
      if err_is e ErrNotFound then
        (* the password is hashed all the same *)
        draw 16 ≫= fun _ => mret (Some errInvalidCredentials)
      else mret (Some e)
  | inr user =>
      if negb (User_Active user) then mret (Some errInvalidCredentials) else
      match VerifyPassword IDKey (lit password) (lit (us_password_hash user.2)) with
      | inr true =>
          drawn ← newToken;
          match drawn with
          | inl e => mret (Some e)
          | inr token =>
              now ← clock;
              let expiresAt := now + session_ttl in
              created ← query (fun now => CreateSession now user.1 (hashToken token) "web"
                                            (rq_UserAgent r) (rq_RemoteAddr r) expiresAt);
              match created with
              | inl e => mret (Some e)
              | inr _ =>
                  SetCookie (cookie sessionCookie token expiresAt) ≫= fun _ =>
                  drawn ← newToken;
                  match drawn with
                  | inl e => mret (Some e)
                  | inr csrf =>
                      let c := cookie csrfCookie csrf expiresAt in
                      SetCookie (mk_Cookie (ck_Name c) (ck_Value c) (ck_Expires c) false (ck_Secure c)) ≫= fun _ =>
                      mret None
                  end
              end
          end
      | _ => mret (Some errInvalidCredentials)
      end
  end.

Definition signOut (r : Request) : H unit :=
  (match Cookie_value r sessionCookie with
   | Some token => query (fun now => RevokeSession now (hashToken token)) ≫= fun _ => mret tt
   | None => mret tt
   end) ≫= fun _ =>
  SetCookie (cookie sessionCookie "" 0) ≫= fun _ => SetCookie (cookie csrfCookie "" 0).

(** * The check in front of the protected pages *)

Definition redirectToLogin (r : Request) : Response :=
  if rq_HXRequest r then mk_Response 200 [("HX-Redirect", "/login")]%string Nothing else Redirect "/login".

Definition presented_token (r : Request) : string :=
  if String.eqb (rq_CSRFHeader r) "" then FormValue r csrfField else rq_CSRFHeader r.
Definition csrfValid (r : Request) : bool :=
  match Cookie_value r csrfCookie with
  | None => false
  | Some value => negb (String.eqb value "") && String.eqb value (presented_token r)
  end.
Definition safe_method (r : Request) : bool := String.eqb (rq_Method r) "GET" || String.eqb (rq_Method r) "HEAD".

Definition requireUser (next : User -> H Response) (r : Request) : H Response :=
  match Cookie_value r sessionCookie with
  | None => mret (redirectToLogin r)
  | Some token =>
      found ← query (fun now => UserForSession now (hashToken token));
      match found with
      | inl _ => mret (redirectToLogin r)
      | inr user =>
          if negb (User_Active user) then mret (redirectToLogin r)
          else if negb (safe_method r) && negb (csrfValid r)
          then mret (http_Error "invalid or missing CSRF token" 403)
          else next user
      end
  end.

(** [r.ParseForm] in a handler: the error is only reported the first time, and looking
    for the token in the form was a first time. *)
Definition form_malformed (checked : bool) (r : Request) : bool :=
  rq_FormMalformed r && negb (checked && String.eqb (rq_CSRFHeader r) "").

Definition handleLoginForm (r : Request) : H Response := render r None None "login.html" (page_of "Sign in" NoContent).
Definition handleLogin (r : Request) : H Response :=
  if form_malformed false r then mret (http_Error "malformed form" 400) else
  refused ← signIn r (FormValue r "email") (FormValue r "password");
  match refused with
  | Some _ => render r None (Some 401) "login.html" (error_page "Sign in" "That email address and password do not match.")
  | None => mret (Redirect "/")
  end.
Definition handleLogout (r : Request) : H Response := signOut r ≫= fun _ => mret (Redirect "/login").
End web.

Lemma query_faultless env {A} (m : Z -> sql A) w : faultless env ->
  query env m w = (inr (m (we_now env (wb_calls w)) (wb_db w)).1, with_db (m (we_now env (wb_calls w)) (wb_db w)).2 w).
Proof. intros [Hq Hf]. unfold query. rewrite Hq, Hf. by destruct (m _ _). Qed.
