(* ===== verification/WebHandlers.v ===== *)
(** The pages of the browser interface (internal/web: handlers.go, sse.go) and the routes
    to them (server.go). *)
From S2P Require Import Prelude GoStrings Retry Crypto Text GoParse Schema StoreMailboxes StoreMessages StoreRuns StoreAccounts StoreBrowse Blob SyncMeta SyncPass Config ConfigLoad Search SyncRun Web Effects.
From Stdlib Require Import String.
From stdpp Require Import strings gmap list.
Open Scope list_scope.
Open Scope Z_scope.

(** * Numbers in requests *)


Example parse_1 : ParseInt "-42" = Some (-42) /\ ParseInt "9223372036854775808" = None /\ ParseInt "" = None.
Proof. repeat split; vm_compute; reflexivity. Qed.

(** * Progress *)

(** [time.Duration.Round] to whole seconds, of a duration that is not negative. *)
Definition round_second (d : Z) : Z :=
  let r := d mod Second in if (r + r <? Second)%Z then d - r else d + (Second - r).
(** The projected time to finish, a text of its own, is in Display. *)
Definition newSyncProgressView (account : Account) (p : Progress) (elapsed : Z) : syncProgressView := {|
  pv_AccountID := account.1; pv_AccountEmail := ac_email_address account.2; pv_Phase := p_phase p;
  pv_Mailbox := p_currentMailbox p; pv_MailboxesDone := p_mailboxesDone p; pv_MailboxesTotal := p_mailboxTotal p;
  pv_MessagesNew := p_messagesNew p; pv_BodiesFetched := p_bodiesFetched p; pv_BytesFetched := p_bytesFetched p;
  pv_PendingBodies := p_pendingBodies p; pv_Elapsed := Duration_String (round_second elapsed);
  pv_Percent := if (0 <? p_mailboxTotal p)%Z then Z.quot (p_mailboxesDone p * 100) (p_mailboxTotal p) else 0 |}.

(** [flatten]: one line, for an event of the stream. *)
Definition flatten (html : list ascii) : list ascii :=
  let replaced := map (fun c => if Ascii.eqb c (ascii_of_nat 10) then " "%char else c)
    (List.filter (fun c => negb (Ascii.eqb c (ascii_of_nat 13))) html) in
  Text.normalise replaced.

Section handlers.
Context {K : Type} `{AEAD K}.
Context {B : Type} `{BlobStore B}.
Variable env : WebEnv.
Variable cfg : Config.
Variable Sum256 : list ascii -> list Z.
Variable IDKey : list ascii -> list ascii -> Z -> Z -> Z -> Z -> list ascii.
Variable sealer : option K.
(** What PostgreSQL computes for a search. *)
Variable tsv_matches : string -> string -> message_row -> bool.
Variable ts_rank_cd : string -> string -> message_row -> Z.
Variable ts_headline : string -> string -> message_row -> string.
(** The object store, the settings shown, and what connecting to an account to try its
    credentials, and then listing its mailboxes, comes to. *)
Variable blobs : B.
Variable provenance : list Field.
Variable connect : UpAccount -> err + (err + Z).

Notation query := (query env).
Notation render := (render env).
Notation fail := (fail env).

Definition progress_of (accountID : Z) : H (option (Progress * Z)) := look (fun w => we_progress env (wb_calls w) accountID).
Definition progress_view (account : Account) : H (option syncProgressView) :=
  p ← progress_of account.1; mret ((fun x => newSyncProgressView account x.1 x.2) <$> p).

Fixpoint collect {A C} (f : A -> H (list C)) (l : list A) : H (list C) :=
  match l with
  | [] => mret []
  | x :: l => a ← f x; b ← collect f l; mret (a ++ b)
  end.

(** ** Lists of accounts *)

Definition own_accounts (r : Request) (user : User) : H (list Account) :=
  result ← query (fun _ => ListAccountsForUser user.1);
  succeed_or_fail env r (Some user) "loading accounts" result.

Definition no_stats : AccountStats := mk_AccountStats 0 0 0 0 0.
Definition stats_of (accountID : Z) : H AccountStats :=
  result ← query (fun _ => StatsForAccount accountID);
  mret match result with inr s => s | inl _ => no_stats end.

Definition handleDashboard (r : Request) (user : User) : H Response :=
  accounts ← own_accounts r user;
  view ← collect (fun account =>
    stats ← stats_of account.1;
    progress ← progress_view account;
    mret [mk_dashboardAccount account stats (bool_decide (is_Some progress)) progress]) accounts;
  render r (Some user) None "dashboard.html" (page_of "Dashboard" (Dashboard view)).

Definition handleAccounts (r : Request) (user : User) : H Response :=
  accounts ← own_accounts r user;
  render r (Some user) None "accounts.html" (page_of "Accounts" (Accounts accounts)).

Definition progressViews (accounts : list Account) : H (list syncProgressView) :=
  collect (fun account => p ← progress_view account; mret (match p with Some v => [v] | None => [] end)) accounts.
Definition handleSyncPage (r : Request) (user : User) : H Response :=
  accounts ← own_accounts r user;
  views ← progressViews accounts;
  render r (Some user) None "sync.html" (page_of "Sync" (SyncPage views)).

(** ** The stream of events *)

Definition newline : ascii := ascii_of_nat 10.
Definition progress_event (html : list ascii) : list ascii :=
  list_ascii_of_string "event: progress" ++ newline :: list_ascii_of_string "data: " ++ flatten html ++ [newline; newline].
Definition keepalive : list ascii := list_ascii_of_string ": keepalive" ++ [newline; newline].

(** [send]: what was written, or that the stream ends. *)
Definition send (user : User) (written : bool) : H (option (list ascii)) :=
  result ← query (fun _ => ListAccountsForUser user.1);
  match result with
  | inl _ => mret None
  | inr accounts =>
      views ← progressViews accounts;
      mret match we_template env "sync_progress.html" (page_of "" (SyncPage views)) with
      | inl _ => None
      | inr html => if written then Some (progress_event html) else None
      end
  end.
Fixpoint stream (user : User) (ticks : list Tick) : H (list (list ascii)) :=
  match ticks with
  | [] | Gone :: _ => mret []
  | ProgressDue written :: ticks =>
      sent ← send user written;
      match sent with
      | None => mret []
      | Some chunk => rest ← stream user ticks; mret (chunk :: rest)
      end
  | HeartbeatDue written :: ticks =>
      if written then rest ← stream user ticks; mret (keepalive :: rest) else mret []
  end.
Definition handleSyncEvents (r : Request) (user : User) : H Response :=
  let answer chunks := mk_Response 200 [("Content-Type", "text/event-stream"); ("Cache-Control", "no-cache");
    ("Connection", "keep-alive"); ("X-Accel-Buffering", "no")]%string (Stream chunks) in
  sent ← send user (we_first env);
  match sent with
  | None => mret (answer [])
  | Some chunk => rest ← stream user (we_ticks env); mret (answer (chunk :: rest))
  end.

Definition handleRuns (r : Request) (user : User) : H Response :=
  accounts ← own_accounts r user;
  rows ← collect (fun account =>
    result ← query (fun _ => ListSyncRuns account.1 20);
    now ← clock env;
    mret match result with
    | inl _ => []
    | inr runs => map (fun run => mk_runRow account run
                    (Stale now (2 * HeartbeatInterval (c_Sync cfg) / 1000) run)) runs
    end) accounts;
  render r (Some user) None "runs.html" (page_of "Sync history" (RunsPage rows)).

Definition handleSettings (r : Request) (user : User) : H Response :=
  render r (Some user) None "settings.html" (page_of "Settings" (SettingsPage provenance)).

(** ** Searching *)

Definition search_account (text : string) (account : Account) : H (list (list SearchResult * Z)) :=
  result ← query (fun _ => Search tsv_matches ts_rank_cd ts_headline (search_language (Language (c_Search cfg)))
             (mk_Query text account.1 0 50 0));
  mret match result with inl _ => [] | inr found => [found] end.
Definition handleSearch (r : Request) (user : User) : H Response :=
  let text := Query_Get r "q" in
  view ← (if String.eqb text "" then mret (mk_searchView text [] 0 false) else
    accounts ← own_accounts r user;
    found ← collect (search_account text) accounts;
    mret (mk_searchView text (concat (map fst found)) (foldr (fun x n => x.2 + n) 0 found) true));
  render r (Some user) None (if rq_HXRequest r then "search_results.html" else "search.html")
    (page_of "Search" (SearchPage view)).

(** ** What a path names, and whether it is the user's *)

Definition allowed (user : User) (owner : Z) : bool := (owner =? user.1) || us_is_admin user.2.

Definition pathID (raw : string) : option Z := ParseInt raw.
Definition accountForRequest (raw : string) (user : User) : H Account :=
  match pathID raw with
  | None => stop NotFound
  | Some id =>
      result ← query (fun _ => GetAccount id);
      match result with
      | inl _ => stop NotFound
      | inr account => if allowed user (ac_user_id account.2) then mret account else stop NotFound
      end
  end.
Definition ownsAccount (user : User) (accountID : Z) : H bool :=
  result ← query (fun _ => GetAccount accountID);
  mret match result with inl _ => false | inr account => allowed user (ac_user_id account.2) end.
Definition messageForRequest (raw : string) (user : User) : H MessageDetail :=
  match pathID raw with
  | None => stop NotFound
  | Some id =>
      result ← query (fun _ => GetMessage id);
      match result with
      | inl _ => stop NotFound
      | inr message =>
          owned ← ownsAccount user (md_AccountID message);
          if owned : bool then mret message else stop NotFound
      end
  end.

(** ** One account *)

Definition handleAccount (r : Request) (user : User) (raw : string) : H Response :=
  account ← accountForRequest raw user;
  stats ← stats_of account.1;
  result ← query (fun _ => ListMailboxes account.1);
  mailboxes ← succeed_or_fail env r (Some user) "loading mailboxes" result;
  result ← query (fun _ => ListSyncRuns account.1 10);
  let runs := match result with inr runs => runs | inl _ => [] end in
  progress ← progress_view account;
  render r (Some user) None "account.html" (page_of (ac_email_address account.2)
    (AccountPage (mk_accountView account stats mailboxes runs (bool_decide (is_Some progress)) progress))).

Definition handleSyncAccount (r : Request) (user : User) (raw : string) : H Response :=
  account ← accountForRequest raw user;
  startSync account.1 "manual" ≫= fun _ => mret (Redirect "/sync").

Definition account_url (id : Z) : string := ("/accounts/" ++ Itoa id)%string.
Definition setPaused (paused : bool) (r : Request) (user : User) (raw : string) : H Response :=
  account ← accountForRequest raw user;
  result ← query (fun _ => SetAccountPaused account.1 paused);
  done ← succeed_or_fail env r (Some user) "updating the account" result;
  mret (Redirect (account_url account.1)).
Definition handlePauseAccount := setPaused true.
Definition handleResumeAccount := setPaused false.

Definition handleDeleteAccount (r : Request) (user : User) (raw : string) : H Response :=
  account ← accountForRequest raw user;
  result ← query (fun _ => DeleteAccount account.1);
  done ← succeed_or_fail env r (Some user) "deleting the account" result;
  mret (Redirect "/accounts").

(** ** Adding an account *)

Definition handleNewAccountForm (r : Request) (user : User) : H Response :=
  render r (Some user) None "account_new.html" (page_of "Add an account" NoContent).

Definition accountFromForm (r : Request) : string + UpAccount :=
  match ParseInt (FormValue r "port") with
  | Some port =>
      if ((port <? 1) || (65535 <? port))%Z then inl "the port must be a number between 1 and 65535"%string
      else if String.eqb (FormValue r "host") "" then inl "a server hostname is required"%string
      else if String.eqb (FormValue r "username") "" then inl "a username is required"%string
      else inr (mk_UpAccount (FormValue r "host") port (FormValue r "tls_mode") (FormValue r "username")
                  (FormValue r "password"))
  | None => inl "the port must be a number between 1 and 65535"%string
  end.

Definition handleTestAccount (r : Request) (user : User) : H Response :=
  if form_malformed true r then mret (http_Error "malformed form" 400) else
  let show flash error := render r (Some user) None "account_test_result.html"
                            (mk_pageData "" None "" flash error NoContent "") in
  match accountFromForm r with
  | inl text => show "" text
  | inr account =>
      match connect account with
      | inl e => show "" ("Could not connect: " ++ err_text e)
      | inr (inl e) => show "" ("Connected, but listing mailboxes failed: " ++ err_text e)
      | inr (inr n) => show ("Connected successfully and found " ++ Itoa n ++ " mailboxes.") ""
      end
  end%string.

(** A sealed text as the columns hold it. *)
Definition column_of (l : list ascii) : list Z := map code l.
Definition seal_text (text : string) (k : K) : H (err + list ascii) :=
  nonce ← draw env (NonceSize k);
  mret (SealString k nonce text).

Definition handleCreateAccount (r : Request) (user : User) : H Response :=
  if form_malformed true r then mret (http_Error "malformed form" 400) else
  let refuse text := render r (Some user) None "account_new.html" (error_page "Add an account" text) in
  match accountFromForm r with
  | inl text => refuse text
  | inr creds =>
      match sealer with
      | None => refuse "No encryption master key is configured, so credentials cannot be stored securely."%string
      | Some k =>
          sealed ← seal_text (ua_Username creds) k;
          sealedUser ← succeed_or_fail env r (Some user) "encrypting the username" sealed;
          sealed ← seal_text (ua_Password creds) k;
          sealedSecret ← succeed_or_fail env r (Some user) "encrypting the password" sealed;
          let email := if String.eqb (FormValue r "email") "" then ua_Username creds else FormValue r "email" in
          result ← query (fun _ => CreateAccount (mk_CreateAccountParams user.1 (FormValue r "display_name") email
                     (ua_Host creds) (ua_Port creds) (ua_TLSMode creds) (column_of sealedUser) (column_of sealedSecret)));
          match result with
          | inl e => refuse ("Could not save the account: " ++ err_text e)%string
          | inr account => startSync account.1 "manual" ≫= fun _ => mret (Redirect (account_url account.1))
          end
      end
  end.

(** ** Mailboxes and messages *)

Definition pageSize : Z := 50.
Definition page_number (raw : string) : Z :=
  match ParseInt raw with Some n => if (0 <? n)%Z then n else 1 | None => 1 end.

(** The beginning of [handleMailbox]: the mailbox the path names. *)
Definition mailboxForRequest (raw : string) (user : User) : H Mailbox :=
  match pathID raw with
  | None => stop NotFound
  | Some id =>
      result ← query (fun _ => GetMailbox id);
      match result with
      | inl _ => stop NotFound
      | inr mailbox =>
          owned ← ownsAccount user (mb_account_id mailbox.2);
          if owned : bool then mret mailbox else stop NotFound
      end
  end.
Definition handleMailbox (r : Request) (user : User) (raw : string) : H Response :=
  mailbox ← mailboxForRequest raw user;
  let page := page_number (Query_Get r "page") in
  result ← query (fun _ => ListMessages mailbox.1 pageSize (i64 ((page - 1) * pageSize)));
  found ← succeed_or_fail env r (Some user) "loading messages" result;
  let '(messages, total) := found in
  render r (Some user) None "mailbox.html" (page_of (mb_name mailbox.2)
    (MailboxPage (mk_mailboxView mailbox messages total page pageSize
       (i64 (page * pageSize) <? total) (1 <? page)%Z))).

Definition handleMessage (r : Request) (user : User) (raw : string) : H Response :=
  message ← messageForRequest raw user;
  render r (Some user) None "message.html" (page_of (ms_Subject (md_Summary message)) (MessagePage message)).

(** [blobs.Get] and copying it out. *)
Definition blob_get (key : string) : H (err + list ascii) := fun w =>
  match we_blob env (wb_calls w) with
  | Some e => (inr (inl e), with_db (wb_db w) w)
  | None => (inr (Get key blobs), with_db (wb_db w) w)
  end.
Definition attachment (filename : string) : string * string :=
  ("Content-Disposition"%string, ("attachment; filename=" ++ Quote filename)%string).

Definition handleRawMessage (r : Request) (user : User) (raw : string) : H Response :=
  message ← messageForRequest raw user;
  if String.eqb (md_BlobKey message) "" then mret (http_Error "this message has not been downloaded yet" 404) else
  result ← blob_get (md_BlobKey message);
  content ← succeed_or_fail env r (Some user) "reading the message" result;
  mret (mk_Response 200 [("Content-Type", "message/rfc822")%string;
    attachment ("message-" ++ Itoa (ms_LocalUID (md_Summary message)) ++ ".eml")] (Content_ content)).

Definition handleMessagePart (r : Request) (user : User) (raw path : string) : H Response :=
  message ← messageForRequest raw user;
  match list_find (fun p => mr_Path p = path) (md_Parts message) with
  | None => mret NotFound
  | Some (_, part) =>
      if String.eqb (mr_BlobKey part) "" then mret (http_Error "this part was not stored separately" 404) else
      result ← blob_get (mr_BlobKey part);
      content ← succeed_or_fail env r (Some user) "reading the attachment" result;
      let filename := if String.eqb (mr_Filename part) "" then ("part-" ++ mr_Path part)%string else mr_Filename part in
      mret (mk_Response 200 [("Content-Type", "application/octet-stream")%string; attachment filename;
        ("X-Content-Type-Options", "nosniff")%string] (Content_ content))
  end.

(** * Routes *)

Inductive Page_ :=
| P_Dashboard | P_Accounts | P_NewAccount | P_CreateAccount | P_TestAccount | P_Account (id : string)
| P_SyncAccount (id : string) | P_Pause (id : string) | P_Resume (id : string) | P_Delete (id : string)
| P_Mailbox (id : string) | P_Message (id : string) | P_Raw (id : string) | P_Part (id path : string)
| P_Search | P_Sync | P_Events | P_Runs | P_Settings.
Inductive Route := Static | LoginForm | Login | LogOut | Protected (p : Page_).

(** The GET patterns, which also answer HEAD, and the POST patterns; a literal segment
    wins over a wildcard. *)
Definition get_route (path : list string) : option Route :=
  match path with
  | "static" :: _ :: _ => Some Static
  | ["login"] => Some LoginForm
  | [] => Some (Protected P_Dashboard)
  | ["accounts"] => Some (Protected P_Accounts)
  | ["accounts"; "new"] => Some (Protected P_NewAccount)
  | ["accounts"; id] => Some (Protected (P_Account id))
  | ["mailboxes"; id] => Some (Protected (P_Mailbox id))
  | ["messages"; id] => Some (Protected (P_Message id))
  | ["messages"; id; "raw"] => Some (Protected (P_Raw id))
  | ["messages"; id; "parts"; path] => Some (Protected (P_Part id path))
  | ["search"] => Some (Protected P_Search)
  | ["sync"] => Some (Protected P_Sync)
  | ["sync"; "events"] => Some (Protected P_Events)
  | ["runs"] => Some (Protected P_Runs)
  | ["settings"] => Some (Protected P_Settings)
  | _ => None
  end%string.
Definition post_route (path : list string) : option Route :=
  match path with
  | ["login"] => Some Login
  | ["logout"] => Some LogOut
  | ["accounts"] => Some (Protected P_CreateAccount)
  | ["accounts"; "test"] => Some (Protected P_TestAccount)
  | ["accounts"; id; "sync"] => Some (Protected (P_SyncAccount id))
  | ["accounts"; id; "pause"] => Some (Protected (P_Pause id))
  | ["accounts"; id; "resume"] => Some (Protected (P_Resume id))
  | ["accounts"; id; "delete"] => Some (Protected (P_Delete id))
  | _ => None
  end%string.
Definition route (r : Request) : option Route :=
  if safe_method r then get_route (rq_Path r)
  else if String.eqb (rq_Method r) "POST" then post_route (rq_Path r) else None.

(** A page for a signed-in user. *)
Definition page_handler (p : Page_) (r : Request) (user : User) : H Response :=
  match p with
  | P_Dashboard => handleDashboard r user
  | P_Accounts => handleAccounts r user
  | P_NewAccount => handleNewAccountForm r user
  | P_CreateAccount => handleCreateAccount r user
  | P_TestAccount => handleTestAccount r user
  | P_Account id => handleAccount r user id
  | P_SyncAccount id => handleSyncAccount r user id
  | P_Pause id => handlePauseAccount r user id
  | P_Resume id => handleResumeAccount r user id
  | P_Delete id => handleDeleteAccount r user id
  | P_Mailbox id => handleMailbox r user id
  | P_Message id => handleMessage r user id
  | P_Raw id => handleRawMessage r user id
  | P_Part id path => handleMessagePart r user id path
  | P_Search => handleSearch r user
  | P_Sync => handleSyncPage r user
  | P_Events => handleSyncEvents r user
  | P_Runs => handleRuns r user
  | P_Settings => handleSettings r user
  end.

(** [Mount], and a request through it; what no pattern matches is the mux's own answer. *)
Definition Mount (static : Request -> Response) (unmatched : Request -> Response) (r : Request) : H Response :=
  match route r with
  | None => mret (unmatched r)
  | Some Static => mret (static r)
  | Some LoginForm => handleLoginForm env r
  | Some Login => handleLogin env cfg Sum256 IDKey r
  | Some LogOut => handleLogout env cfg Sum256 r
  | Some (Protected p) => requireUser env Sum256 (page_handler p r) r
  end.
Definition serve (static unmatched : Request -> Response) (r : Request) : Web -> Response * Web := answer (Mount static unmatched r).
End handlers.
