(* ===== verification/Visible.v ===== *)
(** What one user can see of the database: the rows of the accounts they own.  Every
    query the interface makes about an account of theirs answers from those rows alone. *)
From S2P Require Import Prelude GoStrings Retry Schema StoreMailboxes StoreMessages StoreRuns StoreAccounts StoreBrowse StoreInvariant Search.
From Stdlib Require Import String.
From stdpp Require Import strings gmap list.
Open Scope list_scope.
Open Scope Z_scope.

(** * Restricting a table *)

Definition keep {R} (q : R -> bool) (r : R) : option R := if q r then Some r else None.
Definition restrict {R} (q : R -> bool) (t : table R) : table R := mk_table (omap (keep q) (rows t)) (nextval t).

Lemma lookup_restrict {R} (q : R -> bool) (t : table R) id :
  rows (restrict q t) !! id = rows t !! id ≫= keep q.
Proof. apply lookup_omap. Qed.
Lemma lookup_restrict_Some {R} (q : R -> bool) (t : table R) id r :
  rows (restrict q t) !! id = Some r <-> rows t !! id = Some r /\ q r = true.
Proof.
  rewrite lookup_restrict, bind_Some. unfold keep. split.
  - intros (x & Hx & Hk). destruct (q x) eqn:E; naive_solver.
  - intros [H1 H2]. exists r. by rewrite H2.
Qed.

(** Dropping rows keeps the others in their order. *)
Lemma gmap_dep_fold_omap {A B C P} (f : positive -> B -> C -> C) (g : A -> option B) (i : positive) (y : C)
    (mt : gmap.gmap_dep A P) :
  gmap.gmap_dep_fold f i y (gmap.gmap_dep_omap g mt) =
  gmap.gmap_dep_fold (fun j x acc => match g x with Some x' => f j x' acc | None => acc end) i y mt.
Proof.
  revert i y. induction mt as [|P ml mx mr Hv IHl IHr] using gmap.gmap_dep_ind; intros i y; [done|].
  rewrite gmap.gmap_dep_omap_GNode by done. rewrite !gmap.gmap_dep_fold_GNode.
  rewrite IHr, IHl. f_equal. f_equal. destruct mx as [[p x]|]; cbn; [|done]. by destruct (g x).
Qed.
Lemma map_to_list_omap_exact {A B} (g : A -> option B) (m : gmap Z A) :
  map_to_list (omap g m) = omap (fun kx => (fun y => (kx.1, y)) <$> g kx.2) (map_to_list m).
Proof.
  assert (map_to_list (omap g m) = map_fold (fun k x acc => match g x with Some y => (k, y) :: acc | None => acc end) [] m) as ->.
  { unfold map_to_list. destruct m as [mt]. unfold map_fold, gmap.gmap_fold, omap, gmap.gmap_omap.
    rewrite gmap_dep_fold_omap. f_equal. }
  rewrite map_fold_foldr. induction (map_to_list m) as [|[k x] l IH]; cbn; [done|].
  rewrite IH. by destruct (g x).
Qed.

Lemma select_restrict {R} (p p' : Z -> R -> bool) (q : R -> bool) (t : table R) :
  (forall id r, rows t !! id = Some r -> p id r = true -> q r = true) ->
  (forall id r, rows t !! id = Some r -> q r = true -> p' id r = p id r) ->
  select p' (restrict q t) = select p t.
Proof.
  intros Hq Hp. unfold select, restrict. cbn [rows]. rewrite map_to_list_omap_exact.
  assert (forall kx, kx ∈ map_to_list (rows t) -> rows t !! kx.1 = Some kx.2) as Hin.
  { intros [k x]. by rewrite elem_of_map_to_list. }
  induction (map_to_list (rows t)) as [|[k x] l IH]; [done|].
  pose proof (Hin (k, x) ltac:(left)) as Hx. cbn in Hx.
  assert (IH' := IH ltac:(intros; apply Hin; by right)). clear IH Hin.
  rewrite (filter_cons (fun kr => p kr.1 kr.2 = true)). cbn [fst snd].
  cbn [omap list_omap fst snd]. unfold keep at 1. destruct (q x) eqn:Eq; cbn [fmap option_fmap option_map].
  - rewrite filter_cons. cbn [fst snd]. rewrite (Hp k x Hx Eq). destruct (decide (p k x = true)); [f_equal|]; exact IH'.
  - rewrite decide_False by (intros Hpx; by rewrite (Hq k x Hx Hpx) in Eq). exact IH'.
Qed.

(** * The rows a user can see *)

Section visible.
Variable u : Z.
Variable db : DB.

Definition mine (accountID : Z) : bool :=
  match rows (mail_accounts db) !! accountID with Some r => ac_user_id r =? u | None => false end.
Definition mine_mailbox (id : Z) : bool :=
  match rows (mailboxes db) !! id with Some r => mine (mb_account_id r) | None => false end.
Definition mine_message (id : Z) : bool :=
  match rows (messages db) !! id with Some r => mine (m_account_id r) | None => false end.

Definition visible : DB := {|
  users := mk_table (omap (fun r => Some r) (filter (fun kr => kr.1 = u) (rows (users db)))) (nextval (users db));
  mail_accounts := restrict (fun r => ac_user_id r =? u) (mail_accounts db);
  mailboxes := restrict (fun r => mine (mb_account_id r)) (mailboxes db);
  messages := restrict (fun r => mine (m_account_id r)) (messages db);
  mailbox_messages := restrict (fun r => mine_mailbox (mm_mailbox_id r)) (mailbox_messages db);
  mime_parts := restrict (fun r => mine_message (mp_message_id r)) (mime_parts db);
  pending_mutations := restrict (fun r => mine (pm_account_id r)) (pending_mutations db);
  sync_runs := restrict (fun r => mine (sr_account_id r)) (sync_runs db);
  sessions := empty_table |}.

(** A message lies in mailboxes of its own account. *)
Definition aligned : Prop := forall id r m mb,
  rows (mailbox_messages db) !! id = Some r -> rows (messages db) !! mm_message_id r = Some m ->
  rows (mailboxes db) !! mm_mailbox_id r = Some mb -> m_account_id m = mb_account_id mb.
End visible.
#[global] Arguments visible : simpl never.

Section queries.
Variable u : Z.
Variable db : DB.
Hypothesis Hwf : db_wf db.
Hypothesis Hal : aligned db.

(** The account is the user's, or gone. *)
Definition own (accountID : Z) : Prop := forall r, rows (mail_accounts db) !! accountID = Some r -> ac_user_id r = u.
Lemma own_mine a r : own a -> rows (mail_accounts db) !! a = Some r -> mine u db a = true.
Proof. intros Ho Hr. unfold mine. rewrite Hr. apply Z.eqb_eq. by apply Ho. Qed.
Lemma mine_own a : mine u db a = true -> own a.
Proof. unfold mine, own. destruct (rows (mail_accounts db) !! a); [|done]. intros H%Z.eqb_eq r [= <-]. done. Qed.
Lemma own_mailbox id mb : rows (mailboxes db) !! id = Some mb -> own (mb_account_id mb) -> mine u db (mb_account_id mb) = true.
Proof. intros Hm Ho. destruct (wf_mailbox_account _ Hwf id mb (mb_account_id mb) Hm eq_refl) as [r Hr]. by apply (own_mine _ r). Qed.
Lemma own_message id m : rows (messages db) !! id = Some m -> own (m_account_id m) -> mine u db (m_account_id m) = true.
Proof. intros Hm Ho. destruct (wf_message_account _ Hwf id m (m_account_id m) Hm eq_refl) as [r Hr]. by apply (own_mine _ r). Qed.
Lemma own_run id m : rows (sync_runs db) !! id = Some m -> own (sr_account_id m) -> mine u db (sr_account_id m) = true.
Proof. intros Hm Ho. destruct (wf_run_account _ Hwf id m (sr_account_id m) Hm eq_refl) as [r Hr]. by apply (own_mine _ r). Qed.

(** The answer of a query does not need the rows the user cannot see. *)
Definition seen {A} (m : sql A) : Prop := (m db).1 = (m (visible u db)).1.

Lemma mine_mine_visible a : mine u (visible u db) a = mine u db a.
Proof.
  unfold mine, visible. cbn [mail_accounts]. rewrite lookup_restrict. destruct (rows (mail_accounts db) !! a) as [r|]; [|done].
  cbn. unfold keep. by destruct (ac_user_id r =? u) eqn:E.
Qed.
Lemma visible_account a r : mine u db a = true -> rows (mail_accounts db) !! a = Some r ->
  rows (mail_accounts (visible u db)) !! a = Some r.
Proof. unfold mine. intros Hm Hr. rewrite Hr in Hm. by apply lookup_restrict_Some. Qed.

Lemma seen_ListAccountsForUser : seen (ListAccountsForUser u).
Proof.
  unfold seen, ListAccountsForUser, gets. cbn [fst]. do 2 f_equal. symmetry.
  by apply select_restrict.
Qed.
Lemma seen_ListMailboxes a : own a -> seen (ListMailboxes a).
Proof.
  intros Ho. unfold seen, ListMailboxes, gets. cbn [fst]. do 2 f_equal. symmetry.
  apply select_restrict; [|done]. intros id r Hr <-%Z.eqb_eq. by apply (own_mailbox id).
Qed.
Lemma seen_ListSyncRuns a n : own a -> seen (ListSyncRuns a n).
Proof.
  intros Ho. unfold seen, ListSyncRuns, gets. cbn [fst]. do 3 f_equal. symmetry.
  apply select_restrict; [|done]. intros id r Hr <-%Z.eqb_eq. by apply (own_run id).
Qed.

Lemma in_account_visible a r : own a -> in_account a (visible u db) r = in_account a db r.
Proof.
  intros Ho. unfold in_account, visible. cbn [mailboxes]. rewrite lookup_restrict.
  destruct (rows (mailboxes db) !! mm_mailbox_id r) as [mb|] eqn:Emb; [|done]. cbn. unfold keep.
  destruct (mine u db (mb_account_id mb)) eqn:E; [done|]. symmetry. apply Z.eqb_neq. intros <-.
  by rewrite (own_mailbox _ mb Emb Ho) in E.
Qed.
Lemma in_account_mine a r : own a -> in_account a db r = true -> mine_mailbox u db (mm_mailbox_id r) = true.
Proof.
  intros Ho. unfold in_account, mine_mailbox. destruct (rows (mailboxes db) !! mm_mailbox_id r) as [mb|] eqn:Emb; [|done].
  intros <-%Z.eqb_eq. by apply (own_mailbox _ mb Emb).
Qed.
Lemma count_visible a (c : mm_row -> bool) : own a ->
  count_where (fun _ r => in_account a (visible u db) r && c r) (mailbox_messages (visible u db)) =
  count_where (fun _ r => in_account a db r && c r) (mailbox_messages db).
Proof.
  intros Hm. unfold count_where. do 2 f_equal. apply select_restrict.
  - intros id r _ [Hi _]%andb_true_iff. by apply (in_account_mine a).
  - intros id r _ _. by rewrite in_account_visible.
Qed.
Lemma seen_StatsForAccount a : own a -> seen (StatsForAccount a).
Proof.
  intros Hm. unfold seen, StatsForAccount, gets. cbn [fst]. f_equal.
  pose proof (count_visible a (fun _ => true) Hm) as Hall.
  assert (forall d : DB, count_where (fun _ r => in_account a d r && true) (mailbox_messages d) =
          count_where (fun _ r => in_account a d r) (mailbox_messages d)) as Htrue.
  { intros d. unfold count_where, select. do 2 f_equal. apply list_filter_iff. intros x. by rewrite andb_true_r. }
  rewrite !Htrue in Hall. rewrite Hall, (count_visible a unfinished Hm).
  rewrite (count_visible a (fun r => bool_decide (mm_body_state r = BodyFailed)) Hm). f_equal.
  - unfold count_where. do 2 f_equal. symmetry. apply select_restrict; [|done]. intros id r Hr <-%Z.eqb_eq.
    by apply (own_mailbox id).
  - unfold sum_sizes. f_equal. symmetry. apply select_restrict; [|done]. intros id r Hr <-%Z.eqb_eq.
    by apply (own_message id).
Qed.
(** ** One mailbox *)

Lemma visible_mailbox id mb : rows (mailboxes db) !! id = Some mb -> mine u db (mb_account_id mb) = true ->
  rows (mailboxes (visible u db)) !! id = Some mb.
Proof. intros. by apply lookup_restrict_Some. Qed.
Lemma visible_message id m : rows (messages db) !! id = Some m -> mine u db (m_account_id m) = true ->
  rows (messages (visible u db)) !! id = Some m.
Proof. intros. by apply lookup_restrict_Some. Qed.
Lemma visible_message_None id : rows (messages db) !! id = None -> rows (messages (visible u db)) !! id = None.
Proof. intros Hn. unfold visible. cbn [messages]. by rewrite lookup_restrict, Hn. Qed.

Lemma has_attachments_visible id m : rows (messages db) !! id = Some m -> mine u db (m_account_id m) = true ->
  has_attachments (visible u db) id = has_attachments db id.
Proof.
  intros Hm Hmine. unfold has_attachments, exists_row.
  change (mime_parts (visible u db)) with (restrict (fun r => mine_message u db (mp_message_id r)) (mime_parts db)).
  rewrite (select_restrict (fun _ p => (mp_message_id p =? id) && bool_decide (mp_filename p <> None))
    (fun _ p => (mp_message_id p =? id) && bool_decide (mp_filename p <> None))); [done| |done].
  intros k p _ [->%Z.eqb_eq _]%andb_true_iff. unfold mine_message. by rewrite Hm.
Qed.

Lemma omap_ext_in {A B} (f g : A -> option B) (l : list A) : (forall x, x ∈ l -> f x = g x) -> omap f l = omap g l.
Proof.
  induction l as [|x l IH]; intros Hx; [done|]. csimpl. rewrite (Hx x) by left.
  destruct (g x); [f_equal|]; apply IH; intros; apply Hx; by right.
Qed.

Lemma seen_ListMessages id limit offset :
  (forall mb, rows (mailboxes db) !! id = Some mb -> own (mb_account_id mb)) -> seen (ListMessages id limit offset).
Proof.
  intros Ho. unfold seen, ListMessages. cbv zeta. destruct (offset <? 0); [done|]. cbn [fst].
  assert (summaries "(no subject)" id (visible u db) = summaries "(no subject)" id db) as ->; [|done].
  unfold summaries.
  change (mailbox_messages (visible u db)) with (restrict (fun r => mine_mailbox u db (mm_mailbox_id r)) (mailbox_messages db)).
  assert (forall k r, rows (mailbox_messages db) !! k = Some r -> live_in id k r = true ->
    exists mb, rows (mailboxes db) !! mm_mailbox_id r = Some mb /\ mine u db (mb_account_id mb) = true) as Hbox.
  { intros k r Hr Hl. unfold live_in in Hl. apply andb_true_iff in Hl as [<-%Z.eqb_eq _].
    destruct (wf_mm_mailbox _ Hwf k r (mm_mailbox_id r) Hr eq_refl) as [mb Hmb].
    exists mb. split; [done|]. apply (own_mailbox _ mb Hmb). by apply Ho. }
  rewrite (select_restrict (live_in id) (live_in id)); [|intros k r Hr Hl|done].
  - apply omap_ext_in. intros [k r] [Hr Hl]%elem_of_select. cbn [fst snd].
    destruct (Hbox k r Hr Hl) as (mb & Hmb & Hmine).
    destruct (rows (messages db) !! mm_message_id r) as [m|] eqn:E.
    + pose proof (Hal k r m mb Hr E Hmb) as Ha.
      rewrite (visible_message _ m E) by by rewrite Ha. cbn. unfold summary.
      by rewrite (has_attachments_visible _ m E) by by rewrite Ha.
    + by rewrite visible_message_None.
  - destruct (Hbox k r Hr Hl) as (mb & Hmb & Hmine). unfold mine_mailbox. by rewrite Hmb.
Qed.

(** ** One message *)

(** The message a placement leads to, if the user may see it. *)
Lemma GetMessage_visible id d : (GetMessage id db).1 = inr d -> mine u db (md_AccountID d) = true ->
  (GetMessage id (visible u db)).1 = inr d.
Proof.
  unfold GetMessage. destruct (rows (mailbox_messages db) !! id) as [r|] eqn:Er; cbn [mbind option_bind mret option_ret fst snd]; [|done].
  destruct (rows (messages db) !! mm_message_id r) as [m|] eqn:Em; cbn [mbind option_bind mret option_ret fst snd]; [|done].
  destruct (rows (mailboxes db) !! mm_mailbox_id r) as [mb|] eqn:Eb; cbn [mbind option_bind mret option_ret fst snd]; [|done].
  intros [= <-] Hm.
  assert (md_AccountID (detail db id r m mb) = m_account_id m) as Hacc by (unfold detail; by destruct (decodeAddresses _) as [[? ?] ?]).
  rewrite Hacc in Hm. pose proof (Hal id r m mb Er Em Eb) as Ha.
  assert (rows (mailbox_messages (visible u db)) !! id = Some r) as ->.
  { apply lookup_restrict_Some. split; [done|]. unfold mine_mailbox. by rewrite Eb, <- Ha. }
  cbn [mbind option_bind]. rewrite (visible_message _ m Em Hm). cbn [mbind option_bind]. rewrite (visible_mailbox _ mb Eb) by by rewrite <- Ha. cbn [mbind option_bind mret option_ret fst].
  f_equal. unfold detail. destruct (decodeAddresses (m_addrs m)) as [[? ?] ?]. f_equal. f_equal. f_equal.
  apply select_restrict; [|done]. intros k p _ ->%Z.eqb_eq. unfold mine_message. by rewrite Em.
Qed.
(** Conversely, what the visible rows hold is there, and is the user's. *)
Lemma visible_GetMessage id d : (GetMessage id (visible u db)).1 = inr d ->
  (GetMessage id db).1 = inr d /\ mine u db (md_AccountID d) = true.
Proof.
  intros H. assert (exists d', (GetMessage id db).1 = inr d' /\ mine u db (md_AccountID d') = true) as (d' & Hd & Hm).
  { revert H. unfold GetMessage. destruct (rows (mailbox_messages (visible u db)) !! id) as [r|] eqn:Er; cbn [mbind option_bind mret option_ret fst snd]; [|done].
    destruct (rows (messages (visible u db)) !! mm_message_id r) as [m|] eqn:Em; cbn [mbind option_bind mret option_ret fst snd]; [|done].
    destruct (rows (mailboxes (visible u db)) !! mm_mailbox_id r) as [mb|] eqn:Eb; cbn [mbind option_bind mret option_ret fst snd]; [|done].
    apply lookup_restrict_Some in Er as [Er _], Em as [Em Hm], Eb as [Eb _]. intros _.
    rewrite Er. cbn [mbind option_bind]. rewrite Em. cbn [mbind option_bind]. rewrite Eb.
    cbn [mbind option_bind mret option_ret fst]. eexists. split; [done|]. unfold detail. by destruct (decodeAddresses _) as [[? ?] ?]. }
  pose proof (GetMessage_visible id d' Hd Hm) as H'. rewrite H in H'. by injection H' as ->.
Qed.

(** ** Searching *)

Lemma omap_select_restrict {R B} (p : Z -> R -> bool) (q : R -> bool) (t : table R) (f g : Z * R -> option B) :
  (forall id r, rows t !! id = Some r -> p id r = true -> q r = false -> f (id, r) = None) ->
  (forall id r, rows t !! id = Some r -> p id r = true -> q r = true -> f (id, r) = g (id, r)) ->
  omap f (select p t) = omap g (select p (restrict q t)).
Proof.
  intros Hout Hin. unfold select, restrict. cbn [rows]. rewrite map_to_list_omap_exact.
  assert (forall kx, kx ∈ map_to_list (rows t) -> rows t !! kx.1 = Some kx.2) as Hl.
  { intros [k x]. by rewrite elem_of_map_to_list. }
  induction (map_to_list (rows t)) as [|[k x] l IH]; [done|].
  pose proof (Hl (k, x) ltac:(left)) as Hx. cbn in Hx.
  assert (IH' := IH ltac:(intros; apply Hl; by right)). clear IH Hl.
  rewrite (filter_cons (fun kr => p kr.1 kr.2 = true)). cbn [fst snd].
  cbn [omap list_omap fst snd]. unfold keep at 1. destruct (q x) eqn:Eq; cbn [fmap option_fmap option_map].
  - rewrite filter_cons. cbn [fst snd]. destruct (decide (p k x = true)) as [Hp|Hp]; [|exact IH'].
    cbn [omap list_omap]. rewrite (Hin k x Hx Hp Eq). destruct (g (k, x)); [f_equal|]; exact IH'.
  - destruct (decide (p k x = true)) as [Hp|Hp]; [|exact IH'].
    cbn [omap list_omap]. rewrite (Hout k x Hx Hp Eq). exact IH'.
Qed.

Lemma seen_Search matches rank headline language q :
  own (qu_AccountID q) -> seen (Search matches rank headline language q).
Proof.
  intros Ho. unfold seen, Search. cbv zeta. destruct (String.eqb _ ""); [done|]. destruct (qu_Offset q <? 0); [done|].
  cbn [fst]. set (text := string_of_list_ascii _).
  assert (hits matches rank headline language text q db = hits matches rank headline language text q (visible u db)) as ->; [|done].
  unfold hits. apply omap_select_restrict.
  - intros id r Hr _ Hq. unfold hit. cbn [snd].
    destruct (rows (messages db) !! mm_message_id r) as [m|] eqn:Em; cbn; [|done].
    destruct (rows (mailboxes db) !! mm_mailbox_id r) as [mb|] eqn:Eb; cbn; [|done].
    unfold mine_mailbox in Hq. rewrite Eb, <- (Hal id r m mb Hr Em Eb) in Hq.
    destruct (m_account_id m =? qu_AccountID q) eqn:E; [|done]. apply Z.eqb_eq in E.
    rewrite <- E in Ho. by rewrite (own_message _ m Em Ho) in Hq.
  - intros id r Hr _ Hq. unfold hit. cbn [snd fst].
    unfold mine_mailbox in Hq. destruct (rows (mailboxes db) !! mm_mailbox_id r) as [mb|] eqn:Eb; [|done].
    rewrite (visible_mailbox _ mb Eb Hq).
    destruct (rows (messages db) !! mm_message_id r) as [m|] eqn:Em; cbn.
    + by rewrite (visible_message _ m Em) by by rewrite (Hal id r m mb Hr Em Eb).
    + by rewrite visible_message_None.
Qed.
End queries.
