(* ===== verification/Twin.v ===== *)
(** Two runs of one program from related states: what they must have in common.  The
    relational counterpart of the triples of Effects. *)
From S2P Require Import Prelude Effects.
From stdpp Require Import base list.

Section twin.
Context {E W : Type}.
Notation M := (SE E W).
(** What the states after an early stop have in common. *)
Variable X : W -> W -> Prop.

(** From states related by [R] both runs stop with the same error, or both return the
    same result, which satisfies [P], in states related by [S]. *)
Definition twin {A} (R : W -> W -> Prop) (m : M A) (P : A -> Prop) (S : W -> W -> Prop) : Prop := forall w1 w2, R w1 w2 ->
  match m w1, m w2 with
  | (inl e1, w1'), (inl e2, w2') => e1 = e2 /\ X w1' w2'
  | (inr x1, w1'), (inr x2, w2') => x1 = x2 /\ P x1 /\ S w1' w2'
  | _, _ => False
  end.

Lemma twin_ret {A} R (x : A) (P : A -> Prop) : P x -> twin R (mret x) P R.
Proof. intros HP w1 w2 HR. by split. Qed.
Lemma twin_look {A} (R : W -> W -> Prop) (f : W -> A) : (forall w1 w2, R w1 w2 -> f w1 = f w2) -> twin R (look f) (fun _ => True) R.
Proof. intros Hf w1 w2 HR. split; [by apply Hf|done]. Qed.
Lemma twin_bind {A B} R R' S (m : M A) (f : A -> M B) P Q :
  twin R m P R' -> (forall x, P x -> twin R' (f x) Q S) -> twin R (m ≫= f) Q S.
Proof.
  intros Hm Hf w1 w2 HR. unfold mbind, SE_bind. specialize (Hm w1 w2 HR).
  destruct (m w1) as [[e1|x1] w1'], (m w2) as [[e2|x2] w2']; try done. destruct Hm as (<- & HP & HR'). by apply Hf.
Qed.
Lemma twin_conseq {A} R R' S S' (m : M A) (P P' : A -> Prop) : twin R m P S -> (forall w1 w2, R' w1 w2 -> R w1 w2) ->
  (forall x, P x -> P' x) -> (forall w1 w2, S w1 w2 -> S' w1 w2) -> twin R' m P' S'.
Proof.
  intros Hm HR HP HS w1 w2 Hw. specialize (Hm w1 w2 (HR w1 w2 Hw)).
  destruct (m w1) as [[e1|x1] w1'], (m w2) as [[e2|x2] w2']; try done. naive_solver.
Qed.
Lemma twin_stop {A} (R S : W -> W -> Prop) (e : E) P : (forall w1 w2, R w1 w2 -> X w1 w2) -> twin R (stop (A := A) e) P S.
Proof. intros HX w1 w2 HR. split; [done|by apply HX]. Qed.
Lemma twin_updates (R S : W -> W -> Prop) (f : W -> W) : (forall w1 w2, R w1 w2 -> S (f w1) (f w2)) -> twin R (updates f) (fun _ => True) S.
Proof. intros Hf w1 w2 HR. split; [done|]. split; [done|by apply Hf]. Qed.
End twin.
