(* ===== verification/WebIsolation.v ===== *)
(** Whoever is signed in, what they get back depends only on their own rows: two
    databases that look the same to a user give the same responses. *)
From S2P Require Import Prelude GoStrings Retry Crypto Schema StoreMailboxes StoreMessages StoreRuns StoreAccounts StoreBrowse StoreInvariant Blob SyncMeta SyncPass Config ConfigLoad Search SyncRun Web WebHandlers Visible Effects Twin.
From Stdlib Require Import String.
From stdpp Require Import strings gmap list.
Open Scope list_scope.
Open Scope Z_scope.

Section isolation.
Context {K : Type} `{AEAD K}.
Context {B : Type} `{BlobStore B}.
Variable env : WebEnv.
Variable cfg : Config.
Variable sealer : option K.
Variable tsv_matches : string -> string -> message_row -> bool.
Variable ts_rank_cd : string -> string -> message_row -> Z.
Variable ts_headline : string -> string -> message_row -> string.
Variable blobs : B.
Variable provenance : list Field.
Variable connect : UpAccount -> err + (err + Z).
Variable user : User.
Notation u := (user.1).

(** Whose an account is, and which account a mailbox belongs to, never changes. *)
Variable owner home : Z -> Z.
Definition placed (db : DB) : Prop :=
  (forall id r, rows (mail_accounts db) !! id = Some r -> ac_user_id r = owner id) /\
  (forall id r, rows (mailboxes db) !! id = Some r -> mb_account_id r = home id).
Definition sound (db : DB) : Prop := db_wf db /\ aligned db /\ placed db.

(** Two databases that show the user the same rows. *)
Definition look_alike (db1 db2 : DB) : Prop := sound db1 /\ sound db2 /\ visible u db1 = visible u db2.
(** What others commit meanwhile changes what the user sees alike. *)
Definition others_alike : Prop := forall n db1 db2, look_alike db1 db2 ->
  look_alike (we_others env n db1) (we_others env n db2).

Hypothesis Hothers : others_alike.
Hypothesis Huser : us_is_admin user.2 = false.

Definition R (w1 w2 : Web) : Prop :=
  look_alike (wb_db w1) (wb_db w2) /\ wb_calls w1 = wb_calls w2 /\ wb_draws w1 = wb_draws w2 /\
  wb_cookies w1 = wb_cookies w2 /\ wb_started w1 = wb_started w2.
(** What is left of it once the answer is known. *)
Definition X (w1 w2 : Web) : Prop := wb_cookies w1 = wb_cookies w2 /\ wb_started w1 = wb_started w2.
Lemma R_X w1 w2 : R w1 w2 -> X w1 w2.
Proof. unfold R, X. tauto. Qed.

Notation twin := (twin X).
Notation query := (query env).
Notation any := (fun _ => True).

Lemma allowed_own id : allowed user id = true <-> id = u.
Proof. unfold allowed. rewrite Huser, orb_false_r. apply Z.eqb_eq. Qed.

(** ** Queries *)

(** A query that answers alike, and with [P]. *)
Definition alike {A} (m : Z -> sql A) (P : A -> Prop) : Prop := forall now db1 db2, look_alike db1 db2 ->
  (m now db1).1 = (m now db2).1 /\ forall x, (m now db1).1 = inr x -> P x.
Definition reads {A} (m : Z -> sql A) : Prop := forall now db, (m now db).2 = db.
Definition on_success {A} (P : A -> Prop) (r : err + A) : Prop := match r with inr x => P x | inl _ => True end.

Lemma twin_read {A} (m : Z -> sql A) P : reads m -> alike m P -> twin R (query m) (on_success P) R.
Proof.
  intros Hr Ha w1 w2 (Hdb & Hc & Hd & Hk & Hs). unfold query.
  rewrite <- Hc. pose proof (Hothers (wb_calls w1) _ _ Hdb) as Hdb'.
  set (db1 := we_others env (wb_calls w1) (wb_db w1)) in *. set (db2 := we_others env (wb_calls w1) (wb_db w2)) in *.
  set (now := we_now env (wb_calls w1)). unfold R.
  destruct (we_fault env (wb_calls w1)) as [|e|e]; cbn.
  - destruct (Ha now db1 db2 Hdb') as [Heq HP]. pose proof (Hr now db1) as Hr1. pose proof (Hr now db2) as Hr2.
    destruct (m now db1) as [r1 d1], (m now db2) as [r2 d2]. cbn in *. subst.
    split_and!; try done; [|by f_equal]. destruct r2; [done|by apply HP].
  - split_and!; try done. by f_equal.
  - unfold exec. rewrite !Hr. split_and!; try done. by f_equal.
Qed.

Lemma twin_write {A} (m : Z -> sql A) P : alike m P -> twin R (query m) (on_success P) X.
Proof.
  intros Ha w1 w2 (Hdb & Hc & Hd & Hk & Hs). unfold query.
  rewrite <- Hc. pose proof (Hothers (wb_calls w1) _ _ Hdb) as Hdb'.
  set (db1 := we_others env (wb_calls w1) (wb_db w1)) in *. set (db2 := we_others env (wb_calls w1) (wb_db w2)) in *.
  set (now := we_now env (wb_calls w1)). unfold X.
  destruct (we_fault env (wb_calls w1)) as [|e|e]; cbn; [|done..].
  destruct (Ha now db1 db2 Hdb') as [Heq HP]. destruct (m now db1) as [r1 d1], (m now db2) as [r2 d2]. cbn in *. subst.
  split_and!; try done. destruct r2; [done|by apply HP].
Qed.

Lemma alike_seen {A} (m : Z -> sql A) (P : A -> Prop) :
  (forall now db, sound db -> seen u db (m now)) ->
  (forall now db x, sound db -> (m now db).1 = inr x -> P x) -> alike m P.
Proof.
  intros Hs HP now db1 db2 (Hs1 & Hs2 & Hv). split.
  - unfold seen in Hs. by rewrite (Hs now db1 Hs1), (Hs now db2 Hs2), Hv.
  - intros x. by apply HP.
Qed.

Lemma own_owner db a : sound db -> owner a = u -> own u db a.
Proof. intros (_ & _ & Hp & _) Ho r Hr. by rewrite (Hp a r Hr). Qed.

Lemma alike_ListAccountsForUser : alike (fun _ => ListAccountsForUser u) (Forall (fun a => owner a.1 = u)).
Proof.
  apply alike_seen; [intros _ db (Hwf & Hal & _); by apply seen_ListAccountsForUser|].
  intros _ db l (_ & _ & Hp & _) [= <-]. apply Forall_forall. intros [id r] Hin.
  rewrite merge_sort_Permutation in Hin. apply elem_of_select in Hin as [Hr Hu]. cbn. apply Z.eqb_eq in Hu. by rewrite <- (Hp id r Hr).
Qed.
Lemma alike_StatsForAccount a : owner a = u -> alike (fun _ => StatsForAccount a) any.
Proof. intros Ho. apply alike_seen; [|done]. intros _ db Hs. apply seen_StatsForAccount; [apply Hs|by apply own_owner]. Qed.
Lemma alike_ListMailboxes a : owner a = u -> alike (fun _ => ListMailboxes a) any.
Proof. intros Ho. apply alike_seen; [|done]. intros _ db Hs. apply seen_ListMailboxes; [apply Hs|by apply own_owner]. Qed.
Lemma alike_ListSyncRuns a n : owner a = u -> alike (fun _ => ListSyncRuns a n) any.
Proof. intros Ho. apply alike_seen; [|done]. intros _ db Hs. apply seen_ListSyncRuns; [apply Hs|by apply own_owner]. Qed.
Lemma alike_Search language q : owner (qu_AccountID q) = u ->
  alike (fun _ => Search tsv_matches ts_rank_cd ts_headline language q) any.
Proof. intros Ho. apply alike_seen; [|done]. intros _ db Hs. apply seen_Search; [apply Hs|apply Hs|by apply own_owner]. Qed.
Lemma alike_ListMessages id limit offset : owner (home id) = u -> alike (fun _ => ListMessages id limit offset) any.
Proof.
  intros Ho. apply alike_seen; [|done]. intros _ db Hs. apply seen_ListMessages; [apply Hs|apply Hs|].
  intros mb Hmb. apply own_owner; [done|]. destruct Hs as (_ & _ & _ & Hh). by rewrite (Hh id mb Hmb).
Qed.

(** ** What a path names *)

Lemma look_alike_account db1 db2 id r : look_alike db1 db2 ->
  rows (mail_accounts db1) !! id = Some r -> ac_user_id r = u -> rows (mail_accounts db2) !! id = Some r.
Proof.
  intros (_ & _ & Hv) Hr Hu.
  assert (rows (mail_accounts (visible u db2)) !! id = Some r) as H2.
  { rewrite <- Hv. apply lookup_restrict_Some. split; [done|by apply Z.eqb_eq]. }
  by apply lookup_restrict_Some in H2 as [? _].
Qed.
Lemma look_alike_sym db1 db2 : look_alike db1 db2 -> look_alike db2 db1.
Proof. intros (Hs1 & Hs2 & Hv). split; [exact Hs2|split; [exact Hs1|by symmetry]]. Qed.

(** Ends as if nothing had been found. *)
Definition refused {A} (m : H A) (w : Web) : Prop := exists w', m w = (inl NotFound, w') /\ X w w'.

Notation after n db w := (with_db (we_others env n db) w).

(** The outcome of a reading query that may find a foreign row. *)
Definition reached {A} (m : Z -> sql A) (w : Web) : err + A :=
  let n := wb_calls w in
  match we_fault env n with
  | NoFault => (m (we_now env n) (we_others env n (wb_db w))).1
  | FailBefore e | FailAfter e => inl e
  end.
Lemma query_reads {A} (m : Z -> sql A) w : reads m ->
  query m w = (inr (reached m w), after (wb_calls w) (wb_db w) w).
Proof.
  intros Hr. unfold query, reached, exec. pose proof (Hr (we_now env (wb_calls w)) (we_others env (wb_calls w) (wb_db w))) as Hd.
  destruct (we_fault env (wb_calls w)); [|done|by rewrite Hd].
  by destruct (m _ _) as [r d]; cbn in *; subst.
Qed.
Lemma R_after w1 w2 : R w1 w2 -> R (after (wb_calls w1) (wb_db w1) w1) (after (wb_calls w2) (wb_db w2) w2).
Proof.
  intros (Hdb & Hc & Hd & Hk & Hs). unfold R. cbn. rewrite <- Hc. split; [by apply Hothers|done].
Qed.
Lemma reads_GetAccount id : reads (fun _ => GetAccount id).
Proof. intros _ db. unfold GetAccount. by destruct (_ !! _). Qed.
Lemma reads_GetMailbox id : reads (fun _ => GetMailbox id).
Proof. intros _ db. unfold GetMailbox. by destruct (_ !! _). Qed.
Lemma reads_GetMessage id : reads (fun _ => GetMessage id).
Proof. intros _ db. unfold GetMessage. by destruct (_ ≫= _). Qed.
Lemma alike_GetAccount a : owner a = u -> alike (fun _ => GetAccount a) (fun x => ac_user_id x.2 = u).
Proof.
  intros Ho now db1 db2 Hl. pose proof (look_alike_account db1 db2 a) as H12.
  pose proof (look_alike_account db2 db1 a) as H21. pose proof Hl as ((_ & _ & Hp1 & _) & (_ & _ & Hp2 & _) & _).
  unfold GetAccount. destruct (rows (mail_accounts db1) !! a) as [r|] eqn:E1.
  - rewrite (H12 r Hl eq_refl) by by rewrite (Hp1 a r E1). split; [done|]. intros x [= <-]. cbn. by rewrite (Hp1 a r E1).
  - destruct (rows (mail_accounts db2) !! a) as [r|] eqn:E2; [|done].
    exfalso. apply look_alike_sym in Hl. specialize (H21 r Hl eq_refl). rewrite (Hp2 a r E2) in H21. by specialize (H21 Ho).
Qed.

Lemma twin_ownsAccount a : owner a = u -> twin R (ownsAccount env user a) any R.
Proof.
  intros Ho. unfold ownsAccount. eapply twin_bind; [apply twin_read; [apply reads_GetAccount|by apply alike_GetAccount]|].
  intros x _. by apply twin_ret.
Qed.
Lemma ownsAccount_foreign a w : owner a <> u -> sound (we_others env (wb_calls w) (wb_db w)) ->
  ownsAccount env user a w = (inr false, after (wb_calls w) (wb_db w) w).
Proof.
  intros Ho (_ & _ & Hp & _). unfold ownsAccount, mbind, SE_bind. rewrite (query_reads _ w (reads_GetAccount a)).
  unfold mret, SE_ret. do 2 f_equal. unfold reached. destruct (we_fault _ _); [|done..].
  unfold GetAccount. destruct (rows (mail_accounts _) !! a) as [r|] eqn:Er; [|done]. cbn.
  destruct (allowed user (ac_user_id r)) eqn:Ea; [|done]. apply allowed_own in Ea. by rewrite (Hp a r Er) in Ea.
Qed.

(** Looking something up and then checking that its account is the user's. *)
Definition checked {A} (m : Z -> sql A) (account_of : A -> Z) : H A :=
  result ← query m;
  match result with
  | inl _ => stop NotFound
  | inr x => owned ← ownsAccount env user (account_of x); if owned : bool then mret x else stop NotFound
  end.
Lemma checked_refuses {A} (m : Z -> sql A) account_of w :
  reads m -> (forall n db1 db2, look_alike db1 db2 -> sound (we_others env n db1)) ->
  (exists w2, R w w2) ->
  match reached m w with inr x => owner (account_of x) <> u | inl _ => True end -> refused (checked m account_of) w.
Proof.
  intros Hr Ho (w2 & HR) Hn. unfold refused, checked, mbind, SE_bind. rewrite (query_reads m w Hr).
  destruct (reached m w) as [e|x].
  - eexists. by split.
  - rewrite ownsAccount_foreign; [|done|].
    + eexists. by split.
    + cbn. pose proof (R_after w w2 HR) as (Hl & _). by apply (Ho _ _ (wb_db (after (wb_calls w2) (wb_db w2) w2))).
Qed.

Lemma twin_checked {A} (m : Z -> sql A) account_of (P : A -> Prop) :
  reads m ->
  (forall now db1 db2 x, look_alike db1 db2 -> (m now db1).1 = inr x -> owner (account_of x) = u -> (m now db2).1 = inr x) ->
  (forall now db x, sound db -> (m now db).1 = inr x -> owner (account_of x) = u -> P x) ->
  twin R (checked m account_of) P R.
Proof.
  intros Hr Hsame HP w1 w2 HR.
  assert (forall n db1 db2, look_alike db1 db2 -> sound (we_others env n db1)) as Hso
    by (intros n db1 db2 Hl; exact (proj1 (Hothers n _ _ Hl))).
  assert (forall a b, R a b -> forall x, reached m a = inr x -> owner (account_of x) = u -> reached m b = inr x /\ P x) as Hreach.
  { intros a b (Hl & Hc & _) x. unfold reached. rewrite <- Hc. destruct (we_fault env (wb_calls a)); [|done..].
    pose proof (Hothers (wb_calls a) _ _ Hl) as Hl'. intros Hx Hox. split; [by eapply Hsame|].
    eapply HP; [exact (proj1 Hl')|exact Hx|done]. }
  assert (R w2 w1) as HR'.
  { destruct HR as (Hl & Hc & Hd & Hk & Hs). split; [by apply look_alike_sym|done]. }
  assert ((exists x, reached m w1 = inr x /\ owner (account_of x) = u) \/
          (match reached m w1 with inr x => owner (account_of x) <> u | inl _ => True end)) as [(x & E1 & Ho)|Hn].
  { destruct (reached m w1) as [e|x]; [by right|]. destruct (decide (owner (account_of x) = u)); [left; by eexists|by right]. }
  - destruct (Hreach w1 w2 HR x E1 Ho) as [E2 HPx].
    assert (twin R (owned ← ownsAccount env user (account_of x); if owned : bool then mret x else stop NotFound) P R) as Hcont.
    { eapply twin_bind; [by apply twin_ownsAccount|]. intros [] _; [by apply twin_ret|]. apply twin_stop, R_X. }
    pose proof (Hcont _ _ (R_after w1 w2 HR)) as Hend. unfold checked, mbind, SE_bind in *.
    by rewrite (query_reads m w1 Hr), (query_reads m w2 Hr), E1, E2.
  - assert (match reached m w2 with inr x => owner (account_of x) <> u | inl _ => True end) as Hn2.
    { destruct (reached m w2) as [e|x] eqn:E2; [done|]. intros Ho. destruct (Hreach w2 w1 HR' x E2 Ho) as [E1 _].
      by rewrite E1 in Hn. }
    destruct (checked_refuses m account_of w1 Hr Hso (ex_intro _ w2 HR) Hn) as (w1' & -> & HX1).
    destruct (checked_refuses m account_of w2 Hr Hso (ex_intro _ w1 HR') Hn2) as (w2' & -> & HX2).
    split; [done|]. destruct (R_X w1 w2 HR), HX1, HX2. split; congruence.
Qed.
Lemma twin_accountForRequest raw : twin R (accountForRequest env raw user) (fun a => owner a.1 = u) R.
Proof.
  unfold accountForRequest. destruct (pathID raw) as [id|]; [|apply twin_stop, R_X]. intros w1 w2 HR.
  unfold mbind, SE_bind. rewrite (query_reads _ w1 (reads_GetAccount id)), (query_reads _ w2 (reads_GetAccount id)).
  pose proof (R_after w1 w2 HR) as HRa. assert (wb_calls w2 = wb_calls w1) as Hc by (symmetry; apply HR).
  rewrite Hc in *. pose proof HRa as (Hl & _). cbn [wb_db with_db] in Hl. unfold reached. rewrite Hc. destruct (we_fault env (wb_calls w1)) as [|e|e]; [|by split; [done|exact (R_X _ _ HRa)]..].
  pose proof (look_alike_sym _ _ Hl) as Hl'. pose proof Hl as ((_ & _ & Hp1 & _) & (_ & _ & Hp2 & _) & _).
  unfold GetAccount.
  destruct (rows (mail_accounts (we_others env (wb_calls w1) (wb_db w1))) !! id) as [r1|] eqn:E1;
    destruct (rows (mail_accounts (we_others env (wb_calls w1) (wb_db w2))) !! id) as [r2|] eqn:E2; cbn -[with_db];
    [| | |by split; [done|exact (R_X _ _ HRa)]].
  - destruct (allowed user (ac_user_id r1)) eqn:A1.
    + apply allowed_own in A1. rewrite (look_alike_account _ _ id r1 Hl E1 A1) in E2. injection E2 as <-.
      rewrite (proj2 (allowed_own _) A1). split; [done|]. split; [|done]. cbn. by rewrite <- (Hp1 id r1 E1).
    + destruct (allowed user (ac_user_id r2)) eqn:A2; [|by split; [done|exact (R_X _ _ HRa)]].
      apply allowed_own in A2. rewrite (look_alike_account _ _ id r2 Hl' E2 A2) in E1. injection E1 as <-.
      by rewrite (proj2 (allowed_own _) A2) in A1.
  - destruct (allowed user (ac_user_id r1)) eqn:A1; [|by split; [done|exact (R_X _ _ HRa)]].
    apply allowed_own in A1. by rewrite (look_alike_account _ _ id r1 Hl E1 A1) in E2.
  - destruct (allowed user (ac_user_id r2)) eqn:A2; [|by split; [done|exact (R_X _ _ HRa)]].
    apply allowed_own in A2. by rewrite (look_alike_account _ _ id r2 Hl' E2 A2) in E1.
Qed.

Lemma twin_mailboxForRequest raw : twin R (mailboxForRequest env raw user) (fun m => owner (home m.1) = u) R.
Proof.
  unfold mailboxForRequest. destruct (pathID raw) as [id|]; [|apply twin_stop, R_X].
  apply (twin_checked (fun _ => GetMailbox id) (fun m => mb_account_id m.2)); [apply reads_GetMailbox| |].
  - intros _ db1 db2 x (Hs1 & Hs2 & Hv). unfold GetMailbox. destruct (rows (mailboxes db1) !! id) as [mb|] eqn:E; [|done].
    intros [= <-] Ho. cbn in Ho.
    assert (rows (mailboxes (visible u db2)) !! id = Some mb) as E2.
    { rewrite <- Hv. apply lookup_restrict_Some. split; [exact E|].
      apply (own_mailbox u db1 (proj1 Hs1) id mb E). by apply own_owner. }
    by apply lookup_restrict_Some in E2 as [-> _].
  - intros _ db x (_ & _ & _ & Hh). unfold GetMailbox. destruct (rows (mailboxes db) !! id) as [mb|] eqn:E; [|done].
    intros [= <-]. cbn. by rewrite (Hh id mb E).
Qed.

Lemma md_AccountID_message db id d : (GetMessage id db).1 = inr d ->
  exists k m, rows (messages db) !! k = Some m /\ md_AccountID d = m_account_id m.
Proof.
  unfold GetMessage. destruct (rows (mailbox_messages db) !! id) as [r|]; cbn [mbind option_bind fst]; [|done].
  destruct (rows (messages db) !! mm_message_id r) as [m|] eqn:Em; cbn [mbind option_bind fst]; [|done].
  destruct (rows (mailboxes db) !! mm_mailbox_id r) as [mb|]; cbn [mbind option_bind mret option_ret fst]; [|done].
  intros [= <-]. exists (mm_message_id r), m. split; [done|]. unfold detail. by destruct (decodeAddresses _) as [[? ?] ?].
Qed.
Lemma twin_messageForRequest raw : twin R (messageForRequest env raw user) any R.
Proof.
  unfold messageForRequest. destruct (pathID raw) as [id|]; [|apply twin_stop, R_X].
  apply (twin_checked (fun _ => GetMessage id) md_AccountID); [apply reads_GetMessage| |done].
  intros _ db1 db2 d (Hs1 & Hs2 & Hv) Hd Ho.
  destruct (md_AccountID_message db1 id d Hd) as (k & m & Hm & Ha).
  assert (mine u db1 (md_AccountID d) = true) as Hmine.
  { rewrite Ha. apply (own_message u db1 (proj1 Hs1) k m Hm). apply own_owner; [done|]. by rewrite <- Ha. }
  pose proof (GetMessage_visible u db1 (proj1 (proj2 Hs1)) id d Hd Hmine) as Hvis. rewrite Hv in Hvis.
  by apply (visible_GetMessage u db2 (proj1 (proj2 Hs2)) id d) in Hvis as [? _].
Qed.

(** ** Building the page *)

Lemma twin_render S r us written name data : twin S (render env r us written name data) any S.
Proof. by apply twin_ret. Qed.
Lemma twin_fail {A} (S : Web -> Web -> Prop) r us doing P S' : (forall w1 w2, S w1 w2 -> X w1 w2) ->
  twin S (fail (A := A) env r us doing) P S'.
Proof. intros HS. eapply twin_bind; [apply twin_render|]. intros ? _. by apply twin_stop. Qed.
Lemma twin_succeed {A} (S : Web -> Web -> Prop) r us doing (x : err + A) P : (forall w1 w2, S w1 w2 -> X w1 w2) ->
  on_success P x -> twin S (succeed_or_fail env r us doing x) P S.
Proof. intros HS HP. destruct x; [by apply twin_fail|by apply twin_ret]. Qed.
Lemma twin_collect {A C} (f : A -> H (list C)) l (P : A -> Prop) :
  (forall x, P x -> twin R (f x) any R) -> Forall P l -> twin R (collect f l) any R.
Proof.
  intros Hf. induction 1 as [|x l HP Hl IH]; cbn; [by apply twin_ret|].
  eapply twin_bind; [by apply Hf|]. intros a _. eapply twin_bind; [exact IH|]. intros b _. by apply twin_ret.
Qed.
Lemma twin_progress_view a : twin R (progress_view env a) any R.
Proof.
  unfold progress_view, progress_of. eapply twin_bind; [apply twin_look|intros p _; by apply twin_ret].
  intros w1 w2 (_ & -> & _). done.
Qed.
Lemma twin_own_accounts r : twin R (own_accounts env r user) (Forall (fun a => owner a.1 = u)) R.
Proof.
  unfold own_accounts. eapply twin_bind; [apply twin_read; [done|apply alike_ListAccountsForUser]|].
  intros x Hx. apply twin_succeed; [apply R_X|done].
Qed.
Lemma twin_stats_of a : owner a = u -> twin R (stats_of env a) any R.
Proof.
  intros Ho. unfold stats_of. eapply twin_bind; [apply twin_read; [done|by apply alike_StatsForAccount]|].
  intros x _. by apply twin_ret.
Qed.
Lemma twin_draw n : twin R (draw env n) any R.
Proof. intros w1 w2 (Hl & Hc & Hd & Hk & Hs). unfold draw. rewrite Hd. split; [done|]. split; [done|]. unfold R. cbn. by rewrite Hc, Hk, Hs. Qed.
(** ** The pages *)

Lemma twin_X {A} (m : H A) S : (forall w1 w2, S w1 w2 -> X w1 w2) -> twin R m any S -> twin R m any X.
Proof. intros HS Hm. eapply twin_conseq; [exact Hm|done|done|done]. Qed.

Lemma twin_dashboard r : twin R (handleDashboard env r user) any R.
Proof.
  unfold handleDashboard. eapply twin_bind; [apply twin_own_accounts|]. intros l Hl.
  eapply twin_bind; [|intros v _; apply twin_render]. eapply twin_collect; [|exact Hl]. intros a Ha.
  eapply twin_bind; [by apply twin_stats_of|]. intros st _.
  eapply twin_bind; [apply twin_progress_view|]. intros p _. by apply twin_ret.
Qed.
Lemma twin_accounts r : twin R (handleAccounts env r user) any R.
Proof. unfold handleAccounts. eapply twin_bind; [apply twin_own_accounts|]. intros l _. apply twin_render. Qed.
Lemma twin_sync_page r : twin R (handleSyncPage env r user) any R.
Proof.
  unfold handleSyncPage. eapply twin_bind; [apply twin_own_accounts|]. intros l Hl.
  eapply twin_bind; [|intros v _; apply twin_render]. eapply (twin_collect _ _ any); [|by apply Forall_true]. intros a _.
  eapply twin_bind; [apply twin_progress_view|]. intros p _. by apply twin_ret.
Qed.
Lemma twin_send written : twin R (send env user written) any R.
Proof.
  unfold send. eapply twin_bind; [apply twin_read; [done|apply alike_ListAccountsForUser]|]. intros [e|l] _; [by apply twin_ret|].
  eapply twin_bind; [|intros v _; by apply twin_ret]. eapply (twin_collect _ _ any); [|by apply Forall_true]. intros a _.
  eapply twin_bind; [apply twin_progress_view|]. intros p _. by apply twin_ret.
Qed.
Lemma twin_stream ticks : twin R (stream env user ticks) any R.
Proof.
  induction ticks as [|[|written|[]] ticks IH]; cbn [stream]; try by apply twin_ret.
  - eapply twin_bind; [apply twin_send|]. intros [chunk|] _; [|by apply twin_ret].
    eapply twin_bind; [exact IH|]. intros rest _. by apply twin_ret.
  - eapply twin_bind; [exact IH|]. intros rest _. by apply twin_ret.
Qed.
Lemma twin_events r : twin R (handleSyncEvents env r user) any R.
Proof.
  unfold handleSyncEvents. cbv zeta. eapply twin_bind; [apply twin_send|]. intros [chunk|] _; [|by apply twin_ret].
  eapply twin_bind; [apply twin_stream|]. intros rest _. by apply twin_ret.
Qed.
Lemma twin_runs r : twin R (handleRuns env cfg r user) any R.
Proof.
  unfold handleRuns. eapply twin_bind; [apply twin_own_accounts|]. intros l Hl.
  eapply twin_bind; [|intros v _; apply twin_render]. eapply twin_collect; [|exact Hl]. intros a Ha.
  eapply twin_bind; [apply twin_read; [done|by apply alike_ListSyncRuns]|]. intros res _.
  eapply twin_bind; [apply twin_look; intros w1 w2 (_ & -> & _); done|]. intros now _. by apply twin_ret.
Qed.
Lemma reads_Search language q : reads (fun _ => Search tsv_matches ts_rank_cd ts_headline language q).
Proof. intros _ db. unfold Search. cbv zeta. destruct (String.eqb _ ""); [done|]. by destruct (_ <? _). Qed.
Lemma twin_search r : twin R (handleSearch env cfg tsv_matches ts_rank_cd ts_headline r user) any R.
Proof.
  unfold handleSearch. cbv zeta. eapply twin_bind with (P := any); [|intros v _; apply twin_render].
  destruct (String.eqb _ ""); [by apply twin_ret|].
  eapply twin_bind; [apply twin_own_accounts|]. intros l Hl.
  eapply twin_bind; [|intros v _; by apply twin_ret]. eapply twin_collect; [|exact Hl]. intros a Ha.
  unfold search_account. eapply twin_bind; [apply twin_read; [apply reads_Search|apply alike_Search; exact Ha]|].
  intros res _. by apply twin_ret.
Qed.
Lemma twin_account r raw : twin R (handleAccount env r user raw) any R.
Proof.
  unfold handleAccount. eapply twin_bind; [apply twin_accountForRequest|]. intros a Ha.
  eapply twin_bind; [by apply twin_stats_of|]. intros st _.
  eapply twin_bind; [apply twin_read; [done|by apply alike_ListMailboxes]|]. intros res Hres.
  eapply twin_bind; [apply twin_succeed; [apply R_X|exact Hres]|]. intros boxes _.
  eapply twin_bind; [apply twin_read; [done|by apply alike_ListSyncRuns]|]. intros runs _.
  eapply twin_bind; [apply twin_progress_view|]. intros p _. apply twin_render.
Qed.
Lemma reads_ListMessages id n k : reads (fun _ => ListMessages id n k).
Proof. intros _ db. unfold ListMessages. cbv zeta. by destruct (_ <? _). Qed.
Lemma twin_mailbox r raw : twin R (handleMailbox env r user raw) any R.
Proof.
  unfold handleMailbox. eapply twin_bind; [apply twin_mailboxForRequest|]. intros m Hm. cbv zeta.
  eapply twin_bind; [apply twin_read; [apply reads_ListMessages|by apply alike_ListMessages]|]. intros res Hres.
  eapply twin_bind; [apply twin_succeed; [apply R_X|exact Hres]|]. intros [ms total] _. apply twin_render.
Qed.
Lemma twin_message r raw : twin R (handleMessage env r user raw) any R.
Proof. unfold handleMessage. eapply twin_bind; [apply twin_messageForRequest|]. intros d _. apply twin_render. Qed.
Lemma twin_blob_get key : twin R (blob_get env blobs key) any R.
Proof.
  intros w1 w2 (Hl & Hc & Hd & Hk & Hs). unfold blob_get. rewrite <- Hc.
  destruct (we_blob env (wb_calls w1)); (split; [done|]; split; [done|]; unfold R; cbn; by rewrite Hc).
Qed.
Lemma twin_raw r raw : twin R (handleRawMessage env blobs r user raw) any R.
Proof.
  unfold handleRawMessage. eapply twin_bind; [apply twin_messageForRequest|]. intros d _.
  destruct (String.eqb _ ""); [by apply twin_ret|]. eapply twin_bind; [apply twin_blob_get|]. intros res _.
  eapply twin_bind; [apply (twin_succeed _ _ _ _ _ any); [apply R_X|by destruct res]|]. intros c _. by apply twin_ret.
Qed.
Lemma twin_part r raw path : twin R (handleMessagePart env blobs r user raw path) any R.
Proof.
  unfold handleMessagePart. eapply twin_bind; [apply twin_messageForRequest|]. intros d _.
  destruct (list_find _ _) as [[i part]|]; [|by apply twin_ret].
  destruct (String.eqb _ ""); [by apply twin_ret|]. eapply twin_bind; [apply twin_blob_get|]. intros res _.
  eapply twin_bind; [apply (twin_succeed _ _ _ _ _ any); [apply R_X|by destruct res]|]. intros c _. by apply twin_ret.
Qed.

(** ** The pages that change something *)

Lemma twin_startSync (S : Web -> Web -> Prop) a t : (forall w1 w2, S w1 w2 -> X w1 w2) ->
  twin S (startSync a t ≫= fun _ => mret (Redirect (account_url a))) any X.
Proof.
  intros HS. eapply (twin_bind _ _ X); [apply twin_updates|intros ? _; by apply twin_ret].
  intros w1 w2 Hw. destruct (HS w1 w2 Hw) as [Hc Ht]. unfold X. cbn. by rewrite Hc, Ht.
Qed.
Lemma twin_sync_account r raw : twin R (handleSyncAccount env r user raw) any X.
Proof.
  unfold handleSyncAccount. eapply twin_bind; [apply twin_accountForRequest|]. intros a _.
  eapply (twin_bind _ _ X); [apply twin_updates|intros ? _; by apply twin_ret].
  intros w1 w2 Hw. destruct (R_X w1 w2 Hw) as [Hc Ht]. unfold X. cbn. by rewrite Hc, Ht.
Qed.
Lemma twin_pause paused r raw : twin R (setPaused env paused r user raw) any X.
Proof.
  unfold setPaused. eapply twin_bind; [apply twin_accountForRequest|]. intros a _.
  eapply twin_bind; [apply (twin_write _ any); by split|]. intros res Hres.
  eapply twin_bind; [apply twin_succeed; [done|exact Hres]|]. intros ? _. by apply twin_ret.
Qed.
Lemma twin_delete r raw : twin R (handleDeleteAccount env r user raw) any X.
Proof.
  unfold handleDeleteAccount. eapply twin_bind; [apply twin_accountForRequest|]. intros a _.
  eapply twin_bind; [apply (twin_write _ any); by split|]. intros res Hres.
  eapply twin_bind; [apply twin_succeed; [done|exact Hres]|]. intros ? _. by apply twin_ret.
Qed.
Lemma twin_test r : twin R (handleTestAccount env connect r user) any R.
Proof.
  unfold handleTestAccount. cbv zeta. destruct (form_malformed _ _); [by apply twin_ret|].
  destruct (accountFromForm r) as [text|account]; [apply twin_render|].
  destruct (connect account) as [e|[e|n]]; apply twin_render.
Qed.

Lemma alike_CreateAccount p : ca_UserID p = u -> alike (fun _ => CreateAccount p) any.
Proof.
  intros Hu now db1 db2 (_ & _ & Hv). split; [|done]. unfold CreateAccount, wrap_err.
  destruct (negb _); [done|]. destruct (negb _); [done|].
  assert (forall db, rows (users (visible u db)) !! ca_UserID p = rows (users db) !! ca_UserID p) as Husers.
  { intros db. unfold visible. cbn [users rows]. rewrite lookup_omap, Hu.
    destruct (rows (users db) !! u) as [r|] eqn:E.
    - assert (filter (fun kr => kr.1 = u) (rows (users db)) !! u = Some r) as -> by by apply map_lookup_filter_Some.
      done.
    - assert (filter (fun kr => kr.1 = u) (rows (users db)) !! u = None) as ->; [|done].
      apply map_lookup_filter_None. by left. }
  rewrite <- (Husers db1), <- (Husers db2), Hv.
  destruct (rows (users (visible u db2)) !! ca_UserID p) as [urow|]; [|done].
  assert (forall db, exists_row (account_key (ca_UserID p) (ca_EmailAddress p)) (mail_accounts (visible u db)) =
    exists_row (account_key (ca_UserID p) (ca_EmailAddress p)) (mail_accounts db)) as Hkey.
  { intros db. unfold exists_row.
    change (mail_accounts (visible u db)) with (restrict (fun r => ac_user_id r =? u) (mail_accounts db)).
    rewrite (select_restrict (account_key (ca_UserID p) (ca_EmailAddress p))
      (account_key (ca_UserID p) (ca_EmailAddress p))); [done| |done].
    intros id r _ Hr. unfold account_key in Hr. apply andb_true_iff in Hr as [Hr _]. by rewrite <- Hu. }
  rewrite <- (Hkey db1), <- (Hkey db2), Hv. destruct (exists_row _ _); [done|].
  unfold insert_row. cbn [fst].
  assert (forall db, nextval (mail_accounts (visible u db)) = nextval (mail_accounts db)) as Hseq by done.
  by rewrite <- (Hseq db1), <- (Hseq db2), Hv.
Qed.
Lemma twin_create r : twin R (handleCreateAccount env sealer r user) any X.
Proof.
  assert (forall text, twin R (render env r (Some user) None "account_new.html" (error_page "Add an account" text)) any X) as Hrefuse.
  { intros text. apply (twin_X _ R R_X), twin_render. }
  assert (forall text, twin X (render env r (Some user) None "account_new.html" (error_page "Add an account" text)) any X) as Hrefuse'
    by (intros; apply twin_render).
  unfold handleCreateAccount. cbv zeta.
  destruct (form_malformed _ _); [apply (twin_X _ R R_X); by apply twin_ret|].
  destruct (accountFromForm r) as [text|creds]; [apply Hrefuse|].
  destruct sealer as [k|]; [|apply Hrefuse].
  assert (forall text, twin R (seal_text env text k) any R) as Hseal.
  { intros text. unfold seal_text. eapply twin_bind; [apply twin_draw|]. intros n _. by apply twin_ret. }
  eapply twin_bind; [apply Hseal|]. intros s1 _.
  eapply twin_bind; [apply (twin_succeed _ _ _ _ _ any); [apply R_X|by destruct s1]|]. intros su _.
  eapply twin_bind; [apply Hseal|]. intros s2 _.
  eapply twin_bind; [apply (twin_succeed _ _ _ _ _ any); [apply R_X|by destruct s2]|]. intros ss _.
  eapply twin_bind; [apply twin_write; by apply alike_CreateAccount|]. intros [e|a] _; [apply Hrefuse'|].
  by apply twin_startSync.
Qed.

Lemma twin_page p r : twin R (page_handler env cfg sealer tsv_matches ts_rank_cd ts_headline blobs provenance connect p r user) any X.
Proof.
  unfold page_handler. destruct p.
  - apply (twin_X _ R R_X), twin_dashboard.
  - apply (twin_X _ R R_X), twin_accounts.
  - apply (twin_X _ R R_X), twin_render.
  - apply twin_create.
  - apply (twin_X _ R R_X), twin_test.
  - apply (twin_X _ R R_X), twin_account.
  - apply twin_sync_account.
  - apply twin_pause.
  - apply twin_pause.
  - apply twin_delete.
  - apply (twin_X _ R R_X), twin_mailbox.
  - apply (twin_X _ R R_X), twin_message.
  - apply (twin_X _ R R_X), twin_raw.
  - apply (twin_X _ R R_X), twin_part.
  - apply (twin_X _ R R_X), twin_search.
  - apply (twin_X _ R R_X), twin_sync_page.
  - apply (twin_X _ R R_X), twin_events.
  - apply (twin_X _ R R_X), twin_runs.
  - apply (twin_X _ R R_X), twin_render.
Qed.
End isolation.
