(* ===== verification/WebExamples.v ===== *)
(** A small installation to try the interface on: Alice, with a mailbox of three messages,
    and Bob; a cipher, hashes and a template engine that can be computed. *)
From S2P Require Import Prelude GoStrings Retry Crypto Text Schema StoreMailboxes StoreMessages StoreRuns StoreAccounts StoreBrowse StoreInvariant StoreSteps Blob SyncMeta SyncPass Config ConfigLoad Search SyncRun Web WebHandlers Visible Effects Twin WebIsolation.
From Stdlib Require Import String.
From stdpp Require Import strings gmap list.
Open Scope list_scope.
Open Scope Z_scope.

(** A cipher whose key is a nonce length: the nonce, then the text. *)
Definition web_aead : AEAD nat := {|
  NonceSize n := n;
  aead_Seal _ nonce p := (nonce ++ p)%list;
  aead_Open n nonce c := if bool_decide (take n c = nonce) then inr (drop n c) else inl (ErrText "cipher: message authentication failed")
|}.
Lemma web_aead_laws : AEADLaws nat (H:=web_aead).
Proof.
  constructor. intros k nonce p Hn. cbn in *. rewrite <- Hn, take_app_length, drop_app_length. by rewrite bool_decide_true.
Qed.
Definition web_sum (l : list ascii) : list Z := map code l.
Definition web_store : BlobStore MemStore := Mem_BlobStore web_sum.
(** The password "secret". *)
Definition web_hash : string :=
  match HashPassword ex_IDKey (inr (lit "0123456789abcdef")) (lit "secret") with inr h => string_of_list_ascii h | inl _ => ""%string end.
Definition alice : User := (1, mk_user "alice@example.org" web_hash false None 0).

Definition web_users : DB := exec (CreateUser 0 "bob@example.org" web_hash false) (exec (CreateUser 0 "alice@example.org" web_hash false) empty_db).
Definition web_accounts : DB :=
  exec (CreateAccount (mk_CreateAccountParams 2 "Bob" "bob@example.org" "imap.example.org" 993 "tls" [1] [2])) (exec ex_account web_users).
Definition web_db : DB := exec (UpsertMetadataBatch (map ex_meta [11; 12; 13])) (exec ex_mailbox web_accounts).
(** The same, without Bob's account. *)
Definition web_db_alone : DB := exec (DeleteAccount 2) web_db.

Lemma web_db_wf : db_wf web_db.
Proof. by apply UpsertMetadataBatch_wf, UpsertMailbox_wf, CreateAccount_wf, CreateAccount_wf, CreateUser_wf, CreateUser_wf, empty_db_wf. Qed.
Lemma web_db_alone_wf : db_wf web_db_alone.
Proof. apply DeleteAccount_wf, web_db_wf. Qed.

Definition web_env : WebEnv := mk_WebEnv (fun _ => NoFault) (fun _ db => db) (fun n => 1000 * Z.of_nat n)
  (fun k n => inr (repeat (ascii_of_nat (65 + k)) n)) (fun _ _ => None) (fun _ => None)
  (fun name _ => inr (lit name)) true [ProgressDue true; HeartbeatDue true; ProgressDue true; Gone].
Definition web_start (db : DB) : Web := mk_Web db 0 0 [] [].
Lemma web_env_faultless : faultless web_env.
Proof. by split. Qed.

Definition browse (path : list string) (query : list (string * string)) : Request :=
  mk_Request "GET" path query [] false [("imapped_session", "letmein")]%string false "" "agent" "10.0.0.1".
Definition submit (path : list string) (form : list (string * string)) (cookies : list (string * string)) : Request :=
  mk_Request "POST" path [] form false cookies false "" "agent" "10.0.0.1".

(** Alice's session. *)
Definition web_session_db : DB := exec (CreateSession 0 1 (hashToken web_sum "letmein") "web" "agent" "10.0.0.1" 5000000) web_db.
Lemma web_session_db_wf : db_wf web_session_db.
Proof. apply CreateSession_wf, web_db_wf. Qed.

(** Deciding the conditions on a concrete database. *)
Definition aligned_b (db : DB) : bool := bool_decide (map_Forall (fun _ r =>
  match rows (messages db) !! mm_message_id r, rows (mailboxes db) !! mm_mailbox_id r with
  | Some m, Some mb => m_account_id m =? mb_account_id mb
  | _, _ => true
  end = true) (rows (mailbox_messages db))).
Lemma aligned_b_ok db : aligned_b db = true -> aligned db.
Proof.
  intros Hb%bool_decide_eq_true id r m mb Hr Hm Hmb. specialize (Hb id r Hr). cbn in Hb. rewrite Hm, Hmb in Hb. by apply Z.eqb_eq.
Qed.
Definition placed_b (owner home : Z -> Z) (db : DB) : bool :=
  bool_decide (map_Forall (fun id r => ac_user_id r = owner id) (rows (mail_accounts db)))
  && bool_decide (map_Forall (fun id r => mb_account_id r = home id) (rows (mailboxes db))).
Lemma placed_b_ok owner home db : placed_b owner home db = true -> placed owner home db.
Proof. by intros [?%bool_decide_eq_true ?%bool_decide_eq_true]%andb_true_iff. Qed.

Definition web_owner (id : Z) : Z := id.
Definition web_home (_ : Z) : Z := 1.
Lemma web_look_alike : look_alike alice web_owner web_home web_db web_db_alone.
Proof.
  split; [|split]; [split; [exact web_db_wf|]|split; [exact web_db_alone_wf|]|vm_compute; reflexivity];
    (split; [apply aligned_b_ok|apply placed_b_ok]; vm_compute; reflexivity).
Qed.
