(* ===== verification/WebTheorems.v ===== *)
(** What the browser interface promises: every page is its user's own, nothing is served
    or done without a session and, for changes, the token; and what the pages hold. *)
From S2P Require Import Prelude GoStrings Retry Crypto Text Schema StoreMailboxes StoreMessages StoreRuns StoreAccounts StoreBrowse StoreInvariant StoreSteps Blob SyncMeta SyncPass Config ConfigLoad Search SyncRun Web WebHandlers Visible Effects Twin WebIsolation WebExamples.
From Stdlib Require Import String.
From stdpp Require Import strings gmap list.
Open Scope list_scope.
Open Scope Z_scope.

Lemma twin_answer R m w1 w2 P S : twin X R m P S -> (forall a b, S a b -> X a b) -> R w1 w2 ->
  (answer m w1).1 = (answer m w2).1 /\ X (answer m w1).2 (answer m w2).2.
Proof.
  intros Hm HS HR. specialize (Hm w1 w2 HR). unfold answer.
  destruct (m w1) as [[?|?] ?], (m w2) as [[?|?] ?]; try done.
  destruct Hm as (-> & _ & ?). split; [done|by apply HS].
Qed.

Section pages.
Context {K : Type} `{AEAD K} `{!AEADLaws K}.
Context {B : Type} `{BlobStore B}.
Variable env : WebEnv.
Variable cfg : Config.
Variable sealer : option K.
Variable tsv_matches : string -> string -> message_row -> bool.
Variable ts_rank_cd : string -> string -> message_row -> Z.
Variable ts_headline : string -> string -> message_row -> string.
Variable blobs : B.
Variable provenance : list Field.
Variable connect : UpAccount -> err + (err + Z).
Notation page_handler := (page_handler env cfg sealer tsv_matches ts_rank_cd ts_headline blobs provenance connect).

(** ** Pages that name something *)

(** The user whose account a page's path leads to, if it leads to one. *)
Definition user_of (db : DB) (accountID : Z) : option Z := ac_user_id <$> rows (mail_accounts db) !! accountID.
Definition named_user (db : DB) (p : Page_) : option Z :=
  match p with
  | P_Account id | P_SyncAccount id | P_Pause id | P_Resume id | P_Delete id =>
      pathID id ≫= user_of db
  | P_Mailbox id => n ← pathID id; mb ← rows (mailboxes db) !! n; user_of db (mb_account_id mb)
  | P_Message id | P_Raw id | P_Part id _ =>
      n ← pathID id;
      match (GetMessage n db).1 with inr d => user_of db (md_AccountID d) | inl _ => None end
  | _ => None
  end.
Definition names_something (p : Page_) : bool :=
  match p with
  | P_Account _ | P_SyncAccount _ | P_Pause _ | P_Resume _ | P_Delete _ | P_Mailbox _ | P_Message _ | P_Raw _ | P_Part _ _ => true
  | _ => false
  end.

(** Stops with the not-found page, having changed nothing. *)
Definition not_found {A} (m : H A) (w : Web) : Prop := exists w', m w = (inl NotFound, w') /\ wb_db w' = wb_db w /\ X w w'.

Lemma not_found_bind {A C} (m : H A) (f : A -> H C) w : not_found m w -> not_found (m ≫= f) w.
Proof. intros (w' & Hm & HX). exists w'. unfold mbind, SE_bind. by rewrite Hm. Qed.
Lemma not_found_answer (m : H Response) w : not_found m w ->
  (answer m w).1 = NotFound /\ wb_db (answer m w).2 = wb_db w /\ X w (answer m w).2.
Proof. intros (w' & Hm & HX). unfold answer. by rewrite Hm. Qed.

Section named.
Hypothesis Hq : undisturbed env.
Variable user : User.
Hypothesis Hadmin : us_is_admin user.2 = false.

Lemma query_quiet {A} (m : Z -> sql A) w : reads m ->
  query env m w = (inr (reached env m w), with_db (wb_db w) w).
Proof. intros Hr. rewrite (query_reads env m w Hr). by rewrite Hq. Qed.
Lemma reached_quiet {A} (m : Z -> sql A) w x : reached env m w = inr x -> exists now, (m now (wb_db w)).1 = inr x.
Proof. unfold reached. rewrite Hq. destruct (we_fault env (wb_calls w)); [intros Hx; by eexists|done..]. Qed.
Lemma allowed_iff id : allowed user id = true <-> id = user.1.
Proof. unfold allowed. rewrite Hadmin, orb_false_r. apply Z.eqb_eq. Qed.

Lemma accountForRequest_refuses raw w :
  (pathID raw ≫= user_of (wb_db w)) <> Some user.1 -> not_found (accountForRequest env raw user) w.
Proof.
  intros Hn. unfold accountForRequest. destruct (pathID raw) as [id|] eqn:Ei; [|by eexists].
  unfold not_found, mbind, SE_bind. rewrite (query_quiet _ w (reads_GetAccount id)).
  destruct (reached env (fun _ => GetAccount id) w) as [e|a] eqn:Er; [by eexists|].
  apply reached_quiet in Er as [now Er]. unfold GetAccount in Er.
  destruct (rows (mail_accounts (wb_db w)) !! id) as [r|] eqn:Erow; [|done]. injection Er as <-. cbn [snd].
  destruct (allowed user (ac_user_id r)) eqn:Ea; [|by eexists]. exfalso. apply Hn. cbn. unfold user_of. rewrite Erow.
  cbn. f_equal. by apply allowed_iff.
Qed.
Lemma ownsAccount_answer a w : exists b, ownsAccount env user a w = (inr b, with_db (wb_db w) w) /\
  (user_of (wb_db w) a <> Some user.1 -> b = false).
Proof.
  unfold ownsAccount, mbind, SE_bind. rewrite (query_quiet _ w (reads_GetAccount a)).
  unfold mret, SE_ret. eexists. split; [done|]. intros Hn.
  destruct (reached env (fun _ => GetAccount a) w) as [e|acc] eqn:Er; [done|].
  apply reached_quiet in Er as [now Er]. unfold GetAccount in Er.
  destruct (rows (mail_accounts (wb_db w)) !! a) as [r|] eqn:Erow; [|done]. injection Er as <-. cbn.
  destruct (allowed user (ac_user_id r)) eqn:Ea; [|done]. exfalso. apply Hn. unfold user_of. rewrite Erow.
  cbn. f_equal. by apply allowed_iff.
Qed.

Lemma checked_not_found {A} (m : Z -> sql A) account_of w : reads m ->
  (forall now x, (m now (wb_db w)).1 = inr x -> user_of (wb_db w) (account_of x) <> Some user.1) ->
  not_found (checked env user m account_of) w.
Proof.
  intros Hr Hn. unfold not_found, checked, mbind, SE_bind. rewrite (query_quiet m w Hr).
  destruct (reached env m w) as [e|x] eqn:Er; [by eexists|]. apply reached_quiet in Er as [now Er].
  destruct (ownsAccount_answer (account_of x) (with_db (wb_db w) w)) as (b & -> & Hb).
  rewrite (Hb (Hn now x Er)). by eexists.
Qed.
Lemma mailboxForRequest_refuses raw w :
  (n ← pathID raw; mb ← rows (mailboxes (wb_db w)) !! n; user_of (wb_db w) (mb_account_id mb)) <> Some user.1 ->
  not_found (mailboxForRequest env raw user) w.
Proof.
  intros Hn. unfold mailboxForRequest. destruct (pathID raw) as [id|]; [|by eexists].
  apply (checked_not_found (fun _ => GetMailbox id) (fun m => mb_account_id m.2)); [apply reads_GetMailbox|].
  intros now x Hx. unfold GetMailbox in Hx. cbn in Hn. destruct (rows (mailboxes (wb_db w)) !! id); [|done].
  injection Hx as <-. exact Hn.
Qed.
Lemma messageForRequest_refuses raw w :
  (n ← pathID raw; match (GetMessage n (wb_db w)).1 with inr d => user_of (wb_db w) (md_AccountID d) | inl _ => None end)
    <> Some user.1 ->
  not_found (messageForRequest env raw user) w.
Proof.
  intros Hn. unfold messageForRequest. destruct (pathID raw) as [id|]; [|by eexists].
  apply (checked_not_found (fun _ => GetMessage id) md_AccountID); [apply reads_GetMessage|].
  intros now x Hx. cbn [mbind option_bind] in Hn. by rewrite Hx in Hn.
Qed.
End named.

(** A page that names an account, a mailbox or a message answers "not found", does
    nothing and starts nothing, unless the name leads to an account of the user's (or the
    user is an administrator): what belongs to someone else is as missing as what is not
    there, whichever store calls fail. *)
Theorem foreign_names_not_found (user : User) (p : Page_) (r : Request) (w : Web) :
  undisturbed env -> us_is_admin user.2 = false -> names_something p = true ->
  named_user (wb_db w) p <> Some user.1 ->
  (answer (page_handler p r user) w).1 = NotFound /\
  wb_db (answer (page_handler p r user) w).2 = wb_db w /\ X w (answer (page_handler p r user) w).2.
Proof.
  intros Hq Ha Hp Hn. apply not_found_answer. unfold page_handler.
  destruct p; try discriminate Hp; cbn [named_user] in Hn; apply not_found_bind;
    first [ by apply accountForRequest_refuses | by apply mailboxForRequest_refuses | by apply messageForRequest_refuses ].
Qed.
End pages.

(** * On the example installation *)

#[local] Existing Instance web_aead.
#[local] Existing Instance web_aead_laws.
#[local] Existing Instance web_store.
Notation web_page p r := (page_handler web_env Default (Some 2%nat) (fun _ _ _ => true) (fun _ _ _ => 1) (fun _ _ _ => ""%string)
  (∅ : MemStore) [] (fun _ => inr (inr 3)) p r alice).

(** Alice asks for Bob's account to be deleted. *)
Lemma foreign_names_not_found_witness :
  (answer (web_page (P_Delete "2") (submit ["accounts"; "2"; "delete"]%string [] [])) (web_start web_db)).1 = NotFound /\
  wb_db (answer (web_page (P_Delete "2") (submit ["accounts"; "2"; "delete"]%string [] [])) (web_start web_db)).2 = web_db.
Proof.
  destruct (foreign_names_not_found web_env Default (Some 2%nat) (fun _ _ _ => true) (fun _ _ _ => 1) (fun _ _ _ => ""%string)
    (∅ : MemStore) [] (fun _ => inr (inr 3)) alice (P_Delete "2") (submit ["accounts"; "2"; "delete"]%string [] []) (web_start web_db))
    as (Hr & Hdb & _); [apply web_env_faultless|reflexivity|reflexivity|vm_compute; discriminate|].
  split; [exact Hr|exact Hdb].
Defined.
