(* ===== verification/WebAuth.v ===== *)
(** Who gets in: every protected page needs a live session of an active user, every
    change needs the token as well, and a session is only handed out for a password. *)
From S2P Require Import Prelude GoStrings Retry Crypto Schema StoreMailboxes StoreMessages StoreRuns StoreAccounts StoreBrowse StoreInvariant StoreProps Blob SyncMeta SyncPass Config ConfigLoad Search SyncRun Web WebHandlers Visible Effects Twin WebIsolation WebExamples.
From Stdlib Require Import String.
From stdpp Require Import strings gmap list relations.
Open Scope list_scope.
Open Scope Z_scope.

Section auth.
Context {K : Type} `{AEAD K}.
Context {B : Type} `{BlobStore B}.
Variable env : WebEnv.
Variable cfg : Config.
Variable Sum256 : list ascii -> list Z.
Variable IDKey : list ascii -> list ascii -> Z -> Z -> Z -> Z -> list ascii.
Variable sealer : option K.
Variable tsv_matches : string -> string -> message_row -> bool.
Variable ts_rank_cd : string -> string -> message_row -> Z.
Variable ts_headline : string -> string -> message_row -> string.
Variable blobs : B.
Variable provenance : list Field.
Variable connect : UpAccount -> err + (err + Z).
Variable static unmatched : Request -> Response.
Notation page_handler := (page_handler env cfg sealer tsv_matches ts_rank_cd ts_headline blobs provenance connect).
Notation serve := (serve env cfg Sum256 IDKey sealer tsv_matches ts_rank_cd ts_headline blobs provenance connect static unmatched).

(** * Sessions *)

(** The request comes from user [u]: its cookie is the token of a session of theirs that
    is neither revoked nor expired, and they are not disabled. *)
Definition signed_in (now : Z) (r : Request) (db : DB) (u : User) : Prop := exists token sid s,
  Cookie_value r sessionCookie = Some token /\ rows (sessions db) !! sid = Some s /\
  se_token_hash s = hashToken Sum256 token /\ se_revoked_at s = None /\ now < se_expires_at s /\
  se_user_id s = u.1 /\ rows (users db) !! u.1 = Some u.2 /\ User_Active u = true.

(** Nothing changed but when sessions were last seen. *)
Definition untouched (db db' : DB) : Prop :=
  set_sessions empty_table db' = set_sessions empty_table db /\
  (set_se_last_seen_at 0 <$> rows (sessions db')) = (set_se_last_seen_at 0 <$> rows (sessions db)).
Definition unmoved (w w' : Web) : Prop := wb_cookies w' = wb_cookies w /\ wb_started w' = wb_started w.

Lemma untouched_refl db : untouched db db.
Proof. done. Qed.
Lemma untouched_trans a b c : untouched a b -> untouched b c -> untouched a c.
Proof. intros [Ha Hb] [Hc Hd]. split; congruence. Qed.

Lemma UserForSession_touches now tok db : untouched db (UserForSession now tok db).2.
Proof.
  unfold UserForSession. destruct (find_row _ _) as [[sid s]|]; [|done].
  assert (untouched db (set_sessions (update_where (live_session now tok) (set_se_last_seen_at now) (sessions db)) db)) as Hu.
  { split; [done|]. cbn. apply map_eq. intros k. rewrite !lookup_fmap, map_lookup_imap.
    destruct (rows (sessions db) !! k) as [x|]; [|done]. cbn. by destruct (live_session now tok k x). }
  by destruct (rows (users db) !! _).
Qed.
Lemma UserForSession_says now r token db u : Cookie_value r sessionCookie = Some token ->
  db_wf db -> (UserForSession now (hashToken Sum256 token) db).1 = inr u -> User_Active u = true -> signed_in now r db u.
Proof.
  intros Hc Hwf. unfold UserForSession. destruct (find_row _ _) as [[sid s]|] eqn:E; [|done].
  apply find_row_Some in E as [Hs Hl].
  destruct (rows (users db) !! se_user_id s) as [row|] eqn:Eu; [|done]. cbn. intros [= <-] Ha.
  unfold live_session in Hl. apply andb_true_iff in Hl as [[Ht Hr]%andb_true_iff He%Z.ltb_lt].
  apply bool_decide_eq_true in Ht, Hr. exists token, sid, s. split_and!; done.
Qed.

(** Conversely, whoever is signed in is recognised. *)
Lemma signed_in_found now r token db u : Cookie_value r sessionCookie = Some token ->
  db_wf db -> signed_in now r db u -> (UserForSession now (hashToken Sum256 token) db).1 = inr u.
Proof.
  intros Hc Hwf (t & sid & s & Hc' & Hs & Ht & Hr & He & Hu & Hrow & _). rewrite Hc in Hc'. injection Hc' as <-.
  unfold UserForSession.
  rewrite (find_row_uniq session_index (sessions db) _ (hashToken Sum256 token) sid s);
    [|by apply wf_session_index|exact Hs| |].
  - rewrite Hu, Hrow. by destruct u.
  - unfold live_session. rewrite Ht, Hr, !bool_decide_true by done. by apply Z.ltb_lt.
  - intros ? s' Hl. unfold live_session in Hl. apply andb_true_iff in Hl as [[Hl%bool_decide_eq_true _]%andb_true_iff _].
    unfold session_index. by rewrite Hl.
Qed.

(** * The check in front of the protected pages *)

Definition token_given (r : Request) : bool := safe_method r || csrfValid r.
Definition forbidden : Response := http_Error "invalid or missing CSRF token" 403.

Lemma serve_protected r p w token : route r = Some (Protected p) -> Cookie_value r sessionCookie = Some token ->
  serve r w = match query env (fun now => UserForSession now (hashToken Sum256 token)) w with
    | (inr (inr u), w1) =>
        if negb (User_Active u) then (redirectToLogin r, w1)
        else if token_given r then answer (page_handler p r u) w1 else (forbidden, w1)
    | (_, w1) => (redirectToLogin r, w1)
    end.
Proof.
  intros Hroute Ec. unfold WebHandlers.serve, Mount. rewrite Hroute. unfold requireUser. rewrite Ec.
  unfold answer at 1, mbind, SE_bind, query. destruct (we_fault env (wb_calls w)); [|done..].
  destruct (UserForSession _ _ _) as [[e|u] db1]; [done|]. unfold token_given.
  destruct (User_Active u); [|done]. by destruct (safe_method r), (csrfValid r).
Qed.

Lemma serve_anonymous r p w : route r = Some (Protected p) -> Cookie_value r sessionCookie = None ->
  serve r w = (redirectToLogin r, w).
Proof. intros Hroute Ec. unfold WebHandlers.serve, Mount. rewrite Hroute. unfold requireUser, answer. by rewrite Ec. Qed.

(** A protected page is served exactly to a request that carries the token of a live
    session of an active user and, unless it is a GET or a HEAD, the CSRF token as well
    (and whose session can be looked up at all); it is then served for that session's own
    user.  Any other request is sent to the sign-in page, or refused with 403 when only
    the CSRF token is wrong, and nothing is done for it: no cookie is set, no sync
    started, no row changed except when the session was last seen. *)
Theorem protected_gate (r : Request) (p : Page_) (w : Web) :
  route r = Some (Protected p) ->
  let now := we_now env (wb_calls w) in
  let db := we_others env (wb_calls w) (wb_db w) in
  db_wf db ->
  (exists u w1, signed_in now r db u /\ we_fault env (wb_calls w) = NoFault /\ token_given r = true /\
     untouched db (wb_db w1) /\ unmoved w w1 /\ serve r w = answer (page_handler p r u) w1)
  \/
  ((forall u, signed_in now r db u -> we_fault env (wb_calls w) = NoFault -> token_given r = false /\ (serve r w).1 = forbidden) /\
   ((serve r w).1 = redirectToLogin r \/ (serve r w).1 = forbidden) /\
   (wb_db (serve r w).2 = wb_db w \/ untouched db (wb_db (serve r w).2)) /\ unmoved w (serve r w).2).
Proof.
  intros Hroute now db Hwf.
  destruct (Cookie_value r sessionCookie) as [token|] eqn:Ec.
  2: { rewrite (serve_anonymous r p w Hroute Ec).
       right. cbn. split_and!; [intros u (t & sid & s & Hc & _); congruence|by left|by left|done..]. }
  pose proof (UserForSession_touches now (hashToken Sum256 token) db) as Hu.
  pose proof (fun u => UserForSession_says now r token db u Ec Hwf) as Hsays.
  pose proof (fun u => signed_in_found now r token db u Ec Hwf) as Hfound.
  rewrite (serve_protected r p w token Hroute Ec). unfold query. fold now db. unfold exec.
  destruct (we_fault env (wb_calls w)) as [|e|e].
  - destruct (UserForSession now (hashToken Sum256 token) db) as [[e|u] db1]; cbn in Hu, Hsays, Hfound |- *.
    + right. split_and!; [|by left|by right|done..]. intros u Hs. by specialize (Hfound u Hs).
    + destruct (User_Active u) eqn:Ea; cbn.
      2: { right. split_and!; [|by left|by right|done..]. intros u' Hs _. specialize (Hfound u' Hs). injection Hfound as ->.
           destruct Hs as (? & ? & ? & ? & ? & ? & ? & ? & ? & ? & Ha). congruence. }
      destruct (token_given r); cbn; [left; exists u, (with_db db1 w); by split_and!; auto|].
      right. split_and!; [done|by right|by right|done..].
  - right. cbn. split_and!; [done|by left|by right|done..].
  - right. cbn. split_and!; [done|by left|by right|done..].
Qed.

(** * Changes *)

(** Nothing done at all. *)
Definition quiet (w w' : Web) : Prop := wb_db w' = wb_db w /\ unmoved w w'.
#[local] Instance quiet_preorder : PreOrder quiet.
Proof.
  split; [done|]. intros a b c (Ha & Hb & Hc) (Hd & He & Hf). unfold quiet, unmoved. split_and!; congruence.
Qed.
Notation calm := (respects quiet).

Section undisturbed.
Hypothesis Hq : undisturbed env.

Lemma calm_query {A} (m : Z -> sql A) : reads m -> calm (query env m).
Proof. intros Hr w. rewrite (query_reads env m w Hr). cbn. by rewrite Hq. Qed.
Lemma calm_render r us written name data : calm (render env r us written name data).
Proof. apply respects_ret; typeclasses eauto. Qed.
Lemma calm_succeed {A} r us doing (x : err + A) : calm (succeed_or_fail env r us doing x).
Proof. destruct x; [|apply respects_ret; typeclasses eauto]. apply respects_bind; [typeclasses eauto|apply calm_render|]. intros. apply respects_stop; typeclasses eauto. Qed.
Lemma calm_collect {A C} (f : A -> H (list C)) l : (forall x, calm (f x)) -> calm (collect f l).
Proof. intros Hf. induction l as [|x l IH]; cbn; respects_steps. Qed.
Lemma calm_draw n : calm (draw env n).
Proof. intros w. by split. Qed.
Lemma calm_blob_get key : calm (blob_get env blobs key).
Proof. intros w. unfold blob_get. by destruct (we_blob env _). Qed.
#[local] Hint Resolve calm_render calm_succeed calm_draw calm_blob_get : respects.
#[local] Hint Extern 1 (calm (query env _)) => apply calm_query; first [done | apply reads_GetAccount | apply reads_GetMailbox
  | apply reads_GetMessage | apply reads_ListMessages | apply reads_Search] : respects.
Lemma calm_progress_view a : calm (progress_view env a).
Proof. unfold progress_view, progress_of. respects_steps. Qed.
#[local] Hint Resolve calm_progress_view : respects.
Lemma calm_own_accounts r user : calm (own_accounts env r user).
Proof. unfold own_accounts. respects_steps. Qed.
Lemma calm_stats_of a : calm (stats_of env a).
Proof. unfold stats_of. respects_steps. Qed.
Lemma calm_progressViews l : calm (progressViews env l).
Proof. apply calm_collect. intros a. respects_steps. Qed.
#[local] Hint Resolve calm_own_accounts calm_stats_of calm_progressViews : respects.
Lemma calm_ownsAccount user a : calm (ownsAccount env user a).
Proof. unfold ownsAccount. respects_steps. Qed.
#[local] Hint Resolve calm_ownsAccount : respects.
Lemma calm_accountForRequest raw user : calm (accountForRequest env raw user).
Proof. unfold accountForRequest. respects_steps. Qed.
Lemma calm_mailboxForRequest raw user : calm (mailboxForRequest env raw user).
Proof. unfold mailboxForRequest. respects_steps. Qed.
Lemma calm_messageForRequest raw user : calm (messageForRequest env raw user).
Proof. unfold messageForRequest. respects_steps. Qed.
#[local] Hint Resolve calm_accountForRequest calm_mailboxForRequest calm_messageForRequest : respects.
Lemma calm_send user written : calm (send env user written).
Proof. unfold send. respects_steps. Qed.
#[local] Hint Resolve calm_send : respects.
Lemma calm_stream user ticks : calm (stream env user ticks).
Proof. induction ticks as [|[|?|[]] ticks IH]; cbn [stream]; respects_steps. Qed.
#[local] Hint Resolve calm_stream : respects.

(** The pages that only show something. *)
Definition shows (p : Page_) : bool :=
  match p with
  | P_CreateAccount | P_SyncAccount _ | P_Pause _ | P_Resume _ | P_Delete _ => false
  | _ => true
  end.
Lemma calm_page p r user : shows p = true -> calm (page_handler p r user).
Proof.
  intros Hp. unfold page_handler. destruct p; try discriminate Hp.
  - unfold handleDashboard. respects_steps. apply calm_collect. respects_steps.
  - unfold handleAccounts. respects_steps.
  - unfold handleNewAccountForm. respects_steps.
  - unfold handleTestAccount. respects_steps.
  - unfold handleAccount. respects_steps.
  - unfold handleMailbox. respects_steps.
  - unfold handleMessage. respects_steps.
  - unfold handleRawMessage. respects_steps.
  - unfold handleMessagePart. respects_steps.
  - unfold handleSearch, search_account. respects_steps. apply calm_collect. respects_steps.
  - unfold handleSyncPage. respects_steps.
  - unfold handleSyncEvents. respects_steps.
  - unfold handleRuns, clock. respects_steps. apply calm_collect. respects_steps.
  - unfold handleSettings. respects_steps.
Qed.
End undisturbed.

Lemma calm_answer (m : H Response) w : calm m -> quiet w (answer m w).2.
Proof. intros Hm. specialize (Hm w). unfold answer. by destruct (m w) as [[?|?] ?]. Qed.
Lemma changing_route r p : route r = Some (Protected p) -> shows p = false -> safe_method r = false /\ rq_Method r = "POST"%string.
Proof.
  unfold route. intros Hr Hp. destruct (safe_method r).
  - exfalso. revert Hr. generalize (rq_Path r). intros path. unfold get_route. repeat case_match; intros [= <-]; done.
  - destruct (String.eqb_spec (rq_Method r) "POST"); done.
Qed.

End auth.

(** * On the example installation *)

#[local] Existing Instance web_aead.
#[local] Existing Instance web_aead_laws.
#[local] Existing Instance web_store.
Notation web_serve := (serve web_env Default web_sum ex_IDKey (Some 2%nat) (fun _ _ _ => true) (fun _ _ _ => 1) (fun _ _ _ => ""%string)
  (∅ : MemStore) [] (fun _ => inr (inr 3)) (fun _ => NotFound) (fun _ => NotFound)).

(** Alice's own request, and one whose form another site has sent. *)
Lemma protected_gate_witness :
  (web_serve (browse ["accounts"]%string []) (web_start web_session_db)).1 <> redirectToLogin (browse ["accounts"]%string [])
  /\ (web_serve (submit ["accounts"; "1"; "delete"]%string [] [("imapped_session", "letmein")]%string) (web_start web_session_db)).1 = forbidden.
Proof.
  split; [vm_compute; discriminate|].
  destruct (protected_gate web_env Default web_sum ex_IDKey (Some 2%nat) (fun _ _ _ => true) (fun _ _ _ => 1) (fun _ _ _ => ""%string)
    (∅ : MemStore) [] (fun _ => inr (inr 3)) (fun _ => NotFound) (fun _ => NotFound)
    (submit ["accounts"; "1"; "delete"]%string [] [("imapped_session", "letmein")]%string) (P_Delete "1") (web_start web_session_db)
    eq_refl web_session_db_wf) as [(u & w1 & _ & _ & Ht & _)|(Hs & _)]; [discriminate Ht|].
  apply (Hs alice); [|reflexivity]. exists "letmein"%string, 1. eexists. repeat split; vm_compute; reflexivity.
Defined.
