(* ===== verification/WebLogin.v ===== *)
(** Signing in and out: a session is handed out for a password only, its cookie is good
    until it expires or its user signs out, and a refusal says nothing. *)
From S2P Require Import Prelude GoStrings Retry Crypto Text Schema StoreMailboxes StoreMessages StoreRuns StoreAccounts StoreBrowse StoreInvariant StoreProps Blob SyncMeta SyncPass Config ConfigLoad Search SyncRun Web WebHandlers Visible WebAuth Effects Twin WebIsolation WebExamples.
From Stdlib Require Import String.
From stdpp Require Import strings gmap list relations.
Open Scope list_scope.
Open Scope Z_scope.

Lemma UserByEmail_found db u email : db_wf db -> rows (users db) !! u.1 = Some u.2 -> EqualFold (us_email u.2) email = true ->
  UserByEmail email db = (inr u, db).
Proof.
  intros Hwf Hu He. unfold UserByEmail. rewrite (find_row_uniq user_index (users db) _ (ToLower email) u.1 u.2).
  - by destruct u.
  - by apply wf_user_index.
  - exact Hu.
  - exact He.
  - intros ? r' Hk%EqualFold_iff. unfold user_index. by rewrite Hk.
Qed.

Section login.
Context {K : Type} `{AEAD K}.
Context {B : Type} `{BlobStore B}.
Variable env : WebEnv.
Variable cfg : Config.
Variable Sum256 : list ascii -> list Z.
Variable IDKey : list ascii -> list ascii -> Z -> Z -> Z -> Z -> list ascii.
Notation handleLogin := (handleLogin env cfg Sum256 IDKey).
Notation handleLogout := (handleLogout env cfg Sum256).
Notation signed_in := (signed_in Sum256).

(** The database holds an active user with this address and password. *)
Definition knows (db : DB) (email password : string) (u : User) : Prop :=
  rows (users db) !! u.1 = Some u.2 /\ EqualFold (us_email u.2) email = true /\ User_Active u = true /\
  VerifyPassword IDKey (lit password) (lit (us_password_hash u.2)) = inr true.

(** The page that refuses a sign-in, whatever the reason. *)
Definition refusal (r : Request) : Response :=
  (answer (render env r None (Some 401) "login.html" (error_page "Sign in" "That email address and password do not match."))
     (mk_Web empty_db 0 0 [] [])).1.
Lemma render_refusal r w :
  answer (render env r None (Some 401) "login.html" (error_page "Sign in" "That email address and password do not match.")) w
  = (refusal r, w).
Proof. done. Qed.

Lemma UserByEmail_says email db u : (UserByEmail email db).1 = inr u ->
  rows (users db) !! u.1 = Some u.2 /\ EqualFold (us_email u.2) email = true.
Proof.
  unfold UserByEmail. destruct (find_row _ _) as [[id row]|] eqn:E; [|done]. intros [= <-].
  by apply find_row_Some in E.
Qed.
Lemma reads_UserByEmail email db : (UserByEmail email db).2 = db.
Proof. unfold UserByEmail. by destruct (find_row _ _). Qed.

(** Nobody signs in without an active user's password: whatever store calls fail and
    whatever others do meanwhile, unless the user table, when it was asked, held an active
    user with the address and the password given, the answer is the one refusal page (or
    400 for a malformed form), the same for an unknown address, a disabled user and a
    wrong password, and no cookie is set and no session created. *)
Theorem sign_in_needs_password (r : Request) (w : Web) :
  let db := we_others env (wb_calls w) (wb_db w) in
  (forall u, we_fault env (wb_calls w) = NoFault -> ~ knows db (FormValue r "email") (FormValue r "password") u) ->
  let out := answer (handleLogin r) w in
  (out.1 = refusal r \/ out.1 = http_Error "malformed form" 400) /\
  (wb_db out.2 = db \/ wb_db out.2 = wb_db w) /\ unmoved w out.2.
Proof.
  intros db Hno. unfold Web.handleLogin. destruct (form_malformed false r); [cbn; split_and!; auto; done|].
  cbv zeta. unfold signIn. unfold answer, mbind, SE_bind.
  pose proof (UserByEmail_says (FormValue r "email") db) as Hsays.
  pose proof (reads_UserByEmail (FormValue r "email") db) as Hr.
  unfold query. fold db. unfold exec. rewrite Hr.
  destruct (we_fault env (wb_calls w)) as [|e|e]; [|destruct (err_is e ErrNotFound); cbn; split_and!; auto; done..].
  destruct (UserByEmail (FormValue r "email") db) as [[e|u] db1]; cbn in Hr, Hsays; subst db1.
  - destruct (err_is e ErrNotFound); cbn; split_and!; auto; done.
  - destruct (User_Active u) eqn:Ea; cbn -[VerifyPassword]; [|split_and!; auto; done].
    destruct (VerifyPassword _ _ _) as [e|[]] eqn:Ev; cbn; [split_and!; auto; done| |split_and!; auto; done].
    exfalso. destruct (Hsays u eq_refl) as [Hu He]. apply (Hno u eq_refl). by split_and!.
Qed.

(** * From signing in to signing out *)

Definition token_text (buf : list ascii) : string := string_of_list_ascii (map url_char (EncodeToString buf)).

Definition after_draw (w : Web) : Web := mk_Web (wb_db w) (wb_calls w) (S (wb_draws w)) (wb_cookies w) (wb_started w).
Lemma newToken_drawn buf w : we_rand env (wb_draws w) 32 = inr buf -> newToken env w = (inr (inr (token_text buf)), after_draw w).
Proof. intros Hb. unfold newToken, draw, mbind, SE_bind. by rewrite Hb. Qed.

Lemma UserByEmail_known db u email password : db_wf db -> knows db email password u -> UserByEmail email db = (inr u, db).
Proof. intros Hwf (Hu & He & _). by apply UserByEmail_found. Qed.

(** The session row a sign-in makes. *)
Definition session_of (r : Request) (userID now : Z) (buf : list ascii) : session_row :=
  mk_session userID (hashToken Sum256 (token_text buf)) "web" (rq_UserAgent r) (rq_RemoteAddr r) now (now + session_ttl cfg) None.
Definition fresh (db : DB) (tokenHash : list Z) : Prop := forall sid s, rows (sessions db) !! sid = Some s -> se_token_hash s <> tokenHash.

Lemma CreateSession_fresh now u tok kind agent addr exp db row : fresh db tok -> rows (users db) !! u = Some row -> kind ∈ ["web"; "imap"]%string ->
  CreateSession now u tok kind agent addr exp db =
  (inr tt, set_sessions (insert_row (mk_session u tok kind agent addr now exp None) (sessions db)).2 db).
Proof.
  intros Hf Hu Hk. unfold CreateSession, wrap_err. rewrite bool_decide_true by done. cbn [negb]. rewrite Hu.
  assert (exists_row (token_key tok) (sessions db) = false) as ->; [|done].
  unfold exists_row. destruct (select _ _) as [|[sid s] l] eqn:E; [done|].
  assert ((sid, s) ∈ select (token_key tok) (sessions db)) as Hin by (rewrite E; left).
  apply elem_of_select in Hin as [Hs Ht%bool_decide_eq_true]. by destruct (Hf sid s Hs).
Qed.

Lemma signed_in_only now r db u token sid s : db_wf db -> Cookie_value r sessionCookie = Some token ->
  rows (sessions db) !! sid = Some s -> se_token_hash s = hashToken Sum256 token ->
  signed_in now r db u <-> se_revoked_at s = None /\ now < se_expires_at s /\ se_user_id s = u.1 /\
    rows (users db) !! u.1 = Some u.2 /\ User_Active u = true.
Proof.
  intros Hwf Hc Hs Ht. split.
  - intros (t & sid' & s' & Hc' & Hs' & Ht' & Hrest). rewrite Hc in Hc'. injection Hc' as <-.
    assert (sid' = sid) as -> by (apply (wf_session_index _ Hwf sid' sid s' s (hashToken Sum256 token)); unfold session_index; congruence).
    rewrite Hs in Hs'. by injection Hs' as <-.
  - intros Hrest. by exists token, sid, s.
Qed.

Lemma RevokeSession_ends now db token : forall t r u, Cookie_value r sessionCookie = Some token ->
  ~ signed_in t r (exec (RevokeSession now (hashToken Sum256 token)) db) u.
Proof.
  intros t r u Hc (tok & sid & s & Hc' & Hs & Ht & Hr & _). rewrite Hc in Hc'. injection Hc' as <-.
  change (sessions (exec (RevokeSession now (hashToken Sum256 token)) db))
    with (update_where (token_key (hashToken Sum256 token)) (set_se_revoked_at (Some now)) (sessions db)) in Hs.
  apply lookup_update_Some in Hs as (x & _ & ->). unfold token_key in *.
  destruct (bool_decide (se_token_hash x = hashToken Sum256 token)) eqn:E; [done|]. by apply bool_decide_eq_false in E.
Qed.

(** A sign-in with the right password redirects to the dashboard and sets two
    cookies, the session's (hidden from scripts) and the CSRF token's.  From then on a
    request with that session cookie is its user's, until the session's lifetime is over
    and not a moment longer; once its user has signed out, a request with that cookie is
    nobody's, at any time. *)
Theorem session_lifecycle (r : Request) (w : Web) (u : User) (buf1 buf2 : list ascii) :
  faultless env -> db_wf (wb_db w) -> rq_FormMalformed r = false ->
  knows (wb_db w) (FormValue r "email") (FormValue r "password") u ->
  we_rand env (wb_draws w) 32 = inr buf1 -> we_rand env (S (wb_draws w)) 32 = inr buf2 ->
  fresh (wb_db w) (hashToken Sum256 (token_text buf1)) ->
  let expiry := we_now env (S (wb_calls w)) + session_ttl cfg in
  let out := answer (handleLogin r) w in
  out.1 = Redirect "/" /\
  (exists c1 c2, wb_cookies out.2 = wb_cookies w ++ [c1; c2] /\
    ck_Name c1 = sessionCookie /\ ck_Value c1 = token_text buf1 /\ ck_HttpOnly c1 = true /\ ck_Expires c1 = expiry /\
    ck_Name c2 = csrfCookie /\ ck_Value c2 = token_text buf2 /\ ck_HttpOnly c2 = false /\ ck_Expires c2 = expiry) /\
  forall later, Cookie_value later sessionCookie = Some (token_text buf1) ->
    (forall now u', signed_in now later (wb_db out.2) u' <-> u' = u /\ now < expiry) /\
    (forall w', wb_db w' = wb_db out.2 -> forall now u', ~ signed_in now later (wb_db (answer (handleLogout later) w').2) u').
Proof.
  intros Hf Hwf Hform Hk Hb1 Hb2 Hfr expiry out.
  set (s := session_of r u.1 (we_now env (S (wb_calls w))) buf1).
  set (db1 := set_sessions (insert_row s (sessions (wb_db w))).2 (wb_db w)).
  assert (exists c d, out = (Redirect "/", mk_Web db1 c d
     (wb_cookies w ++ [cookie cfg sessionCookie (token_text buf1) expiry;
        mk_Cookie csrfCookie (token_text buf2) expiry false (SecureCookies (c_Web cfg))]) (wb_started w))) as (c & d & Hout).
  { pose proof Hk as (Hrow & _ & Ha & Hv).
    unfold out, answer, Web.handleLogin, form_malformed. rewrite Hform. cbn [andb].
    unfold signIn, mbind, SE_bind. rewrite (query_faultless env _ _ Hf), (UserByEmail_known _ _ _ _ Hwf Hk).
    cbn -[VerifyPassword newToken hashToken CreateSession]. rewrite Ha. cbn -[VerifyPassword newToken hashToken CreateSession]. rewrite Hv.
    rewrite (newToken_drawn buf1) by exact Hb1. cbn -[newToken hashToken CreateSession].
    rewrite (query_faultless env _ _ Hf). cbn -[newToken hashToken CreateSession].
    rewrite (CreateSession_fresh _ _ _ _ _ _ _ _ _ Hfr Hrow) by set_solver. cbn -[newToken hashToken].
    rewrite (newToken_drawn buf2) by exact Hb2. do 2 eexists. cbn. by rewrite <- app_assoc. }
  assert (db_wf db1) as Hwf1.
  { assert (exec (CreateSession (we_now env (S (wb_calls w))) u.1 (hashToken Sum256 (token_text buf1)) "web"
      (rq_UserAgent r) (rq_RemoteAddr r) expiry) (wb_db w) = db1) as <-.
    { unfold exec. by rewrite (CreateSession_fresh _ _ _ _ _ _ _ _ _ Hfr (proj1 Hk)) by set_solver. }
    by apply CreateSession_wf. }
  rewrite Hout. cbn. split; [done|]. split; [by eexists _, _|]. intros later Hc. split.
  - intros now u'.
    rewrite (signed_in_only now later db1 u' (token_text buf1) (nextval (sessions (wb_db w))) s Hwf1 Hc); [|by apply lookup_insert_eq|done].
    destruct Hk as (Hrow & _ & Ha & _). split.
    + intros (_ & Hexp & Hid & Hrow' & _). split; [|done]. cbn in Hid, Hrow'. rewrite <- Hid, Hrow in Hrow'.
      destruct u as [id row], u' as [id' row']. cbn in *. congruence.
    + intros [-> Hexp]. by split_and!.
  - intros w' Hw' now u'. unfold answer, Web.handleLogout, signOut, mbind, SE_bind. rewrite Hc, (query_faultless env _ _ Hf).
    cbn [SetCookie updates fst snd wb_db with_db RevokeSession modify]. rewrite Hw'. by apply RevokeSession_ends.
Qed.
End login.

(** * On the example installation *)

#[local] Existing Instance web_aead.
#[local] Existing Instance web_aead_laws.
Definition sign_in_form (password : string) : Request :=
  submit ["login"]%string [("email", "Alice@example.org"); ("password", password)]%string [].

Lemma sign_in_needs_password_witness :
  (answer (handleLogin web_env Default web_sum ex_IDKey (sign_in_form "Secret")) (web_start web_db)).1 = refusal web_env (sign_in_form "Secret").
Proof.
  destruct (sign_in_needs_password web_env Default web_sum ex_IDKey (sign_in_form "Secret") (web_start web_db)) as ([Hr|Hr] & _).
  - intros [id row] _ (Hrow & _ & _ & Hv). cbn [fst snd wb_db web_start web_env we_others] in *.
    assert (map_Forall (fun _ row => VerifyPassword ex_IDKey (lit "Secret") (lit (us_password_hash row)) <> inr true) (rows (users web_db))) as Hall
      by (refine (bool_decide_unpack _ _); vm_compute; exact I).
    exact (Hall id row Hrow Hv).
  - exact Hr.
  - vm_compute in Hr. discriminate Hr.
Defined.
Lemma session_lifecycle_witness :
  (answer (handleLogin web_env Default web_sum ex_IDKey (sign_in_form "secret")) (web_start web_db)).1 = Redirect "/".
Proof.
  apply (session_lifecycle web_env Default web_sum ex_IDKey (sign_in_form "secret") (web_start web_db) alice
    (repeat "A"%char 32) (repeat "B"%char 32) web_env_faultless web_db_wf eq_refl).
  - repeat split; vm_compute; reflexivity.
  - reflexivity.
  - reflexivity.
  - intros sid s Hs. vm_compute in Hs. discriminate Hs.
Defined.
