(* ===== verification/WebPages.v ===== *)
(** What the pages do: an account added through the form can be synced with the
    credentials typed, the pages of a mailbox show each of its messages once, downloads
    are inert, and the stream of events arrives whole. *)
From S2P Require Import Prelude GoStrings Retry Crypto Text GoParse Schema StoreMailboxes StoreMessages StoreRuns StoreAccounts StoreBrowse StoreInvariant StoreProps Blob SyncMeta SyncPass Config ConfigLoad Search SyncRun Web WebHandlers Visible Effects Twin WebIsolation WebExamples.
From Stdlib Require Import String.
From stdpp Require Import strings gmap list relations sorting.
Open Scope list_scope.
Open Scope Z_scope.

Section pages.
Context {K : Type} `{AEADLaws K}.
Context {B : Type} `{BlobStore B}.
Variable env : WebEnv.
Variable sealer : option K.
Variable blobs : B.

(** * Adding an account *)

Lemma column_of_column l : column (column_of l) = l.
Proof. unfold column, column_of. rewrite map_map. erewrite map_ext; [apply map_id|]. intros a. by apply zbyte_code. Qed.
Lemma OpenString_sealed k nonce text : length nonce = NonceSize k ->
  OpenString k (column (column_of (nonce ++ aead_Seal k nonce (lit text)))) = inr text.
Proof.
  intros Hn. rewrite column_of_column.
  unfold OpenString, Open. rewrite length_app, Hn.
  destruct (Nat.ltb_spec (NonceSize k + length (aead_Seal k nonce (lit text))) (NonceSize k)); [lia|].
  rewrite <- Hn, take_app_length, drop_app_length, open_seal by done. unfold lit. by rewrite string_of_list_ascii_of_string.
Qed.

Lemma accountFromForm_port r creds : accountFromForm r = inr creds -> 1 <= ua_Port creds <= 65535.
Proof.
  unfold accountFromForm. destruct (ParseInt _) as [port|]; [|done].
  destruct ((port <? 1) || (65535 <? port)) eqn:E; [done|]. apply orb_false_iff in E as [?%Z.ltb_ge ?%Z.ltb_ge].
  destruct (String.eqb _ ""); [done|]. destruct (String.eqb _ ""); [done|]. intros [= <-]. done.
Qed.

Lemma CreateAccount_fresh p db row : 1 <= ca_UpstreamPort p <= 65535 -> ca_UpstreamTLSMode p ∈ ["plain"; "tls"; "starttls"]%string ->
  rows (users db) !! ca_UserID p = Some row -> exists_row (account_key (ca_UserID p) (ca_EmailAddress p)) (mail_accounts db) = false ->
  CreateAccount p db = (inr (nextval (mail_accounts db), new_account p),
    set_mail_accounts (insert_row (new_account p) (mail_accounts db)).2 db).
Proof.
  intros [Hlo Hhi] Htls Hu Hk. unfold CreateAccount, wrap_err.
  rewrite (proj2 (Z.leb_le _ _) Hlo), (proj2 (Z.leb_le _ _) Hhi), bool_decide_true, Hu, Hk by done. done.
Qed.
Definition shown_email (r : Request) (creds : UpAccount) : string :=
  if String.eqb (FormValue r "email") "" then ua_Username creds else FormValue r "email".

(** [C34] The account form, for a user who has no account with that address yet: the new
    row is the user's, its credential columns hold nothing but what the cipher made of
    them and open, when a sync asks for them, to exactly the server, user name and
    password typed; one sync of that account and no other is started.  Without a master
    key, and for a form with a bad port or an empty server or user name, nothing is
    stored and nothing started. *)
Theorem created_account_can_sync (r : Request) (user : User) (w : Web) (nonce1 nonce2 : list ascii) :
  faultless env -> rq_FormMalformed r = false ->
  rows (users (wb_db w)) !! user.1 = Some user.2 ->
  let out := answer (handleCreateAccount env sealer r user) w in
  match accountFromForm r, sealer with
  | inr creds, Some k =>
      length nonce1 = NonceSize k -> length nonce2 = NonceSize k ->
      we_rand env (wb_draws w) (NonceSize k) = inr nonce1 -> we_rand env (S (wb_draws w)) (NonceSize k) = inr nonce2 ->
      ua_TLSMode creds ∈ ["plain"; "tls"; "starttls"]%string ->
      exists_row (account_key user.1 (shown_email r creds)) (mail_accounts (wb_db w)) = false ->
      exists row, let id := nextval (mail_accounts (wb_db w)) in
        out.1 = Redirect (account_url id) /\
        wb_db out.2 = set_mail_accounts (insert_row row (mail_accounts (wb_db w))).2 (wb_db w) /\
        ac_user_id row = user.1 /\ ac_email_address row = shown_email r creds /\
        column (ac_encrypted_username row) = nonce1 ++ aead_Seal k nonce1 (lit (ua_Username creds)) /\
        column (ac_encrypted_secret row) = nonce2 ++ aead_Seal k nonce2 (lit (ua_Password creds)) /\
        credentials (Some k) (id, row) = inr creds /\
        wb_started out.2 = wb_started w ++ [(id, "manual"%string)]
  | _, _ => wb_db out.2 = wb_db w /\ wb_started out.2 = wb_started w
  end.
Proof.
  intros Hf Hform Hu out. unfold out, handleCreateAccount, form_malformed. rewrite Hform. cbn [andb].
  destruct (accountFromForm r) as [text|creds] eqn:Ec; [done|]. destruct sealer as [k|]; [|done].
  intros Hn1 Hn2 Hr1 Hr2 Htls Hkey. cbv zeta. unfold answer, seal_text, mbind, SE_bind, draw, mret, SE_ret.
  rewrite Hr1. cbn -[CreateAccount]. rewrite Hr2. cbn -[CreateAccount]. rewrite (query_faultless env _ _ Hf). cbn -[CreateAccount].
  erewrite CreateAccount_fresh; [|by apply (accountFromForm_port r)|exact Htls|exact Hu|exact Hkey].
  set (p := mk_CreateAccountParams _ _ _ _ _ _ _ _). exists (new_account p).
  assert (column (ac_encrypted_username (new_account p)) = nonce1 ++ aead_Seal k nonce1 (lit (ua_Username creds))) as Hcu by apply column_of_column.
  assert (column (ac_encrypted_secret (new_account p)) = nonce2 ++ aead_Seal k nonce2 (lit (ua_Password creds))) as Hcs by apply column_of_column.
  split_and!; [done..|exact Hcu|exact Hcs| |done].
  unfold credentials. cbn [snd]. subst p. cbn [ac_encrypted_username ac_encrypted_secret new_account ca_EncryptedUsername ca_EncryptedSecret].
  rewrite !OpenString_sealed by done. by destruct creds.
Qed.

(** * The pages of a mailbox *)

Definition templates_work : Prop := forall name data, exists html, we_template env name data = inr html.

#[local] Instance most_recent_first_trans : Transitive most_recent_first.
Proof.
  intros a b c. unfold most_recent_first. destruct (shown_date a), (shown_date b), (shown_date c); try done; lia.
Qed.
#[local] Instance most_recent_first_total : Total most_recent_first.
Proof. intros a b. unfold most_recent_first. destruct (shown_date a), (shown_date b); try (by left); try (by right); lia. Qed.

(** Page [n] of the messages [l], as the view shows it. *)
Definition shown (l : list MessageSummary) (n : Z) : list MessageSummary := take 50 (drop (Z.to_nat ((n - 1) * 50)) l).
Definition page_view (mailbox : Mailbox) (l : list MessageSummary) (n : Z) : mailboxView :=
  let total := match shown l n with [] => 0 | _ => Z.of_nat (length l) end in
  mk_mailboxView mailbox (shown l n) total n 50 (n * 50 <? total) (1 <? n).

Lemma shown_pages l n : 0 <= n -> concat (map (shown l) (seqZ 1 n)) = take (Z.to_nat (n * 50)) l.
Proof.
  intros Hn. revert n Hn. apply natlike_ind; [done|]. intros n Hn IH.
  unfold Z.succ. rewrite seqZ_app, map_app, concat_app, IH by lia. change (seqZ (1 + n) 1) with [1 + n]. cbn [map concat]. rewrite app_nil_r.
  unfold shown. rewrite <- (take_drop (Z.to_nat (n * 50)) (take (Z.to_nat ((n + 1) * 50)) l)).
  rewrite take_take, skipn_firstn_comm. f_equal; f_equal; f_equal; lia.
Qed.

Lemma GetMailbox_found id db mb : rows (mailboxes db) !! id = Some mb -> GetMailbox id db = (inr (id, mb), db).
Proof. intros Hm. unfold GetMailbox. by rewrite Hm. Qed.
Lemma GetAccount_found id db a : rows (mail_accounts db) !! id = Some a -> GetAccount id db = (inr (id, a), db).
Proof. intros Hm. unfold GetAccount. by rewrite Hm. Qed.

(** A path that leads to a mailbox of the user's. *)
Definition leads_to (db : DB) (user : User) (raw : string) (m : Mailbox) : Prop :=
  pathID raw = Some m.1 /\ rows (mailboxes db) !! m.1 = Some m.2 /\
  exists acc, rows (mail_accounts db) !! mb_account_id m.2 = Some acc /\ allowed user (ac_user_id acc) = true.
Lemma mailboxForRequest_found raw user w m : faultless env -> leads_to (wb_db w) user raw m ->
  mailboxForRequest env raw user w = (inr m, with_db (wb_db w) (with_db (wb_db w) w)).
Proof.
  intros Hf (Hp & Hm & acc & Ha & Hal). unfold mailboxForRequest, ownsAccount, mbind, SE_bind. rewrite Hp.
  rewrite (query_faultless env _ _ Hf), (GetMailbox_found _ _ _ Hm). cbn -[GetAccount].
  rewrite (query_faultless env _ _ Hf). cbn -[GetAccount]. rewrite (GetAccount_found _ _ _ Ha). cbn. rewrite Hal. by destruct m.
Qed.

Lemma render_works r us name data w : templates_work -> exists template data',
  render env r us None name data w = (inr (mk_Response 200 [("Content-Type", "text/html; charset=utf-8")]%string (Page template data')), w)
  /\ pd_Content data' = pd_Content data.
Proof.
  intros Ht. unfold render. match goal with |- context [we_template env ?n ?d] => destruct (Ht n d) as [html ->] end.
  by eexists _, _.
Qed.

(** The pages of a mailbox: there is one list of its messages, each live message once,
    most recent first, of which every page is a slice of fifty with the right total; a page
    says there is a next one exactly if messages are left, so that the pages up to the first
    without a next one show the whole mailbox, each message once. *)
Theorem mailbox_pages (user : User) (raw : string) (mailbox : Mailbox) (w : Web) :
  faultless env -> templates_work -> db_wf (wb_db w) -> leads_to (wb_db w) user raw mailbox ->
  exists l, StronglySorted most_recent_first l /\ NoDup (map ms_MailboxMessageID l) /\
    (forall id uid fl st,
       (exists s, s ∈ l /\ (ms_MailboxMessageID s, ms_LocalUID s, ms_Flags s, ms_BodyState s) = (id, uid, fl, st))
       <-> exists r, rows (mailbox_messages (wb_db w)) !! id = Some r /\ live_in mailbox.1 id r = true
             /\ (mm_local_uid r, mm_flags r, mm_body_state r) = (uid, fl, st)) /\
    (forall r n, page_number (Query_Get r "page") = n -> n * 50 < 2 ^ 63 ->
       exists template data, (answer (handleMailbox env r user raw) w).1
         = mk_Response 200 [("Content-Type", "text/html; charset=utf-8")]%string (Page template data)
         /\ pd_Content data = MailboxPage (page_view mailbox l n)) /\
    (forall n, 1 <= n -> mv_HasNext (page_view mailbox l n) = false -> (n - 1) * 50 <= Z.of_nat (length l) ->
       concat (map (shown l) (seqZ 1 n)) = l).
Proof.
  intros Hf Ht Hwf Hlead. exists (merge_sort most_recent_first (summaries "(no subject)" mailbox.1 (wb_db w))).
  set (l := merge_sort _ _).
  assert (Permutation l (summaries "(no subject)" mailbox.1 (wb_db w))) as Hperm by apply merge_sort_Permutation.
  split_and!.
  - apply (StronglySorted_merge_sort most_recent_first).
  - change (NoDup (ms_MailboxMessageID <$> l)). rewrite Hperm. by apply summaries_distinct.
  - intros id uid fl st. setoid_rewrite Hperm. by apply summaries_rows.
  - intros r n Hn Hb. assert (1 <= n) as H1n.
    { rewrite <- Hn. unfold page_number. destruct (ParseInt _) as [k|]; [|done]. destruct (Z.ltb_spec 0 k); lia. }
    unfold answer, handleMailbox, mbind, SE_bind. rewrite (mailboxForRequest_found _ _ _ _ Hf Hlead). cbv zeta. rewrite Hn.
    rewrite (query_faultless env _ _ Hf). unfold ListMessages, pageSize. cbn [wb_db with_db]. fold l.
    rewrite !i64_id by (unfold is_i64; lia). cbn [fst snd Z.leb Z.ltb orb negb].
    destruct (Z.ltb_spec ((n - 1) * 50) 0) as [Hneg|_]; [lia|]. cbn -[render Z.mul].
    match goal with |- context [render env r (Some user) None ?name ?data ?w'] =>
      destruct (render_works r (Some user) name data w' Ht) as (template & data' & -> & Hc) end.
    exists template, data'. split; [done|]. by rewrite Hc.
  - intros n H1n Hnext Hlen. rewrite shown_pages by lia. apply take_ge.
    unfold page_view in Hnext. cbn [mv_HasNext] in Hnext. apply Z.ltb_ge in Hnext.
    assert (n = 1 \/ (n - 1) * 50 = Z.of_nat (length l) \/ shown l n <> []) as [->|[He|Hne]].
    { destruct (decide (shown l n = [])) as [He|]; [|by auto]. right. left. unfold shown in He.
      apply (f_equal length) in He. rewrite length_take, length_drop in He. change (length []) with O in He. lia. }
    + destruct (decide (shown l 1 = [])) as [He|Hne].
      * unfold shown in He. apply (f_equal length) in He. rewrite length_take, length_drop in He. change (length []) with O in He. lia.
      * destruct (shown l 1); [done|]. lia.
    + lia.
    + destruct (shown l n); [done|]. lia.
Qed.

(** A page number near the largest 64-bit integer makes the offset wrap around below
    zero, which PostgreSQL refuses: the page that should be empty is an internal error. *)
Theorem far_page_fails (r : Request) (user : User) (raw : string) (mailbox : Mailbox) (w : Web) :
  faultless env -> templates_work -> leads_to (wb_db w) user raw mailbox ->
  Query_Get r "page" = "9223372036854775807"%string ->
  rs_Status (answer (handleMailbox env r user raw) w).1 = 500.
Proof.
  intros Hf Ht Hlead Hr. unfold answer, handleMailbox, mbind, SE_bind. rewrite (mailboxForRequest_found _ _ _ _ Hf Hlead), Hr.
  change (page_number "9223372036854775807") with 9223372036854775807. cbv zeta.
  rewrite (query_faultless env _ _ Hf). unfold ListMessages, pageSize.
  change (i64 ((9223372036854775807 - 1) * 50) <? 0) with true. cbn -[render].
  unfold fail, mbind, SE_bind, render, stop. cbn.
  match goal with |- context [we_template env ?n ?d] => by destruct (Ht n d) as [html ->] end.
Qed.

(** * Downloads *)

(** No control character, so nothing that could end the header. *)
Definition one_line (s : string) : Prop := Forall (fun c => 32 <= code c /\ code c <> 127) (list_ascii_of_string s).
#[local] Instance one_line_dec s : Decision (one_line s).
Proof. unfold one_line. apply _. Defined.

Lemma list_ascii_of_append s t : list_ascii_of_string (s ++ t)%string = list_ascii_of_string s ++ list_ascii_of_string t.
Proof. induction s as [|c s IH]; [done|]. simpl. by rewrite IH. Qed.
Lemma one_line_app s t : one_line s -> one_line t -> one_line (s ++ t)%string.
Proof. unfold one_line. rewrite list_ascii_of_append. by apply Forall_app_2. Qed.
Lemma quote_char_one_line c : one_line (quote_char c).
Proof.
  assert (forallb (fun n => bool_decide (one_line (quote_char (ascii_of_nat n)))) (seq 0 256) = true) as Hall by (vm_compute; reflexivity).
  rewrite forallb_forall in Hall. specialize (Hall (nat_of_ascii c)). rewrite ascii_nat_embedding in Hall.
  apply bool_decide_eq_true in Hall; [done|]. apply in_seq. pose proof (nat_ascii_bounded c). lia.
Qed.
Lemma Quote_one_line s : one_line (Quote s).
Proof.
  unfold Quote. apply one_line_app; [by apply (bool_decide_eq_true_1 (one_line dquote))|]. apply one_line_app; [|by apply (bool_decide_eq_true_1 (one_line dquote))].
  induction s as [|c s IH]; [by apply (bool_decide_eq_true_1 (one_line ""))|]. cbn [quote_body]. by apply one_line_app; [apply quote_char_one_line|].
Qed.

Lemma query_undisturbed_read {A} (m : Z -> sql A) w : undisturbed env -> reads m ->
  exists x, query env m w = (inr x, with_db (wb_db w) w) /\ (forall a, x = inr a -> exists now, (m now (wb_db w)).1 = inr a).
Proof.
  intros Hq Hr. rewrite (query_reads env m w Hr), Hq. eexists. split; [done|]. intros a. unfold reached. rewrite Hq.
  destruct (we_fault env (wb_calls w)); [intros Ha; by eexists|done..].
Qed.

(** The message a path leads to, for a user who may see it. *)
Definition message_of (db : DB) (user : User) (raw : string) (d : MessageDetail) : Prop :=
  exists n acc, pathID raw = Some n /\ (GetMessage n db).1 = inr d /\
    rows (mail_accounts db) !! md_AccountID d = Some acc /\ allowed user (ac_user_id acc) = true.
Lemma messageForRequest_ok raw user w d w' : undisturbed env -> messageForRequest env raw user w = (inr d, w') ->
  message_of (wb_db w) user raw d.
Proof.
  intros Hq. unfold messageForRequest. destruct (pathID raw) as [n|] eqn:Ep; [|done]. unfold ownsAccount, mbind, SE_bind.
  destruct (query_undisturbed_read _ w Hq (reads_GetMessage n)) as (x & -> & Hx). destruct x as [e|m]; [done|].
  destruct (Hx m eq_refl) as [_ Hm].
  destruct (query_undisturbed_read _ (with_db (wb_db w) w) Hq (reads_GetAccount (md_AccountID m))) as (y & -> & Hy).
  unfold mret, SE_ret. destruct y as [e|acc]; [done|]. destruct (Hy acc eq_refl) as [_ Ha]. cbn in Ha.
  destruct (allowed user (ac_user_id acc.2)) eqn:Eal; [|done]. intros [= <- _].
  unfold GetAccount in Ha. destruct (rows (mail_accounts (wb_db w)) !! md_AccountID m) as [row|] eqn:Er; [|done].
  injection Ha as <-. exists n, row. by split_and!.
Qed.
Lemma blob_get_says key w : exists x, blob_get env blobs key w = (inr x, with_db (wb_db w) w) /\ forall c, x = inr c -> Get key blobs = inr c.
Proof. unfold blob_get. destruct (we_blob env (wb_calls w)); by eexists. Qed.

Lemma answer_bind {A} (m : H A) (f : A -> H Response) w : answer (m ≫= f) w =
  match m w with (inl resp, w') => (resp, w') | (inr x, w') => answer (f x) w' end.
Proof. unfold answer, mbind, SE_bind. by destruct (m w) as [[?|?] ?]. Qed.
Lemma messageForRequest_stops raw user w resp w' : messageForRequest env raw user w = (inl resp, w') -> resp = NotFound.
Proof.
  unfold messageForRequest, ownsAccount, mbind, SE_bind, stop, mret, SE_ret. destruct (pathID raw); [|congruence].
  unfold query. destruct (we_fault env (wb_calls w)); [|congruence..].
  destruct (GetMessage _ _) as [[e|d] db1]; [congruence|]. cbn [wb_calls with_db].
  destruct (we_fault env (S (wb_calls w))); [|congruence..].
  destruct (GetAccount _ _) as [[e|acc] db2]; [congruence|]. destruct (allowed _ _); congruence.
Qed.
Lemma serve_object r us doing key (f : list ascii -> Response) w c :
  rs_Body (answer (result ← blob_get env blobs key; content ← succeed_or_fail env r us doing result; mret (f content)) w).1 = Content_ c ->
  exists content, Get key blobs = inr content /\
    (answer (result ← blob_get env blobs key; content ← succeed_or_fail env r us doing result; mret (f content)) w).1 = f content.
Proof.
  unfold answer, mbind, SE_bind. destruct (blob_get_says key w) as (x & -> & Hx).
  destruct x as [e|content]; [|intros _; exists content; split; [by apply Hx|done]].
  unfold succeed_or_fail, fail, mbind, SE_bind, render, stop. cbn.
  match goal with |- context [we_template env ?n ?d] => by destruct (we_template env n d) end.
Qed.

(** The object a download page is for. *)
Definition object_of (d : MessageDetail) (part : option string) (key : string) : Prop :=
  match part with
  | None => key = md_BlobKey d
  | Some path => exists p, p ∈ md_Parts d /\ mr_Path p = path /\ mr_BlobKey p = key
  end.
Definition download (user : User) (raw : string) (part : option string) (r : Request) : H Response :=
  match part with None => handleRawMessage env blobs r user raw | Some path => handleMessagePart env blobs r user raw path end.

(** What a download serves is the stored object of a message (or of the named part of
    one) in an account the user may see, byte for byte, whichever store calls fail; and
    the browser is told to save it, not to show it: the type is never the one the sender
    claims, and the file name, whatever the sender chose, cannot break out of its header. *)
Theorem downloads_are_inert (user : User) (raw : string) (part : option string) (r : Request) (w : Web) (c : list ascii) :
  undisturbed env ->
  let response := (answer (download user raw part r) w).1 in
  rs_Body response = Content_ c ->
  (exists d key, message_of (wb_db w) user raw d /\ object_of d part key /\ Get key blobs = inr c) /\
  rs_Status response = 200 /\
  exists type filename rest, rs_Headers response
      = ("Content-Type"%string, type) :: ("Content-Disposition"%string, ("attachment; filename=" ++ filename)%string) :: rest
    /\ type ∈ ["message/rfc822"; "application/octet-stream"]%string /\ one_line filename
    /\ (part <> None -> rest = [("X-Content-Type-Options", "nosniff")]%string).
Proof.
  intros Hq. unfold download. destruct part as [path|].
  - unfold handleMessagePart. rewrite answer_bind. destruct (messageForRequest env raw user w) as [[resp|d] w1] eqn:Em.
    { intros response. apply messageForRequest_stops in Em as ->. done. }
    apply messageForRequest_ok in Em; [|done].
    destruct (list_find _ (md_Parts d)) as [[i p]|] eqn:Ep; [|done]. destruct (String.eqb (mr_BlobKey p) ""); [done|].
    apply list_find_Some in Ep as (Hp & Hpath & _). cbv zeta.
    intros Hc. pose proof Hc as (content & Hg & E)%serve_object. rewrite E in Hc |- *. injection Hc as <-.
    split_and!; [|done|].
    + exists d, (mr_BlobKey p). split_and!; [done| |done]. exists p. split_and!; [by eapply list_elem_of_lookup_2|done..].
    + eexists _, _, _. split_and!; [reflexivity|set_solver|apply Quote_one_line|done].
  - unfold handleRawMessage. rewrite answer_bind. destruct (messageForRequest env raw user w) as [[resp|d] w1] eqn:Em.
    { intros response. apply messageForRequest_stops in Em as ->. done. }
    apply messageForRequest_ok in Em; [|done]. destruct (String.eqb (md_BlobKey d) ""); [done|]. cbv zeta.
    intros Hc. pose proof Hc as (content & Hg & E)%serve_object. rewrite E in Hc |- *. injection Hc as <-.
    split_and!; [by exists d, (md_BlobKey d)|done|]. eexists _, _, _. split_and!; [reflexivity|set_solver|apply Quote_one_line|done].
Qed.
End pages.

(** * On the example installation *)

#[local] Existing Instance web_aead.
#[local] Existing Instance web_aead_laws.
#[local] Existing Instance web_store.
Definition new_account_form : Request :=
  submit ["accounts"]%string [("host", "imap.example.net"); ("port", "993"); ("tls_mode", "tls"); ("username", "alice"); ("password", "p4ss")]%string [].
Lemma created_account_can_sync_witness : exists row,
  credentials (Some 2%nat) (3, row) = inr (mk_UpAccount "imap.example.net" 993 "tls" "alice" "p4ss") /\
  wb_started (answer (handleCreateAccount web_env (Some 2%nat) new_account_form alice) (web_start web_db)).2 = [(3, "manual"%string)].
Proof.
  destruct (created_account_can_sync web_env (Some 2%nat) new_account_form alice (web_start web_db) (lit "AA") (lit "BB")
    web_env_faultless eq_refl) as (row & _ & _ & _ & _ & _ & _ & Hc & Hs);
    [vm_compute; reflexivity|reflexivity|reflexivity|reflexivity|reflexivity|by apply (bool_decide_eq_true_1 (_ ∈ _))|vm_compute; reflexivity|].
  exists row. split; [exact Hc|exact Hs].
Defined.

Lemma web_leads_to_inbox : exists inbox, leads_to web_db alice "1" (1, inbox).
Proof. eexists. split; [reflexivity|]. split; [vm_compute; reflexivity|]. eexists. split; vm_compute; reflexivity. Qed.
Lemma mailbox_pages_witness : exists inbox l, length (shown l 1) = 3%nat /\ mv_HasNext (page_view (1, inbox) l 1) = false.
Proof.
  destruct web_leads_to_inbox as [inbox Hl]. exists inbox.
  destruct (mailbox_pages web_env alice "1" (1, inbox) (web_start web_db) web_env_faultless
    ltac:(intros name data; by eexists) web_db_wf Hl) as (l & _ & Hnd & Hrows & _).
  exists l. cbn [fst web_start wb_db] in Hrows.
  assert (Permutation (map ms_MailboxMessageID l) [1; 2; 3]) as Hp.
  { apply NoDup_Permutation; [exact Hnd|by apply (bool_decide_eq_true_1 (NoDup [1; 2; 3]))|]. intros id. split.
    - intros (s & -> & Hs)%list_elem_of_fmap.
      destruct (proj1 (Hrows (ms_MailboxMessageID s) (ms_LocalUID s) (ms_Flags s) (ms_BodyState s)) (ex_intro _ s (conj Hs eq_refl))) as (row & Hr & _).
      assert (map_Forall (fun id _ => id ∈ [1; 2; 3]) (rows (mailbox_messages web_db))) as Hall
        by (refine (bool_decide_unpack _ _); vm_compute; exact I).
      exact (Hall _ _ Hr).
    - intros Hid. assert (exists r, rows (mailbox_messages web_db) !! id = Some r /\ live_in 1 id r = true) as (row & Hr & Hlive).
      { repeat (apply elem_of_cons in Hid as [->|Hid]; [eexists; split; vm_compute; reflexivity|]). by apply not_elem_of_nil in Hid. }
      destruct (proj2 (Hrows id (mm_local_uid row) (mm_flags row) (mm_body_state row)) (ex_intro _ row (conj Hr (conj Hlive eq_refl)))) as (s & Hs & E).
      injection E as <- _ _ _. by apply (list_elem_of_fmap_2 ms_MailboxMessageID). }
  apply Permutation_length in Hp. rewrite length_map in Hp. cbn in Hp.
  destruct l as [|a [|b [|c [|]]]]; try discriminate Hp. by split.
Defined.
Lemma far_page_fails_witness :
  rs_Status (answer (handleMailbox web_env (browse ["mailboxes"; "1"]%string [("page", "9223372036854775807")]%string) alice "1") (web_start web_db)).1 = 500.
Proof.
  destruct web_leads_to_inbox as [inbox Hl].
  exact (far_page_fails web_env (browse ["mailboxes"; "1"]%string [("page", "9223372036854775807")]%string) alice "1" (1, inbox) (web_start web_db)
    web_env_faultless ltac:(intros name data; by eexists) Hl eq_refl).
Defined.

Definition web_body_db : DB := exec (AttachBody 1 (repeat 1 32) 5 "raw/key") web_db.
Lemma downloads_are_inert_witness : exists filename rest,
  rs_Headers (answer (download web_env (<["raw/key"%string := lit "hello"]> ∅ : MemStore) alice "1" None
    (browse ["messages"; "1"; "raw"]%string [])) (web_start web_body_db)).1
  = ("Content-Type"%string, "message/rfc822"%string) :: ("Content-Disposition"%string, ("attachment; filename=" ++ filename)%string) :: rest.
Proof.
  destruct (downloads_are_inert web_env (<["raw/key"%string := lit "hello"]> ∅ : MemStore) alice "1" None
    (browse ["messages"; "1"; "raw"]%string []) (web_start web_body_db) (lit "hello")) as (_ & _ & type & filename & rest & Hh & _);
    [apply web_env_faultless|vm_compute; reflexivity|].
  exists filename, rest. rewrite Hh. f_equal. f_equal.
  enough (Some type = Some "message/rfc822"%string) as [= E] by exact E.
  transitivity (snd <$> head (rs_Headers (answer (download web_env (<["raw/key"%string := lit "hello"]> ∅ : MemStore) alice "1" None
    (browse ["messages"; "1"; "raw"]%string [])) (web_start web_body_db)).1)); [by rewrite Hh|vm_compute; reflexivity].
Defined.
