(* ===== verification/WebStream.v ===== *)
(** The stream of progress events (sse.go), read the way a browser reads it: the parser
    of the event stream format, and what it makes of the server's stream. *)
From S2P Require Import Prelude GoStrings Retry Crypto Text Schema StoreMailboxes StoreMessages StoreRuns StoreAccounts StoreBrowse Blob SyncMeta SyncPass Config ConfigLoad Search SyncRun Web WebHandlers Effects.
From Stdlib Require Import String.
From stdpp Require Import strings gmap list.
Open Scope list_scope.
Open Scope Z_scope.

(** * The event stream format *)

Definition carriage_return : ascii := ascii_of_nat 13.
Definition colon : ascii := ":"%char.

(** Lines end in CR, LF or both; an unfinished last line is dropped.  [cr]: a CR has just
    been read. *)
Fixpoint stream_lines (s : list ascii) (cr : bool) (cur : list ascii) : list (list ascii) :=
  match s with
  | [] => []
  | c :: s =>
      if Ascii.eqb c newline then (if cr then stream_lines s false cur else cur :: stream_lines s false [])
      else if Ascii.eqb c carriage_return then cur :: stream_lines s true []
      else stream_lines s false (cur ++ [c])
  end.

(** The name of a field and its value, less one space in front. *)
Fixpoint field_of (l : list ascii) : list ascii * list ascii :=
  match l with
  | [] => ([], [])
  | c :: l =>
      if Ascii.eqb c colon then ([], match l with " "%char :: l => l | _ => l end)
      else let '(name, value) := field_of l in (c :: name, value)
  end.

Record Event := mk_Event { ev_type : list ascii; ev_data : list ascii }.
(** An empty line dispatches the event, unless it has no data. *)
Fixpoint dispatch (ls : list (list ascii)) (type data : list ascii) : list Event :=
  match ls with
  | [] => []
  | [] :: ls =>
      match data with
      | [] => dispatch ls [] []
      | _ => mk_Event (match type with [] => lit "message" | _ => type end) (removelast data) :: dispatch ls [] []
      end
  | l :: ls =>
      let '(name, value) := field_of l in
      if bool_decide (name = lit "event") then dispatch ls value data
      else if bool_decide (name = lit "data") then dispatch ls type (data ++ value ++ [newline])
      else dispatch ls type data
  end.
Definition read_events (s : list ascii) : list Event := dispatch (stream_lines s false []) [] [].

(** * Reading the server's stream *)

Definition line_ok (l : list ascii) : Prop := newline ∉ l /\ carriage_return ∉ l.

Lemma stream_lines_line l s cur : line_ok l -> stream_lines (l ++ newline :: s) false cur = (cur ++ l) :: stream_lines s false [].
Proof.
  revert cur. induction l as [|c l IH]; intros cur [Hn Hr]; cbn [app stream_lines].
  - by rewrite Ascii.eqb_refl, app_nil_r.
  - apply not_elem_of_cons in Hn as [Hcn Hn], Hr as [Hcr Hr].
    destruct (Ascii.eqb_spec c newline) as [->|]; [done|]. destruct (Ascii.eqb_spec c carriage_return) as [->|]; [done|].
    rewrite IH by done. by rewrite <- app_assoc.
Qed.

Lemma flatten_line html : line_ok (flatten html).
Proof.
  assert (forall c, c ∈ flatten html -> c <> newline /\ c <> carriage_return) as Hall.
  { intros c Hc. unfold flatten, normalise in Hc. cbv zeta in Hc. apply Text.elem_of_join in Hc as [Hc|(f & Hf & Hc)].
    { apply list_elem_of_singleton in Hc as ->. done. }
    apply fields_of_bytes in Hf as [_ Hf]. specialize (Hf c Hc). cbn [app] in Hf. rewrite concat_runes in Hf.
    apply list_elem_of_fmap in Hf as (d & -> & Hd). apply list_elem_of_In, filter_In in Hd as [_ Hd].
    apply negb_true_iff, Ascii.eqb_neq in Hd. destruct (Ascii.eqb_spec d (ascii_of_nat 10)); done. }
  split; intros Hc; by destruct (Hall _ Hc).
Qed.

(** What the stream was made of: keep-alives and fragments. *)
Definition chunk_of (sent : option (list ascii)) : list ascii :=
  match sent with None => keepalive | Some html => progress_event html end.

Lemma dispatch_event ls type data : dispatch (list_ascii_of_string "event: progress" :: ls) type data = dispatch ls (lit "progress") data.
Proof. reflexivity. Qed.
Lemma dispatch_data value ls type data : dispatch ((list_ascii_of_string "data: " ++ value) :: ls) type data = dispatch ls type (data ++ value ++ [newline]).
Proof. reflexivity. Qed.
Lemma dispatch_comment ls type data : dispatch (list_ascii_of_string ": keepalive" :: ls) type data = dispatch ls type data.
Proof. reflexivity. Qed.
Lemma dispatch_blank ls type value : type <> [] -> dispatch ([] :: ls) type (value ++ [newline]) = mk_Event type value :: dispatch ls [] [].
Proof.
  intros Ht. cbn [dispatch]. destruct (value ++ [newline]) eqn:E; [by destruct value|]. rewrite <- E, removelast_last. by destruct type.
Qed.

Lemma read_chunk sent s : read_events (chunk_of sent ++ s) =
  match sent with None => [] | Some html => [mk_Event (lit "progress") (flatten html)] end ++ read_events s.
Proof.
  unfold read_events. destruct sent as [html|]; cbn [chunk_of].
  - unfold progress_event. rewrite <- !app_assoc. cbn [app]. rewrite <- !app_assoc. cbn [app].
    assert (line_ok (list_ascii_of_string "event: progress")) as Hline by (apply (bool_decide_eq_true_1 (_ /\ _)); reflexivity).
    rewrite stream_lines_line by done. rewrite app_assoc.
    assert (line_ok (list_ascii_of_string "data: " ++ flatten html)) as Hdata.
    { destruct (flatten_line html) as [Hn Hr]. split; rewrite not_elem_of_app; (split; [|done]);
        apply (bool_decide_eq_true_1 (_ ∉ _)); reflexivity. }
    rewrite stream_lines_line by done.
    change (newline :: s) with ([] ++ newline :: s).
    rewrite (stream_lines_line []) by (split; apply not_elem_of_nil). cbn [app].
    rewrite dispatch_event, dispatch_data. cbn [app]. by rewrite dispatch_blank.
  - unfold keepalive. rewrite <- app_assoc. cbn [app].
    assert (line_ok (list_ascii_of_string ": keepalive")) as Hline by (apply (bool_decide_eq_true_1 (_ /\ _)); reflexivity).
    rewrite stream_lines_line by done. change (newline :: s) with ([] ++ newline :: s). rewrite (stream_lines_line []) by (split; apply not_elem_of_nil). cbn [app].
    by rewrite dispatch_comment.
Qed.

Section events.
Variable env : WebEnv.

(** A fragment the template made of some view of running syncs. *)
Definition fragment (html : list ascii) : Prop :=
  exists views, we_template env "sync_progress.html" (page_of "" (SyncPage views)) = inr html.
(** The chunks of a stream, and what they were made of. *)
Definition made_of (chunks : list (list ascii)) (sent : list (option (list ascii))) : Prop :=
  chunks = map chunk_of sent /\ forall html, Some html ∈ sent -> fragment html.

Lemma runs_collect {A C} (f : A -> H (list C)) : (forall x w, exists a w', f x w = (inr a, w')) ->
  forall l w, exists a w', collect f l w = (inr a, w').
Proof.
  intros Hf l. induction l as [|x l IH]; intros w; cbn [collect]; [by eexists _, _|]. unfold mbind, SE_bind.
  destruct (Hf x w) as (a & w1 & ->). destruct (IH w1) as (b & w2 & ->). by eexists _, _.
Qed.

Lemma send_says user written w : exists r w', send env user written w = (inr r, w') /\
  forall chunk, r = Some chunk -> exists html, chunk = progress_event html /\ fragment html.
Proof.
  unfold send, mbind, SE_bind. destruct (query env _ w) as [[resp|[e|accounts]] w1] eqn:Eq.
  - exfalso. unfold query in Eq. destruct (we_fault env (wb_calls w)); [|done..]. by destruct (ListAccountsForUser _ _).
  - by eexists _, _.
  - assert (exists views w2, progressViews env accounts w1 = (inr views, w2)) as (views & w2 & ->).
    { apply runs_collect. intros a w'. unfold progress_view, progress_of, mbind, SE_bind, look, mret, SE_ret. by eexists _, _. }
    unfold mret, SE_ret. destruct (we_template env _ _) as [e|html] eqn:Et; [by eexists _, _|].
    destruct written; eexists _, _; (split; [reflexivity|]); [|done].
    intros chunk [= <-]. exists html. split; [done|]. by exists views.
Qed.

Lemma stream_made user ticks w : exists chunks w' sent, stream env user ticks w = (inr chunks, w') /\ made_of chunks sent.
Proof.
  assert (made_of [] []) as Hnil by (split; [done|intros html Hin; by apply not_elem_of_nil in Hin]).
  revert w. induction ticks as [|[|written|[]] ticks IH]; intros w; cbn [stream]; try by (eexists _, _, []; split; [reflexivity|]).
  - unfold mbind, SE_bind. destruct (send_says user written w) as ([chunk|] & w1 & -> & Hc); [|by eexists _, _, []; split].
    destruct (IH w1) as (chunks & w2 & sent & -> & -> & Hs). destruct (Hc chunk eq_refl) as (html & -> & Hh).
    eexists _, _, (Some html :: sent). split; [reflexivity|]. split; [done|].
    intros html' [[= ->]|Hin]%elem_of_cons; [done|by apply Hs].
  - unfold mbind, SE_bind. destruct (IH w) as (chunks & w2 & sent & -> & -> & Hs).
    eexists _, _, (None :: sent). split; [reflexivity|]. split; [done|].
    intros html' [?|Hin]%elem_of_cons; [done|by apply Hs].
Qed.

(** Whatever wakes the stream and however it ends, a browser reads from it exactly the
    fragments sent, in order, each as one event of the type "progress" holding the whole
    fragment on one line, however many lines the template gave it; the keep-alives in
    between are no events. *)
Theorem stream_arrives_whole (r : Request) (user : User) (w : Web) :
  exists chunks sent, rs_Body (answer (handleSyncEvents env r user) w).1 = Stream chunks /\
    made_of chunks sent /\
    read_events (concat chunks) = map (fun html => mk_Event (lit "progress") (flatten html)) (omap id sent).
Proof.
  assert (forall sent, read_events (concat (map chunk_of sent)) =
    map (fun html => mk_Event (lit "progress") (flatten html)) (omap id sent)) as Hread.
  { induction sent as [|[html|] sent IH]; [done|..]; cbn [map concat]; rewrite read_chunk, IH; done. }
  unfold handleSyncEvents, answer, mbind, SE_bind.
  destruct (send_says user (we_first env) w) as ([chunk|] & w1 & -> & Hc).
  - destruct (stream_made user (we_ticks env) w1) as (chunks & w2 & sent & -> & -> & Hs).
    destruct (Hc chunk eq_refl) as (html & -> & Hh). eexists _, (Some html :: sent). split; [reflexivity|].
    split; [|apply (Hread (Some html :: sent))]. split; [done|].
    intros html' [[= ->]|Hin]%elem_of_cons; [done|by apply Hs].
  - exists [], []. split; [done|]. split; [|done]. split; [done|]. intros html Hin. by apply not_elem_of_nil in Hin.
Qed.
End events.
