(* ===== verification/Cli.v ===== *)
(** The command line (internal/cli: user.go, migrate.go) and what every command stands on:
    opening the database (internal/db: db.go), the application (internal/app) and the
    first administrator (run.go). *)
From S2P Require Import Prelude GoStrings Retry Crypto Text Schema StoreMailboxes StoreMessages StoreRuns StoreAccounts SyncMeta SyncPass Config Effects.
From Stdlib Require Import String.
From stdpp Require Import strings gmap list.
Open Scope list_scope.
Open Scope Z_scope.

Definition newline_byte : ascii := ascii_of_nat 10.

(** * Opening the application *)

(** A connection pool is opened, and must be closed again by whoever gives up. *)
Inductive pool_event := PoolOpened | PoolClosed.
Definition P (A : Type) : Type := SE err (list pool_event) A.
Definition emit (e : pool_event) : P unit := updates (fun l => l ++ [e]).

(** What the pool is configured with. *)
Record PoolConfig := mk_PoolConfig {
  pc_MaxConns : Z; pc_MinConns : Z; pc_MaxConnLifetime : Z; pc_ConnectTimeout : Z; pc_RuntimeParams : list (string * string)
}.

(** The outside world a process starts in: the driver, the server, the migrations, the
    directory of the object store and the derivation of the sealing key. *)
Record Boot (K S : Type) := mk_Boot {
  bt_ParseConfig : string -> err + list (string * string);   (* the run-time parameters of a database address *)
  bt_NewPool : PoolConfig -> err + unit;
  bt_Ping : option err;
  bt_Migrate : option err;
  bt_NewFSStore : string -> err + S;
  bt_is_permission : err -> bool;                            (* errors.Is(err, fs.ErrPermission) *)
  bt_derive : list ascii -> list ascii -> err + K
}.
Arguments mk_Boot {K S}. Arguments bt_ParseConfig {K S}. Arguments bt_NewPool {K S}. Arguments bt_Ping {K S}.
Arguments bt_Migrate {K S}. Arguments bt_NewFSStore {K S}. Arguments bt_is_permission {K S}. Arguments bt_derive {K S}.

Definition set_param (name value : string) (l : list (string * string)) : list (string * string) :=
  List.filter (fun e => negb (String.eqb e.1 name)) l ++ [(name, value)].
(** The [statement_timeout] parameter, in milliseconds. *)
Definition pool_config (c : DBConfig) (params : list (string * string)) : PoolConfig :=
  let params := if (0 <? StatementTimeout c)
    then set_param "statement_timeout" (Itoa (Z.quot (StatementTimeout c) 1000000)) params else params in
  mk_PoolConfig (MaxConns c) (MinConns c) (ConnMaxLifetime c) (ConnectTimeout c) (set_param "application_name" "imapped" params).

Section boot.
Context {K S : Type}.
Variable boot : Boot K S.

(** [db.Open] *)
Definition db_Open (c : Config) : P PoolConfig :=
  match bt_ParseConfig boot (URL (c_DB c)) with
  | inl e => stop (ErrWrap "parsing database URL: " e "")
  | inr params =>
      let pool := pool_config (c_DB c) params in
      match bt_NewPool boot pool with
      | inl e => stop (ErrWrap "creating connection pool: " e "")
      | inr _ =>
          emit PoolOpened ≫= fun _ =>
          match bt_Ping boot with
          | Some e => emit PoolClosed ≫= fun _ => stop (ErrWrap "connecting to database: " e "")
          | None => mret pool
          end
      end
  end.

Definition permission_advice (path : string) : string :=
  (String newline_byte (String newline_byte "") ++ "The blob directory could not be created. If this is running in a container, "
   ++ "the volume mounted at " ++ path ++ " is probably owned by root while the process runs as "
   ++ "a non-root user. Fix the ownership with:" ++ String newline_byte ""
   ++ "  docker run --rm -v <volume-name>:/data alpine chown -R 65532:65532 /data")%string.
Definition openBlobStore (c : Config) : err + S :=
  if UseS3 c
  then inl (ErrText ("S3 blob storage is configured but not implemented yet; " ++
                     "clear the s3_* settings to use local disk at storage.path"))
  else match bt_NewFSStore boot (Path (c_Storage c)) with
  | inl e => inl (if bt_is_permission boot e then ErrWrap "" e (permission_advice (Path (c_Storage c))) else e)
  | inr s => inr s
  end.

Record App := mk_App { ap_Pool : PoolConfig; ap_Blobs : S; ap_Sealer : option K; ap_Language : string }.

(** An error after the pool was opened closes it first. *)
Definition or_close {A} (r : err + A) : P A :=
  match r with inl e => emit PoolClosed ≫= fun _ => stop e | inr x => mret x end.

(** [app.Open] *)
Definition Open (c : Config) : P App :=
  pool ← db_Open c;
  (if AutoMigrate (c_DB c) then or_close (match bt_Migrate boot with Some e => inl e | None => inr tt end) else mret tt) ≫= fun _ =>
  blobs ← or_close (openBlobStore c);
  sealer ← (if String.eqb (EncryptionMasterKey c) "" then mret None
            else k ← or_close (NewSealer (bt_derive boot) (lit (EncryptionMasterKey c))); mret (Some k));
  mret (mk_App pool blobs sealer (Language (c_Search c))).

(** [withApp]: the application is open while [fn] runs and closed after it, whether it
    fails or not. *)
Definition withApp {A} (loaded : err + Config) (fn : App -> P A) : P A :=
  match loaded with
  | inl e => stop e
  | inr c =>
      app ← Open c;
      result ← attempt (fn app);
      emit PoolClosed ≫= fun _ => match result with inl e => stop e | inr x => mret x end
  end.
End boot.

(** * Passwords *)

(** What the command finds on its standard input: the bytes before its end, and whether
    the end is an error other than the end; a terminal, and what is typed at it. *)
Record Input := mk_Input {
  in_bytes : list ascii; in_error : err; in_terminal : bool; in_typed : err + list ascii
}.
(** [bufio.Reader.ReadString] up to a newline, with the error if there was none. *)
Fixpoint read_line (l : list ascii) : list ascii * bool :=
  match l with
  | [] => ([], false)
  | c :: l => if Ascii.eqb c newline_byte then ([c], true) else let '(line, whole) := read_line l in (c :: line, whole)
  end.
Definition TrimRight_newlines (l : list ascii) : list ascii :=
  rev (trim_left [ascii_of_nat 13; newline_byte] (rev l)).

Definition readPassword (flag : string) (fromStdin : bool) (input : Input) : err + string :=
  if negb (String.eqb flag "") then inr flag
  else if fromStdin then
    let '(line, whole) := read_line (in_bytes input) in
    if negb whole && bool_decide (line = [])
    then inl (ErrWrap "reading the password from standard input: " (in_error input) "")
    else inr (string_of_list_ascii (TrimRight_newlines line))
  else if negb (in_terminal input)
  then inl (ErrText "no password given: pass --password-stdin or run this on a terminal")
  else match in_typed input with
  | inl e => inl (ErrWrap "reading the password: " e "")
  | inr [] => inl (ErrText "the password must not be empty")
  | inr secret => inr (string_of_list_ascii secret)
  end.

(** * Commands *)

(** A command's surroundings and state, as for the browser interface. *)
Record OpsEnv := mk_OpsEnv {
  oe_fault : nat -> store_fault; oe_others : nat -> DB -> DB; oe_now : nat -> Z; oe_salt : err + list ascii
}.
Record Ops := mk_Ops { op_db : DB; op_calls : nat; op_out : list string }.
Definition C (A : Type) : Type := SE err Ops A.

Section commands.
Variable env : OpsEnv.
Variable IDKey : list ascii -> list ascii -> Z -> Z -> Z -> Z -> list ascii.

Definition call {A} (m : Z -> sql A) : C A := fun w =>
  let n := op_calls w in
  let db := oe_others env n (op_db w) in
  let after db := mk_Ops db (S n) (op_out w) in
  match oe_fault env n with
  | NoFault => let '(r, db) := m (oe_now env n) db in (r, after db)
  | FailBefore e => (inl e, after db)
  | FailAfter e => (inl e, after (exec (m (oe_now env n)) db))
  end.
Definition print (line : string) : C unit := updates (fun w => mk_Ops (op_db w) (op_calls w) (op_out w ++ [line])).
Definition hash_password (password : string) : C string :=
  match HashPassword IDKey (oe_salt env) (lit password) with
  | inl e => stop e
  | inr h => mret (string_of_list_ascii h)
  end.
Definition or_stop {A} (r : err + A) : C A := match r with inl e => stop e | inr x => mret x end.

(** [user create] *)
Definition user_create (email flag : string) (fromStdin admin : bool) (input : Input) : C unit :=
  secret ← or_stop (readPassword flag fromStdin input);
  hash ← hash_password secret;
  user ← call (fun now => CreateUser now email hash admin);
  print ("created " ++ (if us_is_admin user.2 then "administrator" else "user") ++ " " ++ us_email user.2)%string.

(** [user set-password] *)
Definition user_set_password (email flag : string) (fromStdin : bool) (input : Input) : C unit :=
  secret ← or_stop (readPassword flag fromStdin input);
  user ← map_stop (fun e => if err_is e ErrNotFound then ErrText ("no user with the address " ++ email) else e)
           (call (fun _ => UserByEmail email));
  hash ← hash_password secret;
  done ← call (fun _ => SetUserPassword user.1 hash);
  print ("password updated for " ++ us_email user.2)%string.

(** [bootstrapUser] *)
Definition bootstrapUser (b : Bootstrap) : C unit :=
  if String.eqb (Boot_Email b) "" || String.eqb (Boot_Password b) "" then mret tt else
  count ← call (fun _ => CountUsers);
  if (0 <? count) then mret tt else
  hash ← hash_password (Boot_Password b);
  user ← call (fun now => CreateUser now (Boot_Email b) hash true);
  mret tt.
End commands.

Example password_1 : readPassword "" true (mk_Input (lit "secret" ++ [ascii_of_nat 13; newline_byte; "x"%char]) ErrEOF false (inr [])) = inr "secret"%string.
Proof. reflexivity. Qed.
Example password_2 : readPassword "" true (mk_Input [newline_byte] ErrEOF false (inr [])) = inr ""%string.
Proof. reflexivity. Qed.
