(* ===== verification/CliProps.v ===== *)
(** What the commands promise: a user made on the command line can sign in, the first
    administrator is made once, and no pool is left open. *)
From S2P Require Import Prelude GoStrings Retry Crypto Text Schema StoreMailboxes StoreMessages StoreRuns StoreAccounts StoreBrowse StoreInvariant StoreProps SyncMeta SyncPass Config Cli Web WebLogin Effects.
From Stdlib Require Import String.
From stdpp Require Import strings gmap list.
Open Scope list_scope.
Open Scope Z_scope.

(** * The pool *)

(** Every pool opened has been closed again; [true]: one is open. *)
Definition pool_step (open : option bool) (e : pool_event) : option bool :=
  match open, e with
  | Some false, PoolOpened => Some true
  | Some true, PoolClosed => Some false
  | _, _ => None
  end.
Definition pool_after (l : list pool_event) : option bool := fold_left pool_step l (Some false).

Section pool.
Context {K S : Type}.
Variable boot : Boot K S.

Notation starts b := (fun l => pool_after l = Some b).
Lemma pool_after_snoc l e : pool_after (l ++ [e]) = pool_step (pool_after l) e.
Proof. unfold pool_after. by rewrite fold_left_app. Qed.
Lemma triple_emit e b b' : pool_step (Some b) e = Some b' ->
  triple (starts b) (emit e) (fun _ => starts b') (fun _ => starts false).
Proof. intros Hs l Hl. change (pool_after (l ++ [e]) = Some b'). by rewrite pool_after_snoc, Hl. Qed.
Lemma triple_stop {A} (P : list pool_event -> Prop) (e : err) (Q : A -> list pool_event -> Prop) : triple P (stop e) Q (fun _ => P).
Proof. by intros ? ?. Qed.

Lemma or_close_ok {A} (r : err + A) : triple (starts true) (or_close r) (fun _ => starts true) (fun _ => starts false).
Proof.
  destruct r as [e|x]; [|by intros ? ?]. apply (triple_bind _ _ _ (fun _ => starts false)); [by apply triple_emit|].
  intros _. apply triple_stop.
Qed.
Lemma db_Open_ok c : triple (starts false) (db_Open boot c) (fun _ => starts true) (fun _ => starts false).
Proof.
  unfold db_Open. destruct (bt_ParseConfig boot _); [apply triple_stop|]. destruct (bt_NewPool boot _); [apply triple_stop|].
  apply (triple_bind _ _ _ (fun _ => starts true)); [by apply triple_emit|]. intros _.
  destruct (bt_Ping boot); [|by intros ? ?]. apply (triple_bind _ _ _ (fun _ => starts false)); [by apply triple_emit|].
  intros _. apply triple_stop.
Qed.
Lemma Open_ok c : triple (starts false) (Open boot c) (fun _ => starts true) (fun _ => starts false).
Proof.
  unfold Open. eapply triple_bind; [apply db_Open_ok|]. intros pool.
  apply (triple_bind _ _ _ (fun _ => starts true)); [destruct (AutoMigrate _); [apply or_close_ok|by intros ? ?]|]. intros _.
  eapply triple_bind; [apply or_close_ok|]. intros blobs.
  apply (triple_bind _ _ _ (fun _ => starts true)); [|by intros sealer l Hl].
  destruct (String.eqb _ ""); [by intros ? ?|]. eapply triple_bind; [apply or_close_ok|]. by intros k l Hl.
Qed.

(** No command leaves a connection pool open or closes one twice: whatever fails, in
    reading the configuration, reaching the database, migrating, opening the object store,
    deriving the key, or in the command itself, the pool has been closed exactly as often
    as it was opened; and if opening the application succeeds, exactly one pool is open. *)
Theorem no_pool_left_open {A} (loaded : err + Config) (fn : App -> P A) (c : Config) :
  (forall app, respects eq (fn app)) ->
  pool_after (withApp boot loaded fn []).2 = Some false /\
  pool_after (Open boot c []).2 = Some (match (Open boot c []).1 with inl _ => false | inr _ => true end).
Proof.
  intros Hfn. split.
  - assert (triple (starts false) (withApp boot loaded fn) (fun _ => starts false) (fun _ => starts false)) as Ht.
    { unfold withApp. destruct loaded as [e|c']; [apply triple_stop|]. eapply triple_bind; [apply Open_ok|]. intros app.
      apply (triple_bind _ _ _ (fun _ => starts true)).
      { intros l Hl. unfold attempt. specialize (Hfn app l). destruct (fn app l) as [r l']. cbn in Hfn. by subst l'. }
      intros result. apply (triple_bind _ _ _ (fun _ => starts false)); [by apply triple_emit|]. intros _.
      destruct result; [apply triple_stop|by intros ? ?]. }
    specialize (Ht [] eq_refl). by destruct (withApp boot loaded fn []) as [[?|?] ?].
  - pose proof (Open_ok c [] eq_refl) as Ht. by destruct (Open boot c []) as [[?|?] ?].
Qed.
End pool.

(** * Users *)

Section users.
Variable env : OpsEnv.
Variable IDKey : list ascii -> list ascii -> Z -> Z -> Z -> Z -> list ascii.
Hypothesis IDKey_length : forall p s t m th n, 0 <= n -> Z.of_nat (length (IDKey p s t m th n)) = n.
Notation knows := (knows IDKey).

Definition ops_faultless : Prop := (forall n db, oe_others env n db = db) /\ forall n, oe_fault env n = NoFault.
Lemma call_faultless {A} (m : Z -> sql A) w : ops_faultless ->
  call env m w = ((m (oe_now env (op_calls w)) (op_db w)).1,
    mk_Ops (m (oe_now env (op_calls w)) (op_db w)).2 (S (op_calls w)) (op_out w)).
Proof. intros [Ho Hf]. unfold call. rewrite Ho, Hf. by destruct (m _ _). Qed.

Definition stored_hash (salt : list ascii) (password : string) : string := string_of_list_ascii (hash_of IDKey salt (lit password)).
Lemma hash_password_eq salt password w : oe_salt env = inr salt ->
  hash_password env IDKey password w = (inr (stored_hash salt password), w).
Proof. intros Hs. unfold hash_password, HashPassword. by rewrite Hs. Qed.
Lemma stored_hash_verifies salt password :
  VerifyPassword IDKey (lit password) (lit (stored_hash salt password)) = inr true.
Proof.
  unfold stored_hash, lit at 2. rewrite list_ascii_of_string_of_list_ascii, VerifyPassword_hashed by done. by rewrite bool_decide_true.
Qed.
Definition nobody_has (email : string) (db : DB) : Prop := forall id u, rows (users db) !! id = Some u -> EqualFold (us_email u) email = false.
Lemma CreateUser_new now email hash admin db : nobody_has email db ->
  CreateUser now email hash admin db = (inr (nextval (users db), mk_user email hash admin None now),
    set_users (insert_row (mk_user email hash admin None now) (users db)).2 db).
Proof.
  intros Hn. unfold CreateUser, wrap_err. assert (exists_row (user_key email) (users db) = false) as ->; [|done].
  unfold exists_row. destruct (select _ _) as [|[id u] l] eqn:E; [done|].
  assert ((id, u) ∈ select (user_key email) (users db)) as Hin by (rewrite E; left).
  apply elem_of_select in Hin as [Hu Hk]. unfold user_key in Hk. by rewrite (Hn id u Hu) in Hk.
Qed.

(** A user created on the command line, for an address nobody has in any
    capitalisation, with the password of the flag, of the first line of the standard input
    or typed at the terminal, can sign in with that password: the new row is active, has
    the role asked for, and its hash verifies the password.  Setting a password later
    makes the user known by the new one, and neither command touches any other user or
    any session. *)
Theorem created_user_can_sign_in (email flag : string) (fromStdin admin : bool) (input : Input) (salt : list ascii) (w : Ops) :
  ops_faultless -> oe_salt env = inr salt -> db_wf (op_db w) ->
  match readPassword flag fromStdin input with
  | inl e => user_create env IDKey email flag fromStdin admin input w = (inl e, w)
      /\ user_set_password env IDKey email flag fromStdin input w = (inl e, w)
  | inr secret =>
      (nobody_has email (op_db w) ->
       exists u, let id := nextval (users (op_db w)) in
         let out := user_create env IDKey email flag fromStdin admin input w in
         out.1 = inr tt /\ op_db out.2 = set_users (insert_row u (users (op_db w))).2 (op_db w) /\
         us_is_admin u = admin /\ knows (op_db out.2) email secret (id, u)) /\
      (forall u, rows (users (op_db w)) !! u.1 = Some u.2 -> EqualFold (us_email u.2) email = true ->
         let out := user_set_password env IDKey email flag fromStdin input w in
         out.1 = inr tt /\ op_db out.2 = exec (SetUserPassword u.1 (stored_hash salt secret)) (op_db w) /\
         (User_Active u = true -> exists u', knows (op_db out.2) email secret (u.1, u') /\ us_is_admin u' = us_is_admin u.2) /\
         forall id, id <> u.1 -> rows (users (op_db out.2)) !! id = rows (users (op_db w)) !! id)
  end.
Proof.
  intros Hf Hsalt Hwf. unfold user_create, user_set_password. unfold mbind, SE_bind, or_stop, mret, SE_ret.
  destruct (readPassword flag fromStdin input) as [e|secret]; [done|]. split.
  - intros Hn. eexists. cbv zeta. rewrite (hash_password_eq salt) by done. rewrite (call_faultless _ _ Hf), CreateUser_new by done.
    cbn [fst snd op_db print updates]. split_and!; [done|done|done|]. split_and!; [by apply lookup_insert_eq|apply EqualFold_refl|done|].
    apply stored_hash_verifies.
  - intros u Hu He. cbv zeta. unfold map_stop. rewrite (call_faultless _ _ Hf), (UserByEmail_found _ _ _ Hwf Hu He). cbn [fst snd].
    rewrite (hash_password_eq salt) by done. rewrite (call_faultless _ _ Hf). cbn [fst snd op_db print updates].
    split_and!; [done|done| |].
    + intros Ha. exists (set_us_password_hash (stored_hash salt secret) u.2). split; [|done].
      split_and!; [|done|done|apply stored_hash_verifies]. apply lookup_update_Some. exists u.2. split; [exact Hu|].
      unfold id_is. by rewrite Z.eqb_refl.
    + intros id Hid.
      transitivity (rows (update_where (id_is u.1) (set_us_password_hash (stored_hash salt secret)) (users (op_db w))) !! id); [done|].
      rewrite lookup_update_where. unfold id_is. rewrite (proj2 (Z.eqb_neq _ _) Hid). by destruct (rows (users (op_db w)) !! id).
Qed.
(** * The first administrator *)

(** Bootstrapping happens once: with an address and a password configured and nobody
    in the database, it leaves exactly one user, an active administrator who knows that
    password; with anybody there already, and on every later start, and without an address
    or a password, it changes nothing. *)
Theorem bootstrap_once (b : Bootstrap) (salt : list ascii) (w : Ops) :
  ops_faultless -> oe_salt env = inr salt ->
  let out := bootstrapUser env IDKey b w in
  out.1 = inr tt /\
  (if String.eqb (Boot_Email b) "" || String.eqb (Boot_Password b) "" || negb (bool_decide (rows (users (op_db w)) = ∅))
   then op_db out.2 = op_db w
   else exists u, rows (users (op_db out.2)) = {[ nextval (users (op_db w)) := u ]} /\ us_is_admin u = true /\
     knows (op_db out.2) (Boot_Email b) (Boot_Password b) (nextval (users (op_db w)), u)) /\
  forall later, op_db later = op_db out.2 -> op_db (bootstrapUser env IDKey b later).2 = op_db out.2.
Proof.
  intros Hf Hsalt out.
  assert (forall db, count_where (fun _ _ => true) (users db) = Z.of_nat (size (rows (users db)))) as Hcount.
  { intros db. unfold count_where, select. rewrite <- length_map_to_list. do 2 f_equal.
    induction (map_to_list (rows (users db))) as [|x l IH]; [done|]. rewrite filter_cons_True by done. by rewrite IH. }
  assert (forall v, rows (users (op_db v)) <> ∅ -> op_db (bootstrapUser env IDKey b v).2 = op_db v /\ (bootstrapUser env IDKey b v).1 = inr tt) as Hlater.
  { intros v Hv. unfold bootstrapUser, mbind, SE_bind. destruct (_ || _); [done|]. rewrite (call_faultless _ _ Hf).
    cbn [fst snd CountUsers gets]. rewrite Hcount. destruct (Z.ltb_spec 0 (Z.of_nat (size (rows (users (op_db v)))))); [done|].
    exfalso. apply Hv, map_size_empty_iff. lia. }
  destruct (decide (rows (users (op_db w)) = ∅)) as [He|Hne].
  - destruct (String.eqb (Boot_Email b) "" || String.eqb (Boot_Password b) "") eqn:Eb.
    { assert (forall v, bootstrapUser env IDKey b v = (inr tt, v)) as Hnone by (intros v; unfold bootstrapUser; by rewrite Eb).
      unfold out. rewrite Hnone. split_and!; [done..|]. intros later Hl. by rewrite Hnone. }
    assert (nobody_has (Boot_Email b) (op_db w)) as Hn by (intros id u Hu; by rewrite He, lookup_empty in Hu).
    assert (exists u, out.1 = inr tt /\ us_is_admin u = true /\ User_Active (nextval (users (op_db w)), u) = true /\
      us_email u = Boot_Email b /\ us_password_hash u = stored_hash salt (Boot_Password b) /\
      op_db out.2 = set_users (insert_row u (users (op_db w))).2 (op_db w)) as (u & Hr & Ha & Hact & Hem & Hh & Hdb).
    { unfold out, bootstrapUser, mbind, SE_bind. rewrite Eb, (call_faultless _ _ Hf). cbn [fst snd CountUsers gets].
      rewrite Hcount, He, map_size_empty. change (0 <? Z.of_nat 0) with false. cbv iota beta. rewrite (hash_password_eq salt) by done.
      rewrite (call_faultless _ _ Hf), CreateUser_new by done. eexists. split_and!; [done| | | | |reflexivity]; done. }
    split; [done|]. cbn [orb]. rewrite bool_decide_true by done. cbn [negb].
    assert (rows (users (op_db out.2)) = {[nextval (users (op_db w)) := u]}) as Hrows.
    { rewrite Hdb. cbn. rewrite He. by rewrite insert_empty. }
    split.
    + exists u. split_and!; [done|done|]. split_and!; cbn [fst snd].
      * rewrite Hrows. apply lookup_singleton_eq.
      * rewrite Hem. apply EqualFold_refl.
      * done.
      * rewrite Hh. apply stored_hash_verifies.
    + intros later Hl. rewrite <- Hl. apply Hlater. rewrite Hl, Hrows. apply map_non_empty_singleton.
  - destruct (Hlater w Hne) as [Hdb Hr]. rewrite bool_decide_false, orb_true_r by done. split_and!; [done|done|].
    intros later Hl. rewrite <- Hl. apply Hlater. rewrite Hl. unfold out. by rewrite Hdb.
Qed.

(** Two processes that start on an empty database together can both count no users;
    the second one's insert then meets the first one's row, and its start fails, although
    the administrator it was asked for exists. *)
Theorem bootstrap_race (b : Bootstrap) (salt : list ascii) (hash : string) (t : Z) (w : Ops) :
  Boot_Email b <> ""%string -> Boot_Password b <> ""%string -> oe_salt env = inr salt -> (forall n, oe_fault env n = NoFault) ->
  rows (users (op_db w)) = ∅ -> oe_others env (op_calls w) (op_db w) = op_db w ->
  oe_others env (S (op_calls w)) (op_db w) = exec (CreateUser t (Boot_Email b) hash true) (op_db w) ->
  (bootstrapUser env IDKey b w).1 = inl (ErrWrap ("creating user " ++ Boot_Email b ++ ": ") (ErrText "users_email_key") "").
Proof.
  intros He Hp Hsalt Hf Hrows H0 H1'. unfold bootstrapUser, mbind, SE_bind.
  rewrite (proj2 (String.eqb_neq _ _) He), (proj2 (String.eqb_neq _ _) Hp). cbn [orb].
  unfold call at 1. rewrite H0, Hf. cbn [fst snd CountUsers gets].
  assert (count_where (fun _ _ => true) (users (op_db w)) = 0) as -> by (unfold count_where, select; by rewrite Hrows).
  change (0 <? 0) with false. cbv iota beta. rewrite (hash_password_eq salt) by done.
  unfold call. cbn [op_calls op_db]. rewrite H1', Hf. unfold exec. rewrite (CreateUser_new t _ hash true (op_db w)) by (intros id u Hu; by rewrite Hrows, lookup_empty in Hu).
  cbn [snd]. unfold CreateUser, wrap_err.
  match goal with |- context [exists_row (user_key ?m) ?t] => assert (exists_row (user_key m) t = true) as -> end.
  { apply exists_row_true. eexists _, _. split; [apply lookup_insert_eq|apply EqualFold_refl]. }
  done.
Qed.
End users.

(** * On the example installation *)

Definition ops_env : OpsEnv := mk_OpsEnv (fun _ => NoFault) (fun _ db => db) (fun n => Z.of_nat n) (inr (lit "0123456789abcdef")).
Definition ops_start (db : DB) : Ops := mk_Ops db 0 [].
Lemma ops_env_faultless : ops_faultless ops_env.
Proof. by split. Qed.

(** A boot where the object store's directory cannot be made. *)
Definition ex_boot : Boot nat unit := mk_Boot (fun _ => inr [("sslmode", "disable")]%string) (fun _ => inr tt) None None
  (fun _ => inl (ErrText "mkdir ./data/blob: permission denied")) (fun _ => true) (fun _ _ => inr 2%nat).
Lemma no_pool_left_open_witness : pool_after (withApp ex_boot (inr Default) (fun _ => mret tt) []).2 = Some false
  /\ (withApp ex_boot (inr Default) (fun _ => mret tt) []).2 = [PoolOpened; PoolClosed].
Proof.
  split; [|vm_compute; reflexivity].
  apply (no_pool_left_open ex_boot (inr Default) (fun _ => mret tt) Default). intros app w. reflexivity.
Defined.

Definition typed (password : string) : Input := mk_Input [] ErrEOF true (inr (lit password)).
Lemma created_user_can_sign_in_witness :
  let out := user_create ops_env ex_IDKey "carol@example.org" "" false true (typed "pass") (ops_start empty_db) in
  out.1 = inr tt /\ exists u, knows ex_IDKey (op_db out.2) "CAROL@example.org" "pass" u.
Proof.
  pose proof (created_user_can_sign_in ops_env ex_IDKey ex_IDKey_length "carol@example.org" "" false true (typed "pass")
    (lit "0123456789abcdef") (ops_start empty_db) ops_env_faultless eq_refl empty_db_wf) as [Hc _].
  destruct Hc as (u & Hr & _ & _ & Hu & He & Hk); [intros id u Hu; vm_compute in Hu; discriminate Hu|].
  split; [exact Hr|]. exists (1, u). split_and!; [exact Hu| |apply Hk..].
  apply EqualFold_iff. apply EqualFold_iff in He. transitivity (ToLower "carol@example.org"); [exact He|reflexivity].
Defined.
Lemma bootstrap_once_witness : exists u,
  rows (users (op_db (bootstrapUser ops_env ex_IDKey (mk_Bootstrap "root@example.org" "pw") (ops_start empty_db)).2)) = {[ 1 := u ]}
  /\ us_is_admin u = true.
Proof.
  destruct (bootstrap_once ops_env ex_IDKey ex_IDKey_length (mk_Bootstrap "root@example.org" "pw") (lit "0123456789abcdef")
    (ops_start empty_db) ops_env_faultless eq_refl) as (_ & (u & Hu & Ha & _) & _).
  exists u. split; [exact Hu|exact Ha].
Defined.
Lemma bootstrap_race_witness :
  (bootstrapUser (mk_OpsEnv (fun _ => NoFault) (fun n db => match n with 1%nat => exec (CreateUser 0 "root@example.org" "h" true) db | _ => db end)
     (fun n => Z.of_nat n) (inr (lit "0123456789abcdef"))) ex_IDKey (mk_Bootstrap "root@example.org" "pw") (ops_start empty_db)).1
  = inl (ErrWrap "creating user root@example.org: " (ErrText "users_email_key") "").
Proof.
  apply (bootstrap_race (mk_OpsEnv (fun _ => NoFault) (fun n db => match n with 1%nat => exec (CreateUser 0 "root@example.org" "h" true) db | _ => db end)
     (fun n => Z.of_nat n) (inr (lit "0123456789abcdef"))) ex_IDKey (mk_Bootstrap "root@example.org" "pw") (lit "0123456789abcdef") "h" 0
     (ops_start empty_db)); done.
Defined.
