(* ===== verification/Service.v ===== *)
(** The server process (internal/cli: run.go; internal/httpsrv, internal/obs,
    internal/imapsrv: server.go; internal/logging): its health, its listeners, its loops,
    and how they are started. *)
From S2P Require Import Prelude GoStrings Retry Crypto Text Schema StoreMailboxes StoreMessages StoreMutations StoreRuns StoreAccounts SyncMeta SyncPass Config Cli Web Effects.
From Stdlib Require Import String.
From stdpp Require Import strings gmap list sorting.
Open Scope list_scope.
Open Scope Z_scope.

(** * Health (internal/obs) *)

Definition errNotReady : err := ErrText "not ready".
(** The state of each subsystem: its error, or that it is ready. *)
Definition Health : Type := gmap string (option err).
Definition NewHealth (subsystems : list string) : Health :=
  fold_left (fun h name => <[name := Some errNotReady]> h) subsystems ∅.
Definition Health_Set (subsystem : string) (e : option err) (h : Health) : Health := <[subsystem := e]> h.
Definition Ready (h : Health) : bool * Health :=
  (forallb (fun ne => match ne.2 with None => true | Some _ => false end) (map_to_list h), h).

(** * Operational endpoints (internal/httpsrv) *)

Definition name_le (a b : string) : Prop := String.ltb b a = false.
#[export] Instance name_le_dec : RelDecision name_le.
Proof. intros a b. unfold name_le. apply _. Defined.

Definition writePlain (status : Z) (body : string) : Response :=
  mk_Response status [("Content-Type", "text/plain; charset=utf-8"); ("Cache-Control", "no-store")]%string (Text_ body).
Definition handleHealthz : Response := writePlain 200 "ok".

Definition end_of_line : string := String newline_byte "".
Definition health_line (name : string) (e : option err) : string :=
  match e with
  | Some e => (name ++ ": " ++ err_text e ++ end_of_line)%string
  | None => (name ++ ": ok" ++ end_of_line)%string
  end.
Definition handleReadyz (h : Health) : Response :=
  let '(ready, detail) := Ready h in
  let names := merge_sort name_le (map fst (map_to_list detail)) in
  let status := if ready then 200 else 503 in
  writePlain status (foldr (fun name body => (match detail !! name with Some e => health_line name e | None => "" end ++ body)%string) ""%string names).

Inductive OpsRoute := Healthz | Readyz | Metrics | Pprof (page : list string).
(** [Mount] of the operational endpoints: where a GET of a path goes. *)
Definition ops_route (c : Config) (metrics : bool) (path : list string) : option OpsRoute :=
  match path with
  | ["healthz"] => Some Healthz
  | ["readyz"] => Some Readyz
  | ["metrics"] => if metrics then Some Metrics else None
  | "debug" :: "pprof" :: page :: rest => if PProf (c_Web c) then Some (Pprof (page :: rest)) else None
  | _ => None
  end%string.

(** ** Listeners *)

Definition ErrServerClosed : err := ErrText "http: Server closed".
(** How serving ends: on its own, or because the process is told to stop, with the outcome
    of draining and of closing. *)
Inductive ServeEnd := EndedItself (e : option err) | Told (drained : option err) (closed : option err).
Definition http_Serve (name addr : string) (bind : option err) (how : ServeEnd) : option err :=
  match bind with
  | Some e => Some (ErrWrap ("binding " ++ name ++ " listener on " ++ addr ++ ": ") e "")
  | None =>
      match how with
      | EndedItself (Some e) => if err_is e ErrServerClosed then None else Some e
      | EndedItself None => None
      | Told None _ => None
      | Told (Some _) closed => closed
      end
  end.
Definition imap_Serve (name addr : string) (bind : option err) (how : ServeEnd) : option err :=
  match bind with
  | Some e => Some (ErrWrap ("binding " ++ name ++ " listener on " ++ addr ++ ": ") e "")
  | None =>
      match how with
      | EndedItself (Some e) => if err_is e ErrNetClosed then None else Some e
      | EndedItself None | Told _ _ => None
      end
  end.

Definition capabilities : list string := ["IMAP4rev1"; "NAMESPACE"; "UIDPLUS"; "ESEARCH"; "IDLE"; "LITERAL-"]%string.
(** [LoadTLS]: whether there is a certificate. *)
Definition LoadTLS (LoadX509KeyPair : string -> string -> option err) (c : Config) : err + bool :=
  let i := c_IMAP c in
  if String.eqb (TLSCertPath i) "" || String.eqb (TLSKeyPath i) "" then inr false
  else match LoadX509KeyPair (TLSCertPath i) (TLSKeyPath i) with
  | Some e => inl (ErrWrap "loading the IMAP TLS certificate: " e "")
  | None => inr true
  end.

(** * Logging levels (internal/logging) *)

Inductive Level := LevelDebug | LevelInfo | LevelWarn | LevelError.
Definition ParseLevel (name : string) : Level :=
  let name := ToLower name in
  if String.eqb name "debug" then LevelDebug
  else if String.eqb name "warn" || String.eqb name "warning" then LevelWarn
  else if String.eqb name "error" then LevelError
  else LevelInfo.

(** * Loops *)

(** [watchDatabase]: one check at once and one per tick, until told to stop. *)
Definition check_database (ping : option err) (h : Health) : Health := Health_Set "database" ping h.
Definition watchDatabase (first : option err) (ticks : list (option err)) (h : Health) : Health :=
  fold_left (fun h ping => check_database ping h) ticks (check_database first h).

(** ** Syncing every account *)

(** An errgroup with a limit: accounts not handed over yet, being synced, and done. *)
Record Group := mk_Group { gr_waiting : list Z; gr_running : list Z; gr_done : list Z }.
Definition free_slot (limit : Z) (g : Group) : Prop := limit < 0 \/ Z.of_nat (length (gr_running g)) < limit.
Inductive group_step (limit : Z) : Group -> Group -> Prop :=
| Group_Go a ws rs ds : free_slot limit (mk_Group (a :: ws) rs ds) ->
    group_step limit (mk_Group (a :: ws) rs ds) (mk_Group ws (rs ++ [a]) ds)
| Group_returns a ws rs1 rs2 ds : group_step limit (mk_Group ws (rs1 ++ a :: rs2) ds) (mk_Group ws (rs1 ++ rs2) (ds ++ [a])).
(** [syncAll]: no account is synced if they cannot be listed. *)
Definition syncAll (listed : err + list Account) : Group :=
  match listed with inl _ => mk_Group [] [] [] | inr accounts => mk_Group (map fst accounts) [] [] end.

Section loops.
Variable env : OpsEnv.

(** ** Housekeeping *)

(** What only goes to the log. *)
Definition logged {A} (m : C A) : C unit := attempt m ≫= fun _ => mret tt.
Definition stale_change_age : Z := 15 * 60 * 1000000.
(** One tick of [maintenanceLoop]; times in microseconds. *)
Definition maintenance (c : Config) : C unit :=
  logged (call env (fun now => ReapStaleClaims now (ClaimReapAfter (c_Sync c) / 1000))) ≫= fun _ =>
  logged (call env (fun now => ReleaseStaleMutations now stale_change_age)) ≫= fun _ =>
  logged (call env (fun now => DeleteExpiredSessions now)).

(** One tick of [replayLoop]; [replay] is [Engine.ReplayMutations]. *)
Definition replay_tick (replay : Z -> C Z) : C unit :=
  listed ← attempt (call env (fun _ => ListSyncableAccounts));
  match listed with
  | inl _ => mret tt
  | inr accounts => for_each (fun account => logged (replay account.1)) accounts
  end.
End loops.

(** * Starting *)

Inductive Service := S_HTTP (ui : bool) | S_Metrics | S_IMAP | S_IMAPS | S_Watch | S_Sync | S_Replay | S_Maintenance.

(** The state of the process: its pool, the database, and what has been launched. *)
Record Run := mk_Run { rn_pool : list pool_event; rn_ops : Ops; rn_services : list Service }.
Definition R (A : Type) : Type := SE err Run A.
Definition with_pool {A} (m : P A) : R A := fun r =>
  let '(x, l) := m (rn_pool r) in (x, mk_Run l (rn_ops r) (rn_services r)).
Definition with_ops {A} (m : C A) : R A := fun r =>
  let '(x, o) := m (rn_ops r) in (x, mk_Run (rn_pool r) o (rn_services r)).
Definition launch (s : Service) : R unit := updates (fun r => mk_Run (rn_pool r) (rn_ops r) (rn_services r ++ [s])).
(** A deferred call runs however the rest ends. *)
Definition finally {A} (m : R A) (deferred : R unit) : R A := fun r =>
  let '(x, r) := m r in
  match deferred r with (inl e, r) => (inl e, r) | (inr _, r) => (x, r) end.

Section run.
Context {K S : Type}.
Variable boot : Boot K S.
Variable env : OpsEnv.
Variable IDKey : list ascii -> list ascii -> Z -> Z -> Z -> Z -> list ascii.
(** Parsing the templates, the certificate, and how the group of services ends. *)
Variable web_New : option err.
Variable LoadX509KeyPair : string -> string -> option err.
Variable wait : list Service -> option err.

(** In microseconds. *)
Definition staleAfter (c : Config) : Z := Z.max (5 * HeartbeatInterval (c_Sync c)) (2 * Minute) / 1000.

Definition when (b : bool) (m : R unit) : R unit := if b then m else mret tt.
Definition nonempty (s : string) : bool := negb (String.eqb s "").

Definition run (c : Config) : R unit :=
  app ← with_pool (Open boot c);
  finally (
    with_ops (bootstrapUser env IDKey (c_Bootstrap c)) ≫= fun _ =>
    with_ops (logged (call env (fun now => MarkOrphanedRuns now (staleAfter c)))) ≫= fun _ =>
    when (nonempty (Bind (c_HTTP c)))
      (when (Web_Enabled (c_Web c)) (match web_New with Some e => stop e | None => mret tt end) ≫= fun _ =>
       launch (S_HTTP (Web_Enabled (c_Web c)))) ≫= fun _ =>
    when (nonempty (MetricsBind (c_HTTP c)) && negb (String.eqb (MetricsBind (c_HTTP c)) (Bind (c_HTTP c)))) (launch S_Metrics) ≫= fun _ =>
    match LoadTLS LoadX509KeyPair c with
    | inl e => stop e
    | inr tls =>
        when (nonempty (PlaintextBind (c_IMAP c))) (launch S_IMAP) ≫= fun _ =>
        when (nonempty (TLSBind (c_IMAP c)))
          (if tls : bool then launch S_IMAPS
           else stop (ErrText "imap.tls_bind is set but no certificate could be loaded")) ≫= fun _ =>
        launch S_Watch ≫= fun _ =>
        when (Sync_Enabled (c_Sync c)) (launch S_Sync ≫= fun _ => launch S_Replay ≫= fun _ => launch S_Maintenance) ≫= fun _ =>
        services ← look rn_services;
        match wait services with
        | Some e => if err_is e ErrCanceled then mret tt else stop e
        | None => mret tt
        end
    end) (with_pool (emit PoolClosed)).
End run.
