(* ===== verification/ServiceProps.v ===== *)
(** What the server process promises: readiness follows the database, a validated
    configuration starts exactly the services it names, every account is synced once per
    round, and housekeeping gives back what a dead process left behind. *)
From S2P Require Import Prelude GoStrings Retry Crypto Text Schema StoreMailboxes StoreMessages StoreMutations StoreRuns StoreAccounts StoreBrowse StoreInvariant StoreProps StoreSteps SyncMeta SyncPass Config ConfigProps Cli CliProps Web WebExamples Service Effects.
From Stdlib Require Import String.
From stdpp Require Import strings gmap list sorting relations.
Open Scope list_scope.
Open Scope Z_scope.

(** * Readiness *)

Lemma Ready_iff h : (Ready h).1 = true <-> forall name e, h !! name = Some e -> e = None.
Proof.
  unfold Ready. cbn. rewrite forallb_forall. split.
  - intros Hall name e Hn. specialize (Hall (name, e)). cbn in Hall. destruct e; [|done].
    assert (false = true) as ?; [|done]. apply Hall. apply list_elem_of_In. by apply elem_of_map_to_list.
  - intros Hall [name e] Hin%list_elem_of_In%elem_of_map_to_list. cbn. by rewrite (Hall name e Hin).
Qed.
Lemma readyz_status h : rs_Status (handleReadyz h) = if (Ready h).1 then 200 else 503.
Proof. unfold handleReadyz, Ready. by destruct (forallb _ _). Qed.

#[local] Instance name_le_trans : Transitive name_le.
Proof.
  unfold name_le. intros a b c Hab Hbc. destruct (String.ltb c a) eqn:E; [|done]. exfalso.
  destruct (String.ltb a b) eqn:Eab; [|by rewrite (ltb_total b a Hab Eab), E in Hbc].
  by rewrite (ltb_trans c a b E Eab) in Hbc.
Qed.
#[local] Instance name_le_total : Total name_le.
Proof. intros a b. unfold name_le. destruct (String.ltb b a) eqn:E; [right; by apply ltb_asym|by left]. Qed.

(** What a subsystem was last reported as: its first report is that it is not ready. *)
Definition last_report (names : list string) (reports : list (string * option err)) (name : string) : option (option err) :=
  match list_find (fun r => r.1 = name) (rev reports) with
  | Some (_, r) => Some r.2
  | None => if bool_decide (name ∈ names) then Some (Some errNotReady) else None
  end.
Definition reported (names : list string) (reports : list (string * option err)) : Health :=
  fold_left (fun h r => Health_Set r.1 r.2 h) reports (NewHealth names).

Lemma NewHealth_lookup names name : NewHealth names !! name = if bool_decide (name ∈ names) then Some (Some errNotReady) else None.
Proof.
  unfold NewHealth, Health. induction names as [|x names IH] using rev_ind; [done|].
  rewrite fold_left_app. cbn [fold_left]. destruct (decide (x = name)) as [->|Hne].
  - rewrite lookup_insert_eq, bool_decide_true; [done|]. set_solver.
  - rewrite lookup_insert_ne, IH by done. erewrite bool_decide_ext; [done|]. set_solver.
Qed.
Lemma reported_lookup names reports name : reported names reports !! name = last_report names reports name.
Proof.
  unfold reported, last_report, Health. induction reports as [|r reports IH] using rev_ind; [apply NewHealth_lookup|]. unfold Health in IH |- *.
  rewrite fold_left_app, rev_app_distr. cbn [fold_left rev app list_find]. unfold Health_Set at 1, Health.
  destruct (decide (r.1 = name)) as [->|Hne]; [apply lookup_insert_eq|].
  rewrite lookup_insert_ne, IH by done. by destruct (list_find _ (rev reports)) as [[? ?]|].
Qed.

(** The readiness endpoint answers 200 exactly when the last report of every
    subsystem, registered or not, was that it is ready (a registered one that has not
    reported is not), and 503 otherwise; its body has one line for every subsystem, in the
    order of their names, with its last report. *)
Theorem readiness_is_last_report (names : list string) (reports : list (string * option err)) :
  let h := reported names reports in
  (rs_Status (handleReadyz h) = 200 <-> forall name e, last_report names reports name = Some e -> e = None) /\
  (rs_Status (handleReadyz h) = 200 \/ rs_Status (handleReadyz h) = 503) /\
  exists order, StronglySorted name_le order /\ NoDup order /\
    (forall name, name ∈ order <-> is_Some (last_report names reports name)) /\
    rs_Body (handleReadyz h) = Text_ (foldr (fun name body =>
      (match last_report names reports name with Some e => health_line name e | None => "" end ++ body)%string) ""%string order).
Proof.
  intros h. split_and!.
  - rewrite readyz_status. transitivity ((Ready h).1 = true); [by destruct (Ready h).1|]. rewrite Ready_iff.
    unfold h. by setoid_rewrite reported_lookup.
  - rewrite readyz_status. destruct (Ready h).1; auto.
  - exists (merge_sort name_le (map fst (map_to_list h))). split_and!.
    + apply (StronglySorted_merge_sort name_le).
    + change (NoDup (merge_sort name_le (map fst (map_to_list h)))). rewrite merge_sort_Permutation. apply NoDup_fst_map_to_list.
    + intros name. rewrite merge_sort_Permutation, <- reported_lookup. fold h. rewrite list_elem_of_fmap. split.
      * intros ([k e] & -> & He%elem_of_map_to_list). by exists e.
      * intros [e He]. exists (name, e). split; [done|]. by apply elem_of_map_to_list.
    + unfold handleReadyz, Ready, writePlain. cbn [rs_Body]. f_equal.
      induction (merge_sort name_le _) as [|name l IH]; [done|]. cbn [foldr]. rewrite IH. unfold h at 1. by rewrite reported_lookup.
Qed.

Lemma watchDatabase_lookup first ticks h : watchDatabase first ticks h = <["database"%string := default first (last ticks)]> h.
Proof.
  unfold watchDatabase, check_database, Health_Set. revert first. induction ticks as [|t ticks IH] using rev_ind; intros first; [done|].
  rewrite fold_left_app, IH, last_snoc. cbn. apply insert_insert_eq.
Qed.

(** Readiness follows the database: not ready until the first check, and after any
    number of checks ready exactly if the last one reached it. *)
Theorem readiness_follows_database (first : option err) (ticks : list (option err)) :
  rs_Status (handleReadyz (NewHealth ["database"]%string)) = 503 /\
  rs_Status (handleReadyz (watchDatabase first ticks (NewHealth ["database"]%string))) =
    match default first (last ticks) with None => 200 | Some _ => 503 end.
Proof.
  split; [reflexivity|]. rewrite watchDatabase_lookup. destruct (default first (last ticks)); reflexivity.
Qed.

(** * Syncing every account *)

Section group.
Variable limit : Z.
Notation step := (group_step limit).
Definition accounts_of (g : Group) : list Z := gr_done g ++ gr_running g ++ gr_waiting g.
(** How many steps a round still takes. *)
Definition steps_left (g : Group) : nat := (2 * length (gr_waiting g) + length (gr_running g))%nat.

Lemma step_keeps g g' : step g g' -> accounts_of g' ≡ₚ accounts_of g /\ steps_left g = S (steps_left g').
Proof.
  destruct 1 as [a ws rs ds Hf|a ws rs1 rs2 ds]; unfold accounts_of, steps_left; cbn [gr_waiting gr_running gr_done]; split; rewrite ?length_app; cbn [length]; try lia.
  - by rewrite <- !app_assoc.
  - rewrite <- !app_assoc. cbn. apply Permutation_app_head. by rewrite Permutation_middle.
Qed.
Lemma step_limit g g' : 0 <= limit -> step g g' -> Z.of_nat (length (gr_running g)) <= limit -> Z.of_nat (length (gr_running g')) <= limit.
Proof.
  destruct 2 as [a ws rs ds [?|Hf]|a ws rs1 rs2 ds]; cbn in *; rewrite ?length_app in *; cbn in *; lia.
Qed.
Lemma step_goes_on g : 1 <= limit -> steps_left g <> O -> exists g', step g g'.
Proof.
  intros Hl. destruct g as [[|a ws] [|r rs] ds]; cbn; intros Hs; [lia|..].
  - eexists. apply (Group_returns _ r [] [] rs).
  - eexists. apply Group_Go. right. cbn. lia.
  - eexists. apply (Group_returns _ r (a :: ws) [] rs).
Qed.

(** A round of syncs, for a limit validation lets through: whatever the order in which
    the accounts' syncs return, and however each ends, at most so many run at once, a
    round can always go on until it is over, it is over after exactly two steps per
    account, and by then every account listed has been synced exactly once. *)
Theorem round_syncs_each_account_once (accounts : list Account) (g : Group) (n : nat) :
  1 <= limit -> nsteps step n (syncAll (inr accounts)) g ->
  Z.of_nat (length (gr_running g)) <= limit /\ (n <= 2 * length accounts)%nat /\
  ((n < 2 * length accounts)%nat -> exists g', step g g') /\
  (n = 2 * length accounts -> gr_waiting g = [] /\ gr_running g = [] /\ gr_done g ≡ₚ map fst accounts)%nat.
Proof.
  intros Hl Hn.
  assert (accounts_of g ≡ₚ map fst accounts /\ (steps_left g + n = 2 * length accounts)%nat /\ Z.of_nat (length (gr_running g)) <= limit)
    as (Hp & Hs & Hr).
  { assert (forall g0, nsteps step n g0 g -> Z.of_nat (length (gr_running g0)) <= limit ->
      accounts_of g ≡ₚ accounts_of g0 /\ (steps_left g + n = steps_left g0)%nat /\ Z.of_nat (length (gr_running g)) <= limit) as Hall.
    { clear Hn. intros g0 Hn. induction Hn as [g0|m g0 g1 g2 H01 H12 IH]; intros Hb; [split_and!; [done|lia|done]|].
      destruct (step_keeps _ _ H01) as [Hp Hs]. destruct (IH (step_limit _ _ ltac:(lia) H01 Hb)) as (Hp' & Hs' & Hr').
      split_and!; [by rewrite Hp'|lia|done]. }
    destruct (Hall _ Hn) as (Hp & Hs & Hr); [cbn; lia|]. split_and!; [done| |done].
    rewrite Hs. unfold steps_left, syncAll. cbn [gr_waiting gr_running length]. rewrite length_map. by rewrite Nat.add_0_r. }
  split_and!; [done|lia| |].
  - intros Hlt. apply step_goes_on; lia.
  - intros ->. assert (steps_left g = 0)%nat as H0 by lia. unfold steps_left in H0.
    destruct g as [ws rs ds]. cbn in *. destruct ws; [|cbn in H0; lia]. destruct rs; [|cbn in H0; lia].
    split_and!; [done..|]. unfold accounts_of in Hp. cbn in Hp. by rewrite app_nil_r in Hp.
Qed.
End group.

(** * Housekeeping *)

Section housekeeping.
Variable env : OpsEnv.
Hypothesis Hquiet : forall n db, oe_others env n db = db.

(** The statement at a call took effect. *)
Definition effective (n : nat) : bool := match oe_fault env n with FailBefore _ => false | _ => true end.
(** A call whose outcome is only logged. *)
Lemma logged_call {A} (m : Z -> sql A) w : exists out, logged (call env m) w =
  (inr tt, mk_Ops (if effective (op_calls w) then exec (m (oe_now env (op_calls w))) (op_db w) else op_db w)
    (S (op_calls w)) out).
Proof.
  unfold logged, attempt, call, effective, mbind, SE_bind, exec. rewrite Hquiet.
  exists (op_out w). destruct (oe_fault env (op_calls w)); [by destruct (m _ _)|done..].
Qed.

Definition no_stale_claim (now age : Z) (db : DB) : Prop := forall id r, rows (mailbox_messages db) !! id = Some r -> stale_claim now age id r = false.
Definition no_stale_change (now age : Z) (db : DB) : Prop := forall id r, rows (pending_mutations db) !! id = Some r -> stale_lock now age id r = false.
Definition no_expired_session (now : Z) (db : DB) : Prop := forall id r, rows (sessions db) !! id = Some r -> expired now id r = false.

Lemma ReapStaleClaims_clears now age db : no_stale_claim now age (exec (ReapStaleClaims now age) db).
Proof.
  intros id r. change (mailbox_messages (exec (ReapStaleClaims now age) db))
    with (update_where (stale_claim now age) back_to_pending (mailbox_messages db)).
  rewrite lookup_update_Some. intros (x & _ & ->). destruct (stale_claim now age id x) eqn:E; [|done].
  unfold stale_claim. by rewrite bool_decide_false.
Qed.
Lemma ReleaseStaleMutations_clears now age db : no_stale_change now age (exec (ReleaseStaleMutations now age) db).
Proof.
  intros id r. change (pending_mutations (exec (ReleaseStaleMutations now age) db))
    with (update_where (stale_lock now age) (fun r => set_pm_status MutPending (unlock r)) (pending_mutations db)).
  rewrite lookup_update_Some. intros (x & _ & ->). destruct (stale_lock now age id x) eqn:E; [|done].
  unfold stale_lock. by rewrite bool_decide_false.
Qed.
Lemma DeleteExpiredSessions_clears now db : no_expired_session now (exec (DeleteExpiredSessions now) db).
Proof.
  intros id r. change (sessions (exec (DeleteExpiredSessions now) db)) with (delete_where (expired now) (sessions db)).
  rewrite Schema.lookup_delete_Some. by intros [_ ?].
Qed.

(** One tick of housekeeping: each of its three statements does its work whether or not
    the others fail.  Afterwards no message is left claimed for longer than
    [sync.claim_reap_after], no change is left in flight for more than fifteen minutes and
    no session outlives its grace period, except what a statement that did not reach the
    database was to clear; and nothing else has changed: every message keeps its UIDs and
    flags, every change its payload and attempts. *)
Theorem maintenance_recovers (c : Config) (w : Ops) :
  let n := op_calls w in
  let out := maintenance env c w in
  out.1 = inr tt /\
  (effective n = true -> no_stale_claim (oe_now env n) (ClaimReapAfter (c_Sync c) / 1000) (op_db out.2)) /\
  (effective (S n) = true -> no_stale_change (oe_now env (S n)) (15 * 60 * 1000000) (op_db out.2)) /\
  (effective (S (S n)) = true -> no_expired_session (oe_now env (S (S n))) (op_db out.2)) /\
  (forall id r, rows (mailbox_messages (op_db w)) !! id = Some r ->
     exists r', rows (mailbox_messages (op_db out.2)) !! id = Some r' /\ (r' = r \/ r' = back_to_pending r)) /\
  (forall id r, rows (pending_mutations (op_db w)) !! id = Some r ->
     exists r', rows (pending_mutations (op_db out.2)) !! id = Some r' /\ (r' = r \/ r' = set_pm_status MutPending (unlock r))) /\
  users (op_db out.2) = users (op_db w) /\ mail_accounts (op_db out.2) = mail_accounts (op_db w) /\
  mailboxes (op_db out.2) = mailboxes (op_db w) /\ messages (op_db out.2) = messages (op_db w) /\
  sync_runs (op_db out.2) = sync_runs (op_db w).
Proof.
  intros n out.
  set (db1 := if effective n then exec (ReapStaleClaims (oe_now env n) (ClaimReapAfter (c_Sync c) / 1000)) (op_db w) else op_db w).
  set (db2 := if effective (S n) then exec (ReleaseStaleMutations (oe_now env (S n)) stale_change_age) db1 else db1).
  set (db3 := if effective (S (S n)) then exec (DeleteExpiredSessions (oe_now env (S (S n)))) db2 else db2).
  assert (out.1 = inr tt /\ op_db out.2 = db3) as [Hr ->].
  { unfold out, maintenance, mbind, SE_bind.
    destruct (logged_call (fun now => ReapStaleClaims now (ClaimReapAfter (c_Sync c) / 1000)) w) as [o1 ->].
    match goal with |- context [logged (call env (fun now => ReleaseStaleMutations now _)) ?w1] =>
      destruct (logged_call (fun now => ReleaseStaleMutations now stale_change_age) w1) as [o2 ->] end.
    match goal with |- context [logged (call env (fun now => DeleteExpiredSessions now)) ?w2] =>
      destruct (logged_call (fun now => DeleteExpiredSessions now) w2) as [o3 ->] end.
    done. }
  assert (mailbox_messages db3 = mailbox_messages db1 /\ pending_mutations db3 = pending_mutations db2 /\
    pending_mutations db1 = pending_mutations (op_db w)) as (Hmm & Hpm & Hpm1)
    by (unfold db3, db2, db1; destruct (effective n), (effective (S n)), (effective (S (S n))); done).
  assert (users db3 = users (op_db w) /\ mail_accounts db3 = mail_accounts (op_db w) /\ mailboxes db3 = mailboxes (op_db w) /\
    messages db3 = messages (op_db w) /\ sync_runs db3 = sync_runs (op_db w)) as Hframe
    by (unfold db3, db2, db1; destruct (effective n), (effective (S n)), (effective (S (S n))); done).
  split_and!; [done| | | | | |apply Hframe..].
  - intros He id r. rewrite Hmm. unfold db1. rewrite He. apply ReapStaleClaims_clears.
  - intros He id r. rewrite Hpm. unfold db2. rewrite He. apply ReleaseStaleMutations_clears.
  - intros He id r. unfold db3. rewrite He. apply DeleteExpiredSessions_clears.
  - intros id r Hid. rewrite Hmm. unfold db1. destruct (effective n); [|by exists r; auto].
    exists (if stale_claim (oe_now env n) (ClaimReapAfter (c_Sync c) / 1000) id r then back_to_pending r else r).
    split; [apply lookup_update_Some; by exists r|]. destruct (stale_claim _ _ _ _); auto.
  - intros id r Hid. rewrite Hpm. unfold db2. rewrite <- Hpm1 in Hid. destruct (effective (S n)); [|by exists r; auto].
    exists (if stale_lock (oe_now env (S n)) stale_change_age id r then set_pm_status MutPending (unlock r) else r).
    split; [apply lookup_update_Some; by exists r|]. destruct (stale_lock _ _ _ _); auto.
Qed.
End housekeeping.

(** * Starting and stopping *)

(** The services a configuration asks for. *)
Definition configured (c : Config) : list Service :=
  (if String.eqb (Bind (c_HTTP c)) "" then [] else [S_HTTP (Web_Enabled (c_Web c))])
  ++ (if String.eqb (MetricsBind (c_HTTP c)) "" || String.eqb (MetricsBind (c_HTTP c)) (Bind (c_HTTP c)) then [] else [S_Metrics])
  ++ (if String.eqb (PlaintextBind (c_IMAP c)) "" then [] else [S_IMAP])
  ++ (if String.eqb (TLSBind (c_IMAP c)) "" then [] else [S_IMAPS])
  ++ [S_Watch] ++ (if Sync_Enabled (c_Sync c) then [S_Sync; S_Replay; S_Maintenance] else []).
Definition is_listener (s : Service) : Prop := match s with S_HTTP _ | S_IMAP | S_IMAPS => True | _ => False end.

Section run.
Context {K S : Type}.
Variable boot : Boot K S.
Variable env : OpsEnv.
Variable IDKey : list ascii -> list ascii -> Z -> Z -> Z -> Z -> list ascii.
Variable web_New : option err.
Variable LoadX509KeyPair : string -> string -> option err.
Variable wait : list Service -> option err.
Notation run := (run boot env IDKey web_New LoadX509KeyPair wait).

Definition same_pool (r r' : Service.Run) : Prop := rn_pool r' = rn_pool r.
#[local] Instance same_pool_preorder : PreOrder same_pool.
Proof. split; [done|]. intros a b c. unfold same_pool. congruence. Qed.
Lemma same_pool_ops {A} (m : C A) : respects same_pool (with_ops m).
Proof. intros r. unfold with_ops. by destruct (m _). Qed.
Lemma same_pool_launch s : respects same_pool (launch s).
Proof. by intros r. Qed.
Lemma same_pool_when b m : respects same_pool m -> respects same_pool (when b m).
Proof. intros Hm. destruct b; [exact Hm|by intros r]. Qed.
#[local] Hint Resolve same_pool_ops same_pool_launch : respects.
Ltac pool_steps := repeat first [ progress respects_steps | apply same_pool_when ].

Lemma run_pool c r : pool_after (rn_pool r) = Some false -> pool_after (rn_pool (run c r).2) = Some false.
Proof.
  intros Hr. unfold Service.run. unfold mbind at 1, SE_bind at 1. unfold with_pool at 1.
  pose proof (Open_ok boot c (rn_pool r) Hr) as Ho. destruct (Open boot c (rn_pool r)) as [[e|app] l]; [done|].
  unfold finally at 1. match goal with |- context [let '(x, r) := ?m ?w in _] => set (body := m); set (w0 := w) end.
  assert (respects same_pool body) as Hb by (unfold body; pool_steps).
  specialize (Hb w0). unfold same_pool in Hb. destruct (body w0) as [x r']. cbn in Hb |- *. rewrite Hb.
  change (pool_after (l ++ [PoolClosed]) = Some false). by rewrite pool_after_snoc, Ho.
Qed.

Definition add (l : list Service) (r : Service.Run) : Service.Run := mk_Run (rn_pool r) (rn_ops r) (rn_services r ++ l).
Lemma launch_when {A} (b : bool) s (f : unit -> R A) r : (when b (launch s) ≫= f) r = f tt (add (if b then [s] else []) r).
Proof. destruct b, r; unfold add, when, launch, mbind, SE_bind; cbn; by rewrite ?app_nil_r. Qed.
Lemma launch_bind {A} s (f : unit -> R A) r : (launch s ≫= f) r = f tt (add [s] r).
Proof. done. Qed.
Lemma launch_loops {A} (b : bool) (f : unit -> R A) r :
  (when b (launch S_Sync ≫= fun _ => launch S_Replay ≫= fun _ => launch S_Maintenance) ≫= f) r
  = f tt (add (if b then [S_Sync; S_Replay; S_Maintenance] else []) r).
Proof. destruct b, r; unfold add, when, launch, mbind, SE_bind; cbn; by rewrite <- ?app_assoc, ?app_nil_r. Qed.
Lemma when_skip (b : bool) s : (when b (mret tt) ≫= fun _ => launch s) = launch s.
Proof. by destruct b. Qed.
Lemma add_add l1 l2 r : add l2 (add l1 r) = add (l1 ++ l2) r.
Proof. unfold add. cbn. by rewrite app_assoc. Qed.

Lemma validated_listeners ParseIP stat visit c : (forall A (l : list A), visit A l ≡ₚ l) -> Validate ParseIP stat visit c = None ->
  validate_listeners ParseIP stat visit c = [].
Proof. intros Hv Hok. unfold Validate in Hok. destruct (problems _ _ _ _) eqn:E; [|done]. unfold problems in E. rewrite !app_nil_iff in E. tauto. Qed.

(** However a start ends, and whatever the services do, the connection pool is closed
    again.  Under a validated configuration, once the database, the object store, the
    first administrator, the templates and the certificate (if one is named) are there,
    the process starts exactly the services the configuration asks for, at least one of
    them a listener, and never fails for a missing certificate; it ends with the error
    the services ended with, being told to stop not counting as one. *)
Theorem start_follows_configuration (ParseIP : list ascii -> bool) (stat : string -> option err)
    (visit : forall A : Type, list A -> list A) (c : Config) (r : Service.Run) :
  pool_after (rn_pool r) = Some false ->
  let out := run c r in
  pool_after (rn_pool out.2) = Some false /\
  ((forall A (l : list A), visit A l ≡ₚ l) -> Validate ParseIP stat visit c = None ->
   (exists app, (Open boot c (rn_pool r)).1 = inr app) -> (bootstrapUser env IDKey (c_Bootstrap c) (rn_ops r)).1 = inr tt ->
   web_New = None -> LoadX509KeyPair (TLSCertPath (c_IMAP c)) (TLSKeyPath (c_IMAP c)) = None ->
   rn_services out.2 = rn_services r ++ configured c /\ (exists s, s ∈ configured c /\ is_listener s) /\
   out.1 = match wait (rn_services out.2) with
     | Some e => if err_is e ErrCanceled then inr tt else inl e
     | None => inr tt
     end).
Proof.
  intros Hr out. split; [by apply run_pool|]. intros Hv Hok [app Happ] Hboot Hweb Hcert.
  pose proof (validated_listeners _ _ _ _ Hv Hok) as Hl. apply (listeners_nil ParseIP stat visit Hv) in Hl as (_ & Hsome & Htls).
  assert (exists tls, LoadTLS LoadX509KeyPair c = inr tls /\ (TLSBind (c_IMAP c) <> ""%string -> tls = true)) as (tls & Hload & Ht).
  { unfold LoadTLS. rewrite Hcert. destruct (String.eqb (TLSCertPath (c_IMAP c)) "" || String.eqb (TLSKeyPath (c_IMAP c)) "") eqn:E; [|by eexists].
    exists false. split; [done|]. intros Hb. exfalso. specialize (Htls Hb). rewrite !Forall_cons in Htls.
    apply orb_true_iff in E as [E%String.eqb_eq|E%String.eqb_eq]; tauto. }
  assert (exists r1 r2, rn_services r1 = rn_services r /\ rn_services r2 = rn_services (add (configured c) r1) /\
    out = (match wait (rn_services (add (configured c) r1)) with
      Some e => if err_is e ErrCanceled then inr tt else inl e | None => inr tt end, r2)) as (r1 & r2 & H1' & H2' & ->).
  { unfold out, Service.run. unfold mbind at 1, SE_bind at 1. unfold with_pool at 1.
    destruct (Open boot c (rn_pool r)) as [x l]. cbn in Happ. subst x. unfold finally.
    unfold mbind at 1, SE_bind at 1. unfold with_ops at 1. cbn [rn_ops].
    destruct (bootstrapUser env IDKey (c_Bootstrap c) (rn_ops r)) as [x o]. cbn in Hboot. subst x.
    unfold mbind at 1, SE_bind at 1. unfold with_ops at 1. cbn [rn_ops rn_pool rn_services].
    destruct (logged (call env (fun now => MarkOrphanedRuns now (staleAfter c))) o) as [x o'] eqn:Elog.
    assert (x = inr tt) as ->. { unfold logged, attempt, mbind, SE_bind in Elog. destruct (call env _ o) as [? ?]. by injection Elog. }
    rewrite Hweb. rewrite (when_skip (Web_Enabled (c_Web c))), Hload.
    assert (when (nonempty (TLSBind (c_IMAP c))) (if tls : bool then launch S_IMAPS
       else stop (ErrText "imap.tls_bind is set but no certificate could be loaded")) = when (nonempty (TLSBind (c_IMAP c))) (launch S_IMAPS)) as ->.
    { unfold nonempty. destruct (String.eqb_spec (TLSBind (c_IMAP c)) ""); [done|]. by rewrite Ht. }
    rewrite !launch_when, !add_add. exists (mk_Run l o' (rn_services r)).
    eexists. split; [done|].
    set (l0 := _ ++ _).
    assert (forall rest, (if Sync_Enabled (c_Sync c) then [S_Sync; S_Replay; S_Maintenance] else []) = rest ->
      configured c = (l0 ++ [S_Watch]) ++ rest) as Hconf.
    { intros rest <-. unfold configured, l0, nonempty. rewrite <- !app_assoc.
      by destruct (String.eqb (Bind (c_HTTP c)) ""), (String.eqb (MetricsBind (c_HTTP c)) ""),
        (String.eqb (MetricsBind (c_HTTP c)) (Bind (c_HTTP c))), (String.eqb (PlaintextBind (c_IMAP c)) ""), (String.eqb (TLSBind (c_IMAP c)) ""). }
    rewrite launch_bind, add_add, launch_loops, add_add, <- (Hconf _ eq_refl).
    unfold mbind, SE_bind, look. cbn [rn_services]. set (r2 := add (configured c) _).
    destruct (wait (rn_services r2)) as [e|]; [destruct (err_is e ErrCanceled)|]; (split; [|reflexivity]); done. }
  cbn [fst snd]. rewrite H2'. cbn [add rn_services]. rewrite H1'. split_and!; [done| |done].
  unfold configured, is_listener. destruct Hsome as [Hb|[Hb|Hb]]; apply String.eqb_neq in Hb; rewrite Hb;
    [exists S_IMAP|exists S_IMAPS|exists (S_HTTP (Web_Enabled (c_Web c)))]; (split; [|done]); rewrite !elem_of_app, !list_elem_of_singleton; tauto.
Qed.
End run.

(** The runs a dead process left are closed at the next start, and only they: a run
    still marked as running that has been silent for five heartbeats, and for two minutes
    at least, is failed, with an end and an error of its own or the one that says so; a run
    that has beaten within two minutes, and one that has ended, is left alone. *)
Theorem startup_closes_dead_runs (c : Config) (now : Z) (db : DB) (id : Z) (r : run_row) :
  rows (sync_runs db) !! id = Some r ->
  2 * 60 * 1000000 <= staleAfter c /\ 5 * HeartbeatInterval (c_Sync c) <= 1000 * staleAfter c + 999 /\
  exists r', rows (sync_runs (exec (MarkOrphanedRuns now (staleAfter c)) db)) !! id = Some r' /\
    (sr_status r = "running"%string -> sr_heartbeat_at r < now - staleAfter c ->
       sr_status r' = "failed"%string /\ sr_finished_at r' = Some now /\ is_Some (sr_error r')) /\
    (sr_status r <> "running"%string \/ now - 2 * 60 * 1000000 <= sr_heartbeat_at r -> r' = r).
Proof.
  intros Hr. assert (2 * 60 * 1000000 <= staleAfter c) as Hs.
  { unfold staleAfter, Minute, Second. apply (Z.div_le_lower_bound _ 1000); lia. }
  split; [done|]. split; [unfold staleAfter; pose proof (Z.div_mod (Z.max (5 * HeartbeatInterval (c_Sync c)) (2 * Minute)) 1000);
    pose proof (Z.mod_pos_bound (Z.max (5 * HeartbeatInterval (c_Sync c)) (2 * Minute)) 1000); lia|].
  exists (if orphaned now (staleAfter c) id r then close_run now "failed" (COALESCE_opt (sr_error r) (Some orphan_text)) r else r).
  split.
  { change (sync_runs (exec (MarkOrphanedRuns now (staleAfter c)) db)) with (update_where (orphaned now (staleAfter c))
      (fun r => close_run now "failed" (COALESCE_opt (sr_error r) (Some orphan_text)) r) (sync_runs db)).
    apply lookup_update_Some. by exists r. }
  unfold orphaned. split.
  - intros -> Hb. cbn [String.eqb]. rewrite (proj2 (Z.ltb_lt _ _) Hb). cbn. split_and!; [done..|]. by destruct (sr_error r).
  - intros [Hn|Hb]; [by rewrite (proj2 (String.eqb_neq _ _) Hn)|]. rewrite (proj2 (Z.ltb_ge _ _)) by lia. by rewrite andb_false_r.
Qed.

(** * On the example installation *)

Definition service_run (c : Config) : R unit :=
  run (mk_Boot (fun _ => inr []) (fun _ => inr tt) None None (fun _ => inr tt) (fun _ => false) (fun _ _ => inr 2%nat) : Boot nat unit)
    ops_env ex_IDKey None (fun _ _ => None) (fun _ => Some ErrCanceled) c.
Definition service_start (db : DB) : Service.Run := Service.mk_Run [] (ops_start db) [].

Lemma start_follows_configuration_witness :
  (service_run ex_config (service_start empty_db)).1 = inr tt /\
  rn_services (service_run ex_config (service_start empty_db)).2 = configured ex_config.
Proof.
  pose proof (start_follows_configuration (mk_Boot (fun _ => inr []) (fun _ => inr tt) None None (fun _ => inr tt) (fun _ => false)
      (fun _ _ => inr 2%nat) : Boot nat unit) ops_env ex_IDKey None (fun _ _ => None) (fun _ => Some ErrCanceled)
    (fun _ => false) (fun _ => None) (fun _ l => l) ex_config (service_start empty_db) eq_refl) as [_ Hs].
  destruct Hs as (Hs & _ & Hr).
  - done.
  - vm_compute. reflexivity.
  - eexists. vm_compute. reflexivity.
  - vm_compute. reflexivity.
  - reflexivity.
  - reflexivity.
  - split; [exact Hr|exact Hs].
Defined.

Definition two_accounts : list Account := select (fun _ _ => true) (mail_accounts web_db).
Lemma round_syncs_each_account_once_witness :
  gr_waiting (syncAll (inr two_accounts)) = [2; 1] /\
  exists g, nsteps (group_step 1) 4 (syncAll (inr two_accounts)) g /\ gr_done g ≡ₚ [2; 1].
Proof.
  assert (syncAll (inr two_accounts) = mk_Group [2; 1] [] []) as E by (vm_compute; reflexivity).
  assert (nsteps (group_step 1) 4 (syncAll (inr two_accounts)) (mk_Group [] [] [2; 1])) as Hn.
  { rewrite E. eapply nsteps_l; [apply Group_Go; right; cbn; lia|]. eapply nsteps_l; [apply (Group_returns 1 2 [1] [] [])|].
    eapply nsteps_l; [apply Group_Go; right; cbn; lia|]. eapply nsteps_l; [apply (Group_returns 1 1 [] [] [])|]. apply nsteps_O. }
  split; [by rewrite E|]. exists (mk_Group [] [] [2; 1]). split; [exact Hn|].
  destruct (round_syncs_each_account_once 1 two_accounts (mk_Group [] [] [2; 1]) 4 ltac:(lia) Hn) as (_ & _ & _ & Hdone).
  destruct Hdone as (_ & _ & Hp); [vm_compute; reflexivity|].
  assert (map fst two_accounts = [2; 1]) as <- by (vm_compute; reflexivity). exact Hp.
Defined.

(** A change claimed twenty minutes ago by a process that is gone. *)
Definition claimed_db : DB := exec (ex_claim 0) (exec (ex_enqueue 0 [seen_flag]) ex_db).
Definition twenty_minutes_on : OpsEnv := mk_OpsEnv (fun _ => NoFault) (fun _ db => db) (fun _ => 20 * 60 * 1000000) (inr []).
Lemma maintenance_recovers_witness : exists r r',
  rows (pending_mutations claimed_db) !! 1 = Some r /\ pm_status r = MutInFlight /\
  rows (pending_mutations (op_db (maintenance twenty_minutes_on Default (ops_start claimed_db)).2)) !! 1 = Some r' /\ pm_status r' = MutPending.
Proof.
  destruct (maintenance_recovers twenty_minutes_on (fun _ _ => eq_refl) Default (ops_start claimed_db)) as (_ & _ & Hno & _ & _ & Hall & _).
  assert ((fun r => (pm_status r, stale_lock (20 * 60 * 1000000) (15 * 60 * 1000000) 1 r)) <$> rows (pending_mutations claimed_db) !! 1
    = Some (MutInFlight, true)) as (r & Hr & [= Hs Hst])%fmap_Some by (vm_compute; reflexivity).
  destruct (Hall 1 r Hr) as (r' & Hr' & Heq). exists r, r'. split_and!; [exact Hr|by symmetry|exact Hr'|].
  destruct Heq as [->| ->]; [|reflexivity]. pose proof (Hno eq_refl 1 r Hr') as Hn. cbn [twenty_minutes_on oe_now] in Hn. congruence.
Defined.

(** A run that was started and never heard of again. *)
Definition abandoned_db : DB := exec (StartSyncRun 0 1 "scheduled") ex_db.
Lemma startup_closes_dead_runs_witness : exists r',
  rows (sync_runs (exec (MarkOrphanedRuns (3600 * 1000000) (staleAfter Default)) abandoned_db)) !! 1 = Some r' /\ sr_status r' = "failed"%string.
Proof.
  assert ((fun r => (sr_status r, sr_heartbeat_at r)) <$> rows (sync_runs abandoned_db) !! 1 = Some ("running"%string, 0))
    as (r & Hr & [= Hs Hb])%fmap_Some by (vm_compute; reflexivity).
  destruct (startup_closes_dead_runs Default (3600 * 1000000) abandoned_db 1 r Hr) as (_ & _ & r' & Hr' & Hdead & _).
  exists r'. split; [exact Hr'|]. apply Hdead; [by symmetry|]. rewrite <- Hb. vm_compute. reflexivity.
Defined.
