(* ===== verification/Mirror.v ===== *)
(** From the server to the reader: the bodies of a mailbox are claimed, downloaded and
    recorded by the sync engine (BodyPass), and served to mail clients from the database
    and the object store they ended up in (ImapSession).  What a client reads is what the
    upstream server delivered. *)
From S2P Require Import Prelude NumSet Planner GoStrings Retry Upstream Commands Schema StoreMailboxes StoreMessages StoreMutations StoreRuns StoreAccounts StoreBrowse StoreInvariant StoreSteps StoreProps Blob Text Mailstore Crypto SyncMeta SyncPass BodyPass BodyPassProps Producer ImapText ImapTextProps ImapSearch Effects ImapSession ImapConn ImapConnProps ImapTheorems ImapStore ImapFaults ImapReports.
From Stdlib Require Import String.
From stdpp Require Import strings gmap list.
Open Scope list_scope.
Open Scope Z_scope.

Section delivery.
Context {S : Type} (sha256 : bytes -> list Z) `{HB : BlobStore S} `{HL : !BlobStoreLaws sha256 S}.
Context (env : BodyEnv) (message_Read : bytes -> ReadResult) (err_bytes : err -> bytes).
Context (Hcalm : calm_bodies env) (Hsha : forall d, length (sha256 d) = 32%nat /\ is_bytes (sha256 d)).
Context (mb : Z).
Notation handler := (handle_body env message_Read err_bytes mb).

(** * Messages waiting for their bodies *)

(** UID [uid] is claimed, for a row of the mailbox whose message has no body yet. *)
Record waits (w : BodyWorld S) (uid : Z) (claim : PendingBody) (r : mm_row) (m : message_row) : Prop := mk_waits {
  wt_claim : b_claims w !! (mb, uid) = Some claim;
  wt_row : rows (mailbox_messages (b_db w)) !! pb_MailboxMessageID claim = Some r;
  wt_message : rows (messages (b_db w)) !! mm_message_id r = Some m;
  wt_bodiless : m_blob_key m = None
}.
(** Every body delivered is waited for, by a message of its own. *)
Record awaits (w : BodyWorld S) (bodies : list (Z * bytes)) : Prop := mk_awaits {
  aw_waits : forall uid data, (uid, data) ∈ bodies -> exists claim r m, waits w uid claim r m;
  aw_apart : forall uid1 uid2 c1 c2 r1 r2 m1 m2, uid1 ∈ bodies.*1 -> uid2 ∈ bodies.*1 ->
    waits w uid1 c1 r1 m1 -> waits w uid2 c2 r2 m2 -> mm_message_id r1 = mm_message_id r2 -> uid1 = uid2
}.
(** What is asked of the bodies: one per UID, none too large, and no two of them with one
    digest. *)
Record deliverable (bodies : list (Z * bytes)) : Prop := mk_deliverable {
  dl_uids : NoDup bodies.*1;
  dl_fits : forallb (fits (be_maxSize env)) bodies = true;
  dl_digests : forall b, b ∈ bodies -> content_digest (sha256 b.2);
  dl_apart : forall b1 b2, b1 ∈ bodies -> b2 ∈ bodies -> sha256 b1.2 = sha256 b2.2 -> b1.2 = b2.2
}.
Record storable_world (w : BodyWorld S) : Prop := mk_storable_world {
  sw_wf : db_wf (b_db w);
  sw_sound : blobs_sound sha256 (b_blobs w) (b_db w)
}.

Lemma deliverable_tail b bodies : deliverable (b :: bodies) -> deliverable bodies.
Proof.
  intros [Hu Hf Hd Ha]. cbn in Hu, Hf. apply NoDup_cons in Hu as [_ Hu]. apply andb_prop in Hf as [_ Hf].
  constructor; [done|done| |].
  - intros x Hx. apply Hd. by right.
  - intros x y Hx Hy. apply Ha; by right.
Qed.

(** ** One body *)

Lemma holds_content (w : BodyWorld S) id data : holds_body sha256 w id data ->
  content (b_blobs w) (NewKey TypeRFC822 (sha256 data)) = Some data.
Proof.
  intros (_ & _ & _ & _ & _ & _ & _ & Hg). destruct (Hsha data) as [Hl Hb].
  assert (Key_Valid (NewKey TypeRFC822 (sha256 data)) = true) as Hv by (by apply NewKey_valid).
  destruct (content (b_blobs w) _) as [d|] eqn:Ec.
  - rewrite (get_content sha256 _ _ d Hv Ec) in Hg. congruence.
  - by rewrite (proj1 (get_missing sha256 _ _ Hv Ec)) in Hg.
Qed.

(** A row's body stays what it is while another message's arrives. *)
Lemma holds_body_stays (w w' : BodyWorld S) id data r0 d0 :
  holds_body sha256 w id data ->
  rows (mailbox_messages (b_db w')) !! id = rows (mailbox_messages (b_db w)) !! id ->
  (forall r, rows (mailbox_messages (b_db w)) !! id = Some r -> mm_message_id r <> mm_message_id r0) ->
  keeps_bodies (mm_message_id r0) (b_db w) (b_db w') ->
  (sha256 data = sha256 d0 -> data = d0) ->
  content (b_blobs w') (NewKey TypeRFC822 (sha256 d0)) = Some d0 ->
  (forall d, sha256 d <> sha256 d0 ->
     content (b_blobs w') (NewKey TypeRFC822 (sha256 d)) = content (b_blobs w) (NewKey TypeRFC822 (sha256 d))) ->
  holds_body sha256 w' id data.
Proof.
  intros (r & m & Hr & Hst & Hm & Hd & Hk & Hg) Hrow Hne Hkeep Hsame Hnew Hold.
  destruct (Hkeep _ m (Hne r Hr) Hm) as (m' & Hm' & Ed & Ek). destruct (Hsha data) as [Hl Hb].
  exists r, m'. rewrite Hrow, Ed, Ek. split_and!; try done.
  assert (Key_Valid (NewKey TypeRFC822 (sha256 data)) = true) as Hv by (by apply NewKey_valid).
  destruct (decide (sha256 data = sha256 d0)) as [E|Hnd].
  { rewrite (Hsame E). apply (get_content sha256); [by rewrite <- (Hsame E)|done]. }
  apply (get_content sha256); [done|]. rewrite Hold by done. apply (holds_content w id). by exists r, m.
Qed.

(** What one delivery does. *)
Record delivered (w w' : BodyWorld S) (uid : Z) (data : bytes) (claim : PendingBody) (r : mm_row) : Prop := mk_delivered {
  de_world : storable_world w';
  de_holds : holds_body sha256 w' (pb_MailboxMessageID claim) data;
  de_claims : b_claims w' = delete (mb, uid) (b_claims w);
  de_rows : forall id, id <> pb_MailboxMessageID claim ->
    rows (mailbox_messages (b_db w')) !! id = rows (mailbox_messages (b_db w)) !! id;
  de_bodies : keeps_bodies (mm_message_id r) (b_db w) (b_db w');
  de_content : forall d, sha256 d <> sha256 data ->
    content (b_blobs w') (NewKey TypeRFC822 (sha256 d)) = content (b_blobs w) (NewKey TypeRFC822 (sha256 d))
}.

Lemma one_body (w : BodyWorld S) uid data claim r m : storable_world w -> content_digest (sha256 data) ->
  waits w uid claim r m ->
  exists w', handler uid (literal_size data) data w = (None, w') /\ delivered w w' uid data claim r.
Proof.
  intros [Hwf Hs] Hd [Hc Hr Hm _].
  destruct (handle_body_stores sha256 env message_Read err_bytes Hcalm Hsha w mb uid (literal_size data) data claim r m)
    as (w' & E & H1 & H2 & _ & _ & H4 & H5 & H6 & H7); [done..|].
  exists w'. split; [done|]. split; try done. split; [done|].
  pose proof (handle_body_sound sha256 Hsha env message_Read err_bytes) as Hsound.
  specialize (Hsound ltac:(intros n s db; destruct Hcalm as (_ & -> & _); done) mb uid (literal_size data) data w Hs).
  by rewrite E in Hsound.
Qed.

(** ** All of them *)

(** A message still waiting waits on, and nobody else starts to. *)
Lemma still_waits (w w' : BodyWorld S) uid data claim r m bodies uid' :
  awaits w ((uid, data) :: bodies) -> NoDup (uid :: bodies.*1) -> uid' ∈ bodies.*1 ->
  waits w uid claim r m -> delivered w w' uid data claim r ->
  (forall c' r' m', waits w uid' c' r' m' -> exists m'', waits w' uid' c' r' m'')
  /\ (forall c' r' m', waits w' uid' c' r' m' -> exists m'', waits w uid' c' r' m'').
Proof.
  intros [Haw Hap] [Hni _]%NoDup_cons Hin Hw [_ _ Hcl Hrows Hkeep _].
  assert (uid' <> uid) as Hne by congruence.
  assert (forall c' r' m', waits w uid' c' r' m' -> mm_message_id r' <> mm_message_id r) as Hdiff.
  { intros c' r' m' Hw' E. apply Hne. symmetry. by eapply Hap; [left|right|..]. }
  assert (forall c' r' m', waits w uid' c' r' m' -> pb_MailboxMessageID c' <> pb_MailboxMessageID claim) as Hids.
  { intros c' r' m' Hw' E. apply (Hdiff _ _ _ Hw'). destruct Hw as [_ Hr _ _], Hw' as [_ Hr' _ _]. rewrite E in Hr'. congruence. }
  assert (b_claims w' !! (mb, uid') = b_claims w !! (mb, uid')) as Hc by (rewrite Hcl; apply lookup_delete_ne; congruence).
  assert (forall c' r' m', waits w uid' c' r' m' -> exists m'', waits w' uid' c' r' m'') as Hon.
  { intros c' r' m' Hw'. destruct (Hw') as [Hc' Hr' Hm' Hb'].
    destruct (Hkeep _ _ (Hdiff _ _ _ Hw') Hm') as (m'' & Hm'' & _ & Ek). exists m''.
    split; [by rewrite Hc|by rewrite Hrows by (by eapply Hids)|done|congruence]. }
  split; [done|]. intros c' r' m' [Hc' Hr' Hm' Hb']. apply list_elem_of_fmap in Hin as ([u d] & E & Hin). cbn in E. subst u.
  destruct (Haw uid' d) as (c0 & r0 & m0 & Hw0); [by right|]. pose proof (wt_claim _ _ _ _ _ Hw0) as Hc0.
  assert (c' = c0) as -> by congruence. rewrite Hrows in Hr' by (by eapply Hids).
  assert (r' = r0) as -> by (destruct Hw0; congruence). by exists m0.
Qed.

Lemma awaits_tail (w w' : BodyWorld S) uid data claim r m bodies :
  awaits w ((uid, data) :: bodies) -> NoDup (uid :: bodies.*1) ->
  waits w uid claim r m -> delivered w w' uid data claim r -> awaits w' bodies.
Proof.
  intros Haw Hnd Hw Hd. split.
  - intros u d Hin. destruct (aw_waits _ _ Haw u d) as (c' & r' & m' & Hw'); [by right|].
    destruct (still_waits w w' uid data claim r m bodies u) as [Hon _]; [done..|by apply (list_elem_of_fmap_2 fst) in Hin|done|done|].
    destruct (Hon _ _ _ Hw') as [m'' ?]. by exists c', r', m''.
  - intros u1 u2 c1 c2 r1 r2 m1 m2 H1 H2 W1 W2 E.
    destruct (proj2 (still_waits w w' uid data claim r m bodies u1 Haw Hnd H1 Hw Hd) _ _ _ W1) as [? W1'].
    destruct (proj2 (still_waits w w' uid data claim r m bodies u2 Haw Hnd H2 Hw Hd) _ _ _ W2) as [? W2'].
    eapply (aw_apart _ _ Haw); [right|right|exact W1'|exact W2'|]; done.
Qed.

(** Row [id] has nothing to do with the bodies on their way. *)
Definition settled (w : BodyWorld S) (bodies : list (Z * bytes)) (id : Z) (data : bytes) : Prop :=
  holds_body sha256 w id data /\ (forall b, b ∈ bodies -> sha256 data = sha256 b.2 -> data = b.2) /\
  forall uid c r m r', uid ∈ bodies.*1 -> waits w uid c r m -> rows (mailbox_messages (b_db w)) !! id = Some r' ->
    mm_message_id r' <> mm_message_id r.

Lemma settled_tail (w w' : BodyWorld S) uid d claim r m bodies id data :
  awaits w ((uid, d) :: bodies) -> NoDup (uid :: bodies.*1) -> waits w uid claim r m -> delivered w w' uid d claim r ->
  settled w ((uid, d) :: bodies) id data -> settled w' bodies id data.
Proof.
  intros Haw Hnd Hw Hd (Hh & Hsame & Hdiff). pose proof Hd as [_ Hnew _ Hrows Hkeep Hcont].
  assert (id <> pb_MailboxMessageID claim) as Hid.
  { intros ->. destruct Hh as (r' & m' & Hr' & _). apply (Hdiff uid claim r m r'); [left|done..|]. destruct Hw. congruence. }
  split_and!.
  - eapply holds_body_stays; [exact Hh|by apply Hrows| |exact Hkeep|exact (Hsame (uid, d) (list_elem_of_here _ _))|by eapply holds_content|done].
    intros r' Hr'. apply (Hdiff uid claim r m r'); [left|done..].
  - intros b Hb. apply Hsame. by right.
  - intros u c' r0 m' r' Hin Hw' Hr'. rewrite Hrows in Hr' by done.
    destruct (proj2 (still_waits w w' uid d claim r m bodies u Haw Hnd Hin Hw Hd) _ _ _ Hw') as [m'' Hw''].
    eapply Hdiff; [right; exact Hin|exact Hw''|exact Hr'].
Qed.

Lemma handle_one uid data (w w' : BodyWorld S) : fits (be_maxSize env) (uid, data) = true ->
  handler uid (literal_size data) data w = (None, w') ->
  handleBodyMessage (be_maxSize env) handler (body_message (uid, data)) w = (None, w').
Proof. unfold fits, handleBodyMessage, body_message. cbn. intros ->%negb_true_iff E. cbn. by rewrite E. Qed.

Lemma all_bodies bodies (w : BodyWorld S) : storable_world w -> deliverable bodies -> awaits w bodies ->
  exists w', fetch_loop (be_maxSize env) handler (map body_message bodies) w = (None, w') /\ storable_world w'
    /\ (forall uid data c r m, (uid, data) ∈ bodies -> waits w uid c r m -> holds_body sha256 w' (pb_MailboxMessageID c) data)
    /\ forall id data, settled w bodies id data -> holds_body sha256 w' id data.
Proof.
  revert w. induction bodies as [|[uid data] bodies IH]; intros w Hw Hdl Haw.
  { exists w. split_and!; [done..|by intros ????? ?%not_elem_of_nil|]. by intros id data [? _]. }
  pose proof (deliverable_tail _ _ Hdl) as Htl. destruct Hdl as [Hnd Hfit Hdig Hap]. cbn in Hnd, Hfit.
  apply andb_prop in Hfit as [Hfit _].
  destruct (aw_waits _ _ Haw uid data) as (c & r & m & Hwt); [left|].
  destruct (one_body w uid data c r m Hw (Hdig (uid, data) (list_elem_of_here _ _)) Hwt) as (w1 & E1 & Hd).
  destruct (IH w1 (de_world _ _ _ _ _ _ Hd) Htl (awaits_tail _ _ _ _ _ _ _ _ Haw Hnd Hwt Hd)) as (w' & E & Hw' & Hall & Hset).
  exists w'. cbn [map fetch_loop]. rewrite (handle_one _ _ _ _ Hfit E1). split_and!; [done|done| |].
  - intros u d c' r' m' [[= -> ->]|Hin]%elem_of_cons Hwt'.
    + assert (c' = c) as -> by (destruct Hwt, Hwt'; congruence). apply Hset. pose proof (de_holds _ _ _ _ _ _ Hd) as Hh.
      split_and!; [done|intros b Hb; apply (Hap (uid, data) b); [left|by right]|].
      intros u c1 r1 m1 r0 Hin [_ _ Hm1 Hb1] Hr0 Eid. destruct Hh as (rn & mn & Hrn & _ & Hmn & _ & Hkn & _). congruence.
    + assert (u ∈ bodies.*1) as Hu by (by apply (list_elem_of_fmap_2 fst) in Hin).
      destruct (proj1 (still_waits w w1 uid data c r m bodies u Haw Hnd Hu Hwt Hd) _ _ _ Hwt') as [m'' Hw1].
      by eapply Hall.
  - intros id d Hs. apply Hset. by eapply settled_tail.
Qed.

(** * Claiming *)

(** What claiming finds right after a metadata pass: the rows of the mailbox that have no
    body have a message of their own, without one. *)
Definition unfetched (db : DB) : Prop := forall id r, rows (mailbox_messages db) !! id = Some r ->
  mm_mailbox_id r = mb -> mm_body_state r = BodyPending ->
  (forall m, rows (messages db) !! mm_message_id r = Some m -> m_blob_key m = None) /\
  forall id' r', rows (mailbox_messages db) !! id' = Some r' -> mm_message_id r' = mm_message_id r -> id' = id.

Lemma claims_lookup claimed t uid c : uid ∈ map (fun c => u32 (pb_UpstreamUID c)) claimed ->
  remember mb (by_uid claimed) t !! (mb, uid) = Some c -> c ∈ claimed /\ u32 (pb_UpstreamUID c) = uid.
Proof.
  intros [c' Hc']%by_uid_lookup. rewrite remember_lookup, decide_True, Hc' by done. intros [= <-]. by apply by_uid_lookup.
Qed.

(** A claim, seen from the database before. *)
Definition claim_of (db0 db1 : DB) (now : Z) (c : PendingBody) (r : mm_row) : Prop :=
  rows (mailbox_messages db0) !! pb_MailboxMessageID c = Some r /\ mm_mailbox_id r = mb /\ mm_body_state r = BodyPending
  /\ mm_upstream_uid r = Some (pb_UpstreamUID c)
  /\ rows (mailbox_messages db1) !! pb_MailboxMessageID c = Some (start_fetching now r).

Lemma claimed_claims db0 db1 now locked returning limit maxAttempts claimed :
  db_wf db0 -> 0 <= limit -> (forall l, returning l ≡ₚ l) ->
  ClaimPendingBodies now locked returning mb limit maxAttempts db0 = (inr claimed, db1) ->
  messages db1 = messages db0 /\ db_wf db1 /\ forall c, c ∈ claimed -> exists r, claim_of db0 db1 now c r.
Proof.
  intros Hwf Hlim Hret E.
  destruct (ClaimPendingBodies_claims now locked returning mb limit maxAttempts db0 Hwf Hlim Hret)
    as (out & db' & E' & _ & _ & Hout & Hrows & _).
  rewrite E in E'. injection E' as <- <-. split_and!.
  - unfold ClaimPendingBodies in E. by injection E as _ <-.
  - pose proof (ClaimPendingBodies_wf now locked returning mb limit maxAttempts db0 Hwf) as H. unfold exec in H. by rewrite E in H.
  - intros c Hc. destruct (Hout c Hc) as (r & Hr & Hcl & _ & Hu & _). unfold claimable in Hcl.
    rewrite !andb_true_iff, Z.eqb_eq, !bool_decide_eq_true in Hcl. destruct Hcl as [[[Hmb Hst] _] _]. exists r. split_and!; try done.
    rewrite Hrows, decide_True, Hr by (by apply (list_elem_of_fmap_2 pb_MailboxMessageID)). done.
Qed.

Lemma claimed_awaited db0 db1 now locked returning limit maxAttempts claimed t bodies (w : BodyWorld S) :
  db_wf db0 -> 0 <= limit -> (forall l, returning l ≡ₚ l) -> unfetched db0 ->
  ClaimPendingBodies now locked returning mb limit maxAttempts db0 = (inr claimed, db1) ->
  b_db w = db1 -> b_claims w = remember mb (by_uid claimed) t ->
  (forall uid, uid ∈ bodies.*1 -> uid ∈ map (fun c => u32 (pb_UpstreamUID c)) claimed) -> awaits w bodies.
Proof.
  intros Hwf Hlim Hret Hun E Hdb Hcl Hin.
  destruct (claimed_claims db0 db1 now locked returning limit maxAttempts claimed Hwf Hlim Hret E) as (Hmsgs & Hwf1 & Hof).
  assert (forall uid c r m, uid ∈ bodies.*1 -> waits w uid c r m -> exists r0,
    claim_of db0 db1 now c r0 /\ r = start_fetching now r0 /\ u32 (pb_UpstreamUID c) = uid) as Hw.
  { intros uid c r m Hu [Hc Hr _ _]. rewrite Hcl in Hc. destruct (claims_lookup _ _ _ _ (Hin uid Hu) Hc) as [Hc' Eu].
    destruct (Hof c Hc') as (r0 & Hr0). exists r0. split_and!; [done| |done].
    destruct Hr0 as (_ & _ & _ & _ & Hr1). rewrite Hdb in Hr. congruence. }
  split.
  - intros uid data Hb. assert (uid ∈ bodies.*1) as Hu by (by apply (list_elem_of_fmap_2 fst) in Hb).
    destruct (proj2 (by_uid_lookup claimed uid) (Hin uid Hu)) as [c Hc].
    destruct (Hof c) as (r & H0 & Hmb & Hst & Hup & H1'); [by apply by_uid_lookup in Hc as [? _]|].
    destruct (wf_mm_message _ Hwf _ _ _ H0 eq_refl) as [m Hm].
    exists c, (start_fetching now r), m. split; [|by rewrite Hdb|by rewrite Hdb, Hmsgs|].
    + by rewrite Hcl, remember_lookup, decide_True, Hc by done.
    + destruct (Hun _ _ H0 Hmb Hst) as [Hb' _]. by apply Hb'.
  - intros u1 u2 c1 c2 r1 r2 m1 m2 Hu1 Hu2 W1 W2 Eid.
    destruct (Hw _ _ _ _ Hu1 W1) as (s1 & (H1' & Hmb & Hst & Hup1 & _) & -> & <-).
    destruct (Hw _ _ _ _ Hu2 W2) as (s2 & (H2' & _ & _ & Hup2 & _) & -> & <-).
    destruct (Hun _ _ H1' Hmb Hst) as [_ Hone]. specialize (Hone _ _ H2' (eq_sym Eid)). rewrite Hone in H2'.
    f_equal. congruence.
Qed.

(** * A batch *)

Lemma batch_held db0 db1 now locked returning limit maxAttempts claimed t bodies batch (w : BodyWorld S) :
  db_wf db0 -> blobs_sound sha256 (b_blobs w) db0 -> 0 <= limit -> (forall l, returning l ≡ₚ l) ->
  unfetched db0 -> uids_are_u32 mb db0 ->
  ClaimPendingBodies now locked returning mb limit maxAttempts db0 = (inr claimed, db1) ->
  b_db w = db1 -> b_claims w = remember mb (by_uid claimed) t -> deliverable bodies ->
  (forall uid, uid ∈ bodies.*1 -> uid ∈ map (fun c => u32 (pb_UpstreamUID c)) claimed) ->
  exists w', fetchBatch env message_Read err_bytes mb batch (mk_Response None None "" (map body_message bodies) None false) w
      = (None, false, w')
    /\ forall id r uid data, rows (mailbox_messages db0) !! id = Some r -> mm_mailbox_id r = mb -> mm_upstream_uid r = Some uid ->
         (uid, data) ∈ bodies -> holds_body sha256 w' id data.
Proof.
  intros Hwf Hs Hlim Hret Hun Hrange E Hdb Hcl Hdl Hin.
  destruct (claimed_claims db0 db1 now locked returning limit maxAttempts claimed Hwf Hlim Hret E) as (Hmsgs & Hwf1 & Hof).
  pose proof (claimed_awaited db0 db1 now locked returning limit maxAttempts claimed t bodies w Hwf Hlim Hret Hun E Hdb Hcl Hin) as Haw.
  destruct (all_bodies bodies w) as (w' & El & _ & Hall & _); [split; [by rewrite Hdb|rewrite Hdb; by apply (sound_same sha256 _ db0)]|done|done|].
  exists (count_command w'). split.
  { unfold fetchBatch, FetchBodies. cbn [rs_before rs_after rs_remaining rs_messages rs_close rs_poisoned checkUsable].
    by rewrite El. }
  intros id r uid data Hr Hmb Hup Hb. destruct (aw_waits _ _ Haw uid data Hb) as (c & r' & m & Hw).
  assert (id = pb_MailboxMessageID c) as ->; [|exact (Hall uid data c r' m Hb Hw)].
  assert (uid ∈ bodies.*1) as Hu by (by apply (list_elem_of_fmap_2 fst) in Hb).
  pose proof (wt_claim _ _ _ _ _ Hw) as Hc. rewrite Hcl in Hc. destruct (claims_lookup _ _ _ _ (Hin uid Hu) Hc) as [Hc' Eu].
  destruct (Hof c Hc') as (r0 & Hr0 & Hmb0 & Hst0 & Hup0 & _).
  rewrite u32_id in Eu by (by eapply Hrange). subst uid.
  eapply (wf_upstream_index _ Hwf); [exact Hr|exact Hr0| |]; unfold upstream_index; rewrite ?Hup, ?Hup0; [done|].
  cbn. congruence.
Qed.
End delivery.

(** * Serving *)

Definition whole_section : BodySection := mk_BodySection PartSpecifierNone [] [] None.
(** FETCH of [BODY.PEEK[]]. *)
Definition whole : FetchOptions := mk_FetchOptions false false false false false false [whole_section].

Section serving.
Context {S : Type} (sha256 : bytes -> list Z) `{HB : BlobStore S} `{HL : !BlobStoreLaws sha256 S}.
Context (Hsha : forall d, length (sha256 d) = 32%nat /\ is_bytes (sha256 d)).

(** A mail client with an open mailbox, nothing of which fails and whom nobody disturbs. *)
Record undisturbed (env : ClientEnv) (c : Client S) : Prop := mk_undisturbed {
  un_alone : forall n db, ce_others env n db = db;
  un_store : forall n, ce_fault env n = NoFault;
  un_write : forall n, ce_write env n = None;
  un_get : forall n, ce_get env n = None;
  un_encoder : cl_encMutex c = false;
  un_user : ss_user (cl_session c) <> None;
  un_account : ss_account (cl_session c) <> None;
  un_mailbox : ss_mailbox (cl_session c) <> None
}.

Lemma holds_raw (w : BodyWorld S) id data : holds_body sha256 w id data ->
  exists size, (RawMessage id (b_db w)).1 = inr (NewKey TypeRFC822 (sha256 data), size).
Proof.
  intros (r & m & Hr & _ & Hm & _ & Hk & _). exists (m_rfc822_size m). unfold RawMessage. rewrite Hr. cbn. by rewrite Hm, Hk.
Qed.

Lemma holds_body_fun (w : BodyWorld S) id data data' : holds_body sha256 w id data -> holds_body sha256 w id data' -> data = data'.
Proof.
  intros (r & m & Hr & _ & Hm & Hd & _ & Hg) (r' & m' & Hr' & _ & Hm' & Hd' & _ & Hg').
  assert (r' = r) as -> by congruence. assert (m' = m) as -> by congruence. congruence.
Qed.

Lemma fetched_whole (env : ClientEnv) zone message_Read err_bytes (w : BodyWorld S) (c : Client S) n :
  undisturbed env c -> cl_db c = b_db w -> cl_blobs c = b_blobs w ->
  (forall item, item ∈ resolve n (ss_snapshot (cl_session c)) -> exists data, holds_body sha256 w (ms_MailboxMessageID item.2) data) ->
  exists c' replies, Fetch env zone message_Read err_bytes n whole c = (inr tt, c') /\ cl_out c' = cl_out c ++ replies
    /\ Forall2 (fun item reply => exists data, holds_body sha256 w (ms_MailboxMessageID item.2) data
          /\ reply = Fetched item.1 [ItemSection whole_section data]) (resolve n (ss_snapshot (cl_session c))) replies.
Proof.
  intros [Ha Hst Hwr Hg Henc Hu Hac Hm] Hdb Hbl Hheld.
  assert (forall item data, holds_body sha256 w (ms_MailboxMessageID item.2) data ->
    fetch_reply zone message_Read err_bytes (cl_db c) (cl_blobs c) whole item = Fetched item.1 [ItemSection whole_section data]) as Hreply.
  { intros item data Hh. destruct (holds_raw w _ data Hh) as [size Er]. unfold fetch_reply, stored_raw.
    by rewrite Hdb, Hbl, Er, (holds_content sha256 Hsha w _ _ Hh). }
  destruct (writeMessages_calm sha256 env zone message_Read err_bytes Ha Hst Hwr Hg whole (resolve n (ss_snapshot (cl_session c))) c Henc)
    as (c' & E & _ & Eo).
  { intros item Hin key size Hk. destruct (Hheld item Hin) as [data Hh]. destruct (holds_raw w _ data Hh) as [size' Er].
    rewrite Hdb, Er in Hk. injection Hk as <- _. by apply NewKey_valid; [|apply Hsha|apply Hsha]. }
  eexists c', _. split_and!; [|exact Eo|].
  { unfold Fetch. unfold mbind at 1, SE_bind at 1. rewrite requireMailbox_eq.
    destruct (ss_user _), (ss_account _), (ss_mailbox _); done. }
  clear E Eo. induction (resolve n (ss_snapshot (cl_session c))) as [|item items IH]; [constructor|]. cbn [map]. constructor.
  - destruct (Hheld item) as [data Hh]; [left|]. exists data. split; [done|by apply Hreply].
  - apply IH. intros x Hx. apply Hheld. by right.
Qed.
End serving.

(** [C6] What a mail client reads is what the upstream server delivered.  Take a mailbox
    after its metadata pass, with messages whose bodies have not been fetched; a worker
    claims some and downloads a batch of them, the server delivering one body for each of
    some UIDs (none over the size limit, no two with one digest).  Then the batch
    succeeds, and every mail client that addresses any of those messages afterwards, in
    any order and under any numbers, gets with BODY[] exactly the octets the server sent
    under that message's UID, one reply per message, whatever other messages of the
    account have the same content. *)
Theorem clients_read_what_was_delivered {S : Type} (sha256 : bytes -> list Z) `{BlobStoreLaws sha256 S} (env : BodyEnv)
    (message_Read : bytes -> ReadResult) (err_bytes : err -> bytes) (mb now limit maxAttempts : Z) (locked : Z -> bool)
    (returning : list PendingBody -> list PendingBody) (db0 db1 : DB) (claimed : list PendingBody) (t : claimTable)
    (batch : list SizedUID) (bodies : list (Z * bytes)) (w : BodyWorld S) :
  (forall d, length (sha256 d) = 32%nat /\ is_bytes (sha256 d)) -> calm_bodies env ->
  db_wf db0 -> blobs_sound sha256 (b_blobs w) db0 -> unfetched mb db0 -> uids_are_u32 mb db0 ->
  0 <= limit -> (forall l, returning l ≡ₚ l) ->
  ClaimPendingBodies now locked returning mb limit maxAttempts db0 = (inr claimed, db1) ->
  b_db w = db1 -> b_claims w = remember mb (by_uid claimed) t ->
  deliverable sha256 env bodies -> (forall uid, uid ∈ bodies.*1 -> uid ∈ map (fun c => u32 (pb_UpstreamUID c)) claimed) ->
  exists w', fetchBatch env message_Read err_bytes mb batch (mk_Response None None "" (map body_message bodies) None false) w
      = (None, false, w')
    /\ forall (cenv : ClientEnv) (zone : Z -> Z) (c : Client S) (n : NumSet_),
      undisturbed cenv c -> cl_db c = b_db w' -> cl_blobs c = b_blobs w' ->
      (forall item, item ∈ resolve n (ss_snapshot (cl_session c)) -> exists r uid,
         rows (mailbox_messages db0) !! ms_MailboxMessageID item.2 = Some r /\ mm_mailbox_id r = mb
         /\ mm_upstream_uid r = Some uid /\ uid ∈ bodies.*1) ->
      exists c' replies, Fetch cenv zone message_Read err_bytes n whole c = (inr tt, c') /\ cl_out c' = cl_out c ++ replies
        /\ Forall2 (fun item reply => exists r uid data,
             rows (mailbox_messages db0) !! ms_MailboxMessageID item.2 = Some r /\ mm_upstream_uid r = Some uid
             /\ (uid, data) ∈ bodies /\ reply = Fetched item.1 [ItemSection whole_section data])
             (resolve n (ss_snapshot (cl_session c))) replies.
Proof.
  intros Hsha Hcalm Hwf Hs Hun Hrange Hlim Hret E Hdb Hcl Hdl Hin.
  destruct (batch_held sha256 env message_Read err_bytes Hcalm Hsha mb db0 db1 now locked returning limit maxAttempts claimed t bodies
    batch w) as (w' & Ef & Hheld); [done..|]. exists w'. split; [done|].
  intros cenv zone c n Hun' Ecdb Ecbl Haddr.
  assert (forall item, item ∈ resolve n (ss_snapshot (cl_session c)) -> exists r uid data,
    rows (mailbox_messages db0) !! ms_MailboxMessageID item.2 = Some r /\ mm_upstream_uid r = Some uid /\ (uid, data) ∈ bodies
    /\ holds_body sha256 w' (ms_MailboxMessageID item.2) data) as Hitems.
  { intros item Hi. destruct (Haddr item Hi) as (r & uid & Hr & Hmb & Hup & Hu).
    apply list_elem_of_fmap in Hu as ([u data] & -> & Hb). exists r, u, data. split_and!; [done..|]. by eapply Hheld. }
  destruct (fetched_whole sha256 Hsha cenv zone message_Read err_bytes w' c n Hun' Ecdb Ecbl) as (c' & replies & E' & Eo & Hall).
  { intros item Hi. destruct (Hitems item Hi) as (_ & _ & data & _ & _ & _ & Hh). by exists data. }
  exists c', replies. split_and!; [done..|]. apply Forall2_same_length_lookup. split; [by eapply Forall2_length|].
  intros i item reply Hi Hr. destruct (Forall2_lookup_lr _ _ _ _ _ _ Hall Hi Hr) as (data & Hh & ->).
  destruct (Hitems item) as (r & uid & data' & H1' & H2' & H3' & Hh'); [by eapply list_elem_of_lookup_2|].
  exists r, uid, data'. split_and!; [done..|]. do 3 f_equal. by eapply holds_body_fun.
Qed.

(** ** On the example mailbox: two messages with one content, and one not fetched *)

Lemma ex_unfetched : unfetched 1 ex_db.
Proof.
  assert (map_Forall (fun id r => mm_message_id r = id) (rows (mailbox_messages ex_db))) as Hall
    by (refine (bool_decide_unpack _ _); vm_compute; exact I).
  intros id r Hr _ _. split; [intros m Hm; exact (ex_db_no_bodies _ _ Hm)|]. intros id' r' Hr'. rewrite (Hall id r Hr), (Hall id' r' Hr'). done.
Qed.

Definition ex_claimed : list PendingBody * DB :=
  match ClaimPendingBodies 5 (fun _ => false) (fun l => l) 1 2 5 ex_db with (inr l, db) => (l, db) | (inl _, db) => ([], db) end.
Definition ex_delivered : list (Z * bytes) := [(13, lit "hello"); (12, lit "hello")].
Definition ex_claiming_world : BodyWorld MemStore :=
  mk_BodyWorld NewMemStore ex_claimed.2 (remember 1 (by_uid ex_claimed.1) newClaimTable) (newProgress 1) 0 0 0.
Definition ex_batch_world : BodyWorld MemStore :=
  (@fetchBatch MemStore (Mem_BlobStore ex_sha) ex_body_env ex_read (fun _ => []) 1 [mkSized 13 100; mkSized 12 100]
    (mk_Response None None "" (map body_message ex_delivered) None false) ex_claiming_world).2.
Definition ex_reader : Client MemStore :=
  mk_Client Selected (mk_session (ss_user (cl_session ex_opened)) (ss_account (cl_session ex_opened)) (ss_mailbox (cl_session ex_opened)) true
    (uid_listing 1 (b_db ex_batch_world))) (b_db ex_batch_world) (b_blobs ex_batch_world) 0 [] false.

Lemma clients_read_what_was_delivered_witness : exists c',
  @Fetch MemStore (Mem_BlobStore ex_sha) calm (fun _ => 0) ex_read (fun _ => []) (SeqSet [mkRange 2 3]) whole ex_reader = (inr tt, c')
  /\ cl_out c' = [Fetched 2 [ItemSection whole_section (lit "hello")]; Fetched 3 [ItemSection whole_section (lit "hello")]].
Proof.
  destruct (@clients_read_what_was_delivered MemStore ex_sha (Mem_BlobStore ex_sha) (Mem_laws ex_sha) ex_body_env ex_read (fun _ => []) 1 5 2 5
    (fun _ => false) (fun l => l) ex_db ex_claimed.2 ex_claimed.1 newClaimTable [mkSized 13 100; mkSized 12 100] ex_delivered ex_claiming_world
    ex_sha_ok (conj (fun _ => eq_refl) (conj (fun _ _ => eq_refl) (conj (fun _ => eq_refl) (fun _ => eq_refl)))) ex_db_wf (ex_db_sound NewMemStore))
    as (w' & Ew & Hserve).
  - exact ex_unfetched.
  - exact ex_uids.
  - lia.
  - done.
  - vm_compute. reflexivity.
  - reflexivity.
  - reflexivity.
  - split; [refine (bool_decide_unpack _ _); vm_compute; exact I|vm_compute; reflexivity| |].
    + intros b Hb. assert (forallb (fun b => bool_decide (content_digest (ex_sha b.2))) ex_delivered = true) as Hall by (vm_compute; reflexivity).
      rewrite forallb_forall in Hall. by apply (bool_decide_eq_true_1 (content_digest (ex_sha b.2))), Hall, list_elem_of_In.
    + intros b1 b2 H1 H2 _. unfold ex_delivered in *. rewrite !elem_of_cons in H1, H2.
      destruct H1 as [->|[->|?%not_elem_of_nil]], H2 as [->|[->|?%not_elem_of_nil]]; done.
  - intros uid Hu. assert (forallb (fun u => bool_decide (u ∈ map (fun c => u32 (pb_UpstreamUID c)) ex_claimed.1)) ex_delivered.*1 = true) as Hall
      by (vm_compute; reflexivity). rewrite forallb_forall in Hall.
    apply (bool_decide_eq_true_1 (uid ∈ map (fun c => u32 (pb_UpstreamUID c)) ex_claimed.1)), Hall, list_elem_of_In, Hu.
  - assert (w' = ex_batch_world) as -> by (unfold ex_batch_world; by rewrite Ew).
    assert (map (fun item : Z * MessageSummary => (item.1, ms_MailboxMessageID item.2))
      (resolve (SeqSet [mkRange 2 3]) (ss_snapshot (cl_session ex_reader))) = [(2, 2); (3, 3)]) as Eaddr by (vm_compute; reflexivity).
    destruct (Hserve calm (fun _ => 0) ex_reader (SeqSet [mkRange 2 3])) as (c' & replies & E & Eo & Hall); [by split; vm_compute|done|done| |].
    + intros item Hitem. assert ((item.1, ms_MailboxMessageID item.2) ∈ [(2, 2); (3, 3)]) as Hin.
      { rewrite <- Eaddr. exact (list_elem_of_fmap_2 (fun item : Z * MessageSummary => (item.1, ms_MailboxMessageID item.2)) _ _ Hitem). }
      assert (forall id uid, (fun r => (mm_mailbox_id r, mm_upstream_uid r)) <$> rows (mailbox_messages ex_db) !! id = Some (1, Some uid) ->
        uid ∈ ex_delivered.*1 -> exists r u, rows (mailbox_messages ex_db) !! id = Some r /\ mm_mailbox_id r = 1
          /\ mm_upstream_uid r = Some u /\ u ∈ ex_delivered.*1) as Hrow.
      { intros id uid (r & Hr & [= Hmb Hup])%fmap_Some Hu. exists r, uid. by split_and!. }
      revert Hin. generalize (ms_MailboxMessageID item.2), item.1. clear item Hitem. intros id k Hin.
      rewrite !elem_of_cons, elem_of_nil in Hin. destruct Hin as [[= _ ->]|[[= _ ->]|[]]].
      * apply (Hrow 2 12); [vm_compute; reflexivity|right; left].
      * apply (Hrow 3 13); [vm_compute; reflexivity|left].
    + exists c'. split; [exact E|]. change (cl_out c' = replies) in Eo. rewrite Eo.
      match type of Hall with Forall2 _ ?l _ =>
        change (map (fun item : Z * MessageSummary => (item.1, ms_MailboxMessageID item.2)) l = [(2, 2); (3, 3)]) in Eaddr;
        revert Hall Eaddr; clear; generalize l end.
      intros [|a [|b [|]]] Hall Eaddr; try discriminate Eaddr. injection Eaddr as Ea _ Eb _.
      assert (forall uid data, (uid, data) ∈ ex_delivered -> data = lit "hello") as Hello.
      { intros uid data Hin. unfold ex_delivered in Hin. rewrite !elem_of_cons, elem_of_nil in Hin.
        by destruct Hin as [[= _ ->]|[[= _ ->]|[]]]. }
      apply Forall2_cons_inv_l in Hall as (x & l & (r & u & d & _ & _ & Hd & ->) & Hall & ->).
      apply Forall2_cons_inv_l in Hall as (x & l' & (r' & u' & d' & _ & _ & Hd' & ->) & Hall & ->).
      apply Forall2_nil_inv_l in Hall as ->. by rewrite (Hello _ _ Hd), (Hello _ _ Hd'), Ea, Eb.
Defined.
