(* ===== verification/Download.v ===== *)
(** A whole download: rounds of the producer and bodies arriving at the workers, in any
    interleaving (internal/syncer/mailbox.go: bodyPass), until nothing is left to claim. *)
From S2P Require Import Prelude NumSet Planner GoStrings Retry Upstream Commands Text Schema StoreMailboxes StoreMessages StoreInvariant StoreSteps StoreProps Blob Mailstore SyncMeta SyncPass BodyPass BodyPassProps Producer Mirror.
From Stdlib Require Import String.
From stdpp Require Import strings gmap list.
Open Scope list_scope.
Open Scope Z_scope.

Section download.
Context {S : Type} (sha256 : bytes -> list Z) `{HB : BlobStore S} `{HL : !BlobStoreLaws sha256 S}.
Context (env : BodyEnv) (message_Read : bytes -> ReadResult) (err_bytes : err -> bytes).
Context (accountID mb limit : Z) (budget : BatchBudget).
(** The message the server has under each UID. *)
Context (server : Z -> bytes).
Notation BW := (BodyWorld S).
Notation handler := (handle_body env message_Read err_bytes mb).
Notation ids_row w id := (rows (mailbox_messages (b_db w)) !! id).

(** * The pass *)

(** The batches sent and not done with, each with the messages still to arrive, and the
    world the workers share.  A round sends more batches; a body of some batch arrives, the
    bodies of a batch in any order, and is handled; a batch is done once all have. *)
Definition pass : Type := list (list SizedUID) * BW.
Inductive pass_step : pass -> pass -> Prop :=
| pass_round now locked returning out w batches w' : (forall l, returning l ≡ₚ l) ->
    produce env now locked returning accountID mb limit budget None w = (Sends batches, w') ->
    pass_step (out, w) (out ++ batches, w')
| pass_body out1 b1 msg b2 out2 w w' :
    handleBodyMessage (be_maxSize env) handler (body_message (UID msg, server (UID msg))) w = (None, w') ->
    pass_step (out1 ++ (b1 ++ msg :: b2) :: out2, w) (out1 ++ (b1 ++ b2) :: out2, w')
| pass_batch out1 out2 w : pass_step (out1 ++ [] :: out2, w) (out1 ++ out2, count_command w).

Definition uids_out (out : list (list SizedUID)) : list Z := map UID (concat out).

(** What a worker does with a batch the server answers in full is such a sequence of steps. *)
Lemma fetchBatch_steps out1 batch out2 (w w' : BW) :
  let msgs := map (fun msg => body_message (UID msg, server (UID msg))) batch in
  fetch_loop (be_maxSize env) handler msgs w = (None, w') ->
  fetchBatch env message_Read err_bytes mb batch (mk_Response None None "" msgs None false) w = (None, false, count_command w')
  /\ rtc pass_step (out1 ++ batch :: out2, w) (out1 ++ out2, count_command w').
Proof.
  intros msgs E. split.
  { unfold fetchBatch, FetchBodies. cbn [rs_before rs_after rs_remaining rs_messages rs_close rs_poisoned checkUsable]. by rewrite E. }
  eapply rtc_r; [|apply pass_batch]. subst msgs. revert w E.
  induction batch as [|msg batch IH]; intros w; cbn [map fetch_loop]; [by intros [= <-]|].
  destruct (handleBodyMessage _ _ _ w) as [[e|] w1] eqn:E; [done|]. intros El.
  eapply rtc_l; [exact (pass_body out1 [] msg batch out2 w w1 E)|]. by apply IH.
Qed.

(** * What holds all along *)

Context (Hcalm : calm_bodies env) (Hsha : forall d, length (sha256 d) = 32%nat /\ is_bytes (sha256 d)) (Hlimit : 1 <= limit).
Context (Hfits : forall uid, fits (be_maxSize env) (uid, server uid) = true).
Context (Hdigest : forall uid, content_digest (sha256 (server uid))).
Context (Happart : forall uid uid', sha256 (server uid) = sha256 (server uid') -> server uid = server uid').
Notation claims_it := (claimable mb (be_maxAttempts env)).

(** The message of row [id] is that row's only, and has no body. *)
Definition alone (db : DB) (id : Z) (r : mm_row) : Prop :=
  rows (mailbox_messages db) !! id = Some r
  /\ (forall m, rows (messages db) !! mm_message_id r = Some m -> m_blob_key m = None)
  /\ forall id' r', rows (mailbox_messages db) !! id' = Some r' -> mm_message_id r' = mm_message_id r -> id' = id.

(** UID [uid] is being fetched, for row [id]. *)
Record fetching (w : BW) (uid id : Z) : Prop := mk_fetching {
  fe_claim : exists claim, b_claims w !! (mb, uid) = Some claim /\ pb_MailboxMessageID claim = id;
  fe_row : exists r, alone (b_db w) id r /\ mm_mailbox_id r = mb /\ mm_upstream_uid r = Some uid /\ mm_body_state r = BodyFetching
}.

Record pass_inv (w0 : BW) (out : list (list SizedUID)) (w : BW) : Prop := mk_pass_inv {
  pi_world : storable_world sha256 w;
  pi_unfetched : unfetched mb (b_db w);
  pi_uids : uids_are_u32 mb (b_db w);
  pi_nodup : NoDup (uids_out out);
  pi_out : forall uid, uid ∈ uids_out out -> exists id, fetching w uid id;
  pi_rows : forall id r uid, ids_row w0 id = Some r -> claims_it id r = true -> mm_upstream_uid r = Some uid ->
    ids_row w id = Some r \/ (uid ∈ uids_out out /\ fetching w uid id) \/ holds_body sha256 w id (server uid);
  pi_kept : forall id data, holds_body sha256 w0 id data ->
    (forall uid, sha256 data = sha256 (server uid) -> data = server uid) -> holds_body sha256 w id data
}.

Lemma start_inv w0 : storable_world sha256 w0 -> unfetched mb (b_db w0) -> uids_are_u32 mb (b_db w0) -> pass_inv w0 [] w0.
Proof.
  intros. constructor; try done; [constructor|by intros uid ?%not_elem_of_nil|by left].
Qed.

(** ** A round *)

Lemma uids_out_app out batches : uids_out (out ++ batches) = uids_out out ++ uids_out batches.
Proof. unfold uids_out. by rewrite concat_app, map_app. Qed.

Lemma show_pending_db (w : BW) : b_db (show_pending env accountID w) = b_db w /\ b_blobs (show_pending env accountID w) = b_blobs w.
Proof. unfold show_pending. by rewrite (body_call_calm env Hcalm). Qed.

(** A round in these conditions claims some rows, whose UIDs it sends, or nothing. *)
Lemma round_cases now locked returning (w w' : BW) x :
  produce env now locked returning accountID mb limit budget None w = (x, w') ->
  exists claimed, ClaimPendingBodies now locked returning mb limit (be_maxAttempts env) (b_db w) = (inr claimed, b_db w')
    /\ b_blobs w' = b_blobs w
    /\ match claimed with
       | [] => x = NothingClaimed
       | _ => exists batches, x = Sends batches /\ uids_out batches = map (fun c => u32 (pb_UpstreamUID c)) claimed
           /\ Forall (fun b => b <> []) batches /\ b_claims w' = remember mb (by_uid claimed) (b_claims w)
       end.
Proof.
  unfold produce. rewrite (body_call_calm env Hcalm).
  destruct (ClaimPendingBodies _ _ _ _ _ _ _) as [[e|claimed] db1] eqn:E; cbn [fst snd]; [discriminate E|].
  destruct claimed as [|c claimed]; intros [<- <-]%pair_eq; [by exists []|]. exists (c :: claimed).
  cbn [b_db b_blobs b_claims set_claims]. destruct (show_pending_db (set_stores (b_blobs w) db1 w)) as [-> ->].
  split_and!; [done..|]. eexists. split_and!; [done| |apply PlanBatches_nonempty|by rewrite show_pending_claims].
  unfold uids_out. rewrite PlanBatches_concat. unfold sized. by rewrite map_map.
Qed.

(** What a claim does, seen from the rows before it. *)
Lemma claim_rows now locked returning db0 db1 claimed :
  db_wf db0 -> uids_are_u32 mb db0 -> (forall l, returning l ≡ₚ l) ->
  ClaimPendingBodies now locked returning mb limit (be_maxAttempts env) db0 = (inr claimed, db1) ->
  (forall id, id ∈ map pb_MailboxMessageID claimed -> exists r uid, rows (mailbox_messages db0) !! id = Some r
     /\ claims_it id r = true /\ mm_upstream_uid r = Some uid /\ uid ∈ map (fun c => u32 (pb_UpstreamUID c)) claimed
     /\ rows (mailbox_messages db1) !! id = Some (start_fetching now r))
  /\ (forall id, id ∉ map pb_MailboxMessageID claimed -> rows (mailbox_messages db1) !! id = rows (mailbox_messages db0) !! id)
  /\ (forall uid, uid ∈ map (fun c => u32 (pb_UpstreamUID c)) claimed -> exists c r, by_uid claimed !! uid = Some c
     /\ pb_MailboxMessageID c ∈ map pb_MailboxMessageID claimed /\ rows (mailbox_messages db0) !! pb_MailboxMessageID c = Some r
     /\ claims_it (pb_MailboxMessageID c) r = true /\ mm_upstream_uid r = Some uid).
Proof.
  intros Hwf Hu Hret E.
  destruct (ClaimPendingBodies_claims now locked returning mb limit (be_maxAttempts env) db0 Hwf ltac:(lia) Hret)
    as (out & db' & E' & _ & _ & Hout & Hrows & _). rewrite E in E'. injection E' as <- <-.
  assert (forall c, c ∈ claimed -> exists r, rows (mailbox_messages db0) !! pb_MailboxMessageID c = Some r
    /\ claims_it (pb_MailboxMessageID c) r = true /\ mm_upstream_uid r = Some (u32 (pb_UpstreamUID c))) as Hc.
  { intros c Hin. destruct (Hout c Hin) as (r & Hr & Hcl & _ & Hup & _). exists r. split_and!; [done..|].
    destruct (claimable_mailbox _ _ _ _ Hcl). rewrite u32_id; [done|]. by eapply Hu. }
  split_and!.
  - intros id Hin. pose proof (Hrows id) as Hr1. rewrite decide_True in Hr1 by done.
    apply list_elem_of_fmap in Hin as (c & -> & Hin). destruct (Hc c Hin) as (r & Hr & Hcl & Hup). exists r, (u32 (pb_UpstreamUID c)).
    split_and!; [done..|by apply (list_elem_of_fmap_2 (fun c => u32 (pb_UpstreamUID c)))|by rewrite Hr1, Hr].
  - intros id Hni. by rewrite Hrows, decide_False.
  - intros uid Hin. destruct (by_uid_lookup claimed uid) as [Hof Hsome]. destruct (Hsome Hin) as [c Hby].
    destruct (Hof c Hby) as [Hin' <-]. destruct (Hc c Hin') as (r & Hr & Hcl & Hup). exists c, r.
    split_and!; [done|by apply (list_elem_of_fmap_2 pb_MailboxMessageID)|done..].
Qed.

Lemma alone_same db db' id r r' : (forall id, mm_message_id <$> rows (mailbox_messages db') !! id = mm_message_id <$> rows (mailbox_messages db) !! id) ->
  messages db' = messages db -> alone db id r -> rows (mailbox_messages db') !! id = Some r' -> alone db' id r'.
Proof.
  intros Hsame Hm (Hr & Hb & Hone) Hr'. assert (mm_message_id r' = mm_message_id r) as E.
  { specialize (Hsame id). rewrite Hr, Hr' in Hsame. by injection Hsame. }
  split; [done|]. rewrite E, Hm. split; [done|]. intros i x Hx Ex. pose proof (Hsame i) as Hi. rewrite Hx in Hi.
  destruct (rows (mailbox_messages db) !! i) as [y|] eqn:Ey; [|discriminate Hi]. injection Hi as Exy. eapply (Hone i y); [done|congruence].
Qed.

(** Two rows of the mailbox with one UID are one row. *)
Lemma one_row db id id' r r' uid : db_wf db -> rows (mailbox_messages db) !! id = Some r -> rows (mailbox_messages db) !! id' = Some r' ->
  mm_mailbox_id r = mb -> mm_mailbox_id r' = mb -> mm_upstream_uid r = Some uid -> mm_upstream_uid r' = Some uid -> id = id'.
Proof.
  intros Hwf Hr Hr' Em Em' Eu Eu'. eapply (wf_upstream_index _ Hwf); [exact Hr|exact Hr'|..]; unfold upstream_index; rewrite ?Eu, ?Eu'; [done|].
  cbn. congruence.
Qed.
Lemma fetching_unclaimed (w : BW) uid id id' r : db_wf (b_db w) -> fetching w uid id ->
  ids_row w id' = Some r -> claims_it id' r = true -> mm_upstream_uid r <> Some uid /\ id' <> id.
Proof.
  intros Hwf [_ (r0 & (Hr0 & _) & Hm0 & Hu0 & Hs0)] Hr [Hm Hs]%claimable_mailbox.
  assert (id' <> id) as Hne by congruence. split; [|done]. intros Hu. apply Hne. by eapply one_row.
Qed.

(** Content already there stays across a claim. *)
Lemma holds_same (w w' : BW) id data : ids_row w' id = ids_row w id -> messages (b_db w') = messages (b_db w) ->
  b_blobs w' = b_blobs w -> holds_body sha256 w id data -> holds_body sha256 w' id data.
Proof. intros E1 E2 E3 (r & m & H). exists r, m. by rewrite E1, E2, E3. Qed.

(** What a round does to the world, for the UIDs it sends. *)
Record claimed_for (uids : list Z) (w w' : BW) : Prop := mk_claimed_for {
  cf_world : storable_world sha256 w';
  cf_blobs : b_blobs w' = b_blobs w;
  cf_messages : messages (b_db w') = messages (b_db w);
  cf_ids : forall id, mm_message_id <$> ids_row w' id = mm_message_id <$> ids_row w id;
  cf_rows : forall id r, ids_row w id = Some r -> ids_row w' id = Some r
    \/ exists now uid, claims_it id r = true /\ mm_upstream_uid r = Some uid /\ uid ∈ uids /\ ids_row w' id = Some (start_fetching now r);
  cf_new : forall uid, uid ∈ uids -> exists c now r, b_claims w' !! (mb, uid) = Some c /\ ids_row w (pb_MailboxMessageID c) = Some r
    /\ claims_it (pb_MailboxMessageID c) r = true /\ mm_upstream_uid r = Some uid
    /\ ids_row w' (pb_MailboxMessageID c) = Some (start_fetching now r);
  cf_old : forall uid, uid ∉ uids -> b_claims w' !! (mb, uid) = b_claims w !! (mb, uid);
  cf_nodup : NoDup uids
}.

Lemma round_claims now locked returning (w w' : BW) batches : storable_world sha256 w -> uids_are_u32 mb (b_db w) ->
  (forall l, returning l ≡ₚ l) ->
  produce env now locked returning accountID mb limit budget None w = (Sends batches, w') -> claimed_for (uids_out batches) w w'.
Proof.
  intros [Hwf Hsound] Hu Hret E. destruct (round_cases _ _ _ _ _ _ E) as (claimed & Ec & Hb & Hx).
  assert (uids_out batches = map (fun c => u32 (pb_UpstreamUID c)) claimed /\ b_claims w' = remember mb (by_uid claimed) (b_claims w)) as [Eu Ecl].
  { destruct claimed; [done|]. destruct Hx as (bs & [= <-] & Eu & _ & Ecl). done. }
  destruct (claimed_claims mb _ _ now locked returning limit _ claimed Hwf ltac:(lia) Hret Ec) as (Em & Hwf' & _).
  destruct (claimed_uids now locked returning mb limit _ _ _ claimed Hwf Hu ltac:(lia) Hret Ec) as [Hnd _].
  destruct (claim_rows now locked returning _ _ claimed Hwf Hu Hret Ec) as (Hin & Hni & Hby). rewrite Eu. clear E Hx Eu Ec.
  split; [split; [done|rewrite Hb; by eapply sound_same]|done|done|..|done].
  - intros id. destruct (decide (id ∈ map pb_MailboxMessageID claimed)) as [Hi|Hi]; [|by rewrite Hni].
    destruct (Hin id Hi) as (r & uid & -> & _ & _ & _ & ->). done.
  - intros id r Hr. destruct (decide (id ∈ map pb_MailboxMessageID claimed)) as [Hi|Hi]; [|by left; rewrite Hni].
    destruct (Hin id Hi) as (r' & uid & Hr' & Hcl & Hup & Hui & ?). assert (r' = r) as -> by congruence. right. by exists now, uid.
  - intros uid Hi. destruct (Hby uid Hi) as (c & r & Hc & Hid & Hr & Hcl & Hup). exists c, now, r.
    destruct (Hin _ Hid) as (r' & uid' & Hr' & _ & _ & _ & ?). assert (r' = r) as -> by congruence.
    split_and!; try done. by rewrite Ecl, remember_lookup, decide_True, Hc by done.
  - intros uid Hi. rewrite Ecl, remember_lookup, decide_True by done. destruct (by_uid claimed !! uid) as [c|] eqn:Hc; [|done].
    destruct Hi. apply by_uid_lookup in Hc as [Hc <-]. by apply (list_elem_of_fmap_2 (fun c => u32 (pb_UpstreamUID c))).
Qed.

Lemma round_inv now locked returning w0 out (w w' : BW) batches : pass_inv w0 out w -> (forall l, returning l ≡ₚ l) ->
  produce env now locked returning accountID mb limit budget None w = (Sends batches, w') -> pass_inv w0 (out ++ batches) w'.
Proof.
  intros [Hw Hun Hu Hnd Hout Hrows Hkept] Hret E. pose proof (sw_wf _ _ Hw) as Hwf.
  destruct (round_claims _ _ _ _ _ _ Hw Hu Hret E) as [Hw' Eb Em Eids Hrow Hnew Hold Hndb]. clear E.
  assert (forall uid id, fetching w uid id -> uid ∉ uids_out batches) as Hdisj.
  { intros uid id Hf Hin. destruct (Hnew uid Hin) as (c & n & r & _ & Hr & Hcl & Hup & _). by destruct (fetching_unclaimed w uid id _ r Hwf Hf Hr Hcl). }
  assert (forall uid id, fetching w uid id -> fetching w' uid id) as Hstill.
  { intros uid id Hf. assert (uid ∉ uids_out batches) as Hni by (by eapply Hdisj). pose proof Hf as [Hc (r & Ha & Hm & Hup & Hst)].
    split; [by rewrite Hold|]. exists r. split_and!; try done. eapply alone_same; [exact Eids|done|exact Ha|].
    destruct (Hrow id r (proj1 Ha)) as [?|(n & u & Hcl & _)]; [done|]. by apply claimable_mailbox in Hcl as [_ ?]; congruence. }
  assert (forall id r, ids_row w' id = Some r -> mm_body_state r = BodyPending -> ids_row w id = Some r) as Hpend.
  { intros id r Hr Hst. pose proof (Eids id) as Ei. rewrite Hr in Ei. destruct (ids_row w id) as [r0|] eqn:H0; [|done].
    destruct (Hrow id r0 H0) as [?|(n & u & _ & _ & _ & ?)]; [congruence|]. assert (r = start_fetching n r0) as -> by congruence. done. }
  assert (forall id data, holds_body sha256 w id data -> holds_body sha256 w' id data) as Hholds.
  { intros id data Hh. apply (holds_same w); try done. destruct Hh as (r & m & Hr & Hst & _).
    destruct (Hrow id r Hr) as [->|(n & u & Hcl & _)]; [done|]. apply claimable_mailbox in Hcl as [_ ?]. congruence. }
  split; [done|..].
  - intros id r Hr Hm Hst. assert (alone (b_db w') id r) as (_ & H1 & H2); [|done].
    eapply alone_same; [exact Eids|done| |done]. split; [by apply Hpend|]. apply Hun; [by apply Hpend|done..].
  - intros id r uid Hr Hm Hst Hup. eapply Hu; [by apply Hpend|done..].
  - rewrite uids_out_app. apply NoDup_app. split_and!; [done| |done]. intros uid Hin. destruct (Hout uid Hin) as [id Hf]. by eapply Hdisj.
  - intros uid Hin. rewrite uids_out_app in Hin. apply elem_of_app in Hin as [Hin|Hin].
    { destruct (Hout uid Hin) as [id Hf]. exists id. by apply Hstill. }
    destruct (Hnew uid Hin) as (c & n & r & Hc & Hr & Hcl & Hup & Hr'). exists (pb_MailboxMessageID c).
    apply claimable_mailbox in Hcl as [Hm Hst]. split; [by exists c|]. exists (start_fetching n r). split_and!; try done.
    eapply alone_same; [exact Eids|done| |done]. split; [exact Hr|]. by apply Hun.
  - intros id r uid Hr Hcl Hup. destruct (Hrows id r uid Hr Hcl Hup) as [H|[[Hin Hf]|Hh]].
    + destruct (Hrow id r H) as [?|(n & u & _ & Hup' & Hin & Hr')]; [by left|]. right; left. assert (u = uid) as -> by congruence.
      rewrite uids_out_app, elem_of_app. split; [by right|]. destruct (Hnew uid Hin) as (c & n' & r1 & Hc & Hr1 & Hcl1 & Hup1 & Hr1').
      destruct (claimable_mailbox _ _ _ _ Hcl) as [Hm Hst]. destruct (claimable_mailbox _ _ _ _ Hcl1) as [Hm1 _].
      assert (pb_MailboxMessageID c = id) as Hid by (by eapply one_row). split; [by exists c|]. exists (start_fetching n r).
      split_and!; try done. eapply alone_same; [exact Eids|done| |done]. split; [exact H|]. by apply Hun.
    + right; left. rewrite uids_out_app, elem_of_app. split; [by left|]. by apply Hstill.
    + right; right. by apply Hholds.
  - intros id data Hh Hs. apply Hholds. by apply Hkept.
Qed.

(** ** A body *)

(** The message of another row stays without a body, and that row's only. *)
Lemma alone_delivered (w w' : BW) uid data claim r id r' : db_wf (b_db w) -> alone (b_db w) (pb_MailboxMessageID claim) r ->
  delivered sha256 mb w w' uid data claim r -> id <> pb_MailboxMessageID claim -> alone (b_db w) id r' -> alone (b_db w') id r'.
Proof.
  intros Hwf Hr [_ Hheld _ Hrows Hkeep _] Hne (Hr' & Hb & Hone).
  assert (mm_message_id r' <> mm_message_id r) as Hmid by (intros E; apply Hne; symmetry; by apply (Hone _ r); [apply Hr|]).
  destruct (wf_mm_message _ Hwf _ _ _ Hr' eq_refl) as [m Hm]. destruct (Hkeep _ m Hmid Hm) as (m' & Hm' & _ & Ek).
  rewrite (Hb m Hm) in Ek. split; [by rewrite Hrows|]. split; [intros x Hx; congruence|]. intros i x Hx Ex.
  destruct (decide (i = pb_MailboxMessageID claim)) as [->|Hi]; [|rewrite Hrows in Hx by done; by eapply Hone].
  destruct Hheld as (x' & y & Hx' & _ & Hy & _ & Hk & _). congruence.
Qed.

Lemma body_kept (w w' : BW) uid data claim r id d : alone (b_db w) (pb_MailboxMessageID claim) r -> mm_body_state r = BodyFetching ->
  delivered sha256 mb w w' uid data claim r -> (sha256 d = sha256 data -> d = data) -> holds_body sha256 w id d -> holds_body sha256 w' id d.
Proof.
  intros Ha Hst [_ Hheld _ Hrows Hkeep Hcont] Hsame Hh.
  assert (id <> pb_MailboxMessageID claim) as Hne.
  { intros ->. destruct Hh as (x & m & Hx & Hs & _). destruct Ha as [Hr _]. congruence. }
  eapply (holds_body_stays sha256 Hsha w w' id d r data); [exact Hh|by apply Hrows| |exact Hkeep|exact Hsame|by eapply holds_content|done].
  intros x Hx E. apply Hne. by eapply Ha.
Qed.

Lemma uids_out_body out1 b1 msg b2 out2 :
  uids_out (out1 ++ (b1 ++ msg :: b2) :: out2) ≡ₚ UID msg :: uids_out (out1 ++ (b1 ++ b2) :: out2).
Proof.
  unfold uids_out. rewrite !concat_app. cbn [concat]. rewrite !map_app. cbn [map].
  solve_Permutation.
Qed.

Lemma body_inv w0 out1 b1 msg b2 out2 (w : BW) : pass_inv w0 (out1 ++ (b1 ++ msg :: b2) :: out2) w ->
  exists w', handleBodyMessage (be_maxSize env) handler (body_message (UID msg, server (UID msg))) w = (None, w')
    /\ pass_inv w0 (out1 ++ (b1 ++ b2) :: out2) w'
    /\ forall id r, ids_row w' id = Some r -> mm_body_state r = BodyPending -> ids_row w id = Some r.
Proof.
  intros [Hw Hun Hu Hnd Hout Hrows Hkept]. pose proof (sw_wf _ _ Hw) as Hwf. set (uid := UID msg) in *.
  pose proof (uids_out_body out1 b1 msg b2 out2) as Hperm. fold uid in Hperm. set (out := out1 ++ (b1 ++ b2) :: out2) in *.
  rewrite Hperm in Hnd. apply NoDup_cons in Hnd as [Hni Hnd].
  assert (forall u, u ∈ uids_out (out1 ++ (b1 ++ msg :: b2) :: out2) <-> u = uid \/ u ∈ uids_out out) as Hel
    by (intros u; by rewrite Hperm, elem_of_cons).
  destruct (Hout uid) as (id0 & (claim & Hc & Hid) & r & Ha & Hm & Hup & Hst); [apply Hel; by left|]. subst id0.
  destruct (wf_mm_message _ Hwf _ _ _ (proj1 Ha) eq_refl) as [m Hmsg].
  destruct (one_body sha256 env message_Read err_bytes Hcalm Hsha mb w uid (server uid) claim r m Hw (Hdigest uid)) as (w' & E & Hd).
  { split; [done|apply Ha|done|by apply Ha]. }
  exists w'. split; [by apply handle_one|].
  assert (forall id x, ids_row w' id = Some x -> mm_body_state x = BodyPending -> id <> pb_MailboxMessageID claim) as Hne.
  { intros id x Hx Hs ->. destruct (de_holds _ _ _ _ _ _ _ _ Hd) as (x' & y & Hx' & Hs' & _). congruence. }
  assert (forall id x, ids_row w' id = Some x -> mm_body_state x = BodyPending -> ids_row w id = Some x) as Hpend.
  { intros id x Hx Hs. rewrite <- (de_rows _ _ _ _ _ _ _ _ Hd) by (by eapply Hne). done. }
  assert (forall u id, u ∈ uids_out out -> fetching w u id -> fetching w' u id) as Hstill.
  { intros u id Hin [(c & Hc' & Ec) (x & Hx & Hmx & Hux & Hsx)]. assert (u <> uid) as Hnu by (by intros ->).
    assert (id <> pb_MailboxMessageID claim) as Hnid by (intros ->; destruct Ha as [Ha _], Hx as [Hx _]; congruence).
    split; [exists c; split; [|done]; rewrite (de_claims _ _ _ _ _ _ _ _ Hd), <- Hc'; apply lookup_delete_ne; congruence|].
    exists x. split_and!; try done. by eapply alone_delivered. }
  assert (forall id d, (sha256 d = sha256 (server uid) -> d = server uid) -> holds_body sha256 w id d -> holds_body sha256 w' id d) as Hholds
    by (intros; by eapply body_kept).
  split; [|done]. split; [exact (de_world _ _ _ _ _ _ _ _ Hd)| | |done|..].
  - intros id x Hx Hmx Hs. assert (alone (b_db w') id x) as (_ & H1 & H2); [|done].
    eapply alone_delivered; [exact Hwf|exact Ha|exact Hd|by eapply Hne|]. split; [by apply Hpend|]. apply Hun; [by apply Hpend|done..].
  - intros id x u Hx Hmx Hs. eapply Hu; [by apply Hpend|done..].
  - intros u Hin. destruct (Hout u) as [id Hf]; [apply Hel; by right|]. exists id. by apply Hstill.
  - intros id x u Hx Hcl Hux. destruct (Hrows id x u Hx Hcl Hux) as [H|[[Hin Hf]|Hh]].
    + left. rewrite (de_rows _ _ _ _ _ _ _ _ Hd); [done|]. intros ->. destruct Ha as [Ha _]. apply claimable_mailbox in Hcl as [_ ?]. congruence.
    + right. apply Hel in Hin as [->|Hin]; [right|left; split; [done|by apply Hstill]].
      destruct Hf as [(c & Hc' & <-) _]. assert (c = claim) as -> by congruence. exact (de_holds _ _ _ _ _ _ _ _ Hd).
    + right; right. by apply Hholds; [apply Happart|].
  - intros id d Hh Hs. apply Hholds; [apply Hs|by apply Hkept].
Qed.

Lemma batch_inv w0 out1 out2 (w : BW) : pass_inv w0 (out1 ++ [] :: out2) w -> pass_inv w0 (out1 ++ out2) (count_command w).
Proof.
  assert (uids_out (out1 ++ [] :: out2) = uids_out (out1 ++ out2)) as E by (unfold uids_out; by rewrite !concat_app).
  intros [[Hwf Hs] Hun Hu Hnd Hout Hrows Hkept]. rewrite E in *. split; try done.
  - intros uid Hin. destruct (Hout uid Hin) as [id [H1 H2]]. by exists id.
  - intros id r uid Hr Hcl Hup. destruct (Hrows id r uid Hr Hcl Hup) as [H|[[Hin [H1 H2]]|Hh]]; [by left|by right; left|by right; right].
Qed.

(** * Every run ends *)

(** The UIDs a claim could take. *)
Definition left_to_claim (db : DB) : gset Z :=
  list_to_set (omap (fun kr => mm_upstream_uid kr.2) (select claims_it (mailbox_messages db))).
Lemma elem_of_left db uid : uid ∈ left_to_claim db <->
  exists id r, rows (mailbox_messages db) !! id = Some r /\ claims_it id r = true /\ mm_upstream_uid r = Some uid.
Proof.
  unfold left_to_claim. rewrite elem_of_list_to_set, list_elem_of_omap. split.
  - intros ([id r] & [Hr Hc]%elem_of_select & Hu). by exists id, r.
  - intros (id & r & Hr & Hc & Hu). exists (id, r). split; [by apply elem_of_select|done].
Qed.

(** Per UID to claim, a round, the arrival of the body and the end of its batch. *)
Definition steps_left (c : pass) : nat := (3 * size (left_to_claim (b_db c.2)) + sum_list_with (fun b => Datatypes.S (length b)) c.1)%nat.

Lemma sum_nonempty (batches : list (list SizedUID)) : Forall (fun b => b <> []) batches ->
  (sum_list_with (fun b => Datatypes.S (length b)) batches <= 2 * length (uids_out batches))%nat.
Proof.
  unfold uids_out. induction 1 as [|b bs Hb _ IH]; [done|]. cbn [sum_list_with concat]. rewrite map_app, length_app, !length_map in *.
  destruct b; [done|]. cbn [length]. lia.
Qed.

Lemma round_left now locked returning (w w' : BW) batches : storable_world sha256 w -> uids_are_u32 mb (b_db w) ->
  (forall l, returning l ≡ₚ l) ->
  produce env now locked returning accountID mb limit budget None w = (Sends batches, w') ->
  (size (left_to_claim (b_db w')) + length (uids_out batches) <= size (left_to_claim (b_db w)))%nat.
Proof.
  intros Hw Hu Hret E. destruct (round_claims _ _ _ _ _ _ Hw Hu Hret E) as [Hw' _ _ Eids Hrow Hnew _ Hnd].
  rewrite <- (size_list_to_set (C := gset Z) _ Hnd), <- size_union.
  - apply subseteq_size. intros uid. rewrite elem_of_union, elem_of_list_to_set, !elem_of_left. intros [(id & r & Hr & Hc & Hup)|Hin].
    + exists id, r. split; [|done]. pose proof (Eids id) as Ei. rewrite Hr in Ei. destruct (ids_row w id) as [r0|] eqn:H0; [|done].
      destruct (Hrow id r0 H0) as [?|(n & u & _ & _ & _ & ?)]; [congruence|]. assert (r = start_fetching n r0) as -> by congruence.
      by apply claimable_mailbox in Hc as [_ ?].
    + destruct (Hnew uid Hin) as (c & n & r & _ & Hr & Hc & Hup & _). by eexists _, r.
  - intros uid. rewrite elem_of_list_to_set, elem_of_left. intros (id & r & Hr & Hc & Hup) Hin.
    destruct (Hnew uid Hin) as (c & n & r1 & _ & _ & Hc1 & Hup1 & Hr1). apply claimable_mailbox in Hc as [Hm Hst], Hc1 as [Hm1 _].
    assert (id = pb_MailboxMessageID c) as -> by (by eapply one_row; [apply Hw'|..]). assert (r = start_fetching n r1) as -> by congruence. done.
Qed.

Lemma pass_step_inv w0 c c' : pass_step c c' -> pass_inv w0 c.1 c.2 -> pass_inv w0 c'.1 c'.2 /\ (steps_left c' < steps_left c)%nat.
Proof.
  intros Hstep Hinv. destruct Hstep as [now locked returning out w batches w' Hret E|out1 b1 msg b2 out2 w w' E|out1 out2 w];
    cbn [fst snd] in *; unfold steps_left; cbn [fst snd].
  - split; [by eapply round_inv|]. rewrite sum_list_with_app. destruct (round_cases _ _ _ _ _ _ E) as (claimed & _ & _ & Hx).
    pose proof (round_left _ _ _ _ _ _ (pi_world _ _ _ Hinv) (pi_uids _ _ _ Hinv) Hret E) as Hleft.
    destruct claimed as [|c claimed]; [done|]. destruct Hx as (bs & [= <-] & Eu & Hne & _).
    pose proof (sum_nonempty batches Hne) as Hsum. rewrite Eu in *. cbn [map length] in *. lia.
  - destruct (body_inv _ _ _ _ _ _ _ Hinv) as (w1 & E1 & Hinv' & Hpend). rewrite E in E1. injection E1 as <-. split; [done|].
    rewrite !sum_list_with_app. cbn [sum_list_with]. rewrite !length_app. cbn [length].
    assert (size (left_to_claim (b_db w')) <= size (left_to_claim (b_db w)))%nat; [|lia]. apply subseteq_size. intros u. rewrite !elem_of_left.
    intros (id & r & Hr & Hc & Hup). exists id, r. split; [|done]. apply Hpend; [done|]. by apply claimable_mailbox in Hc as [_ ?].
  - split; [by apply batch_inv|]. rewrite !sum_list_with_app. cbn [sum_list_with length b_db count_command]. lia.
Qed.

(** A pass that cannot go on has nothing out and nothing left to claim. *)
Lemma pass_moves w0 out (w : BW) : pass_inv w0 out w -> (exists c', pass_step (out, w) c') \/ out = [] /\ left_to_claim (b_db w) = ∅.
Proof.
  intros Hinv. destruct out as [|[|msg b] out].
  - destruct (produce env 0 (fun _ => false) (fun l => l) accountID mb limit budget None w) as [x w'] eqn:E.
    destruct (round_cases _ _ _ _ _ _ E) as (claimed & Ec & _ & Hx). destruct claimed as [|c claimed].
    2:{ destruct Hx as (batches & -> & _). left. eexists. by eapply (pass_round 0 (fun _ => false) (fun l => l)). }
    right. split; [done|]. apply elem_of_equiv_empty_L. intros uid (id & r & Hr & Hc & Hup)%elem_of_left.
    destruct (ClaimPendingBodies_claims 0 (fun _ => false) (fun l => l) mb limit (be_maxAttempts env) (b_db w)) as
      (l & db' & E' & _ & _ & _ & _ & Hfull); [apply (pi_world _ _ _ Hinv)|lia|done|]. rewrite Ec in E'. injection E' as <- <-.
    destruct (Hfull id r uid Hr Hc eq_refl Hup) as [Hl _]; [by apply not_elem_of_nil|]. cbn in Hl. lia.
  - left. eexists. exact (pass_batch [] out w).
  - left. destruct (body_inv w0 [] [] msg b out w Hinv) as (w' & E & _). eexists. exact (pass_body [] [] msg b out w w' E).
Qed.

Lemma run_inv w0 n c : pass_inv w0 [] w0 -> nsteps pass_step n ([], w0) c ->
  pass_inv w0 c.1 c.2 /\ (n + steps_left c <= steps_left ([], w0))%nat.
Proof.
  intros H0. revert c. induction n as [|n IH]; intros c Hn.
  - inversion Hn; subst. cbn. split; [done|lia].
  - apply nsteps_inv_r in Hn as (c1 & Hn & Hs). destruct (IH c1 Hn) as [Hi Hl]. destruct (pass_step_inv w0 c1 c Hs Hi). split; [done|lia].
Qed.

Lemma run_completes w0 c : pass_inv w0 c.1 c.2 -> exists w, rtc pass_step c ([], w) /\ left_to_claim (b_db w) = ∅ /\ pass_inv w0 [] w.
Proof.
  remember (steps_left c) as n eqn:En. revert c En. induction n as [n IH] using lt_wf_ind. intros [out w] -> Hinv.
  destruct (pass_moves w0 out w Hinv) as [[c' Hs]|[-> Hleft]]; [|by exists w].
  destruct (pass_step_inv w0 _ _ Hs Hinv) as [Hinv' Hlt]. destruct (IH _ Hlt c' eq_refl Hinv') as (w' & Hr & H).
  exists w'. split; [by eapply rtc_l|done].
Qed.

(** What is true of a pass with nothing out and nothing left to claim. *)
Lemma pass_complete w0 (w : BW) : pass_inv w0 [] w -> left_to_claim (b_db w) = ∅ ->
  (forall id r uid, ids_row w0 id = Some r -> claims_it id r = true -> mm_upstream_uid r = Some uid -> holds_body sha256 w id (server uid))
  /\ forall id data, holds_body sha256 w0 id data -> (forall uid, sha256 data = sha256 (server uid) -> data = server uid) ->
       holds_body sha256 w id data.
Proof.
  intros Hinv Hleft. split; [|by apply Hinv]. intros id r uid Hr Hc Hup.
  destruct (pi_rows _ _ _ Hinv id r uid Hr Hc Hup) as [H|[[[]%not_elem_of_nil _]|H]]; [|done].
  assert (uid ∈ left_to_claim (b_db w)) as Hin by (apply elem_of_left; by exists id, r). rewrite Hleft in Hin. by apply not_elem_of_empty in Hin.
Qed.
End download.

(** [C7] A body pass that nothing disturbs downloads the mailbox.  Take a mailbox after its
    metadata pass, and a server that delivers, under each UID, its message (none over the
    size limit, no two different ones with one digest).  However the rounds of the producer
    and the arrivals of the bodies at the workers interleave, whatever a round finds locked
    and however large the batches are:  the pass ends, after at most three steps for each
    message there is to claim; while it has not ended it can go on; and once it cannot,
    no batch is out, every message that could be claimed when the pass began has its row
    stored with exactly the octets the server has under its UID, and every body stored
    before is still what it was. *)
Theorem pass_downloads_everything {S : Type} (sha256 : bytes -> list Z) `{BlobStoreLaws sha256 S} (env : BodyEnv)
    (message_Read : bytes -> ReadResult) (err_bytes : err -> bytes) (accountID mb limit : Z) (budget : BatchBudget)
    (server : Z -> bytes) (w0 : BodyWorld S) :
  let step := pass_step env message_Read err_bytes accountID mb limit budget server in
  let complete w :=
    (forall id r uid, rows (mailbox_messages (b_db w0)) !! id = Some r -> claimable mb (be_maxAttempts env) id r = true ->
       mm_upstream_uid r = Some uid -> holds_body sha256 w id (server uid))
    /\ forall id data, holds_body sha256 w0 id data -> (forall uid, sha256 data = sha256 (server uid) -> data = server uid) ->
         holds_body sha256 w id data in
  (forall d, length (sha256 d) = 32%nat /\ is_bytes (sha256 d)) -> calm_bodies env ->
  db_wf (b_db w0) -> blobs_sound sha256 (b_blobs w0) (b_db w0) -> unfetched mb (b_db w0) -> uids_are_u32 mb (b_db w0) -> 1 <= limit ->
  (forall uid, fits (be_maxSize env) (uid, server uid) = true) -> (forall uid, content_digest (sha256 (server uid))) ->
  (forall uid uid', sha256 (server uid) = sha256 (server uid') -> server uid = server uid') ->
  (forall n c, nsteps step n ([], w0) c -> (n <= 3 * size (left_to_claim env mb (b_db w0)))%nat)
  /\ (forall out w, rtc step ([], w0) (out, w) -> (exists c, step (out, w) c) \/ out = [] /\ complete w)
  /\ exists w, rtc step ([], w0) ([], w) /\ complete w.
Proof.
  intros step complete Hsha Hcalm Hwf Hs Hun Hu Hlim Hfits Hdig Hap.
  pose proof (start_inv sha256 env mb server w0 ltac:(by split) Hun Hu) as Hstart.
  split_and!.
  - intros n c Hn. destruct (run_inv sha256 env message_Read err_bytes accountID mb limit budget server
      Hcalm Hsha Hlim Hfits Hdig Hap w0 n c Hstart Hn) as [_ Hle]. unfold steps_left in Hle. cbn in Hle. lia.
  - intros out w [n Hn]%rtc_nsteps. destruct (run_inv sha256 env message_Read err_bytes accountID mb limit budget server
      Hcalm Hsha Hlim Hfits Hdig Hap w0 n _ Hstart Hn) as [Hinv _].
    destruct (pass_moves sha256 env message_Read err_bytes accountID mb limit budget server Hcalm Hsha Hlim Hfits Hdig Hap w0 out w Hinv)
      as [Hc|[-> Hleft]]; [by left|]. right. split; [done|]. by eapply pass_complete.
  - destruct (run_completes sha256 env message_Read err_bytes accountID mb limit budget server Hcalm Hsha Hlim Hfits Hdig Hap
      w0 ([], w0) Hstart) as (w & Hr & Hleft & Hinv). exists w. split; [exact Hr|]. by eapply pass_complete.
Qed.

(** ** The example mailbox *)

(** Two messages of it are the same. *)
Definition ex_server (uid : Z) : bytes := if uid =? 12 then lit "hi" else lit "hello".
Definition ex_pass_step := @pass_step MemStore (Mem_BlobStore ex_sha) ex_body_env ex_read (fun _ => []) 1 1 2 (mkBudget 4096 50 0) ex_server.

(** All three are downloaded, in at most nine steps, wherever the pass stops. *)
Lemma pass_downloads_everything_witness :
  (forall n c, nsteps ex_pass_step n ([], ex_world) c -> (n <= 9)%nat)
  /\ exists w, rtc ex_pass_step ([], ex_world) ([], w)
       /\ @holds_body MemStore ex_sha (Mem_BlobStore ex_sha) w 2 (lit "hi")
       /\ @holds_body MemStore ex_sha (Mem_BlobStore ex_sha) w 3 (lit "hello").
Proof.
  assert (forall uid, ex_server uid = lit "hi" \/ ex_server uid = lit "hello") as Htwo
    by (intros uid; unfold ex_server; destruct (uid =? 12); [by left|by right]).
  destruct (@pass_downloads_everything MemStore ex_sha (Mem_BlobStore ex_sha) (Mem_laws ex_sha) ex_body_env ex_read (fun _ => []) 1 1 2
    (mkBudget 4096 50 0) ex_server ex_world ex_sha_ok
    (conj (fun _ => eq_refl) (conj (fun _ _ => eq_refl) (conj (fun _ => eq_refl) (fun _ => eq_refl))))
    ex_db_wf (ex_db_sound NewMemStore) ex_unfetched ex_uids ltac:(lia)) as (Hbound & _ & w & Hr & Hall & _).
  - intros uid. destruct (Htwo uid) as [->| ->]; vm_compute; reflexivity.
  - intros uid. destruct (Htwo uid) as [->| ->]; (refine (bool_decide_unpack _ _); vm_compute; exact I).
  - intros u1 u2. destruct (Htwo u1) as [->| ->], (Htwo u2) as [->| ->]; try done; (intros E; vm_compute in E; discriminate E).
  - split.
    + intros n c Hn. assert (size (left_to_claim ex_body_env 1 ex_db) = 3%nat) as Es by (vm_compute; reflexivity).
      specialize (Hbound n c Hn). change (b_db ex_world) with ex_db in Hbound. rewrite Es in Hbound. exact Hbound.
    + exists w. split; [exact Hr|]. split.
      * destruct (rows (mailbox_messages ex_db) !! 2) as [r|] eqn:Er; [|by vm_compute in Er].
        refine (Hall 2 r 12 Er _ _); vm_compute in Er; injection Er as <-; reflexivity.
      * destruct (rows (mailbox_messages ex_db) !! 3) as [r|] eqn:Er; [|by vm_compute in Er].
        refine (Hall 3 r 13 Er _ _); vm_compute in Er; injection Er as <-; reflexivity.
Defined.
