(* ===== verification/ReplayServer.v ===== *)
(** What a replayed change means on the server: a change the pass marks as done has been
    accepted by the server, for its own message, in its own mailbox, with its own flags. *)
From S2P Require Import Prelude NumSet Planner GoStrings Retry Upstream Crypto Schema StoreMailboxes StoreMessages StoreMutations StoreRuns StoreAccounts StoreInvariant StoreSteps StoreProps SyncPass Effects SyncRun SyncRunTheorems Replay ReplayProps ReplayTheorems.
From Stdlib Require Import String.
From stdpp Require Import strings gmap list.
Open Scope list_scope.
Open Scope Z_scope.

(** * The server *)

(** What IMAP promises of a connection: a new one has no mailbox open, SELECT opens the
    mailbox it names or, when it fails, leaves none open, and STORE concerns the mailbox
    that is open.  [accepted w name uid flags]: by [w] the server has accepted such a
    STORE, which nothing undoes. *)
Class Server (W C : Type) `{Connection W C} (store_flags : C -> Z -> list string -> W -> (err + unit) * W) := {
  mailbox_of : C -> W -> option string;
  accepted : W -> string -> Z -> list string -> Prop;
  grows (w w' : W) : Prop := forall name uid flags, accepted w name uid flags -> accepted w' name uid flags;
  connect_opens_none : forall w c w', connect w = (inr c, w') -> mailbox_of c w' = None;
  select_opens : forall c name ro w sel w', select_mailbox c name ro w = (inr sel, w') -> mailbox_of c w' = Some name;
  failed_select_closes : forall c name ro w e w', select_mailbox c name ro w = (inl e, w') -> mailbox_of c w' = None;
  store_keeps_mailbox : forall c uid flags w, mailbox_of c (store_flags c uid flags w).2 = mailbox_of c w;
  store_accepts : forall c uid flags w u w', store_flags c uid flags w = (inr u, w') ->
    exists name, mailbox_of c w = Some name /\ accepted w' name uid flags;
  connect_grows : forall w, grows w (connect w).2;
  select_grows : forall c name ro w, grows w (select_mailbox c name ro w).2;
  store_grows : forall c uid flags w, grows w (store_flags c uid flags w).2;
  close_grows : forall c w, grows w (close_client c w);
  wait_grows : forall d w, grows w (wait d w).2
}.
#[global] Arguments grows {W C _ store_flags _}.
#[global] Arguments accepted {W C _ store_flags _}.
#[global] Arguments mailbox_of {W C _ store_flags _}.

Section server.
Context {K : Type} `{AEAD K}.
Context {W C : Type} `{HC : Connection W C}.
Context (store_flags : C -> Z -> list string -> W -> (err + unit) * W) `{HS : !Server W C store_flags}.
Notation grows := (grows (store_flags := store_flags)).
Notation accepted := (accepted (store_flags := store_flags)).
Notation mailbox_of := (mailbox_of (store_flags := store_flags)).

#[local] Instance grows_preorder : PreOrder grows.
Proof. split; [by intros w ???|]. intros w1 w2 w3 G1 G2 name uid flags ?. by apply G2, G1. Qed.

(** ** A session's client *)

(** Its client has the session's mailbox open, or none. *)
Definition right_mailbox (s : Session C) (c : C) (w : W) : Prop :=
  mailbox_of c w = None \/ mailbox_of c w = Some (se_selected s).
Definition session_right (s : Session C) (w : W) : Prop :=
  match se_client s with Some c => right_mailbox s c w | None => True end.

Lemma dial_right s w r s' w' : se_client s = None -> Upstream.dial s w = (r, s', w') ->
  se_selected s' = se_selected s /\ grows w w' /\
  match r with inl _ => se_client s' = None | inr c => se_client s' = Some c /\ right_mailbox s c w' end.
Proof.
  intros Hn. unfold Upstream.dial. pose proof (connect_grows w) as Gc. destruct (connect w) as [[e|c] w1] eqn:Ec; cbn [snd] in Gc.
  { by intros [= <- <- <-]. }
  apply connect_opens_none in Ec. destruct (String.eqb _ ""); [intros [= <- <- <-]; split_and!; try done; by left|].
  pose proof (select_grows c (se_selected s) (se_readOnly s) w1) as Gs.
  destruct (select_mailbox c _ _ w1) as [[e|sel] w2] eqn:Es; cbn [snd] in Gs; intros [= <- <- <-].
  - split_and!; [done| |done]. transitivity w1; [done|]. transitivity w2; [done|]. apply close_grows.
  - split_and!; [done|by transitivity w1|done|]. right. by eapply select_opens.
Qed.

Lemma ensureConnected_right s w r s' w' : session_right s w -> ensureConnected s w = (r, s', w') ->
  se_selected s' = se_selected s /\ grows w w' /\
  match r with inl _ => se_client s' = None | inr c => se_client s' = Some c /\ right_mailbox s c w' end.
Proof.
  unfold ensureConnected, session_right. intros Hr. destruct (se_client s) as [c|] eqn:Ec; [|by apply dial_right].
  destruct (negb (poisoned c w)); [by intros [= <- <- <-]|]. intros E.
  apply dial_right in E as (E1 & E2 & E3); [|done]. split_and!; [done| |done].
  transitivity (close_client c w); [apply close_grows|done].
Qed.

Lemma discard_right s w s' w' : discard s w = (s', w') ->
  se_selected s' = se_selected s /\ grows w w' /\ se_client s' = None.
Proof.
  unfold discard. destruct (se_client s) as [c|] eqn:Ec; intros [= <- <-]; [|done].
  split_and!; [done|apply close_grows|done].
Qed.

(** A command run by the session: it runs on a client with the right mailbox open, or
    none, and its error leaves it so. *)
Section do_right.
Context {A : Type} (rand : Z -> Z) (base max : Z) (op : string) (fn : C -> W -> (err + A) * W).

Lemma Do_loop_right n attempt attempts lastErr s w x s' w' :
  (forall c w1 e w2, right_mailbox s c w1 -> fn c w1 = (inl e, w2) -> right_mailbox s c w2) ->
  (forall c w1, grows w1 (fn c w1).2) -> session_right s w ->
  Do_loop rand base max op fn n attempt attempts lastErr s w = (x, s', w') ->
  se_selected s' = se_selected s /\ grows w w' /\
  match x with
  | inl _ => session_right s' w'
  | inr v => exists c w1, se_client s' = Some c /\ right_mailbox s c w1 /\ fn c w1 = (inr v, w')
  end.
Proof.
  intros Herr Hfn. revert attempt lastErr s w Herr. induction n as [|n IH]; intros attempt lastErr s w Herr Hs; cbn [Do_loop].
  { by intros [= <- <- <-]. }
  destruct (ctx_err w); [by intros [= <- <- <-]|].
  destruct (ensureConnected s w) as [[[e|c] s1] w1] eqn:Ee; apply ensureConnected_right in Ee as (E1 & G1 & R1); try done.
  - assert (session_right s1 w1) as Hs1 by (unfold session_right; by rewrite R1).
    destruct (bool_decide _); [by intros [= <- <- <-]|]. unfold waitBeforeRetry.
    pose proof (wait_grows (Backoff rand attempt base max) w1) as Gw. destruct (wait _ w1) as [[] w2]; cbn [snd] in Gw.
    + intros E. apply IH in E as (E2 & G2 & R2).
      * split_and!; [congruence|by transitivity w1; [|transitivity w2]|]. destruct x as [|v]; [done|].
        destruct R2 as (c' & w0 & ? & Hr & ?). exists c', w0. split_and!; [done| |done]. unfold right_mailbox in *. by rewrite E1 in Hr.
      * unfold right_mailbox. rewrite E1. exact Herr.
      * unfold session_right. by rewrite R1.
    + intros [= <- <- <-]. split_and!; [done|by transitivity w1|]. unfold session_right. by rewrite R1.
  - destruct R1 as [Ec Hr1]. pose proof (Hfn c w1) as G2. destruct (fn c w1) as [[e|v] w2] eqn:Ef; cbn [snd] in G2.
    + destruct (negb (recoverable e)).
      { intros [= <- <- <-]. split_and!; [done|by transitivity w1|]. unfold session_right. rewrite Ec.
        unfold right_mailbox. rewrite E1. by eapply Herr. }
      destruct (discard s1 w2) as [s2 w3] eqn:Ed. apply discard_right in Ed as (E3 & G3 & N3). unfold waitBeforeRetry.
      pose proof (wait_grows (Backoff rand attempt base max) w3) as Gw. destruct (wait _ w3) as [[] w4]; cbn [snd] in Gw.
      * intros E. apply IH in E as (E4 & G4 & R4).
        -- split_and!; [congruence|do 4 (etransitivity; [eassumption|]); exact G4|]. destruct x as [|y]; [done|].
           destruct R4 as (c' & w0 & ? & Hr & ?). exists c', w0. split_and!; [done| |done]. unfold right_mailbox in *. by rewrite E3, E1 in Hr.
        -- unfold right_mailbox. rewrite E3, E1. exact Herr.
        -- unfold session_right. by rewrite N3.
      * intros [= <- <- <-]. split_and!; [congruence|do 3 (etransitivity; [eassumption|]); exact Gw|]. unfold session_right. by rewrite N3.
    + intros [= <- <- <-]. split_and!; [done|by transitivity w1|]. by exists c, w1.
Qed.
End do_right.

Lemma Select_right rand base max attempts name ro s w x s' w' : session_right s w ->
  Session_Select rand base max attempts name ro s w = (x, s', w') ->
  grows w w' /\ session_right s' w' /\ se_selected s' = match x with inl _ => se_selected s | inr _ => name end.
Proof.
  intros Hs. unfold Session_Select, Do. destruct (Do_loop _ _ _ _ _ _ _ _ _ _ _) as [[y s1] w1] eqn:E.
  apply Do_loop_right in E as (E1 & G1 & R1); [| |by intros; apply select_grows|done].
  - destruct y as [e|sel]; intros [= <- <- <-]; [done|]. split_and!; [done| |done].
    destruct R1 as (c & w0 & Ec & _ & Es). unfold session_right. cbn [se_client]. rewrite Ec. right. by eapply select_opens.
  - intros c w2 e w3 _ Es. left. by eapply failed_select_closes.
Qed.

Lemma Store_right rand base max attempts op uid flags s w x s' w' : session_right s w ->
  Do rand base max op (fun c => store_flags c uid flags) attempts s w = (x, s', w') ->
  grows w w' /\ session_right s' w' /\ se_selected s' = se_selected s /\
  match x with inl _ => True | inr _ => accepted w' (se_selected s) uid flags end.
Proof.
  intros Hs. unfold Do. intros E.
  apply Do_loop_right in E as (E1 & G1 & R1); [| |by intros; apply store_grows|done].
  - destruct x as [e|u]; [by split_and!|]. destruct R1 as (c & w0 & Ec & Hr & Es).
    pose proof (store_keeps_mailbox c uid flags w0) as Hm. rewrite Es in Hm. cbn [snd] in Hm.
    apply store_accepts in Es as (name & En & Ha). destruct Hr as [Hr|Hr]; [congruence|].
    split_and!; [done| |done|congruence]. unfold session_right. rewrite Ec. unfold right_mailbox. right. congruence.
  - intros c w2 e w3 Hr Es. pose proof (store_keeps_mailbox c uid flags w2) as Hm. rewrite Es in Hm. cbn [snd] in Hm.
    unfold right_mailbox in *. by rewrite Hm.
Qed.

(** ** A pass *)

Context (env : ReplayEnv K).
Notation calls := (rp_env env).
Notation RW := (Replay W C).

(** Nobody else touches the queue during the pass. *)
Hypothesis queue_alone : forall n db, pending_mutations (ev_others calls n db) = pending_mutations db.
Hypothesis returning_rows : forall n l, rp_returning env n l ≡ₚ l.

(** The server has the change: it was asked to store exactly these flags on this message
    of this mailbox, and accepted.  A change of a message unknown upstream needs nothing. *)
Definition reached (w : W) (p : FlagPayload) : Prop :=
  fp_UpstreamUID p = 0 \/ accepted w (fp_Mailbox p) (u32 (fp_UpstreamUID p)) (fp_Flags p).

Lemma reached_grows w w' p : grows w w' -> reached w p -> reached w' p.
Proof. intros G [?|?]; [by left|right; by apply G]. Qed.

(** The pass believes the mailbox to be open that its session will open. *)
Definition on_course (r : RW) : Prop :=
  session_right (rp_session r) (rp_net r) /\ rp_selectedMailbox r = se_selected (rp_session r).

Lemma applyMutation_reaches mu (r : RW) : on_course r ->
  exists o r', applyMutation store_flags env mu r = (inr o, r') /\ on_course r' /\ grows (rp_net r) (rp_net r')
    /\ rp_db r' = rp_db r /\ (o = None -> reached (rp_net r') (mu_Payload mu)).
Proof.
  intros [Hs Hsel]. unfold applyMutation. destruct (Z.eqb_spec (fp_UpstreamUID (mu_Payload mu)) 0) as [E0|_].
  { exists None, r. split_and!; try done. intros _. by left. }
  assert (forall r1 : RW, on_course r1 -> se_selected (rp_session r1) = fp_Mailbox (mu_Payload mu) -> exists o r',
    (answer ← on_session (Do (rp_rand env) (rp_base env) (rp_max env) "store flags"
        (fun c => store_flags c (u32 (fp_UpstreamUID (mu_Payload mu))) (fp_Flags (mu_Payload mu))) (rp_attempts env));
     match answer with inl e => mret (Some e) | inr _ => mret None end) r1 = (inr o, r')
    /\ on_course r' /\ grows (rp_net r1) (rp_net r') /\ rp_db r' = rp_db r1 /\ (o = None -> reached (rp_net r') (mu_Payload mu)))
    as Hstore.
  { intros r1 [Hs1 Hsel1] Em. unfold on_session. cbv beta iota delta [mbind SE_bind mret SE_ret].
    destruct (Do _ _ _ _ _ _ _ _) as [[x s1] w1] eqn:E. apply Store_right in E as (G & R & E2 & Ha); [|done].
    destruct x as [e|u]; eexists _, _; (split; [reflexivity|]); (split; [split; [exact R|cbn; congruence]|]); split_and!; try done.
    intros _. right. cbn. by rewrite <- Em. }
  unfold look, updates. cbv beta iota delta [mbind SE_bind mret SE_ret].
  destruct (String.eqb_spec (rp_selectedMailbox r) (fp_Mailbox (mu_Payload mu))) as [Em|_].
  { apply Hstore; [done|congruence]. }
  unfold on_session at 1. destruct (Session_Select _ _ _ _ _ _ _ _) as [[x s1] w1] eqn:E.
  apply Select_right in E as (G & R & E2); [|done]. destruct x as [e|sel].
  - eexists _, _. split; [reflexivity|]. split_and!; [split; [exact R|cbn; congruence]|done..].
  - destruct (Hstore (with_selected (fp_Mailbox (mu_Payload mu)) (with_session s1 w1 r))) as (o & r' & E' & H1' & H2' & H3' & H4').
    + by split.
    + done.
    + exists o, r'. split_and!; [exact E'|done| |done|done]. transitivity w1; [done|exact H2'].
Qed.

(** Compared with the queue [q0] the pass began with, no change has become another one,
    and those marked done since have reached the server. *)
Definition marks (q0 : gmap Z mutation_row) (w : W) (db : DB) : Prop :=
  forall id row, queue db !! id = Some row -> exists row0, q0 !! id = Some row0 /\ pm_payload row = pm_payload row0
    /\ (pm_status row = MutSucceeded -> pm_status row0 = MutSucceeded \/ reached w (pm_payload row)).
Definition honest (q0 : gmap Z mutation_row) (r : RW) : Prop := on_course r /\ marks q0 (rp_net r) (rp_db r).

Lemma marks_grows q0 w w' db : grows w w' -> marks q0 w db -> marks q0 w' db.
Proof.
  intros G Hm id row Hr. destruct (Hm id row Hr) as (row0 & H0 & Hp & Hs). exists row0. split_and!; [done..|].
  intros E. destruct (Hs E); [by left|right; by eapply reached_grows].
Qed.

Lemma marks_update q0 w p f db :
  (forall id row row0, queue db !! id = Some row -> p id row = true -> q0 !! id = Some row0 -> pm_payload row = pm_payload row0 ->
     pm_payload (f row) = pm_payload row /\ (pm_status (f row) = MutSucceeded -> reached w (pm_payload row))) ->
  marks q0 w db -> marks q0 w (update_mutations p f db).
Proof.
  intros Hf Hm id row. unfold update_mutations. db_simpl. rewrite lookup_update_Some. intros (row1 & Hr & ->).
  destruct (Hm id row1 Hr) as (row0 & H0 & Hp & Hs). exists row0. split; [done|].
  destruct (p id row1) eqn:Ep; [|done]. destruct (Hf id row1 row0 Hr Ep H0 Hp) as [E1 E2]. rewrite E1. split; [done|].
  intros E. right. by apply E2.
Qed.

Lemma store_honest q0 applied {A} (m : Z -> sql A) (R : W -> Prop) (Q : A -> Prop) :
  (forall w now db, R w -> marks q0 w db -> marks q0 w (exec (m now) db)
     /\ forall x db', m now db = (inr x, db') -> Q x) ->
  triple (fun r => R (rp_net r) /\ honest q0 r) (store env applied m) (fun x r => Q x /\ honest q0 r) (fun _ => honest q0).
Proof.
  intros Hm r [HR [Hc Hk]]. unfold store. set (n := rp_calls r). set (db := ev_others calls n (rp_db r)).
  assert (marks q0 (rp_net r) db) as Hk'.
  { intros id row. unfold db. rewrite queue_alone. apply Hk. }
  destruct (Hm (rp_net r) (ev_now calls n) db HR Hk') as [Hm' HQ]. unfold exec in Hm'.
  destruct (ev_fault calls n); [|by split|by split].
  destruct (m (ev_now calls n) db) as [[e|x] db']; [by split|]. split; [by eapply HQ|by split].
Qed.
(** A query. *)
Lemma store_gets q0 applied {A} (m : sql A) : (forall db, exec m db = db) ->
  triple (honest q0) (store env applied (fun _ => m)) (fun _ => honest q0) (fun _ => honest q0).
Proof.
  intros Hm r Hr. pose proof (store_honest q0 applied (fun _ => m) (fun _ => True) (fun _ => True)) as Ht.
  specialize (Ht ltac:(intros; by rewrite Hm) r (conj I Hr)).
  destruct (store env applied _ r) as [[?|?] ?]; [done|apply Ht].
Qed.

(** A change as it was queued. *)
Definition queued_as (q0 : gmap Z mutation_row) (mu : Mutation) : Prop :=
  exists row0, q0 !! mu_ID mu = Some row0 /\ pm_payload row0 = mu_Payload mu.

Lemma replay_one_honest q0 applied mu : queued_as q0 mu ->
  triple (honest q0) (replay_one store_flags env applied mu) (fun _ => honest q0) (fun _ => honest q0).
Proof.
  intros (row0 & H0 & Hp0) r [Hc Hk]. unfold replay_one. unfold mbind at 1, SE_bind at 1.
  destruct (applyMutation_reaches mu r Hc) as (o & r1 & -> & Hc1 & G & Edb & Ho).
  unfold mbind at 1, SE_bind at 1. unfold updates at 1.
  assert (honest q0 (with_tried (mu_ID mu) o r1)) as Hh.
  { split; [exact Hc1|]. cbn [rp_net rp_db with_tried]. rewrite Edb. by eapply marks_grows. }
  destruct o as [e|].
  - refine (triple_bind _ _ _ _ _ _ (store_honest q0 applied _ (fun _ => True) (fun _ => True) _) _ _ (conj I Hh)).
    + intros w now db _ Hm. split; [|done]. apply marks_update; [|done]. intros id row row' _ _ _ _. split; [done|].
      cbn. by destruct (_ <=? _).
    + intros u r2 [_ Hh2]. destruct (bool_decide _); exact Hh2.
  - assert (reached (rp_net (with_tried (mu_ID mu) None r1)) (mu_Payload mu)) as Ho' by exact (Ho eq_refl).
    refine (triple_bind _ _ _ _ _ _ (store_honest q0 applied _ (fun w => reached w (mu_Payload mu)) (fun _ => True) _) _ _ (conj Ho' Hh)).
    + intros w now db Hw Hm. split; [|done]. apply marks_update; [|done]. intros id row row' _ Hid H0' Hp. split; [done|].
      intros _. apply Z.eqb_eq in Hid. rewrite Hid, H0 in H0'. injection H0' as <-. by rewrite Hp, Hp0.
    + intros u r2 [_ Hh2]. exact Hh2.
Qed.

Lemma replay_batch_honest q0 batch : (forall mu, mu ∈ batch -> queued_as q0 mu) -> forall applied,
  triple (honest q0) (replay_batch store_flags env applied batch) (fun _ => honest q0) (fun _ => honest q0).
Proof.
  induction batch as [|mu batch IH]; intros Hb applied; [by intros r Hr|]. cbn [replay_batch].
  eapply triple_bind; [apply replay_one_honest, Hb; left|]. intros applied'. apply IH. intros x Hx. apply Hb. by right.
Qed.

Lemma claim_honest q0 applied n a :
  triple (honest q0) (store env applied (fun now => ClaimDueMutations now (rp_locked env n) (rp_returning env n) a batch_size (rp_worker env)))
    (fun batch r => (forall mu, mu ∈ batch -> queued_as q0 mu) /\ honest q0 r) (fun _ => honest q0).
Proof.
  intros r Hr. refine (store_honest q0 applied _ (fun _ => True) (fun batch => forall mu, mu ∈ batch -> queued_as q0 mu) _ r (conj I Hr)).
  intros w now db _ Hm. split.
  - unfold exec, ClaimDueMutations. cbn [snd]. apply marks_update; [|done]. done.
  - intros batch db' [= <- _] mu Hmu. rewrite returning_rows in Hmu. apply list_elem_of_fmap in Hmu as ([id row] & -> & Hin).
    destruct (due_rows_spec now (rp_locked env n) a batch_size db ltac:(done)) as (_ & Hdue & _).
    destruct (Hdue id row Hin) as [Hrow _]. destruct (Hm id row Hrow) as (row0 & H0 & Hp & _). by exists row0.
Qed.

Lemma replay_loop_honest q0 fuel a : forall applied,
  triple (honest q0) (replay_loop store_flags env fuel a applied) (fun _ => honest q0) (fun _ => honest q0).
Proof.
  induction fuel as [|fuel IH]; intros applied; [by intros r Hr|]. cbn [replay_loop].
  apply (triple_bind _ _ _ (fun _ => honest q0)); [by intros r Hr|]. intros [e|]; [by intros r Hr|].
  apply (triple_bind _ _ _ (fun _ => honest q0)); [by intros r Hr|]. intros n.
  eapply triple_bind; [apply claim_honest|]. intros [|mu batch] r [Hb Hr]; [exact Hr|].
  refine (triple_bind _ _ _ (fun _ => honest q0) _ _ (replay_batch_honest q0 _ Hb applied) _ r Hr). intros applied'. apply IH.
Qed.

Lemma pass_honest fuel a (r : RW) :
  honest (queue (rp_db r)) (pass_start r) ->
  forall out r', ReplayMutations store_flags env fuel a r = (out, r') -> marks (queue (rp_db r)) (rp_net r') (rp_db r').
Proof.
  intros Hr out r'. unfold ReplayMutations. fold (pass_start r).
  match goal with |- context [?m (pass_start r)] => assert (triple (honest (queue (rp_db r))) m
    (fun _ => honest (queue (rp_db r))) (fun _ => honest (queue (rp_db r)))) as Ht end.
  { eapply triple_bind; [by apply store_gets|]. intros pending. destruct (pending =? 0); [by intros ? ?|].
    eapply triple_bind; [apply store_gets; intros db; unfold exec, GetAccount; by destruct (rows _ !! _)|].
    intros account. destruct (negb _); [by intros ? ?|]. destruct (credentials _ _); [by intros ? ?|]. apply replay_loop_honest. }
  specialize (Ht (pass_start r) Hr).
  match type of Ht with match ?x with _ => _ end => destruct x as [o r1] end.
  assert (honest (queue (rp_db r)) r1) as [_ Hm] by (by destruct o).
  unfold Close. destruct (discard (rp_session r1) (rp_net r1)) as [s w] eqn:Ed. apply discard_right in Ed as (_ & G & _).
  intros [= _ <-]. cbn [rp_db rp_net with_session]. by eapply marks_grows.
Qed.

(** [C12] A change is only marked as done once the server has it.  Whatever fails in the
    database, on the network or in the server, however connections break and come back,
    and even where the pass is wrong about which mailbox is open: after the pass every
    queued change still is the change it was, and those it has marked done ask for
    nothing upstream or have been accepted by the server as a STORE of exactly their
    flags, on their UID, with their mailbox open. *)
Theorem done_means_accepted (fuel : nat) (a : Z) (r r' : RW) (out : option (Z * option err)) :
  ReplayMutations store_flags env fuel a r = (out, r') ->
  forall id row, queue (rp_db r') !! id = Some row ->
  exists row0, queue (rp_db r) !! id = Some row0 /\ pm_payload row = pm_payload row0
    /\ (pm_status row = MutSucceeded -> pm_status row0 = MutSucceeded \/ reached (rp_net r') (pm_payload row)).
Proof.
  intros E. refine (pass_honest fuel a r _ out r' E). split; [by split|].
  intros id row Hr. exists row. split_and!; [done..|]. intros ?. by left.
Qed.
End server.

(** * A server that keeps a log *)

(** The mailbox that is open, and the STOREs accepted. *)
Definition LogWorld : Type := option string * list (string * Z * list string).
#[local] Instance log_connection : Connection LogWorld unit := {|
  connect w := (inr tt, (None, w.2));
  select_mailbox _ name ro w :=
    if String.eqb name "INBOX" then (inr (mk_SelectedMailbox name 0 1 1 0 ro), (Some name, w.2))
    else (inl (ErrUpstream FatalMailbox "NONEXISTENT" (ErrImap "NO" "NONEXISTENT" "no such mailbox")), (None, w.2));
  poisoned _ _ := false;
  close_client _ w := (None, w.2);
  ctx_err _ := None;
  wait _ w := (true, w)
|}.
Definition log_store (_ : unit) (uid : Z) (flags : list string) (w : LogWorld) : (err + unit) * LogWorld :=
  match w.1 with Some name => (inr tt, (w.1, w.2 ++ [(name, uid, flags)])) | None => (inl not_selected, w) end.
#[local] Instance log_server : Server LogWorld unit log_store.
Proof.
  refine {| mailbox_of _ w := w.1; accepted w name uid flags := (name, uid, flags) ∈ w.2 |}.
  - by intros w c w' [= _ <-].
  - intros c name ro w sel w'. cbn. by destruct (String.eqb name "INBOX"); intros [= _ <-].
  - intros c name ro w e w'. cbn. by destruct (String.eqb name "INBOX"); intros [= _ <-].
  - intros c uid flags [[name|] l]; reflexivity.
  - intros c uid flags [[name|] l] u w'; intros [= _ <-]. exists name. cbn. split; [done|]. apply elem_of_app. right. left.
  - by intros w name uid flags.
  - intros c name ro w n u f. cbn. by destruct (String.eqb name "INBOX").
  - intros c uid flags [[name|] l] n u f Hin; cbn; [apply elem_of_app; by left|done].
  - by intros c w name uid flags.
  - by intros d w name uid flags.
Defined.

Lemma done_means_accepted_witness : exists row,
  queue (rp_db (ReplayMutations (H:=plain_aead) (H0:=log_connection) log_store ex_replay_env 4 1
    (mk_Replay ex_queue_db 0 (None, []) NewSession "" [])).2) !! 1 = Some row /\ pm_status row = MutSucceeded
  /\ reached log_store (rp_net (ReplayMutations (H:=plain_aead) (H0:=log_connection) log_store ex_replay_env 4 1
    (mk_Replay ex_queue_db 0 (None, []) NewSession "" [])).2) (mk_FlagPayload 11 "INBOX" ["\Seen"%string]).
Proof.
  set (r := mk_Replay ex_queue_db 0 (None, []) NewSession "" [] : Replay LogWorld unit).
  assert ((fun row => (pm_status row, pm_payload row)) <$> queue (rp_db (ReplayMutations (H:=plain_aead) (H0:=log_connection)
    log_store ex_replay_env 4 1 r).2) !! 1 = Some (MutSucceeded, mk_FlagPayload 11 "INBOX" ["\Seen"%string])) as (row & Hr & [= Hs Hp])%fmap_Some
    by (vm_compute; reflexivity).
  exists row. split_and!; [exact Hr|by symmetry|].
  destruct (ReplayMutations (H:=plain_aead) (H0:=log_connection) log_store ex_replay_env 4 1 r) as [out r'] eqn:E.
  destruct (done_means_accepted (H:=plain_aead) (HC:=log_connection) log_store ex_replay_env (fun _ _ => eq_refl) (fun _ _ => ltac:(reflexivity)) 4 1 r r' out E 1 row Hr)
    as (row0 & H0 & _ & Hdone).
  cbn [snd] in *. rewrite Hp. destruct (Hdone (eq_sym Hs)) as [Habs|Hreached]; [|exact Hreached].
  assert (pm_status <$> queue ex_queue_db !! 1 = Some MutPending) as Hpend by (vm_compute; reflexivity).
  change (queue ex_queue_db !! 1 = Some row0) in H0. rewrite H0 in Hpend. injection Hpend as Hpend. congruence.
Defined.
